(* ===== verification/_CoqProject ===== *)
-Q . S2P
Prelude.v
Dlist.v
DlistOps.v
DlistSort.v
DlistProps.v
Vaddr.v
Arith64.v
Bitmap.v
Hash.v
HashProps.v
Threads.v
ThreadsInv.v
ThreadsSteps.v
ThreadsProps.v
Children.v
ChildrenInv.v
ChildrenProps.v
Bytes.v
CString.v
CStringProps.v
CStdlib.v
CStdlibProps.v
Stdio.v
StdioProps.v
Random.v
Process.v
ProcessProps.v
Page.v
PageProps.v
Intq.v
Timer.v
Vga.v
Serial.v
Kbd.v
Disk.v
Ata.v
AtaProps.v
Swap.v
Palloc.v
PageAlloc.v
Segments.v
Interrupt.v
InterruptProps.v
Pagedir.v
PagedirProps.v
Paging.v
Spaces.v
Malloc.v
MallocInv.v
MallocProps.v
Inode.v
InodeProps.v
File.v
FileProps.v
FreeMapProps.v
InodeCreate.v
Directory.v
DirectoryProps.v
FilesysOpens.v
Volume.v
VolumeProps.v
VolumeRemove.v
VolumeFiles.v
Frame.v
FrameProps.v
FrameEvict.v
FrameFault.v
Elf.v
Mmap.v
Syscall.v
SyscallProps.v
