(* ===== verification/Prelude.v ===== *)
(** * A verification of the kernel of tiny-os

    tiny-os is a small teaching kernel for 32-bit x86 in C (a Pintos
    descendant): a library of data structures (src/lib, src/lib/kernel),
    threads with semaphores, locks and condition variables (src/threads), a
    page allocator (src/threads/palloc.c), a simple file system
    (src/filesys), virtual memory with swap (src/vm) and user processes
    (src/userprog).  This development translates the core of it into Rocq
    functions and proves what those functions do.

    ** How C code is modelled

    A function that only computes is a function; a function that changes
    state is a state-passing function [ST S A] over the state of its
    component, which returns, panics, or runs out of the model's fuel
    (below).  A failed [ASSERT], a [PANIC], an access through a null or
    unmapped pointer and an access outside an array are all [Panic], so a
    theorem that concludes [Ret _] also says that none of them happens.
    Integers are [Z] at the width of their C type, with the wrap-around
    written out ([+u], [s32], ...).  Loops that are not structural carry
    fuel: either the definition computes enough of it from its arguments
    (the number of turns of a counted loop plus the last test), or, for
    loops over strings and lists in memory, it is an argument and theorems
    hold for every fuel above a bound given in the statement.  In both cases
    the theorems conclude that the call returns.  [malloc] and other
    allocations may fail at any call: their outcomes are arguments or a
    sequence in the state, over which theorems quantify.

    ** The files

    - Prelude.v: outcomes, the state monad, its total and partial
      correctness rules ([wp], [wlp]), machine integers, bits, runs of a
      transition relation.
    - Dlist.v, DlistOps.v, DlistSort.v, DlistProps.v: lib/kernel/list.c,
      function by function on the [prev] and [next] pointers of list
      elements, refined to sequences; sorting is correct for every strict
      weak order (class [StrictWeak]).  Later files use a list through its
      sequence.
    - Vaddr.v: threads/vaddr.h, threads/pte.h, lib/round.h.
    - Arith64.v: lib/arithmetic.c, 64-bit division from 32-bit division.
    - Bitmap.v: lib/kernel/bitmap.c on its 32-bit elements, refined to an
      array of Booleans.
    - Hash.v, HashProps.v: lib/kernel/hash.c, buckets as sequences, refined
      to a dictionary for every hash function compatible with the order
      (class [HashKey]).
    - Threads.v, ThreadsInv.v, ThreadsSteps.v, ThreadsProps.v:
      threads/thread.c and threads/synch.c as a transition system.  A thread
      runs a sequence of actions, each a stretch of code that the source
      runs with interrupts off (or a single statement); between actions the
      timer may preempt it.  The invariant is proved for every interleaving.
    - Children.v, ChildrenInv.v, ChildrenProps.v: the children lists of
      threads/thread.c, process_wait and the start of a process
      (userprog/process.c), and exec, wait and exit, as a transition system
      over any number of processes.
    - Bytes.v: byte buffers and little-endian integers.
    - CString.v, CStringProps.v: lib/string.c on a byte-addressed memory.
    - CStdlib.v, CStdlibProps.v: lib/stdlib.c and lib/ctype.h on the same
      memory; sorting and searching for every comparison function (class
      [Comparison]).
    - Stdio.v, StdioProps.v: the conversions of lib/stdio.c and vsnprintf,
      over any output function.
    - Random.v: lib/random.c.
    - Process.v, ProcessProps.v: the command line and the initial stack of a
      process (userprog/process.c).
    - Page.v, PageProps.v: the supplemental page table (vm/page.c) over
      Hash.v, and the segments of an executable (userprog/process.c).
    - Intq.v: devices/intq.c, with histories of readers and writers.
    - Timer.v: devices/timer.c, sleeping, delays and their calibration.
    - Vga.v: devices/vga.c over the cursor registers of the display (class
      [Crtc]).
    - Serial.v: devices/serial.c and devices/input.c over Intq.v, with
      histories of calls and interrupts.
    - Kbd.v: devices/kbd.c over Serial.v.
    - Disk.v: what disk_read and disk_write of devices/disk.c promise.
    - Ata.v, AtaProps.v: devices/disk.c over any hardware behind the ports
      (class [Ports]); with ATA devices there it keeps that promise.
    - Swap.v: vm/swap.c over Disk.v.
    - Palloc.v: threads/palloc.c over Bitmap.v.
    - PageAlloc.v: what the page allocator promises to its clients (class
      [PageAlloc]) and the proof that Palloc.v provides it.
    - Segments.v: userprog/gdt.c and userprog/tss.c, over any page
      allocator, and descriptors as the processor reads them.
    - Interrupt.v, InterruptProps.v: threads/interrupt.c and the
      registrations of the boot; the interrupt controllers by their data
      sheet.
    - Pagedir.v, PagedirProps.v: userprog/pagedir.c, over any page
      allocator.
    - Paging.v: paging_init of threads/init.c, the processor's walk of page
      tables, and the directories of new processes.
    - Spaces.v: the page directories of several processes at once.
    - Malloc.v, MallocInv.v, MallocProps.v: threads/malloc.c, over any page
      allocator.
    - Inode.v, InodeProps.v: the state of the file system and the reading,
      writing, opening and protecting of filesys/inode.c; a file is a range
      of the bytes of the disk.
    - File.v, FileProps.v: filesys/file.c, filesys/free-map.c, the file
      functions of bitmap.c, and inode_create and inode_close, which call
      them; sharing of open inodes and write protection over every sequence
      of file operations.
    - FreeMapProps.v: the free map in memory and on disk.
    - InodeCreate.v: what inode_create leaves on the disk.
    - Directory.v, DirectoryProps.v: filesys/directory.c and
      filesys/filesys.c; a directory as a dictionary.
    - FilesysOpens.v: what creating, opening and removing files does to the
      files and inodes that are open.
    - Frame.v: vm/frame.c, page faults (userprog/exception.c), the stack and
      the exit of a process (userprog/process.c), over all of virtual memory.
    - FrameProps.v, FrameEvict.v, FrameFault.v: the clock, and what a page
      holds before and after replacement and page faults.
    - Elf.v: load of userprog/process.c, which reads executables through the
      file system.
    - Mmap.v: expire_page of vm/page.c and munmap of userprog/syscall.c.
    - Syscall.v, SyscallProps.v: userprog/syscall.c, the calls on files and
      the checks of user memory.

    ** What the theorems show

    Data structures (lists, hash tables, bitmaps) and libraries (division,
    strings, sorting, formatted output, random numbers) compute what their
    comments promise, or, where they do not, the theorem says what they
    compute instead (the remainder of Arith64.v, the result of memmove).
    Threads: exactly one thread runs, blocked threads are exactly the
    waiters of semaphores, no wake-up is lost, locks exclude each other, the
    ready list is served in order; interrupt queues deliver their bytes in
    order.  Memory: pages, heap blocks and swap slots in use never overlap,
    freeing gives back exactly what was taken, what is written to swap is
    what is read back, a page that is mapped is found until it is unmapped,
    a page directory is freed with all its pages and nothing else; the clock
    finds its victim, replacement moves a page out of memory and a page
    fault brings it back without changing what any page of any process
    holds.  Devices: the screen shows
    the end of what was printed, the serial port sends and receives every
    byte once and in order, the keyboard delivers the characters of its keys,
    the disk driver finds the disks that are there and reads and writes the
    sector asked for, whenever the interrupts of the disk come.
    The machine: segment descriptors and gates mean to the processor what
    they should, the boot maps memory for the kernel and for nobody else,
    every process starts with that mapping, and a device interrupt reaches
    its handler, is acknowledged and yields exactly if asked.
    Processes: in every interleaving wait gives each exit code to the parent,
    once, and waits only for a living child; the initial stack holds the
    words of the command line, and an executable is loaded as its headers
    say, whatever the file holds.  Files: reads and writes touch exactly the bytes they should and no other file,
    open inodes are shared and counted, a denied write stays denied, the
    free map survives a round trip through its file, new files are zeroed
    and use free sectors, the written pages of a mapped file go back to it,
    directories add and find names like a dictionary,
    and the descriptors of a process are isolated from each other over every
    sequence of system calls.

    Faults of the code are theorems too: a directory entry can be
    overwritten when memory runs short during dir_add, a failed
    filesys_create loses the new file's data sectors, calloc and malloc miss
    overflows of the size, the second of two readers of an interrupt queue
    can fail its assertion, a segment of zeros may overlap another segment,
    more than 100 words overrun an array, replacement of the only frame
    follows a freed pointer, the clock never ends when no frame is loaded,
    parents and children that exit together, or a new process that
    runs too early, follow null pointers,
    and a user program can stop the
    machine through a descriptor that is not open, a negative position or
    its stack pointer.

    ** What is not modelled

    Assembly (loader, context switch, interrupt entry) has no C source to
    translate.  Output for people (messages, statistics, back traces, the
    console over the display and the serial port) is left out where it is
    only output.  Example, test and host programs are not part of the
    kernel.  Functions that hold one lock for their whole duration (swap,
    page allocation, frames, the heap) are single steps.  The file system
    does no locking of its own and is modelled for one thread. *)

From stdpp Require Export base tactics list gmap strings sorting.
From Stdlib Require Export ZArith Lia.
From Stdlib Require Import Btauto.

Open Scope Z_scope.
Coercion Z.of_nat : nat >-> Z.

(** ** Outcomes of kernel code

    A C function of the kernel either returns, or stops the machine (a
    failed [ASSERT], [PANIC], [NOT_REACHED], or an access through a pointer
    that is not mapped), or is cut short by the fuel of the model.  Every
    theorem that says what a function returns concludes [Ret _], which
    rules out the two other outcomes. *)
Inductive outcome (A : Type) : Type :=
| Ret (a : A)
| Panic
| OutOfFuel.
Arguments Ret {A} a.
Arguments Panic {A}.
Arguments OutOfFuel {A}.

#[export] Instance outcome_ret : MRet outcome := fun A a => Ret a.
#[export] Instance outcome_bind : MBind outcome := fun A B k m =>
  match m with
  | Ret a => k a
  | Panic => Panic
  | OutOfFuel => OutOfFuel
  end.

(** [ASSERT (b)] of lib/debug.h, in code without state. *)
Definition check (b : bool) : outcome unit := if b then Ret tt else Panic.

Lemma outcome_bind_assoc {A B C} (m : outcome A) (f : A -> outcome B) (g : B -> outcome C) :
  ((m ≫= f) ≫= g) = (m ≫= fun a => f a ≫= g).
Proof. by destruct m. Qed.

Lemma outcome_bind_ret {A B} (m : outcome A) (f : A -> outcome B) b :
  (m ≫= f) = Ret b <-> exists a, m = Ret a /\ f a = Ret b.
Proof. destruct m; simpl; split; [by eauto|by intros (? & [= <-] & ?)| |by intros (? & ? & ?)| |by intros (? & ? & ?)]; done. Qed.

(** ** Stateful kernel code *)
Definition ST (S A : Type) : Type := S -> outcome (A * S).

#[export] Instance ST_ret {S} : MRet (ST S) := fun A a s => Ret (a, s).
#[export] Instance ST_bind {S} : MBind (ST S) := fun A B k m s =>
  match m s with
  | Ret (a, s') => k a s'
  | Panic => Panic
  | OutOfFuel => OutOfFuel
  end.

Definition ASSERT {S} (b : bool) : ST S unit :=
  fun s => if b then Ret (tt, s) else Panic.
Definition panic {S A} : ST S A := fun _ => Panic.
Definition no_fuel {S A} : ST S A := fun _ => OutOfFuel.
Definition gets {S A} (f : S -> A) : ST S A := fun s => Ret (f s, s).
Definition modify {S} (f : S -> S) : ST S unit := fun s => Ret (tt, f s).
(** Code without state within code with state. *)
Definition lift {S A} (o : outcome A) : ST S A := fun s =>
  match o with
  | Ret a => Ret (a, s)
  | Panic => Panic
  | OutOfFuel => OutOfFuel
  end.
Definition when {S} (b : bool) (m : ST S unit) : ST S unit :=
  if b then m else mret tt.

(** Short-circuit [&&] and [||] of C, whose right operand runs only when
    the left one does not decide. *)
Definition andM {S} (a b : ST S bool) : ST S bool :=
  x ← a; if x : bool then b else mret false.
Definition orM {S} (a b : ST S bool) : ST S bool :=
  x ← a; if x : bool then mret true else b.

(** Total correctness: [m] run in [s] returns, and its result and final
    state satisfy [Q]. *)
Definition wp {S A} (m : ST S A) (s : S) (Q : A -> S -> Prop) : Prop :=
  match m s with
  | Ret (a, s') => Q a s'
  | Panic | OutOfFuel => False
  end.

Section WP.
Context {S : Type}.
Implicit Types s : S.

Lemma wp_ret {A} (a : A) s Q : Q a s -> wp (mret a) s Q.
Proof. done. Qed.

Lemma wp_bind {A B} (m : ST S A) (k : A -> ST S B) s Q :
  wp m s (fun a s' => wp (k a) s' Q) -> wp (m ≫= k) s Q.
Proof.
  unfold wp, mbind, ST_bind. by destruct (m s) as [[a s']| |].
Qed.

Lemma wp_mono {A} (m : ST S A) s (P Q : A -> S -> Prop) :
  wp m s P -> (forall a s', P a s' -> Q a s') -> wp m s Q.
Proof. unfold wp. destruct (m s) as [[a s']| |]; auto. Qed.

Lemma wp_assert (b : bool) s (Q : unit -> S -> Prop) :
  b = true -> Q tt s -> wp (ASSERT b) s Q.
Proof. by intros ->. Qed.

Lemma wp_gets {A} (f : S -> A) s Q : Q (f s) s -> wp (gets f) s Q.
Proof. done. Qed.

Lemma wp_modify (f : S -> S) s Q : Q tt (f s) -> wp (modify f) s Q.
Proof. done. Qed.

Lemma wp_lift {A} (o : outcome A) a s Q : o = Ret a -> Q a s -> wp (lift o) s Q.
Proof. by intros ->. Qed.

Lemma wp_when (b : bool) m s (Q : unit -> S -> Prop) :
  (b = true -> wp m s Q) -> (b = false -> Q tt s) -> wp (when b m) s Q.
Proof. intros H1 H2. destruct b; [by apply H1 | by apply H2]. Qed.

Lemma wp_elim {A} (m : ST S A) s Q :
  wp m s Q <-> exists a s', m s = Ret (a, s') /\ Q a s'.
Proof.
  unfold wp. destruct (m s) as [[a s']| |]; split; try done.
  - eauto.
  - by intros (? & ? & [= <- <-] & ?).
  - by intros (? & ? & ? & ?).
  - by intros (? & ? & ? & ?).
Qed.

(** Partial correctness: if [m] returns, its result satisfies [Q].  Used
    for invariants of transition relations, whose steps are the runs that
    return. *)
Definition wlp {A} (m : ST S A) s (Q : A -> S -> Prop) : Prop :=
  match m s with
  | Ret (a, s') => Q a s'
  | Panic | OutOfFuel => True
  end.

Lemma wlp_ret {A} (a : A) s Q : Q a s -> wlp (mret a) s Q.
Proof. done. Qed.

Lemma wlp_bind {A B} (m : ST S A) (k : A -> ST S B) s Q :
  wlp m s (fun a s' => wlp (k a) s' Q) -> wlp (m ≫= k) s Q.
Proof. unfold wlp, mbind, ST_bind. by destruct (m s) as [[a s']| |]. Qed.

Lemma wlp_mono {A} (m : ST S A) s (P Q : A -> S -> Prop) :
  wlp m s P -> (forall a s', P a s' -> Q a s') -> wlp m s Q.
Proof. unfold wlp. destruct (m s) as [[a s']| |]; auto. Qed.

Lemma wlp_assert (b : bool) s (Q : unit -> S -> Prop) :
  (b = true -> Q tt s) -> wlp (ASSERT b) s Q.
Proof. unfold wlp, ASSERT. destruct b; auto. Qed.

Lemma wlp_gets {A} (f : S -> A) s Q : Q (f s) s -> wlp (gets f) s Q.
Proof. done. Qed.

Lemma wlp_modify (f : S -> S) s Q : Q tt (f s) -> wlp (modify f) s Q.
Proof. done. Qed.

Lemma wlp_panic {A} s (Q : A -> S -> Prop) : wlp panic s Q.
Proof. done. Qed.

Lemma wlp_elim {A} (m : ST S A) s Q a s' : wlp m s Q -> m s = Ret (a, s') -> Q a s'.
Proof. unfold wlp. intros H E. by rewrite E in H. Qed.

(** From a [wp] to the equation of the run. *)
Lemma wp_run {A} (m : ST S A) s (Q : A -> S -> Prop) :
  wp m s Q -> exists a s', m s = Ret (a, s') /\ Q a s'.
Proof. apply wp_elim. Qed.

Lemma wp_run_unit (m : ST S unit) s (Q : S -> Prop) :
  wp m s (fun _ => Q) -> exists s', m s = Ret (tt, s') /\ Q s'.
Proof. intros ([] & s' & E & H)%wp_run. eauto. Qed.

(** Running the first part of a sequence. *)
Lemma bind_run {A B} (m : ST S A) (k : A -> ST S B) s a s' :
  m s = Ret (a, s') -> (m ≫= k) s = k a s'.
Proof. intros E. unfold mbind, ST_bind. by rewrite E. Qed.

Lemma bind_assoc {A B C} (m : ST S A) (f : A -> ST S B) (g : B -> ST S C) s : ((m ≫= f) ≫= g) s = (m ≫= fun a => f a ≫= g) s.
Proof. unfold mbind, ST_bind. by destruct (m s) as [[a s']| |]. Qed.

Lemma bind_panics {A B} (m : ST S A) (k : A -> ST S B) s : m s = Panic -> (m ≫= k) s = Panic.
Proof. intros E. unfold mbind, ST_bind. by rewrite E. Qed.

(** A function that only reads its state. *)
Lemma wp_run_read {A} (m : ST S A) s (Q : A -> Prop) :
  wp m s (fun a s' => s' = s /\ Q a) -> exists a, m s = Ret (a, s) /\ Q a.
Proof. intros (a & s' & E & -> & H)%wp_run. eauto. Qed.
End WP.

(** ** Machine integers

    The kernel is 32-bit x86 code: [int] and [long] have 32 bits, [size_t],
    [uintptr_t] and pointers are unsigned 32-bit numbers, [long long] has 64
    bits.  A value of a C integer type is a [Z] within the range of the type;
    the functions below bring the result of an operation back into range. *)
Definition u8 (x : Z) : Z := x mod 2 ^ 8.
Definition u16 (x : Z) : Z := x mod 2 ^ 16.
Definition u32 (x : Z) : Z := x mod 2 ^ 32.
Definition u64 (x : Z) : Z := x mod 2 ^ 64.
Definition s32 (x : Z) : Z := (x + 2 ^ 31) mod 2 ^ 32 - 2 ^ 31.
Definition s64 (x : Z) : Z := (x + 2 ^ 63) mod 2 ^ 64 - 2 ^ 63.

Definition is_u8 (x : Z) : Prop := 0 <= x < 2 ^ 8.
Definition is_u16 (x : Z) : Prop := 0 <= x < 2 ^ 16.
Definition is_u32 (x : Z) : Prop := 0 <= x < 2 ^ 32.
Definition is_u64 (x : Z) : Prop := 0 <= x < 2 ^ 64.
Definition is_s32 (x : Z) : Prop := - 2 ^ 31 <= x < 2 ^ 31.
Definition is_s64 (x : Z) : Prop := - 2 ^ 63 <= x < 2 ^ 63.

#[export] Instance is_u32_dec x : Decision (is_u32 x).
Proof. unfold is_u32. apply _. Defined.

Declare Scope c_scope.
Delimit Scope c_scope with C.
Notation "x +u y" := (u32 (x + y)) (at level 50, left associativity) : c_scope.
Notation "x -u y" := (u32 (x - y)) (at level 50, left associativity) : c_scope.
Notation "x *u y" := (u32 (x * y)) (at level 40, left associativity) : c_scope.
Open Scope c_scope.

(** Case analysis on every Boolean comparison of integers in sight. *)
Ltac zcases :=
  repeat match goal with
  | |- context [?a <? ?b] => destruct (Z.ltb_spec a b)
  | |- context [?a <=? ?b] => destruct (Z.leb_spec a b)
  | |- context [?a =? ?b] => destruct (Z.eqb_spec a b)
  | H : context [?a <? ?b] |- _ => destruct (Z.ltb_spec a b)
  | H : context [?a <=? ?b] |- _ => destruct (Z.leb_spec a b)
  | H : context [?a =? ?b] |- _ => destruct (Z.eqb_spec a b)
  end.

(** Range facts: unfold the range predicates and the constants. *)
Ltac urange :=
  unfold is_u8, is_u16, is_u32, is_u64, is_s32, is_s64, u8, u16, u32, u64, s32, s64 in *;
  change (2 ^ 8) with 256 in *;
  change (2 ^ 16) with 65536 in *;
  change (2 ^ 31) with 2147483648 in *;
  change (2 ^ 32) with 4294967296 in *;
  change (2 ^ 63) with 9223372036854775808 in *;
  change (2 ^ 64) with 18446744073709551616 in *.

Lemma u8_small x : is_u8 x -> u8 x = x.
Proof. apply Z.mod_small. Qed.
Lemma u16_small x : is_u16 x -> u16 x = x.
Proof. apply Z.mod_small. Qed.
Lemma u32_small x : is_u32 x -> u32 x = x.
Proof. apply Z.mod_small. Qed.
Lemma u64_small x : is_u64 x -> u64 x = x.
Proof. apply Z.mod_small. Qed.
Lemma u8_range x : is_u8 (u8 x).
Proof. apply Z.mod_pos_bound. lia. Qed.
Lemma u32_range x : is_u32 (u32 x).
Proof. apply Z.mod_pos_bound. lia. Qed.
Lemma u64_range x : is_u64 (u64 x).
Proof. apply Z.mod_pos_bound. lia. Qed.

Lemma s32_small x : is_s32 x -> s32 x = x.
Proof. intros H. urange. rewrite Z.mod_small; lia. Qed.
Lemma s64_small x : is_s64 x -> s64 x = x.
Proof. intros H. urange. rewrite Z.mod_small; lia. Qed.
Lemma s32_range x : is_s32 (s32 x).
Proof. urange. pose proof (Z.mod_pos_bound (x + 2147483648) 4294967296). lia. Qed.
Lemma s64_range x : is_s64 (s64 x).
Proof.
  urange. pose proof (Z.mod_pos_bound (x + 9223372036854775808) 18446744073709551616). lia.
Qed.

Create HintDb machine.
Create Rewrite HintDb machine.
#[export] Hint Resolve u8_range u32_range u64_range s32_range s64_range : machine.
#[export] Hint Rewrite u8_small u16_small u32_small u64_small s32_small s64_small
  using (solve [urange; lia]) : machine.

(** Drop the wrap-around of every operation that is shown not to wrap. *)
Ltac nowrap := autorewrite with machine in *.

(** ** Bits *)
Lemma testbit_above x n i : 0 <= x < 2 ^ n -> n <= i -> Z.testbit x i = false.
Proof.
  intros Hx Hi. destruct (decide (x = 0)) as [->|]; [apply Z.testbit_0_l|].
  apply Z.bits_above_log2; [lia|].
  assert (Z.log2 x < n) by (apply Z.log2_lt_pow2; lia). lia.
Qed.

Lemma bits_range x n : 0 <= n -> 0 <= x ->
  (forall i, n <= i -> Z.testbit x i = false) -> 0 <= x < 2 ^ n.
Proof.
  intros Hn Hx Hb. split; [done|].
  destruct (decide (x = 0)) as [->|]; [lia|].
  apply Z.log2_lt_pow2; [lia|].
  destruct (decide (Z.log2 x < n)); [done|exfalso].
  assert (Z.testbit x (Z.log2 x) = true) by (apply Z.bit_log2; lia).
  rewrite Hb in H; [done|lia].
Qed.

Lemma land_ones_low x n : 0 <= n -> Z.land x (2 ^ n - 1) = x mod 2 ^ n.
Proof. intros. rewrite <- Z.land_ones by lia. by rewrite Z.ones_equiv. Qed.

(** A number in two parts: the low [p] bits and the rest. *)
Lemma testbit_split r m p i : 0 <= p -> 0 <= r < 2 ^ p -> 0 <= i ->
  Z.testbit (r + m * 2 ^ p) i = if i <? p then Z.testbit r i else Z.testbit m (i - p).
Proof.
  intros Hp Hr Hi. destruct (Z.ltb_spec i p).
  - rewrite <- (Z.mod_pow2_bits_low (r + _) p i), Z.mod_add, Z.mod_small by lia. done.
  - replace i with ((i - p) + p) at 1 by lia. rewrite <- Z.div_pow2_bits by lia.
    rewrite Z.div_add, Z.div_small by lia. done.
Qed.

(** ** Fields of a word *)

(** The [n] bits of [x] from bit [k] on. *)
Definition field (k n x : Z) : Z := (x / 2 ^ k) mod 2 ^ n.

Lemma land_field x k n : 0 <= k -> 0 <= n -> Z.land x (Z.shiftl (Z.ones n) k) = field k n x * 2 ^ k.
Proof.
  intros Hk Hn. unfold field. apply Z.bits_inj'. intros i Hi. rewrite <- Z.shiftl_mul_pow2 by lia. rewrite Z.land_spec.
  destruct (Z.ltb_spec i k); [rewrite !Z.shiftl_spec_low by lia; apply andb_false_r|]. rewrite !Z.shiftl_spec by lia.
  destruct (Z.ltb_spec (i - k) n).
  - rewrite Z.ones_spec_low, Z.mod_pow2_bits_low, Z.div_pow2_bits by lia. rewrite andb_true_r. f_equal. lia.
  - rewrite Z.ones_spec_high, Z.mod_pow2_bits_high by lia. apply andb_false_r.
Qed.

(** Below and above: [|] is addition. *)
Lemma lor_above a q k : 0 <= k -> 0 <= a < 2 ^ k -> Z.lor a (q * 2 ^ k) = a + q * 2 ^ k.
Proof.
  intros Hk Ha. rewrite Z.add_nocarry_lor; [done|]. apply Z.bits_inj'. intros i Hi. rewrite Z.land_spec, Z.bits_0.
  destruct (Z.ltb_spec i k).
  - rewrite <- Z.shiftl_mul_pow2, Z.shiftl_spec_low by lia. apply andb_false_r.
  - by rewrite (testbit_above a k) by lia.
Qed.
Lemma lor_below a q k : 0 <= k -> 0 <= a < 2 ^ k -> Z.lor (q * 2 ^ k) a = a + q * 2 ^ k.
Proof. intros Hk Ha. rewrite Z.lor_comm. by apply lor_above. Qed.

(** Fields of a number in two parts. *)
Lemma field_low k n m a q : 0 <= k -> 0 <= n -> k + n <= m -> field k n (a + q * 2 ^ m) = field k n a.
Proof.
  intros Hk Hn Hm. unfold field. replace (2 ^ m) with (2 ^ (m - k - n) * 2 ^ n * 2 ^ k) by (rewrite <- !Z.pow_add_r by lia; f_equal; lia).
  rewrite !Z.mul_assoc, Z.div_add by lia. by rewrite Z.mod_add by lia.
Qed.

Lemma field_high k n m a q : 0 <= m <= k -> 0 <= a < 2 ^ m -> field k n (a + q * 2 ^ m) = field (k - m) n q.
Proof.
  intros Hm Ha. unfold field. replace (2 ^ k) with (2 ^ m * 2 ^ (k - m)) by (rewrite <- Z.pow_add_r by lia; f_equal; lia).
  rewrite <- Z.div_div by lia. rewrite Z.div_add by lia. by rewrite (Z.div_small a), Z.add_0_l by lia.
Qed.

Lemma field_all n q : 0 <= q < 2 ^ n -> field 0 n q = q.
Proof. intros Hq. unfold field. rewrite Z.div_1_r. by apply Z.mod_small. Qed.

Lemma field_zero k n : field k n 0 = 0.
Proof. unfold field. by rewrite Zdiv_0_l, Zmod_0_l. Qed.

Lemma field_above k n x : 0 <= x < 2 ^ k -> field k n x = 0.
Proof. intros Hx. unfold field. rewrite Z.div_small by lia. apply Zmod_0_l. Qed.

Lemma field_range k n x : 0 <= n -> 0 <= field k n x < 2 ^ n.
Proof. intros Hn. apply Z.mod_pos_bound. lia. Qed.

Lemma field_split k n n' x : 0 <= k -> 0 <= n -> 0 <= n' -> field k (n + n') x = field k n x + 2 ^ n * field (k + n) n' x.
Proof.
  intros Hk Hn Hn'. unfold field. rewrite !Z.pow_add_r, <- Z.div_div by lia. apply Z.rem_mul_r; lia.
Qed.

(** Reading fields of a sum of fields. *)
Ltac read_fields := repeat first [rewrite field_low by lia | rewrite field_high by lia | rewrite field_all by lia | rewrite field_zero | rewrite field_above by lia].

(** ** Runs of a transition relation *)
Section Reach.
Context {A : Type} (step : A -> A -> Prop).

Inductive reach (x : A) : A -> Prop :=
| reach_refl : reach x x
| reach_step y z : reach x y -> step y z -> reach x z.

Lemma reach_invariant (I : A -> Prop) x y :
  I x -> (forall a b, I a -> step a b -> I b) -> reach x y -> I y.
Proof. intros Hx Hs. induction 1; eauto. Qed.

Lemma reach_trans x y z : reach x y -> reach y z -> reach x z.
Proof. intros Hxy. induction 1; eauto using reach. Qed.
End Reach.
