(* ===== verification/Dlist.v ===== *)
(** * Doubly linked lists: lib/kernel/list.c at the level of its pointers

    The state is the memory that holds the [struct list_elem] cells.  The
    first half translates list.c function by function; the second half
    defines the sequence a list represents and proves what each operation
    does to that sequence.  Every other component uses lists through these
    sequences. *)

From S2P Require Import Prelude.

(** ** Data *)

Definition NULL : Z := 0.

(** [struct list_elem]. *)
Record list_elem := mk_elem { le_prev : Z; le_next : Z }.

(** The cells in memory, by address.  An address without a cell faults. *)
Abbreviation heap := (gmap Z list_elem).

(** [struct list] is its two header cells, one after the other. *)
Definition head_of (list : Z) : Z := list.
Definition tail_of (list : Z) : Z := list + 8.

Definition get_prev (a : Z) : ST heap Z := fun h =>
  match h !! a with Some e => Ret (le_prev e, h) | None => Panic end.
Definition get_next (a : Z) : ST heap Z := fun h =>
  match h !! a with Some e => Ret (le_next e, h) | None => Panic end.
Definition set_prev (a v : Z) : ST heap unit := fun h =>
  match h !! a with
  | Some e => Ret (tt, <[a := mk_elem v (le_next e)]> h) | None => Panic end.
Definition set_next (a v : Z) : ST heap unit := fun h =>
  match h !! a with
  | Some e => Ret (tt, <[a := mk_elem (le_prev e) v]> h) | None => Panic end.

(** A loop over a list visits a cell of the memory at most once, so one
    iteration per cell and one for the exit are enough. *)
Definition loop_fuel (h : heap) : nat := S (size h).
Arguments loop_fuel : simpl never.

Definition non_null (a : Z) : bool := negb (a =? NULL).

(** ** Predicates on cells *)

Definition is_head (elem : Z) : ST heap bool :=
  andM (mret (non_null elem))
    (andM (p ← get_prev elem; mret (p =? NULL))
          (n ← get_next elem; mret (non_null n))).

Definition is_interior (elem : Z) : ST heap bool :=
  andM (mret (non_null elem))
    (andM (p ← get_prev elem; mret (non_null p))
          (n ← get_next elem; mret (non_null n))).

Definition is_tail (elem : Z) : ST heap bool :=
  andM (mret (non_null elem))
    (andM (p ← get_prev elem; mret (non_null p))
          (n ← get_next elem; mret (n =? NULL))).

(** ** Operations *)

Definition list_init (list : Z) : ST heap unit :=
  ASSERT (non_null list);;
  set_prev (head_of list) NULL;;
  set_next (head_of list) (tail_of list);;
  set_prev (tail_of list) (head_of list);;
  set_next (tail_of list) NULL.

Definition list_begin (list : Z) : ST heap Z :=
  ASSERT (non_null list);;
  get_next (head_of list).

Definition list_next (elem : Z) : ST heap Z :=
  b ← orM (is_head elem) (is_interior elem);
  ASSERT b;;
  get_next elem.

Definition list_end (list : Z) : ST heap Z :=
  ASSERT (non_null list);;
  mret (tail_of list).

Definition list_rbegin (list : Z) : ST heap Z :=
  ASSERT (non_null list);;
  get_prev (tail_of list).

Definition list_prev (elem : Z) : ST heap Z :=
  b ← orM (is_interior elem) (is_tail elem);
  ASSERT b;;
  get_prev elem.

Definition list_rend (list : Z) : ST heap Z :=
  ASSERT (non_null list);;
  mret (head_of list).

Definition list_head (list : Z) : ST heap Z :=
  ASSERT (non_null list);;
  mret (head_of list).

Definition list_tail (list : Z) : ST heap Z :=
  ASSERT (non_null list);;
  mret (tail_of list).

Definition list_insert (before elem : Z) : ST heap unit :=
  b ← orM (is_interior before) (is_tail before);
  ASSERT b;;
  ASSERT (non_null elem);;
  p ← get_prev before; set_prev elem p;;
  set_next elem before;;
  p ← get_prev before; set_next p elem;;
  set_prev before elem.

Definition list_splice (before first last : Z) : ST heap unit :=
  b ← orM (is_interior before) (is_tail before);
  ASSERT b;;
  if first =? last then mret tt else
  last ← list_prev last;
  b ← is_interior first;
  ASSERT b;;
  b ← is_interior last;
  ASSERT b;;
  (* Cleanly remove FIRST...LAST from its current list. *)
  p ← get_prev first; n ← get_next last; set_next p n;;
  n ← get_next last; p ← get_prev first; set_prev n p;;
  (* Splice FIRST...LAST into new list. *)
  p ← get_prev before; set_prev first p;;
  set_next last before;;
  p ← get_prev before; set_next p first;;
  set_prev before last.

Definition list_push_front (list elem : Z) : ST heap unit :=
  b ← list_begin list;
  list_insert b elem.

Definition list_push_back (list elem : Z) : ST heap unit :=
  e ← list_end list;
  list_insert e elem.

Definition list_remove (elem : Z) : ST heap Z :=
  b ← is_interior elem;
  ASSERT b;;
  p ← get_prev elem; n ← get_next elem; set_next p n;;
  n ← get_next elem; p ← get_prev elem; set_prev n p;;
  get_next elem.

Definition list_empty (list : Z) : ST heap bool :=
  b ← list_begin list;
  e ← list_end list;
  mret (b =? e).

Definition list_front (list : Z) : ST heap Z :=
  b ← list_empty list;
  ASSERT (negb b);;
  get_next (head_of list).

Definition list_back (list : Z) : ST heap Z :=
  b ← list_empty list;
  ASSERT (negb b);;
  get_prev (tail_of list).

Definition list_pop_front (list : Z) : ST heap Z :=
  front ← list_front list;
  list_remove front;;
  mret front.

Definition list_pop_back (list : Z) : ST heap Z :=
  back ← list_back list;
  list_remove back;;
  mret back.

Fixpoint list_size_loop (fuel : nat) (list e cnt : Z) : ST heap Z :=
  match fuel with
  | O => no_fuel
  | S fuel =>
      t ← list_end list;
      if e =? t then mret cnt else
      e ← list_next e;
      list_size_loop fuel list e (cnt +u 1)
  end.

Definition list_size (list : Z) : ST heap Z :=
  fuel ← gets loop_fuel;
  e ← list_begin list;
  list_size_loop fuel list e 0.

(** A pointer to one of the two links of a cell, as [swap] takes them. *)
Inductive link := PREV | NEXT.
Definition get_link (p : Z * link) : ST heap Z :=
  match p.2 with PREV => get_prev p.1 | NEXT => get_next p.1 end.
Definition set_link (p : Z * link) (v : Z) : ST heap unit :=
  match p.2 with PREV => set_prev p.1 v | NEXT => set_next p.1 v end.

Definition swap (a b : Z * link) : ST heap unit :=
  t ← get_link a;
  v ← get_link b; set_link a v;;
  set_link b t.

Fixpoint list_reverse_loop (fuel : nat) (list e : Z) : ST heap unit :=
  match fuel with
  | O => no_fuel
  | S fuel =>
      t ← list_end list;
      if e =? t then mret tt else
      swap (e, PREV) (e, NEXT);;
      e ← get_prev e;
      list_reverse_loop fuel list e
  end.

Definition list_reverse (list : Z) : ST heap unit :=
  b ← list_empty list;
  when (negb b) (
    fuel ← gets loop_fuel;
    e ← list_begin list;
    list_reverse_loop fuel list e;;
    swap (head_of list, NEXT) (tail_of list, PREV);;
    n ← get_next (head_of list);
    p ← get_prev (tail_of list);
    swap (n, PREV) (p, NEXT)).

(** ** Operations that compare elements

    [less a b] is the caller's [list_less_func] applied to the elements at
    [a] and [b] with its [aux]; it reads the data around the cells and not
    the links. *)
Section Less.
Variable less : Z -> Z -> bool.

Fixpoint is_sorted_loop (fuel : nat) (a b : Z) : ST heap bool :=
  match fuel with
  | O => no_fuel
  | S fuel =>
      a ← list_next a;
      if a =? b then mret true else
      p ← list_prev a;
      if less a p then mret false else is_sorted_loop fuel a b
  end.

Definition is_sorted (a b : Z) : ST heap bool :=
  fuel ← gets loop_fuel;
  if negb (a =? b) then is_sorted_loop fuel a b else mret true.

Fixpoint find_end_of_run_loop (fuel : nat) (a b : Z) : ST heap Z :=
  match fuel with
  | O => no_fuel
  | S fuel =>
      a ← list_next a;
      if a =? b then mret a else
      p ← list_prev a;
      if less a p then mret a else find_end_of_run_loop fuel a b
  end.

Definition find_end_of_run (a b : Z) : ST heap Z :=
  ASSERT (non_null a);;
  ASSERT (non_null b);;
  ASSERT (negb (a =? b));;
  fuel ← gets loop_fuel;
  find_end_of_run_loop fuel a b.

Fixpoint inplace_merge_loop (fuel : nat) (a0 a1b0 b1 : Z) : ST heap unit :=
  match fuel with
  | O => no_fuel
  | S fuel =>
      if negb (a0 =? a1b0) && negb (a1b0 =? b1) then
        if negb (less a1b0 a0) then
          a0 ← list_next a0;
          inplace_merge_loop fuel a0 a1b0 b1
        else
          a1b0 ← list_next a1b0;
          p ← list_prev a1b0;
          list_splice a0 p a1b0;;
          inplace_merge_loop fuel a0 a1b0 b1
      else mret tt
  end.

Definition inplace_merge (a0 a1b0 b1 : Z) : ST heap unit :=
  ASSERT (non_null a0);;
  ASSERT (non_null a1b0);;
  ASSERT (non_null b1);;
  s ← is_sorted a0 a1b0;
  ASSERT s;;
  s ← is_sorted a1b0 b1;
  ASSERT s;;
  fuel ← gets loop_fuel;
  inplace_merge_loop fuel a0 a1b0 b1.

(** One pass of [list_sort]: returns [output_run_cnt]. *)
Fixpoint list_sort_pass (fuel : nat) (list a0 output_run_cnt : Z) : ST heap Z :=
  match fuel with
  | O => no_fuel
  | S fuel =>
      t ← list_end list;
      if a0 =? t then mret output_run_cnt else
      let output_run_cnt := output_run_cnt +u 1 in
      t ← list_end list;
      a1b0 ← find_end_of_run a0 t;
      t ← list_end list;
      if a1b0 =? t then mret output_run_cnt else
      t ← list_end list;
      b1 ← find_end_of_run a1b0 t;
      inplace_merge a0 a1b0 b1;;
      list_sort_pass fuel list b1 output_run_cnt
  end.

Fixpoint list_sort_loop (fuel : nat) (list : Z) : ST heap unit :=
  match fuel with
  | O => no_fuel
  | S fuel =>
      n ← gets loop_fuel;
      a0 ← list_begin list;
      output_run_cnt ← list_sort_pass n list a0 0;
      if 1 <? output_run_cnt then list_sort_loop fuel list else mret tt
  end.

Definition list_sort (list : Z) : ST heap unit :=
  ASSERT (non_null list);;
  fuel ← gets loop_fuel;
  list_sort_loop fuel list;;
  a ← list_begin list;
  b ← list_end list;
  s ← is_sorted a b;
  ASSERT s.

Fixpoint list_insert_ordered_loop (fuel : nat) (list elem e : Z) : ST heap Z :=
  match fuel with
  | O => no_fuel
  | S fuel =>
      t ← list_end list;
      if e =? t then mret e else
      if less elem e then mret e else
      e ← list_next e;
      list_insert_ordered_loop fuel list elem e
  end.

Definition list_insert_ordered (list elem : Z) : ST heap unit :=
  ASSERT (non_null list);;
  ASSERT (non_null elem);;
  fuel ← gets loop_fuel;
  e ← list_begin list;
  e ← list_insert_ordered_loop fuel list elem e;
  list_insert e elem.

Fixpoint list_unique_loop (fuel : nat) (list duplicates elem : Z) : ST heap unit :=
  match fuel with
  | O => no_fuel
  | S fuel =>
      next ← list_next elem;
      t ← list_end list;
      if next =? t then mret tt else
      if negb (less elem next) && negb (less next elem) then
        list_remove next;;
        when (non_null duplicates) (list_push_back duplicates next);;
        list_unique_loop fuel list duplicates elem
      else list_unique_loop fuel list duplicates next
  end.

Definition list_unique (list duplicates : Z) : ST heap unit :=
  ASSERT (non_null list);;
  b ← list_empty list;
  if b : bool then mret tt else
  fuel ← gets loop_fuel;
  elem ← list_begin list;
  list_unique_loop fuel list duplicates elem.

Fixpoint list_max_loop (fuel : nat) (list max e : Z) : ST heap Z :=
  match fuel with
  | O => no_fuel
  | S fuel =>
      t ← list_end list;
      if e =? t then mret max else
      let max := if less max e then e else max in
      e ← list_next e;
      list_max_loop fuel list max e
  end.

Definition list_max (list : Z) : ST heap Z :=
  max ← list_begin list;
  t ← list_end list;
  if max =? t then mret max else
  fuel ← gets loop_fuel;
  e ← list_next max;
  list_max_loop fuel list max e.

Fixpoint list_min_loop (fuel : nat) (list min e : Z) : ST heap Z :=
  match fuel with
  | O => no_fuel
  | S fuel =>
      t ← list_end list;
      if e =? t then mret min else
      let min := if less e min then e else min in
      e ← list_next e;
      list_min_loop fuel list min e
  end.

Definition list_min (list : Z) : ST heap Z :=
  min ← list_begin list;
  t ← list_end list;
  if min =? t then mret min else
  fuel ← gets loop_fuel;
  e ← list_next min;
  list_min_loop fuel list min e.
End Less.

(** ** Reading and updating links *)

Definition nxt (h : heap) (a : Z) : option Z := le_next <$> h !! a.
Definition prv (h : heap) (a : Z) : option Z := le_prev <$> h !! a.
Definition upd_next (a v : Z) (h : heap) : heap := alter (fun e => mk_elem (le_prev e) v) a h.
Definition upd_prev (a v : Z) (h : heap) : heap := alter (fun e => mk_elem v (le_next e)) a h.

(** The cells the second heap has are those of the first, and they differ
    only at the addresses in [l]. *)
Definition preserved (l : list Z) (h h' : heap) : Prop :=
  dom h' = dom h /\ forall x, x ∉ l -> h' !! x = h !! x.

Section Links.
Implicit Types h : heap.
Implicit Types a b v x : Z.

Lemma nxt_mapped h a v : nxt h a = Some v -> a ∈ dom h.
Proof. unfold nxt. intros H. apply elem_of_dom. by destruct (h !! a). Qed.
Lemma prv_mapped h a v : prv h a = Some v -> a ∈ dom h.
Proof. unfold prv. intros H. apply elem_of_dom. by destruct (h !! a). Qed.

Lemma nxt_upd_next h a v x : a ∈ dom h ->
  nxt (upd_next a v h) x = if decide (a = x) then Some v else nxt h x.
Proof.
  intros [e He]%elem_of_dom. unfold nxt, upd_next. rewrite lookup_alter.
  case_decide; subst; [by rewrite He|done].
Qed.
Lemma prv_upd_prev h a v x : a ∈ dom h ->
  prv (upd_prev a v h) x = if decide (a = x) then Some v else prv h x.
Proof.
  intros [e He]%elem_of_dom. unfold prv, upd_prev. rewrite lookup_alter.
  case_decide; subst; [by rewrite He|done].
Qed.
Lemma prv_upd_next h a v x : prv (upd_next a v h) x = prv h x.
Proof.
  unfold prv, upd_next. rewrite lookup_alter. case_decide; subst; [|done].
  by destruct (h !! x).
Qed.
Lemma nxt_upd_prev h a v x : nxt (upd_prev a v h) x = nxt h x.
Proof.
  unfold nxt, upd_prev. rewrite lookup_alter. case_decide; subst; [|done].
  by destruct (h !! x).
Qed.
Lemma dom_upd_next h a v : dom (upd_next a v h) = dom h.
Proof. apply dom_alter_L. Qed.
Lemma dom_upd_prev h a v : dom (upd_prev a v h) = dom h.
Proof. apply dom_alter_L. Qed.
Lemma lookup_upd_next_ne h a v x : x ≠ a -> upd_next a v h !! x = h !! x.
Proof. intros. apply lookup_alter_ne. done. Qed.
Lemma lookup_upd_prev_ne h a v x : x ≠ a -> upd_prev a v h !! x = h !! x.
Proof. intros. apply lookup_alter_ne. done. Qed.

Lemma preserved_refl l h : preserved l h h.
Proof. done. Qed.
Lemma preserved_trans l h1 h2 h3 :
  preserved l h1 h2 -> preserved l h2 h3 -> preserved l h1 h3.
Proof. intros [D1 P1] [D2 P2]. split; [congruence|]. intros. rewrite P2; auto. Qed.
Lemma preserved_mono l l' h h' : l ⊆ l' -> preserved l h h' -> preserved l' h h'.
Proof. intros Hl [D P]. split; [done|]. intros x Hx. apply P. set_solver. Qed.
Lemma preserved_upd_next l h h' a v :
  a ∈ l -> preserved l h h' -> preserved l h (upd_next a v h').
Proof.
  intros Ha [D P]. split; [by rewrite dom_upd_next|].
  intros x Hx. rewrite lookup_upd_next_ne; [auto|set_solver].
Qed.
Lemma preserved_upd_prev l h h' a v :
  a ∈ l -> preserved l h h' -> preserved l h (upd_prev a v h').
Proof.
  intros Ha [D P]. split; [by rewrite dom_upd_prev|].
  intros x Hx. rewrite lookup_upd_prev_ne; [auto|set_solver].
Qed.
Lemma preserved_size l h h' : preserved l h h' -> size h' = size h.
Proof. intros [D _]. by rewrite <- !size_dom, D. Qed.
Lemma preserved_nxt l h h' x : preserved l h h' -> x ∉ l -> nxt h' x = nxt h x.
Proof. intros [_ P] Hx. unfold nxt. by rewrite P. Qed.
Lemma preserved_prv l h h' x : preserved l h h' -> x ∉ l -> prv h' x = prv h x.
Proof. intros [_ P] Hx. unfold prv. by rewrite P. Qed.

(** *** Symbolic execution of the primitives *)
Lemma wp_get_next h a v Q : nxt h a = Some v -> Q v h -> wp (get_next a) h Q.
Proof. unfold nxt, wp, get_next. destruct (h !! a); [|done]. by intros [= <-]. Qed.
Lemma wp_get_prev h a v Q : prv h a = Some v -> Q v h -> wp (get_prev a) h Q.
Proof. unfold prv, wp, get_prev. destruct (h !! a); [|done]. by intros [= <-]. Qed.
Lemma wp_set_next h a v Q : a ∈ dom h -> Q tt (upd_next a v h) -> wp (set_next a v) h Q.
Proof.
  intros [e He]%elem_of_dom. unfold wp, set_next, upd_next. rewrite He.
  assert (alter (fun e => mk_elem (le_prev e) v) a h = <[a:=mk_elem (le_prev e) v]> h) as ->.
  { apply map_eq. intros i. rewrite lookup_alter, lookup_insert.
    case_decide; subst; [by rewrite He|done]. }
  done.
Qed.
Lemma wp_set_prev h a v Q : a ∈ dom h -> Q tt (upd_prev a v h) -> wp (set_prev a v) h Q.
Proof.
  intros [e He]%elem_of_dom. unfold wp, set_prev, upd_prev. rewrite He.
  assert (alter (fun e => mk_elem v (le_next e)) a h = <[a:=mk_elem v (le_next e)]> h) as ->.
  { apply map_eq. intros i. rewrite lookup_alter, lookup_insert.
    case_decide; subst; [by rewrite He|done]. }
  done.
Qed.

Lemma non_null_true a : non_null a = true <-> a ≠ 0.
Proof. unfold non_null, NULL. rewrite negb_true_iff. apply Z.eqb_neq. Qed.

Lemma wp_is_interior h e p n Q : e ≠ 0 -> prv h e = Some p -> nxt h e = Some n ->
  Q (non_null p && non_null n) h -> wp (is_interior e) h Q.
Proof.
  intros He Hp Hn HQ. unfold is_interior, andM.
  apply wp_bind, wp_ret. rewrite (proj2 (non_null_true e)) by done.
  apply wp_bind, wp_bind. eapply wp_get_prev; [done|]. apply wp_ret.
  destruct (non_null p); [|done]. apply wp_bind. by eapply wp_get_next.
Qed.
Lemma wp_is_tail h e p n Q : e ≠ 0 -> prv h e = Some p -> nxt h e = Some n ->
  Q (non_null p && (n =? NULL)) h -> wp (is_tail e) h Q.
Proof.
  intros He Hp Hn HQ. unfold is_tail, andM.
  apply wp_bind, wp_ret. rewrite (proj2 (non_null_true e)) by done.
  apply wp_bind, wp_bind. eapply wp_get_prev; [done|]. apply wp_ret.
  destruct (non_null p); [|done]. apply wp_bind. by eapply wp_get_next.
Qed.
Lemma wp_is_head h e p n Q : e ≠ 0 -> prv h e = Some p -> nxt h e = Some n ->
  Q ((p =? NULL) && non_null n) h -> wp (is_head e) h Q.
Proof.
  intros He Hp Hn HQ. unfold is_head, andM.
  apply wp_bind, wp_ret. rewrite (proj2 (non_null_true e)) by done.
  apply wp_bind, wp_bind. eapply wp_get_prev; [done|]. apply wp_ret.
  destruct (p =? NULL); [|done]. apply wp_bind. by eapply wp_get_next.
Qed.

Lemma dom_nxt h a : a ∈ dom h -> exists n, nxt h a = Some n.
Proof. intros [e He]%elem_of_dom. unfold nxt. rewrite He. by eexists. Qed.
Lemma dom_prv h a : a ∈ dom h -> exists n, prv h a = Some n.
Proof. intros [e He]%elem_of_dom. unfold prv. rewrite He. by eexists. Qed.

(** [list_next] succeeds exactly on cells with a successor. *)
Lemma wp_list_next h e n Q : e ≠ 0 -> n ≠ 0 -> nxt h e = Some n -> Q n h ->
  wp (list_next e) h Q.
Proof.
  intros He Hn Hnx HQ. destruct (dom_prv h e) as [p Hp]; [by eapply nxt_mapped|].
  unfold list_next, orM. apply wp_bind, wp_bind. eapply wp_is_head; [done..|].
  rewrite (proj2 (non_null_true n)) by done.
  destruct (p =? NULL) eqn:E; simpl.
  - apply wp_ret, wp_bind, wp_assert; [done|]. by eapply wp_get_next.
  - eapply wp_is_interior; [done..|].
    rewrite (proj2 (non_null_true n)) by done. unfold non_null at 1. rewrite E. simpl.
    apply wp_bind, wp_assert; [done|]. by eapply wp_get_next.
Qed.

(** The guard of [list_insert], [list_splice] and [list_prev]. *)
Lemma wp_interior_or_tail h e p Q : e ≠ 0 -> p ≠ 0 -> prv h e = Some p -> Q true h ->
  wp (orM (is_interior e) (is_tail e)) h Q.
Proof.
  intros He Hp Hpr HQ. destruct (dom_nxt h e) as [n Hn]; [by eapply prv_mapped|].
  unfold orM. apply wp_bind. eapply wp_is_interior; [done..|].
  rewrite (proj2 (non_null_true p)) by done. simpl.
  destruct (non_null n) eqn:E; [by apply wp_ret|].
  eapply wp_is_tail; [done..|]. rewrite (proj2 (non_null_true p)) by done.
  unfold non_null in E. apply negb_false_iff in E. by rewrite E.
Qed.

Lemma wp_list_prev h e p Q : e ≠ 0 -> p ≠ 0 -> prv h e = Some p -> Q p h ->
  wp (list_prev e) h Q.
Proof.
  intros. unfold list_prev. apply wp_bind. eapply wp_interior_or_tail; [done..|].
  apply wp_bind, wp_assert; [done|]. by eapply wp_get_prev.
Qed.
End Links.

(** ** Chains and lists *)

Definition linked (h : heap) (a b : Z) : Prop := nxt h a = Some b /\ prv h b = Some a.

(** Each cell of [l] is linked, in both directions, to the one after it. *)
Fixpoint chain (h : heap) (l : list Z) : Prop :=
  match l with
  | a :: (b :: _) as t => linked h a b /\ chain h t
  | _ => True
  end.

Definition cells (L : Z) (xs : list Z) : list Z :=
  head_of L :: xs ++ [tail_of L].

(** The list at address [L] holds the elements [xs], in that order. *)
Record is_list (h : heap) (L : Z) (xs : list Z) : Prop := {
  il_nodup : NoDup (cells L xs);
  il_null : 0 ∉ cells L xs;
  il_chain : chain h (cells L xs);
  il_head : prv h (head_of L) = Some 0;
  il_tail : nxt h (tail_of L) = Some 0
}.

Section Chain.
Implicit Types h : heap.
Implicit Types l : list Z.

Lemma chain_app h l1 a l2 :
  chain h (l1 ++ a :: l2) <-> chain h (l1 ++ [a]) /\ chain h (a :: l2).
Proof.
  induction l1 as [|x [|y l1] IH]; simpl in *; [tauto| |].
  - destruct l2; tauto.
  - tauto.
Qed.

Lemma chain_join h l1 a b l2 :
  chain h (l1 ++ a :: b :: l2) <->
  chain h (l1 ++ [a]) /\ linked h a b /\ chain h (b :: l2).
Proof. rewrite chain_app. done. Qed.

Lemma chain_ext h h' l :
  (forall x, x ∈ l -> h' !! x = h !! x) -> chain h l -> chain h' l.
Proof.
  induction l as [|a [|b l] IH]; simpl; intros E; [done..|]. intros [[Hn Hp] Hc].
  split; [|apply IH; [intros; apply E; set_solver|done]].
  unfold linked, nxt, prv in *. rewrite !E by set_solver. done.
Qed.

Lemma chain_upd_next h l a v : a ∉ l -> chain h l -> chain (upd_next a v h) l.
Proof. intros. eapply chain_ext; [|done]. intros. apply lookup_upd_next_ne. set_solver. Qed.
Lemma chain_upd_prev h l a v : a ∉ l -> chain h l -> chain (upd_prev a v h) l.
Proof. intros. eapply chain_ext; [|done]. intros. apply lookup_upd_prev_ne. set_solver. Qed.

(** The last cell's [next] and the first cell's [prev] are free. *)
Lemma chain_upd_next_last h l a v :
  a ∉ l -> chain h (l ++ [a]) -> chain (upd_next a v h) (l ++ [a]).
Proof.
  induction l as [|x [|y l] IH]; intros Ha; [done| |].
  - intros [[Hn Hp] _]. split; [|done]. split; [|by rewrite prv_upd_next].
    unfold nxt. rewrite lookup_upd_next_ne by set_solver. done.
  - intros [[Hn Hp] Hc]. split.
    + split; [|by rewrite prv_upd_next].
      unfold nxt. rewrite lookup_upd_next_ne by set_solver. done.
    + apply IH; [set_solver|done].
Qed.
Lemma chain_upd_prev_first h l a v :
  a ∉ l -> chain h (a :: l) -> chain (upd_prev a v h) (a :: l).
Proof.
  intros Ha. destruct l as [|b l]; [done|]. intros [[Hn Hp] Hc]. split.
  - split; [by rewrite nxt_upd_prev|].
    unfold prv. rewrite lookup_upd_prev_ne by set_solver. done.
  - apply chain_upd_prev; done.
Qed.

Lemma chain_dom h l : chain h l -> (2 <= length l)%nat -> forall x, x ∈ l -> x ∈ dom h.
Proof.
  induction l as [|a [|b l] IH]; simpl; [lia..|]. intros [[Hn Hp] Hc] _ x.
  rewrite elem_of_cons. intros [->|Hx]; [by eapply nxt_mapped|].
  destruct l as [|c l].
  - apply list_elem_of_singleton in Hx as ->. by eapply prv_mapped.
  - apply IH; [done|simpl; lia|done].
Qed.

Lemma NoDup_size (l : list Z) h : NoDup l -> (forall x, x ∈ l -> x ∈ dom h) ->
  (length l <= size h)%nat.
Proof.
  intros Hd Hl. rewrite <- size_dom, <- (size_list_to_set (C:=gset Z) l) by done.
  apply subseteq_size. intros x. rewrite elem_of_list_to_set. auto.
Qed.
End Chain.

Section Lists.
Implicit Types h : heap.
Implicit Types L a b e : Z.
Implicit Types xs ys : list Z.

Lemma is_list_frame h h' L xs :
  (forall x, x ∈ cells L xs -> h' !! x = h !! x) -> is_list h L xs -> is_list h' L xs.
Proof.
  intros E [Hd Hz Hc Hh Ht]. split; [done..| | |].
  - by eapply chain_ext.
  - unfold prv. rewrite E by set_solver. done.
  - unfold nxt. rewrite E by set_solver. done.
Qed.

Lemma is_list_preserved l h h' L xs :
  preserved l h h' -> (forall x, x ∈ l -> x ∉ cells L xs) -> is_list h L xs -> is_list h' L xs.
Proof. intros [_ P] Hd. apply is_list_frame. intros x Hx. apply P. set_solver. Qed.

Lemma is_list_dom h L xs x : is_list h L xs -> x ∈ cells L xs -> x ∈ dom h.
Proof.
  intros H. apply chain_dom; [apply H|]. unfold cells. simpl. rewrite length_app. simpl. lia.
Qed.

Lemma is_list_fuel h L xs : is_list h L xs -> (length xs + 2 <= size h)%nat.
Proof.
  intros H. transitivity (length (cells L xs)).
  - unfold cells. simpl. rewrite length_app. simpl. lia.
  - apply NoDup_size; [apply H|]. intros. by eapply is_list_dom.
Qed.

Lemma is_list_nonnull h L xs x : is_list h L xs -> x ∈ cells L xs -> x ≠ 0.
Proof. intros H Hx ->. by apply (il_null _ _ _ H). Qed.

(** A list cut between two of its cells. *)
Lemma is_list_cut h L xs ys :
  is_list h L (xs ++ ys) ->
  exists l1 p f l2,
    head_of L :: xs = l1 ++ [p] /\ ys ++ [tail_of L] = f :: l2 /\
    cells L (xs ++ ys) = l1 ++ p :: f :: l2 /\
    chain h (l1 ++ [p]) /\ linked h p f /\ chain h (f :: l2).
Proof.
  intros H.
  destruct (exists_last (l := head_of L :: xs)) as (l1 & p & E1); [done|].
  destruct (ys ++ [tail_of L]) as [|f l2] eqn:E2; [by destruct ys|].
  assert (cells L (xs ++ ys) = l1 ++ p :: f :: l2) as Ec.
  { unfold cells. rewrite <- app_assoc, E2, app_comm_cons, E1, <- app_assoc. done. }
  exists l1, p, f, l2. split_and!; [done..| | |].
  all: pose proof (il_chain _ _ _ H) as Hc; rewrite Ec, chain_join in Hc; apply Hc.
Qed.

(** The cell that comes first in [ys], or the tail when [ys] is empty. *)
Definition first_of (ys : list Z) (L : Z) : Z :=
  match ys with x :: _ => x | [] => tail_of L end.

Lemma first_of_eq ys L f l2 : ys ++ [tail_of L] = f :: l2 -> first_of ys L = f.
Proof. destruct ys; simpl; congruence. Qed.

Lemma first_of_in ys xs L : first_of ys L ∈ cells L (xs ++ ys).
Proof. destruct ys; unfold cells; set_solver. Qed.

Lemma is_list_build h L xs :
  NoDup (cells L xs) -> 0 ∉ cells L xs -> chain h (cells L xs) ->
  prv h (head_of L) = Some 0 -> nxt h (tail_of L) = Some 0 -> is_list h L xs.
Proof. by split. Qed.

(** What a chain with two ends at hand needs to be a list again: the two
    outer links are those of a list with other elements. *)
Lemma is_list_ends h h' L xs ys :
  is_list h L xs -> NoDup (cells L ys) -> 0 ∉ cells L ys ->
  prv h' (head_of L) = prv h (head_of L) -> nxt h' (tail_of L) = nxt h (tail_of L) ->
  chain h' (cells L ys) -> is_list h' L ys.
Proof. intros [? ? ? Hh Ht] ? ? E1 E2 ?. split; [done..|congruence|congruence]. Qed.
End Lists.
