(* ===== verification/DlistOps.v ===== *)
(** * What the list operations do to the sequence of a list

    Functional correctness of list.c, sorting apart: every operation, run on
    memory that holds a list, returns without a failed assertion or a fault,
    leaves memory that holds the expected list, and touches no other cell. *)

From S2P Require Import Prelude Dlist.

(** Decide reads of links through a stack of updates. *)
Ltac in_dom :=
  repeat first [rewrite dom_upd_next | rewrite dom_upd_prev]; eauto using nxt_mapped, prv_mapped.
Ltac links :=
  repeat first
    [ rewrite nxt_upd_prev | rewrite prv_upd_next
    | rewrite nxt_upd_next by in_dom | rewrite prv_upd_prev by in_dom ];
  repeat case_decide; simplify_eq; first [done | eauto].

(** One step of symbolic execution. *)
Ltac wstep :=
  lazymatch goal with
  | |- wp (_ ≫= _) _ _ => apply wp_bind
  | |- wp (mret _) _ _ => apply wp_ret
  | |- wp (gets _) _ _ => apply wp_gets
  | |- wp (get_next _) _ _ => eapply wp_get_next; [solve [links]|]
  | |- wp (get_prev _) _ _ => eapply wp_get_prev; [solve [links]|]
  | |- wp (set_next _ _) _ _ => apply wp_set_next; [solve [in_dom]|]
  | |- wp (set_prev _ _) _ _ => apply wp_set_prev; [solve [in_dom]|]
  | |- wp (ASSERT _) _ _ =>
      apply wp_assert; [solve [done | by apply (proj2 (non_null_true _))]|]
  end.
Ltac wsteps := repeat wstep.

Lemma NoDup_around (l1 l2 : list Z) (p f : Z) :
  NoDup (l1 ++ p :: f :: l2) ->
  p ≠ f /\ (p ∉ l1) /\ (p ∉ l2) /\ (f ∉ l1) /\ (f ∉ l2) /\ (forall x, x ∈ l1 -> x ∉ l2).
Proof.
  rewrite NoDup_app, !NoDup_cons, !not_elem_of_cons. intros (_ & H & (? & ?) & ? & ?).
  assert (forall x, x ∈ l1 -> x ≠ p /\ x ≠ f /\ (x ∉ l2)) as H'.
  { intros x Hx. specialize (H x Hx). rewrite !not_elem_of_cons in H. naive_solver. }
  split_and!; [done| |done| |done|]; naive_solver.
Qed.

Section Insert.
Implicit Types h : heap.
Implicit Types L e p f : Z.
Implicit Types xs ys l : list Z.

Lemma wp_list_insert_chain h l1 p f l2 e :
  chain h (l1 ++ [p]) -> linked h p f -> chain h (f :: l2) ->
  NoDup (l1 ++ p :: f :: l2) -> e ∉ l1 ++ p :: f :: l2 -> e ∈ dom h ->
  p ≠ 0 -> f ≠ 0 -> e ≠ 0 ->
  wp (list_insert f e) h (fun _ h' =>
    chain h' (l1 ++ p :: e :: f :: l2) /\ preserved [p; e; f] h h' /\
    prv h' p = prv h p /\ nxt h' f = nxt h f).
Proof.
  intros C1 [Hn Hp] C2 Hd He Hm Hp0 Hf0 He0.
  apply NoDup_around in Hd as (Hpf & Hpl1 & Hpl2 & Hfl1 & Hfl2 & _).
  assert (e ≠ p /\ e ≠ f /\ (e ∉ l1) /\ (e ∉ l2)) as (Hep & Hef & Hel1 & Hel2) by set_solver.
  unfold list_insert. wstep. apply (wp_interior_or_tail _ _ p); [done..|]. wsteps.
  split_and!.
  - rewrite (chain_join _ l1 p e). split_and!.
    + apply chain_upd_prev; [set_solver|]. apply chain_upd_next_last; [done|].
      apply chain_upd_next; [set_solver|]. apply chain_upd_prev; [set_solver|done].
    + split; links.
    + split; [split; links|]. apply chain_upd_prev_first; [done|].
      apply chain_upd_next; [set_solver|]. apply chain_upd_next; [set_solver|].
      apply chain_upd_prev; [set_solver|done].
  - repeat first [apply preserved_upd_prev; [set_solver|] | apply preserved_upd_next; [set_solver|]].
    apply preserved_refl.
  - links.
  - links.
Qed.

Lemma wp_list_insert h L xs ys e :
  is_list h L (xs ++ ys) -> e ∉ cells L (xs ++ ys) -> e ∈ dom h -> e ≠ 0 ->
  wp (list_insert (first_of ys L) e) h (fun _ h' =>
    is_list h' L (xs ++ e :: ys) /\ preserved (e :: cells L (xs ++ ys)) h h').
Proof.
  intros H He Hm He0. pose proof H as (l1 & p & f & l2 & E1 & E2 & Ec & C1 & K & C2)%is_list_cut.
  rewrite (first_of_eq _ _ _ _ E2).
  pose proof (il_nodup _ _ _ H) as Hd. rewrite Ec in Hd, He.
  assert (Hnn : forall x, x ∈ l1 ++ p :: f :: l2 -> x ≠ 0).
  { intros x Hx. eapply is_list_nonnull; [exact H|]. by rewrite Ec. }
  eapply wp_mono.
  { eapply (wp_list_insert_chain h l1 p f l2 e); try done; apply Hnn; set_solver. }
  intros _ h' (C & P & Hpp & Hff).
  assert (Ec' : cells L (xs ++ e :: ys) = l1 ++ p :: e :: f :: l2).
  { unfold cells. rewrite <- app_assoc. simpl. rewrite E2, app_comm_cons, E1, <- app_assoc. done. }
  split.
  - eapply is_list_ends; [exact H|rewrite Ec'|rewrite Ec'| | |rewrite Ec'].
    + assert (l1 ++ p :: e :: f :: l2 ≡ₚ e :: l1 ++ p :: f :: l2) as -> by solve_Permutation.
      by constructor.
    + intros Hin. destruct (decide (0 = e)); [congruence|]. apply (Hnn 0); [set_solver|done].
    + destruct (decide (head_of L = p)) as [->|Hne]; [done|].
      eapply preserved_prv; [exact P|].
      assert (head_of L ∈ l1) by (destruct l1; simplify_eq/=; set_solver).
      apply NoDup_around in Hd. set_solver.
    + destruct (decide (tail_of L = f)) as [->|Hne]; [done|].
      eapply preserved_nxt; [exact P|].
      assert (tail_of L ∈ l2).
      { destruct ys as [|y ys]; simplify_eq/=. set_solver. }
      apply NoDup_around in Hd. set_solver.
    + done.
  - eapply preserved_mono; [|exact P]. rewrite Ec. set_solver.
Qed.
End Insert.

(** ** Walking a list *)
Section Walk.
Implicit Types h : heap.
Implicit Types L e : Z.
Implicit Types xs ys l : list Z.

Lemma is_list_L_nonnull h L xs : is_list h L xs -> non_null L = true.
Proof.
  intros H. apply non_null_true. eapply is_list_nonnull; [done|]. unfold cells. set_solver.
Qed.

Lemma is_list_elem h L xs y ys :
  is_list h L (xs ++ y :: ys) -> y ∈ cells L (xs ++ y :: ys).
Proof. intros _. unfold cells. set_solver. Qed.

Lemma wp_list_begin h L xs (Q : Z -> heap -> Prop) :
  is_list h L xs -> Q (first_of xs L) h -> wp (list_begin L) h Q.
Proof.
  intros H HQ. unfold list_begin. wstep.
  apply wp_assert; [by eapply is_list_L_nonnull|].
  apply wp_get_next with (v := first_of xs L); [|done].
  pose proof (is_list_cut h L [] xs H) as (l1 & p & f & l2 & E1 & E2 & _ & _ & [K _] & _).
  rewrite (first_of_eq _ _ _ _ E2). destruct l1 as [|? [|]]; by simplify_eq/=.
Qed.

Lemma wp_list_end h L xs (Q : Z -> heap -> Prop) :
  is_list h L xs -> Q (tail_of L) h -> wp (list_end L) h Q.
Proof.
  intros H HQ. unfold list_end. wstep. apply wp_assert; [by eapply is_list_L_nonnull|].
  by apply wp_ret.
Qed.

Lemma list_link h L xs y ys :
  is_list h L (xs ++ y :: ys) -> linked h y (first_of ys L).
Proof.
  intros H. assert (is_list h L ((xs ++ [y]) ++ ys)) as H' by (rewrite <- app_assoc; done).
  apply is_list_cut in H' as (l1 & p & f & l2 & E1 & E2 & _ & _ & K & _).
  rewrite (first_of_eq _ _ _ _ E2).
  rewrite app_comm_cons in E1. by apply app_inj_tail in E1 as [_ ->].
Qed.

Lemma wp_list_next_at h L xs y ys (Q : Z -> heap -> Prop) :
  is_list h L (xs ++ y :: ys) -> Q (first_of ys L) h -> wp (list_next y) h Q.
Proof.
  intros H HQ. eapply (wp_list_next _ _ (first_of ys L)); [| | |done].
  - by eapply is_list_nonnull, is_list_elem.
  - eapply is_list_nonnull; [done|]. destruct ys; unfold cells; set_solver.
  - by eapply list_link.
Qed.

Lemma wp_list_prev_at h L xs y ys (Q : Z -> heap -> Prop) :
  is_list h L (xs ++ y :: ys) -> Q y h -> wp (list_prev (first_of ys L)) h Q.
Proof.
  intros H HQ. eapply (wp_list_prev _ _ y); [| | |done].
  - eapply is_list_nonnull; [done|]. destruct ys; unfold cells; set_solver.
  - by eapply is_list_nonnull, is_list_elem.
  - by eapply list_link.
Qed.

Lemma is_list_not_tail h L xs y ys :
  is_list h L (xs ++ y :: ys) -> (y =? tail_of L) = false.
Proof.
  intros H. apply Z.eqb_neq. intros ->. pose proof (il_nodup _ _ _ H) as Hd.
  unfold cells in Hd. apply NoDup_cons in Hd as [_ Hd].
  rewrite <- app_assoc, NoDup_app in Hd. destruct Hd as (_ & _ & Hd).
  simpl in Hd. apply NoDup_cons in Hd as [Hd _]. set_solver.
Qed.

Lemma wp_list_empty h L xs (Q : bool -> heap -> Prop) :
  is_list h L xs -> Q (bool_decide (xs = [])) h -> wp (list_empty L) h Q.
Proof.
  intros H HQ. unfold list_empty. wstep. eapply wp_list_begin; [done|].
  wstep. eapply wp_list_end; [done|]. wstep. destruct xs as [|x xs].
  - simpl. by rewrite Z.eqb_refl.
  - simpl. rewrite (is_list_not_tail h L [] x xs) by done. done.
Qed.

Lemma wp_list_size_loop h L ys xs fuel cnt :
  is_list h L (xs ++ ys) -> (length ys < fuel)%nat -> is_u32 (cnt + length ys) -> 0 <= cnt ->
  wp (list_size_loop fuel L (first_of ys L) cnt) h (fun n h' => n = cnt + length ys /\ h' = h).
Proof.
  revert xs fuel cnt. induction ys as [|y ys IH]; intros xs [|fuel] cnt H Hf Hr Hc; simpl in Hf; try lia.
  - simpl. wstep. eapply wp_list_end; [done|]. rewrite Z.eqb_refl. wstep. simpl. split; [lia|done].
  - simpl. wstep. eapply wp_list_end; [done|]. rewrite (is_list_not_tail _ _ _ _ _ H).
    wstep. eapply wp_list_next_at; [done|].
    rewrite u32_small by (simpl in Hr; urange; lia).
    eapply wp_mono; [apply (IH (xs ++ [y]))|].
    + by rewrite <- app_assoc.
    + lia.
    + simpl in Hr. urange; lia.
    + lia.
    + simpl. intros ? ? [-> ->]. split; [lia|done].
Qed.
End Walk.

Ltac walk :=
  lazymatch goal with
  | |- wp (list_begin _) _ _ => eapply wp_list_begin; [eassumption|]
  | |- wp (list_end _) _ _ => eapply wp_list_end; [eassumption|]
  | |- wp (list_empty _) _ _ => eapply wp_list_empty; [eassumption|]
  | |- wp (list_next _) _ _ => eapply wp_list_next_at; [eassumption|]
  | _ => wstep
  end.
Ltac walks := repeat walk.

(** ** Removing *)
Section Remove.
Implicit Types h : heap.
Implicit Types L e : Z.
Implicit Types xs ys l : list Z.

Lemma wp_list_remove_chain h l1 p e n l2 :
  chain h (l1 ++ [p]) -> linked h p e -> linked h e n -> chain h (n :: l2) ->
  NoDup (l1 ++ p :: n :: l2) -> p ≠ e -> n ≠ e -> p ≠ 0 -> n ≠ 0 -> e ≠ 0 ->
  wp (list_remove e) h (fun r h' =>
    r = n /\ chain h' (l1 ++ p :: n :: l2) /\ preserved [p; n] h h' /\
    prv h' p = prv h p /\ nxt h' n = nxt h n).
Proof.
  intros C1 [Hpn Hep] [Hen Hnp] C2 Hd Hpe Hne Hp0 Hn0 He0.
  apply NoDup_around in Hd as (Hpf & Hpl1 & Hpl2 & Hfl1 & Hfl2 & _).
  unfold list_remove. wstep. eapply wp_is_interior; [done..|].
  rewrite !(proj2 (non_null_true _)) by done. wsteps.
  split_and!; [done| | |links|links].
  - rewrite (chain_join _ l1 p n). split_and!.
    + apply chain_upd_prev; [set_solver|]. apply chain_upd_next_last; done.
    + split; links.
    + apply chain_upd_prev_first; [done|]. apply chain_upd_next; [set_solver|done].
  - apply preserved_upd_prev; [set_solver|]. apply preserved_upd_next; [set_solver|].
    apply preserved_refl.
Qed.

Lemma is_list_cut_elem h L xs e ys :
  is_list h L (xs ++ e :: ys) ->
  exists l1 p n l2,
    head_of L :: xs = l1 ++ [p] /\ ys ++ [tail_of L] = n :: l2 /\
    cells L (xs ++ ys) = l1 ++ p :: n :: l2 /\
    chain h (l1 ++ [p]) /\ linked h p e /\ linked h e n /\ chain h (n :: l2).
Proof.
  intros H. pose proof (list_link _ _ _ _ _ H) as Ke.
  apply is_list_cut in H as (l1 & p & f & l2 & E1 & E2 & _ & C1 & K & C2).
  simpl in E2. injection E2 as <- E2.
  destruct (ys ++ [tail_of L]) as [|n l3] eqn:E3; [by destruct ys|]. subst l2.
  exists l1, p, n, l3. rewrite (first_of_eq _ _ _ _ E3) in Ke.
  split_and!; try done.
  - unfold cells. rewrite <- app_assoc, E3, app_comm_cons, E1, <- app_assoc. done.
  - apply C2.
Qed.

Lemma cells_perm L xs e ys : cells L (xs ++ e :: ys) ≡ₚ e :: cells L (xs ++ ys).
Proof. unfold cells. solve_Permutation. Qed.

Lemma is_list_parts h L xs e ys :
  is_list h L (xs ++ e :: ys) -> NoDup (cells L (xs ++ ys)) /\ e ∉ cells L (xs ++ ys).
Proof.
  intros H. pose proof (il_nodup _ _ _ H) as Hd. rewrite cells_perm in Hd.
  by apply NoDup_cons in Hd as [? ?].
Qed.

Lemma wp_list_remove h L xs e ys :
  is_list h L (xs ++ e :: ys) ->
  wp (list_remove e) h (fun r h' =>
    r = first_of ys L /\ is_list h' L (xs ++ ys) /\
    preserved (cells L (xs ++ ys)) h h').
Proof.
  intros H. pose proof (is_list_parts _ _ _ _ _ H) as [Hd He].
  pose proof (is_list_cut_elem _ _ _ _ _ H) as (l1 & p & n & l2 & E1 & E2 & Ec & C1 & K1 & K2 & C2).
  rewrite (first_of_eq _ _ _ _ E2). rewrite Ec in Hd, He.
  assert (Hnn : forall x, x ∈ e :: l1 ++ p :: n :: l2 -> x ≠ 0).
  { intros x Hx. eapply is_list_nonnull; [exact H|]. rewrite cells_perm, Ec. done. }
  eapply wp_mono.
  { eapply (wp_list_remove_chain h l1 p e n l2); try done; try set_solver; apply Hnn; set_solver. }
  intros r h' (-> & C & P & Hpp & Hnn'). split_and!; [done| |].
  - apply NoDup_around in Hd as (Hpf & Hpl1 & Hpl2 & Hfl1 & Hfl2 & Hl).
    pose proof (il_nodup _ _ _ H) as Hd'. rewrite cells_perm, Ec, NoDup_cons in Hd'.
    eapply is_list_ends; [exact H|rewrite Ec|rewrite Ec| | |rewrite Ec]; [apply Hd'| | | |done].
    + intros Hin. apply (Hnn 0); [set_solver|done].
    + destruct (decide (head_of L = p)) as [->|Hne]; [done|].
      eapply preserved_prv; [exact P|].
      assert (head_of L ∈ l1) by (destruct l1; simplify_eq/=; set_solver). set_solver.
    + destruct (decide (tail_of L = n)) as [->|Hne]; [done|].
      eapply preserved_nxt; [exact P|].
      assert (tail_of L ∈ l2) by (destruct ys; simplify_eq/=; set_solver). set_solver.
  - eapply preserved_mono; [|exact P]. rewrite Ec. set_solver.
Qed.

Lemma wp_list_push_front h L xs e :
  is_list h L xs -> e ∉ cells L xs -> e ∈ dom h -> e ≠ 0 ->
  wp (list_push_front L e) h (fun _ h' =>
    is_list h' L (e :: xs) /\ preserved (e :: cells L xs) h h').
Proof.
  intros. unfold list_push_front. walks. by apply (wp_list_insert h L [] xs e).
Qed.

Lemma wp_list_push_back h L xs e :
  is_list h L xs -> e ∉ cells L xs -> e ∈ dom h -> e ≠ 0 ->
  wp (list_push_back L e) h (fun _ h' =>
    is_list h' L (xs ++ [e]) /\ preserved (e :: cells L xs) h h').
Proof.
  intros H. unfold list_push_back. intros. walks.
  pose proof (wp_list_insert h L xs [] e) as W. rewrite app_nil_r in W. by apply W.
Qed.

Lemma wp_list_front h L x xs (Q : Z -> heap -> Prop) :
  is_list h L (x :: xs) -> Q x h -> wp (list_front L) h Q.
Proof.
  intros H HQ. unfold list_front. walks.
  pose proof (is_list_cut h L [] (x :: xs) H) as (l1 & p & f & l2 & E1 & E2 & _ & _ & [K _] & _).
  apply wp_get_next with (v := x); [|done]. destruct l1 as [|? [|]]; by simplify_eq/=.
Qed.

Lemma wp_list_back h L x xs (Q : Z -> heap -> Prop) :
  is_list h L (xs ++ [x]) -> Q x h -> wp (list_back L) h Q.
Proof.
  intros H HQ. unfold list_back. walks.
  { apply wp_assert; [|].
    { by rewrite bool_decide_eq_false_2 by (by destruct xs). }
    apply wp_get_prev with (v := x); [|done]. apply (list_link _ _ _ _ _ H). }
Qed.

Lemma wp_list_pop_front h L x xs :
  is_list h L (x :: xs) ->
  wp (list_pop_front L) h (fun r h' =>
    r = x /\ is_list h' L xs /\ preserved (cells L xs) h h').
Proof.
  intros H. unfold list_pop_front. wstep. eapply wp_list_front; [done|].
  wstep. eapply wp_mono; [apply (wp_list_remove h L [] x xs H)|].
  intros _ h' (_ & ? & ?). by wstep.
Qed.

Lemma wp_list_pop_back h L x xs :
  is_list h L (xs ++ [x]) ->
  wp (list_pop_back L) h (fun r h' =>
    r = x /\ is_list h' L xs /\ preserved (cells L xs) h h').
Proof.
  intros H. unfold list_pop_back. wstep. eapply wp_list_back; [done|].
  wstep. eapply wp_mono; [apply (wp_list_remove h L xs x [] H)|].
  rewrite app_nil_r. intros _ h' (_ & ? & ?). by wstep.
Qed.

Lemma wp_list_init h L :
  L ∈ dom h -> tail_of L ∈ dom h -> L ≠ 0 -> tail_of L ≠ 0 ->
  wp (list_init L) h (fun _ h' => is_list h' L [] /\ preserved [L; tail_of L] h h').
Proof.
  intros HL HT HL0 HT0.
  assert (L ≠ tail_of L) by (unfold tail_of; lia).
  assert (tail_of L ≠ L) by (unfold tail_of; lia).
  unfold list_init, head_of. wsteps. split.
  - split; unfold cells, head_of; simpl.
    + repeat constructor; set_solver.
    + set_solver.
    + split_and!; [split|done]; links.
    + links.
    + links.
  - repeat first [apply preserved_upd_prev; [set_solver|] | apply preserved_upd_next; [set_solver|]].
    apply preserved_refl.
Qed.

Lemma wp_list_size h L xs :
  is_list h L xs -> is_u32 (length xs) ->
  wp (list_size L) h (fun n h' => n = length xs /\ h' = h).
Proof.
  intros H Hr. unfold list_size. walks.
  eapply wp_mono; [apply (wp_list_size_loop h L xs []); [done| |by rewrite Z.add_0_l|lia]|].
  - unfold loop_fuel. pose proof (is_list_fuel _ _ _ H). lia.
  - intros ? ? [-> ->]. split; [lia|done].
Qed.
End Remove.

(** ** Splicing

    [list_splice] unlinks a run of cells and links it in elsewhere. *)
Definition unlinked (p n : Z) (h : heap) : heap := upd_prev n p (upd_next p n h).
Definition linked_in (q b f e : Z) (h : heap) : heap :=
  upd_prev b e (upd_next q f (upd_next e b (upd_prev f q h))).

Section Splice.
Implicit Types h : heap.
Implicit Types L e p n q b : Z.
Implicit Types xs ys l s : list Z.

Lemma wp_list_splice_links h p n q b b' f e (Q : unit -> heap -> Prop) :
  linked h p f -> linked h e n -> prv h b = Some b' -> prv (unlinked p n h) b = Some q ->
  nxt h f <> Some 0 -> prv h e <> Some 0 ->
  q ∈ dom h -> f ≠ n -> f ≠ b -> p ≠ e -> n ≠ f ->
  p ≠ 0 -> n ≠ 0 -> q ≠ 0 -> b ≠ 0 -> b' ≠ 0 -> f ≠ 0 -> e ≠ 0 ->
  Q tt (linked_in q b f e (unlinked p n h)) ->
  wp (list_splice b f n) h Q.
Proof.
  intros [Hpf Hfp] [Hen Hne] Hb Hbq Hf0' He0' Hq Hfn Hfb Hpe Hnf Hp0 Hn0 Hq0 Hb0 Hb0' Hf0 He0 HQ.
  destruct (dom_nxt h f) as [fn Hfn']; [by in_dom|].
  destruct (dom_prv h e) as [ep Hep]; [by in_dom|].
  assert (fn ≠ 0) by congruence. assert (ep ≠ 0) by congruence.
  unfold list_splice. wstep. apply (wp_interior_or_tail _ _ b'); [done..|]. wsteps.
  rewrite (proj2 (Z.eqb_neq f n)) by done. wstep. apply (wp_list_prev _ _ e); [done..|].
  wstep. apply (wp_is_interior _ _ p fn); [done..|]. rewrite !(proj2 (non_null_true _)) by done.
  wsteps. apply (wp_is_interior _ _ ep n); [done..|]. rewrite !(proj2 (non_null_true _)) by done.
  unfold unlinked in Hbq. wsteps.
  eapply wp_get_prev; [exact Hbq|]. wsteps. eapply wp_get_prev.
  { rewrite prv_upd_next, prv_upd_prev by in_dom. rewrite decide_False by done. exact Hbq. }
  wsteps. done.
Qed.

Lemma chain_unlinked h l1 p sg n l2 :
  chain h (l1 ++ p :: sg ++ n :: l2) -> NoDup (l1 ++ p :: n :: l2) ->
  (forall x, x ∈ sg -> x ≠ p /\ x ≠ n) -> p ∈ dom h -> n ∈ dom h ->
  chain (unlinked p n h) (l1 ++ p :: n :: l2) /\ chain (unlinked p n h) sg.
Proof.
  intros C Hd Hs Hp Hn. apply NoDup_around in Hd as (Hpn & Hpl1 & Hpl2 & Hnl1 & Hnl2 & _).
  rewrite chain_app in C. destruct C as [C1 C].
  rewrite app_comm_cons, chain_app in C. destruct C as [C C2].
  unfold unlinked. split.
  - apply chain_join. split_and!; [|split; links|].
    + apply chain_upd_prev; [set_solver|]. by apply chain_upd_next_last.
    + apply chain_upd_prev_first; [done|]. apply chain_upd_next; [set_solver|done].
  - apply chain_upd_prev; [naive_solver|]. apply chain_upd_next; [naive_solver|].
    destruct sg as [|f s]; [done|]. destruct C as [_ C].
    change (chain h ((f :: s) ++ [n])) in C.
    destruct (exists_last (l := f :: s)) as (t & e & E); [done|]. rewrite E in *.
    rewrite <- app_assoc in C. by apply chain_join in C as [C _].
Qed.

Lemma chain_linked_in h l1 q b l2 f s t e :
  chain h (l1 ++ q :: b :: l2) -> chain h (f :: s) -> f :: s = t ++ [e] ->
  NoDup (l1 ++ q :: b :: l2) -> NoDup (f :: s) ->
  (forall x, x ∈ f :: s -> x ∉ l1 ++ q :: b :: l2) ->
  q ∈ dom h -> b ∈ dom h -> f ∈ dom h -> e ∈ dom h ->
  chain (linked_in q b f e h) (l1 ++ q :: (f :: s) ++ b :: l2).
Proof.
  intros C Cs E Hd Hs Hx Hq Hb Hf He.
  apply NoDup_around in Hd as (Hqb & Hql1 & Hql2 & Hbl1 & Hbl2 & _).
  assert (f ∉ l1 ++ q :: b :: l2) as Hf' by (apply Hx; set_solver).
  assert (e ∈ f :: s) as Hes by (rewrite E; set_solver).
  assert (e ∉ l1 ++ q :: b :: l2) as He' by (by apply Hx).
  assert ((q ∉ f :: s) /\ (b ∉ f :: s)) as [Hqs Hbs].
  { split; intros ?; eapply Hx; eauto; set_solver. }
  clear Hx. apply chain_join in C as (C1 & _ & C2).
  assert (e ∉ t) as Het by (rewrite E in Hs; apply NoDup_app in Hs; set_solver).
  apply NoDup_cons in Hs as [Hfs _].
  unfold linked_in. apply chain_app. split; [|split].
  - apply chain_upd_prev; [set_solver|]. apply chain_upd_next_last; [set_solver|].
    apply chain_upd_next; [set_solver|]. apply chain_upd_prev; [set_solver|done].
  - split; links; set_solver.
  - change (f :: s ++ b :: l2) with ((f :: s) ++ b :: l2). rewrite E, <- app_assoc. simpl.
    apply chain_join. rewrite <- E. split_and!.
    + apply chain_upd_prev; [done|]. apply chain_upd_next; [done|]. rewrite E.
      apply chain_upd_next_last; [done|]. rewrite <- E. by apply chain_upd_prev_first.
    + split; links; set_solver.
    + apply chain_upd_prev_first; [done|]. do 2 (apply chain_upd_next; [set_solver|]).
      apply chain_upd_prev; [set_solver|done].
Qed.

(** The cell before the cut [xs | ys] of a list. *)
Definition last_of (xs : list Z) (L : Z) : Z := List.last xs (head_of L).

Lemma last_of_eq xs L l p : head_of L :: xs = l ++ [p] -> last_of xs L = p.
Proof.
  intros E. unfold last_of. assert (List.last (head_of L :: xs) (head_of L) = p) as <-.
  { rewrite E. apply List.last_last. }
  by destruct xs.
Qed.
Lemma last_of_in xs ys L : last_of xs L ∈ cells L (xs ++ ys).
Proof.
  destruct (exists_last (l := head_of L :: xs)) as (l & p & E); [done|].
  rewrite (last_of_eq _ _ _ _ E). unfold cells. rewrite <- app_assoc, app_comm_cons, E. set_solver.
Qed.

Lemma is_list_seg h L xs sg ys :
  is_list h L (xs ++ sg ++ ys) ->
  NoDup (cells L (xs ++ ys)) /\ NoDup sg /\ (forall x, x ∈ sg -> x ∉ cells L (xs ++ ys)) /\
  (forall x, x ∈ sg -> x ∈ dom h) /\ (forall x, x ∈ cells L (xs ++ ys) -> x ∈ dom h /\ x ≠ 0).
Proof.
  intros H. assert (cells L (xs ++ sg ++ ys) ≡ₚ sg ++ cells L (xs ++ ys)) as Ep.
  { unfold cells. solve_Permutation. }
  pose proof (il_nodup _ _ _ H) as Hd. rewrite Ep, NoDup_app in Hd.
  destruct Hd as (? & ? & ?). split_and!; [done..| |].
  - intros x Hx. eapply is_list_dom; [done|]. rewrite Ep. set_solver.
  - intros x Hx. split.
    + eapply is_list_dom; [done|]. rewrite Ep. set_solver.
    + eapply is_list_nonnull; [done|]. rewrite Ep. set_solver.
Qed.

Lemma is_list_unlinked h L xs sg ys :
  is_list h L (xs ++ sg ++ ys) ->
  is_list (unlinked (last_of xs L) (first_of ys L) h) L (xs ++ ys) /\
  chain (unlinked (last_of xs L) (first_of ys L) h) sg /\
  preserved (cells L (xs ++ ys)) h (unlinked (last_of xs L) (first_of ys L) h).
Proof.
  intros H. pose proof (is_list_seg _ _ _ _ _ H) as (Hd & _ & Hx & _ & Hc).
  destruct (exists_last (l := head_of L :: xs)) as (l1 & p & E1); [done|].
  destruct (ys ++ [tail_of L]) as [|n l2] eqn:E2; [by destruct ys|].
  rewrite (last_of_eq _ _ _ _ E1), (first_of_eq _ _ _ _ E2).
  assert (cells L (xs ++ ys) = l1 ++ p :: n :: l2) as Ec.
  { unfold cells. rewrite <- app_assoc, E2, app_comm_cons, E1, <- app_assoc. done. }
  assert (cells L (xs ++ sg ++ ys) = l1 ++ p :: sg ++ n :: l2) as Ec'.
  { unfold cells. rewrite <- !app_assoc, E2, app_comm_cons, E1, <- app_assoc. done. }
  rewrite Ec in Hx, Hc. pose proof (il_chain _ _ _ H) as C. rewrite Ec' in C.
  assert (p ∈ dom h /\ n ∈ dom h) as [Hp Hn] by (split; apply Hc; set_solver).
  destruct (chain_unlinked h l1 p sg n l2) as [C1 C2]; [done|by rewrite Ec in Hd| |done|done|].
  { intros x Hxs. specialize (Hx x Hxs). set_solver. }
  split_and!; [|done|].
  - eapply is_list_ends; [exact H|done| | | |by rewrite Ec].
    + rewrite Ec. intros H0. by apply (Hc 0).
    + rewrite Ec in Hd. apply NoDup_around in Hd as (Hpn & Hpl1 & Hpl2 & Hnl1 & Hnl2 & _).
      unfold unlinked. links. assert (head_of L ∈ l1 ++ [p]) by (rewrite <- E1; set_solver). set_solver.
    + rewrite Ec in Hd. apply NoDup_around in Hd as (Hpn & Hpl1 & Hpl2 & Hnl1 & Hnl2 & _).
      unfold unlinked. links. assert (tail_of L ∈ n :: l2) by (rewrite <- E2; set_solver). set_solver.
  - rewrite Ec. unfold unlinked. apply preserved_upd_prev; [set_solver|].
    apply preserved_upd_next; [set_solver|]. apply preserved_refl.
Qed.

Lemma is_list_linked_in h L us f s t e vs :
  is_list h L (us ++ vs) -> chain h (f :: s) -> f :: s = t ++ [e] -> NoDup (f :: s) ->
  (forall x, x ∈ f :: s -> x ∈ dom h /\ x ≠ 0 /\ (x ∉ cells L (us ++ vs))) ->
  let h' := linked_in (last_of us L) (first_of vs L) f e h in
  is_list h' L (us ++ (f :: s) ++ vs) /\ preserved ((f :: s) ++ cells L (us ++ vs)) h h'.
Proof.
  intros H C E Hs Hx h'. pose proof (is_list_cut _ _ _ _ H) as (l1 & q & b & l2 & E1 & E2 & Ec & C1 & K & C2).
  unfold h'. rewrite (last_of_eq _ _ _ _ E1), (first_of_eq _ _ _ _ E2).
  pose proof (il_nodup _ _ _ H) as Hd. rewrite Ec in Hd.
  assert (forall x, x ∈ l1 ++ q :: b :: l2 -> x ∈ dom h) as Hdom.
  { intros x ?. eapply is_list_dom; [exact H|]. by rewrite Ec. }
  assert (e ∈ f :: s) as He by (rewrite E; set_solver).
  assert (cells L (us ++ (f :: s) ++ vs) = l1 ++ q :: (f :: s) ++ b :: l2) as Ec'.
  { unfold cells. rewrite <- app_assoc, <- app_assoc, E2, app_comm_cons, E1, <- app_assoc. done. }
  assert ((f ∉ l1 ++ q :: b :: l2) /\ (e ∉ l1 ++ q :: b :: l2)) as [Hf He'].
  { rewrite <- Ec. split; apply Hx; set_solver. }
  split.
  - eapply is_list_ends; [exact H| | | | |].
    + assert (cells L (us ++ (f :: s) ++ vs) ≡ₚ (f :: s) ++ cells L (us ++ vs)) as ->.
      { unfold cells. solve_Permutation. }
      apply NoDup_app. split_and!; [done| |apply H]. intros x ?. by apply Hx.
    + rewrite Ec'. intros H0. destruct (decide (0 ∈ f :: s)) as [Hin|]; [by destruct (Hx 0 Hin) as (_ & ? & _)|].
      apply (il_null _ _ _ H). rewrite Ec. set_solver.
    + apply NoDup_around in Hd as (Hqb & Hql1 & Hql2 & Hbl1 & Hbl2 & _).
      assert (head_of L ∈ l1 ++ [q]) as Hh by (rewrite <- E1; set_solver).
      assert (f ∈ dom h) by (apply Hx; set_solver). assert (b ∈ dom h) by (apply Hdom; set_solver).
      unfold linked_in. links; set_solver.
    + apply NoDup_around in Hd as (Hqb & Hql1 & Hql2 & Hbl1 & Hbl2 & _).
      assert (tail_of L ∈ b :: l2) as Hh by (rewrite <- E2; set_solver).
      assert (e ∈ dom h) by (apply Hx; set_solver). assert (q ∈ dom h) by (apply Hdom; set_solver).
      unfold linked_in. links; set_solver.
    + rewrite Ec'. eapply chain_linked_in; try done.
      * apply chain_join. done.
      * intros x ?. rewrite <- Ec. by apply Hx.
      * apply Hdom; set_solver.
      * apply Hdom; set_solver.
      * apply Hx; set_solver.
      * by apply Hx.
  - rewrite Ec. unfold linked_in.
    repeat first [apply preserved_upd_prev; [set_solver|] | apply preserved_upd_next; [set_solver|]].
    apply preserved_refl.
Qed.

Lemma is_list_prv h L zs x : is_list h L zs -> x ∈ zs ++ [tail_of L] ->
  exists b', prv h x = Some b' /\ b' ≠ 0.
Proof.
  intros H (l & l' & E)%list_elem_of_split.
  destruct (exists_last (l := head_of L :: l)) as (l1 & p & E1); [done|].
  assert (cells L zs = l1 ++ p :: x :: l') as Ec.
  { unfold cells. rewrite E, app_comm_cons, E1, <- app_assoc. done. }
  pose proof (il_chain _ _ _ H) as C. rewrite Ec in C. apply chain_join in C as (_ & [_ K] & _).
  exists p. split; [done|]. eapply is_list_nonnull; [done|]. rewrite Ec. set_solver.
Qed.

Lemma is_list_cut_prv h L us vs : is_list h L (us ++ vs) ->
  prv h (first_of vs L) = Some (last_of us L).
Proof.
  intros H. apply is_list_cut in H as (l1 & q & b & l2 & E1 & E2 & _ & _ & [_ K] & _).
  by rewrite (last_of_eq _ _ _ _ E1), (first_of_eq _ _ _ _ E2).
Qed.
Lemma is_list_cut_nxt h L us vs : is_list h L (us ++ vs) ->
  nxt h (last_of us L) = Some (first_of vs L).
Proof.
  intros H. apply is_list_cut in H as (l1 & q & b & l2 & E1 & E2 & _ & _ & [K _] & _).
  by rewrite (last_of_eq _ _ _ _ E1), (first_of_eq _ _ _ _ E2).
Qed.
Lemma is_list_cut_linked h L us vs : is_list h L (us ++ vs) ->
  linked h (last_of us L) (first_of vs L).
Proof. split; [by eapply is_list_cut_nxt|by eapply is_list_cut_prv]. Qed.

Lemma first_of_in_tail vs us L : first_of vs L ∈ (us ++ vs) ++ [tail_of L].
Proof. destruct vs; set_solver. Qed.

(** [sg], a run of the list [L], goes before the cut [us | vs] of [L'],
    which is either what is left of [L] or another list. *)
Lemma wp_list_splice h L xs f s ys L' us vs :
  is_list h L (xs ++ (f :: s) ++ ys) ->
  (L' = L /\ us ++ vs = xs ++ ys) \/
  (is_list h L' (us ++ vs) /\
   forall x, x ∈ cells L' (us ++ vs) -> x ∉ cells L (xs ++ (f :: s) ++ ys)) ->
  wp (list_splice (first_of vs L') f (first_of ys L)) h (fun _ h' =>
    is_list h' L' (us ++ (f :: s) ++ vs) /\ (L' ≠ L -> is_list h' L (xs ++ ys)) /\
    preserved (cells L (xs ++ (f :: s) ++ ys) ++ cells L' (us ++ vs)) h h').
Proof.
  intros H Hcase. pose proof (is_list_seg _ _ _ _ _ H) as (_ & Hsd & Hsx & Hsdom & Hc).
  pose proof (is_list_unlinked _ _ _ _ _ H) as (H1 & C1 & P1).
  set (h1 := unlinked (last_of xs L) (first_of ys L) h) in *.
  assert (cells L (xs ++ (f :: s) ++ ys) ≡ₚ (f :: s) ++ cells L (xs ++ ys)) as Ep.
  { unfold cells. solve_Permutation. }
  assert (H1' : is_list h1 L' (us ++ vs)).
  { destruct Hcase as [[-> ->]|[Hl Hdis]]; [done|]. eapply is_list_preserved; [exact P1| |done].
    intros x Hx Hx'. apply (Hdis x Hx'). rewrite Ep. apply elem_of_app. by right. }
  assert (Hx' : forall x, x ∈ f :: s -> x ∉ cells L' (us ++ vs)).
  { destruct Hcase as [[-> ->]|[Hl Hdis]]; [done|]. intros x Hx Hin. apply (Hdis x Hin).
    rewrite Ep. apply elem_of_app. by left. }
  assert (exists b', prv h (first_of vs L') = Some b' /\ b' ≠ 0) as (b' & Hb & Hb0).
  { destruct Hcase as [[-> Eu]|[Hl _]].
    - eapply is_list_prv; [exact H|]. pose proof (first_of_in_tail vs us L) as Hin.
      rewrite Eu in Hin. clear -Hin. set_solver.
    - eapply is_list_prv; [exact Hl|]. apply first_of_in_tail. }
  destruct (exists_last (l := f :: s)) as (t & e & E); [done|].
  assert (e ∈ f :: s) as Hes by (rewrite E; clear; set_solver).
  assert (forall x, x ∈ f :: s -> x ≠ 0) as Hs0.
  { intros x Hx. eapply is_list_nonnull; [exact H|]. rewrite Ep. apply elem_of_app. by left. }
  pose proof (first_of_in ys xs L) as Hn. pose proof (last_of_in xs ys L) as Hp.
  pose proof (first_of_in vs us L') as Hbi. pose proof (last_of_in us vs L') as Hq.
  assert (linked h (last_of xs L) f) as K1.
  { apply (is_list_cut_linked h L xs ((f :: s) ++ ys)). done. }
  assert (linked h e (first_of ys L)) as K2.
  { apply (list_link h L (xs ++ t)). rewrite E in H. rewrite <- !app_assoc in *. done. }
  eapply (wp_list_splice_links h (last_of xs L) (first_of ys L) (last_of us L')
            (first_of vs L') b' f e); try done.
  - by apply is_list_cut_prv.
  - rewrite (proj1 (list_link h L xs f (s ++ ys) H)). intros [= H0].
    eapply is_list_nonnull; [exact H| |exact H0].
    pose proof (first_of_in (s ++ ys) (xs ++ [f]) L) as Hi. by rewrite <- app_assoc in Hi.
  - intros H0. destruct (is_list_prv h L (xs ++ (f :: s) ++ ys) e) as (z & Hz & Hz0); [done|clear -Hes; set_solver|].
    congruence.
  - rewrite <- (proj1 P1). by eapply is_list_dom.
  - intros E'. apply (Hsx f); [clear; set_solver|congruence].
  - intros E'. apply (Hx' f); [clear; set_solver|congruence].
  - intros E'. apply (Hsx e); [done|congruence].
  - intros E'. apply (Hsx f); [clear; set_solver|congruence].
  - by apply Hc.
  - by apply Hc.
  - by eapply is_list_nonnull.
  - by eapply is_list_nonnull.
  - apply Hs0. clear; set_solver.
  - by apply Hs0.
  - fold h1.
    destruct (is_list_linked_in h1 L' us f s t e vs) as [Hres Pres]; [done..| |].
    { intros x Hx. split_and!; [rewrite (proj1 P1); auto|by apply Hs0|by apply Hx']. }
    split_and!; [done| |].
    + intros HLL. destruct Hcase as [[? _]|[Hl Hdis]]; [done|].
      eapply is_list_preserved; [exact Pres| |exact H1].
      intros x [Hx|Hx]%elem_of_app; [by apply Hsx|]. intros Hx''. apply (Hdis x Hx).
      rewrite Ep. apply elem_of_app. by right.
    + eapply preserved_trans; (eapply preserved_mono; [|eassumption]); intros x Hx;
        rewrite elem_of_app, Ep; clear -Hx; set_solver.
Qed.
End Splice.

(** ** Reversing *)
Section Reverse.
Implicit Types h : heap.
Implicit Types L e : Z.
Implicit Types xs ys l : list Z.

(** The cells in [ps] have their two links exchanged, the others are as
    they were. *)
Record swapped (ps : list Z) h h' : Prop := {
  sw_dom : dom h' = dom h;
  sw_nxt x : x ∈ ps -> nxt h' x = prv h x;
  sw_prv x : x ∈ ps -> prv h' x = nxt h x;
  sw_out x : x ∉ ps -> h' !! x = h !! x
}.

Lemma swapped_nil h : swapped [] h h.
Proof. split; [done|intros x Hx; by apply elem_of_nil in Hx..|done]. Qed.

Lemma wp_swap_own h e p n (Q : unit -> heap -> Prop) :
  prv h e = Some p -> nxt h e = Some n ->
  Q tt (upd_next e p (upd_prev e n h)) -> wp (swap (e, PREV) (e, NEXT)) h Q.
Proof. intros. unfold swap, get_link, set_link. simpl. by wsteps. Qed.

Lemma wp_list_reverse_loop h L ps qs h1 fuel :
  is_list h L (ps ++ qs) -> swapped ps h h1 -> (length qs < fuel)%nat ->
  wp (list_reverse_loop fuel L (first_of qs L)) h1 (fun _ h' => swapped (ps ++ qs) h h').
Proof.
  revert ps h1 fuel. induction qs as [|y qs IH]; intros ps h1 [|fuel] H Hsw Hf; simpl in Hf; try lia.
  - simpl. rewrite app_nil_r in *. wstep. unfold list_end. wstep.
    apply wp_assert; [by eapply is_list_L_nonnull|]. wstep. rewrite Z.eqb_refl. by wstep.
  - simpl. wstep. unfold list_end. wstep. apply wp_assert; [by eapply is_list_L_nonnull|]. wstep.
    rewrite (is_list_not_tail _ _ _ _ _ H).
    pose proof (list_link _ _ _ _ _ H) as [Hn _]. pose proof (is_list_cut_prv _ _ _ _ H) as Hp.
    simpl in Hp. pose proof (is_list_parts _ _ _ _ _ H) as [_ Hy].
    assert (y ∉ ps) as Hyps by (clear -Hy; unfold cells in Hy; set_solver).
    pose proof (sw_out _ _ _ Hsw y Hyps) as E.
    assert (prv h1 y = prv h y) as E1 by (unfold prv; by rewrite E).
    assert (nxt h1 y = nxt h y) as E2 by (unfold nxt; by rewrite E).
    wstep. eapply wp_swap_own; [by rewrite E1|by rewrite E2|].
    assert (y ∈ dom h1) as Hyd by (eapply nxt_mapped; by rewrite E2).
    wstep. eapply wp_get_prev.
    { rewrite prv_upd_next, prv_upd_prev by done. by rewrite decide_True. }
    eapply wp_mono; [apply (IH (ps ++ [y]))|].
    + by rewrite <- app_assoc.
    + destruct Hsw as [Sd Sn Sp So]. split.
      * by rewrite dom_upd_next, dom_upd_prev.
      * intros x Hx. rewrite nxt_upd_next by (by rewrite dom_upd_prev). rewrite nxt_upd_prev.
        case_decide as Hc; [subst; done|]. apply Sn. clear -Hx Hc. set_solver.
      * intros x Hx. rewrite prv_upd_next, prv_upd_prev by done.
        case_decide as Hc; [subst; done|]. apply Sp. clear -Hx Hc. set_solver.
      * intros x Hx. rewrite lookup_upd_next_ne, lookup_upd_prev_ne by (clear -Hx; set_solver).
        apply So. clear -Hx; set_solver.
    + lia.
    + intros ? h'. by rewrite <- app_assoc.
Qed.

Lemma chain_swapped h h' l ps :
  swapped ps h h' -> (forall x, x ∈ l -> x ∈ ps) -> chain h l -> chain h' (reverse l).
Proof.
  intros Hsw. induction l as [|a [|b l] IH]; intros Hl; [done..|]. intros [[Hn Hp] C].
  rewrite !reverse_cons, <- app_assoc. simpl. apply chain_join. split_and!.
  - rewrite <- reverse_cons. apply IH; [|done]. intros. apply Hl. set_solver.
  - split; [rewrite (sw_nxt _ _ _ Hsw)|rewrite (sw_prv _ _ _ Hsw)]; try done; apply Hl; set_solver.
  - done.
Qed.

(** The memory after the last two swaps of [list_reverse]. *)
Definition reversed L f e h : heap :=
  upd_next f (tail_of L) (upd_prev e (head_of L)
    (upd_prev (tail_of L) f (upd_next (head_of L) e h))).

Lemma is_list_ends_out h L xs : is_list h L xs ->
  (head_of L ∉ xs) /\ (tail_of L ∉ xs) /\ head_of L ≠ tail_of L /\ NoDup xs.
Proof.
  intros H. pose proof (il_nodup _ _ _ H) as Hd. unfold cells in Hd.
  apply NoDup_cons in Hd as [Hh Hd]. apply NoDup_app in Hd as (Hds & Ht & _).
  split_and!; [clear -Hh; set_solver| |clear -Hh; set_solver|done].
  intros Hin. apply (Ht _ Hin). clear; set_solver.
Qed.

Lemma chain_reversed h L f s t e :
  chain h (reverse (f :: s)) -> f :: s = t ++ [e] -> NoDup (f :: s) ->
  head_of L ∉ f :: s -> tail_of L ∉ f :: s ->
  chain (reversed L f e h) (reverse (f :: s)).
Proof.
  intros C E Hd Hh Ht.
  assert (e ∉ t) by (rewrite E in Hd; apply NoDup_app in Hd; set_solver).
  assert (f ∉ s) by (by apply NoDup_cons in Hd as [? _]).
  assert (C' : chain (upd_prev (tail_of L) f (upd_next (head_of L) e h)) (reverse (f :: s))).
  { apply chain_upd_prev; [by rewrite elem_of_reverse|].
    apply chain_upd_next; [by rewrite elem_of_reverse|done]. }
  unfold reversed. rewrite reverse_cons. apply chain_upd_next_last; [by rewrite elem_of_reverse|].
  rewrite <- reverse_cons, E, reverse_app. apply chain_upd_prev_first; [by rewrite elem_of_reverse|].
  rewrite E, reverse_app in C'. done.
Qed.

Lemma is_list_reversed h h1 L f s t e :
  is_list h L (f :: s) -> f :: s = t ++ [e] -> swapped (f :: s) h h1 ->
  is_list (reversed L f e h1) L (reverse (f :: s)) /\
  preserved (cells L (f :: s)) h (reversed L f e h1).
Proof.
  intros H E Hsw. pose proof (is_list_ends_out _ _ _ H) as (Hh & Ht & Hht & Hd).
  assert (f ∈ f :: s /\ e ∈ f :: s) as [Hf He] by (split; [|rewrite E]; clear; set_solver).
  assert (forall x, x ∈ cells L (f :: s) -> x ∈ dom h1) as Hdom.
  { intros x Hx. rewrite (sw_dom _ _ _ Hsw). by eapply is_list_dom. }
  assert (forall x, x ∈ f :: s -> x ∈ dom h1 /\ x ≠ head_of L /\ x ≠ tail_of L) as Hx.
  { intros x Hx. split; [apply Hdom; unfold cells; clear -Hx; set_solver|].
    split; intros ->; done. }
  destruct (Hx f Hf) as (? & ? & ?), (Hx e He) as (? & ? & ?).
  assert (head_of L ∈ dom h1 /\ tail_of L ∈ dom h1) as [? ?].
  { split; apply Hdom; unfold cells; clear; set_solver. }
  assert (C : chain h1 (reverse (f :: s))).
  { eapply chain_swapped; [done|auto|]. pose proof (il_chain _ _ _ H) as [_ C].
    change (chain h ((f :: s) ++ [tail_of L])) in C. rewrite E, <- app_assoc in C.
    simpl in C. rewrite E. by apply chain_join in C as (C & _ & _). }
  apply (chain_reversed _ L _ _ t e) in C; [|done..].
  split.
  - assert (cells L (reverse (f :: s)) ≡ₚ cells L (f :: s)) as Ep.
    { unfold cells. by rewrite reverse_Permutation. }
    eapply is_list_ends; [exact H|rewrite Ep; apply H|rewrite Ep; apply H| | |].
    + unfold reversed. links. unfold prv. by rewrite (sw_out _ _ _ Hsw).
    + unfold reversed. links. unfold nxt. by rewrite (sw_out _ _ _ Hsw).
    + unfold cells. rewrite reverse_cons, <- app_assoc.
      change (chain (reversed L f e h1) ((head_of L :: reverse s) ++ f :: [tail_of L])).
      apply chain_join. split_and!; [|unfold reversed; split; links|done].
      change ((head_of L :: reverse s) ++ [f]) with (head_of L :: (reverse s ++ [f])).
      rewrite <- reverse_cons. rewrite E, reverse_app in C |- *.
      split; [|done]. unfold reversed. split; links.
  - assert (Hin : forall x, x ∈ f :: s -> x ∈ cells L (f :: s)).
    { intros x. clear. unfold cells. set_solver. }
    unfold reversed. apply preserved_upd_next; [auto|]. apply preserved_upd_prev; [auto|].
    apply preserved_upd_prev; [unfold cells; clear; set_solver|].
    apply preserved_upd_next; [unfold cells; clear; set_solver|].
    split; [apply Hsw|]. intros x Hx'. apply (sw_out _ _ _ Hsw). auto.
Qed.

Lemma wp_list_reverse h L xs :
  is_list h L xs ->
  wp (list_reverse L) h (fun _ h' => is_list h' L (reverse xs) /\ preserved (cells L xs) h h').
Proof.
  intros H. unfold list_reverse. wstep. eapply wp_list_empty; [done|].
  destruct xs as [|f s]; [done|]. simpl. wsteps. eapply wp_list_begin; [done|]. wstep.
  eapply wp_mono.
  { apply (wp_list_reverse_loop h L [] (f :: s)); [done|apply swapped_nil|].
    unfold loop_fuel. pose proof (is_list_fuel _ _ _ H). lia. }
  intros ? h1 Hsw. simpl in Hsw.
  destruct (exists_last (l := f :: s)) as (t & e & E); [done|].
  pose proof (is_list_ends_out _ _ _ H) as (Hhd & Htl & Hht & _).
  assert (f ∈ f :: s /\ e ∈ f :: s) as [Hf He] by (split; [|rewrite E]; clear; set_solver).
  assert (Ko : linked h e (tail_of L)) by (apply (list_link h L t e []); by rewrite <- E).
  assert (Ki : linked h (head_of L) f) by (apply (is_list_cut_linked h L [] (f :: s)); done).
  assert (nxt h1 (head_of L) = Some f).
  { unfold nxt. rewrite (sw_out _ _ _ Hsw) by done. apply Ki. }
  assert (prv h1 (tail_of L) = Some e).
  { unfold prv. rewrite (sw_out _ _ _ Hsw) by done. apply Ko. }
  assert (nxt h1 f = Some (head_of L)) by (rewrite (sw_nxt _ _ _ Hsw) by done; apply Ki).
  assert (prv h1 e = Some (tail_of L)) by (rewrite (sw_prv _ _ _ Hsw) by done; apply Ko).
  assert (head_of L ≠ f /\ head_of L ≠ e /\ tail_of L ≠ f /\ tail_of L ≠ e) as (? & ? & ? & ?).
  { split_and!; intros Eq; [apply Hhd|apply Hhd|apply Htl|apply Htl]; by rewrite Eq. }
  unfold swap, get_link, set_link. simpl. wsteps.
  by apply (is_list_reversed h h1 L f s t e).
Qed.
End Reverse.

(** ** Ordered insertion, duplicates, extrema *)
Section Ordered.
Variable less : Z -> Z -> bool.
Implicit Types h : heap.
Implicit Types L e : Z.
Implicit Types xs ys l : list Z.

(** What the operations do to sequences. *)
Fixpoint insert_ordered_seq e xs : list Z :=
  match xs with
  | [] => [e]
  | y :: ys => if less e y then e :: y :: ys else y :: insert_ordered_seq e ys
  end.

(** The elements kept after [a] and the ones taken out. *)
Fixpoint unique_seq (a : Z) ys : list Z * list Z :=
  match ys with
  | [] => ([], [])
  | b :: ys =>
      if negb (less a b) && negb (less b a)
      then let '(keep, dup) := unique_seq a ys in (keep, b :: dup)
      else let '(keep, dup) := unique_seq b ys in (b :: keep, dup)
  end.

Definition max_seq (a : Z) ys : Z := fold_left (fun m e => if less m e then e else m) ys a.
Definition min_seq (a : Z) ys : Z := fold_left (fun m e => if less e m then e else m) ys a.

Lemma wp_insert_ordered_loop h L e ys xs fuel :
  is_list h L (xs ++ ys) -> (length ys < fuel)%nat ->
  wp (list_insert_ordered_loop less fuel L e (first_of ys L)) h (fun r h' =>
    h' = h /\ exists zs vs, ys = zs ++ vs /\ r = first_of vs L /\
                            insert_ordered_seq e ys = zs ++ e :: vs).
Proof.
  revert xs fuel. induction ys as [|y ys IH]; intros xs [|fuel] H Hf; simpl in Hf; try lia; simpl.
  - walks. rewrite Z.eqb_refl. wstep. split; [done|]. by exists [], [].
  - walks. rewrite (is_list_not_tail _ _ _ _ _ H). destruct (less e y) eqn:El.
    + wstep. split; [done|]. by exists [], (y :: ys).
    + walks. eapply wp_mono; [apply (IH (xs ++ [y])); [by rewrite <- app_assoc|lia]|].
      intros r h' (-> & zs & vs & -> & -> & E). split; [done|]. exists (y :: zs), vs.
      rewrite E. done.
Qed.

Lemma wp_list_insert_ordered h L xs e :
  is_list h L xs -> e ∉ cells L xs -> e ∈ dom h -> e ≠ 0 ->
  wp (list_insert_ordered less L e) h (fun _ h' =>
    is_list h' L (insert_ordered_seq e xs) /\ preserved (e :: cells L xs) h h').
Proof.
  intros H He Hm He0. unfold list_insert_ordered. wstep.
  apply wp_assert; [by eapply is_list_L_nonnull|]. walks.
  eapply wp_mono; [apply (wp_insert_ordered_loop h L e xs [])|].
  - done.
  - unfold loop_fuel. pose proof (is_list_fuel _ _ _ H). lia.
  - intros r h' (-> & zs & vs & -> & -> & ->). by apply wp_list_insert.
Qed.

(** [duplicates] is null, or another list, which receives the duplicates. *)
Definition dup_list h L xs D ds : Prop :=
  D = NULL \/ (is_list h D ds /\ forall x, x ∈ cells D ds -> x ∉ cells L xs).

Lemma wp_list_unique_loop h L D ds ys xs a fuel :
  is_list h L (xs ++ a :: ys) -> dup_list h L (xs ++ a :: ys) D ds -> (length ys < fuel)%nat ->
  wp (list_unique_loop less fuel L D a) h (fun _ h' =>
    is_list h' L (xs ++ a :: (unique_seq a ys).1) /\
    dup_list h' L (xs ++ a :: (unique_seq a ys).1) D (ds ++ (unique_seq a ys).2)).
Proof.
  revert h ds xs a fuel.
  induction ys as [|b ys IH]; intros h ds xs a [|fuel] H HD Hf; simpl in Hf; try lia; simpl.
  - walks. simpl. rewrite Z.eqb_refl. wstep. by rewrite app_nil_r.
  - walks. simpl. assert (is_list h L ((xs ++ [a]) ++ b :: ys)) as H' by (by rewrite <- app_assoc).
    rewrite (is_list_not_tail _ _ _ _ _ H').
    destruct (negb (less a b) && negb (less b a)) eqn:El.
    + wstep. eapply wp_mono; [apply (wp_list_remove _ _ _ _ _ H')|].
      intros _ h1 (_ & H1 & P1). rewrite <- app_assoc in H1. simpl in H1.
      assert (cells L (xs ++ a :: b :: ys) ≡ₚ b :: cells L (xs ++ a :: ys)) as Ep.
      { unfold cells. solve_Permutation. }
      pose proof (is_list_parts _ _ _ _ _ H') as [_ Hb]. rewrite <- app_assoc in Hb, P1. simpl in Hb, P1.
      wstep. destruct HD as [->|[HD Hdis]].
      * unfold when. simpl. wstep. eapply wp_mono; [apply (IH _ ds); [done|by left|lia]|].
        destruct (unique_seq a ys) as [k d]. simpl. intros _ h' [? _]. split; [done|by left].
      * rewrite (is_list_L_nonnull _ _ _ HD). simpl.
        assert (is_list h1 D ds) as HD1.
        { eapply is_list_preserved; [exact P1| |done]. intros x Hx Hx'.
          apply (Hdis x Hx'). rewrite Ep. clear -Hx. set_solver. }
        eapply wp_mono; [apply (wp_list_push_back h1 D ds b HD1)|].
        -- intros Hin. apply (Hdis b Hin). rewrite Ep. clear. set_solver.
        -- rewrite (proj1 P1). eapply is_list_dom; [exact H|]. rewrite Ep. clear. set_solver.
        -- eapply is_list_nonnull; [exact H|]. rewrite Ep. clear. set_solver.
        -- intros _ h2 [HD2 P2].
           assert (cells D (ds ++ [b]) ≡ₚ b :: cells D ds) as ED.
           { unfold cells. solve_Permutation. }
           assert (forall x, x ∈ b :: cells D ds -> x ∉ cells L (xs ++ a :: ys)) as Hdis'.
           { intros x [->|Hx]%elem_of_cons; [done|]. intros Hx'. apply (Hdis x Hx).
             rewrite Ep. clear -Hx'. set_solver. }
           eapply wp_mono; [apply (IH h2 (ds ++ [b]) xs a)|].
           ++ eapply is_list_preserved; [exact P2|exact Hdis'|exact H1].
           ++ right. split; [done|]. intros x. rewrite ED. apply Hdis'.
           ++ lia.
           ++ intros ? h'. destruct (unique_seq a ys) as [k d]. simpl. by rewrite <- app_assoc.
    + eapply wp_mono; [apply (IH h ds (xs ++ [a]) b fuel H'); [by rewrite <- app_assoc|lia]|].
      intros ? h'. destruct (unique_seq b ys) as [k d]. simpl. by rewrite <- !app_assoc.
Qed.

Lemma wp_list_unique h L D x xs ds :
  is_list h L (x :: xs) -> dup_list h L (x :: xs) D ds ->
  wp (list_unique less L D) h (fun _ h' =>
    is_list h' L (x :: (unique_seq x xs).1) /\
    dup_list h' L (x :: (unique_seq x xs).1) D (ds ++ (unique_seq x xs).2)).
Proof.
  intros H HD. unfold list_unique. wstep. apply wp_assert; [by eapply is_list_L_nonnull|].
  walks. simpl. walks. apply (wp_list_unique_loop h L D ds xs []); [done..|].
  unfold loop_fuel. pose proof (is_list_fuel _ _ _ H). simpl in *. lia.
Qed.

Lemma wp_list_max_loop h L ys xs m fuel :
  is_list h L (xs ++ ys) -> (length ys < fuel)%nat ->
  wp (list_max_loop less fuel L m (first_of ys L)) h (fun r h' => h' = h /\ r = max_seq m ys).
Proof.
  revert xs m fuel. induction ys as [|y ys IH]; intros xs m [|fuel] H Hf; simpl in Hf; try lia; simpl.
  - walks. by rewrite Z.eqb_refl.
  - walks. rewrite (is_list_not_tail _ _ _ _ _ H). walks.
    eapply (IH (xs ++ [y])); [by rewrite <- app_assoc|lia].
Qed.

Lemma wp_list_min_loop h L ys xs m fuel :
  is_list h L (xs ++ ys) -> (length ys < fuel)%nat ->
  wp (list_min_loop less fuel L m (first_of ys L)) h (fun r h' => h' = h /\ r = min_seq m ys).
Proof.
  revert xs m fuel. induction ys as [|y ys IH]; intros xs m [|fuel] H Hf; simpl in Hf; try lia; simpl.
  - walks. by rewrite Z.eqb_refl.
  - walks. rewrite (is_list_not_tail _ _ _ _ _ H). walks.
    eapply (IH (xs ++ [y])); [by rewrite <- app_assoc|lia].
Qed.

(** On an empty list the result is the tail. *)
Definition extremum_seq (f : Z -> list Z -> Z) xs L : Z :=
  match xs with x :: xs => f x xs | [] => tail_of L end.

Lemma wp_list_max h L xs :
  is_list h L xs ->
  wp (list_max less L) h (fun r h' => h' = h /\ r = extremum_seq max_seq xs L).
Proof.
  intros H. unfold list_max. walks. destruct xs as [|x xs]; simpl.
  - by rewrite Z.eqb_refl.
  - rewrite (is_list_not_tail h L [] x xs H). wsteps. eapply (wp_list_next_at h L []); [done|].
    apply (wp_list_max_loop h L xs [x]); [done|].
    unfold loop_fuel. pose proof (is_list_fuel _ _ _ H). simpl in *. lia.
Qed.

Lemma wp_list_min h L xs :
  is_list h L xs ->
  wp (list_min less L) h (fun r h' => h' = h /\ r = extremum_seq min_seq xs L).
Proof.
  intros H. unfold list_min. walks. destruct xs as [|x xs]; simpl.
  - by rewrite Z.eqb_refl.
  - rewrite (is_list_not_tail h L [] x xs H). wsteps. eapply (wp_list_next_at h L []); [done|].
    apply (wp_list_min_loop h L xs [x]); [done|].
    unfold loop_fuel. pose proof (is_list_fuel _ _ _ H). simpl in *. lia.
Qed.
End Ordered.
