(* ===== verification/DlistSort.v ===== *)
(** * list_sort: the in-place natural merge sort of list.c

    First the sort on sequences, which the pointer code computes, with its
    correctness: it terminates, permutes, sorts and is stable.  Then the
    refinement: [list_sort] run on a list leaves the sorted list. *)

From S2P Require Import Prelude Dlist DlistOps.

(** What list.h asks of a [list_less_func]: "A is less than B" as opposed to
    "A is greater than or equal to B", that is, a strict weak order. *)
Class StrictWeak {A : Type} (less : A -> A -> bool) : Prop := {
  less_asym a b : less a b = true -> less b a = false;
  less_negtrans a b c : less a b = false -> less b c = false -> less a c = false
}.

(** Sorting by an integer key is such an order. *)
#[export] Instance key_order {A} (key : A -> Z) : StrictWeak (fun a b => key a <? key b).
Proof. split; intros *; zcases; try done; lia. Qed.

Section Seq.
Context {A : Type} (less : A -> A -> bool).
Implicit Types a b z : A.
Implicit Types l xs ys : list A.

Definition not_after a b : Prop := less b a = false.

(** The rest of the run that starts with [a], and what follows the run. *)
Fixpoint run_split a ys : list A * list A :=
  match ys with
  | [] => ([], [])
  | b :: t =>
      if less b a then ([], b :: t)
      else let '(r, rest) := run_split b t in (b :: r, rest)
  end.

Fixpoint merge (l : list A) : list A -> list A :=
  fix merge_l (m : list A) : list A :=
    match l, m with
    | [], _ => m
    | _, [] => l
    | a :: l', b :: m' => if less b a then b :: merge_l m' else a :: merge l' m
    end.

(** One pass: merge the runs pairwise; the runs it puts out are counted. *)
Fixpoint sort_pass (fuel : nat) (l : list A) : list A * nat :=
  match fuel, l with
  | O, _ | _, [] => (l, O)
  | S fuel, a :: ys =>
      let '(r1, rest1) := run_split a ys in
      match rest1 with
      | [] => (a :: r1, 1%nat)
      | b :: t =>
          let '(r2, rest2) := run_split b t in
          let '(l', cnt) := sort_pass fuel rest2 in
          (merge (a :: r1) (b :: r2) ++ l', S cnt)
      end
  end.

Fixpoint sort_seq (fuel : nat) (l : list A) : list A :=
  match fuel with
  | O => l
  | S fuel =>
      let '(l', cnt) := sort_pass (length l) l in
      if (1 <? cnt)%nat then sort_seq fuel l' else l'
  end.

(** The number of maximal nondecreasing runs. *)
Fixpoint nruns l : nat :=
  match l with
  | [] => O
  | a :: t =>
      match t with
      | [] => 1%nat
      | b :: _ => if less b a then S (nruns t) else nruns t
      end
  end.

Lemma run_split_app a ys : ys = (run_split a ys).1 ++ (run_split a ys).2.
Proof.
  revert a. induction ys as [|b t IH]; intros a; simpl; [done|].
  destruct (less b a); [done|]. specialize (IH b). destruct (run_split b t). simpl in *. by f_equal.
Qed.

Lemma run_split_sorted a ys : Sorted not_after (a :: (run_split a ys).1).
Proof.
  revert a. induction ys as [|b t IH]; intros a; simpl; [by repeat constructor|].
  destruct (less b a) eqn:E; [by repeat constructor|].
  specialize (IH b). destruct (run_split b t). simpl in *. constructor; [done|by constructor].
Qed.

Lemma nruns_run a ys : nruns (a :: ys) = S (nruns (run_split a ys).2).
Proof.
  revert a. induction ys as [|b t IH]; intros a; [done|].
  change (nruns (a :: b :: t)) with (if less b a then S (nruns (b :: t)) else nruns (b :: t)).
  simpl run_split. destruct (less b a); [done|]. rewrite IH. by destruct (run_split b t).
Qed.

Lemma nruns_app l1 l2 : (nruns (l1 ++ l2) <= nruns l1 + nruns l2)%nat.
Proof.
  induction l1 as [|a [|b l1] IH]; [done| |].
  - simpl. destruct l2 as [|c l2]; [done|]. destruct (less c a); lia.
  - change ((a :: b :: l1) ++ l2) with (a :: b :: (l1 ++ l2)).
    change (nruns (a :: b :: l1 ++ l2)) with
      (if less b a then S (nruns ((b :: l1) ++ l2)) else nruns ((b :: l1) ++ l2)).
    change (nruns (a :: b :: l1)) with (if less b a then S (nruns (b :: l1)) else nruns (b :: l1)).
    destruct (less b a); lia.
Qed.

Lemma nruns_sorted l : Sorted not_after l -> (nruns l <= 1)%nat.
Proof.
  induction 1 as [|a l HS IH Hd]; [simpl; lia|]. inversion Hd as [|b t Hab]; subst; [done|].
  change (nruns (a :: b :: t)) with (if less b a then S (nruns (b :: t)) else nruns (b :: t)).
  by rewrite Hab.
Qed.

Lemma sorted_nruns l : (nruns l <= 1)%nat -> Sorted not_after l.
Proof.
  induction l as [|a [|b t] IH]; [by constructor|by repeat constructor|].
  change (nruns (a :: b :: t)) with (if less b a then S (nruns (b :: t)) else nruns (b :: t)).
  destruct (less b a) eqn:E.
  - rewrite (nruns_run b). lia.
  - intros. constructor; [by apply IH|by constructor].
Qed.

Lemma nruns_length l : (nruns l <= length l)%nat.
Proof.
  induction l as [|a [|b t] IH]; [done..|].
  change (nruns (a :: b :: t)) with (if less b a then S (nruns (b :: t)) else nruns (b :: t)).
  simpl in *. destruct (less b a); lia.
Qed.

Lemma merge_nil_r l : merge l [] = l.
Proof. by destruct l. Qed.
Lemma merge_nil_l l : merge [] l = l.
Proof. by destruct l. Qed.
Lemma merge_cons a l b m :
  merge (a :: l) (b :: m) = if less b a then b :: merge (a :: l) m else a :: merge l (b :: m).
Proof. done. Qed.
#[local] Arguments merge : simpl never.

Lemma merge_perm l m : merge l m ≡ₚ l ++ m.
Proof.
  revert m. induction l as [|a l IHl]; intros m; [by destruct m|].
  induction m as [|b m IHm]; [by rewrite app_nil_r|].
  rewrite merge_cons. destruct (less b a).
  - rewrite IHm. solve_Permutation.
  - by rewrite IHl.
Qed.

Lemma sort_pass_perm fuel l : (sort_pass fuel l).1 ≡ₚ l.
Proof.
  revert l. induction fuel as [|fuel IH]; intros [|a ys]; simpl; try done.
  pose proof (run_split_app a ys) as E1. destruct (run_split a ys) as [r1 rest1]. simpl in E1.
  destruct rest1 as [|b t]; simpl; [by rewrite E1, app_nil_r|].
  pose proof (run_split_app b t) as E2. destruct (run_split b t) as [r2 rest2]. simpl in E2.
  specialize (IH rest2). destruct (sort_pass fuel rest2) as [l' cnt]. simpl in *.
  rewrite (merge_perm (a :: r1)), IH, E1, E2. simpl. solve_Permutation.
Qed.

Lemma sort_pass_count fuel l : (length l <= fuel)%nat ->
  (2 * (sort_pass fuel l).2 <= nruns l + 1 /\ nruns l <= 2 * (sort_pass fuel l).2)%nat.
Proof.
  revert l. induction fuel as [|fuel IH]; intros [|a ys] Hf; simpl in Hf; [simpl; lia|lia|simpl; lia|].
  rewrite nruns_run. simpl.
  pose proof (run_split_app a ys) as E1. destruct (run_split a ys) as [r1 rest1]. simpl in *.
  destruct rest1 as [|b t]; [simpl; lia|]. rewrite nruns_run.
  pose proof (run_split_app b t) as E2. destruct (run_split b t) as [r2 rest2]. simpl in *.
  specialize (IH rest2). destruct (sort_pass fuel rest2) as [l' cnt]. simpl in *.
  rewrite E1, E2, !length_app in Hf. simpl in Hf. rewrite length_app in Hf. lia.
Qed.

Context `{!StrictWeak less}.

#[local] Instance not_after_trans : Transitive not_after.
Proof. intros a b c Hab Hbc. unfold not_after in *. by eapply less_negtrans. Qed.

Lemma less_irrefl a : less a a = false.
Proof. destruct (less a a) eqn:E; [|done]. by rewrite (less_asym _ _ E) in E. Qed.

Lemma sorted_cons_all a l : Sorted not_after (a :: l) -> forall x, x ∈ a :: l -> not_after a x.
Proof.
  intros H x. apply Sorted_StronglySorted in H; [|apply _].
  apply StronglySorted_inv in H as [_ H]. rewrite Forall_forall in H.
  intros [->|Hx]%elem_of_cons; [apply less_irrefl|auto].
Qed.

Lemma merge_sorted l m : Sorted not_after l -> Sorted not_after m -> Sorted not_after (merge l m).
Proof.
  revert m. induction l as [|a l IHl]; intros m Hl; [by rewrite merge_nil_l|].
  induction m as [|b m IHm]; intros Hm; [done|]. rewrite merge_cons.
  pose proof (sorted_cons_all _ _ Hl) as Ha. pose proof (sorted_cons_all _ _ Hm) as Hb.
  apply Sorted_inv in Hm as [Hm' _]. pose proof Hl as [Hl' _]%Sorted_inv.
  assert (forall c k, Sorted not_after k -> (forall x, x ∈ k -> not_after c x) ->
                      Sorted not_after (c :: k)) as Hcons.
  { intros c [|d k] Hk Hc; constructor; try done; constructor. apply Hc. set_solver. }
  destruct (less b a) eqn:E.
  - apply Hcons; [by apply IHm|]. intros x.
    rewrite merge_perm, elem_of_app. intros [Hx|Hx].
    + etransitivity; [|by apply Ha]. by apply less_asym.
    + apply Hb. set_solver.
  - apply Hcons; [apply IHl; [done|]|].
    + apply Hcons; [done|]. intros x Hx. apply Hb. set_solver.
    + intros x. rewrite merge_perm, elem_of_app. intros [Hx|Hx]; [apply Ha; set_solver|].
      etransitivity; [exact E|by apply Hb].
Qed.
End Seq.
Arguments merge : simpl never.

Section SeqCorrect.
Context {A : Type} (less : A -> A -> bool) `{!StrictWeak less}.
Implicit Types a b z : A.
Implicit Types l : list A.

(** Elements that [less] does not tell apart from [z]. *)
Definition same_key z a : bool := negb (less z a) && negb (less a z).

Lemma same_key_spec z a : same_key z a = true <-> less z a = false /\ less a z = false.
Proof. unfold same_key. rewrite andb_true_iff, !negb_true_iff. done. Qed.

(** Nothing in a sorted list whose first element is above [z]'s class. *)
Lemma sorted_above_none z a l :
  less z a = true -> Sorted (not_after less) (a :: l) -> List.filter (same_key z) (a :: l) = [].
Proof.
  intros Hza Hs.
  assert (forall x, x ∈ a :: l -> same_key z x = false) as Hn.
  { intros x Hx. pose proof (sorted_cons_all less _ _ Hs x Hx) as Hax. unfold not_after in Hax.
    destruct (same_key z x) eqn:E; [|done]. apply same_key_spec in E as [E1 E2].
    by rewrite (less_negtrans z x a E1 Hax) in Hza. }
  clear Hs. induction (a :: l) as [|x k IH]; [done|]. simpl.
  rewrite Hn by set_solver. apply IH. intros. apply Hn. set_solver.
Qed.

Lemma merge_stable z l m :
  Sorted (not_after less) l -> Sorted (not_after less) m ->
  List.filter (same_key z) (merge less l m) =
  List.filter (same_key z) l ++ List.filter (same_key z) m.
Proof.
  revert m. induction l as [|a l IHl]; intros m Hl; [by rewrite merge_nil_l|].
  induction m as [|b m IHm]; intros Hm; [by rewrite merge_nil_r, app_nil_r|].
  rewrite merge_cons. pose proof Hl as [Hl' _]%Sorted_inv. pose proof Hm as [Hm' _]%Sorted_inv.
  destruct (less b a) eqn:E.
  - cbn [List.filter]. rewrite IHm by done. cbn [List.filter].
    destruct (same_key z b) eqn:Eb; [|done].
    assert (less z a = true) as Hza.
    { apply same_key_spec in Eb as [Eb1 Eb2]. destruct (less z a) eqn:Ez; [done|].
      by rewrite (less_negtrans _ _ _ Eb2 Ez) in E. }
    pose proof (sorted_above_none z a l Hza Hl) as Hn. cbn [List.filter] in Hn. by rewrite Hn.
  - cbn [List.filter]. rewrite IHl by done. cbn [List.filter].
    by destruct (same_key z a).
Qed.

Lemma sort_pass_stable z fuel l :
  List.filter (same_key z) (sort_pass less fuel l).1 = List.filter (same_key z) l.
Proof.
  revert l. induction fuel as [|fuel IH]; intros [|a ys]; try done.
  cbn [sort_pass]. pose proof (run_split_app less a ys) as E1.
  pose proof (run_split_sorted less a ys) as S1.
  destruct (run_split less a ys) as [r1 rest1]. simpl fst in *. simpl snd in *.
  destruct rest1 as [|b t]; [by rewrite E1, app_nil_r|].
  pose proof (run_split_app less b t) as E2. pose proof (run_split_sorted less b t) as S2.
  destruct (run_split less b t) as [r2 rest2]. simpl fst in *. simpl snd in *.
  specialize (IH rest2). destruct (sort_pass less fuel rest2) as [l' cnt]. simpl fst in *.
  rewrite List.filter_app, merge_stable, IH by done. rewrite E1, E2.
  rewrite <- !List.filter_app, <- app_assoc. done.
Qed.

Lemma sort_pass_runs fuel l : (length l <= fuel)%nat ->
  (nruns less (sort_pass less fuel l).1 <= (sort_pass less fuel l).2)%nat.
Proof.
  revert l. induction fuel as [|fuel IH]; intros [|a ys] Hf; simpl in Hf; try (simpl; lia).
  cbn [sort_pass]. pose proof (run_split_app less a ys) as E1.
  pose proof (run_split_sorted less a ys) as S1.
  destruct (run_split less a ys) as [r1 rest1]. simpl fst in *. simpl snd in *.
  destruct rest1 as [|b t]; [by apply nruns_sorted|].
  pose proof (run_split_app less b t) as E2. pose proof (run_split_sorted less b t) as S2.
  destruct (run_split less b t) as [r2 rest2]. simpl fst in *. simpl snd in *.
  specialize (IH rest2). destruct (sort_pass less fuel rest2) as [l' cnt]. simpl fst in *. simpl snd in *.
  rewrite E1, E2, !length_app in Hf. simpl in Hf. rewrite length_app in Hf.
  pose proof (nruns_app less (merge less (a :: r1) (b :: r2)) l').
  pose proof (nruns_sorted less _ (merge_sorted less _ _ S1 S2)). lia.
Qed.

(** The sort on sequences: with one round of fuel per run it sorts,
    permutes, and keeps elements with the same key in order. *)
Lemma sort_seq_correct fuel l :
  (nruns less l < fuel)%nat ->
  Sorted (not_after less) (sort_seq less fuel l) /\ sort_seq less fuel l ≡ₚ l /\
  forall z, List.filter (same_key z) (sort_seq less fuel l) = List.filter (same_key z) l.
Proof.
  revert l. induction fuel as [|fuel IH]; intros l Hf; [lia|]. cbn [sort_seq].
  pose proof (sort_pass_perm less (length l) l) as P.
  pose proof (fun z => sort_pass_stable z (length l) l) as St.
  pose proof (sort_pass_count less (length l) l) as C.
  pose proof (sort_pass_runs (length l) l) as R.
  destruct (sort_pass less (length l) l) as [l' cnt]. simpl in *.
  specialize (C (le_n _)). specialize (R (le_n _)).
  destruct (Nat.ltb_spec 1 cnt).
  - destruct (IH l') as (Hs & Hp & Hst); [lia|]. split_and!; [done|by rewrite Hp|].
    intros z. by rewrite Hst.
  - split_and!; [|done|done]. apply sorted_nruns. lia.
Qed.
End SeqCorrect.

(** ** The pointer code computes the sort on sequences *)
Section Refine.
Variable less : Z -> Z -> bool.
Implicit Types h : heap.
Implicit Types L a b e : Z.
Implicit Types xs ys zs l m pre post : list Z.

Lemma is_list_assoc h L xs y ys : is_list h L (xs ++ y :: ys) <-> is_list h L ((xs ++ [y]) ++ ys).
Proof. by rewrite <- app_assoc. Qed.

Lemma first_of_ne h L xs a l ys :
  is_list h L (xs ++ a :: l ++ ys) -> (a =? first_of ys L) = false.
Proof.
  intros H. apply Z.eqb_neq. intros E. apply is_list_parts in H as [_ H]. apply H. rewrite E.
  rewrite app_assoc. apply first_of_in.
Qed.

Lemma wp_is_sorted_loop h L xs a l ys fuel :
  is_list h L (xs ++ a :: l ++ ys) -> (length l < fuel)%nat -> Sorted (not_after less) (a :: l) ->
  wp (is_sorted_loop less fuel a (first_of ys L)) h (fun r h' => h' = h /\ r = true).
Proof.
  revert xs a fuel. induction l as [|b l IH]; intros xs a [|fuel] H Hf Hs; simpl in Hf; try lia; simpl.
  - wstep. eapply wp_list_next_at; [exact H|]. simpl. rewrite Z.eqb_refl. by wstep.
  - wstep. eapply wp_list_next_at; [exact H|]. simpl. apply is_list_assoc in H.
    rewrite (first_of_ne h L (xs ++ [a]) b l ys H). wstep. simpl.
    eapply (wp_list_prev_at h L xs a ((b :: l) ++ ys)); [by rewrite is_list_assoc|].
    apply Sorted_inv in Hs as [Hs Hab]. inversion Hab as [|? ? Hab']; subst.
    unfold not_after in Hab'. rewrite Hab'. by apply (IH (xs ++ [a])); [|lia|].
Qed.

Lemma wp_is_sorted h L xs l ys :
  is_list h L (xs ++ l ++ ys) -> Sorted (not_after less) l ->
  wp (is_sorted less (first_of (l ++ ys) L) (first_of ys L)) h (fun r h' => h' = h /\ r = true).
Proof.
  intros H Hs. unfold is_sorted. wsteps. destruct l as [|a l].
  - change ([] ++ ys) with ys. by rewrite Z.eqb_refl.
  - cbn [first_of app]. rewrite (first_of_ne h L xs a l ys H). cbn [negb].
    eapply wp_is_sorted_loop; [exact H| |done].
    unfold loop_fuel. pose proof (is_list_fuel _ _ _ H) as Hf.
    rewrite length_app in Hf. simpl in Hf. rewrite length_app in Hf. lia.
Qed.

Lemma wp_find_end_of_run_loop h L xs a ys fuel :
  is_list h L (xs ++ a :: ys) -> (length ys < fuel)%nat ->
  wp (find_end_of_run_loop less fuel a (tail_of L)) h (fun r h' =>
    h' = h /\ r = first_of (run_split less a ys).2 L).
Proof.
  revert xs a fuel. induction ys as [|b ys IH]; intros xs a [|fuel] H Hf; simpl in Hf; try lia; simpl.
  - wstep. eapply wp_list_next_at; [exact H|]. simpl. rewrite Z.eqb_refl. by wstep.
  - wstep. eapply wp_list_next_at; [exact H|]. simpl. apply is_list_assoc in H.
    rewrite (is_list_not_tail _ _ _ _ _ H). wstep.
    eapply (wp_list_prev_at h L xs a (b :: ys)); [by rewrite is_list_assoc|].
    destruct (less b a); [by wstep|].
    eapply wp_mono; [apply (IH (xs ++ [a])); [done|lia]|].
    intros r h' [-> ->]. by destruct (run_split less b ys).
Qed.

Lemma wp_find_end_of_run h L xs a ys (Q : Z -> heap -> Prop) :
  is_list h L (xs ++ a :: ys) -> Q (first_of (run_split less a ys).2 L) h ->
  wp (find_end_of_run less a (tail_of L)) h Q.
Proof.
  intros H HQ. unfold find_end_of_run. wstep.
  apply wp_assert; [apply non_null_true; by eapply is_list_nonnull, is_list_elem|]. wstep.
  apply wp_assert.
  { apply non_null_true. eapply is_list_nonnull; [done|]. unfold cells. set_solver. }
  wstep. apply wp_assert; [by rewrite (is_list_not_tail _ _ _ _ _ H)|]. wsteps.
  eapply wp_mono.
  { eapply wp_find_end_of_run_loop; [exact H|]. unfold loop_fuel.
    pose proof (is_list_fuel _ _ _ H) as Hf. rewrite length_app in Hf. simpl in Hf. lia. }
  by intros r h' [-> ->].
Qed.

Lemma preserved_perm l m h h' : l ≡ₚ m -> preserved l h h' -> preserved m h h'.
Proof. intros E. apply preserved_mono. intros x. by rewrite E. Qed.

Lemma wp_inplace_merge_loop h L pre l m post fuel :
  is_list h L (pre ++ l ++ m ++ post) -> (length l + length m < fuel)%nat ->
  wp (inplace_merge_loop less fuel (first_of (l ++ m ++ post) L)
        (first_of (m ++ post) L) (first_of post L)) h (fun _ h' =>
    is_list h' L (pre ++ merge less l m ++ post) /\
    preserved (cells L (pre ++ l ++ m ++ post)) h h').
Proof.
  revert h pre l m. induction fuel as [|fuel IH]; intros h pre l m H Hf; [lia|]. simpl.
  destruct l as [|a l]; [|destruct m as [|b m]].
  - simpl. rewrite Z.eqb_refl. simpl. wstep. rewrite merge_nil_l. done.
  - simpl. rewrite Z.eqb_refl, andb_false_r. by wstep.
  - rewrite merge_cons. simpl.
    rewrite (first_of_ne h L pre a l ((b :: m) ++ post) H : (a =? b) = false).
    assert (H' : is_list h L ((pre ++ a :: l) ++ b :: m ++ post)).
    { rewrite <- app_assoc. exact H. }
    rewrite (first_of_ne _ _ _ _ _ _ H'). simpl. destruct (less b a) eqn:E; simpl.
    + wstep. eapply wp_list_next_at; [exact H'|]. wstep.
      eapply wp_list_prev_at; [exact H'|]. wstep. eapply wp_mono.
      { apply (wp_list_splice h L (pre ++ a :: l) b [] (m ++ post) L pre ((a :: l) ++ m ++ post) H').
        left. split; [done|]. by rewrite <- app_assoc. }
      intros _ h1 (H1 & _ & P1).
      assert (H1' : is_list h1 L ((pre ++ [b]) ++ (a :: l) ++ m ++ post)).
      { rewrite <- app_assoc. exact H1. }
      eapply wp_mono; [apply (IH h1 (pre ++ [b]) (a :: l) m H1'); simpl in *; lia|].
      intros _ h2 [H2 P2]. rewrite <- app_assoc in H2. split; [exact H2|].
      eapply preserved_trans.
      * eapply preserved_mono; [|exact P1]. intros x. rewrite elem_of_app. unfold cells.
        clear. set_solver.
      * eapply preserved_perm; [|exact P2]. unfold cells. solve_Permutation.
    + wstep. eapply wp_list_next_at; [exact H|].
      assert (H1 : is_list h L ((pre ++ [a]) ++ l ++ (b :: m) ++ post)) by (by apply is_list_assoc in H).
      eapply wp_mono; [apply (IH h (pre ++ [a]) l (b :: m) H1); simpl in *; lia|].
      rewrite <- !app_assoc. by intros _ h2 [H2 P2].
Qed.

Lemma wp_inplace_merge h L pre l m post :
  is_list h L (pre ++ l ++ m ++ post) ->
  Sorted (not_after less) l -> Sorted (not_after less) m ->
  wp (inplace_merge less (first_of (l ++ m ++ post) L)
        (first_of (m ++ post) L) (first_of post L)) h (fun _ h' =>
    is_list h' L (pre ++ merge less l m ++ post) /\
    preserved (cells L (pre ++ l ++ m ++ post)) h h').
Proof.
  intros H Sl Sm. unfold inplace_merge.
  assert (forall xs ys, pre ++ l ++ m ++ post = xs ++ ys -> non_null (first_of ys L) = true) as Hn.
  { intros xs ys E. apply non_null_true. eapply is_list_nonnull; [exact H|].
    rewrite E. apply first_of_in. }
  wstep. apply wp_assert; [by apply (Hn pre)|].
  wstep. apply wp_assert; [apply (Hn (pre ++ l)); by rewrite <- app_assoc|].
  wstep. apply wp_assert; [apply (Hn (pre ++ l ++ m)); by rewrite <- !app_assoc|].
  wstep. eapply wp_mono; [by apply (wp_is_sorted h L pre l (m ++ post))|]. intros ? ? [-> ->]. wsteps.
  eapply wp_mono.
  { apply (wp_is_sorted h L (pre ++ l) m post); [by rewrite <- app_assoc|done]. }
  intros ? ? [-> ->]. wsteps. apply wp_inplace_merge_loop; [done|].
  unfold loop_fuel. pose proof (is_list_fuel _ _ _ H) as Hf. rewrite !length_app in Hf. lia.
Qed.

Lemma wp_list_sort_pass h L pre l fuel n cnt :
  is_list h L (pre ++ l) -> (length l < fuel)%nat -> (length l <= n)%nat ->
  is_u32 (cnt + length l) -> 0 <= cnt ->
  wp (list_sort_pass less fuel L (first_of l L) cnt) h (fun r h' =>
    r = cnt + (sort_pass less n l).2 /\ is_list h' L (pre ++ (sort_pass less n l).1) /\
    preserved (cells L (pre ++ l)) h h').
Proof.
  revert h pre l n cnt. induction fuel as [|fuel IH]; intros h pre l n cnt H Hf Hn Hc Hc0; [lia|].
  simpl. wstep. eapply wp_list_end; [done|]. destruct l as [|a ys].
  { simpl. rewrite Z.eqb_refl. wstep. destruct n; simpl; (split; [lia|done]). }
  destruct n as [|n]; [simpl in Hn; lia|]. simpl first_of. cbn [sort_pass].
  rewrite (is_list_not_tail _ _ _ _ _ H). wstep. eapply wp_list_end; [done|].
  wstep. eapply wp_find_end_of_run; [exact H|]. wstep. eapply wp_list_end; [done|].
  pose proof (run_split_app less a ys) as E1. pose proof (run_split_sorted less a ys) as S1.
  destruct (run_split less a ys) as [r1 rest1]. simpl fst in *. simpl snd in *.
  assert (cnt +u 1 = cnt + 1) as Ecnt by (apply u32_small; simpl in Hc; urange; lia).
  destruct rest1 as [|b t].
  { simpl. rewrite Z.eqb_refl. wstep. rewrite E1, app_nil_r in H |- *. simpl. split; [lia|done]. }
  assert (H' : is_list h L ((pre ++ a :: r1) ++ b :: t)) by (rewrite <- app_assoc; subst ys; exact H).
  simpl first_of. rewrite (is_list_not_tail _ _ _ _ _ H'). wstep. eapply wp_list_end; [done|].
  wstep. eapply wp_find_end_of_run; [exact H'|].
  pose proof (run_split_app less b t) as E2. pose proof (run_split_sorted less b t) as S2.
  destruct (run_split less b t) as [r2 rest2]. simpl fst in *. simpl snd in *. subst t ys.
  wstep. eapply wp_mono; [apply (wp_inplace_merge h L pre (a :: r1) (b :: r2) rest2 H S1 S2)|].
  intros _ h1 [H1 P1]. rewrite app_assoc in H1.
  eapply wp_mono.
  { apply (IH h1 (pre ++ merge less (a :: r1) (b :: r2)) rest2 n (cnt +u 1) H1);
      rewrite ?Ecnt; simpl in *; rewrite !length_app in *; simpl in *; rewrite ?length_app in *;
      urange; lia. }
  intros r h2 (-> & H2 & P2). destruct (sort_pass less n rest2) as [l' c]. simpl fst in *. simpl snd in *.
  rewrite <- app_assoc in H2. split_and!; [lia|done|].
  eapply preserved_trans; [exact P1|]. eapply preserved_perm; [|exact P2].
  unfold cells. rewrite merge_perm. solve_Permutation.
Qed.

Lemma list_sort_pass_length n l : length (sort_pass less n l).1 = length l.
Proof. apply Permutation_length, sort_pass_perm. Qed.

Lemma wp_list_sort_loop `{!StrictWeak less} h L l fuel :
  is_list h L l -> is_u32 (length l) -> (nruns less l < fuel)%nat ->
  wp (list_sort_loop less fuel L) h (fun _ h' =>
    is_list h' L (sort_seq less fuel l) /\ preserved (cells L l) h h').
Proof.
  revert h l. induction fuel as [|fuel IH]; intros h l H Hu Hf; [lia|]. cbn [list_sort_loop sort_seq].
  wsteps. eapply wp_list_begin; [done|]. wstep. eapply wp_mono.
  { apply (wp_list_sort_pass h L [] l (loop_fuel h) (length l) 0 H);
      [unfold loop_fuel; pose proof (is_list_fuel _ _ _ H); lia|lia|by rewrite Z.add_0_l|lia]. }
  intros r h1 (-> & H1 & P1). simpl app in *.
  pose proof (sort_pass_perm less (length l) l) as Pm.
  pose proof (sort_pass_count less (length l) l (le_n _)) as C.
  pose proof (sort_pass_runs less (length l) l (le_n _)) as R.
  destruct (sort_pass less (length l) l) as [l' cnt]. simpl fst in *. simpl snd in *.
  destruct (Nat.ltb_spec 1 cnt) as [Hc|Hc].
  - rewrite (proj2 (Z.ltb_lt 1 (0 + cnt))) by lia.
    eapply wp_mono; [apply (IH h1 l' H1); [by rewrite Pm|lia]|].
    intros _ h2 [H2 P2]. split; [done|]. eapply preserved_trans; [exact P1|].
    eapply preserved_perm; [|exact P2]. unfold cells. by rewrite Pm.
  - rewrite (proj2 (Z.ltb_ge 1 (0 + cnt))) by lia. by wstep.
Qed.

Lemma wp_list_sort `{!StrictWeak less} h L xs :
  is_list h L xs -> is_u32 (length xs) ->
  wp (list_sort less L) h (fun _ h' => exists ys,
    is_list h' L ys /\ ys ≡ₚ xs /\ Sorted (not_after less) ys /\
    (forall z, List.filter (same_key less z) ys = List.filter (same_key less z) xs) /\
    preserved (cells L xs) h h').
Proof.
  intros H Hu. unfold list_sort. wstep. apply wp_assert; [by eapply is_list_L_nonnull|]. wsteps.
  assert (nruns less xs < loop_fuel h)%nat as Hf.
  { unfold loop_fuel. pose proof (is_list_fuel _ _ _ H). pose proof (nruns_length less xs). lia. }
  eapply wp_mono; [by apply wp_list_sort_loop|]. intros _ h1 [H1 P1].
  destruct (sort_seq_correct less (loop_fuel h) xs Hf) as (Hs & Hp & Hst).
  wstep. eapply wp_list_begin; [done|]. wstep. eapply wp_list_end; [done|]. wstep.
  pose proof (wp_is_sorted h1 L [] (sort_seq less (loop_fuel h) xs) []) as W.
  rewrite app_nil_r in W. eapply wp_mono; [by apply W|]. intros ? ? [-> ->].
  apply wp_assert; [done|]. by exists (sort_seq less (loop_fuel h) xs).
Qed.
End Refine.
