(* ===== verification/DlistProps.v ===== *)
(** * The theorems about list.c *)

From S2P Require Import Prelude Dlist DlistOps DlistSort.

(** ** Deciding that memory holds a list, for concrete memories *)

#[export] Instance linked_dec h a b : Decision (linked h a b).
Proof. unfold linked. apply _. Defined.
#[export] Instance chain_dec h l : Decision (chain h l).
Proof.
  induction l as [|a [|b l] IH]; simpl; [left; done..|]. apply and_dec; [apply _|exact IH].
Defined.
Definition is_list_b (h : heap) (L : Z) (xs : list Z) : bool :=
  bool_decide (NoDup (cells L xs)) && bool_decide (0 ∉ cells L xs) &&
  bool_decide (chain h (cells L xs)) && bool_decide (prv h (head_of L) = Some 0) &&
  bool_decide (nxt h (tail_of L) = Some 0).

Lemma is_list_b_spec h L xs : is_list_b h L xs = true -> is_list h L xs.
Proof.
  unfold is_list_b. rewrite !andb_true_iff, !bool_decide_eq_true. intros ((((? & ?) & ?) & ?) & ?).
  by split.
Qed.

(** Memory with uninitialised cells at the given addresses. *)
Definition cells_at (l : list Z) : heap := list_to_map ((fun a => (a, mk_elem 0 0)) <$> l).

(** A concrete memory: lists at 16 (elements 100, 108, 116, 124) and 32
    (element 200), and a free cell at 300. *)
Definition demo_heap : heap :=
  match (list_init 16;; list_push_back 16 100;; list_push_back 16 108;;
         list_push_back 16 116;; list_push_back 16 124;;
         list_init 32;; list_push_back 32 200)
        (cells_at [16; 24; 32; 40; 100; 108; 116; 124; 200; 300]) with
  | Ret (_, h) => h
  | _ => ∅
  end.

(** Keys of the elements of [demo_heap]: 100 and 116 tie. *)
Definition demo_key (a : Z) : Z :=
  if a =? 100 then 5 else if a =? 108 then 3 else if a =? 116 then 5 else if a =? 124 then 1 else 4.
Definition demo_less (a b : Z) : bool := demo_key a <? demo_key b.

Lemma demo_list : is_list demo_heap 16 [100; 108; 116; 124].
Proof. apply is_list_b_spec. vm_compute. reflexivity. Defined.
Lemma demo_list' : is_list demo_heap 32 [200].
Proof. apply is_list_b_spec. vm_compute. reflexivity. Defined.

(** C1: [list_sort] on any list terminates without failing one of its
    assertions and leaves a list with the same elements (a permutation) in
    nondecreasing order, elements with the same key in their original order
    (stability), and touches no memory outside the list. *)
Theorem list_sort_correct (less : Z -> Z -> bool) (h : heap) (L : Z) (xs : list Z) :
  StrictWeak less -> is_list h L xs -> is_u32 (length xs) ->
  exists h' ys, list_sort less L h = Ret (tt, h') /\ is_list h' L ys /\ ys ≡ₚ xs /\
    Sorted (fun a b => less b a = false) ys /\
    (forall z, List.filter (same_key less z) ys = List.filter (same_key less z) xs) /\
    preserved (cells L xs) h h'.
Proof.
  intros Hw H Hu. destruct (wp_run _ _ _ (wp_list_sort less h L xs H Hu)) as ([] & h' & E & ys & R).
  by exists h', ys.
Qed.

Lemma list_sort_correct_witness :
  exists h' ys, list_sort demo_less 16 demo_heap = Ret (tt, h') /\ is_list h' 16 ys /\
    ys ≡ₚ [100; 108; 116; 124] /\ Sorted (fun a b => demo_less b a = false) ys.
Proof.
  destruct (list_sort_correct demo_less demo_heap 16 [100; 108; 116; 124])
    as (h' & ys & ? & ? & ? & ? & _).
  - apply (key_order demo_key).
  - apply demo_list.
  - split; vm_compute; [discriminate|reflexivity].
  - exists h', ys. auto.
Defined.

(** The concrete run: 124 (1), 108 (3), then 100 and 116 (5) in that order. *)
Example list_sort_demo :
  is_list_b (match list_sort demo_less 16 demo_heap with Ret (_, h) => h | _ => ∅ end)
    16 [124; 108; 100; 116] = true.
Proof. vm_compute. reflexivity. Qed.

(** [list_splice] moves the run [f :: s] out of its list and in front of
    any position of the rest of that list or of another list; both ends are
    proper lists with exactly those elements, whatever the two positions
    (adjacent, equal or far apart), and nothing else changes. *)
Theorem list_splice_correct (h : heap) (L : Z) (xs : list Z) (f : Z) (s ys : list Z)
    (L' : Z) (us vs : list Z) :
  is_list h L (xs ++ (f :: s) ++ ys) ->
  (L' = L /\ us ++ vs = xs ++ ys) \/
  (is_list h L' (us ++ vs) /\
   forall x, x ∈ cells L' (us ++ vs) -> x ∉ cells L (xs ++ (f :: s) ++ ys)) ->
  exists h', list_splice (first_of vs L') f (first_of ys L) h = Ret (tt, h') /\
    is_list h' L' (us ++ (f :: s) ++ vs) /\ (L' ≠ L -> is_list h' L (xs ++ ys)) /\
    preserved (cells L (xs ++ (f :: s) ++ ys) ++ cells L' (us ++ vs)) h h'.
Proof.
  intros H Hc. destruct (wp_run _ _ _ (wp_list_splice h L xs f s ys L' us vs H Hc)) as ([] & h' & ? & ?).
  by exists h'.
Qed.

Lemma list_splice_correct_witness :
  exists h', list_splice 200 108 124 demo_heap = Ret (tt, h') /\
    is_list h' 32 [108; 116; 200] /\ is_list h' 16 [100; 124].
Proof.
  destruct (list_splice_correct demo_heap 16 [100] 108 [116] [124] 32 [] [200])
    as (h' & E & H1 & H2 & _).
  - apply demo_list.
  - right. split; [apply demo_list'|]. intros x Hx. apply (bool_decide_unpack _).
    apply list_elem_of_In in Hx. simpl in Hx.
    destruct Hx as [<-|[<-|[<-|[]]]]; vm_compute; exact I.
  - exists h'. split; [exact E|]. split; [exact H1|]. apply H2. discriminate.
Defined.

(** [list_remove] unlinks an element and returns the one after it; the
    removed cell itself is not written, so that [list_next] of the removed
    element still yields its old successor: the loops of [thread_exit] and
    [ft_destroy], which read [list_next (elem)] after [list_remove (elem)],
    go on where they should. *)
Theorem list_remove_correct (h : heap) (L : Z) (xs : list Z) (e : Z) (ys : list Z) :
  is_list h L (xs ++ e :: ys) ->
  exists h', list_remove e h = Ret (first_of ys L, h') /\ is_list h' L (xs ++ ys) /\
    preserved (cells L (xs ++ ys)) h h' /\ h' !! e = h !! e /\
    list_next e h' = Ret (first_of ys L, h').
Proof.
  intros H. destruct (wp_run _ _ _ (wp_list_remove h L xs e ys H)) as (r & h' & E & -> & H' & P).
  exists h'. split_and!; [done..| |].
  - apply P. by apply is_list_parts in H as [_ ?].
  - pose proof (is_list_parts _ _ _ _ _ H) as [_ He].
    assert (wp (list_next e) h' (fun r h2 => r = first_of ys L /\ h2 = h')) as W.
    { apply (wp_list_next _ _ (first_of ys L)); [| | |done].
      - by eapply is_list_nonnull, is_list_elem.
      - eapply is_list_nonnull; [exact H'|]. apply first_of_in.
      - rewrite (preserved_nxt _ _ _ _ P He). by eapply list_link. }
    by destruct (wp_run _ _ _ W) as (? & ? & -> & -> & ->).
Qed.

Lemma list_remove_correct_witness :
  exists h', list_remove 108 demo_heap = Ret (116, h') /\ is_list h' 16 [100; 116; 124] /\
    list_next 108 h' = Ret (116, h').
Proof.
  destruct (list_remove_correct demo_heap 16 [100] 108 [116; 124] demo_list)
    as (h' & E & H1 & _ & _ & H2).
  exists h'. auto.
Defined.

(** [list_reverse] reverses the list in place. *)
Theorem list_reverse_correct (h : heap) (L : Z) (xs : list Z) :
  is_list h L xs ->
  exists h', list_reverse L h = Ret (tt, h') /\ is_list h' L (reverse xs) /\
    preserved (cells L xs) h h'.
Proof.
  intros H. destruct (wp_run _ _ _ (wp_list_reverse h L xs H)) as ([] & h' & ? & ?). by exists h'.
Qed.

Lemma list_reverse_correct_witness :
  exists h', list_reverse 16 demo_heap = Ret (tt, h') /\ is_list h' 16 (reverse [100; 108; 116; 124]).
Proof.
  destruct (list_reverse_correct demo_heap 16 _ demo_list) as (h' & E & H & _). exists h'. auto.
Defined.

Section OrderedSeq.
Variable less : Z -> Z -> bool.
Context `{!StrictWeak less}.

Lemma insert_ordered_perm e xs : insert_ordered_seq less e xs ≡ₚ e :: xs.
Proof.
  induction xs as [|y ys IH]; simpl; [done|]. destruct (less e y); [done|].
  rewrite IH. solve_Permutation.
Qed.

Lemma insert_ordered_sorted e xs :
  Sorted (not_after less) xs -> Sorted (not_after less) (insert_ordered_seq less e xs).
Proof.
  induction 1 as [|y ys HS IH Hd]; simpl; [by repeat constructor|].
  destruct (less e y) eqn:E.
  - constructor; [by constructor|]. constructor. by apply less_asym.
  - constructor; [done|]. destruct ys as [|z ys]; simpl; [by constructor|].
    destruct (less e z); constructor; [done|by inversion Hd].
Qed.

Lemma insert_ordered_stable z e xs : Sorted (not_after less) xs ->
  List.filter (same_key less z) (insert_ordered_seq less e xs) =
  List.filter (same_key less z) xs ++ List.filter (same_key less z) [e].
Proof.
  induction 1 as [|y ys HS IH Hd]; cbn [insert_ordered_seq]; [done|].
  destruct (less e y) eqn:E.
  - change (e :: y :: ys) with ([e] ++ (y :: ys)). rewrite List.filter_app.
    cbn [List.filter]. destruct (same_key less z e) eqn:Ez; [|by rewrite app_nil_r].
    pose proof (sorted_above_none less z y ys) as Hn. cbn [List.filter] in Hn.
    rewrite Hn; [done| |by constructor].
    apply same_key_spec in Ez as [_ Ez]. destruct (less z y) eqn:Ey; [done|].
    by rewrite (less_negtrans _ _ _ Ez Ey) in E.
  - cbn [List.filter]. rewrite IH. cbn [List.filter]. by destruct (same_key less z y).
Qed.

(** No element kept by [list_unique] has the same key as the one before. *)
Lemma unique_seq_adjacent a ys :
  Sorted (fun x y => same_key less x y = false) (a :: (unique_seq less a ys).1).
Proof.
  revert a. induction ys as [|b ys IH]; intros a; cbn [unique_seq]; [by repeat constructor|].
  destruct (negb (less a b) && negb (less b a)) eqn:E.
  - specialize (IH a). by destruct (unique_seq less a ys).
  - specialize (IH b). destruct (unique_seq less b ys). constructor; [done|]. by constructor.
Qed.

Lemma unique_seq_perm a ys : (unique_seq less a ys).1 ++ (unique_seq less a ys).2 ≡ₚ ys.
Proof.
  revert a. induction ys as [|b ys IH]; intros a; cbn [unique_seq]; [done|].
  destruct (negb (less a b) && negb (less b a)).
  - specialize (IH a). destruct (unique_seq less a ys) as [k d]. simpl in *.
    rewrite <- IH. solve_Permutation.
  - specialize (IH b). destruct (unique_seq less b ys) as [k d]. simpl in *. by rewrite IH.
Qed.

Lemma max_seq_correct a ys :
  max_seq less a ys ∈ a :: ys /\ forall x, x ∈ a :: ys -> less (max_seq less a ys) x = false.
Proof.
  unfold max_seq. revert a. induction ys as [|b ys IH]; intros a; simpl.
  - split; [set_solver|]. intros x ->%list_elem_of_singleton. by apply less_irrefl.
  - set (m := if less a b then b else a). destruct (IH m) as [Hin Hmax]. split.
    + unfold m in *. destruct (less a b); set_solver.
    + intros x Hx. assert (less m x = false \/ x ∈ ys) as [Hm|Hys].
      { unfold m. destruct (less a b) eqn:E.
        - apply elem_of_cons in Hx as [->|[->|?]%elem_of_cons]; [left; by apply less_asym| |by right].
          left. by apply less_irrefl.
        - apply elem_of_cons in Hx as [->|[->|?]%elem_of_cons]; [|by left|by right].
          left. by apply less_irrefl. }
      * eapply less_negtrans; [apply (Hmax m); set_solver|done].
      * apply Hmax. set_solver.
Qed.
End OrderedSeq.

(** [list_insert_ordered] puts the element at its place: a sorted list
    stays sorted, gains exactly that element, and elements with its key stay
    in front of it. *)
Theorem list_insert_ordered_correct (less : Z -> Z -> bool) (h : heap) (L : Z) (xs : list Z) (e : Z) :
  StrictWeak less -> is_list h L xs -> Sorted (fun a b => less b a = false) xs ->
  e ∉ cells L xs -> e ∈ dom h -> e ≠ 0 ->
  exists h' ys, list_insert_ordered less L e h = Ret (tt, h') /\ is_list h' L ys /\
    ys ≡ₚ e :: xs /\ Sorted (fun a b => less b a = false) ys /\
    (forall z, List.filter (same_key less z) ys =
               List.filter (same_key less z) xs ++ List.filter (same_key less z) [e]) /\
    preserved (e :: cells L xs) h h'.
Proof.
  intros Hw H Hs He Hm He0.
  destruct (wp_run _ _ _ (wp_list_insert_ordered less h L xs e H He Hm He0)) as ([] & h' & E & H' & P).
  exists h', (insert_ordered_seq less e xs). split_and!; [done|done|apply insert_ordered_perm| | |done].
  - by apply (insert_ordered_sorted less).
  - intros z. by apply insert_ordered_stable.
Qed.

Lemma list_insert_ordered_correct_witness :
  exists h' ys, list_insert_ordered demo_less 32 300 demo_heap = Ret (tt, h') /\ is_list h' 32 ys /\
    ys ≡ₚ [300; 200].
Proof.
  destruct (list_insert_ordered_correct demo_less demo_heap 32 [200] 300)
    as (h' & ys & E & H & Hp & _).
  - apply (key_order demo_key).
  - apply demo_list'.
  - repeat constructor.
  - apply (bool_decide_unpack _). vm_compute. exact I.
  - apply (bool_decide_unpack _). vm_compute. exact I.
  - discriminate.
  - exists h', ys. auto.
Defined.

(** [list_unique] removes all but the first of each group of adjacent
    elements with the same key, and appends the removed ones, in order, to
    [duplicates] when it is given. *)
Theorem list_unique_correct (less : Z -> Z -> bool) (h : heap) (L D x : Z) (xs ds : list Z) :
  is_list h L (x :: xs) -> dup_list h L (x :: xs) D ds ->
  exists h' keep dup, list_unique less L D h = Ret (tt, h') /\
    is_list h' L (x :: keep) /\ dup_list h' L (x :: keep) D (ds ++ dup) /\
    keep ++ dup ≡ₚ xs /\ Sorted (fun a b => same_key less a b = false) (x :: keep).
Proof.
  intros H HD. destruct (wp_run _ _ _ (wp_list_unique less h L D x xs ds H HD)) as ([] & h' & E & H1 & H2).
  exists h', (unique_seq less x xs).1, (unique_seq less x xs).2.
  split_and!; [done..|apply unique_seq_perm|apply unique_seq_adjacent].
Qed.

Lemma list_unique_correct_witness :
  exists h' keep dup, list_unique demo_less 16 32 demo_heap = Ret (tt, h') /\
    is_list h' 16 (100 :: keep) /\ keep ++ dup ≡ₚ [108; 116; 124].
Proof.
  destruct (list_unique_correct demo_less demo_heap 16 32 100 [108; 116; 124] [200])
    as (h' & keep & dup & E & H & _ & Hp & _).
  - apply demo_list.
  - right. split; [apply demo_list'|]. intros x Hx. apply (bool_decide_unpack _).
    apply list_elem_of_In in Hx. simpl in Hx.
    destruct Hx as [<-|[<-|[<-|[]]]]; vm_compute; exact I.
  - exists h', keep, dup. auto.
Defined.

(** C25: [list_max] returns an element of the list that no element exceeds,
    the tail when the list is empty, and does not write memory. *)
Theorem list_max_correct (less : Z -> Z -> bool) (h : heap) (L : Z) (xs : list Z) :
  StrictWeak less -> is_list h L xs ->
  exists m, list_max less L h = Ret (m, h) /\
    ((xs = [] /\ m = tail_of L) \/
     (m ∈ xs /\ forall x, x ∈ xs -> less m x = false)).
Proof.
  intros Hw H. destruct (wp_run _ _ _ (wp_list_max less h L xs H)) as (m & h' & E & -> & ->).
  exists (extremum_seq (max_seq less) xs L). split; [done|].
  destruct xs as [|a ys]; [by left|right]. apply (max_seq_correct less a ys).
Qed.

Lemma list_max_correct_witness :
  exists m, list_max demo_less 16 demo_heap = Ret (m, demo_heap) /\
    (([100; 108; 116; 124] = [] /\ m = tail_of 16) \/
     (m ∈ [100; 108; 116; 124] /\ forall x, x ∈ [100; 108; 116; 124] -> demo_less m x = false)).
Proof. apply (list_max_correct demo_less demo_heap 16); [apply (key_order demo_key)|apply demo_list]. Defined.
