(* ===== verification/Vaddr.v ===== *)
(** * Virtual addresses and page-table entries: threads/vaddr.h, threads/pte.h
    and the rounding macros of lib/round.h

    An address is an unsigned 32-bit number.  The macros and inline functions
    are translated with the masks and shifts of the source; the lemmas give
    their arithmetic reading, which the other components use. *)

From S2P Require Import Prelude.

(** ** lib/round.h, at [size_t] operands *)

Definition ROUND_UP (X STEP : Z) : Z := ((X +u STEP) -u 1) / STEP *u STEP.
Definition DIV_ROUND_UP (X STEP : Z) : Z := ((X +u STEP) -u 1) / STEP.
Definition ROUND_DOWN (X STEP : Z) : Z := X / STEP *u STEP.

(** ** threads/vaddr.h *)

Definition BITMASK (SHIFT CNT : Z) : Z := u32 (Z.shiftl (Z.shiftl 1 CNT - 1) SHIFT).

Definition PGSHIFT : Z := 0.
Definition PGBITS : Z := 12.
Definition PGSIZE : Z := Z.shiftl 1 PGBITS.
Definition PGMASK : Z := BITMASK PGSHIFT PGBITS.

(** [~x] of an unsigned 32-bit operand. *)
Definition unot (x : Z) : Z := u32 (Z.lnot x).

Definition pg_ofs (va : Z) : Z := Z.land va PGMASK.
Definition pg_no (va : Z) : Z := Z.shiftr va PGBITS.
Definition pg_round_up (va : Z) : Z := Z.land ((va +u PGSIZE) -u 1) (unot PGMASK).
Definition pg_round_down (va : Z) : Z := Z.land va (unot PGMASK).

Definition PHYS_BASE : Z := 0xc0000000.

Definition is_user_vaddr (vaddr : Z) : bool := vaddr <? PHYS_BASE.
Definition is_kernel_vaddr (vaddr : Z) : bool := PHYS_BASE <=? vaddr.

Definition ptov (paddr : Z) : outcome Z :=
  check (paddr <? PHYS_BASE);; Ret (paddr +u PHYS_BASE).
Definition vtop (vaddr : Z) : outcome Z :=
  check (is_kernel_vaddr vaddr);; Ret (vaddr -u PHYS_BASE).

(** ** threads/pte.h *)

Definition PTSHIFT : Z := PGBITS.
Definition PTBITS : Z := 10.
Definition PTSPAN : Z := Z.shiftl (Z.shiftl 1 PTBITS) PGBITS.
Definition PTMASK : Z := BITMASK PTSHIFT PTBITS.
Definition PDSHIFT : Z := PTSHIFT + PTBITS.
Definition PDBITS : Z := 10.
Definition PDMASK : Z := BITMASK PDSHIFT PDBITS.

Definition pt_no (va : Z) : Z := Z.shiftr (Z.land va PTMASK) PTSHIFT.
Definition pd_no (va : Z) : Z := Z.shiftr va PDSHIFT.

Definition PTE_FLAGS : Z := 0x00000fff.
Definition PTE_ADDR : Z := 0xfffff000.
Definition PTE_AVL : Z := 0x00000e00.
Definition PTE_P : Z := 0x1.
Definition PTE_W : Z := 0x2.
Definition PTE_U : Z := 0x4.
Definition PTE_A : Z := 0x20.
Definition PTE_D : Z := 0x40.

Definition pde_create (pt : Z) : outcome Z :=
  check (pg_ofs pt =? 0);;
  p ← vtop pt;
  Ret (Z.lor (Z.lor (Z.lor p PTE_U) PTE_P) PTE_W).

Definition pde_get_pt (pde : Z) : outcome Z :=
  check (negb (Z.land pde PTE_P =? 0));;
  ptov (Z.land pde PTE_ADDR).

Definition pte_create_kernel (page : Z) (writable : bool) : outcome Z :=
  check (pg_ofs page =? 0);;
  p ← vtop page;
  Ret (Z.lor (Z.lor p PTE_P) (if writable then PTE_W else 0)).

Definition pte_create_user (page : Z) (writable : bool) : outcome Z :=
  p ← pte_create_kernel page writable;
  Ret (Z.lor p PTE_U).

Definition pte_get_page (pte : Z) : outcome Z := ptov (Z.land pte PTE_ADDR).

(** ** Arithmetic reading *)

Lemma PGSIZE_eq : PGSIZE = 4096.
Proof. done. Qed.

Lemma pg_ofs_mod va : pg_ofs va = va mod PGSIZE.
Proof. apply (land_ones_low va 12). lia. Qed.

Lemma pg_no_div va : pg_no va = va / PGSIZE.
Proof. apply (Z.shiftr_div_pow2 va 12). lia. Qed.

Lemma land_high va k : is_u32 va -> 0 <= k <= 32 ->
  Z.land va (u32 (Z.lnot (2 ^ k - 1))) = va - va mod 2 ^ k.
Proof.
  intros Hv Hk. unfold u32. rewrite <- (land_ones_low _ 32) by lia.
  rewrite (Z.land_comm (Z.lnot _)), Z.land_assoc, land_ones_low, (Z.mod_small va) by (done || lia).
  rewrite <- Z.ldiff_land, Z.sub_1_r, <- Z.ones_equiv, Z.ldiff_ones_r by lia.
  rewrite Z.shiftl_mul_pow2, Z.shiftr_div_pow2 by lia.
  pose proof (Z.div_mod va (2 ^ k)). lia.
Qed.

(** Flags below an aligned address: [|] is addition. *)
Lemma lor_aligned a f k : 0 <= k -> a mod 2 ^ k = 0 -> 0 <= f < 2 ^ k -> Z.lor a f = a + f.
Proof.
  intros Hk Ha Hf. rewrite Z.add_nocarry_lor; [done|]. apply Z.bits_inj'. intros i Hi.
  rewrite Z.land_spec, Z.bits_0. destruct (decide (i < k)).
  - rewrite <- (Z.mod_pow2_bits_low a k i) by lia. by rewrite Ha, Z.bits_0.
  - rewrite (testbit_above f k) by lia. by rewrite andb_false_r.
Qed.

Lemma pg_round_down_eq va : is_u32 va -> pg_round_down va = va - va mod PGSIZE.
Proof. intros Hv. apply (land_high va 12); [done|lia]. Qed.

Lemma pg_round_up_eq va : is_u32 va -> va <= 0xfffff000 ->
  pg_round_up va = (va + 4095) / PGSIZE * PGSIZE.
Proof.
  intros Hv Hle. unfold pg_round_up. change (unot PGMASK) with (u32 (Z.lnot (2 ^ 12 - 1))).
  rewrite PGSIZE_eq. assert (E : (va +u 4096) -u 1 = va + 4095).
  { urange. destruct (decide (va = 0xfffff000)) as [->|]; [done|].
    rewrite (Z.mod_small (va + 4096)), Z.mod_small by lia. lia. }
  rewrite E, land_high by (urange; lia). change (2 ^ 12) with 4096.
  pose proof (Z.div_mod (va + 4095) 4096). lia.
Qed.

Lemma pt_no_eq va : is_u32 va -> pt_no va = va / PGSIZE mod 1024.
Proof.
  intros Hv. unfold pt_no. change PTMASK with (Z.shiftl (2 ^ 10 - 1) 12).
  change PTSHIFT with 12. rewrite Z.shiftr_land, (Z.shiftr_shiftl_l _ 12 12) by lia.
  rewrite Z.sub_diag, Z.shiftl_0_r, land_ones_low, Z.shiftr_div_pow2 by lia. done.
Qed.

Lemma pd_no_eq va : pd_no va = va / PGSIZE / 1024.
Proof. unfold pd_no. rewrite Z.shiftr_div_pow2 by done. by rewrite Z.div_div. Qed.

Lemma vtop_kernel va : PHYS_BASE <= va -> is_u32 va -> vtop va = Ret (va - PHYS_BASE).
Proof.
  intros H1 H2. unfold vtop, is_kernel_vaddr. unfold PHYS_BASE in *. zcases; [|lia]. simpl. by nowrap.
Qed.

Lemma ptov_phys pa : 0 <= pa < 2 ^ 30 -> ptov pa = Ret (pa + PHYS_BASE).
Proof.
  intros H. unfold ptov. unfold PHYS_BASE in *. zcases; [|lia]. simpl. nowrap. done.
Qed.

Lemma pte_addr_flags a f : is_u32 a -> a mod PGSIZE = 0 -> 0 <= f < PGSIZE ->
  Z.land (a + f) PTE_ADDR = a /\ Z.land (a + f) PTE_FLAGS = f.
Proof.
  rewrite PGSIZE_eq. intros Ha Hm Hf.
  assert (Hmod : (a + f) mod 4096 = f).
  { rewrite Z.add_mod, Hm, (Z.mod_small f), Z.mod_small by lia. done. }
  split.
  - change PTE_ADDR with (u32 (Z.lnot (2 ^ 12 - 1))). rewrite land_high; [|urange; pose proof (Z.div_mod a 4096); lia|lia].
    change (2 ^ 12) with 4096. lia.
  - change PTE_FLAGS with (2 ^ 12 - 1). by rewrite land_ones_low.
Qed.

(** The value of a user PTE: the physical address with the flag bits added. *)
Lemma pte_create_kernel_eq page w : is_u32 page -> PHYS_BASE <= page -> page mod PGSIZE = 0 ->
  pte_create_kernel page w = Ret (page - PHYS_BASE + (if w then 3 else 1)).
Proof.
  intros Hp Hk Ha. unfold pte_create_kernel. rewrite pg_ofs_mod, Ha. simpl.
  rewrite vtop_kernel by done. simpl. f_equal. rewrite <- Z.lor_assoc.
  replace (Z.lor PTE_P _) with (if w then 3 else 1) by by destruct w.
  apply (lor_aligned _ _ 12); [lia| |destruct w; done].
  rewrite Zminus_mod. change (2 ^ 12) with PGSIZE. by rewrite Ha.
Qed.

(** ** Properties *)

(** A virtual address is the concatenation of its page directory index,
    page table index and page offset, each within its field; rounding down
    clears the offset, rounding up gives the first page boundary at or after
    the address (for addresses up to the last page boundary; above it the
    sum wraps to page 0). *)
Theorem vaddr_fields (va : Z) : is_u32 va ->
  va = pd_no va * PTSPAN + pt_no va * PGSIZE + pg_ofs va /\
  (0 <= pd_no va < 1024 /\ 0 <= pt_no va < 1024 /\ 0 <= pg_ofs va < PGSIZE) /\
  pg_round_down va = pg_no va * PGSIZE /\
  (va <= 0xfffff000 -> va <= pg_round_up va < va + PGSIZE /\ pg_ofs (pg_round_up va) = 0) /\
  (0xfffff000 < va -> pg_round_up va = 0).
Proof.
  intros Hv. rewrite pg_round_down_eq, pd_no_eq, pt_no_eq, pg_ofs_mod, pg_no_div by done.
  change PTSPAN with (1024 * 4096). rewrite !PGSIZE_eq.
  pose proof (Z.div_mod va 4096). pose proof (Z.div_mod (va / 4096) 1024).
  pose proof (Z.mod_pos_bound va 4096). pose proof (Z.mod_pos_bound (va / 4096) 1024).
  split_and!; try (urange; lia).
  - intros Hle. rewrite pg_ofs_mod, pg_round_up_eq by done. rewrite !PGSIZE_eq, Z.mod_mul by lia.
    pose proof (Z.div_mod (va + 4095) 4096). pose proof (Z.mod_pos_bound (va + 4095) 4096). lia.
  - intros Hgt. unfold pg_round_up. change (unot PGMASK) with (u32 (Z.lnot (2 ^ 12 - 1))).
    assert (E : (va +u PGSIZE) -u 1 = va - 0xfffff001).
    { rewrite PGSIZE_eq. urange. replace (va + 4096) with (va - 0xfffff000 + 1 * 4294967296) by lia.
      rewrite Z.mod_add, (Z.mod_small (va - _)), Z.mod_small by lia. lia. }
    rewrite E, land_high by (urange; lia). change (2 ^ 12) with 4096.
    rewrite Z.mod_small by (urange; lia). lia.
Qed.

Lemma vaddr_fields_witness :
  0x08048123 = pd_no 0x08048123 * PTSPAN + pt_no 0x08048123 * PGSIZE + pg_ofs 0x08048123.
Proof. apply (vaddr_fields 0x08048123). split; [discriminate|reflexivity]. Defined.

(** The page-table entry made for a kernel page gives the page back,
    is present, carries exactly the requested permissions, and a page
    directory entry gives back its page table. *)
Theorem pte_roundtrip (page : Z) (w : bool) :
  is_u32 page -> PHYS_BASE <= page -> pg_ofs page = 0 ->
  exists pte, pte_create_user page w = Ret pte /\ is_u32 pte /\
    pte_get_page pte = Ret page /\
    Z.land pte PTE_FLAGS = Z.lor (Z.lor PTE_P (if w then PTE_W else 0)) PTE_U /\
    exists pde, pde_create page = Ret pde /\ pde_get_pt pde = Ret page.
Proof.
  rewrite pg_ofs_mod. intros Hp Hk Ha.
  assert (Hpa : (page - PHYS_BASE) mod PGSIZE = 0) by (rewrite Zminus_mod, Ha; done).
  assert (Hr : 0 <= page - PHYS_BASE < 2 ^ 30) by (unfold PHYS_BASE in *; urange; lia).
  assert (Hr' : page - PHYS_BASE + 4096 <= 2 ^ 30).
  { rewrite PGSIZE_eq in Hpa. pose proof (Z.div_mod (page - PHYS_BASE) 4096). lia. }
  set (f := if w then 7 else 5).
  assert (Hf : 0 <= f < PGSIZE) by (subst f; destruct w; done).
  assert (Hu : is_u32 (page - PHYS_BASE)) by (urange; lia).
  assert (Hfu : is_u32 (page - PHYS_BASE + f)).
  { clearbody f. change PGSIZE with 4096 in Hf. urange. lia. }
  destruct (pte_addr_flags (page - PHYS_BASE) f Hu Hpa Hf) as [Haddr Hflags].
  destruct (pte_addr_flags (page - PHYS_BASE) 7 Hu Hpa) as [Haddr7 _]; [done|].
  exists (page - PHYS_BASE + f). split_and!.
  - unfold pte_create_user. rewrite pte_create_kernel_eq by done. simpl. f_equal.
    rewrite <- (lor_aligned _ _ 12), <- Z.lor_assoc by (done || destruct w; done).
    replace (Z.lor _ PTE_U) with f by by subst f; destruct w.
    by apply (lor_aligned _ _ 12).
  - apply Hfu.
  - unfold pte_get_page. rewrite Haddr, ptov_phys by done. f_equal. lia.
  - rewrite Hflags. subst f. by destruct w.
  - exists (page - PHYS_BASE + 7). split.
    + unfold pde_create. rewrite pg_ofs_mod, Ha. simpl. rewrite vtop_kernel by done. simpl. f_equal.
      rewrite <- !Z.lor_assoc. by apply (lor_aligned _ _ 12).
    + unfold pde_get_pt. assert (E : Z.land (page - PHYS_BASE + 7) PTE_P =? 0 = false).
      { apply Z.eqb_neq. change PTE_P with (2 ^ 1 - 1). rewrite land_ones_low by done.
        rewrite PGSIZE_eq in Hpa. Z.to_euclidean_division_equations. lia. }
      rewrite E. simpl. rewrite Haddr7, ptov_phys by done. f_equal. lia.
Qed.

Lemma pte_roundtrip_witness :
  exists pte, pte_create_user 0xc0123000 true = Ret pte /\ pte_get_page pte = Ret 0xc0123000.
Proof.
  destruct (pte_roundtrip 0xc0123000 true) as (pte & ? & _ & ? & _);
    [split; [discriminate|reflexivity]|discriminate|reflexivity|exists pte; auto].
Defined.
