(* ===== verification/Arith64.v ===== *)
(** * 64-bit division on a 32-bit machine: lib/arithmetic.c

    GCC compiles a 64-bit [/] or [%] into a call of [__udivdi3],
    [__umoddi3], [__divdi3] or [__moddi3].  The routines below are
    translated at their C widths; [divl] is the x86 instruction, which
    raises a divide error (a panic of the kernel) when the quotient does not
    fit in 32 bits or the divisor is zero. *)

From S2P Require Import Prelude.

(** ** The routines *)

Definition divl (n d : Z) : outcome Z :=
  let n1 := u32 (Z.shiftr n 32) in
  let n0 := u32 n in
  if d =? 0 then Panic
  else
    let q := (n1 * 2 ^ 32 + n0) / d in
    if q <? 2 ^ 32 then Ret q else Panic.

(** One [if (x <= max) { n += k; x <<= k; }] of [nlz]. *)
Definition nlz_step (max k : Z) (nx : Z * Z) : Z * Z :=
  let '(n, x) := nx in
  if x <=? max then (n + k, u32 (Z.shiftl x k)) else (n, x).

Definition nlz (x : Z) : Z :=
  let '(n, x) := nlz_step 0x3FFFFFFF 2 (nlz_step 0x0FFFFFFF 4
                  (nlz_step 0x00FFFFFF 8 (nlz_step 0x0000FFFF 16 (0, x)))) in
  if x <=? 0x7FFFFFFF then n + 1 else n.

Definition udiv64 (n d : Z) : outcome Z :=
  if Z.shiftr d 32 =? 0 then
    let b := 2 ^ 32 in
    let n1 := u32 (Z.shiftr n 32) in
    let n0 := u32 n in
    let d0 := u32 d in
    if d0 =? 0 then Panic (* [n1 % d0] and [n1 / d0] trap *)
    else
      q0 ← divl (u64 (u64 (b * (n1 mod d0)) + n0)) d0;
      Ret (u64 (q0 + u64 (b * (n1 / d0))))
  else if n <? d then Ret 0
  else
    let d1 := u32 (Z.shiftr d 32) in
    let s := nlz d1 in
    q ← divl (Z.shiftr n 1) (u32 (Z.shiftr (u64 (Z.shiftl d s)) 32));
    let q := Z.shiftr q (31 - s) in
    Ret (if u64 (n - u64 (u64 (q - 1) * d)) <? d then u64 (q - 1) else q).

Definition umod64 (n d : Z) : outcome Z :=
  q ← udiv64 n d;
  Ret (u32 (u64 (n - u64 (d * q)))).

Definition sdiv64 (n d : Z) : outcome Z :=
  let n_abs := if 0 <=? n then u64 n else u64 (- u64 n) in
  let d_abs := if 0 <=? d then u64 d else u64 (- u64 d) in
  q_abs ← udiv64 n_abs d_abs;
  Ret (if Bool.eqb (n <? 0) (d <? 0) then s64 q_abs else s64 (- s64 q_abs)).

Definition smod64 (n d : Z) : outcome Z :=
  q ← sdiv64 n d;
  Ret (s32 (s64 (n - s64 (d * q)))).

Definition __divdi3 (n d : Z) : outcome Z := sdiv64 n d.
Definition __moddi3 (n d : Z) : outcome Z := smod64 n d.
Definition __udivdi3 (n d : Z) : outcome Z := udiv64 n d.
Definition __umoddi3 (n d : Z) : outcome Z := umod64 n d.

(** ** The instruction and the count of leading zeros *)

Lemma u64_halves n : is_u64 n -> u32 (Z.shiftr n 32) * 2 ^ 32 + u32 n = n /\ u32 (Z.shiftr n 32) = n / 2 ^ 32.
Proof.
  intros Hn. rewrite Z.shiftr_div_pow2 by done.
  assert (E : u32 (n / 2 ^ 32) = n / 2 ^ 32).
  { urange. Z.to_euclidean_division_equations. lia. }
  rewrite E. split; [|done]. unfold u32. pose proof (Z.div_mod n (2 ^ 32)). lia.
Qed.

Lemma divl_fits n d : is_u64 n -> 0 < d -> n < d * 2 ^ 32 -> divl n d = Ret (n / d).
Proof.
  intros Hn Hd Hq. unfold divl. destruct (u64_halves n Hn) as [-> _].
  assert (n / d < 2 ^ 32) by (apply Z.div_lt_upper_bound; lia).
  zcases; lia || done.
Qed.

(** The state of [nlz]: [n] zeros have been shifted out, [m] more steps of
    zeros remain possible. *)
Definition nlz_inv (x0 m : Z) (nx : Z * Z) : Prop :=
  let '(n, x) := nx in
  0 <= n /\ n + m <= 32 /\ x = x0 * 2 ^ n /\ 2 ^ (32 - m) <= x < 2 ^ 32.

Lemma nlz_step_inv x0 m k nx : 0 < k -> k + k <= m -> nlz_inv x0 m nx ->
  nlz_inv x0 (m - k) (nlz_step (2 ^ (32 - k) - 1) k nx).
Proof.
  destruct nx as [n x]. intros Hk Hm (Hn & Hnm & Hx & Hlo & Hhi). unfold nlz_step.
  destruct (Z.leb_spec x (2 ^ (32 - k) - 1)).
  - assert (Hs : x * 2 ^ k < 2 ^ 32).
    { replace 32 with ((32 - k) + k) at 1 by lia. rewrite Z.pow_add_r by lia.
      apply Z.mul_lt_mono_pos_r; lia. }
    assert (0 < 2 ^ (32 - m) /\ 0 < 2 ^ k) as [? ?] by (split; apply Z.pow_pos_nonneg; lia).
    assert (0 <= x * 2 ^ k) by (apply Z.mul_nonneg_nonneg; lia).
    rewrite Z.shiftl_mul_pow2, u32_small by (unfold is_u32; lia).
    split_and!; [lia|lia| |replace (32 - (m - k)) with ((32 - m) + k) by lia|done].
    + rewrite Hx, Z.pow_add_r by lia. lia.
    + rewrite Z.pow_add_r by lia. apply Z.mul_le_mono_nonneg_r; lia.
  - split_and!; [lia|lia|done| |done].
    transitivity (2 ^ (32 - k)); [|lia]. apply Z.pow_le_mono_r; lia.
Qed.

Lemma nlz_spec x : is_u32 x -> 0 < x -> 0 <= nlz x <= 31 /\ 2 ^ 31 <= x * 2 ^ nlz x < 2 ^ 32.
Proof.
  intros Hx Hpos. unfold nlz.
  assert (H0 : nlz_inv x 32 (0, x)) by (unfold nlz_inv; rewrite Z.mul_1_r; urange; lia).
  apply (nlz_step_inv x 32 16) in H0; [|done..]. apply (nlz_step_inv x 16 8) in H0; [|done..].
  apply (nlz_step_inv x 8 4) in H0; [|done..]. apply (nlz_step_inv x 4 2) in H0; [|done..].
  change (2 ^ (32 - 16) - 1) with 0x0000FFFF in H0. change (2 ^ (32 - 8) - 1) with 0x00FFFFFF in H0.
  change (2 ^ (32 - 4) - 1) with 0x0FFFFFFF in H0. change (2 ^ (32 - 2) - 1) with 0x3FFFFFFF in H0.
  destruct (nlz_step _ _ _) as [n y]. destruct H0 as (Hn & Hn' & -> & Hlo & Hhi).
  change (2 ^ (32 - (4 - 2))) with 0x40000000 in Hlo.
  zcases; [rewrite Z.pow_add_r by lia|]; lia.
Qed.

(** ** The quotient estimate of the long division

    With [D = v * 2^m] the divisor cut to its [32] leading bits, [n / D] is
    the quotient or one more. *)
Lemma estimate_bound n d m : is_u64 n -> 1 <= m <= 32 -> 2 ^ (31 + m) <= d ->
  d < 2 ^ (32 + m) ->
  n / d <= n / (d / 2 ^ m * 2 ^ m) <= n / d + 1.
Proof.
  intros [Hn0 Hn] Hm Hd _. assert (HM : 2 <= 2 ^ m) by (apply (Z.pow_le_mono_r 2 1); lia).
  assert (H31 : 2 ^ (31 + m) = 2 ^ 31 * 2 ^ m) by (apply Z.pow_add_r; lia).
  set (M := 2 ^ m) in *. clearbody M.
  set (D := d / M * M). assert (HD : d - M + 1 <= D <= d).
  { subst D. pose proof (Z.div_mod d M). pose proof (Z.mod_pos_bound d M). lia. }
  assert (HDlo : 2 ^ 31 * M <= D).
  { subst D. apply Z.mul_le_mono_nonneg_r; [lia|]. apply Z.div_le_lower_bound; lia. }
  clearbody D. split; [apply Z.div_le_compat_l; lia|].
  assert (Hr := Z.mod_pos_bound n d). assert (En := Z.div_mod n d).
  set (q := n / d) in *. clearbody q. enough (n / D < q + 2) by lia.
  apply Z.div_lt_upper_bound; [lia|].
  (* n < (q + 1) d <= (q + 2) D, since (q + 1) (d - D) <= D *)
  assert (Hq0 : 0 <= q) by nia.
  assert (Hq : (q + 1) * (M - 1) <= D).
  { assert (Hqd : q * (2 ^ 31 * M) <= q * d) by (apply Z.mul_le_mono_nonneg_l; lia).
    assert (HqM : q * M < 2 ^ 33) by lia.
    destruct (decide (M <= 4)); [|lia].
    assert (M = 2 \/ M = 3 \/ M = 4) as [->|[->| ->]] by lia; lia. }
  assert (Hgap : (q + 1) * (d - D) <= (q + 1) * (M - 1)) by (apply Z.mul_le_mono_nonneg_l; lia).
  lia.
Qed.

(** ** Unsigned division *)

Lemma udiv64_short n d : is_u64 n -> 0 < d < 2 ^ 32 -> udiv64 n d = Ret (n / d).
Proof.
  intros Hn Hd. unfold udiv64. rewrite Z.shiftr_div_pow2, (Z.div_small d) by lia. cbn [Z.eqb].
  destruct (u64_halves n Hn) as [En E1]. set (n1 := u32 (Z.shiftr n 32)) in *.
  set (n0 := u32 n) in *. assert (Hn0 : 0 <= n0 < 2 ^ 32) by apply u32_range.
  assert (Hn1 : 0 <= n1 < 2 ^ 32) by apply u32_range. clearbody n0 n1.
  rewrite (u32_small d) by (urange; lia). destruct (Z.eqb_spec d 0); [lia|].
  pose proof (Z.mod_pos_bound n1 d). pose proof (Z.div_mod n1 d).
  assert (Hb : 0 <= n1 / d < 2 ^ 32)
    by (split; [apply Z.div_pos|apply Z.div_lt_upper_bound]; nia).
  assert (H1 : u64 (2 ^ 32 * (n1 mod d)) = 2 ^ 32 * (n1 mod d)) by (apply u64_small; urange; lia).
  assert (H2 : u64 (2 ^ 32 * (n1 mod d) + n0) = 2 ^ 32 * (n1 mod d) + n0)
    by (apply u64_small; urange; lia).
  assert (H3 : u64 (2 ^ 32 * (n1 / d)) = 2 ^ 32 * (n1 / d)) by (apply u64_small; urange; lia).
  rewrite H1, H2, H3, divl_fits by (urange; lia). simpl. f_equal.
  assert (Eq : (2 ^ 32 * (n1 mod d) + n0) / d + 2 ^ 32 * (n1 / d) = n / d).
  { rewrite <- Z.div_add by lia. f_equal. lia. }
  rewrite Eq. apply u64_small. urange. split; [apply Z.div_pos; lia|].
  apply Z.div_lt_upper_bound; nia.
Qed.

Lemma normalized_divisor d s : 2 ^ 32 <= d < 2 ^ 64 -> 0 <= s <= 31 ->
  2 ^ 31 <= d / 2 ^ 32 * 2 ^ s < 2 ^ 32 ->
  2 ^ (31 + (32 - s)) <= d < 2 ^ (32 + (32 - s)) /\
  u32 (Z.shiftr (u64 (Z.shiftl d s)) 32) = d / 2 ^ (32 - s) /\
  2 ^ 31 <= d / 2 ^ (32 - s) < 2 ^ 32.
Proof.
  intros Hd Hs Hn. assert (HS : 0 < 2 ^ s) by (apply Z.pow_pos_nonneg; lia).
  assert (HM : 0 < 2 ^ (32 - s)) by (apply Z.pow_pos_nonneg; lia).
  assert (HMS : 2 ^ (32 - s) * 2 ^ s = 2 ^ 32) by (rewrite <- Z.pow_add_r by lia; f_equal; lia).
  assert (E31 : 2 ^ (31 + (32 - s)) = 2 ^ 31 * 2 ^ (32 - s)) by (apply Z.pow_add_r; lia).
  assert (E32 : 2 ^ (32 + (32 - s)) = 2 ^ 32 * 2 ^ (32 - s)) by (apply Z.pow_add_r; lia).
  assert (Hdv := Z.div_mod d (2 ^ 32)). assert (Hdm := Z.mod_pos_bound d (2 ^ 32)).
  rewrite Z.shiftl_mul_pow2, Z.shiftr_div_pow2 by lia.
  set (S := 2 ^ s) in *. set (M := 2 ^ (32 - s)) in *. set (d1 := d / 2 ^ 32) in *.
  clearbody S M d1.
  assert (HdS : 2 ^ 63 <= d * S < 2 ^ 64) by nia.
  assert (Hlo : 2 ^ 31 * M <= d < 2 ^ 32 * M) by nia.
  assert (Hq : 2 ^ 31 <= d / M < 2 ^ 32).
  { split; [apply Z.div_le_lower_bound|apply Z.div_lt_upper_bound]; lia. }
  split_and!; [lia|lia| |lia|lia].
  rewrite u64_small by (urange; lia). rewrite <- HMS at 1. rewrite Z.div_mul_cancel_r by lia.
  apply u32_small. urange. lia.
Qed.

Lemma udiv64_long n d : is_u64 n -> 2 ^ 32 <= d < 2 ^ 64 -> udiv64 n d = Ret (n / d).
Proof.
  intros Hn Hd. unfold udiv64.
  assert (Hd1 : 1 <= d / 2 ^ 32 < 2 ^ 32)
    by (split; [apply Z.div_le_lower_bound|apply Z.div_lt_upper_bound]; lia).
  rewrite (Z.shiftr_div_pow2 d) by done. destruct (Z.eqb_spec (d / 2 ^ 32) 0); [lia|].
  destruct (Z.ltb_spec n d); [by rewrite Z.div_small by (urange; lia)|].
  rewrite (u32_small (d / 2 ^ 32)) by (urange; lia).
  destruct (nlz_spec (d / 2 ^ 32)) as [Hs Hnorm]; [urange; lia|lia|].
  set (s := nlz (d / 2 ^ 32)) in *. clearbody s.
  destruct (normalized_divisor d s Hd Hs Hnorm) as (Hrange & Ev & Hv).
  rewrite Ev, divl_fits; [|urange; rewrite Z.shiftr_div_pow2 by lia; Z.to_euclidean_division_equations; lia
    |lia|rewrite Z.shiftr_div_pow2 by lia; urange; Z.to_euclidean_division_equations; lia].
  cbn [mbind outcome_bind]. f_equal.
  destruct (estimate_bound n d (32 - s)) as [Hq1 Hq2]; [done|lia|lia|lia|].
  assert (Eq : Z.shiftr (Z.shiftr n 1 / (d / 2 ^ (32 - s))) (31 - s) = n / (d / 2 ^ (32 - s) * 2 ^ (32 - s))).
  { rewrite !Z.shiftr_div_pow2, !Z.div_div by (try apply Z.pow_pos_nonneg; lia). f_equal.
    replace (32 - s) with (1 + (31 - s)) at 3 by lia. rewrite (Z.pow_add_r 2 1) by lia. lia. }
  rewrite Eq. set (q := n / (_ * _)) in *. clearbody q. clear Eq Ev Hv Hrange Hnorm.
  assert (Hnd := Z.div_mod n d). assert (Hr := Z.mod_pos_bound n d).
  assert (Hpos : 1 <= n / d) by (apply Z.div_le_lower_bound; lia).
  assert (Hq64 : n / d < 2 ^ 32) by (apply Z.div_lt_upper_bound; urange; lia).
  set (Q := n / d) in *. clearbody Q.
  rewrite (u64_small (q - 1)) by (urange; lia).
  assert (q = Q \/ q = Q + 1) as [->| ->] by lia;
    rewrite (u64_small (_ * d)), (u64_small (n - _)) by (urange; nia); zcases; nia.
Qed.

Lemma udiv64_eq n d : is_u64 n -> is_u64 d -> d <> 0 -> udiv64 n d = Ret (n / d).
Proof.
  intros Hn Hd Hd0. destruct (decide (d < 2 ^ 32)).
  - apply udiv64_short; [done|urange; lia].
  - apply udiv64_long; [done|urange; lia].
Qed.

(** ** Signed division *)

Lemma abs_of_signed n : is_s64 n -> (if 0 <=? n then u64 n else u64 (- u64 n)) = Z.abs n.
Proof.
  intros Hn. zcases; urange; [rewrite Z.mod_small; lia|].
  assert (E : n mod 18446744073709551616 = n + 18446744073709551616)
    by (symmetry; apply Z.mod_unique_pos with (-1); lia).
  rewrite E, <- (Z.mod_unique_pos _ 18446744073709551616 (-1) (- n)); lia.
Qed.

Lemma s64_u64 x : s64 (u64 x) = s64 x.
Proof. urange. by rewrite Zplus_mod_idemp_l. Qed.
Lemma s64_opp_s64 x : s64 (- s64 x) = s64 (- x).
Proof.
  unfold s64 at 1 3. f_equal. unfold s64. 
  rewrite <- (Z.mod_add (- x + 2 ^ 63) 1) by done.
  assert (H := Z.div_mod (x + 2 ^ 63) (2 ^ 64)).
  replace (- ((x + 2 ^ 63) mod 2 ^ 64 - 2 ^ 63) + 2 ^ 63)
    with (- x + 2 ^ 63 + (x + 2 ^ 63) / 2 ^ 64 * 2 ^ 64) by lia.
  rewrite !Z.mod_add by done. done.
Qed.

Lemma sdiv64_eq n d : is_s64 n -> is_s64 d -> d <> 0 -> sdiv64 n d = Ret (s64 (Z.quot n d)).
Proof.
  intros Hn Hd Hd0. unfold sdiv64. rewrite !abs_of_signed by done.
  rewrite udiv64_eq by (urange; lia). simpl. f_equal.
  assert (Hq : Z.quot n d = if Bool.eqb (n <? 0) (d <? 0) then Z.abs n / Z.abs d else - (Z.abs n / Z.abs d)).
  { rewrite <- Z.quot_div_nonneg by lia. zcases; simpl.
    - rewrite <- Z.quot_opp_opp by lia. f_equal; lia.
    - rewrite <- Z.quot_opp_l by lia. f_equal; lia.
    - rewrite <- Z.quot_opp_r by lia. f_equal; lia.
    - f_equal; lia. }
  rewrite Hq. destruct (Bool.eqb _ _); [done|apply s64_opp_s64].
Qed.

Lemma quot_fits n d : is_s64 n -> d <> 0 -> d <> -1 -> is_s64 (Z.quot n d).
Proof.
  intros Hn H0 H1. destruct (decide (d = 1)) as [->|]; [by rewrite Z.quot_1_r|].
  assert (H := Z.quot_abs n d H0). rewrite Z.quot_div_nonneg in H by lia.
  assert (Z.abs n / Z.abs d <= 2 ^ 62) by (apply Z.div_le_upper_bound; urange; lia).
  urange. lia.
Qed.

Lemma s32_s64 x : s32 (s64 x) = s32 x.
Proof.
  unfold s32 at 1 2. f_equal. unfold s64.
  assert (H := Z.div_mod (x + 2 ^ 63) (2 ^ 64)).
  replace ((x + 2 ^ 63) mod 2 ^ 64 - 2 ^ 63 + 2 ^ 31)
    with (x + 2 ^ 31 + (- ((x + 2 ^ 63) / 2 ^ 64) * 2 ^ 32) * 2 ^ 32) by lia.
  by rewrite Z.mod_add.
Qed.

Lemma s64_cong x y : (x - y) mod 2 ^ 64 = 0 -> s64 x = s64 y.
Proof.
  intros H. unfold s64. f_equal. assert (E := Z.div_mod (x - y) (2 ^ 64)).
  replace (x + 2 ^ 63) with (y + 2 ^ 63 + (x - y) / 2 ^ 64 * 2 ^ 64) by lia.
  by rewrite Z.mod_add.
Qed.

Lemma s64_mod x : (s64 x - x) mod 2 ^ 64 = 0.
Proof.
  unfold s64. assert (E := Z.div_mod (x + 2 ^ 63) (2 ^ 64)).
  replace (_ - 2 ^ 63 - x) with (- ((x + 2 ^ 63) / 2 ^ 64) * 2 ^ 64) by lia. by apply Z.mod_mul.
Qed.

Lemma smod64_eq n d : is_s64 n -> is_s64 d -> d <> 0 -> smod64 n d = Ret (s32 (Z.rem n d)).
Proof.
  intros Hn Hd Hd0. unfold smod64. rewrite sdiv64_eq by done. simpl. f_equal.
  rewrite <- (s32_s64 (Z.rem n d)). f_equal. apply s64_cong.
  assert (E := Z.quot_rem' n d).
  assert (E1 := s64_mod (d * s64 (Z.quot n d))). assert (E2 := s64_mod (Z.quot n d)).
  set (a := s64 (d * _)) in *. set (b := s64 (Z.quot n d)) in *. clearbody a b.
  apply Z.mod_divide in E1 as [k1 E1]; [|done]. apply Z.mod_divide in E2 as [k2 E2]; [|done].
  apply Z.mod_divide; [done|]. exists (- k1 - d * k2). lia.
Qed.

Lemma umod64_eq n d : is_u64 n -> is_u64 d -> d <> 0 -> umod64 n d = Ret (u32 (n mod d)).
Proof.
  intros Hn Hd Hd0. unfold umod64. rewrite udiv64_eq by done. simpl. f_equal.
  assert (E := Z.div_mod n d). assert (Hr := Z.mod_pos_bound n d).
  assert (0 <= n / d) by (apply Z.div_pos; urange; lia).
  assert (0 <= d * (n / d)) by (apply Z.mul_nonneg_nonneg; urange; lia).
  rewrite (u64_small (d * _)), u64_small by (urange; lia). f_equal. lia.
Qed.

(** ** Properties *)

(** Unsigned 64-bit division returns the exact quotient for every
    nonzero divisor (in particular [divl] never traps), and traps for 0. *)
Theorem udivdi3_correct (n d : Z) : is_u64 n -> is_u64 d ->
  __udivdi3 n d = if d =? 0 then Panic else Ret (n / d).
Proof.
  intros Hn Hd. unfold __udivdi3. destruct (Z.eqb_spec d 0) as [->|]; [done|by apply udiv64_eq].
Qed.

Lemma udivdi3_correct_witness :
  __udivdi3 0xFFFFFFFFFFFFFFFF 0x1FFFFFFFF = Ret (0xFFFFFFFFFFFFFFFF / 0x1FFFFFFFF).
Proof. apply (udivdi3_correct 0xFFFFFFFFFFFFFFFF 0x1FFFFFFFF); split; (discriminate || reflexivity). Defined.

(** Signed 64-bit division truncates toward zero; the only quotient
    that does not fit, [-2^63 / -1], wraps around. *)
Theorem divdi3_correct (n d : Z) : is_s64 n -> is_s64 d -> d <> 0 ->
  __divdi3 n d = Ret (if (n =? - 2 ^ 63) && (d =? -1) then - 2 ^ 63 else Z.quot n d).
Proof.
  intros Hn Hd Hd0. unfold __divdi3. rewrite sdiv64_eq by done. f_equal.
  destruct (Z.eqb_spec d (-1)) as [->|].
  { change (-1) with (- (1)). rewrite Z.quot_opp_r, Z.quot_1_r by done.
    destruct (Z.eqb_spec n (- 2 ^ 63)) as [->|]; [done|]. cbn [andb]. apply s64_small. urange. lia. }
  rewrite andb_false_r. apply s64_small. by apply quot_fits.
Qed.

Lemma divdi3_correct_witness : __divdi3 (-7) 0x100000002 = Ret (Z.quot (-7) 0x100000002).
Proof. apply (divdi3_correct (-7) 0x100000002); [split; (discriminate || reflexivity)..|discriminate]. Defined.

(** The remainder routines return the remainder cut to 32 bits, because
    [umod64] and [smod64] are declared with 32-bit results: the value is the
    remainder when it fits, and is not for some operands above 2^32. *)
Theorem moddi3_truncates :
  (forall n d, is_u64 n -> is_u64 d -> d <> 0 ->
     __umoddi3 n d = Ret ((n mod d) mod 2 ^ 32) /\ (d <= 2 ^ 32 -> __umoddi3 n d = Ret (n mod d))) /\
  (forall n d, is_s64 n -> is_s64 d -> d <> 0 ->
     __moddi3 n d = Ret (s32 (Z.rem n d)) /\ (Z.abs d <= 2 ^ 31 -> __moddi3 n d = Ret (Z.rem n d))) /\
  __umoddi3 0x200000000 0x300000000 = Ret 0 /\ 0x200000000 mod 0x300000000 = 0x200000000.
Proof.
  split_and!; [| |done|done].
  - intros n d Hn Hd Hd0. unfold __umoddi3. rewrite umod64_eq by done. split; [done|]. intros Hs.
    f_equal. apply u32_small. pose proof (Z.mod_pos_bound n d). urange. lia.
  - intros n d Hn Hd Hd0. unfold __moddi3. rewrite smod64_eq by done. split; [done|]. intros Hs.
    f_equal. apply s32_small. assert (Hb := Z.rem_bound_abs n d Hd0).
    set (r := Z.rem n d) in *. clearbody r. urange. lia.
Qed.
