(* ===== verification/Bitmap.v ===== *)
(** * Bitmaps: lib/kernel/bitmap.c

    A bitmap is an array of 32-bit elements.  The functions are translated
    on that array, with the [size_t] arithmetic of the assertions and of the
    loop counters at 32 bits; the lemmas show that they implement an array
    of [bit_cnt] Booleans.  The functions that move a bitmap to and from a
    file are in File.v, beside the file operations they call. *)

From S2P Require Import Prelude Vaddr.

(** ** Data *)

Definition ELEM_BITS : Z := 32.
Definition ELEM_SIZE : Z := 4.
Definition BITMAP_ERROR : Z := 2 ^ 32 - 1.
Definition SIZEOF_BITMAP : Z := 8.

(** [struct bitmap]: the number of bits and the elements. *)
Record bitmap := mk_bitmap { bit_cnt : Z; bits : list Z }.

Definition elem_idx (bit_idx : Z) : Z := bit_idx / ELEM_BITS.
Definition bit_mask (bit_idx : Z) : Z := u32 (Z.shiftl 1 (bit_idx mod ELEM_BITS)).
Definition elem_cnt (bit_cnt : Z) : Z := DIV_ROUND_UP bit_cnt ELEM_BITS.
Definition byte_cnt (bit_cnt : Z) : Z := ELEM_SIZE *u elem_cnt bit_cnt.
Definition last_mask (b : bitmap) : Z :=
  let last_bits := bit_cnt b mod ELEM_BITS in
  if last_bits =? 0 then u32 (-1) else u32 (Z.shiftl 1 last_bits) -u 1.

(** Element [i] of the array; an access outside the array faults. *)
Definition get_elem (i : Z) : ST bitmap Z := fun b =>
  match bits b !! Z.to_nat i with Some x => Ret (x, b) | None => Panic end.
Definition set_elem (i x : Z) : ST bitmap unit := fun b =>
  match bits b !! Z.to_nat i with
  | Some _ => Ret (tt, mk_bitmap (bit_cnt b) (<[Z.to_nat i := x]> (bits b)))
  | None => Panic
  end.

(** ** Single bits *)

Definition bitmap_size : ST bitmap Z := gets bit_cnt.

Definition bitmap_mark (bit_idx : Z) : ST bitmap unit :=
  let idx := elem_idx bit_idx in
  let mask := bit_mask bit_idx in
  x ← get_elem idx; set_elem idx (Z.lor x mask).

Definition bitmap_reset (bit_idx : Z) : ST bitmap unit :=
  let idx := elem_idx bit_idx in
  let mask := bit_mask bit_idx in
  x ← get_elem idx; set_elem idx (Z.land x (unot mask)).

Definition bitmap_flip (bit_idx : Z) : ST bitmap unit :=
  let idx := elem_idx bit_idx in
  let mask := bit_mask bit_idx in
  x ← get_elem idx; set_elem idx (Z.lxor x mask).

Definition bitmap_set (idx : Z) (value : bool) : ST bitmap unit :=
  n ← bitmap_size;
  ASSERT (idx <? n);;
  if value then bitmap_mark idx else bitmap_reset idx.

Definition bitmap_test (idx : Z) : ST bitmap bool :=
  n ← bitmap_size;
  ASSERT (idx <? n);;
  x ← get_elem (elem_idx idx);
  mret (negb (Z.land x (bit_mask idx) =? 0)).

(** ** Groups of bits

    A [for] loop that counts [i] up to [cnt] runs at most [cnt] times. *)

Fixpoint bitmap_set_multiple_loop (fuel : nat) (start cnt i : Z) (value : bool) : ST bitmap unit :=
  match fuel with
  | O => no_fuel
  | S fuel =>
    if i <? cnt then
      bitmap_set (start +u i) value;;
      bitmap_set_multiple_loop fuel start cnt (i +u 1) value
    else mret tt
  end.

Definition bitmap_set_multiple (start cnt : Z) (value : bool) : ST bitmap unit :=
  n ← bitmap_size;
  ASSERT (start <=? n);;
  ASSERT (start +u cnt <=? n);;
  bitmap_set_multiple_loop (S (Z.to_nat cnt)) start cnt 0 value.

Definition bitmap_set_all (value : bool) : ST bitmap unit :=
  n ← bitmap_size;
  bitmap_set_multiple 0 n value.

Fixpoint bitmap_count_loop (fuel : nat) (start cnt i value_cnt : Z) (value : bool) : ST bitmap Z :=
  match fuel with
  | O => no_fuel
  | S fuel =>
    if i <? cnt then
      t ← bitmap_test (start +u i);
      bitmap_count_loop fuel start cnt (i +u 1)
        (if Bool.eqb t value then value_cnt +u 1 else value_cnt) value
    else mret value_cnt
  end.

Definition bitmap_count (start cnt : Z) (value : bool) : ST bitmap Z :=
  n ← bitmap_size;
  ASSERT (start <=? n);;
  ASSERT (start +u cnt <=? n);;
  bitmap_count_loop (S (Z.to_nat cnt)) start cnt 0 0 value.

Fixpoint bitmap_contains_loop (fuel : nat) (start cnt i : Z) (value : bool) : ST bitmap bool :=
  match fuel with
  | O => no_fuel
  | S fuel =>
    if i <? cnt then
      t ← bitmap_test (start +u i);
      if Bool.eqb t value then mret true
      else bitmap_contains_loop fuel start cnt (i +u 1) value
    else mret false
  end.

Definition bitmap_contains (start cnt : Z) (value : bool) : ST bitmap bool :=
  n ← bitmap_size;
  ASSERT (start <=? n);;
  ASSERT (start +u cnt <=? n);;
  bitmap_contains_loop (S (Z.to_nat cnt)) start cnt 0 value.

Definition bitmap_any (start cnt : Z) : ST bitmap bool := bitmap_contains start cnt true.
Definition bitmap_none (start cnt : Z) : ST bitmap bool :=
  c ← bitmap_contains start cnt true; mret (negb c).
Definition bitmap_all (start cnt : Z) : ST bitmap bool :=
  c ← bitmap_contains start cnt false; mret (negb c).

(** ** Finding groups *)

Fixpoint bitmap_scan_loop (fuel : nat) (last cnt i : Z) (value : bool) : ST bitmap Z :=
  match fuel with
  | O => no_fuel
  | S fuel =>
    if i <=? last then
      c ← bitmap_contains i cnt (negb value);
      if c : bool then bitmap_scan_loop fuel last cnt (i +u 1) value
      else mret i
    else mret BITMAP_ERROR
  end.

Definition bitmap_scan (start cnt : Z) (value : bool) : ST bitmap Z :=
  n ← bitmap_size;
  ASSERT (start <=? n);;
  if cnt <=? n then
    let last := n -u cnt in
    bitmap_scan_loop (S (S (Z.to_nat last))) last cnt start value
  else mret BITMAP_ERROR.

Definition bitmap_scan_and_flip (start cnt : Z) (value : bool) : ST bitmap Z :=
  idx ← bitmap_scan start cnt value;
  (if idx =? BITMAP_ERROR then mret tt else bitmap_set_multiple idx cnt (negb value));;
  mret idx.

(** ** Creation

    [block] is the storage [malloc] returned for the elements, [None] for a
    null pointer; [have_struct] says whether the first [malloc] succeeded. *)

Definition bitmap_create (have_struct : bool) (block : option (list Z)) (cnt : Z) : outcome (option bitmap) :=
  if have_struct then
    match block with
    | Some words =>
        '(_, b) ← bitmap_set_all false (mk_bitmap cnt words); Ret (Some b)
    | None =>
        if cnt =? 0 then '(_, b) ← bitmap_set_all false (mk_bitmap cnt []); Ret (Some b)
        else Ret None
    end
  else Ret None.

Definition bitmap_buf_size (cnt : Z) : Z := SIZEOF_BITMAP +u byte_cnt cnt.

(** [words] is what follows the [struct bitmap] at the start of the buffer. *)
Definition bitmap_create_in_buf (cnt : Z) (words : list Z) (block_size : Z) : outcome bitmap :=
  check (bitmap_buf_size cnt <=? block_size);;
  '(_, b) ← bitmap_set_all false (mk_bitmap cnt words); Ret b.

(** ** The array of Booleans a bitmap implements *)

Record bitmap_ok (b : bitmap) : Prop := {
  ok_cnt : is_u32 (bit_cnt b);
  ok_len : bit_cnt b <= ELEM_BITS * length (bits b);
  ok_elems : Forall is_u32 (bits b);
}.

Definition bit (b : bitmap) (i : Z) : bool :=
  Z.testbit (nth (Z.to_nat (i / ELEM_BITS)) (bits b) 0) (i mod ELEM_BITS).

(** [b'] is [b] with the bits of [P] replaced by [v]. *)
Definition bits_set (b b' : bitmap) (P : Z -> bool) (v : Z -> bool) : Prop :=
  bitmap_ok b' /\ bit_cnt b' = bit_cnt b /\ length (bits b') = length (bits b) /\
  forall i, 0 <= i < bit_cnt b -> bit b' i = if P i then v i else bit b i.

(** All bits of [start, start + cnt) have value [v]. *)
Definition group (b : bitmap) (start cnt : Z) (v : bool) : Prop :=
  forall i, start <= i < start + cnt -> bit b i = v.

(** ** Bits of elements *)

Lemma bit_mask_pow i : bit_mask i = 2 ^ (i mod ELEM_BITS).
Proof.
  unfold bit_mask, ELEM_BITS. rewrite Z.shiftl_1_l. apply u32_small.
  pose proof (Z.mod_pos_bound i 32). split; [apply Z.pow_nonneg; lia|].
  apply Z.pow_lt_mono_r; lia.
Qed.

Lemma mask_testbit i j : 0 <= j -> Z.testbit (bit_mask i) j = (j =? i mod ELEM_BITS).
Proof. intros Hj. rewrite bit_mask_pow, Z.pow2_bits_eqb by (apply Z.mod_pos_bound; done). apply Z.eqb_sym. Qed.

Lemma unot_testbit x j : 0 <= j < 32 -> Z.testbit (unot x) j = negb (Z.testbit x j).
Proof. intros Hj. unfold unot, u32. rewrite Z.mod_pow2_bits_low by lia. apply Z.lnot_spec. lia. Qed.

(** [/ 32] and [% 32] tell two indices apart. *)
Lemma index_eqb i j : (j / ELEM_BITS =? i / ELEM_BITS) && (j mod ELEM_BITS =? i mod ELEM_BITS) = (j =? i).
Proof.
  unfold ELEM_BITS. pose proof (Z.div_mod i 32). pose proof (Z.div_mod j 32).
  destruct (Z.eqb_spec j i) as [->|Hne]; [by rewrite !Z.eqb_refl|].
  apply andb_false_iff. destruct (Z.eqb_spec (j / 32) (i / 32)); [right|by left]. apply Z.eqb_neq. lia.
Qed.

Lemma elem_in_range b i : bitmap_ok b -> 0 <= i < bit_cnt b ->
  (Z.to_nat (i / ELEM_BITS) < length (bits b))%nat.
Proof.
  intros H Hi. pose proof (ok_len b H). unfold ELEM_BITS in *.
  assert (i / 32 < length (bits b)) by (apply Z.div_lt_upper_bound; lia).
  pose proof (Z.div_pos i 32). lia.
Qed.

Lemma elem_lookup b i : bitmap_ok b -> 0 <= i < bit_cnt b ->
  bits b !! Z.to_nat (elem_idx i) = Some (nth (Z.to_nat (i / ELEM_BITS)) (bits b) 0).
Proof.
  intros H Hi. pose proof (elem_in_range b i H Hi) as Hl. unfold elem_idx.
  apply lookup_lt_is_Some in Hl as [x Hx]. rewrite Hx. f_equal. symmetry. by apply nth_lookup_Some.
Qed.

Lemma elem_u32 b i : bitmap_ok b -> is_u32 (nth i (bits b) 0).
Proof.
  intros H. pose proof (ok_elems b H) as Hf. rewrite nth_lookup.
  destruct (bits b !! i) eqn:E; simpl; [|done]. by eapply Forall_lookup_1.
Qed.

Lemma bits_update b i x : bitmap_ok b -> 0 <= i < bit_cnt b -> is_u32 x ->
  let b' := mk_bitmap (bit_cnt b) (<[Z.to_nat (elem_idx i) := x]> (bits b)) in
  bitmap_ok b' /\
  forall j, 0 <= j < bit_cnt b ->
    bit b' j = if j / ELEM_BITS =? i / ELEM_BITS then Z.testbit x (j mod ELEM_BITS) else bit b j.
Proof.
  intros H Hi Hx b'. split.
  - split; simpl; [apply H|rewrite length_insert; apply H|]. apply Forall_insert; [apply H|done].
  - intros j Hj. unfold bit. subst b'. simpl. rewrite !nth_lookup.
    pose proof (elem_in_range b i H Hi). unfold elem_idx.
    destruct (Z.eqb_spec (j / ELEM_BITS) (i / ELEM_BITS)) as [->|Hne].
    + by rewrite list_lookup_insert_eq.
    + rewrite list_lookup_insert_ne; [done|].
      assert (0 <= i / ELEM_BITS /\ 0 <= j / ELEM_BITS) by (split; apply Z.div_pos; unfold ELEM_BITS; lia). lia.
Qed.

(** An operation that rewrites one element through [f] and acts on the bit. *)
Lemma wp_bit_op (f : Z -> Z) (g : bool -> bool) i b (Q : unit -> bitmap -> Prop) :
  bitmap_ok b -> 0 <= i < bit_cnt b ->
  (forall x, is_u32 x -> is_u32 (f x)) ->
  (forall x j, 0 <= j < 32 ->
     Z.testbit (f x) j = if j =? i mod ELEM_BITS then g (Z.testbit x j) else Z.testbit x j) ->
  (forall b', bits_set b b' (fun j => j =? i) (fun j => g (bit b j)) -> Q tt b') ->
  wp (x ← get_elem (elem_idx i); set_elem (elem_idx i) (f x)) b Q.
Proof.
  intros H Hi Hf Hbit HQ. apply wp_bind. unfold wp at 1, get_elem.
  rewrite (elem_lookup b i H Hi). unfold wp, set_elem. rewrite (elem_lookup b i H Hi). apply HQ.
  set (x := nth _ _ _). assert (Hx : is_u32 (f x)) by apply Hf, elem_u32, H.
  destruct (bits_update b i (f x) H Hi Hx) as [Hok Hb].
  split_and!; [done|done|simpl; by rewrite length_insert|]. intros j Hj. rewrite Hb by done.
  rewrite <- (index_eqb i j). assert (0 <= j mod ELEM_BITS < 32) by (apply Z.mod_pos_bound; done).
  destruct (Z.eqb_spec (j / ELEM_BITS) (i / ELEM_BITS)) as [E|]; [|done]. simpl.
  rewrite Hbit by done. unfold bit. rewrite E. by fold x.
Qed.

Lemma u32_bitwise x y : is_u32 x -> is_u32 y ->
  is_u32 (Z.lor x y) /\ is_u32 (Z.land x y) /\ is_u32 (Z.lxor x y).
Proof.
  intros Hx Hy. unfold is_u32 in *.
  refine (conj _ (conj _ _)); apply bits_range; try lia;
    try (apply Z.lor_nonneg || apply Z.land_nonneg || apply Z.lxor_nonneg; lia);
    intros i Hi; rewrite ?Z.lor_spec, ?Z.land_spec, ?Z.lxor_spec, !(testbit_above _ 32) by (done || lia); done.
Qed.

Lemma bit_mask_u32 i : is_u32 (bit_mask i).
Proof. apply u32_range. Qed.

Lemma wp_bitmap_mark i b Q : bitmap_ok b -> 0 <= i < bit_cnt b ->
  (forall b', bits_set b b' (fun j => j =? i) (fun _ => true) -> Q tt b') ->
  wp (bitmap_mark i) b Q.
Proof.
  intros H Hi HQ. apply (wp_bit_op (fun x => Z.lor x (bit_mask i)) (fun _ => true)); [done..| | |done].
  - intros x Hx. by apply u32_bitwise, bit_mask_u32.
  - intros x j Hj. rewrite Z.lor_spec, mask_testbit by lia. by destruct (_ =? _); rewrite ?orb_true_r, ?orb_false_r.
Qed.

Lemma wp_bitmap_reset i b Q : bitmap_ok b -> 0 <= i < bit_cnt b ->
  (forall b', bits_set b b' (fun j => j =? i) (fun _ => false) -> Q tt b') ->
  wp (bitmap_reset i) b Q.
Proof.
  intros H Hi HQ. apply (wp_bit_op (fun x => Z.land x (unot (bit_mask i))) (fun _ => false)); [done..| | |done].
  - intros x Hx. apply u32_bitwise; [done|apply u32_range].
  - intros x j Hj. rewrite Z.land_spec, unot_testbit, mask_testbit by lia.
    by destruct (_ =? _); rewrite ?andb_true_r, ?andb_false_r.
Qed.

Lemma wp_bitmap_flip i b Q : bitmap_ok b -> 0 <= i < bit_cnt b ->
  (forall b', bits_set b b' (fun j => j =? i) (fun j => negb (bit b j)) -> Q tt b') ->
  wp (bitmap_flip i) b Q.
Proof.
  intros H Hi HQ. apply (wp_bit_op (fun x => Z.lxor x (bit_mask i)) negb); [done..| | |done].
  - intros x Hx. by apply u32_bitwise, bit_mask_u32.
  - intros x j Hj. rewrite Z.lxor_spec, mask_testbit by lia.
    by destruct (_ =? _); rewrite ?xorb_true_r, ?xorb_false_r.
Qed.

Lemma wp_bitmap_set i v b Q : bitmap_ok b -> 0 <= i < bit_cnt b ->
  (forall b', bits_set b b' (fun j => j =? i) (fun _ => v) -> Q tt b') ->
  wp (bitmap_set i v) b Q.
Proof.
  intros H Hi HQ. unfold bitmap_set, bitmap_size. apply wp_bind, wp_gets, wp_bind, wp_assert; [apply Z.ltb_lt, Hi|].
  destruct v; [by apply wp_bitmap_mark|by apply wp_bitmap_reset].
Qed.

Lemma wp_bitmap_test i b Q : bitmap_ok b -> 0 <= i < bit_cnt b -> Q (bit b i) b -> wp (bitmap_test i) b Q.
Proof.
  intros H Hi HQ. unfold bitmap_test, bitmap_size. apply wp_bind, wp_gets, wp_bind, wp_assert; [apply Z.ltb_lt, Hi|].
  apply wp_bind. unfold wp at 1, get_elem. rewrite (elem_lookup b i H Hi). apply wp_ret.
  assert (Hm : 0 <= i mod ELEM_BITS) by (apply Z.mod_pos_bound; done).
  replace (negb _) with (bit b i); [done|]. unfold bit. set (x := nth _ _ _).
  rewrite bit_mask_pow. destruct (Z.eqb_spec (Z.land x (2 ^ (i mod ELEM_BITS))) 0) as [E|Hne]; simpl.
  - apply (f_equal (fun z => Z.testbit z (i mod ELEM_BITS))) in E.
    by rewrite Z.land_spec, Z.pow2_bits_true, andb_true_r, Z.bits_0 in E.
  - destruct (Z.testbit x (i mod ELEM_BITS)) eqn:E; [done|]. exfalso. apply Hne.
    apply Z.bits_inj'. intros k Hk. rewrite Z.land_spec, Z.pow2_bits_eqb, Z.bits_0 by done.
    destruct (Z.eqb_spec (i mod ELEM_BITS) k) as [<-|]; [by rewrite E|by rewrite andb_false_r].
Qed.

(** ** Groups of bits *)

Definition in_group (start cnt j : Z) : bool := (start <=? j) && (j <? start + cnt).

(** How many bits of [start, start + cnt) have value [v]. *)
Definition count_bits (b : bitmap) (start cnt : Z) (v : bool) : Z :=
  length (List.filter (fun j => Bool.eqb (bit b j) v) (seqZ start cnt)).

Lemma bits_set_refl b v : bitmap_ok b -> bits_set b b (fun _ => false) v.
Proof. done. Qed.

Lemma bits_set_ext b b' P P' v : bits_set b b' P v ->
  (forall j, P j = P' j) -> bits_set b b' P' v.
Proof. intros (? & ? & ? & Hb) HP. split_and!; [done..|]. intros j Hj. rewrite Hb, HP by done. done. Qed.

Lemma bits_set_trans b b1 b2 P1 P2 v : bits_set b b1 P1 (fun _ => v) ->
  bits_set b1 b2 P2 (fun _ => v) -> bits_set b b2 (fun j => P2 j || P1 j) (fun _ => v).
Proof.
  intros (H1 & Hc1 & Hl1 & Hb1) (H2 & Hc2 & Hl2 & Hb2). split_and!; [done|congruence..|].
  intros j Hj. rewrite Hb2 by (by rewrite Hc1). destruct (P2 j); [done|]. by rewrite Hb1.
Qed.

Section Groups.
Variables (b0 : bitmap) (start cnt : Z).
Hypothesis (Hok : bitmap_ok b0) (Hs : 0 <= start) (Hc : 0 <= cnt) (Hend : start + cnt <= bit_cnt b0).

Lemma group_wrap i : 0 <= i < cnt -> start +u i = start + i /\ i +u 1 = i + 1.
Proof. intros Hi. pose proof (ok_cnt b0 Hok). split; apply u32_small; urange; lia. Qed.

Lemma wp_bitmap_set_multiple_loop v fuel i b Q :
  0 <= i <= cnt -> (Z.to_nat (cnt - i) < fuel)%nat ->
  bits_set b0 b (in_group start i) (fun _ => v) ->
  (forall b', bits_set b0 b' (in_group start cnt) (fun _ => v) -> Q tt b') ->
  wp (bitmap_set_multiple_loop fuel start cnt i v) b Q.
Proof.
  revert i b. induction fuel as [|fuel IH]; intros i b Hi Hf Hb HQ; [lia|]. simpl.
  destruct (Z.ltb_spec i cnt); [|apply wp_ret, HQ; by replace cnt with i by lia].
  destruct (group_wrap i) as [-> ->]; [lia|]. destruct Hb as (Hbo & Hbc & Hbl & Hbb).
  apply wp_bind, wp_bitmap_set; [done|lia|]. intros b' Hb'. apply IH; [lia..| |done].
  eapply bits_set_ext; [by eapply bits_set_trans; [|exact Hb']|].
  intros j. unfold in_group. simpl. zcases; simpl; try done; lia.
Qed.

Lemma wp_bitmap_count_loop v fuel i n Q :
  0 <= i <= cnt -> (Z.to_nat (cnt - i) < fuel)%nat -> 0 <= n <= i ->
  Q (n + count_bits b0 (start + i) (cnt - i) v) b0 ->
  wp (bitmap_count_loop fuel start cnt i n v) b0 Q.
Proof.
  revert i n. induction fuel as [|fuel IH]; intros i n Hi Hf Hn HQ; [lia|]. simpl.
  destruct (Z.ltb_spec i cnt); [|apply wp_ret; unfold count_bits in HQ; rewrite seqZ_nil in HQ by lia;
    simpl in HQ; by rewrite Z.add_0_r in HQ].
  destruct (group_wrap i) as [-> ->]; [lia|].
  apply wp_bind, wp_bitmap_test; [done|lia|].
  assert (n +u 1 = n + 1) as -> by (pose proof (ok_cnt b0 Hok); apply u32_small; urange; lia).
  unfold count_bits in *. rewrite (seqZ_cons (start + i) (cnt - i)) in HQ by lia. simpl in HQ.
  replace (Z.succ (start + i)) with (start + (i + 1)) in HQ by lia.
  replace (Z.pred (cnt - i)) with (cnt - (i + 1)) in HQ by lia.
  destruct (Bool.eqb _ _); (apply IH; [lia..|]); [|done].
  simpl in HQ. by replace (n + 1 + _) with (n + S (length (List.filter (λ j : Z, eqb (bit b0 j) v)
    (seqZ (start + (i + 1)) (cnt - (i + 1)))))) by lia.
Qed.

Lemma wp_bitmap_contains_loop v fuel i Q :
  0 <= i <= cnt -> (Z.to_nat (cnt - i) < fuel)%nat ->
  (forall r, r = true \/ r = false -> (r = false <-> group b0 (start + i) (cnt - i) (negb v)) -> Q r b0) ->
  wp (bitmap_contains_loop fuel start cnt i v) b0 Q.
Proof.
  revert i. induction fuel as [|fuel IH]; intros i Hi Hf HQ; [lia|]. simpl.
  destruct (Z.ltb_spec i cnt); [|apply wp_ret, HQ; [by right|split; [|done]; intros _ j Hj; lia]].
  destruct (group_wrap i) as [-> ->]; [lia|]. apply wp_bind, wp_bitmap_test; [done|lia|].
  destruct (Bool.eqb (bit b0 (start + i)) v) eqn:E.
  - apply eqb_prop in E. apply wp_ret, HQ; [by left|]. split; [done|]. intros Hg.
    rewrite (Hg (start + i)) in E by lia. by destruct v.
  - apply eqb_false_iff in E. apply IH; [lia..|]. intros r Hr Hiff. apply HQ; [done|]. rewrite Hiff.
    split; intros Hg j Hj; [|apply Hg; lia].
    destruct (decide (j = start + i)) as [->|]; [by destruct (bit b0 _), v|apply Hg; lia].
Qed.
End Groups.

(** The three assertions at the head of the group functions. *)
Lemma wp_group_guard {A} start cnt b (m : ST bitmap A) Q :
  bitmap_ok b -> 0 <= start -> 0 <= cnt -> start + cnt <= bit_cnt b -> wp m b Q ->
  wp (n ← bitmap_size; ASSERT (start <=? n);; ASSERT (start +u cnt <=? n);; m) b Q.
Proof.
  intros H Hs Hc He HQ. apply wp_bind, wp_gets, wp_bind, wp_assert; [apply Z.leb_le; lia|].
  pose proof (ok_cnt b H). rewrite u32_small by (urange; lia).
  apply wp_bind, wp_assert; [apply Z.leb_le; lia|done].
Qed.

Lemma wp_bitmap_set_multiple start cnt v b Q : bitmap_ok b -> 0 <= start -> 0 <= cnt ->
  start + cnt <= bit_cnt b ->
  (forall b', bits_set b b' (in_group start cnt) (fun _ => v) -> Q tt b') ->
  wp (bitmap_set_multiple start cnt v) b Q.
Proof.
  intros H Hs Hc He HQ. apply wp_group_guard; [done..|].
  apply (wp_bitmap_set_multiple_loop b); [done..|lia|lia| |done].
  eapply bits_set_ext; [by apply bits_set_refl|]. intros j. unfold in_group. zcases; simpl; lia || done.
Qed.

Lemma wp_bitmap_count start cnt v b Q : bitmap_ok b -> 0 <= start -> 0 <= cnt ->
  start + cnt <= bit_cnt b -> Q (count_bits b start cnt v) b ->
  wp (bitmap_count start cnt v) b Q.
Proof.
  intros H Hs Hc He HQ. apply wp_group_guard; [done..|].
  apply (wp_bitmap_count_loop b); [done..|lia|lia|lia|]. by rewrite Z.add_0_r, Z.sub_0_r.
Qed.

Lemma wp_bitmap_contains start cnt v b Q : bitmap_ok b -> 0 <= start -> 0 <= cnt ->
  start + cnt <= bit_cnt b ->
  (forall r, (r = false <-> group b start cnt (negb v)) -> Q r b) ->
  wp (bitmap_contains start cnt v) b Q.
Proof.
  intros H Hs Hc He HQ. apply wp_group_guard; [done..|].
  apply (wp_bitmap_contains_loop b); [done..|lia|lia|]. rewrite Z.add_0_r, Z.sub_0_r. auto.
Qed.

Lemma wp_bitmap_set_all v b Q : bitmap_ok b ->
  (forall b', bits_set b b' (fun _ => true) (fun _ => v) -> Q tt b') ->
  wp (bitmap_set_all v) b Q.
Proof.
  intros H HQ. pose proof (ok_cnt b H). apply wp_bind, wp_gets, wp_bitmap_set_multiple; [done|lia|urange; lia|lia|].
  intros b' (? & ? & ? & Hb). apply HQ. split_and!; [done..|]. intros i Hi. rewrite Hb by done.
  unfold in_group. zcases; simpl; lia || done.
Qed.

(** ** First fit *)

Definition scan_result (b : bitmap) (start cnt : Z) (v : bool) (r : Z) : Prop :=
  (start <= r /\ r + cnt <= bit_cnt b /\ group b r cnt v /\
     forall k, start <= k < r -> ~ group b k cnt v) \/
  (r = BITMAP_ERROR /\ forall k, start <= k -> k + cnt <= bit_cnt b -> ~ group b k cnt v).

Lemma wp_bitmap_scan_loop fuel b start cnt i v Q : bitmap_ok b -> 0 <= cnt <= bit_cnt b ->
  0 <= start <= i -> i <= bit_cnt b -> (Z.to_nat (bit_cnt b - cnt + 1 - i) < fuel)%nat ->
  (forall k, start <= k < i -> ~ group b k cnt v) ->
  (forall r, scan_result b start cnt v r -> Q r b) ->
  wp (bitmap_scan_loop fuel (bit_cnt b - cnt) cnt i v) b Q.
Proof.
  intros H Hc. revert i. induction fuel as [|fuel IH]; intros i Hs Hi Hf Hno HQ; [lia|]. simpl.
  destruct (Z.leb_spec i (bit_cnt b - cnt)).
  - apply wp_bind, wp_bitmap_contains; [done|lia..|]. rewrite negb_involutive. intros [] Hr.
    + assert (~ group b i cnt v) as Hn by (intros Hg; by apply Hr in Hg).
      assert (0 < cnt) by (destruct (decide (cnt = 0)) as [->|]; [|lia]; exfalso; apply Hn; intros j Hj; lia).
      rewrite u32_small by (pose proof (ok_cnt b H); urange; lia).
      apply IH; [lia|lia|lia| |done]. intros k Hk.
      destruct (decide (k = i)) as [->|]; [done|apply Hno; lia].
    + apply wp_ret, HQ. left. split_and!; [lia|lia|by apply Hr|done].
  - apply wp_ret, HQ. right. split; [done|]. intros k Hk1 Hk2. apply Hno. lia.
Qed.

Lemma wp_bitmap_scan start cnt v b Q : bitmap_ok b -> 0 <= start <= bit_cnt b -> 0 <= cnt ->
  (forall r, scan_result b start cnt v r -> Q r b) -> wp (bitmap_scan start cnt v) b Q.
Proof.
  intros H Hs Hc HQ. apply wp_bind, wp_gets, wp_bind, wp_assert; [apply Z.leb_le; lia|].
  destruct (Z.leb_spec cnt (bit_cnt b)).
  - assert (bit_cnt b -u cnt = bit_cnt b - cnt) as ->
      by (pose proof (ok_cnt b H); apply u32_small; urange; lia).
    apply (wp_bitmap_scan_loop _ b start); [done|lia..| |done]. intros k Hk; lia.
  - apply wp_ret, HQ. right. split; [done|]. intros k ? ?. lia.
Qed.

Lemma wp_bitmap_scan_and_flip start cnt v b Q : bitmap_ok b -> 0 <= start <= bit_cnt b -> 0 <= cnt ->
  (forall r b', scan_result b start cnt v r ->
     (r = BITMAP_ERROR /\ b' = b \/
      r <> BITMAP_ERROR /\ bits_set b b' (in_group r cnt) (fun _ => negb v)) -> Q r b') ->
  wp (bitmap_scan_and_flip start cnt v) b Q.
Proof.
  intros H Hs Hc HQ. apply wp_bind, wp_bitmap_scan; [done|lia..|]. intros r Hr. apply wp_bind.
  destruct (Z.eqb_spec r BITMAP_ERROR) as [->|Hne].
  - apply wp_ret, wp_ret, HQ; [done|by left].
  - destruct Hr as [(? & ? & ? & ?)|[? _]]; [|done].
    apply wp_bitmap_set_multiple; [done|lia..|]. intros b' Hb'. apply wp_ret, HQ; [by left|by right].
Qed.

(** ** Properties *)

Definition demo_bitmap : bitmap := mk_bitmap 40 [0xF00F; 0x1].

Lemma demo_bitmap_ok : bitmap_ok demo_bitmap.
Proof. split; simpl; [done|done|]. repeat constructor; done. Qed.

(** [bitmap_set_multiple] sets exactly the bits of the group when the
    group lies within the bitmap, and stops at an assertion when the group
    reaches beyond the last bit. *)
Theorem bitmap_set_multiple_correct (b : bitmap) (start cnt : Z) (v : bool) :
  bitmap_ok b -> is_u32 start -> is_u32 cnt ->
  (start + cnt <= bit_cnt b -> exists b', bitmap_set_multiple start cnt v b = Ret (tt, b') /\
     bits_set b b' (in_group start cnt) (fun _ => v)) /\
  (bit_cnt b < start + cnt < 2 ^ 32 -> bitmap_set_multiple start cnt v b = Panic).
Proof.
  intros H Hs Hc. split.
  - intros He. apply wp_run_unit. apply wp_bitmap_set_multiple; [done|urange; lia..|done].
  - intros Hlt. unfold bitmap_set_multiple. rewrite (u32_small (start + cnt)) by (urange; lia).
    unfold mbind, ST_bind, ASSERT. simpl. zcases; done || lia.
Qed.

Lemma bitmap_set_multiple_correct_witness :
  exists b', bitmap_set_multiple 30 4 true demo_bitmap = Ret (tt, b') /\
    bits_set demo_bitmap b' (in_group 30 4) (fun _ => true).
Proof.
  apply (bitmap_set_multiple_correct demo_bitmap 30 4 true);
    [apply demo_bitmap_ok|split; (discriminate || reflexivity)..|discriminate].
Defined.

(** [bitmap_scan] is first fit: it returns the least index at or after
    [start] at which [cnt] consecutive bits have the value, or
    [BITMAP_ERROR] exactly when there is none; it does not change the
    bitmap. *)
Theorem bitmap_scan_correct (b : bitmap) (start cnt : Z) (v : bool) :
  bitmap_ok b -> 0 <= start <= bit_cnt b -> 0 <= cnt ->
  exists r, bitmap_scan start cnt v b = Ret (r, b) /\ scan_result b start cnt v r.
Proof. intros H Hs Hc. apply wp_run_read. by apply wp_bitmap_scan. Qed.

Lemma bitmap_scan_correct_witness :
  exists r, bitmap_scan 2 17 false demo_bitmap = Ret (r, demo_bitmap) /\
    scan_result demo_bitmap 2 17 false r.
Proof.
  apply (bitmap_scan_correct demo_bitmap 2 17 false);
    [apply demo_bitmap_ok|split; discriminate|discriminate].
Defined.

Example bitmap_scan_demo :
  bitmap_scan 2 16 false demo_bitmap = Ret (16, demo_bitmap) /\
  bitmap_scan 2 17 false demo_bitmap = Ret (BITMAP_ERROR, demo_bitmap).
Proof. split; reflexivity. Qed.

(** [bitmap_scan_and_flip] allocates: it returns the first group of
    [cnt] > 0 bits equal to [v] and flips exactly that group, so the group
    is disjoint from every group a later call can return; without such a
    group it returns [BITMAP_ERROR] and changes nothing. *)
Theorem bitmap_scan_and_flip_correct (b : bitmap) (start cnt : Z) (v : bool) :
  bitmap_ok b -> 0 <= start <= bit_cnt b -> 0 < cnt ->
  exists r b', bitmap_scan_and_flip start cnt v b = Ret (r, b') /\ scan_result b start cnt v r /\
    (r = BITMAP_ERROR /\ b' = b \/
     r <> BITMAP_ERROR /\ bits_set b b' (in_group r cnt) (fun _ => negb v) /\
     forall start' cnt' r', 0 < cnt' -> r' <> BITMAP_ERROR -> 0 <= start' ->
       scan_result b' start' cnt' v r' -> r' + cnt' <= r \/ r + cnt <= r').
Proof.
  intros H Hs Hc. apply wp_run. apply wp_bitmap_scan_and_flip; [done|done|lia|]. intros r b' Hr Hb.
  split; [done|]. destruct Hb as [?|[Hne Hb]]; [by left|right]. split_and!; [done..|].
  intros s' c' r' Hc' Hne' Hs' [(Hlo & Hhi & Hg & _)|[? _]]; [|done].
  destruct (decide (r' + c' <= r \/ r + cnt <= r')); [done|exfalso].
  destruct Hr as [(Hlor & Hhir & _)|[? _]]; [|done]. destruct Hb as (_ & Ecnt & _ & Hb).
  specialize (Hg (Z.max r r')). specialize (Hb (Z.max r r')). rewrite Hg in Hb by lia.
  rewrite Ecnt in Hhi. unfold in_group in Hb.
  assert (v = negb v) as Hv; [|by destruct v].
  rewrite Hb at 1 by lia. zcases; simpl; lia || done.
Qed.

Lemma bitmap_scan_and_flip_correct_witness :
  exists r b', bitmap_scan_and_flip 0 8 false demo_bitmap = Ret (r, b') /\
    scan_result demo_bitmap 0 8 false r.
Proof.
  destruct (bitmap_scan_and_flip_correct demo_bitmap 0 8 false) as (r & b' & ? & ? & _);
    [apply demo_bitmap_ok|split; discriminate|reflexivity|exists r, b'; auto].
Defined.

(** The counting and testing functions agree with the bits: the count
    is the number of bits with the value, [bitmap_any], [bitmap_none] and
    [bitmap_all] decide the three quantified statements, and none of them
    changes the bitmap. *)
Theorem bitmap_tests_correct (b : bitmap) (start cnt : Z) (v : bool) :
  bitmap_ok b -> 0 <= start -> 0 <= cnt -> start + cnt <= bit_cnt b ->
  bitmap_count start cnt v b = Ret (count_bits b start cnt v, b) /\
  (exists r, bitmap_any start cnt b = Ret (r, b) /\
     (r = true <-> exists i, start <= i < start + cnt /\ bit b i = true)) /\
  (exists r, bitmap_none start cnt b = Ret (r, b) /\ (r = true <-> group b start cnt false)) /\
  (exists r, bitmap_all start cnt b = Ret (r, b) /\ (r = true <-> group b start cnt true)).
Proof.
  intros H Hs Hc He. split_and!.
  - destruct (wp_run_read (bitmap_count start cnt v) b (eq (count_bits b start cnt v)))
      as (a & E & <-); [by apply wp_bitmap_count|done].
  - apply wp_run_read, wp_bitmap_contains; [done..|]. intros r Hr. split; [done|]. split.
    + intros ->. destruct (decide (Forall (fun i => bit b i = false) (seqZ start cnt))) as [Hall|Hex].
      * assert (true = false); [|done]. apply Hr. intros i Hi. rewrite Forall_forall in Hall. apply Hall.
        apply elem_of_seqZ. lia.
      * apply not_Forall_Exists in Hex; [|apply _]. apply Exists_exists in Hex as (i & Hi & Hb).
        apply elem_of_seqZ in Hi. exists i. split; [lia|]. by apply not_false_is_true.
    + intros (i & Hi & Hb). destruct r; [done|]. assert (bit b i = false) by (by apply Hr). congruence.
  - apply wp_run_read, wp_bind, wp_bitmap_contains; [done..|]. intros r Hr. apply wp_ret. split; [done|].
    rewrite negb_true_iff. apply Hr.
  - apply wp_run_read, wp_bind, wp_bitmap_contains; [done..|]. intros r Hr. apply wp_ret. split; [done|].
    rewrite negb_true_iff. apply Hr.
Qed.

Lemma bitmap_tests_correct_witness :
  bitmap_count 0 40 true demo_bitmap = Ret (count_bits demo_bitmap 0 40 true, demo_bitmap).
Proof.
  apply (bitmap_tests_correct demo_bitmap 0 40 true);
    [apply demo_bitmap_ok|discriminate|discriminate|discriminate].
Defined.

(** [bitmap_create] returns a bitmap with all bits false whatever the
    freshly allocated memory held, and null exactly when an allocation it
    needs failed; [elem_cnt] elements are enough for the bits. *)
Theorem bitmap_create_correct (cnt : Z) (words : list Z) :
  0 <= cnt <= 2 ^ 32 - 32 -> Forall is_u32 words -> length words = Z.to_nat (elem_cnt cnt) ->
  (exists b, bitmap_create true (Some words) cnt = Ret (Some b) /\ bitmap_ok b /\
     bit_cnt b = cnt /\ group b 0 cnt false) /\
  (forall blk, bitmap_create false blk cnt = Ret None) /\
  (0 < cnt -> bitmap_create true None cnt = Ret None).
Proof.
  intros Hc Hw Hl.
  assert (Ee : elem_cnt cnt = (cnt + 31) / 32).
  { unfold elem_cnt, DIV_ROUND_UP, ELEM_BITS.
    assert (E : (cnt +u 32) -u 1 = cnt + 31).
    { unfold u32. rewrite Zminus_mod_idemp_l, Z.mod_small; urange; lia. }
    by rewrite E. }
  assert (Hlen : cnt <= 32 * length words).
  { rewrite Hl, Ee. pose proof (Z.div_mod (cnt + 31) 32). pose proof (Z.mod_pos_bound (cnt + 31) 32). lia. }
  assert (Hok : bitmap_ok (mk_bitmap cnt words)) by (split; simpl; [urange; lia|done|done]).
  split_and!; [|done|intros Hpos; unfold bitmap_create; destruct (Z.eqb_spec cnt 0); [lia|done]].
  destruct (wp_run_unit (bitmap_set_all false) (mk_bitmap cnt words)
    (fun b => bits_set (mk_bitmap cnt words) b (fun _ => true) (fun _ => false))) as (b & E & Hb & Ec & _ & Hv).
  { by apply wp_bitmap_set_all. }
  exists b. unfold bitmap_create. rewrite E. simpl. split_and!; [done..|]. intros i Hi. apply Hv. simpl. lia.
Qed.

Lemma bitmap_create_correct_witness :
  exists b, bitmap_create true (Some [123; 456]) 40 = Ret (Some b) /\ bit_cnt b = 40.
Proof.
  destruct (bitmap_create_correct 40 [123; 456]) as ((b & ? & _ & ? & _) & _);
    [split; discriminate|repeat constructor; discriminate|reflexivity|exists b; auto].
Defined.
