(* ===== verification/Hash.v ===== *)
(** * Hash tables: lib/kernel/hash.c

    A table is an array of buckets, each a list of elements.  Buckets are
    modelled by the sequences their lists represent: [list_push_front] is
    [::], [list_remove] takes the element out of the sequence it is in, and
    a loop from [list_begin] to [list_end] runs over the sequence (Dlist.v
    and DlistOps.v prove this of the pointer code).  The client's [hash] and
    [less] functions are parameters, as they are fields of [struct hash];
    the outcome of each [malloc] is an argument. *)

From S2P Require Import Prelude DlistSort.

(** [struct hash] without the function pointers. *)
Record hash (E : Type) := mk_hash { helem_cnt : Z; bucket_cnt : Z; buckets : list (list E) }.
Arguments mk_hash {E}.
Arguments helem_cnt {E}.
Arguments bucket_cnt {E}.
Arguments buckets {E}.

Definition set_cnt {E} (f : Z -> Z) (h : hash E) : hash E :=
  mk_hash (f (helem_cnt h)) (bucket_cnt h) (buckets h).
Definition set_buckets {E} (bs : list (list E)) (h : hash E) : hash E :=
  mk_hash (helem_cnt h) (bucket_cnt h) bs.

(** [&h->buckets[i]]; an index outside the array faults. *)
Definition get_bucket {E} (i : Z) : ST (hash E) (list E) := fun h =>
  match buckets h !! Z.to_nat i with Some b => Ret (b, h) | None => Panic end.
Definition put_bucket {E} (i : Z) (b : list E) : ST (hash E) unit :=
  modify (fun h => set_buckets (<[Z.to_nat i := b]> (buckets h)) h).

(** ** Sizes *)

Definition turn_off_least_1bit (x : Z) : Z := Z.land x (x -u 1).
Definition is_power_of_2 (x : Z) : bool := negb (x =? 0) && (turn_off_least_1bit x =? 0).
Definition MIN_ELEMS_PER_BUCKET : Z := 1.
Definition BEST_ELEMS_PER_BUCKET : Z := 2.
Definition MAX_ELEMS_PER_BUCKET : Z := 4.

(** [while (!is_power_of_2 (n)) n = turn_off_least_1bit (n);] clears one of
    32 bits per iteration. *)
Fixpoint to_power_of_2 (fuel : nat) (n : Z) : outcome Z :=
  match fuel with
  | O => OutOfFuel
  | S fuel => if is_power_of_2 n then Ret n else to_power_of_2 fuel (turn_off_least_1bit n)
  end.

Definition ideal_bucket_cnt (elem_cnt : Z) : outcome Z :=
  let n := elem_cnt / BEST_ELEMS_PER_BUCKET in
  to_power_of_2 33 (if n <? 4 then 4 else n).

(** ** The table *)

Section Table.
Context {E : Type} `{!EqDecision E}.
Variables (hash_func : E -> Z) (less : E -> E -> bool).

Definition find_bucket (e : E) : ST (hash E) Z :=
  n ← gets bucket_cnt;
  mret (Z.land (hash_func e) (n -u 1)).

Fixpoint find_elem_loop (l : list E) (e : E) : option E :=
  match l with
  | [] => None
  | hi :: l => if negb (less hi e) && negb (less e hi) then Some hi else find_elem_loop l e
  end.

Definition find_elem (bucket : Z) (e : E) : ST (hash E) (option E) :=
  b ← get_bucket bucket;
  mret (find_elem_loop b e).

Definition insert_elem (bucket : Z) (e : E) : ST (hash E) unit :=
  modify (set_cnt (fun n => n +u 1));;
  b ← get_bucket bucket;
  put_bucket bucket (e :: b).

(** [list_remove] finds the list through the element's links. *)
Definition unlink (e : E) : ST (hash E) unit := fun h =>
  match list_find (fun b => e ∈ b) (buckets h) with
  | Some (i, b) => Ret (tt, set_buckets (<[i := filter (fun x => x <> e) b]> (buckets h)) h)
  | None => Panic
  end.

Definition remove_elem (e : E) : ST (hash E) unit :=
  modify (set_cnt (fun n => n -u 1));;
  unlink e.

(** The inner loop of [rehash] over one old bucket. *)
Fixpoint rehash_bucket (old_bucket : list E) : ST (hash E) unit :=
  match old_bucket with
  | [] => mret tt
  | elem :: rest =>
    i ← find_bucket elem;
    b ← get_bucket i;
    put_bucket i (elem :: b);;
    rehash_bucket rest
  end.

Fixpoint rehash_buckets (old_buckets : list (list E)) : ST (hash E) unit :=
  match old_buckets with
  | [] => mret tt
  | b :: rest => rehash_bucket b;; rehash_buckets rest
  end.

(** [mem] says whether the [malloc] of the new array succeeded. *)
Definition rehash (mem : bool) : ST (hash E) unit := fun h =>
  new_bucket_cnt ← ideal_bucket_cnt (helem_cnt h);
  if new_bucket_cnt =? bucket_cnt h then Ret (tt, h)
  else if negb mem then Ret (tt, h)
  else rehash_buckets (buckets h)
         (mk_hash (helem_cnt h) new_bucket_cnt (replicate (Z.to_nat new_bucket_cnt) [])).

(** The loop of [hash_clear]: the destructor sees the elements in bucket
    order, then every bucket is an empty list. *)
Fixpoint hash_clear_bucket {S} (destructor : E -> ST S unit) (b : list E) : ST S unit :=
  match b with
  | [] => mret tt
  | e :: b => destructor e;; hash_clear_bucket destructor b
  end.

Fixpoint hash_clear_loop {S} (destructor : option (E -> ST S unit)) (bs : list (list E)) : ST S (list (list E)) :=
  match bs with
  | [] => mret []
  | b :: bs =>
    match destructor with Some d => hash_clear_bucket d b | None => mret tt end;;
    bs' ← hash_clear_loop destructor bs;
    mret ([] :: bs')
  end.

Definition hash_clear {S} (destructor : option (E -> ST S unit)) (h : hash E) : ST S (hash E) :=
  bs ← hash_clear_loop destructor (buckets h);
  mret (mk_hash 0 (bucket_cnt h) bs).

(** [block]: the memory of the four buckets, [None] when [malloc] failed. *)
Definition hash_init {S} (block : option (list (list E))) : ST S (bool * hash E) :=
  match block with
  | Some bs => h ← hash_clear None (mk_hash 0 4 bs); mret (true, h)
  | None => mret (false, mk_hash 0 4 [])
  end.

Definition hash_insert (mem : bool) (new : E) : ST (hash E) (option E) :=
  bucket ← find_bucket new;
  old ← find_elem bucket new;
  (match old with None => insert_elem bucket new | Some _ => mret tt end);;
  rehash mem;;
  mret old.

Definition hash_replace (mem : bool) (new : E) : ST (hash E) (option E) :=
  bucket ← find_bucket new;
  old ← find_elem bucket new;
  (match old with Some o => remove_elem o | None => mret tt end);;
  insert_elem bucket new;;
  rehash mem;;
  mret old.

Definition hash_find (e : E) : ST (hash E) (option E) :=
  bucket ← find_bucket e;
  find_elem bucket e.

(** The assertion of the missing case holds of every table: its condition
    is a non-null string. *)
Definition hash_delete (mem : bool) (e : E) : ST (hash E) (option E) :=
  bucket ← find_bucket e;
  found ← find_elem bucket e;
  match found with
  | Some f => remove_elem f;; rehash mem
  | None => ASSERT true
  end;;
  mret found.

(** [hash_apply] runs the action, on a state of the client's, over every
    element of every bucket. *)
Fixpoint hash_apply_bucket {S} (action : E -> ST S unit) (b : list E) : ST S unit :=
  match b with
  | [] => mret tt
  | elem :: next => action elem;; hash_apply_bucket action next
  end.

Fixpoint hash_apply_loop {S} (action : E -> ST S unit) (bs : list (list E)) : ST S unit :=
  match bs with
  | [] => mret tt
  | b :: bs => hash_apply_bucket action b;; hash_apply_loop action bs
  end.

Definition hash_apply {S} (action : E -> ST S unit) (h : hash E) : ST S unit :=
  hash_apply_loop action (buckets h).

Definition hash_size (h : hash E) : Z := helem_cnt h.
Definition hash_empty (h : hash E) : bool := helem_cnt h =? 0.

(** ** Iterators

    [it_elem] is a position in the bucket's list: [Some 0] is its head
    cell, [Some (S k)] its [k]-th element, one past the last element its
    tail cell; [None] is the null pointer. *)
Record hash_iterator := mk_iter { it_bucket : nat; it_elem : option nat }.

Definition hash_first : hash_iterator := mk_iter 0 (Some 0%nat).

Definition elem_at (h : hash E) (b p : nat) : option E :=
  match buckets h !! b, p with
  | Some l, S k => l !! k
  | _, _ => None
  end.

Definition hash_cur (h : hash E) (i : hash_iterator) : option E :=
  match it_elem i with Some p => elem_at h (it_bucket i) p | None => None end.

(** [while (i->elem == list_end (i->bucket)) ...]: one iteration per bucket. *)
Fixpoint hash_next_loop (fuel : nat) (h : hash E) (b p : nat) : outcome hash_iterator :=
  match fuel with
  | O => OutOfFuel
  | S fuel =>
    match buckets h !! b with
    | None => Panic
    | Some l =>
      if Nat.eqb p (S (length l)) then
        if bucket_cnt h <=? Z.of_nat (S b) then Ret (mk_iter (S b) None)
        else hash_next_loop fuel h (S b) 1
      else Ret (mk_iter b (Some p))
    end
  end.

(** [list_next] of the tail fails its assertion. *)
Definition hash_next (h : hash E) (i : hash_iterator) : outcome (option E * hash_iterator) :=
  match it_elem i, buckets h !! it_bucket i with
  | Some p, Some l =>
    check (Nat.leb p (length l));;
    i' ← hash_next_loop (S (length (buckets h))) h (it_bucket i) (S p);
    Ret (hash_cur h i', i')
  | _, _ => Panic
  end.
End Table.

(** ** Hash functions *)

Definition FNV_32_PRIME : Z := 16777619.
Definition FNV_32_BASIS : Z := 2166136261.

Definition fnv_step (hash byte : Z) : Z := Z.lxor (hash *u FNV_32_PRIME) byte.

(** [while (size-- > 0) hash = (hash * FNV_32_PRIME) ^ *buf++;] *)
Fixpoint hash_bytes_loop (hash : Z) (buf : list Z) : Z :=
  match buf with
  | [] => hash
  | b :: buf => hash_bytes_loop (fnv_step hash b) buf
  end.

(** The [size] bytes at [buf]; fewer bytes in the memory than [size] fault. *)
Definition hash_bytes (buf : list Z) (size : Z) : outcome Z :=
  if size <=? length buf then Ret (hash_bytes_loop FNV_32_BASIS (take (Z.to_nat size) buf))
  else Panic.

Fixpoint hash_string_loop (hash : Z) (s : list Z) : outcome Z :=
  match s with
  | [] => Panic
  | c :: s => if c =? 0 then Ret hash else hash_string_loop (fnv_step hash c) s
  end.

Definition hash_string (s : list Z) : outcome Z := hash_string_loop FNV_32_BASIS s.

(** The four bytes of a 32-bit integer in memory, least significant first. *)
Definition le_bytes (i : Z) : list Z :=
  [u8 i; u8 (Z.shiftr i 8); u8 (Z.shiftr i 16); u8 (Z.shiftr i 24)].

Definition hash_int (i : Z) : outcome Z := hash_bytes (le_bytes i) 4.
