(* ===== verification/HashProps.v ===== *)
(** * Hash tables implement dictionaries

    The elements of a table, its invariant, the lemma of each operation of
    Hash.v and the properties: the table behaves as a set of elements with
    pairwise different keys, whether or not the allocations of [rehash]
    succeed. *)

From S2P Require Import Prelude DlistSort Hash.

(** ** The number of buckets *)

(** A positive number is a power of two times an odd number. *)
Lemma odd_part x : 0 < x -> exists k m, 0 <= k /\ 0 <= m /\ x = 2 ^ k * (2 * m + 1).
Proof.
  intros Hx. destruct x as [|p|]; [lia| |lia]. induction p as [p IH|p IH|].
  - exists 0, (Z.pos p). lia.
  - destruct IH as (k & m & Hk & Hm & E); [lia|]. exists (k + 1), m.
    rewrite Z.pow_add_r by lia. lia.
  - exists 0, 0. lia.
Qed.

Lemma turn_off_odd_part k m : 0 <= k -> 0 <= m -> 2 ^ k * (2 * m + 1) < 2 ^ 32 ->
  turn_off_least_1bit (2 ^ k * (2 * m + 1)) = 2 ^ (k + 1) * m.
Proof.
  intros Hk Hm Hr. unfold turn_off_least_1bit.
  assert (Hp : 0 < 2 ^ k) by (apply Z.pow_pos_nonneg; lia).
  assert (Hs : 2 ^ (k + 1) = 2 * 2 ^ k) by (rewrite Z.pow_add_r by lia; lia).
  rewrite u32_small by (urange; nia). apply Z.bits_inj'. intros i Hi. rewrite Z.land_spec.
  replace (2 ^ k * (2 * m + 1)) with (2 ^ k + m * 2 ^ (k + 1)) by lia.
  replace (2 ^ k + m * 2 ^ (k + 1) - 1) with ((2 ^ k - 1) + m * 2 ^ (k + 1)) by lia.
  replace (2 ^ (k + 1) * m) with (0 + m * 2 ^ (k + 1)) by lia.
  rewrite !testbit_split by lia. destruct (i <? k + 1); [|apply andb_diag].
  rewrite Z.bits_0, Z.pow2_bits_eqb by lia. destruct (Z.eqb_spec k i) as [<-|]; [|done].
  rewrite (testbit_above _ k) by lia. done.
Qed.

Lemma to_power_of_2_spec (fuel : nat) x k m : 0 <= k -> 0 <= m -> x = 2 ^ k * (2 * m + 1) -> x < 2 ^ 32 ->
  32 < k + fuel -> to_power_of_2 fuel x = Ret (2 ^ Z.log2 x).
Proof.
  revert x k m. induction fuel as [|fuel IH]; intros x k m Hk Hm Hx Hr Hf.
  { exfalso. assert (2 ^ 32 <= 2 ^ k) by (apply Z.pow_le_mono_r; lia). nia. }
  assert (Hp : 0 < 2 ^ k) by (apply Z.pow_pos_nonneg; lia).
  simpl. unfold is_power_of_2. rewrite Hx, turn_off_odd_part by (lia || (by rewrite <- Hx)). rewrite <- Hx.
  assert (E0 : x =? 0 = false) by (apply Z.eqb_neq; nia). rewrite E0. simpl.
  assert (Hs : 2 ^ (k + 1) = 2 * 2 ^ k) by (rewrite Z.pow_add_r by lia; lia).
  destruct (Z.eqb_spec (2 ^ (k + 1) * m) 0) as [E|Hne].
  - assert (m = 0) as -> by nia. rewrite Z.mul_1_r in Hx. subst x. by rewrite Z.log2_pow2.
  - assert (Hm0 : 0 < m) by lia. destruct (odd_part m Hm0) as (k' & m' & Hk' & Hm' & Em).
    rewrite (IH _ (k + 1 + k') m'); [|lia|lia|rewrite Em, (Z.pow_add_r 2 (k + 1)) by lia; lia|nia|lia].
    do 2 f_equal. rewrite Hx, !(Z.mul_comm (2 ^ _)), !Z.log2_mul_pow2 by lia.
    rewrite Z.log2_succ_double by lia. lia.
Qed.

Lemma ideal_bucket_cnt_spec n : is_u32 n ->
  ideal_bucket_cnt n = Ret (2 ^ Z.log2 (Z.max 4 (n / 2))) /\
  2 <= Z.log2 (Z.max 4 (n / 2)) <= 31.
Proof.
  intros Hn. unfold ideal_bucket_cnt, BEST_ELEMS_PER_BUCKET. set (x := if _ <? _ then _ else _).
  assert (Hx : x = Z.max 4 (n / 2)) by (subst x; zcases; lia).
  assert (Hr : 4 <= x < 2 ^ 32) by (rewrite Hx; urange; Z.to_euclidean_division_equations; lia).
  rewrite <- Hx. clearbody x. split.
  - destruct (odd_part x) as (k & m & ? & ? & ?); [lia|]. eapply to_power_of_2_spec; [..|done|lia|lia]; lia.
  - split; [apply (Z.log2_le_mono 4); lia|]. apply Z.lt_succ_r. apply Z.log2_lt_pow2; lia.
Qed.

(** ** Elements and invariant *)

(** What hash.h asks of the client's functions: [less] compares keys, and
    elements with the same key have the same hash value. *)
Class HashKey {E : Type} (hash_func : E -> Z) (less : E -> E -> bool) : Prop := {
  key_less :: StrictWeak less;
  hash_compat a b : same_key less a b = true -> hash_func a = hash_func b
}.

Definition elements {E} (h : hash E) : list E := concat (buckets h).

(** Pairwise different keys. *)
Definition distinct {E} (less : E -> E -> bool) (xs : list E) : Prop :=
  NoDup xs /\ forall x y, x ∈ xs -> y ∈ xs -> same_key less x y = true -> x = y.

(** The element with the key of [k], if there is one. *)
Definition lookup_key {E} (less : E -> E -> bool) (xs : list E) (k : E) : option E :=
  List.find (fun x => same_key less x k) xs.

Section Spec.
Context {E : Type} `{!EqDecision E}.
Context (hash_func : E -> Z) (less : E -> E -> bool) `{!HashKey hash_func less}.
Implicit Types (h : hash E) (e x : E) (xs : list E) (bs : list (list E)).

(** Every element is in the bucket of its hash value. *)
Definition placed (n : Z) bs : Prop :=
  length bs = Z.to_nat n /\
  forall i b e, bs !! i = Some b -> e ∈ b -> i = Z.to_nat (hash_func e mod n).

Record hash_ok h : Prop := {
  ok_pow : exists k, 2 <= k <= 31 /\ bucket_cnt h = 2 ^ k;
  ok_placed : placed (bucket_cnt h) (buckets h);
  ok_count : helem_cnt h = length (elements h);
  ok_bound : length (elements h) < 2 ^ 32;
  ok_distinct : distinct less (elements h);
}.

(** *** Keys *)

Lemma same_key_refl x : same_key less x x = true.
Proof. apply same_key_spec. by rewrite (less_irrefl less). Qed.
Lemma same_key_sym x y : same_key less x y = true -> same_key less y x = true.
Proof. rewrite !same_key_spec. tauto. Qed.
Lemma same_key_trans x y z : same_key less x y = true -> same_key less y z = true -> same_key less x z = true.
Proof. rewrite !same_key_spec. intros [] []. split; by eapply (less_negtrans (less := less)). Qed.

Lemma distinct_perm xs ys : xs ≡ₚ ys -> distinct less xs -> distinct less ys.
Proof. intros Hp [Hn Hd]. split; [by rewrite <- Hp|]. intros x y Hx Hy. apply Hd; by rewrite Hp. Qed.

Lemma lookup_key_Some xs k x : lookup_key less xs k = Some x -> x ∈ xs /\ same_key less x k = true.
Proof. intros [Hin Hk]%List.find_some. split; [by apply list_elem_of_In|done]. Qed.

Lemma lookup_key_None xs k : lookup_key less xs k = None -> forall x, x ∈ xs -> same_key less x k = false.
Proof. intros Hn x Hx. eapply List.find_none in Hn; [done|by apply list_elem_of_In]. Qed.

Lemma lookup_key_unique xs k x : distinct less xs -> x ∈ xs -> same_key less x k = true ->
  lookup_key less xs k = Some x.
Proof.
  intros [_ Hd] Hx Hk. destruct (lookup_key less xs k) as [y|] eqn:El.
  - apply lookup_key_Some in El as [Hy Hyk]. f_equal. apply Hd; [done..|].
    eapply same_key_trans; [done|by apply same_key_sym].
  - by rewrite (lookup_key_None _ _ El x Hx) in Hk.
Qed.

Lemma lookup_key_absent xs k : (forall x, x ∈ xs -> same_key less x k = false) -> lookup_key less xs k = None.
Proof.
  intros Hn. destruct (lookup_key less xs k) as [y|] eqn:El; [|done].
  apply lookup_key_Some in El as [Hy Hyk]. by rewrite Hn in Hyk.
Qed.

Lemma lookup_key_perm xs ys k : distinct less xs -> xs ≡ₚ ys -> lookup_key less xs k = lookup_key less ys k.
Proof.
  intros Hd Hp. destruct (lookup_key less ys k) as [y|] eqn:El.
  - apply lookup_key_Some in El as [Hy Hk]. apply lookup_key_unique; [done|by rewrite Hp|done].
  - apply lookup_key_absent. intros x Hx. eapply lookup_key_None; [done|by rewrite <- Hp].
Qed.

(** *** Buckets *)

Lemma concat_split bs i b : bs !! i = Some b ->
  exists rest, concat bs ≡ₚ b ++ rest /\ forall b', concat (<[i := b']> bs) ≡ₚ b' ++ rest.
Proof.
  intros Hi. exists (concat (take i bs) ++ concat (drop (S i) bs)).
  pose proof (lookup_lt_Some _ _ _ Hi) as Hl. split.
  - rewrite <- (take_drop_middle bs i b Hi) at 1. rewrite concat_app. simpl. solve_Permutation.
  - intros b'. rewrite insert_take_drop by done. rewrite concat_app. simpl. solve_Permutation.
Qed.

Lemma elem_of_concat bs x : x ∈ concat bs <-> exists i b, bs !! i = Some b /\ x ∈ b.
Proof.
  rewrite !list_elem_of_In, in_concat. split.
  - intros (b & Hb & Hx). apply list_elem_of_In in Hb. apply list_elem_of_lookup in Hb as [i Hi].
    exists i, b. by rewrite list_elem_of_In.
  - intros (i & b & Hi & Hx). exists b. split; [|by apply list_elem_of_In].
    apply list_elem_of_In. by eapply list_elem_of_lookup_2.
Qed.

Lemma placed_insert n bs i b' : placed n bs ->
  (forall e, e ∈ b' -> i = Z.to_nat (hash_func e mod n)) -> placed n (<[i := b']> bs).
Proof.
  intros [Hl Hp] Hb. split; [by rewrite length_insert|]. intros j b e Hj He.
  destruct (decide (i = j)) as [<-|Hne].
  - apply list_lookup_insert_Some in Hj as [(_ & -> & _)|[? _]]; [by apply Hb|done].
  - rewrite list_lookup_insert_ne in Hj by done. eauto.
Qed.

Lemma placed_lookup n bs e : 0 < n -> placed n bs -> exists b, bs !! Z.to_nat (hash_func e mod n) = Some b.
Proof.
  intros Hn [Hl _]. pose proof (Z.mod_pos_bound (hash_func e) n Hn).
  apply lookup_lt_is_Some. lia.
Qed.

Lemma pow_pos h : (exists k, 2 <= k <= 31 /\ bucket_cnt h = 2 ^ k) -> 0 < bucket_cnt h.
Proof. intros (k & Hk & ->). apply Z.pow_pos_nonneg; lia. Qed.

Lemma find_bucket_idx h e : (exists k, 2 <= k <= 31 /\ bucket_cnt h = 2 ^ k) ->
  Z.land (hash_func e) (bucket_cnt h -u 1) = hash_func e mod bucket_cnt h.
Proof.
  intros (k & Hk & ->). rewrite u32_small; [apply land_ones_low; lia|].
  assert (1 <= 2 ^ k < 2 ^ 32) by (split; [apply (Z.pow_le_mono_r 2 0)|apply Z.pow_lt_mono_r]; lia).
  urange. lia.
Qed.

Lemma wp_get_bucket h e Q : placed (bucket_cnt h) (buckets h) -> 0 < bucket_cnt h ->
  (forall b, buckets h !! Z.to_nat (hash_func e mod bucket_cnt h) = Some b -> Q b h) ->
  wp (get_bucket (hash_func e mod bucket_cnt h)) h Q.
Proof.
  intros Hp Hn HQ. destruct (placed_lookup _ _ e Hn Hp) as [b Hb]. unfold wp, get_bucket.
  rewrite Hb. by apply HQ.
Qed.

(** The bucket of [k] holds every element with the key of [k]. *)
Lemma find_elem_lookup n bs e b : placed n bs -> distinct less (concat bs) ->
  bs !! Z.to_nat (hash_func e mod n) = Some b ->
  find_elem_loop less b e = lookup_key less (concat bs) e.
Proof.
  intros [_ Hp] Hd Hb.
  assert (find_elem_loop less b e = lookup_key less b e) as ->.
  { clear. induction b as [|x b IH]; [done|]. unfold lookup_key. simpl. unfold same_key at 1.
    by destruct (negb _ && negb _). }
  destruct (lookup_key less b e) as [x|] eqn:El.
  - apply lookup_key_Some in El as [Hx Hk]. symmetry. apply lookup_key_unique; [done| |done].
    apply elem_of_concat. eauto.
  - symmetry. apply lookup_key_absent. intros x (i & b' & Hi & Hx)%elem_of_concat.
    destruct (same_key less x e) eqn:Ek; [|done].
    rewrite <- (hash_compat x e Ek), <- (Hp _ _ _ Hi Hx), Hi in Hb. simplify_eq.
    by rewrite (lookup_key_None _ _ El x Hx) in Ek.
Qed.

Lemma distinct_cons xs e : distinct less xs -> lookup_key less xs e = None -> distinct less (e :: xs).
Proof.
  intros [Hn Hd] Hl. pose proof (lookup_key_None _ _ Hl) as Hno. split.
  - constructor; [|done]. intros He. specialize (Hno e He). by rewrite same_key_refl in Hno.
  - intros x y [->|Hx]%elem_of_cons [->|Hy]%elem_of_cons Hk; [done|..|by apply Hd].
    + apply same_key_sym in Hk. by rewrite Hno in Hk.
    + by rewrite Hno in Hk.
Qed.

Lemma distinct_tail xs e : distinct less (e :: xs) -> distinct less xs /\ lookup_key less xs e = None.
Proof.
  intros [[Hni Hn]%NoDup_cons Hd]. split.
  - split; [done|]. intros x y Hx Hy. apply Hd; by right.
  - apply lookup_key_absent. intros x Hx. destruct (same_key less x e) eqn:Ek; [|done].
    assert (x = e) as -> by (apply Hd; [by right|by left|done]). done.
Qed.

(** *** Moving the elements to new buckets *)

Lemma wp_rehash_bucket l h Q :
  (exists k, 2 <= k <= 31 /\ bucket_cnt h = 2 ^ k) -> placed (bucket_cnt h) (buckets h) ->
  (forall h', helem_cnt h' = helem_cnt h -> bucket_cnt h' = bucket_cnt h ->
     placed (bucket_cnt h') (buckets h') -> elements h' ≡ₚ l ++ elements h -> Q tt h') ->
  wp (rehash_bucket hash_func l) h Q.
Proof.
  revert h. induction l as [|e l IH]; intros h Hpow Hp HQ; [by apply wp_ret, HQ|]. simpl.
  apply wp_bind, wp_bind, wp_gets, wp_ret. rewrite find_bucket_idx by done.
  apply wp_bind, wp_get_bucket; [done|by apply pow_pos|]. intros b Hb.
  apply wp_bind, wp_modify. destruct (concat_split _ _ _ Hb) as (rest & E1 & E2).
  apply IH; simpl; [done| |].
  - apply placed_insert; [done|]. intros x [->|Hx]%elem_of_cons; [done|]. by eapply Hp.
  - intros h' Hc Hn Hp' He'. apply HQ; [done..|]. rewrite He'. unfold elements. simpl.
    rewrite E2, E1. solve_Permutation.
Qed.

Lemma wp_rehash_buckets old h Q :
  (exists k, 2 <= k <= 31 /\ bucket_cnt h = 2 ^ k) -> placed (bucket_cnt h) (buckets h) ->
  (forall h', helem_cnt h' = helem_cnt h -> bucket_cnt h' = bucket_cnt h ->
     placed (bucket_cnt h') (buckets h') -> elements h' ≡ₚ concat old ++ elements h -> Q tt h') ->
  wp (rehash_buckets hash_func old) h Q.
Proof.
  revert h. induction old as [|b old IH]; intros h Hpow Hp HQ; [by apply wp_ret, HQ|]. simpl.
  apply wp_bind, wp_rehash_bucket; [done..|]. intros h1 Hc1 Hn1 Hp1 He1.
  apply IH; [by rewrite Hn1|done|]. intros h' Hc Hn Hp' He'. apply HQ; [congruence..|done|].
  rewrite He', He1. simpl. solve_Permutation.
Qed.

Lemma placed_empty n : placed n (replicate (Z.to_nat n) []).
Proof.
  split; [by rewrite length_replicate|]. intros i b e [-> _]%lookup_replicate_1 He.
  by apply elem_of_nil in He.
Qed.

Lemma concat_empty n : concat (replicate n []) = ([] : list E).
Proof. induction n; done. Qed.

Lemma hash_ok_change h h' : hash_ok h -> (exists k, 2 <= k <= 31 /\ bucket_cnt h' = 2 ^ k) ->
  placed (bucket_cnt h') (buckets h') -> helem_cnt h' = helem_cnt h -> elements h' ≡ₚ elements h -> hash_ok h'.
Proof.
  intros H Hpow Hp Hc He. split; [done|done| | |].
  - rewrite Hc, He. apply H.
  - rewrite He. apply H.
  - by eapply distinct_perm; [|apply H].
Qed.

Lemma wp_rehash mem h Q : hash_ok h ->
  (forall h', hash_ok h' -> elements h' ≡ₚ elements h ->
     (mem = true -> bucket_cnt h' = 2 ^ Z.log2 (Z.max 4 (length (elements h) / 2))) -> Q tt h') ->
  wp (rehash hash_func mem) h Q.
Proof.
  intros H HQ. unfold wp, rehash. rewrite (ok_count h H).
  destruct (ideal_bucket_cnt_spec (length (elements h))) as [-> Hk]; [pose proof (ok_bound h H); urange; lia|].
  simpl. set (n := 2 ^ Z.log2 _) in *.
  destruct (Z.eqb_spec n (bucket_cnt h)) as [En|Hne]; [by apply HQ|].
  destruct mem; [|by apply HQ]. cbn [negb].
  apply (wp_rehash_buckets (buckets h)); simpl; [by eauto|apply placed_empty|].
  intros h' Hc Hn Hp He. unfold elements at 2 in He. simpl in He. rewrite concat_empty, app_nil_r in He.
  apply HQ; [|done..].
  apply (hash_ok_change h); [done|rewrite Hn; by eauto|done|by rewrite Hc, (ok_count h H)|done].
Qed.

(** *** Searching, inserting and removing *)

(** The common start of the four operations. *)
Lemma wp_find_then {A} h e (k : Z -> option E -> ST (hash E) A) Q : hash_ok h ->
  (forall b, buckets h !! Z.to_nat (hash_func e mod bucket_cnt h) = Some b ->
     wp (k (hash_func e mod bucket_cnt h) (lookup_key less (elements h) e)) h Q) ->
  wp (bucket ← find_bucket hash_func e; old ← find_elem less bucket e; k bucket old) h Q.
Proof.
  intros H HQ. apply wp_bind, wp_bind, wp_gets, wp_ret. rewrite find_bucket_idx by apply H.
  apply wp_bind, wp_bind, wp_get_bucket; [apply H|apply pow_pos, H|]. intros b Hb. apply wp_ret.
  rewrite (find_elem_lookup _ (buckets h) e b (ok_placed h H) (ok_distinct h H) Hb). by eapply HQ.
Qed.

Lemma wp_insert_elem h e Q : hash_ok h -> length (elements h) + 1 < 2 ^ 32 ->
  lookup_key less (elements h) e = None ->
  (forall h', hash_ok h' -> bucket_cnt h' = bucket_cnt h -> elements h' ≡ₚ e :: elements h -> Q tt h') ->
  wp (insert_elem (hash_func e mod bucket_cnt h) e) h Q.
Proof.
  intros H Hb Hl HQ. apply wp_bind, wp_modify, wp_bind.
  destruct (placed_lookup _ _ e (pow_pos h (ok_pow h H)) (ok_placed h H)) as [b Hlk].
  unfold wp at 1, get_bucket. simpl. rewrite Hlk. apply wp_modify. unfold set_buckets. simpl.
  destruct (concat_split _ _ _ Hlk) as (rest & E1 & E2).
  assert (Ee : concat (<[Z.to_nat (hash_func e mod bucket_cnt h) := e :: b]> (buckets h)) ≡ₚ e :: elements h)
    by (rewrite E2; unfold elements; rewrite E1; done).
  apply HQ; [|done|done]. split; simpl.
  - apply H.
  - apply placed_insert; [apply H|]. intros x [->|Hx]%elem_of_cons; [done|]. by eapply (ok_placed h H).
  - unfold elements. simpl. rewrite (ok_count h H), Ee. simpl. rewrite u32_small by (urange; lia). lia.
  - unfold elements. simpl. rewrite Ee. simpl. lia.
  - unfold elements. simpl. eapply distinct_perm; [symmetry; exact Ee|]. apply distinct_cons; [apply H|done].
Qed.

Lemma wp_remove_elem h e Q : hash_ok h -> e ∈ elements h ->
  (forall h', hash_ok h' -> bucket_cnt h' = bucket_cnt h -> elements h ≡ₚ e :: elements h' -> Q tt h') ->
  wp (remove_elem e) h Q.
Proof.
  intros H He HQ. apply wp_bind, wp_modify. unfold wp, unlink. simpl.
  destruct (list_find (fun b => e ∈ b) (buckets h)) as [[i b]|] eqn:Ef; cycle 1.
  { apply list_find_None in Ef. apply elem_of_concat in He as (j & b & Hj & Hx).
    rewrite Forall_lookup in Ef. by destruct (Ef j b). }
  apply list_find_Some in Ef as (Hi & Heb & _).
  destruct (concat_split _ _ _ Hi) as (rest & E1 & E2).
  assert (Hnd : NoDup b).
  { pose proof (ok_distinct h H) as [Hn _]. unfold elements in Hn. rewrite E1 in Hn. by apply NoDup_app in Hn as [? _]. }
  assert (Eb : b ≡ₚ e :: filter (fun x => x <> e) b).
  { apply NoDup_Permutation; [done|constructor; [|by apply NoDup_filter]|].
    - by intros [? _]%list_elem_of_filter.
    - intros x. rewrite elem_of_cons, list_elem_of_filter. destruct (decide (x = e)) as [->|]; tauto. }
  set (bs' := <[i := filter (fun x => x <> e) b]> (buckets h)) in *.
  assert (Ee : elements h ≡ₚ e :: concat bs').
  { unfold elements, bs'. rewrite E1, E2. rewrite Eb at 1. done. }
  destruct (distinct_tail (concat bs') e) as [Hd' _]; [by eapply distinct_perm, H|].
  apply HQ; [|done|done]. split; simpl.
  - apply H.
  - apply placed_insert; [apply H|]. intros x [_ Hx]%list_elem_of_filter. by eapply (ok_placed h H).
  - unfold elements. simpl. pose proof (ok_bound h H) as Hbd. rewrite (ok_count h H).
    rewrite Ee in *. simpl in *. rewrite u32_small by (urange; lia). lia.
  - unfold elements. simpl. pose proof (ok_bound h H) as Hbd. rewrite Ee in Hbd. simpl in Hbd. lia.
  - done.
Qed.

(** *** Iteration *)

(** What an iterator at position [p] of bucket [b] has left to visit. *)
Definition remaining h (b p : nat) : list E :=
  drop p (default [] (buckets h !! b)) ++ concat (drop (S b) (buckets h)).

Lemma hash_next_loop_spec fuel h b p l : length (buckets h) = Z.to_nat (bucket_cnt h) ->
  buckets h !! b = Some l -> (p <= length l)%nat -> (length (buckets h) < b + fuel)%nat ->
  match remaining h b p with
  | [] => hash_next_loop fuel h b (S p) = Ret (mk_iter (length (buckets h)) None)
  | e :: rest => exists b' p' l', hash_next_loop fuel h b (S p) = Ret (mk_iter b' (Some (S p'))) /\
      buckets h !! b' = Some l' /\ l' !! p' = Some e /\ rest = remaining h b' (S p')
  end.
Proof.
  intros Hlen. revert b p l. induction fuel as [|fuel IH]; intros b p l Hb Hp Hf;
    pose proof (lookup_lt_Some _ _ _ Hb) as Hlt; [lia|].
  cbn [hash_next_loop]. rewrite Hb. destruct (Nat.eqb_spec (S p) (S (length l))) as [Heq|Hne].
  - assert (Hr : remaining h b p = concat (drop (S b) (buckets h))).
    { unfold remaining. rewrite Hb. simpl. rewrite drop_ge by lia. done. }
    rewrite Hr. destruct (Z.leb_spec (bucket_cnt h) (Z.of_nat (S b))).
    + rewrite drop_ge by lia. simpl. do 2 f_equal. lia.
    + destruct (lookup_lt_is_Some_2 (buckets h) (S b)) as [l2 Hl2]; [lia|].
      specialize (IH (S b) 0%nat l2 Hl2). replace (concat (drop (S b) _)) with (remaining h (S b) 0);
        [apply IH; lia|]. unfold remaining. by rewrite (drop_S _ _ _ Hl2), Hl2.
  - destruct (lookup_lt_is_Some_2 l p) as [e He]; [lia|].
    unfold remaining. rewrite Hb. simpl. rewrite (drop_S _ _ _ He). simpl. exists b, p, l.
    split_and!; [done..|]. by rewrite Hb.
Qed.

Lemma hash_next_spec h b p l : length (buckets h) = Z.to_nat (bucket_cnt h) ->
  buckets h !! b = Some l -> (p <= length l)%nat ->
  match remaining h b p with
  | [] => exists i, hash_next h (mk_iter b (Some p)) = Ret (None, i)
  | e :: rest => exists b' p' l', hash_next h (mk_iter b (Some p)) = Ret (Some e, mk_iter b' (Some p')) /\
      buckets h !! b' = Some l' /\ (p' <= length l')%nat /\ rest = remaining h b' p'
  end.
Proof.
  intros Hlen Hb Hp. pose proof (lookup_lt_Some _ _ _ Hb) as Hlt. unfold hash_next. simpl it_elem. simpl it_bucket.
  rewrite Hb. unfold check. rewrite (proj2 (Nat.leb_le _ _) Hp). cbn [mbind outcome_bind].
  pose proof (hash_next_loop_spec (S (length (buckets h))) h b p l Hlen Hb Hp) as Hloop.
  destruct (remaining h b p) as [|e rest].
  - rewrite Hloop by lia. cbn [mbind outcome_bind]. by eauto.
  - destruct Hloop as (b' & p' & l' & -> & Hb' & He & ->); [lia|]. exists b', (S p'), l'. simpl.
    unfold hash_cur, elem_at. simpl. rewrite Hb', He. split_and!; [done..| |done].
    apply lookup_lt_Some in He. lia.
Qed.
End Spec.

(** The iteration idiom of the comment of [hash_first]: the elements that
    the successive calls of [hash_next] return, up to the null pointer. *)
Fixpoint iterate {E} (fuel : nat) (h : hash E) (i : hash_iterator) : outcome (list E) :=
  match fuel with
  | O => OutOfFuel
  | S fuel =>
    '(r, i) ← hash_next h i;
    match r with
    | None => Ret []
    | Some e => l ← iterate fuel h i; Ret (e :: l)
    end
  end.

Lemma iterate_spec {E} (h : hash E) fuel b p l : length (buckets h) = Z.to_nat (bucket_cnt h) ->
  buckets h !! b = Some l -> (p <= length l)%nat -> (length (remaining h b p) < fuel)%nat ->
  iterate fuel h (mk_iter b (Some p)) = Ret (remaining h b p).
Proof.
  intros Hlen. revert b p l. induction fuel as [|fuel IH]; intros b p l Hb Hp Hf; [lia|].
  pose proof (hash_next_spec h b p l Hlen Hb Hp) as Hn. cbn [iterate].
  destruct (remaining h b p) as [|e rest] eqn:Er.
  - destruct Hn as [i ->]. done.
  - destruct Hn as (b' & p' & l' & -> & Hb' & Hp' & ->). simpl.
    rewrite (IH b' p' l') by (simpl in Hf; done || lia). done.
Qed.

(** ** Dictionaries

    The abstract operations on the elements: what [hash_insert],
    [hash_replace] and [hash_delete] do to the set. *)

Definition dict_insert {E} (less : E -> E -> bool) (xs : list E) (e : E) : list E :=
  match lookup_key less xs e with Some _ => xs | None => e :: xs end.
Definition dict_remove {E} (less : E -> E -> bool) (xs : list E) (e : E) : list E :=
  List.filter (fun x => negb (same_key less x e)) xs.

(** A table [h'] that holds the elements [xs]. *)
Definition holds {E} (hash_func : E -> Z) (less : E -> E -> bool) (xs : list E) (h' : hash E) : Prop :=
  hash_ok hash_func less h' /\ elements h' ≡ₚ xs.

(** The number of buckets [rehash] aims at. *)
Definition ideal (n : Z) : Z := 2 ^ Z.log2 (Z.max 4 (n / 2)).

Section Dict.
Context {E : Type} `{!EqDecision E}.
Context (hash_func : E -> Z) (less : E -> E -> bool) `{!HashKey hash_func less}.
Implicit Types (h : hash E) (e x : E) (xs : list E).

Lemma dict_remove_absent xs e : lookup_key less xs e = None -> dict_remove less xs e = xs.
Proof.
  intros Hl. pose proof (lookup_key_None less xs e Hl) as Hn. unfold dict_remove.
  clear Hl. induction xs as [|x xs IH]; [done|]. simpl. rewrite Hn by by left. simpl.
  f_equal. apply IH. intros y Hy. apply Hn. by right.
Qed.

Lemma dict_remove_found xs ys e x : lookup_key less xs e = Some x -> distinct less xs ->
  xs ≡ₚ x :: ys -> ys ≡ₚ dict_remove less xs e.
Proof.
  intros Hl Hd Hp. destruct (lookup_key_Some less _ _ _ Hl) as [Hx Hk].
  assert (Hd' : distinct less (x :: ys)) by by eapply distinct_perm.
  destruct (distinct_tail less ys x Hd') as [Hdy Hno].
  assert (Hf : dict_remove less xs e ≡ₚ dict_remove less (x :: ys) e).
  { unfold dict_remove. clear -Hp. induction Hp; simpl; repeat case_match; eauto using Permutation. }
  rewrite Hf. unfold dict_remove. simpl. rewrite Hk. simpl. fold (dict_remove less ys e).
  rewrite dict_remove_absent; [done|]. apply lookup_key_absent. intros y Hy.
  destruct (same_key less y e) eqn:Ek; [|done]. rewrite <- (lookup_key_None less ys x Hno y Hy). symmetry.
  eapply (same_key_trans hash_func less); [exact Ek|by apply same_key_sym].
Qed.

Lemma wp_rehash_holds mem h r (Q : option E -> hash E -> Prop) : hash_ok hash_func less h ->
  (forall h', holds hash_func less (elements h) h' ->
     (mem = true -> bucket_cnt h' = ideal (length (elements h'))) -> Q r h') ->
  wp (rehash hash_func mem;; mret r) h Q.
Proof.
  intros H HQ. apply wp_bind, (wp_rehash hash_func less); [done|]. intros h' Hok Hp Hc. apply wp_ret, HQ; [done|].
  by rewrite Hp.
Qed.

Lemma wp_hash_insert mem new h Q : hash_ok hash_func less h -> length (elements h) + 1 < 2 ^ 32 ->
  (forall h', holds hash_func less (dict_insert less (elements h) new) h' ->
    (mem = true -> bucket_cnt h' = ideal (length (elements h'))) ->
    Q (lookup_key less (elements h) new) h') ->
  wp (hash_insert hash_func less mem new) h Q.
Proof.
  intros H Hb HQ. apply (wp_find_then hash_func less); [done|]. intros b _. apply wp_bind.
  unfold dict_insert in HQ. destruct (lookup_key less (elements h) new) as [o|] eqn:El.
  - by apply wp_ret, wp_rehash_holds.
  - apply (wp_insert_elem hash_func less); [done..|]. intros h1 H1 _ Hp1. apply wp_rehash_holds; [done|].
    intros h' [Hok Hp] Hc. apply HQ; [split; [done|]|done]. by rewrite Hp, Hp1.
Qed.

Lemma wp_hash_replace mem new h Q : hash_ok hash_func less h -> length (elements h) + 1 < 2 ^ 32 ->
  (forall h', holds hash_func less (new :: dict_remove less (elements h) new) h' ->
    Q (lookup_key less (elements h) new) h') ->
  wp (hash_replace hash_func less mem new) h Q.
Proof.
  intros H Hb HQ. apply (wp_find_then hash_func less); [done|]. intros b _. apply wp_bind.
  destruct (lookup_key less (elements h) new) as [o|] eqn:El.
  - destruct (lookup_key_Some less _ _ _ El) as [Ho Hk].
    apply (wp_remove_elem hash_func less); [done..|]. intros h1 H1 Hc1 Hp1. rewrite <- Hc1.
    assert (Hd : elements h1 ≡ₚ dict_remove less (elements h) new)
      by (eapply dict_remove_found; [done|apply H|done]).
    assert (Hno : lookup_key less (elements h1) new = None).
    { apply lookup_key_absent. intros x Hx. rewrite Hd in Hx. unfold dict_remove in Hx.
      apply list_elem_of_In, filter_In in Hx as [_ Hx]. by apply negb_true_iff in Hx. }
    apply wp_bind, (wp_insert_elem hash_func less); [done| |done|].
    { rewrite Hp1 in Hb. simpl in Hb. lia. }
    intros h2 H2 _ Hp2. apply wp_rehash_holds; [done|]. intros h' [Hok Hp] _. apply HQ. split; [done|].
    by rewrite Hp, Hp2, Hd.
  - apply wp_ret, wp_bind, (wp_insert_elem hash_func less); [done..|]. intros h1 H1 _ Hp1.
    apply wp_rehash_holds; [done|]. intros h' [Hok Hp] _. apply HQ. split; [done|].
    by rewrite Hp, Hp1, dict_remove_absent.
Qed.

Lemma wp_hash_delete mem e h Q : hash_ok hash_func less h ->
  (forall h', holds hash_func less (dict_remove less (elements h) e) h' ->
    Q (lookup_key less (elements h) e) h') ->
  wp (hash_delete hash_func less mem e) h Q.
Proof.
  intros H HQ. apply (wp_find_then hash_func less); [done|]. intros b _. apply wp_bind.
  destruct (lookup_key less (elements h) e) as [f|] eqn:El.
  - destruct (lookup_key_Some less _ _ _ El) as [Hf Hk].
    apply wp_bind, (wp_remove_elem hash_func less); [done..|]. intros h1 H1 _ Hp1.
    apply (wp_rehash hash_func less); [done|]. intros h' Hok Hp _. apply wp_ret, HQ. split; [done|].
    rewrite Hp. eapply dict_remove_found; [done|apply H|done].
  - apply wp_assert; [done|]. apply wp_ret, HQ. split; [done|]. by rewrite dict_remove_absent.
Qed.

Lemma wp_hash_find e h Q : hash_ok hash_func less h -> Q (lookup_key less (elements h) e) h ->
  wp (hash_find hash_func less e) h Q.
Proof.
  intros H HQ. apply wp_bind, wp_bind, wp_gets, wp_ret. rewrite find_bucket_idx by apply H.
  apply wp_bind, wp_get_bucket; [apply H|apply pow_pos, H|]. intros b Hb. apply wp_ret.
  by rewrite (find_elem_lookup hash_func less _ (buckets h) e b (ok_placed _ _ h H) (ok_distinct _ _ h H) Hb).
Qed.
End Dict.

(** ** Properties *)

(** A table of numbers hashed by themselves, with three elements. *)
Definition demo_hash_less (a b : Z) : bool := a <? b.
Definition demo_hash_func (a : Z) : Z := a.
#[export] Instance demo_hash_key : HashKey demo_hash_func demo_hash_less.
Proof.
  split; [exact (key_order (fun a : Z => a))|]. intros a b Hk%same_key_spec. unfold demo_hash_less, demo_hash_func in *.
  zcases; lia || (by destruct Hk).
Qed.
Definition demo_hash : hash Z := mk_hash 3 4 [[8; 4]; []; [6]; []].

Lemma demo_hash_ok : hash_ok demo_hash_func demo_hash_less demo_hash.
Proof.
  split; simpl; [by exists 2| |done|done|].
  - split; [done|]. intros i b e Hi He.
    do 4 (destruct i as [|i]; [simpl in Hi; simplify_eq; set_unfold; naive_solver|]). done.
  - split; [apply (bool_decide_unpack _); by vm_compute|]. intros x y _ _ Hk%same_key_spec.
    unfold demo_hash_less in Hk. zcases; lia || (by destruct Hk).
Qed.

(** C27: [hash_insert] on a valid table returns without failing, gives back
    the element that already has the key (and then leaves the set alone) or
    null (and then adds the new element), and keeps the table valid; this
    holds whether or not the allocation in [rehash] succeeds, and when it
    does the number of buckets is the ideal power of two. *)
Theorem hash_insert_correct {E} `{!EqDecision E} (hash_func : E -> Z) (less : E -> E -> bool)
    `{!HashKey hash_func less} (mem : bool) (new : E) (h : hash E) :
  hash_ok hash_func less h -> length (elements h) + 1 < 2 ^ 32 ->
  exists h', hash_insert hash_func less mem new h = Ret (lookup_key less (elements h) new, h') /\
    holds hash_func less (dict_insert less (elements h) new) h' /\
    (mem = true -> bucket_cnt h' = ideal (hash_size h')).
Proof.
  intros H Hb.
  destruct (wp_run (hash_insert hash_func less mem new) h (fun r h' =>
    r = lookup_key less (elements h) new /\ holds hash_func less (dict_insert less (elements h) new) h' /\
    (mem = true -> bucket_cnt h' = ideal (hash_size h')))) as (r & h' & Er & -> & ?); [|by eauto].
  apply wp_hash_insert; [done..|]. intros h' Hh Hc. unfold hash_size. by rewrite (ok_count _ _ h' (proj1 Hh)).
Qed.

Lemma hash_insert_correct_witness :
  exists h', hash_insert demo_hash_func demo_hash_less true 5 demo_hash = Ret (None, h').
Proof.
  destruct (hash_insert_correct demo_hash_func demo_hash_less true 5 demo_hash) as (h' & E & _);
    [apply demo_hash_ok|reflexivity|exists h'; exact E].
Defined.

(** [hash_replace] and [hash_delete] return the element with the key,
    if any; the first leaves the other elements and the new one, the second
    only the others.  [hash_find] returns that element and changes nothing. *)
Theorem hash_update_correct {E} `{!EqDecision E} (hash_func : E -> Z) (less : E -> E -> bool)
    `{!HashKey hash_func less} (mem : bool) (e : E) (h : hash E) :
  hash_ok hash_func less h -> length (elements h) + 1 < 2 ^ 32 ->
  (exists h', hash_replace hash_func less mem e h = Ret (lookup_key less (elements h) e, h') /\
    holds hash_func less (e :: dict_remove less (elements h) e) h') /\
  (exists h', hash_delete hash_func less mem e h = Ret (lookup_key less (elements h) e, h') /\
    holds hash_func less (dict_remove less (elements h) e) h') /\
  hash_find hash_func less e h = Ret (lookup_key less (elements h) e, h).
Proof.
  intros H Hb. split_and!.
  - destruct (wp_run (hash_replace hash_func less mem e) h (fun r h' => r = lookup_key less (elements h) e /\
      holds hash_func less (e :: dict_remove less (elements h) e) h')) as (r & h' & Er & -> & ?); [|by eauto].
    by apply wp_hash_replace.
  - destruct (wp_run (hash_delete hash_func less mem e) h (fun r h' => r = lookup_key less (elements h) e /\
      holds hash_func less (dict_remove less (elements h) e) h')) as (r & h' & Er & -> & ?); [|by eauto].
    by apply wp_hash_delete.
  - destruct (wp_run_read (hash_find hash_func less e) h (fun r => r = lookup_key less (elements h) e))
      as (r & Er & ->); [|done]. by apply wp_hash_find.
Qed.

Lemma hash_update_correct_witness :
  hash_find demo_hash_func demo_hash_less 4 demo_hash = Ret (Some 4, demo_hash).
Proof. apply (hash_update_correct demo_hash_func demo_hash_less true 4 demo_hash); [apply demo_hash_ok|reflexivity]. Defined.

(** Iterating with [hash_first] and [hash_next] visits every element of
    a valid table exactly once, in bucket order, and then returns null;
    [hash_apply] runs its action over the same sequence. *)
Theorem hash_iterate_correct {E} `{!EqDecision E} (hash_func : E -> Z) (less : E -> E -> bool) (h : hash E) :
  hash_ok hash_func less h ->
  iterate (S (length (elements h))) h hash_first = Ret (elements h) /\ NoDup (elements h) /\
  (forall S (action : E -> ST S unit) s,
     hash_apply action h s = foldr (fun e k => action e;; k) (mret tt) (elements h) s).
Proof.
  intros H. destruct (ok_placed _ _ h H) as [Hlen _]. destruct (ok_pow _ _ h H) as (k & Hk & Hc).
  assert (4 <= bucket_cnt h) by (rewrite Hc; apply (Z.pow_le_mono_r 2 2); lia).
  destruct (buckets h) as [|l bs] eqn:Eb; [simpl in Hlen; lia|].
  assert (Er : remaining h 0 0 = elements h) by (unfold remaining, elements; rewrite Eb; done).
  split_and!.
  - rewrite <- Er. apply (iterate_spec h _ 0 0 l); [by rewrite Eb|by rewrite Eb|lia|lia].
  - apply (ok_distinct _ _ h H).
  - intros S action. unfold hash_apply, elements. generalize (buckets h). clear.
    assert (Ha : forall (a b c : ST S unit) s, ((a;; b);; c) s = (a;; b;; c) s).
    { intros a b c s. unfold mbind, ST_bind. by destruct (a s) as [[]| |]. }
    assert (Hbk : forall b (k : ST S unit) s, (hash_apply_bucket action b;; k) s = foldr (fun e k => action e;; k) k b s).
    { induction b as [|e b IH]; intros k s; [done|]. simpl. rewrite Ha. unfold mbind, ST_bind at 1 3.
      destruct (action e s) as [[[] s1]| |]; [|done..]. apply IH. }
    induction l as [|b bs IH]; intros s; [done|]. simpl. rewrite Hbk, foldr_app.
    clear Ha Hbk. revert s. induction b as [|e b IHb]; intros s; simpl; [apply IH|].
    unfold mbind, ST_bind. destruct (action e s) as [[[] s1]| |]; [apply IHb|done..].
Qed.

Lemma hash_iterate_correct_witness :
  iterate 4 demo_hash hash_first = Ret (elements demo_hash).
Proof. apply (hash_iterate_correct demo_hash_func demo_hash_less demo_hash), demo_hash_ok. Defined.
