(* ===== verification/Threads.v ===== *)
(** * Threads, scheduling and synchronization: threads/thread.c, threads/synch.c

    The kernel runs one thread at a time and switches only inside
    [schedule], with interrupts off.  A region of code that runs with
    interrupts off, and every single access to a shared object outside such a
    region, is one [action]; a function of synch.c or thread.c is the sequence
    of its actions.  A thread that is switched out keeps the actions it still
    has to do, as its stack does; a timer interrupt may preempt the running
    thread between any two actions.  [exec] runs one action of the running
    thread and [step] is the resulting transition relation, in which a thread
    that has finished a call may make any other call of the interface.

    The assertions on [intr_context] and on the interrupt level hold by this
    reading and are not repeated.  Waiting lists and the ready list are
    modelled by their sequences. *)

From S2P Require Import Prelude.

(** ** Data *)

(** [enum thread_status]; [THREAD_DEAD] marks only the records a parent
    keeps of its dead children. *)
Inductive thread_status := THREAD_RUNNING | THREAD_READY | THREAD_BLOCKED | THREAD_DYING | THREAD_DEAD.
#[export] Instance thread_status_eq : EqDecision thread_status.
Proof. solve_decision. Defined.

(** A semaphore is a variable of the client, the one inside a lock, or the
    one a thread that runs [cond_wait] has on its stack. *)
Inductive sema_ref := Sema (a : Z) | LockSema (l : Z) | Waiter (t : Z).
#[export] Instance sema_ref_eq : EqDecision sema_ref.
Proof. solve_decision. Defined.
#[export] Instance sema_ref_countable : Countable sema_ref.
Proof.
  refine (inj_countable'
    (fun r => match r with Sema a => inl a | LockSema l => inr (inl l) | Waiter t => inr (inr t) end)
    (fun x => match x with inl a => Sema a | inr (inl l) => LockSema l | inr (inr t) => Waiter t end) _).
  by intros [].
Defined.

(** [struct semaphore]. *)
Record semaphore := mk_sema { value : Z; waiters : list Z }.

Inductive action :=
| ADown (r : sema_ref)            (* one test of the loop of [sema_down] *)
| ATryDown (r : sema_ref)
| AUp (r : sema_ref)
| ASemaInit (r : sema_ref) (v : Z)
| ALockInit (l : Z)
| AAssertHeld (l : Z)             (* [ASSERT (lock_held_by_current_thread (lock))] *)
| AAssertNotHeld (l : Z)
| ASetHolder (l : Z)              (* [lock->holder = thread_current ()] *)
| AClearHolder (l : Z)            (* the assertion and [lock->holder = NULL] of [lock_release] *)
| ATryLock (l : Z)                (* [success = sema_try_down (...); if (success) ...] *)
| ACondInit (c : Z)
| ACondPush (c : Z)               (* [list_push_back (&cond->waiters, &waiter.elem)] *)
| ACondPop (c : Z)                (* [if (!list_empty (...)) sema_up (... list_pop_front ...)] *)
| ACondBroadcast (c l : Z)        (* one test of the loop of [cond_broadcast] *)
| ANewThread (page : option Z) (priority : Z) (* allocation and [init_thread] *)
| AAllocTid                       (* [tid = next_tid++] and its use *)
| AUnblockNew                     (* [thread_unblock (t)] of [thread_create] *)
| AYield
| AIdleInit                       (* [idle_thread = thread_current ()] *)
| AIdle                           (* an iteration of the loop of [idle] *)
| ADie.                           (* the end of [thread_exit] *)

(** The fields of [struct thread] that thread.c and synch.c use.  [code] is
    what the thread has left to do of its current call, [th_new] the local
    variable [t] of [thread_create]. *)
Record thread := mk_thread_rec {
  tid : Z; status : thread_status; priority : Z; code : list action; th_new : option Z }.

Record kernel := mk_kernel {
  threads : gmap Z thread;        (* by page address: [is_thread] is membership *)
  current : Z;                    (* [running_thread ()] *)
  ready_list : list Z;
  idle_thread : option Z;
  initial_thread : Z;
  semas : gmap sema_ref semaphore;
  holders : gmap Z (option Z);    (* [lock->holder] *)
  conds : gmap Z (list Z);        (* [cond->waiters], by waiting thread *)
  next_tid : Z;
  thread_ticks : Z; idle_ticks : Z; kernel_ticks : Z }.

(** Field updates. *)
Definition with_threads (f : gmap Z thread -> gmap Z thread) (k : kernel) : kernel :=
  mk_kernel (f (threads k)) (current k) (ready_list k) (idle_thread k) (initial_thread k)
    (semas k) (holders k) (conds k) (next_tid k) (thread_ticks k) (idle_ticks k) (kernel_ticks k).
Definition with_current (c : Z) (k : kernel) : kernel :=
  mk_kernel (threads k) c (ready_list k) (idle_thread k) (initial_thread k)
    (semas k) (holders k) (conds k) (next_tid k) (thread_ticks k) (idle_ticks k) (kernel_ticks k).
Definition with_ready (f : list Z -> list Z) (k : kernel) : kernel :=
  mk_kernel (threads k) (current k) (f (ready_list k)) (idle_thread k) (initial_thread k)
    (semas k) (holders k) (conds k) (next_tid k) (thread_ticks k) (idle_ticks k) (kernel_ticks k).
Definition with_idle (i : option Z) (k : kernel) : kernel :=
  mk_kernel (threads k) (current k) (ready_list k) i (initial_thread k)
    (semas k) (holders k) (conds k) (next_tid k) (thread_ticks k) (idle_ticks k) (kernel_ticks k).
Definition with_semas (f : gmap sema_ref semaphore -> gmap sema_ref semaphore) (k : kernel) : kernel :=
  mk_kernel (threads k) (current k) (ready_list k) (idle_thread k) (initial_thread k)
    (f (semas k)) (holders k) (conds k) (next_tid k) (thread_ticks k) (idle_ticks k) (kernel_ticks k).
Definition with_holders (f : gmap Z (option Z) -> gmap Z (option Z)) (k : kernel) : kernel :=
  mk_kernel (threads k) (current k) (ready_list k) (idle_thread k) (initial_thread k)
    (semas k) (f (holders k)) (conds k) (next_tid k) (thread_ticks k) (idle_ticks k) (kernel_ticks k).
Definition with_conds (f : gmap Z (list Z) -> gmap Z (list Z)) (k : kernel) : kernel :=
  mk_kernel (threads k) (current k) (ready_list k) (idle_thread k) (initial_thread k)
    (semas k) (holders k) (f (conds k)) (next_tid k) (thread_ticks k) (idle_ticks k) (kernel_ticks k).
Definition with_next_tid (n : Z) (k : kernel) : kernel :=
  mk_kernel (threads k) (current k) (ready_list k) (idle_thread k) (initial_thread k)
    (semas k) (holders k) (conds k) n (thread_ticks k) (idle_ticks k) (kernel_ticks k).
Definition with_ticks (t i u : Z) (k : kernel) : kernel :=
  mk_kernel (threads k) (current k) (ready_list k) (idle_thread k) (initial_thread k)
    (semas k) (holders k) (conds k) (next_tid k) t i u.

Definition set_status (s : thread_status) (th : thread) : thread :=
  mk_thread_rec (tid th) s (priority th) (code th) (th_new th).
Definition set_code (c : list action) (th : thread) : thread :=
  mk_thread_rec (tid th) (status th) (priority th) c (th_new th).
Definition set_tid (n : Z) (th : thread) : thread :=
  mk_thread_rec n (status th) (priority th) (code th) (th_new th).
Definition set_new (n : option Z) (th : thread) : thread :=
  mk_thread_rec (tid th) (status th) (priority th) (code th) n.

(** Reading the [struct thread] at [t]; a page without one faults, or fails
    [is_thread]. *)
Definition get_thread (t : Z) : ST kernel thread := fun k =>
  match threads k !! t with Some th => Ret (th, k) | None => Panic end.
Definition upd_thread (t : Z) (f : thread -> thread) : ST kernel unit :=
  get_thread t;; modify (with_threads (alter f t)).

(** ** Scheduling *)

Definition TIME_SLICE : Z := 4.
Definition PRI_MIN : Z := 0.
Definition PRI_DEFAULT : Z := 31.
Definition PRI_MAX : Z := 63.

Definition thread_current : ST kernel Z :=
  t ← gets current;
  th ← get_thread t;
  ASSERT (bool_decide (status th = THREAD_RUNNING));;
  mret t.

Definition next_thread_to_run : ST kernel (option Z) :=
  r ← gets ready_list;
  match r with
  | [] => gets idle_thread
  | t :: rest => modify (with_ready (fun _ => rest));; mret (Some t)
  end.

Definition schedule_tail (prev : option Z) : ST kernel unit :=
  cur ← gets current;
  upd_thread cur (set_status THREAD_RUNNING);;
  modify (fun k => with_ticks 0 (idle_ticks k) (kernel_ticks k) k);;
  match prev with
  | None => mret tt
  | Some p =>
    th ← get_thread p;
    init ← gets initial_thread;
    if bool_decide (status th = THREAD_DYING) && negb (p =? init) then
      ASSERT (negb (p =? cur));;
      modify (with_threads (delete p)) (* [palloc_free_page (prev)] *)
    else mret tt
  end.

Definition schedule : ST kernel unit :=
  cur ← gets current;
  next ← next_thread_to_run;
  th ← get_thread cur;
  ASSERT (negb (bool_decide (status th = THREAD_RUNNING)));;
  match next with
  | None => panic (* [ASSERT (is_thread (next))] *)
  | Some n =>
    get_thread n;;
    modify (with_current n);;
    schedule_tail (if cur =? n then None else Some cur)
  end.

Definition thread_block : ST kernel unit :=
  t ← thread_current;
  upd_thread t (set_status THREAD_BLOCKED);;
  schedule.

Definition thread_unblock (t : Z) : ST kernel unit :=
  th ← get_thread t;
  ASSERT (bool_decide (status th = THREAD_BLOCKED));;
  modify (with_ready (fun r => r ++ [t]));;
  upd_thread t (set_status THREAD_READY).

Definition thread_yield : ST kernel unit :=
  cur ← thread_current;
  i ← gets idle_thread;
  (if bool_decide (i = Some cur) then mret tt else modify (with_ready (fun r => r ++ [cur])));;
  upd_thread cur (set_status THREAD_READY);;
  schedule.

(** The result says whether [intr_yield_on_return] was called; a thread of
    this machine runs no user program, so [t->pagedir] is null. *)
Definition thread_tick : ST kernel bool :=
  t ← thread_current;
  i ← gets idle_thread;
  (if bool_decide (i = Some t)
   then modify (fun k => with_ticks (thread_ticks k) (s64 (idle_ticks k + 1)) (kernel_ticks k) k)
   else modify (fun k => with_ticks (thread_ticks k) (idle_ticks k) (s64 (kernel_ticks k + 1)) k));;
  modify (fun k => with_ticks (thread_ticks k +u 1) (idle_ticks k) (kernel_ticks k) k);;
  n ← gets thread_ticks;
  mret (TIME_SLICE <=? n).

(** The timer interrupt: the tick, and the yield on return when it asks for one. *)
Definition timer_tick : ST kernel unit :=
  y ← thread_tick;
  if y : bool then thread_yield else mret tt.

(** ** Semaphores *)

Definition get_sema (r : sema_ref) : ST kernel semaphore := fun k =>
  match semas k !! r with Some s => Ret (s, k) | None => Panic end.
Definition put_sema (r : sema_ref) (s : semaphore) : ST kernel unit :=
  modify (with_semas (insert r s)).

(** The rest of the call is pushed back in front of what remains. *)
Definition continue (acts : list action) : ST kernel unit :=
  t ← gets current;
  upd_thread t (fun th => set_code (acts ++ code th) th).

(** One test of [while (sema->value == 0)] of [sema_down]: the thread takes
    a unit and goes on, or it joins the waiters, blocks and tests again when
    it next runs. *)
Definition sema_down_test (r : sema_ref) : ST kernel unit :=
  s ← get_sema r;
  if value s =? 0 then
    t ← thread_current;
    put_sema r (mk_sema (value s) (waiters s ++ [t]));;
    continue [ADown r];;
    thread_block
  else put_sema r (mk_sema (value s -u 1) (waiters s)).

Definition sema_try_down (r : sema_ref) : ST kernel bool :=
  s ← get_sema r;
  if 0 <? value s then put_sema r (mk_sema (value s -u 1) (waiters s));; mret true
  else mret false.

Definition sema_up (r : sema_ref) : ST kernel unit :=
  s ← get_sema r;
  match waiters s with
  | [] => mret tt
  | t :: ws => put_sema r (mk_sema (value s) ws);; thread_unblock t
  end;;
  s ← get_sema r;
  put_sema r (mk_sema (value s +u 1) (waiters s)).

(** ** Locks and condition variables *)

Definition get_holder (l : Z) : ST kernel (option Z) := fun k =>
  match holders k !! l with Some h => Ret (h, k) | None => Panic end.

Definition lock_held_by_current_thread (l : Z) : ST kernel bool :=
  h ← get_holder l;
  t ← thread_current;
  mret (bool_decide (h = Some t)).

Definition get_cond (c : Z) : ST kernel (list Z) := fun k =>
  match conds k !! c with Some ws => Ret (ws, k) | None => Panic end.

(** ** Calls as sequences of actions *)

Definition sema_init (s v : Z) : list action := [ASemaInit (Sema s) v].
Definition sema_down (s : Z) : list action := [ADown (Sema s)].

Definition lock_init (l : Z) : list action := [ALockInit l].
Definition lock_acquire (l : Z) : list action := [AAssertNotHeld l; ADown (LockSema l); ASetHolder l].
Definition lock_try_acquire (l : Z) : list action := [AAssertNotHeld l; ATryLock l].
Definition lock_release (l : Z) : list action := [AClearHolder l; AUp (LockSema l)].

Definition cond_init (c : Z) : list action := [ACondInit c].
Definition cond_wait (t c l : Z) : list action :=
  [AAssertHeld l; ASemaInit (Waiter t) 0; ACondPush c] ++ lock_release l ++
  [ADown (Waiter t)] ++ lock_acquire l.
Definition cond_signal (c l : Z) : list action := [AAssertHeld l; ACondPop c].
Definition cond_broadcast (c l : Z) : list action := [ACondBroadcast c l].

(** [mk_thread] and [thread_create]: allocation, [init_thread],
    [allocate_tid] under [tid_lock], then [thread_unblock]. *)
Definition thread_create (tid_lock : Z) (page : option Z) (priority : Z) : list action :=
  match page with
  | None => [ANewThread None priority] (* returns [TID_ERROR] *)
  | Some _ =>
    [ANewThread page priority] ++ lock_acquire tid_lock ++ [AAllocTid] ++ lock_release tid_lock ++
    [AUnblockNew]
  end.

Definition idle (idle_started : Z) : list action := [AIdleInit; AUp (Sema idle_started); AIdle].

(** ** Execution *)

Definition exec (a : action) : ST kernel unit :=
  match a with
  | ADown r => sema_down_test r
  | ATryDown r => sema_try_down r;; mret tt
  | AUp r => sema_up r
  | ASemaInit r v => put_sema r (mk_sema v [])
  | ALockInit l => modify (with_holders (insert l None));; put_sema (LockSema l) (mk_sema 1 [])
  | AAssertHeld l => b ← lock_held_by_current_thread l; ASSERT b
  | AAssertNotHeld l => b ← lock_held_by_current_thread l; ASSERT (negb b)
  | ASetHolder l => get_holder l;; t ← thread_current; modify (with_holders (insert l (Some t)))
  | AClearHolder l =>
      b ← lock_held_by_current_thread l; ASSERT b;; modify (with_holders (insert l None))
  | ATryLock l =>
      b ← sema_try_down (LockSema l);
      if b : bool then continue [ASetHolder l] else mret tt
  | ACondInit c => modify (with_conds (insert c []))
  | ACondPush c => ws ← get_cond c; t ← thread_current; modify (with_conds (insert c (ws ++ [t])))
  | ACondPop c =>
      ws ← get_cond c;
      match ws with
      | [] => mret tt
      | w :: ws => modify (with_conds (insert c ws));; continue [AUp (Waiter w)]
      end
  | ACondBroadcast c l =>
      ws ← get_cond c;
      match ws with
      | [] => mret tt
      | _ => continue (cond_signal c l ++ [ACondBroadcast c l])
      end
  | ANewThread page p =>
      match page with
      | None => mret tt
      | Some pg =>
        ASSERT ((PRI_MIN <=? p) && (p <=? PRI_MAX));;
        modify (with_threads (insert pg (mk_thread_rec 0 THREAD_BLOCKED p [] None)));;
        t ← gets current;
        upd_thread t (set_new (Some pg))
      end
  | AAllocTid =>
      n ← gets next_tid;
      modify (with_next_tid (s32 (n + 1)));;
      t ← gets current;
      th ← get_thread t;
      match th_new th with
      | None => panic
      | Some pg => upd_thread pg (set_tid n)
      end
  | AUnblockNew =>
      t ← gets current;
      th ← get_thread t;
      match th_new th with
      | None => panic
      | Some pg => upd_thread t (set_new None);; thread_unblock pg
      end
  | AYield => thread_yield
  | AIdleInit => t ← thread_current; modify (with_idle (Some t))
  | AIdle => continue [AIdle];; thread_block
  | ADie => t ← gets current; upd_thread t (set_status THREAD_DYING);; schedule
  end.

(** ** The transition relation *)

(** The calls a thread [t] may make; [v] is an [unsigned] argument. *)
Inductive api :=
| CSemaInit (s v : Z) | CSemaDown (s : Z) | CSemaTryDown (s : Z) | CSemaUp (s : Z)
| CLockInit (l : Z) | CLockAcquire (l : Z) | CLockTryAcquire (l : Z) | CLockRelease (l : Z)
| CCondInit (c : Z) | CCondWait (c l : Z) | CCondSignal (c l : Z) | CCondBroadcast (c l : Z)
| CThreadCreate (tid_lock : Z) (page : option Z) (priority : Z)
| CThreadYield | CIdle (idle_started : Z) | CThreadExit.

Definition call (t : Z) (x : api) : list action :=
  match x with
  | CSemaInit s v => sema_init s (u32 v)
  | CSemaDown s => sema_down s
  | CSemaTryDown s => [ATryDown (Sema s)]
  | CSemaUp s => [AUp (Sema s)]
  | CLockInit l => lock_init l
  | CLockAcquire l => lock_acquire l
  | CLockTryAcquire l => lock_try_acquire l
  | CLockRelease l => lock_release l
  | CCondInit c => cond_init c
  | CCondWait c l => cond_wait t c l
  | CCondSignal c l => cond_signal c l
  | CCondBroadcast c l => cond_broadcast c l
  | CThreadCreate tl page p => thread_create tl page p
  | CThreadYield => [AYield]
  | CIdle s => idle s
  | CThreadExit => [ADie]
  end.

(** Objects are initialised once, the page allocator hands out pages that
    hold no thread, and one thread runs [idle]. *)
Definition allowed (k : kernel) (a : action) : Prop :=
  match a with
  | ASemaInit (Sema s) _ => semas k !! Sema s = None
  | ALockInit l => semas k !! LockSema l = None
  | ANewThread (Some p) _ => threads k !! p = None
  | AIdleInit => idle_thread k = None
  | _ => True
  end.

(** The state in which the running thread executes the first action of [a :: rest]. *)
Definition popped (rest : list action) (k : kernel) : kernel :=
  with_threads (alter (set_code rest) (current k)) k.

Inductive step (k : kernel) : kernel -> Prop :=
| step_call th x : threads k !! current k = Some th -> code th = [] ->
    step k (popped (call (current k) x) k)
| step_run th a rest k' : threads k !! current k = Some th -> code th = a :: rest -> allowed k a ->
    exec a (popped rest k) = Ret (tt, k') -> step k k'
| step_timer k' : timer_tick k = Ret (tt, k') -> step k k'
| step_interrupt s k' : sema_up (Sema s) k = Ret (tt, k') -> step k k'.

(** After [thread_init]: the initial thread runs with tid 1 and [tid_lock]
    is free. *)
Definition boot (main tid_lock : Z) : kernel :=
  mk_kernel {[ main := mk_thread_rec 1 THREAD_RUNNING PRI_DEFAULT [] None ]} main [] None main
    {[ LockSema tid_lock := mk_sema 1 [] ]} {[ tid_lock := None ]} ∅ 2 0 0 0.

(** ** Runs

    A schedule picks, for each step, what happens next; [drive] executes it. *)
Inductive choice := Call (x : api) | Run | Tick | Interrupt (s : Z).

Definition is_none {A} (x : option A) : bool := match x with None => true | Some _ => false end.

Definition allowed_b (k : kernel) (a : action) : bool :=
  match a with
  | ASemaInit (Sema s) _ => is_none (semas k !! Sema s)
  | ALockInit l => is_none (semas k !! LockSema l)
  | ANewThread (Some p) _ => is_none (threads k !! p)
  | AIdleInit => is_none (idle_thread k)
  | _ => true
  end.

Definition result (o : outcome (unit * kernel)) : option kernel :=
  match o with Ret (_, k) => Some k | _ => None end.

Definition drive1 (k : kernel) (x : choice) : option kernel :=
  match x, threads k !! current k with
  | Call x, Some th => match code th with [] => Some (popped (call (current k) x) k) | _ => None end
  | Run, Some th =>
      match code th with
      | a :: rest => if allowed_b k a then result (exec a (popped rest k)) else None
      | [] => None
      end
  | Tick, _ => result (timer_tick k)
  | Interrupt s, _ => result (sema_up (Sema s) k)
  | _, None => None
  end.

Fixpoint drive (k : kernel) (l : list choice) : option kernel :=
  match l with
  | [] => Some k
  | x :: l => match drive1 k x with Some k' => drive k' l | None => None end
  end.
