(* ===== verification/ThreadsInv.v ===== *)
(** * Invariants of the thread machine

    The invariant has a scheduling part ([core]) and a part on locks
    ([locks_ok]).  Each is shown to be preserved by every step of Threads.v;
    the properties at the end follow. *)

From S2P Require Import Prelude Threads.

(** ** Views of the thread table *)

Definition st (k : kernel) (t : Z) : option thread_status := status <$> threads k !! t.
Definition cd (k : kernel) (t : Z) : option (list action) := code <$> threads k !! t.
Definition nw (k : kernel) (t : Z) : option (option Z) := th_new <$> threads k !! t.

Lemma st_Some k t s : st k t = Some s <-> exists th, threads k !! t = Some th /\ status th = s.
Proof. unfold st. rewrite fmap_Some. naive_solver. Qed.
Lemma cd_Some k t c : cd k t = Some c <-> exists th, threads k !! t = Some th /\ code th = c.
Proof. unfold cd. rewrite fmap_Some. naive_solver. Qed.

(** ** Well-formed code

    The locks' semaphores are only touched by the lock functions, and a
    thread waits on no other thread's [Waiter] semaphore. *)
Fixpoint code_ok (t : Z) (c : list action) : Prop :=
  match c with
  | [] => True
  | ADown (LockSema l) :: ASetHolder l' :: c => l' = l /\ code_ok t c
  | ADown (LockSema _) :: _ => False
  | ADown (Waiter u) :: c => u = t /\ code_ok t c
  | ASemaInit (LockSema _) _ :: _ => False
  | ASemaInit (Waiter u) v :: c => u = t /\ v = 0 /\ code_ok t c
  | ASemaInit (Sema _) v :: c => is_u32 v /\ code_ok t c
  | AClearHolder l :: AUp (LockSema l') :: c => l' = l /\ code_ok t c
  | AClearHolder _ :: _ => False
  | ASetHolder _ :: _ | AUp (LockSema _) :: _ | ATryDown (LockSema _) :: _ => False
  | AIdle :: c | ADie :: c => c = []
  | AIdleInit :: c => exists s, c = [AUp (Sema s); AIdle]
  | _ :: c => code_ok t c
  end.

(** In transit: between the two halves of an acquisition or a release. *)
Definition in_transit (l : Z) (c : list action) : Prop :=
  exists c', c = ASetHolder l :: c' \/ c = AUp (LockSema l) :: c'.

Definition wf (t : Z) (c : list action) : Prop :=
  code_ok t c \/ exists l c', (c = ASetHolder l :: c' \/ c = AUp (LockSema l) :: c') /\ code_ok t c'.

Lemma code_ok_not_transit t l c : code_ok t c -> ~ in_transit l c.
Proof. intros H (c' & [->| ->]); done. Qed.

(** What follows the first action. *)
Lemma wf_tail t a c : wf t (a :: c) ->
  code_ok t c \/
  (exists l c', a = ADown (LockSema l) /\ c = ASetHolder l :: c' /\ code_ok t c') \/
  (exists l c', a = AClearHolder l /\ c = AUp (LockSema l) :: c' /\ code_ok t c').
Proof.
  intros [H|(l & c' & [E|E] & H)]; [|injection E as -> ->; by left..].
  destruct a as [[]|[]|[]|[] ?| | | | | | | | | | | | | | | | |]; simpl in H; try done; try tauto.
  - destruct c as [|[] c]; try done. destruct H as [-> ?]. right. left. eauto.
  - destruct c as [|[|?|[]| | | | | | | | | | | | | | | | | |] c]; try done. destruct H as [-> ?].
    right. right. eauto.
  - destruct H as [s ->]. by left.
  - subst. by left.
  - subst. by left.
Qed.

Lemma wf_pop t a c : wf t (a :: c) -> wf t c.
Proof.
  intros [H|[(l & c' & -> & -> & H)|(l & c' & -> & -> & H)]]%wf_tail; [by left|right..]; eauto.
Qed.

(** Every call starts from well-formed code. *)
Lemma call_ok t x : code_ok t (call t x).
Proof.
  destruct x as [| | | | | | | | | | | |tl [pg|] p| | |]; simpl; eauto 10. split; [apply u32_range|done].
Qed.

(** ** The scheduling invariant

    [run] is the thread that counts as running: the current one between
    steps, none inside [schedule]. *)
Record coreR (run : option Z) (k : kernel) : Prop := {
  c_run t : st k t = Some THREAD_RUNNING <-> run = Some t;
  c_ready_nodup : NoDup (ready_list k);
  c_ready t : t ∈ ready_list k <-> st k t = Some THREAD_READY /\ idle_thread k <> Some t;
  c_wait r s : semas k !! r = Some s -> is_u32 (value s) /\ NoDup (waiters s) /\
    forall t, t ∈ waiters s -> st k t = Some THREAD_BLOCKED /\ exists c, cd k t = Some (ADown r :: c);
  c_block t r c : st k t = Some THREAD_BLOCKED -> cd k t = Some (ADown r :: c) ->
    exists s, semas k !! r = Some s /\ t ∈ waiters s;
  c_wake r s : semas k !! r = Some s -> waiters s <> [] ->
    exists ts, NoDup ts /\ Z.of_nat (length ts) = value s /\
      forall t, t ∈ ts -> st k t <> Some THREAD_BLOCKED /\ exists c, cd k t = Some (ADown r :: c);
  c_new u t : nw k u = Some (Some t) ->
    st k t = Some THREAD_BLOCKED /\ cd k t = Some [] /\ idle_thread k <> Some t;
  c_new_inj u u' t : nw k u = Some (Some t) -> nw k u' = Some (Some t) -> u = u';
  c_code t c : cd k t = Some c -> wf t c;
  c_idle i : idle_thread k = Some i -> cd k i = Some [AIdle] \/ exists s, cd k i = Some [AUp (Sema s); AIdle];
  c_dying t : st k t = Some THREAD_DYING -> cd k t = Some [];
}.

Definition core (k : kernel) : Prop := coreR (Some (current k)) k.

(** ** Locks *)

Definition transit (k : kernel) (l t : Z) : Prop := exists c, cd k t = Some c /\ in_transit l c.

(** A lock is free, or on its way to or from a holder (and then one thread is
    in transit), or held. *)
Definition lock_ok (k : kernel) (l : Z) (v : Z) (h : option Z) : Prop :=
  (v = 1 /\ h = None /\ forall t, ~ transit k l t) \/
  (v = 0 /\ h = None /\ exists t, forall u, transit k l u <-> u = t) \/
  (v = 0 /\ (exists t, h = Some t) /\ forall t, ~ transit k l t).

Record locks_ok (k : kernel) : Prop := {
  lk_state l s : semas k !! LockSema l = Some s ->
    exists h, holders k !! l = Some h /\ lock_ok k l (value s) h;
  lk_transit l t : transit k l t -> is_Some (semas k !! LockSema l);
  lk_holder l h : holders k !! l = Some h -> is_Some (semas k !! LockSema l);
}.

Definition inv (k : kernel) : Prop := core k /\ locks_ok k.

(** ** Steps that stay in the running thread *)

(** How the semaphores may change in such a step: waiting lists stay, and a
    value drops by one or, unless the thread was about to test it, stays. *)
Definition semas_local (k k' : kernel) (c0 : list action) : Prop :=
  (forall r s, semas k !! r = Some s -> exists s', semas k' !! r = Some s' /\ waiters s' = waiters s) /\
  (forall r s', semas k' !! r = Some s' -> is_u32 (value s') /\
     (waiters s' = [] \/ exists s, semas k !! r = Some s /\ waiters s = waiters s' /\
        (value s' = value s /\ head c0 <> Some (ADown r) \/ value s' = value s - 1 /\ 0 < value s))).

Lemma semas_local_same k k' c0 t : coreR (Some t) k -> semas k' = semas k ->
  (forall r, head c0 <> Some (ADown r)) -> semas_local k k' c0.
Proof.
  intros H E Hh. split; rewrite E; [by eauto|]. intros r s Hs. split; [by eapply c_wait|].
  right. exists s. eauto.
Qed.

Lemma core_local t k k' c0 c' :
  coreR (Some t) k -> cd k t = Some c0 ->
  (forall u, st k' u = st k u) -> (forall u, u <> t -> cd k' u = cd k u) -> cd k' t = Some c' -> wf t c' ->
  (forall u, nw k' u = nw k u) -> ready_list k' = ready_list k -> idle_thread k' = idle_thread k ->
  (idle_thread k = Some t -> c' = [AIdle] \/ exists s, c' = [AUp (Sema s); AIdle]) ->
  semas_local k k' c0 -> coreR (Some t) k'.
Proof.
  intros H Hc0 Hst Hcd Hct Hwf Hnw Hrl Hid Hidle [Hs1 Hs2].
  assert (Hrun : st k t = Some THREAD_RUNNING) by by apply (c_run _ _ H).
  assert (Hb : forall u, st k u = Some THREAD_BLOCKED -> cd k' u = cd k u).
  { intros u Hu. apply Hcd. intros ->. congruence. }
  split.
  - intros u. rewrite Hst. apply H.
  - rewrite Hrl. apply H.
  - intros u. rewrite Hrl, Hst, Hid. apply H.
  - intros r s' Hr. destruct (Hs2 r s' Hr) as [Hv [->|(s & Hs & <- & _)]].
    + split_and!; [done|constructor|set_solver].
    + destruct (c_wait _ _ H r s Hs) as (_ & ? & Hw). split_and!; [done..|].
      intros u Hu. rewrite Hst. destruct (Hw u Hu) as [Hu1 Hu2]. by rewrite Hb.
  - intros u r c. rewrite Hst. intros Hu Hc. rewrite Hb in Hc by done.
    destruct (c_block _ _ H u r c Hu Hc) as (s & Hs & Hin). destruct (Hs1 r s Hs) as (s' & ? & E).
    exists s'. by rewrite E.
  - intros r s' Hr Hne. destruct (Hs2 r s' Hr) as [_ [?|(s & Hs & E & Hv)]]; [done|].
    destruct (c_wake _ _ H r s Hs) as (ts & Hnd & Hlen & Hts); [by rewrite E|].
    assert (Hkeep : forall u, u ∈ ts -> u <> t ->
      st k' u <> Some THREAD_BLOCKED /\ exists c, cd k' u = Some (ADown r :: c)).
    { intros u Hu Hut. rewrite Hst, Hcd by done. by apply Hts. }
    destruct Hv as [[-> Hhd]|[-> Hpos]].
    + exists ts. split_and!; [done..|]. intros u Hu. apply Hkeep; [done|]. intros ->.
      destruct (Hts t Hu) as [_ [c Hc]]. rewrite Hc0 in Hc. by simplify_eq.
    + destruct (decide (t ∈ ts)) as [Hin|Hni].
      * apply list_elem_of_split in Hin as (l1 & l2 & ->). exists (l1 ++ l2).
        apply NoDup_app in Hnd as (Hn1 & Hn12 & [Hn2 Hn3]%NoDup_cons). rewrite length_app in *. simpl in Hlen.
        split_and!; [|lia|].
        -- apply NoDup_app. split_and!; [done| |done]. intros x Hx Hx'. by apply (Hn12 x Hx); right.
        -- intros u Hu. apply Hkeep; [set_solver|]. intros ->. apply elem_of_app in Hu as [Hu|Hu]; [|done].
           apply (Hn12 t Hu). by left.
      * destruct ts as [|x ts]; [simpl in Hlen; lia|]. exists ts.
        apply NoDup_cons in Hnd as [? ?]. split_and!; [done|simpl in Hlen; lia|].
        intros u Hu. apply Hkeep; [by right|]. intros ->. apply Hni. by right.
  - intros u v. rewrite Hnw. intros (Hv1 & Hv2 & Hv3)%(c_new _ _ H). rewrite Hst, Hb, Hid; [|done]. done.
  - intros u u' v. rewrite !Hnw. apply H.
  - intros u c Hc. destruct (decide (u = t)) as [->|]; [by simplify_eq|]. rewrite Hcd in Hc by done. by apply H.
  - intros i. rewrite Hid. intros Hi. destruct (decide (i = t)) as [->|].
    + rewrite Hct. destruct (Hidle Hi) as [->|[s ->]]; eauto.
    + rewrite Hcd by done. by apply H.
  - intros u. rewrite Hst. intros Hu. rewrite Hcd; [by apply H|]. intros ->. congruence.
Qed.

(** ** Waking a thread up *)

Definition semas_woken (k k' : kernel) (w : Z) : Prop :=
  (forall r s, semas k !! r = Some s -> exists s', semas k' !! r = Some s' /\
     forall t, t ∈ waiters s -> t <> w -> t ∈ waiters s') /\
  (forall r s', semas k' !! r = Some s' -> is_u32 (value s') /\ exists s, semas k !! r = Some s /\
     sublist (waiters s') (waiters s) /\ (w ∉ waiters s') /\
     (waiters s' = [] \/ value s' = 0 \/ value s' = value s \/
      value s' = value s + 1 /\ exists c, cd k w = Some (ADown r :: c))).

Lemma core_unblock run k k' w :
  coreR run k -> st k w = Some THREAD_BLOCKED -> idle_thread k <> Some w ->
  (forall u, st k' u = if decide (u = w) then Some THREAD_READY else st k u) ->
  (forall u, cd k' u = cd k u) ->
  (forall u t, nw k' u = Some (Some t) -> nw k u = Some (Some t) /\ t <> w) ->
  ready_list k' = ready_list k ++ [w] -> idle_thread k' = idle_thread k ->
  semas_woken k k' w -> coreR run k'.
Proof.
  intros H Hw Hiw Hst Hcd Hnw Hrl Hid [Hs1 Hs2].
  assert (Hstne : forall u s, st k u = Some s -> s <> THREAD_BLOCKED -> st k' u = Some s).
  { intros u s Hu Hs. rewrite Hst. case_decide; congruence. }
  assert (Hstb : forall u, st k' u = Some THREAD_BLOCKED <-> st k u = Some THREAD_BLOCKED /\ u <> w).
  { intros u. rewrite Hst. case_decide; naive_solver. }
  split.
  - intros u. rewrite <- (c_run _ _ H u), Hst. case_decide as E; [subst u|done]. naive_solver.
  - rewrite Hrl. apply NoDup_app. split_and!; [apply H| |apply NoDup_singleton].
    intros x Hx ->%list_elem_of_singleton. apply (c_ready _ _ H) in Hx as [? _]. congruence.
  - intros u. rewrite Hrl, Hid, elem_of_app, list_elem_of_singleton, (c_ready _ _ H), Hst.
    case_decide as E; [subst u|]; naive_solver.
  - intros r s' Hr. destruct (Hs2 r s' Hr) as (Hv & s & Hs & Hsub & Hni & _).
    destruct (c_wait _ _ H r s Hs) as (_ & Hnd & Hall). split_and!; [done|by eapply sublist_NoDup|].
    intros t Ht. rewrite Hcd, Hstb. assert (t <> w) by congruence.
    destruct (Hall t) as [? ?]; [by eapply elem_of_sublist|done].
  - intros t r c Ht Hc. apply Hstb in Ht as [Ht Hne]. rewrite Hcd in Hc.
    destruct (c_block _ _ H t r c Ht Hc) as (s & Hs & Hin). destruct (Hs1 r s Hs) as (s' & ? & ?). eauto.
  - intros r s' Hr Hne. destruct (Hs2 r s' Hr) as (_ & s & Hs & Hsub & Hni & Hv).
    destruct (c_wake _ _ H r s Hs) as (ts & Hnd & Hlen & Hts).
    { intros E. rewrite E in Hsub. apply sublist_nil_r in Hsub. done. }
    assert (Hk : forall t, t ∈ ts -> st k' t <> Some THREAD_BLOCKED /\ exists c, cd k' t = Some (ADown r :: c)).
    { intros t Ht. rewrite Hcd, Hstb. destruct (Hts t Ht). naive_solver. }
    destruct Hv as [?|[E|[E|[E [c Hc]]]]]; [done| | |].
    + exists []. split_and!; [constructor|done|set_solver].
    + exists ts. rewrite E. done.
    + exists (w :: ts). split_and!.
      * constructor; [|done]. intros Hin. by destruct (Hts w Hin).
      * simpl. lia.
      * intros t [->|Ht]%elem_of_cons; [|by apply Hk]. rewrite Hcd, Hstb. naive_solver.
  - intros u t Hu. apply Hnw in Hu as [Hu Hne]. rewrite Hstb, Hcd, Hid.
    destruct (c_new _ _ H u t Hu) as (? & ? & ?). done.
  - intros u u' t Hu Hu'. apply Hnw in Hu as [Hu _]. apply Hnw in Hu' as [Hu' _]. by eapply (c_new_inj _ _ H).
  - intros t c. rewrite Hcd. apply H.
  - intros i. rewrite Hid, Hcd. apply H.
  - intros t. rewrite Hcd, Hst. case_decide; [done|]. apply H.
Qed.

(** ** Updates of the thread table *)

Lemma cd_upd k t f u : (forall th, code (f th) = code th) -> cd (with_threads (alter f t) k) u = cd k u.
Proof.
  intros Hf. unfold cd. simpl. destruct (decide (t = u)) as [->|]; [|by rewrite lookup_alter_ne].
  rewrite lookup_alter_eq. by destruct (threads k !! u); simpl; rewrite ?Hf.
Qed.
Lemma nw_upd k t f u : (forall th, th_new (f th) = th_new th) -> nw (with_threads (alter f t) k) u = nw k u.
Proof.
  intros Hf. unfold nw. simpl. destruct (decide (t = u)) as [->|]; [|by rewrite lookup_alter_ne].
  rewrite lookup_alter_eq. by destruct (threads k !! u); simpl; rewrite ?Hf.
Qed.
Lemma st_upd k t f u : (forall th, status (f th) = status th) -> st (with_threads (alter f t) k) u = st k u.
Proof.
  intros Hf. unfold st. simpl. destruct (decide (t = u)) as [->|]; [|by rewrite lookup_alter_ne].
  rewrite lookup_alter_eq. by destruct (threads k !! u); simpl; rewrite ?Hf.
Qed.
Lemma st_status k t s u th : threads k !! t = Some th ->
  st (with_threads (alter (set_status s) t) k) u = if decide (u = t) then Some s else st k u.
Proof.
  intros Ht. unfold st. simpl. case_decide as E.
  - subst u. by rewrite lookup_alter_eq, Ht.
  - by rewrite lookup_alter_ne.
Qed.
Lemma cd_code k t c u th : threads k !! t = Some th ->
  cd (with_threads (alter (set_code c) t) k) u = if decide (u = t) then Some c else cd k u.
Proof.
  intros Ht. unfold cd. simpl. case_decide as E.
  - subst u. by rewrite lookup_alter_eq, Ht.
  - by rewrite lookup_alter_ne.
Qed.

Lemma wlp_get_thread t k Q : (forall th, threads k !! t = Some th -> Q th k) -> wlp (get_thread t) k Q.
Proof. intros HQ. unfold wlp, get_thread. destruct (threads k !! t) eqn:E; [by apply HQ|done]. Qed.
Lemma wlp_upd_thread t f k Q : (forall th, threads k !! t = Some th -> Q tt (with_threads (alter f t) k)) ->
  wlp (upd_thread t f) k Q.
Proof. intros HQ. apply wlp_bind, wlp_get_thread. intros th Hth. apply wlp_modify. eauto. Qed.
Lemma wlp_thread_current k Q : (st k (current k) = Some THREAD_RUNNING -> Q (current k) k) -> wlp thread_current k Q.
Proof.
  intros HQ. apply wlp_bind, wlp_gets, wlp_bind, wlp_get_thread. intros th Hth.
  apply wlp_bind, wlp_assert. intros Hs%bool_decide_eq_true. apply wlp_ret, HQ. apply st_Some. eauto.
Qed.
Lemma wlp_get_sema r k Q : (forall s, semas k !! r = Some s -> Q s k) -> wlp (get_sema r) k Q.
Proof. intros HQ. unfold wlp, get_sema. destruct (semas k !! r) eqn:E; [by apply HQ|done]. Qed.

Lemma idle_not_down run k t r c : coreR run k -> cd k t = Some (ADown r :: c) -> idle_thread k <> Some t.
Proof. intros H Hc Hi. destruct (c_idle _ _ H t Hi) as [E|[s E]]; congruence. Qed.

(** [sema_up] keeps the scheduling invariant; it changes no code and no
    lock holder, and only the semaphore it is called on. *)
Lemma wlp_sema_up run r k Q : coreR run k ->
  (forall k' s ws, coreR run k' -> semas k !! r = Some s ->
     semas k' = <[r := mk_sema (value s +u 1) ws]> (semas k) -> (forall u, cd k' u = cd k u) ->
     holders k' = holders k -> current k' = current k -> idle_thread k' = idle_thread k -> Q tt k') ->
  wlp (sema_up r) k Q.
Proof.
  intros H HQ. apply wlp_bind, wlp_get_sema. intros s Hs.
  destruct (c_wait _ _ H r s Hs) as (Hv & Hnd & Hw). apply wlp_bind.
  destruct (waiters s) as [|w ws] eqn:Ew.
  - apply wlp_ret, wlp_bind, wlp_get_sema. intros s2 Hs2. assert (s2 = s) as -> by congruence.
    apply wlp_modify, (HQ _ s (waiters s)); [|done..]. 
    destruct H. split; try done; simpl.
    + intros r' s'. rewrite lookup_insert. case_decide as E; [|by eauto]. subst r'. intros [= <-]. simpl.
      rewrite Ew. split_and!; [apply u32_range|constructor|set_solver].
    + intros t r' c Ht Hc. destruct (c_block0 t r' c Ht Hc) as (s' & Hs' & Hin).
      rewrite lookup_insert. case_decide as E; [subst r'|by eauto].
      assert (s' = s) as -> by congruence. exists (mk_sema (value s +u 1) (waiters s)). done.
    + intros r' s'. rewrite lookup_insert. case_decide as E; [|by eauto]. intros [= <-]. simpl. congruence.
  - destruct (Hw w) as [Hwb [cw Hwc]]; [by left|]. apply NoDup_cons in Hnd as [Hni Hnd].
    apply wlp_bind, wlp_modify. apply wlp_bind, wlp_get_thread. intros th Hth.
    apply wlp_bind, wlp_assert. intros _. apply wlp_bind, wlp_modify, wlp_upd_thread. intros th' Hth'.
    simpl in Hth, Hth'. apply wlp_bind, wlp_get_sema. simpl. intros s2. rewrite lookup_insert_eq. intros [= <-].
    simpl. apply wlp_modify. apply (HQ _ s ws); [|done|simpl; by rewrite insert_insert_eq| |done..].
    2: { intros u. unfold cd. simpl. apply cd_upd. done. }
    apply (core_unblock run k _ w); [done|done|by eapply idle_not_down| | | |done|done|].
    + intros u. apply (st_status k w THREAD_READY u th Hth).
    + intros u. by apply (cd_upd k w).
    + intros u t Hu. change (nw (with_threads (alter (set_status THREAD_READY) w) k) u = Some (Some t)) in Hu.
      rewrite nw_upd in Hu by done. split; [done|]. intros ->.
      destruct (c_new _ _ H u w Hu) as (_ & ? & _). congruence.
    + split; simpl; intros r' s'; rewrite insert_insert_eq, lookup_insert; case_decide as E.
      * subst r'. intros Hs'. eexists. split; [done|]. simpl. assert (s' = s) as -> by congruence.
        rewrite Ew. intros t [->|?]%elem_of_cons Hne; done.
      * intros Hs'. eauto.
      * subst r'. intros [= <-]. simpl. split; [apply u32_range|]. exists s. rewrite Ew.
        split_and!; [done|by apply sublist_cons|done|]. right.
        destruct (decide (value s = 2 ^ 32 - 1)) as [->|]; [by left|right; right].
        rewrite u32_small by (urange; lia). eauto.
      * intros Hs'. destruct (c_wait _ _ H r' s' Hs') as (? & ? & Hw'). split; [done|]. exists s'.
        split_and!; [done|done| |by eauto]. intros Hin. destruct (Hw' w Hin) as [_ [c2 Hc2]]. congruence.
Qed.

(** ** Switching threads *)

(** Making [n] run: [n] is off the ready list, or is the idle thread. *)
Lemma core_run k k' n : coreR None k ->
  (ready_list k = n :: ready_list k' \/ ready_list k = [] /\ ready_list k' = [] /\ idle_thread k = Some n) ->
  (forall u, st k' u = if decide (u = n) then Some THREAD_RUNNING else st k u) ->
  (forall u, cd k' u = cd k u) -> (forall u, nw k' u = nw k u) ->
  semas k' = semas k -> idle_thread k' = idle_thread k -> coreR (Some n) k'.
Proof.
  intros H Hn Hst Hcd Hnw Hs Hid.
  assert (Hsts : forall u s, s <> THREAD_RUNNING -> st k' u = Some s <-> st k u = Some s /\ u <> n).
  { intros u s Hsr. rewrite Hst. case_decide; naive_solver. }
  assert (Hw : forall r s t, semas k !! r = Some s -> t ∈ waiters s -> t <> n).
  { intros r s t Hr Ht ->. destruct (c_wait _ _ H r s Hr) as (_ & _ & Hall).
    destruct (Hall n Ht) as [Hb [c Hc]]. destruct Hn as [E|(_ & _ & Hi)].
    - assert (n ∈ ready_list k) as [? _]%(c_ready _ _ H) by (rewrite E; by left). congruence.
    - by eapply idle_not_down. }
  split.
  - intros u. rewrite Hst. case_decide as E; [subst u; done|]. rewrite (c_run _ _ H u). naive_solver.
  - pose proof (c_ready_nodup _ _ H) as Hnd. destruct Hn as [E|(_ & -> & _)]; [|constructor].
    rewrite E in Hnd. by apply NoDup_cons in Hnd as [_ ?].
  - intros u. rewrite Hid, Hsts by done. pose proof (c_ready _ _ H u) as Hr.
    destruct Hn as [E|(E1 & E2 & Hi)].
    + pose proof (c_ready_nodup _ _ H) as Hnd. rewrite E in Hnd, Hr. apply NoDup_cons in Hnd as [Hni _].
      rewrite elem_of_cons in Hr. split.
      * intros Hu. destruct Hr as [[? ?] _]; [by right|]. split_and!; [done| |done]. by intros ->.
      * intros [[? ?] ?]. destruct Hr as [_ [?|?]]; [done|done|done].
    + rewrite E2. rewrite E1 in Hr. rewrite Hr. naive_solver.
  - intros r s. rewrite Hs. intros Hr. destruct (c_wait _ _ H r s Hr) as (? & ? & Hall).
    split_and!; [done..|]. intros t Ht. rewrite Hcd, Hsts by done. destruct (Hall t Ht).
    split_and!; [done| |done]. by eapply Hw.
  - intros t r c Ht Hc. apply Hsts in Ht as [Ht _]; [|done]. rewrite Hcd in Hc. rewrite Hs. by eapply H.
  - intros r s. rewrite Hs. intros Hr Hne. destruct (c_wake _ _ H r s Hr Hne) as (ts & ? & ? & Hts).
    exists ts. split_and!; [done..|]. intros t Ht. rewrite Hcd, Hsts by done. destruct (Hts t Ht). naive_solver.
  - intros u t. rewrite Hnw. intros Hu. destruct (c_new _ _ H u t Hu) as (Hb & Hc & Hi).
    rewrite Hcd, Hid, Hsts by done. split_and!; [done| |done..]. intros ->.
    destruct Hn as [E|(_ & _ & ?)]; [|done].
    assert (n ∈ ready_list k) as [? _]%(c_ready _ _ H) by (rewrite E; by left). congruence.
  - intros u u' t. rewrite !Hnw. apply H.
  - intros t c. rewrite Hcd. apply H.
  - intros i. rewrite Hid, Hcd. apply H.
  - intros t Ht. apply Hsts in Ht as [Ht _]; [|done]. rewrite Hcd. by apply H.
Qed.

(** Freeing a dying thread. *)
Lemma core_free run k t : coreR run k -> st k t = Some THREAD_DYING -> coreR run (with_threads (delete t) k).
Proof.
  intros H Ht. pose proof (c_dying _ _ H t Ht) as Hct.
  assert (Hst : forall u, st (with_threads (delete t) k) u = if decide (u = t) then None else st k u).
  { intros u. unfold st. simpl. case_decide; [subst; by rewrite lookup_delete_eq|by rewrite lookup_delete_ne]. }
  assert (Hcd : forall u, cd (with_threads (delete t) k) u = if decide (u = t) then None else cd k u).
  { intros u. unfold cd. simpl. case_decide; [subst; by rewrite lookup_delete_eq|by rewrite lookup_delete_ne]. }
  assert (Hnw : forall u, nw (with_threads (delete t) k) u = if decide (u = t) then None else nw k u).
  { intros u. unfold nw. simpl. case_decide; [subst; by rewrite lookup_delete_eq|by rewrite lookup_delete_ne]. }
  split; simpl.
  - intros u. rewrite Hst. case_decide as E; [subst u|apply H].
    split; [done|]. intros Hr. apply (c_run _ _ H) in Hr. congruence.
  - apply H.
  - intros u. rewrite Hst, (c_ready _ _ H). case_decide as E; [subst u|done]. rewrite Ht. naive_solver.
  - intros r s Hs. destruct (c_wait _ _ H r s Hs) as (? & ? & Hall). split_and!; [done..|].
    intros u Hu. destruct (Hall u Hu) as [? ?]. rewrite Hst, Hcd. case_decide as E; [subst u; congruence|done].
  - intros u r c. rewrite Hst, Hcd. case_decide; [done|]. apply H.
  - intros r s Hs Hne. destruct (c_wake _ _ H r s Hs Hne) as (ts & ? & ? & Hts). exists ts.
    split_and!; [done..|]. intros u Hu. destruct (Hts u Hu) as [? [c ?]]. rewrite Hst, Hcd.
    case_decide as E; [subst u; congruence|eauto].
  - intros u v. rewrite Hnw. case_decide; [done|]. intros Hu. destruct (c_new _ _ H u v Hu) as (? & ? & ?).
    rewrite Hst, Hcd. case_decide as E; [subst v; congruence|done].
  - intros u u' v. rewrite !Hnw. repeat case_decide; try done. apply H.
  - intros u c. rewrite Hcd. case_decide; [done|]. apply H.
  - intros i Hi. rewrite Hcd. destruct (c_idle _ _ H i Hi) as [?|[s ?]];
      (case_decide as E; [subst i; congruence|eauto]).
  - intros u. rewrite Hst, Hcd. case_decide; [done|]. apply H.
Qed.

Lemma wlp_schedule k Q : coreR None k ->
  (forall k', core k' -> semas k' = semas k -> holders k' = holders k ->
     (forall u c, cd k' u = Some c -> cd k u = Some c) ->
     (forall u c, cd k u = Some c -> cd k' u = Some c \/ c = []) -> Q tt k') ->
  wlp schedule k Q.
Proof.
  intros H HQ. unfold schedule. apply wlp_bind, wlp_gets, wlp_bind.
  assert (Hnext : wlp next_thread_to_run k (fun n k1 => exists rl, k1 = with_ready (fun _ => rl) k /\
    forall n', n = Some n' -> ready_list k = n' :: rl \/ ready_list k = [] /\ rl = [] /\ idle_thread k = Some n')).
  { unfold next_thread_to_run. apply wlp_bind, wlp_gets. destruct (ready_list k) as [|t rest] eqn:E.
    - apply wlp_gets. exists []. split; [|by right]. destruct k; simpl in *; by subst.
    - apply wlp_bind, wlp_modify, wlp_ret. exists rest. split; [done|]. intros ? [= ->]. by left. }
  eapply wlp_mono; [exact Hnext|]. clear Hnext. intros [n|] k1 (rl & -> & Hn); cycle 1.
  { apply wlp_bind, wlp_get_thread. intros. by apply wlp_bind, wlp_assert. }
  specialize (Hn n eq_refl). apply wlp_bind, wlp_get_thread. simpl. intros th Hth.
  apply wlp_bind, wlp_assert. intros _. apply wlp_bind, wlp_get_thread. simpl. intros thn Hthn.
  apply wlp_bind, wlp_modify. unfold schedule_tail. apply wlp_bind, wlp_gets, wlp_bind, wlp_upd_thread.
  simpl. intros _ _. apply wlp_bind, wlp_modify.
  set (k2 := with_ticks _ _ _ _).
  assert (H2 : coreR (Some n) k2).
  { apply (core_run k); [done|exact Hn| | | |done|done]; intros u.
    - apply (st_status k n _ u thn Hthn).
    - by apply (cd_upd k n).
    - by apply (nw_upd k n). }
  assert (Hcd2 : forall u, cd k2 u = cd k u) by (intros u; by apply (cd_upd k n)).
  assert (Hcur2 : current k2 = n) by done.
  assert (Hplain : Q tt k2).
  { apply HQ; [unfold core; by rewrite Hcur2|done|done|..]; intros u c; rewrite Hcd2; auto. }
  destruct (current k =? n); [by apply wlp_ret|]. apply wlp_bind, wlp_get_thread. intros thp Hthp.
  apply wlp_bind, wlp_gets. destruct (bool_decide _ && _) eqn:Ed; [|by apply wlp_ret].
  apply andb_true_iff in Ed as [Hd%bool_decide_eq_true _]. apply wlp_bind, wlp_assert. intros _. apply wlp_modify.
  assert (Hst2 : st k2 (current k) = Some THREAD_DYING) by (apply st_Some; eauto).
  apply HQ; [by apply core_free|done|done|..]; intros u c; unfold cd; simpl.
  - destruct (decide (u = current k)) as [->|]; [by rewrite lookup_delete_eq|].
    rewrite lookup_delete_ne by done. change (cd k2 u = Some c -> cd k u = Some c). by rewrite Hcd2.
  - intros Hc. destruct (decide (u = current k)) as [->|].
    + right. pose proof (c_dying _ _ H2 _ Hst2) as Hcc. rewrite Hcd2 in Hcc. unfold cd in Hcc. congruence.
    + left. rewrite lookup_delete_ne by done. change (cd k2 u = Some c). by rewrite Hcd2.
Qed.

(** The running thread leaves the running state: it yields, the idle thread
    blocks, or it dies. *)
Lemma core_stop t k k' s : coreR (Some t) k -> s <> THREAD_RUNNING ->
  (s = THREAD_BLOCKED -> forall r c, cd k t <> Some (ADown r :: c)) ->
  (s = THREAD_DYING -> cd k t = Some []) ->
  (forall u, st k' u = if decide (u = t) then Some s else st k u) ->
  (forall u, cd k' u = cd k u) -> (forall u, nw k' u = nw k u) ->
  (s = THREAD_READY /\ idle_thread k <> Some t /\ ready_list k' = ready_list k ++ [t] \/
   (s = THREAD_READY -> idle_thread k = Some t) /\ ready_list k' = ready_list k) ->
  semas k' = semas k -> idle_thread k' = idle_thread k -> coreR None k'.
Proof.
  intros H Hs Hsb Hsd Hst Hcd Hnw Hrl Hse Hid.
  assert (Hrun : st k t = Some THREAD_RUNNING) by by apply (c_run _ _ H).
  assert (Hne : forall u x, st k u = Some x -> x <> THREAD_RUNNING -> st k' u = Some x).
  { intros u x Hu Hx. rewrite Hst. case_decide; congruence. }
  assert (Hnr : t ∉ ready_list k) by (intros [? _]%(c_ready _ _ H); congruence).
  split.
  - intros u. rewrite Hst. case_decide as E; [subst u; naive_solver|].
    rewrite (c_run _ _ H). naive_solver.
  - destruct Hrl as [(_ & _ & ->)|[_ ->]]; [|apply H]. apply NoDup_app.
    split_and!; [apply H| |apply NoDup_singleton]. intros x Hx ->%list_elem_of_singleton. done.
  - intros u. rewrite Hid, Hst. destruct Hrl as [(-> & Hi & ->)|[Hi ->]].
    + rewrite elem_of_app, list_elem_of_singleton, (c_ready _ _ H). case_decide; naive_solver.
    + rewrite (c_ready _ _ H). case_decide as E; [subst u|done]. split; [naive_solver|].
      intros [[= ->] Hni]. by destruct Hni; apply Hi.
  - intros r x. rewrite Hse. intros Hr. destruct (c_wait _ _ H r x Hr) as (? & ? & Hall). split_and!; [done..|].
    intros u Hu. destruct (Hall u Hu). rewrite Hcd. auto.
  - intros u r c. rewrite Hcd, Hse, Hst. case_decide as E; [subst u|by apply H].
    intros [= Es] Hc. by destruct (Hsb Es r c).
  - intros r x. rewrite Hse. intros Hr Hw. destruct (c_wake _ _ H r x Hr Hw) as (ts & ? & ? & Hts).
    exists ts. split_and!; [done..|]. intros u Hu. rewrite Hcd, Hst. destruct (Hts u Hu) as [? [c Hc]].
    case_decide as E; [subst u|by eauto]. split; [|by eauto]. intros [= Es]. by destruct (Hsb Es r c).
  - intros u v. rewrite Hnw. intros Hu. destruct (c_new _ _ H u v Hu) as (? & ? & ?).
    rewrite Hcd, Hid. auto.
  - intros u u' v. rewrite !Hnw. apply H.
  - intros u c. rewrite Hcd. apply H.
  - intros i. rewrite Hid, Hcd. apply H.
  - intros u. rewrite Hst, Hcd. case_decide as E; [subst u|apply H]. intros [= ->]. by apply Hsd.
Qed.

(** The running thread blocks in the loop of [sema_down]. *)
Lemma core_sleep t k k' r s c : coreR (Some t) k -> cd k t = Some (ADown r :: c) ->
  semas k !! r = Some s -> value s = 0 ->
  (forall u, st k' u = if decide (u = t) then Some THREAD_BLOCKED else st k u) ->
  (forall u, cd k' u = cd k u) -> (forall u, nw k' u = nw k u) ->
  ready_list k' = ready_list k -> idle_thread k' = idle_thread k ->
  semas k' = <[r := mk_sema (value s) (waiters s ++ [t])]> (semas k) -> coreR None k'.
Proof.
  intros H Hct Hs Hv Hst Hcd Hnw Hrl Hid Hse.
  assert (Hrun : st k t = Some THREAD_RUNNING) by by apply (c_run _ _ H).
  assert (Hne : forall u x, st k u = Some x -> x <> THREAD_RUNNING -> st k' u = Some x).
  { intros u x Hu Hx. rewrite Hst. case_decide; congruence. }
  split.
  - intros u. rewrite Hst. case_decide as E; [subst u; naive_solver|]. rewrite (c_run _ _ H). naive_solver.
  - rewrite Hrl. apply H.
  - intros u. rewrite Hrl, Hid, Hst, (c_ready _ _ H). case_decide as E; [subst u|done]. rewrite Hrun. naive_solver.
  - intros r' x. rewrite Hse, lookup_insert. case_decide as E.
    + subst r'. intros [= <-]. simpl. destruct (c_wait _ _ H r s Hs) as (? & Hnd & Hall). split_and!; [done| |].
      * apply NoDup_app. split_and!; [done| |apply NoDup_singleton]. intros y Hy ->%list_elem_of_singleton.
        destruct (Hall t Hy). congruence.
      * intros u [Hu| ->%list_elem_of_singleton]%elem_of_app; rewrite Hcd.
        -- destruct (Hall u Hu). auto.
        -- rewrite Hst, decide_True by done. eauto.
    + intros Hr. destruct (c_wait _ _ H r' x Hr) as (? & ? & Hall). split_and!; [done..|].
      intros u Hu. destruct (Hall u Hu). rewrite Hcd. auto.
  - intros u r' c'. rewrite Hcd, Hse, Hst. intros Hu Hc. rewrite lookup_insert.
    case_decide as E; [subst u|].
    + assert (r' = r) as -> by congruence. rewrite decide_True by done. eexists. split; [done|]. simpl.
      apply elem_of_app. right. by apply list_elem_of_singleton.
    + destruct (c_block _ _ H u r' c' Hu Hc) as (s' & Hs' & Hin).
      case_decide as E'; [subst r'|by eauto]. eexists. split; [done|]. simpl.
      assert (s' = s) as -> by congruence. apply elem_of_app. by left.
  - intros r' x. rewrite Hse, lookup_insert. case_decide as E.
    + subst r'. intros [= <-] _. simpl. exists []. split_and!; [constructor|done|set_solver].
    + intros Hr Hw. destruct (c_wake _ _ H r' x Hr Hw) as (ts & ? & ? & Hts). exists ts. split_and!; [done..|].
      intros u Hu. rewrite Hcd, Hst. destruct (Hts u Hu) as [? [c' Hc']]. case_decide; [subst u|by eauto]. congruence.
  - intros u v. rewrite Hnw. intros Hu. destruct (c_new _ _ H u v Hu) as (? & ? & ?). rewrite Hcd, Hid. auto.
  - intros u u' v. rewrite !Hnw. apply H.
  - intros u c'. rewrite Hcd. apply H.
  - intros i. rewrite Hid, Hcd. apply H.
  - intros u. rewrite Hst, Hcd. case_decide; [done|]. apply H.
Qed.

(** ** Locks: frame *)

Definition lock_values_same (k k' : kernel) : Prop :=
  holders k' = holders k /\
  forall l, value <$> semas k' !! LockSema l = value <$> semas k !! LockSema l.

Lemma lock_ok_ext k k' l v h : (forall u, transit k' l u <-> transit k l u) -> lock_ok k l v h -> lock_ok k' l v h.
Proof.
  intros Ht [(? & ? & H)|[(? & ? & t & H)|(? & ? & H)]].
  - left. split_and!; [done..|]. intros u. by rewrite Ht.
  - right. left. split_and!; [done..|]. exists t. intros u. by rewrite Ht.
  - right. right. split_and!; [done..|]. intros u. by rewrite Ht.
Qed.

Lemma locks_same k k' : locks_ok k -> lock_values_same k k' ->
  (forall l u, transit k' l u <-> transit k l u) -> locks_ok k'.
Proof.
  intros H [Hh Hv] Ht.
  assert (Hsome : forall l, is_Some (semas k' !! LockSema l) <-> is_Some (semas k !! LockSema l)).
  { intros l. specialize (Hv l). destruct (semas k' !! LockSema l), (semas k !! LockSema l); simpl in Hv;
      try done; split; intros; eauto. }
  split.
  - intros l s' Hs'. specialize (Hv l). rewrite Hs' in Hv. destruct (semas k !! LockSema l) as [s|] eqn:Hs; [|done].
    simplify_eq/=. destruct (lk_state k H l s Hs) as (h & ? & ?). exists h. rewrite Hh, Hv.
    split; [done|]. eapply lock_ok_ext; [|done]. intros u. apply Ht.
  - intros l u. rewrite Ht, Hsome. apply H.
  - intros l h. rewrite Hh, Hsome. apply H.
Qed.

(** Switching threads moves no thread in or out of transit. *)
Lemma transit_switch k k' : (forall u c, cd k' u = Some c -> cd k u = Some c) ->
  (forall u c, cd k u = Some c -> cd k' u = Some c \/ c = []) ->
  forall l u, transit k' l u <-> transit k l u.
Proof.
  intros H1 H2 l u. split; intros (c & Hc & Hin).
  - exists c. auto.
  - destruct (H2 u c Hc) as [?| ->]; [by exists c|]. by destruct Hin as (? & [?|?]).
Qed.

Lemma transit_cur t k k' c' l u : (forall u, u <> t -> cd k' u = cd k u) -> cd k' t = Some c' ->
  transit k' l u <-> (if decide (u = t) then in_transit l c' else transit k l u).
Proof.
  intros Hcd Hc'. unfold transit. case_decide as E; [subst u; rewrite Hc'; naive_solver|by rewrite Hcd].
Qed.

(** ** The states of a step inside the running thread *)

(** [k'] differs from [k] in the code of the running thread, which is now
    [c], and perhaps in other fields than the thread table. *)
Definition moved (k k' : kernel) (c : list action) : Prop :=
  threads k' = alter (set_code c) (current k) (threads k) /\ current k' = current k.

Section Moved.
Context (k k' : kernel) (c0 c : list action).
Hypothesis (Hcode : cd k (current k) = Some c0) (Hm : moved k k' c).

Lemma moved_st u : st k' u = st k u.
Proof. destruct Hm as [E _]. unfold st. rewrite E. by apply (st_upd k). Qed.
Lemma moved_nw u : nw k' u = nw k u.
Proof. destruct Hm as [E _]. unfold nw. rewrite E. by apply (nw_upd k). Qed.
Lemma moved_cd u : cd k' u = if decide (u = current k) then Some c else cd k u.
Proof.
  destruct Hm as [E _]. apply cd_Some in Hcode as (th & Hth & _). unfold cd at 1. rewrite E.
  by apply (cd_code k _ c u th).
Qed.
Lemma moved_cd_ne u : u <> current k -> cd k' u = cd k u.
Proof. intros. by rewrite moved_cd, decide_False. Qed.
Lemma moved_cd_t : cd k' (current k) = Some c.
Proof. by rewrite moved_cd, decide_True. Qed.
End Moved.

Lemma moved_popped k c : moved k (popped c k) c.
Proof. done. Qed.

Lemma wlp_continue k kS c acts Q : moved k kS c ->
  (forall k', moved k k' (acts ++ c) -> ready_list k' = ready_list kS -> idle_thread k' = idle_thread kS ->
     semas k' = semas kS -> holders k' = holders kS -> Q tt k') ->
  wlp (continue acts) kS Q.
Proof.
  intros [E1 E2] HQ. apply wlp_bind, wlp_gets, wlp_upd_thread. intros th Hth. apply HQ; [|done..].
  split; simpl; [|done]. rewrite E1, E2, alter_alter_eq. by apply alter_ext.
Qed.

Section Local.
Context (k : kernel) (a : action) (c : list action).
Hypothesis (Hinv : inv k) (Hcode : cd k (current k) = Some (a :: c)).
Let t := current k.

Lemma cur_running : st k t = Some THREAD_RUNNING.
Proof. by apply (c_run _ _ (proj1 Hinv)). Qed.
Lemma cur_wf : wf t (a :: c).
Proof. by eapply (c_code _ _ (proj1 Hinv)). Qed.
Lemma cur_idle : idle_thread k = Some t -> (exists s, a = AUp (Sema s) /\ c = [AIdle]) \/ (a = AIdle /\ c = []).
Proof. intros [E|[s E]]%(c_idle _ _ (proj1 Hinv)); unfold t in E; rewrite E in Hcode; simplify_eq; eauto. Qed.

(** The step stays in the thread, which goes on with [c']; the scheduling
    part of the invariant. *)
Lemma core_moved k' c' : moved k k' c' -> wf t c' ->
  ready_list k' = ready_list k -> idle_thread k' = idle_thread k ->
  (idle_thread k = Some t -> c' = [AIdle]) -> semas_local k k' (a :: c) -> core k'.
Proof.
  intros Hm Hwf Hrl Hid Hidle Hse. pose proof Hm as [_ Hcur]. unfold core. rewrite Hcur.
  eapply (core_local t k k' (a :: c) c'); eauto using moved_st, moved_nw, moved_cd_ne, moved_cd_t.
  apply Hinv.
Qed.

(** The same with the locks, for an action that does not touch them. *)
Lemma inv_local k' c' : moved k k' c' -> code_ok t c' ->
  ready_list k' = ready_list k -> idle_thread k' = idle_thread k ->
  (idle_thread k = Some t -> c' = [AIdle]) -> (forall l, ~ in_transit l (a :: c)) ->
  lock_values_same k k' -> semas_local k k' (a :: c) -> inv k'.
Proof.
  intros Hm Hok Hrl Hid Hidle Htr Hlk Hse. split; [apply (core_moved k' c'); try done; by left|].
  apply (locks_same k); [apply Hinv|done|]. intros l u.
  rewrite (transit_cur t k k' c' l u (moved_cd_ne k k' _ c' Hcode Hm) (moved_cd_t k k' _ c' Hcode Hm)).
  case_decide as E; [subst u|done]. unfold transit, t. rewrite Hcode. split.
  - intros Hin. by destruct (code_ok_not_transit _ _ _ Hok Hin).
  - intros (? & [= <-] & Hin). by destruct (Htr l Hin).
Qed.

(** An action on semaphores and locks that leaves both alone. *)
Lemma inv_plain k' c' : moved k k' c' -> code_ok t c' ->
  ready_list k' = ready_list k -> idle_thread k' = idle_thread k -> semas k' = semas k -> holders k' = holders k ->
  (idle_thread k = Some t -> c' = [AIdle]) -> (forall l, ~ in_transit l (a :: c)) ->
  (forall r, a <> ADown r) -> inv k'.
Proof.
  intros Hm Hok Hrl Hid Hs Hh Hidle Htr Ha. apply (inv_local k' c'); try done.
  - split; [done|]. intros l. by rewrite Hs.
  - eapply semas_local_same; [apply Hinv|done|]. intros r [= ?]. by eapply Ha.
Qed.
End Local.
