(* ===== verification/ThreadsSteps.v ===== *)
(** * Every step of the thread machine keeps the invariant *)

From S2P Require Import Prelude Threads ThreadsInv.

(** ** Semaphores *)

Lemma semas_local_take run k k' r s c0 : coreR run k -> semas k !! r = Some s -> value s <> 0 ->
  semas k' = <[r := mk_sema (value s -u 1) (waiters s)]> (semas k) ->
  (forall r', r' <> r -> head c0 <> Some (ADown r')) -> semas_local k k' c0.
Proof.
  intros H Hs Hv E Hh. destruct (c_wait _ _ H r s Hs) as (Hu & _ & _).
  assert (Ev : value s -u 1 = value s - 1) by (apply u32_small; urange; lia).
  split; intros r'; rewrite E; intros x; [intros Hx|]; rewrite lookup_insert; case_decide as Er.
  - subst r'. exists (mk_sema (value s -u 1) (waiters s)). split; [done|]. simpl. congruence.
  - eauto.
  - subst r'. intros [= <-]. simpl. split; [apply u32_range|]. right. exists s.
    split_and!; [done..|]. right. urange. lia.
  - intros Hx. split; [by eapply c_wait|]. right. exists x. split_and!; [done..|]. left. eauto.
Qed.

Lemma lock_values_insert k k' r s x : holders k' = holders k -> semas k !! r = Some s ->
  semas k' = <[r := x]> (semas k) -> (forall l, r = LockSema l -> value x = value s) -> lock_values_same k k'.
Proof.
  intros Hh Hs E Hr. split; [done|]. intros l. rewrite E, lookup_insert. case_decide as Er; [|done].
  rewrite <- Er, Hs. simpl. f_equal. by apply (Hr l).
Qed.

(** Taking the semaphore of a free lock puts the thread in transit. *)
Lemma locks_take k k' l s c' : locks_ok k -> semas k !! LockSema l = Some s -> value s <> 0 ->
  (forall l', ~ transit k l' (current k)) ->
  holders k' = holders k -> semas k' = <[LockSema l := mk_sema (value s -u 1) (waiters s)]> (semas k) ->
  (forall u, u <> current k -> cd k' u = cd k u) -> cd k' (current k) = Some (ASetHolder l :: c') ->
  locks_ok k'.
Proof.
  intros H Hs Hv Hnt Hh Hse Hcd Hct.
  assert (Htr : forall l' u, transit k' l' u <-> transit k l' u \/ (l' = l /\ u = current k)).
  { intros l' u. rewrite (transit_cur (current k) k k' (ASetHolder l :: c') l' u) by done. case_decide as E.
    - subst u. specialize (Hnt l'). unfold in_transit. naive_solver.
    - naive_solver. }
  assert (Hsome : forall l', is_Some (semas k !! LockSema l') -> is_Some (semas k' !! LockSema l')).
  { intros l' ?. rewrite Hse, lookup_insert. by case_decide. }
  split.
  - intros l' s'. rewrite Hse, Hh, lookup_insert. case_decide as E.
    + injection E as <-. intros [= <-]. destruct (lk_state k H l s Hs) as (h & Hhl & Hok).
      exists h. split; [done|]. simpl.
      destruct Hok as [(E1 & -> & Hno)|[(E1 & _)|(E1 & _)]]; [|done..]. rewrite E1. right. left.
      split_and!; [done..|]. exists (current k). intros u. rewrite Htr. naive_solver.
    + intros Hs'. destruct (lk_state k H l' s' Hs') as (h & Hhl & Hok). exists h. split; [done|].
      eapply lock_ok_ext; [|done]. intros u. rewrite Htr. naive_solver.
  - intros l' u [Ht|[-> _]]%Htr; apply Hsome; [by eapply lk_transit|by rewrite Hs].
  - intros l' h. rewrite Hh. intros. apply Hsome. by eapply lk_holder.
Qed.

Lemma cur_not_transit k a c l : cd k (current k) = Some (a :: c) -> ~ in_transit l (a :: c) -> ~ transit k l (current k).
Proof. intros Hc Hn (c' & Hc' & Hin). rewrite Hc in Hc'. by simplify_eq. Qed.

Ltac not_transit :=
  repeat match goal with |- forall _ : Z, _ => intros ? end; intros (? & [?|?]); discriminate.

Lemma step_sema_down k r c : inv k -> cd k (current k) = Some (ADown r :: c) ->
  wlp (sema_down_test r) (popped c k) (fun _ k' => inv k').
Proof.
  intros Hinv Hcode. pose proof Hinv as [Hc Hl]. set (t := current k) in *.
  assert (Hni : idle_thread k <> Some t) by by eapply idle_not_down.
  apply wlp_bind, wlp_get_sema. intros s Hs. simpl in Hs. destruct (Z.eqb_spec (value s) 0) as [Hv|Hv].
  - apply wlp_bind, wlp_thread_current. intros _. apply wlp_bind, wlp_modify.
    apply wlp_bind, (wlp_continue k _ c); [done|]. simpl. intros k2 Hm Hr2 Hi2 Hs2 Hh2.
    assert (Hcd2 : forall u, cd k2 u = cd k u).
    { intros u. rewrite (moved_cd k k2 _ _ Hcode Hm). case_decide; [by subst|done]. }
    apply wlp_bind, wlp_thread_current. intros Hrun. apply wlp_bind, wlp_upd_thread. intros th Hth.
    pose proof (moved_st _ _ _ Hm) as Hst2. pose proof (moved_nw _ _ _ Hm) as Hnw2. destruct Hm as [_ Hcur].
    rewrite Hcur in *. apply wlp_schedule.
    + apply (core_sleep t k _ r s c); [done..| | | |done|done|done].
      * intros u. rewrite (st_status k2 t _ u th Hth). by rewrite Hst2.
      * intros u. rewrite cd_upd by done. apply Hcd2.
      * intros u. rewrite nw_upd by done. apply Hnw2.
    + simpl. intros k' Hc' Hs' Hh' Hcda Hcdb. split; [done|]. apply (locks_same k); [done| |].
      * split; [congruence|]. intros l. rewrite Hs', Hs2. simpl. rewrite lookup_insert. case_decide as E; [|done].
        rewrite <- E, Hs. done.
      * apply transit_switch; intros u x Hx.
        -- apply Hcda in Hx. rewrite cd_upd in Hx by done. by rewrite <- Hcd2.
        -- apply Hcdb. rewrite cd_upd by done. by rewrite Hcd2.
  - apply wlp_modify. set (k' := with_semas _ _). assert (Hm : moved k k' c) by done.
    assert (Hse : semas_local k k' (ADown r :: c)).
    { eapply semas_local_take; [done..|]. intros r' Hne [= ?]. congruence. }
    assert (Hwf := cur_wf k _ c Hinv Hcode).
    destruct (wf_tail _ _ _ Hwf) as [Hok|[(l & c' & [= ->] & -> & Hok)|(l & c' & ? & _)]]; [| |done].
    + apply (inv_local k (ADown r) c Hinv Hcode k' c); try done; [not_transit|].
      eapply lock_values_insert; [done..|]. intros l ->. destruct Hwf as [Hwf|(l' & c' & [?|?] & _)]; [|done..].
      destruct c as [|[] c]; try done.
    + split; [apply (core_moved k _ _ Hinv Hcode k' _ Hm); try done; by eapply wf_pop|].
      apply (locks_take k k' l s c'); try done.
      * intros l'. eapply cur_not_transit; [exact Hcode|not_transit].
      * apply (moved_cd_ne k k' _ _ Hcode Hm).
      * apply (moved_cd_t k k' _ _ Hcode Hm).
Qed.

(** The state after the first action of the code was taken off, for an
    action that holds no lock in transit. *)
Lemma inv_popped k a c : inv k -> cd k (current k) = Some (a :: c) -> code_ok (current k) c ->
  (forall l, ~ in_transit l (a :: c)) -> (forall r, a <> ADown r) -> a <> AIdle -> inv (popped c k).
Proof.
  intros Hinv Hcode Hok Htr Ha Hai. apply (inv_plain k a c Hinv Hcode _ c); try done.
  intros Hi. destruct (cur_idle k a c Hinv Hcode Hi) as [(s & -> & ->)|[-> _]]; done.
Qed.

(** Changes that no part of the invariant sees. *)
Lemma inv_ext k k' : inv k -> (forall u, st k' u = st k u) -> (forall u, cd k' u = cd k u) ->
  (forall u, nw k' u = nw k u) -> ready_list k' = ready_list k -> idle_thread k' = idle_thread k ->
  semas k' = semas k -> holders k' = holders k -> current k' = current k -> inv k'.
Proof.
  intros [H Hl] Hst Hcd Hnw Hr Hi Hs Hh Hc. split.
  - unfold core in *. rewrite Hc. split; intros *;
      rewrite ?Hst, ?Hcd, ?Hnw, ?Hr, ?Hi, ?Hs; try apply H.
    + intros Hx. destruct (c_wait _ _ H _ _ Hx) as (? & ? & Hall). split_and!; [done..|].
      intros t. rewrite Hst, Hcd. apply Hall.
    + intros Hx Hne. destruct (c_wake _ _ H _ _ Hx Hne) as (ts & ? & ? & Hts). exists ts. split_and!; [done..|].
      intros t. rewrite Hst, Hcd. apply Hts.
  - apply (locks_same k); [done|split; [done|intros; by rewrite Hs]|]. intros l u. unfold transit. by rewrite Hcd.
Qed.

Lemma step_sema_up k r c : inv k -> cd k (current k) = Some (AUp r :: c) ->
  wlp (sema_up r) (popped c k) (fun _ k' => inv k').
Proof.
  intros Hinv Hcode. pose proof (cur_wf k _ c Hinv Hcode) as Hwf.
  assert (Hok : code_ok (current k) c).
  { destruct (wf_tail _ _ _ Hwf) as [?|[(? & ? & ? & _)|(? & ? & ? & _)]]; done. }
  assert (Hm : moved k (popped c k) c) by done.
  assert (Hc1 : core (popped c k)).
  { apply (core_moved k (AUp r) c Hinv Hcode _ c Hm); try done; [by left| |].
    - intros Hi. destruct (cur_idle k _ c Hinv Hcode Hi) as [(s & _ & ->)|[? _]]; done.
    - eapply semas_local_same; [apply Hinv|done|done]. }
  apply (wlp_sema_up _ r (popped c k) _ Hc1). intros k' s ws Hc' Hs Hs' Hcd Hh Hcur Hid. simpl in *.
  split; [unfold core; by rewrite Hcur|]. destruct Hinv as [_ Hl].
  assert (Htr : forall l u, transit k' l u <-> transit k l u /\ (u <> current k)).
  { intros l u. unfold transit. setoid_rewrite Hcd. setoid_rewrite (moved_cd k _ _ _ Hcode Hm). case_decide as E.
    - subst u. split; [|by intros [_ ?]]. intros (? & [= <-] & Hin). by destruct (code_ok_not_transit _ _ _ Hok Hin).
    - naive_solver. }
  assert (Hcur_tr : forall l, transit k l (current k) <-> r = LockSema l).
  { intros l. unfold transit. rewrite Hcode. split.
    - intros (? & [= <-] & (x & [?|[= -> _]])); done.
    - intros ->. eexists. split; [done|]. exists c. by right. }
  assert (Hsome : forall l, is_Some (semas k !! LockSema l) -> is_Some (semas k' !! LockSema l)).
  { intros l ?. rewrite Hs', lookup_insert. by case_decide. }
  split.
  - intros l s2. rewrite Hs', Hh, lookup_insert. case_decide as E.
    + subst r. intros [= <-]. simpl. destruct (lk_state k Hl l s Hs) as (h & Hhl & Hlk). exists h. split; [done|].
      assert (Ht : transit k l (current k)) by by apply Hcur_tr.
      destruct Hlk as [(_ & _ & Hno)|[(E1 & E2 & t & Hall)|(_ & _ & Hno)]]; [by destruct (Hno _ Ht)| |by destruct (Hno _ Ht)].
      left. rewrite E1. split_and!; [done..|]. intros u [Hu Hne]%Htr. apply Hall in Ht, Hu. congruence.
    + intros Hs2. destruct (lk_state k Hl l s2 Hs2) as (h & Hhl & Hlk). exists h. split; [done|].
      eapply lock_ok_ext; [|done]. intros u. rewrite Htr. split; [tauto|]. intros Hu. split; [done|]. intros ->.
      by apply Hcur_tr in Hu.
  - intros l u [Hu _]%Htr. apply Hsome. by eapply lk_transit.
  - intros l h. rewrite Hh. intros. apply Hsome. by eapply lk_holder.
Qed.

(** ** Locks *)

(** Both writes to the holder: [ASetHolder] and [AClearHolder].  The thread
    is in transit before or after, and no other thread is. *)
Lemma inv_holder k a c l h' : inv k -> cd k (current k) = Some (a :: c) -> wf (current k) c ->
  is_Some (semas k !! LockSema l) -> (forall r, a <> ADown r) -> idle_thread k <> Some (current k) ->
  (forall l', l' <> l -> ~ in_transit l' (a :: c) /\ ~ in_transit l' c) ->
  (forall s, semas k !! LockSema l = Some s ->
     lock_ok (with_holders (insert l h') (popped c k)) l (value s) h') ->
  inv (with_holders (insert l h') (popped c k)).
Proof.
  intros Hinv Hcode Hwf Hl Ha Hi Hne Hlk. set (k' := with_holders _ _) in *. assert (Hm : moved k k' c) by done.
  split.
  - apply (core_moved k a c Hinv Hcode k' c Hm); try done.
    eapply semas_local_same; [apply Hinv|done|]. intros r [= ?]. by eapply Ha.
  - destruct Hinv as [_ H].
    assert (Htr : forall l' u, l' <> l -> transit k' l' u <-> transit k l' u).
    { intros l' u Hl'. destruct (Hne l' Hl') as [H1 H2].
      rewrite (transit_cur (current k) k k' c l' u (moved_cd_ne k k' _ _ Hcode Hm) (moved_cd_t k k' _ _ Hcode Hm)).
      case_decide as E; [subst u|done]. unfold transit. rewrite Hcode. naive_solver. }
    split; simpl.
    + intros l' s Hs. rewrite lookup_insert. case_decide as E; [subst l'; eauto|].
      destruct (lk_state k H l' s Hs) as (h & ? & ?). exists h. split; [done|].
      eapply lock_ok_ext; [|done]. intros u. by apply Htr.
    + intros l' u Hu. destruct (decide (l' = l)) as [->|]; [done|]. eapply (lk_transit k H). by apply Htr.
    + intros l' h. rewrite lookup_insert. case_decide as E; [by subst l'|]. apply H.
Qed.

Lemma wlp_get_holder l k Q : (forall h, holders k !! l = Some h -> Q h k) -> wlp (get_holder l) k Q.
Proof. intros HQ. unfold wlp, get_holder. destruct (holders k !! l) eqn:E; [by apply HQ|done]. Qed.

Lemma wlp_held l k Q : (forall h, holders k !! l = Some h -> Q (bool_decide (h = Some (current k))) k) ->
  wlp (lock_held_by_current_thread l) k Q.
Proof.
  intros HQ. apply wlp_bind, wlp_get_holder. intros h Hh. apply wlp_bind, wlp_thread_current.
  intros _. by apply wlp_ret, HQ.
Qed.

Lemma step_set_holder k l c : inv k -> cd k (current k) = Some (ASetHolder l :: c) ->
  wlp (exec (ASetHolder l)) (popped c k) (fun _ k' => inv k').
Proof.
  intros Hinv Hcode. pose proof (cur_wf k _ c Hinv Hcode) as Hwf.
  assert (Hok : code_ok (current k) c).
  { destruct (wf_tail _ _ _ Hwf) as [?|[(? & ? & ? & _)|(? & ? & ? & _)]]; done. }
  assert (Ht : transit k l (current k)) by (unfold transit; rewrite Hcode; eexists; split; [done|exists c; by left]).
  apply wlp_bind, wlp_get_holder. simpl. intros h Hh. apply wlp_bind, wlp_thread_current. intros _. apply wlp_modify.
  apply (inv_holder k (ASetHolder l) c); try done.
  - by left.
  - by eapply (lk_transit k (proj2 Hinv)).
  - intros Hi. destruct (cur_idle k _ c Hinv Hcode Hi) as [(s & ? & _)|[? _]]; done.
  - intros l' Hne. split; [|by eapply code_ok_not_transit]. intros (x & [[= <- _]|?]); done.
  - intros s Hs. destruct (lk_state k (proj2 Hinv) l s Hs) as (h2 & Hh2 & Hlk).
    destruct Hlk as [(_ & _ & Hno)|[(E1 & E2 & t & Hall)|(_ & _ & Hno)]]; [by destruct (Hno _ Ht)| |by destruct (Hno _ Ht)].
    right. right. split_and!; [done|by eauto|]. intros u.
    set (k' := with_holders _ _). assert (Hm : moved k k' c) by done.
    rewrite (transit_cur (current k) k k' c l u (moved_cd_ne k k' _ _ Hcode Hm) (moved_cd_t k k' _ _ Hcode Hm)).
    case_decide as E; [by eapply code_ok_not_transit|]. rewrite Hall. apply Hall in Ht. congruence.
Qed.

Lemma step_clear_holder k l c : inv k -> cd k (current k) = Some (AClearHolder l :: c) ->
  wlp (exec (AClearHolder l)) (popped c k) (fun _ k' => inv k').
Proof.
  intros Hinv Hcode. pose proof (cur_wf k _ c Hinv Hcode) as Hwf.
  assert (Hc' : exists c', c = AUp (LockSema l) :: c').
  { destruct Hwf as [H|(? & ? & [?|?] & _)]; [|done..]. simpl in H.
    destruct c as [|[|?|[]| | | | | | | | | | | | | | | | | |] c]; try done. destruct H as [-> _]. eauto. }
  destruct Hc' as [c' ->]. apply wlp_bind, wlp_held. simpl. intros h Hh. apply wlp_bind, wlp_assert.
  intros ->%bool_decide_eq_true. apply wlp_modify.
  apply (inv_holder k (AClearHolder l) (AUp (LockSema l) :: c')); try done.
  - by eapply wf_pop.
  - by eapply (lk_holder k (proj2 Hinv)).
  - intros Hi. destruct (cur_idle k _ _ Hinv Hcode Hi) as [(s & ? & _)|[? _]]; done.
  - intros l' Hne. split; [not_transit|]. intros (x & [?|[= <- _]]); done.
  - intros s Hs. destruct (lk_state k (proj2 Hinv) l s Hs) as (h2 & Hh2 & Hlk). rewrite Hh in Hh2. injection Hh2 as <-.
    destruct Hlk as [(_ & ? & _)|[(_ & ? & _)|(E1 & _ & Hno)]]; [done..|].
    right. left. split_and!; [done|done|]. exists (current k). intros u.
    set (k' := with_holders _ _). assert (Hm : moved k k' (AUp (LockSema l) :: c')) by done.
    rewrite (transit_cur (current k) k k' _ l u (moved_cd_ne k k' _ _ Hcode Hm) (moved_cd_t k k' _ _ Hcode Hm)).
    case_decide as E; [|split; [by intros ?%Hno|done]]. split; [done|]. intros _. exists c'. by right.
Qed.

Lemma not_idle k a c : inv k -> cd k (current k) = Some (a :: c) ->
  (forall s, a <> AUp (Sema s)) -> a <> AIdle -> idle_thread k <> Some (current k).
Proof. 
  intros Hinv Hcode H1 H2 Hi. destruct (cur_idle k _ _ Hinv Hcode Hi) as [(s & E & _)|[E _]]; [by eapply H1|done].
Qed.

Lemma step_try_lock k l c : inv k -> cd k (current k) = Some (ATryLock l :: c) ->
  wlp (exec (ATryLock l)) (popped c k) (fun _ k' => inv k').
Proof.
  intros Hinv Hcode. pose proof Hinv as [Hc Hl]. pose proof (cur_wf k _ c Hinv Hcode) as Hwf.
  assert (Hok : code_ok (current k) c).
  { destruct (wf_tail _ _ _ Hwf) as [?|[(? & ? & ? & _)|(? & ? & ? & _)]]; done. }
  pose proof (not_idle k _ c Hinv Hcode) as Hni.
  apply wlp_bind, wlp_bind, wlp_get_sema. simpl. intros s Hs. destruct (Z.ltb_spec 0 (value s)).
  - apply wlp_bind, wlp_modify, wlp_ret, (wlp_continue k _ c); [done|]. simpl.
    intros k' Hm Hr Hi Hs' Hh. split.
    + apply (core_moved k (ATryLock l) c Hinv Hcode k' _ Hm); try done.
      * right. exists l, c. auto.
      * intros Hx. by destruct Hni.
      * eapply (semas_local_take _ k k' _ s); [done|done|lia|done|done].
    + apply (locks_take k k' l s c); try done; [lia| | |].
      * intros l'. eapply cur_not_transit; [exact Hcode|not_transit].
      * apply (moved_cd_ne k k' _ _ Hcode Hm).
      * apply (moved_cd_t k k' _ _ Hcode Hm).
  - apply wlp_ret, wlp_ret. eapply inv_popped; try done. not_transit.
Qed.

Lemma step_lock_init k l c : inv k -> cd k (current k) = Some (ALockInit l :: c) ->
  semas k !! LockSema l = None -> wlp (exec (ALockInit l)) (popped c k) (fun _ k' => inv k').
Proof.
  intros Hinv Hcode Hno. pose proof (cur_wf k _ c Hinv Hcode) as Hwf.
  assert (Hok : code_ok (current k) c).
  { destruct (wf_tail _ _ _ Hwf) as [?|[(? & ? & ? & _)|(? & ? & ? & _)]]; done. }
  pose proof (not_idle k _ c Hinv Hcode) as Hni.
  apply wlp_bind, wlp_modify, wlp_modify. set (k' := with_semas _ _). assert (Hm : moved k k' c) by done.
  assert (Hnt : forall l', ~ transit k l' (current k)).
  { intros l'. eapply cur_not_transit; [exact Hcode|not_transit]. }
  split.
  - apply (core_moved k (ALockInit l) c Hinv Hcode k' _ Hm); try done; [by left|intros Hx; by destruct Hni|].
    split; intros r s; simpl; rewrite lookup_insert; case_decide as E.
    + subst r. congruence.
    + eauto.
    + intros [= <-]. split; [split; done|by left].
    + intros Hs. split; [by eapply (c_wait _ _ (proj1 Hinv))|]. right. exists s. eauto.
  - destruct Hinv as [_ H].
    assert (Htr : forall l' u, transit k' l' u <-> transit k l' u).
    { intros l' u.
      rewrite (transit_cur (current k) k k' c l' u (moved_cd_ne k k' _ _ Hcode Hm) (moved_cd_t k k' _ _ Hcode Hm)).
      case_decide as E; [subst u|done]. pose proof (Hnt l'). pose proof (code_ok_not_transit _ l' _ Hok). tauto. }
    split; simpl.
    + intros l' s. rewrite !lookup_insert. destruct (decide (l = l')) as [->|Hne].
      * rewrite decide_True by done. intros [= <-]. exists None. split; [done|]. left. split_and!; [done..|].
        intros u Hu%Htr. apply (lk_transit k H) in Hu. rewrite Hno in Hu. by destruct Hu.
      * rewrite decide_False by congruence. intros Hs. destruct (lk_state k H l' s Hs) as (h & ? & ?).
        exists h. split; [done|]. eapply lock_ok_ext; [|done]. intros u. by apply Htr.
    + intros l' u Hu%Htr. rewrite lookup_insert. case_decide; [done|]. by eapply lk_transit.
    + intros l' h. rewrite !lookup_insert. destruct (decide (l = l')) as [->|Hne].
      * by rewrite decide_True.
      * rewrite decide_False by congruence. apply H.
Qed.

Lemma step_sema_init k r v c : inv k -> cd k (current k) = Some (ASemaInit r v :: c) ->
  allowed k (ASemaInit r v) -> wlp (exec (ASemaInit r v)) (popped c k) (fun _ k' => inv k').
Proof.
  intros Hinv Hcode Hal. pose proof (cur_wf k _ c Hinv Hcode) as Hwf.
  assert (Hok : code_ok (current k) c).
  { destruct (wf_tail _ _ _ Hwf) as [?|[(? & ? & ? & _)|(? & ? & ? & _)]]; done. }
  pose proof (not_idle k _ c Hinv Hcode) as Hni.
  assert (Hr : (forall l, r <> LockSema l) /\ is_u32 v /\ forall s, semas k !! r = Some s -> waiters s = []).
  { destruct Hwf as [Hwf|(? & ? & [?|?] & _)]; [|done..]. destruct r as [a|l|u]; simpl in Hwf, Hal; [|done|].
    - split_and!; [done|apply Hwf|]. intros s Hs. congruence.
    - destruct Hwf as (-> & -> & _). split_and!; [done..|]. intros s Hs.
      destruct (c_wait _ _ (proj1 Hinv) _ s Hs) as (_ & _ & Hall). destruct (waiters s) as [|w ws]; [done|].
      destruct (Hall w) as [Hb [cw Hcw]]; [by left|]. exfalso.
      pose proof (c_code _ _ (proj1 Hinv) w _ Hcw) as [Hww|(? & ? & [?|?] & _)]; [|done..].
      destruct Hww as [<- _]. pose proof (cur_running k Hinv). congruence. }
  destruct Hr as (Hnl & Hv & Hw). apply wlp_modify. set (k' := with_semas _ _). assert (Hm : moved k k' c) by done.
  apply (inv_local k (ASemaInit r v) c Hinv Hcode k' c Hm); try done; [intros Hx; by destruct Hni|not_transit|..].
  - split; [done|]. intros l. simpl. rewrite lookup_insert_ne; [done|]. apply Hnl.
  - split; intros r' s; simpl; rewrite lookup_insert; case_decide as E.
    + subst r'. intros Hs. eexists. split; [done|]. simpl. symmetry. eauto.
    + eauto.
    + intros [= <-]. split; [done|by left].
    + intros Hs. split; [by eapply (c_wait _ _ (proj1 Hinv))|]. right. exists s. eauto.
Qed.

(** ** Scheduling *)

Lemma inv_stop k k' s : inv k -> s <> THREAD_RUNNING ->
  (s = THREAD_BLOCKED -> forall r c, cd k (current k) <> Some (ADown r :: c)) ->
  (s = THREAD_DYING -> cd k (current k) = Some []) ->
  (forall u, st k' u = if decide (u = current k) then Some s else st k u) ->
  (forall u, cd k' u = cd k u) -> (forall u, nw k' u = nw k u) ->
  (s = THREAD_READY /\ idle_thread k <> Some (current k) /\ ready_list k' = ready_list k ++ [current k] \/
   (s = THREAD_READY -> idle_thread k = Some (current k)) /\ ready_list k' = ready_list k) ->
  semas k' = semas k -> holders k' = holders k -> idle_thread k' = idle_thread k ->
  wlp schedule k' (fun _ k2 => inv k2).
Proof.
  intros [Hc Hl] Hs Hb Hd Hst Hcd Hnw Hr Hse Hh Hi. apply wlp_schedule; [by eapply core_stop|].
  intros k2 Hc2 Hs2 Hh2 H1 H2. split; [done|]. apply (locks_same k); [done| |].
  - split; [congruence|]. intros l. by rewrite Hs2, Hse.
  - apply transit_switch; intros u x; rewrite <- Hcd; auto.
Qed.

Lemma step_yield k : inv k -> wlp thread_yield k (fun _ k' => inv k').
Proof.
  intros Hinv. apply wlp_bind, wlp_thread_current. intros _. apply wlp_bind, wlp_gets, wlp_bind.
  case_bool_decide as Ei.
  - apply wlp_ret, wlp_bind, wlp_upd_thread. intros th Hth. apply (inv_stop k _ THREAD_READY); try done.
    + intros u. by apply (st_status k _ _ u th).
    + intros u. by apply cd_upd.
    + intros u. by apply nw_upd.
    + right. done.
  - apply wlp_modify, wlp_bind, wlp_upd_thread. intros th Hth. apply (inv_stop k _ THREAD_READY); try done.
    + intros u. by apply (st_status k _ _ u th).
    + intros u. by apply (cd_upd k).
    + intros u. by apply (nw_upd k).
    + left. done.
Qed.

Lemma step_idle k c : inv k -> cd k (current k) = Some (AIdle :: c) ->
  wlp (exec AIdle) (popped c k) (fun _ k' => inv k').
Proof.
  intros Hinv Hcode. apply wlp_bind, (wlp_continue k _ c); [done|]. simpl. intros k2 Hm Hr2 Hi2 Hs2 Hh2.
  assert (Hcd2 : forall u, cd k2 u = cd k u).
  { intros u. rewrite (moved_cd k k2 _ _ Hcode Hm). case_decide; [by subst|done]. }
  apply wlp_bind, wlp_thread_current. intros Hrun. apply wlp_bind, wlp_upd_thread. intros th Hth.
  pose proof (moved_st _ _ _ Hm) as Hst2. pose proof (moved_nw _ _ _ Hm) as Hnw2. destruct Hm as [_ Hcur].
  rewrite Hcur in *. apply (inv_stop k _ THREAD_BLOCKED); try done.
  - intros _ r c'. rewrite Hcode. congruence.
  - intros u. rewrite (st_status k2 _ _ u th Hth). by rewrite Hst2.
  - intros u. rewrite cd_upd by done. apply Hcd2.
  - intros u. rewrite nw_upd by done. apply Hnw2.
  - right. done.
Qed.

Lemma step_die k c : inv k -> cd k (current k) = Some (ADie :: c) ->
  wlp (exec ADie) (popped c k) (fun _ k' => inv k').
Proof.
  intros Hinv Hcode. pose proof (cur_wf k _ c Hinv Hcode) as Hwf.
  assert (c = []) as -> by by destruct Hwf as [Hwf|(? & ? & [?|?] & _)].
  assert (H1 : inv (popped [] k)) by (eapply inv_popped; try done; not_transit).
  apply wlp_bind, wlp_gets, wlp_bind, wlp_upd_thread. simpl. intros th Hth.
  apply (inv_stop (popped [] k) _ THREAD_DYING); try done.
  - intros _. apply (moved_cd_t k _ _ [] Hcode). done.
  - intros u. by apply (st_status (popped [] k) _ _ u th).
  - intros u. by apply (cd_upd (popped [] k)).
  - intros u. by apply (nw_upd (popped [] k)).
  - right. done.
Qed.

(** ** Creating threads *)

Lemma core_new t k k' pg : coreR (Some t) k -> threads k !! pg = None -> is_Some (threads k !! t) ->
  (forall u, st k' u = if decide (u = pg) then Some THREAD_BLOCKED else st k u) ->
  (forall u, cd k' u = if decide (u = pg) then Some [] else cd k u) ->
  (forall u, nw k' u = if decide (u = pg) then Some None else if decide (u = t) then Some (Some pg) else nw k u) ->
  ready_list k' = ready_list k -> idle_thread k' = idle_thread k -> semas k' = semas k ->
  coreR (Some t) k'.
Proof.
  intros H Hno Ht Hst Hcd Hnw Hr Hi Hs.
  assert (Hstn : st k pg = None) by (unfold st; by rewrite Hno).
  assert (Hne : t <> pg) by (intros ->; rewrite Hno in Ht; by destruct Ht).
  assert (Hsts : forall u x, st k u = Some x -> st k' u = Some x).
  { intros u x Hu. rewrite Hst. case_decide; congruence. }
  assert (Hcds : forall u x, cd k u = Some x -> cd k' u = Some x).
  { intros u x Hu. rewrite Hcd. case_decide; [|done]. subst u. unfold cd in Hu. by rewrite Hno in Hu. }
  assert (Hipg : idle_thread k <> Some pg).
  { intros E. destruct (c_idle _ _ H pg E) as [Ec|[s Ec]]; unfold cd in Ec; by rewrite Hno in Ec. }
  split.
  - intros u. rewrite Hst, <- (c_run _ _ H). case_decide; [subst u; by rewrite Hstn|done].
  - rewrite Hr. apply H.
  - intros u. rewrite Hr, Hi, Hst, (c_ready _ _ H). case_decide; [subst u; rewrite Hstn; naive_solver|done].
  - intros r s. rewrite Hs. intros Hr'. destruct (c_wait _ _ H r s Hr') as (? & ? & Hall). split_and!; [done..|].
    intros u Hu. destruct (Hall u Hu) as [? [c ?]]. eauto.
  - intros u r c. rewrite Hst, Hcd, Hs. case_decide; [done|]. apply H.
  - intros r s. rewrite Hs. intros Hr' Hw. destruct (c_wake _ _ H r s Hr' Hw) as (ts & ? & ? & Hts).
    exists ts. split_and!; [done..|]. intros u Hu. destruct (Hts u Hu) as [? [c Hc]]. split; [|by eauto].
    rewrite Hst. case_decide as E; [|done]. subst u. unfold cd in Hc. by rewrite Hno in Hc.
  - intros u v. rewrite Hnw, Hi. case_decide; [done|]. case_decide as E.
    + intros [= <-]. rewrite Hst, Hcd, !decide_True by done. done.
    + intros Hu. destruct (c_new _ _ H u v Hu) as (? & ? & ?). eauto.
  - intros u u' v. rewrite !Hnw. repeat case_decide; try done; intros Hu Hu'; simplify_eq; try done.
    + destruct (c_new _ _ H u' v Hu') as (Hx & _). congruence.
    + destruct (c_new _ _ H u v Hu) as (Hx & _). congruence.
    + by eapply (c_new_inj _ _ H).
  - intros u c. rewrite Hcd. case_decide; [intros [= <-]; by left|]. apply H.
  - intros i. rewrite Hi. intros E. destruct (c_idle _ _ H i E) as [?|[s ?]]; eauto.
  - intros u. rewrite Hst, Hcd. case_decide; [done|]. apply H.
Qed.

Lemma step_new_thread k pg p c : inv k -> cd k (current k) = Some (ANewThread (Some pg) p :: c) ->
  threads k !! pg = None -> wlp (exec (ANewThread (Some pg) p)) (popped c k) (fun _ k' => inv k').
Proof.
  intros Hinv Hcode Hno. pose proof (cur_wf k _ c Hinv Hcode) as Hwf.
  assert (Hok : code_ok (current k) c).
  { destruct (wf_tail _ _ _ Hwf) as [?|[(? & ? & ? & _)|(? & ? & ? & _)]]; done. }
  assert (H1 : inv (popped c k)) by (eapply inv_popped; try done; not_transit).
  set (k1 := popped c k) in *. set (t := current k) in *.
  assert (Hno1 : threads k1 !! pg = None).
  { subst k1. simpl. destruct (decide (current k = pg)) as [E|]; [|by rewrite lookup_alter_ne].
    rewrite E, lookup_alter_eq, Hno. done. }
  assert (Ht1 : is_Some (threads k1 !! t)).
  { pose proof (moved_cd_t k k1 _ c Hcode (moved_popped k c)) as E. apply cd_Some in E as (th & Hth & _). eauto. }
  assert (Hne : t <> pg) by (intros E; rewrite E, Hno1 in Ht1; by destruct Ht1).
  apply wlp_bind, wlp_assert. intros _. apply wlp_bind, wlp_modify, wlp_bind, wlp_gets, wlp_upd_thread.
  intros th0 Hth0. set (k' := with_threads _ _).
  assert (Hlk : forall u, threads k' !! u = if decide (u = pg) then Some (mk_thread_rec 0 THREAD_BLOCKED p [] None)
    else if decide (u = t) then set_new (Some pg) <$> threads k1 !! u else threads k1 !! u).
  { intros u. subst k'. simpl. fold t. repeat case_decide; subst.
    - by rewrite lookup_alter_ne, lookup_insert_eq.
    - by rewrite lookup_alter_eq, lookup_insert_ne.
    - by rewrite lookup_alter_ne, lookup_insert_ne. }
  assert (Hcd : forall u, cd k' u = if decide (u = pg) then Some [] else cd k1 u).
  { intros u. unfold cd. rewrite Hlk. repeat case_decide; try done. by destruct (threads k1 !! u). }
  split.
  - apply (core_new t k1 k' pg); try done; [apply H1| |].
    + intros u. unfold st. rewrite Hlk. repeat case_decide; try done. by destruct (threads k1 !! u).
    + intros u. unfold nw. rewrite Hlk. repeat case_decide; try done. subst u.
      destruct Ht1 as [th ->]. done.
  - apply (locks_same k1); [apply H1|done|]. intros l u. unfold transit. rewrite Hcd. case_decide as E; [|done].
    subst u. unfold cd. rewrite Hno1. split; [|by intros (? & ? & _)].
    intros (? & [= <-] & (? & [?|?])); done.
Qed.

Lemma step_unblock_new k c : inv k -> cd k (current k) = Some (AUnblockNew :: c) ->
  wlp (exec AUnblockNew) (popped c k) (fun _ k' => inv k').
Proof.
  intros Hinv Hcode. pose proof (cur_wf k _ c Hinv Hcode) as Hwf.
  assert (Hok : code_ok (current k) c).
  { destruct (wf_tail _ _ _ Hwf) as [?|[(? & ? & ? & _)|(? & ? & ? & _)]]; done. }
  assert (H1 : inv (popped c k)) by (eapply inv_popped; try done; not_transit).
  set (k1 := popped c k) in *. clearbody k1. clear Hcode Hwf Hok Hinv.
  apply wlp_bind, wlp_gets, wlp_bind, wlp_get_thread. intros th Hth. destruct (th_new th) as [pg|] eqn:Hn; [|done].
  assert (Hpg : nw k1 (current k1) = Some (Some pg)) by (unfold nw; rewrite Hth; simpl; by rewrite Hn).
  destruct H1 as [Hc Hl]. destruct (c_new _ _ Hc _ _ Hpg) as (Hb & Hcp & Hip).
  assert (Hne : pg <> current k1).
  { intros ->. pose proof (proj2 (c_run _ _ Hc (current k1)) eq_refl). congruence. }
  apply wlp_bind, wlp_upd_thread. intros _ _. apply wlp_bind, wlp_get_thread. intros thp Hthp.
  apply wlp_bind, wlp_assert. intros _. apply wlp_bind, wlp_modify, wlp_upd_thread. intros thp' Hthp'.
  set (k' := with_threads _ _). set (k2 := with_threads (alter (set_new None) (current k1)) k1) in *.
  assert (Hcd : forall u, cd k' u = cd k1 u).
  { intros u. transitivity (cd k2 u); [by apply (cd_upd k2)|by apply cd_upd]. }
  split.
  - apply (core_unblock _ k1 k' pg); try done.
    + intros u. transitivity (if decide (u = pg) then Some THREAD_READY else st k2 u).
      * by apply (st_status k2 pg _ u thp').
      * case_decide; [done|by apply st_upd].
    + intros u v Hu. change (nw (with_threads (alter (set_status THREAD_READY) pg) k2) u = Some (Some v)) in Hu.
      rewrite nw_upd in Hu by done. unfold nw in Hu. subst k2. simpl in Hu.
      destruct (decide (u = current k1)) as [->|Hu1].
      { rewrite lookup_alter_eq, Hth in Hu. done. }
      rewrite lookup_alter_ne in Hu by done. fold (nw k1 u) in Hu. split; [done|]. intros ->.
      by rewrite (c_new_inj _ _ Hc u (current k1) pg Hu Hpg) in Hu1.
    + split; intros r s Hs; [by eauto|]. destruct (c_wait _ _ Hc r s Hs) as (? & ? & Hall).
      split; [done|]. exists s. split_and!; [done|done| |by auto].
      intros Hin. destruct (Hall pg Hin) as [_ [c' Hc']]. congruence.
  - apply (locks_same k1); [done|done|]. intros l u. unfold transit. by rewrite Hcd.
Qed.

Lemma step_alloc_tid k c : inv k -> cd k (current k) = Some (AAllocTid :: c) ->
  wlp (exec AAllocTid) (popped c k) (fun _ k' => inv k').
Proof.
  intros Hinv Hcode. pose proof (cur_wf k _ c Hinv Hcode) as Hwf.
  assert (Hok : code_ok (current k) c).
  { destruct (wf_tail _ _ _ Hwf) as [?|[(? & ? & ? & _)|(? & ? & ? & _)]]; done. }
  assert (H1 : inv (popped c k)) by (eapply inv_popped; try done; not_transit).
  apply wlp_bind, wlp_gets, wlp_bind, wlp_modify, wlp_bind, wlp_gets, wlp_bind, wlp_get_thread.
  intros th Hth. destruct (th_new th) as [pg|]; [|done]. apply wlp_upd_thread. intros thp Hthp.
  apply (inv_ext (popped c k)); try done; intros u.
  - by apply (st_upd (popped c k)).
  - by apply (cd_upd (popped c k)).
  - by apply (nw_upd (popped c k)).
Qed.

Lemma step_idle_init k c : inv k -> cd k (current k) = Some (AIdleInit :: c) -> idle_thread k = None ->
  wlp (exec AIdleInit) (popped c k) (fun _ k' => inv k').
Proof.
  intros Hinv Hcode Hno. pose proof (cur_wf k _ c Hinv Hcode) as Hwf.
  destruct Hwf as [[s ->]|(? & ? & [?|?] & _)]; [|done..].
  assert (H1 : inv (popped [AUp (Sema s); AIdle] k)) by (eapply inv_popped; try done; not_transit).
  apply wlp_bind, wlp_thread_current. intros Hrun. apply wlp_modify. set (k1 := popped _ k) in *.
  assert (Hct : cd k1 (current k1) = Some [AUp (Sema s); AIdle]) by (by apply (moved_cd_t k _ _ _ Hcode)).
  assert (Hid1 : idle_thread k1 = None) by done. clearbody k1. destruct H1 as [H Hl]. split; [|by apply (locks_same k1)].
  split; try apply H.
  - intros u. change (u ∈ ready_list k1 <-> st k1 u = Some THREAD_READY /\ Some (current k1) <> Some u).
    rewrite (c_ready _ _ H), Hid1. split; [intros [? _]|intros [? _]]; (split; [done|]); [|done].
    intros [= E]. congruence.
  - intros u v Hu. destruct (c_new _ _ H u v Hu) as (Hb & ? & _). split_and!; [done..|]. simpl. intros [= E].
    change (st k1 v = Some THREAD_BLOCKED) in Hb. congruence.
  - intros i [= <-]. right. eauto.
Qed.

(** ** The other actions *)

Lemma step_plain k a c : inv k -> cd k (current k) = Some (a :: c) -> allowed k a ->
  match a with
  | AAssertHeld _ | AAssertNotHeld _ | ACondInit _ | ACondPush _ | ACondPop _ | ACondBroadcast _ _
  | ANewThread None _ => True
  | _ => False
  end -> wlp (exec a) (popped c k) (fun _ k' => inv k').
Proof.
  intros Hinv Hcode _ Ha. pose proof (cur_wf k _ c Hinv Hcode) as Hwf.
  assert (Hok : code_ok (current k) c).
  { destruct (wf_tail _ _ _ Hwf) as [?|[(? & ? & -> & _)|(? & ? & -> & _)]]; done. }
  assert (Htr : forall l, ~ in_transit l (a :: c)) by (intros l (x & [[= -> _]|[= -> _]]); done).
  assert (Hnd : forall r, a <> ADown r) by (by intros r ->).
  assert (Hni : idle_thread k <> Some (current k)) by (apply (not_idle k a c Hinv Hcode); [by intros ? ->|by intros ->]).
  assert (Hlocal : forall k', threads k' = threads (popped c k) -> current k' = current k ->
    ready_list k' = ready_list k -> idle_thread k' = idle_thread k -> semas k' = semas k ->
    holders k' = holders k -> inv k').
  { intros k' E1 E2 E3 E4 E5 E6. by apply (inv_plain k a c Hinv Hcode k' c). }
  destruct a as [| | | | |l|l| | | |cv|cv|cv|cv l|[|] p| | | | | |]; try done.
  - apply wlp_bind, wlp_held. intros h _. apply wlp_assert. intros _. by apply Hlocal.
  - apply wlp_bind, wlp_held. intros h _. apply wlp_assert. intros _. by apply Hlocal.
  - apply wlp_modify. by apply Hlocal.
  - apply wlp_bind. unfold wlp at 1, get_cond. destruct (conds (popped c k) !! cv); [|done].
    apply wlp_bind, wlp_thread_current. intros _. apply wlp_modify. by apply Hlocal.
  - apply wlp_bind. unfold wlp at 1, get_cond. destruct (conds (popped c k) !! cv) as [[|w ws]|]; [by apply wlp_ret, Hlocal| |done].
    apply wlp_bind, wlp_modify, (wlp_continue k _ c); [done|]. simpl. intros k' Hm E1 E2 E3 E4.
    by apply (inv_plain k (ACondPop cv) c Hinv Hcode k' _ Hm).
  - apply wlp_bind. unfold wlp at 1, get_cond. destruct (conds (popped c k) !! cv) as [[|w ws]|]; [by apply wlp_ret, Hlocal| |done].
    apply (wlp_continue k _ c); [done|]. simpl. intros k' Hm E1 E2 E3 E4.
    by apply (inv_plain k (ACondBroadcast cv l) c Hinv Hcode k' _ Hm).
  - apply wlp_ret. by apply Hlocal.
Qed.

Lemma step_try_down k r c : inv k -> cd k (current k) = Some (ATryDown r :: c) ->
  wlp (exec (ATryDown r)) (popped c k) (fun _ k' => inv k').
Proof.
  intros Hinv Hcode. pose proof (cur_wf k _ c Hinv Hcode) as Hwf.
  assert (Hok : code_ok (current k) c).
  { destruct (wf_tail _ _ _ Hwf) as [?|[(? & ? & ? & _)|(? & ? & ? & _)]]; done. }
  pose proof (not_idle k _ c Hinv Hcode) as Hni.
  apply wlp_bind, wlp_bind, wlp_get_sema. simpl. intros s Hs. destruct (Z.ltb_spec 0 (value s)).
  - apply wlp_bind, wlp_modify, wlp_ret, wlp_ret. set (k' := with_semas _ _). assert (Hm : moved k k' c) by done.
    apply (inv_local k (ATryDown r) c Hinv Hcode k' c Hm); try done; [intros Hx; by destruct Hni|not_transit|..].
    + eapply lock_values_insert; [done..|]. intros l ->. by destruct Hwf as [?|(? & ? & [?|?] & _)].
    + eapply (semas_local_take _ k k' _ s); [apply Hinv|done|lia|done|done].
  - apply wlp_ret, wlp_ret. eapply inv_popped; try done. not_transit.
Qed.

(** ** All steps *)

Lemma inv_exec k a c : inv k -> cd k (current k) = Some (a :: c) -> allowed k a ->
  wlp (exec a) (popped c k) (fun _ k' => inv k').
Proof.
  intros Hinv Hcode Hal.
  destruct a as [r|r|r|r v|l|l|l|l|l|l|cv|cv|cv|cv l|[pg|] p| | | | | |];
    try (by apply step_plain).
  - by apply step_sema_down.
  - by apply step_try_down.
  - by apply step_sema_up.
  - by apply step_sema_init.
  - by apply step_lock_init.
  - by apply step_set_holder.
  - by apply step_clear_holder.
  - by apply step_try_lock.
  - by apply step_new_thread.
  - by apply step_alloc_tid.
  - by apply step_unblock_new.
  - pose proof (cur_wf k _ c Hinv Hcode) as Hwf. apply step_yield. eapply inv_popped; try done; [|not_transit].
    by destruct (wf_tail _ _ _ Hwf) as [?|[(? & ? & ? & _)|(? & ? & ? & _)]].
  - by apply step_idle_init.
  - by apply step_idle.
  - by apply step_die.
Qed.

Lemma inv_timer k : inv k -> wlp timer_tick k (fun _ k' => inv k').
Proof.
  intros Hinv. unfold timer_tick, thread_tick. apply wlp_bind, wlp_bind, wlp_thread_current. intros _.
  apply wlp_bind, wlp_gets, wlp_bind.
  assert (Ht : forall a b x k2, inv k2 -> inv (with_ticks a b x k2)) by (intros; by eapply inv_ext).
  case_bool_decide; apply wlp_modify, wlp_bind, wlp_modify, wlp_bind, wlp_gets, wlp_ret;
    (destruct (_ <=? _); [apply step_yield|apply wlp_ret]); auto.
Qed.

Lemma inv_step k k' : inv k -> step k k' -> inv k'.
Proof.
  intros Hinv [th x Hth Hc|th a rest k2 Hth Hc Hal E|k2 E|s k2 E].
  - assert (Hcode : cd k (current k) = Some []) by (apply cd_Some; eauto).
    pose proof (call_ok (current k) x) as Hok. set (c := call (current k) x) in *. clearbody c.
    assert (Hm : moved k (popped c k) c) by done. split.
    + eapply (core_local (current k) k _ [] c); eauto using moved_st, moved_nw, moved_cd_ne, moved_cd_t.
      * apply Hinv.
      * by left.
      * intros Hi. destruct (c_idle _ _ (proj1 Hinv) _ Hi) as [?|[? ?]]; congruence.
      * by eapply semas_local_same; [apply Hinv| |].
    + apply (locks_same k); [apply Hinv|done|]. intros l u.
      rewrite (transit_cur (current k) k _ c l u (moved_cd_ne k _ _ _ Hcode Hm) (moved_cd_t k _ _ _ Hcode Hm)).
      case_decide as E; [subst u|done]. unfold transit. rewrite Hcode. split.
      * intros Hin. by destruct (code_ok_not_transit _ _ _ Hok Hin).
      * intros (? & [= <-] & (? & [?|?])); done.
  - eapply (wlp_elim _ _ (fun _ => inv)); [|exact E]. apply inv_exec; [done| |done]. apply cd_Some. eauto.
  - eapply (wlp_elim _ _ (fun _ => inv)); [|exact E]. by apply inv_timer.
  - eapply (wlp_elim _ _ (fun _ => inv)); [|exact E]. apply (wlp_sema_up _ (Sema s) k _ (proj1 Hinv)).
    intros k3 x ws Hc' Hx Hs Hcd Hh Hcur _. split; [unfold core; by rewrite Hcur|].
    apply (locks_same k); [apply Hinv| |intros l u; unfold transit; by rewrite Hcd].
    split; [done|]. intros l. by rewrite Hs, lookup_insert_ne.
Qed.

Lemma inv_boot main tid_lock : inv (boot main tid_lock).
Proof.
  assert (Hst : forall t, st (boot main tid_lock) t = if decide (t = main) then Some THREAD_RUNNING else None).
  { intros t. unfold st. simpl. case_decide; [subst; by rewrite lookup_singleton_eq|by rewrite lookup_singleton_ne]. }
  assert (Hcd : forall t, cd (boot main tid_lock) t = if decide (t = main) then Some [] else None).
  { intros t. unfold cd. simpl. case_decide; [subst; by rewrite lookup_singleton_eq|by rewrite lookup_singleton_ne]. }
  assert (Hnw : forall t, nw (boot main tid_lock) t = if decide (t = main) then Some None else None).
  { intros t. unfold nw. simpl. case_decide; [subst; by rewrite lookup_singleton_eq|by rewrite lookup_singleton_ne]. }
  split; [split|split]; simpl.
  - intros t. rewrite Hst. case_decide; naive_solver.
  - constructor.
  - intros t. rewrite Hst. case_decide; set_solver.
  - intros r s [<- <-]%lookup_singleton_Some. split_and!; [done|constructor|set_solver].
  - intros t r c. rewrite Hst. by case_decide.
  - by intros r s [<- <-]%lookup_singleton_Some.
  - intros u t. rewrite Hnw. by case_decide.
  - intros u u' t. rewrite Hnw. by case_decide.
  - intros t c. rewrite Hcd. case_decide; [intros [= <-]; by left|done].
  - done.
  - intros t. rewrite Hst. by case_decide.
  - intros l s [[= ->] <-]%lookup_singleton_Some. exists None. rewrite lookup_singleton_eq. split; [done|].
    left. split_and!; [done..|]. intros t (c & Hc & Hin). rewrite Hcd in Hc. case_decide; [|done].
    simplify_eq. by destruct Hin as (? & [?|?]).
  - intros l t (c & Hc & Hin). rewrite Hcd in Hc. case_decide; [|done]. simplify_eq. by destruct Hin as (? & [?|?]).
  - intros l h [<- _]%lookup_singleton_Some. by rewrite lookup_singleton_eq.
Qed.

(** The invariant holds in every state the kernel can reach. *)
Lemma inv_reach main tid_lock k : reach step (boot main tid_lock) k -> inv k.
Proof. apply reach_invariant; [apply inv_boot|apply inv_step]. Qed.
