(* ===== verification/ThreadsProps.v ===== *)
(** * Properties of threads, semaphores and locks *)

From S2P Require Import Prelude Threads ThreadsInv ThreadsSteps.

(** ** Executable runs are runs of the machine *)

Lemma is_none_true {A} (x : option A) : is_none x = true -> x = None.
Proof. by destruct x. Qed.

Lemma drive1_step k x k' : drive1 k x = Some k' -> step k k'.
Proof.
  unfold drive1, result. intros E. destruct x as [x| | |s], (threads k !! current k) as [th|] eqn:Hth; try done.
  - destruct (code th) eqn:Hc; simplify_eq. by eapply step_call.
  - destruct (code th) as [|a rest] eqn:Hc; [done|]. destruct (allowed_b k a) eqn:Ha; [|done].
    destruct (exec a _) as [[[] k2]| |] eqn:Ee; simplify_eq. eapply step_run; [done..| |done].
    unfold allowed_b in Ha. destruct a as [| | |[] ?| | | | | | | | | | |[]| | | | | |]; simpl; try done;
      by apply is_none_true.
  - destruct (timer_tick k) as [[[] k2]| |] eqn:Ee; simplify_eq. by apply step_timer.
  - destruct (timer_tick k) as [[[] k2]| |] eqn:Ee; simplify_eq. by apply step_timer.
  - destruct (sema_up _ k) as [[[] k2]| |] eqn:Ee; simplify_eq. by eapply step_interrupt.
  - destruct (sema_up _ k) as [[[] k2]| |] eqn:Ee; simplify_eq. by eapply step_interrupt.
Qed.

Lemma drive_reach k l k' : drive k l = Some k' -> reach step k k'.
Proof.
  revert k. induction l as [|x l IH]; intros k; simpl; [intros [= ->]; constructor|].
  destruct (drive1 k x) as [k1|] eqn:E; [|done]. intros Hd.
  eapply reach_trans; [|by apply IH]. eapply reach_step; [constructor|by eapply drive1_step].
Qed.

(** Two threads and a lock: the main thread creates a second one, takes the
    lock and yields; the second blocks on the lock, and the main thread runs
    again. *)
Definition demo_trace : list choice :=
  [Call (CThreadCreate 7 (Some 8192) 31); Run; Run; Run; Run; Run; Run; Run; Run;
   Call (CLockInit 100); Run; Call (CLockAcquire 100); Run; Run; Run;
   Call CThreadYield; Run; Call (CLockAcquire 100); Run; Run].
Definition demo_kernel : kernel := default (boot 4096 7) (drive (boot 4096 7) demo_trace).

Lemma demo_kernel_reach : reach step (boot 4096 7) demo_kernel.
Proof. apply (drive_reach _ demo_trace). vm_compute. reflexivity. Defined.

(** ** What does not touch the lock holders *)

Definition keeps {A} (m : ST kernel A) : Prop := forall k, wlp m k (fun _ k' => holders k' = holders k).

Lemma keeps_bind {A B} (m : ST kernel A) (f : A -> ST kernel B) : keeps m -> (forall a, keeps (f a)) -> keeps (m ≫= f).
Proof.
  intros Hm Hf k. apply wlp_bind. eapply wlp_mono; [apply Hm|]. intros a k1 E.
  eapply wlp_mono; [apply Hf|]. simpl. congruence.
Qed.
Lemma keeps_ret {A} (a : A) : keeps (mret a).
Proof. done. Qed.
Lemma keeps_panic {A} : keeps (panic (A := A)).
Proof. done. Qed.
Lemma keeps_gets {A} (f : kernel -> A) : keeps (gets f).
Proof. done. Qed.
Lemma keeps_assert b : keeps (ASSERT b).
Proof. intros k. by apply wlp_assert. Qed.
Lemma keeps_modify f : (forall k, holders (f k) = holders k) -> keeps (modify f).
Proof. intros Hf k. by apply wlp_modify. Qed.
Lemma keeps_get_thread t : keeps (get_thread t).
Proof. intros k. by apply wlp_get_thread. Qed.
Lemma keeps_get_sema r : keeps (get_sema r).
Proof. intros k. by apply wlp_get_sema. Qed.
Lemma keeps_get_holder l : keeps (get_holder l).
Proof. intros k. by apply wlp_get_holder. Qed.
Lemma keeps_get_cond c : keeps (get_cond c).
Proof. intros k. unfold wlp, get_cond. by destruct (conds k !! c). Qed.

Ltac keeps_tac :=
  repeat first
    [ apply keeps_bind; [|intros ?] | apply keeps_ret | apply keeps_panic | apply keeps_gets | apply keeps_assert
    | apply keeps_get_thread | apply keeps_get_sema | apply keeps_get_holder | apply keeps_get_cond
    | apply keeps_modify; done
    | match goal with |- keeps (match ?x with _ => _ end) => destruct x end ].

Lemma keeps_schedule : keeps schedule.
Proof. unfold schedule, next_thread_to_run, schedule_tail, upd_thread. keeps_tac. Qed.
Lemma keeps_thread_yield : keeps thread_yield.
Proof. unfold thread_yield, thread_current, upd_thread. keeps_tac; try apply keeps_schedule. Qed.
Lemma keeps_sema_up r : keeps (sema_up r).
Proof. unfold sema_up, put_sema, thread_unblock, upd_thread. keeps_tac. Qed.

Lemma keeps_exec a : match a with ASetHolder _ | AClearHolder _ | ALockInit _ => True | _ => keeps (exec a) end.
Proof.
  destruct a; simpl; try exact I; try apply keeps_sema_up; try apply keeps_thread_yield;
    unfold sema_down_test, sema_try_down, lock_held_by_current_thread, thread_block, thread_unblock,
      thread_current, continue, put_sema, upd_thread;
    keeps_tac; try apply keeps_schedule.
Qed.

(** ** Properties *)

(** C25: In every reachable state the current thread is the only running
    one, and the ready list holds, without repetition, exactly the ready
    threads other than the idle thread. *)
Theorem scheduler_invariant (main tid_lock : Z) (k : kernel) : reach step (boot main tid_lock) k ->
  (forall t, st k t = Some THREAD_RUNNING <-> t = current k) /\
  NoDup (ready_list k) /\
  (forall t, t ∈ ready_list k <-> st k t = Some THREAD_READY /\ idle_thread k <> Some t).
Proof.
  intros [Hc _]%inv_reach. split_and!; [|apply Hc..]. intros t. rewrite (c_run _ _ Hc). naive_solver.
Qed.

Lemma scheduler_invariant_witness : NoDup (ready_list demo_kernel).
Proof. apply (scheduler_invariant 4096 7 demo_kernel), demo_kernel_reach. Defined.

(** C4: No wake-up is lost.  In every reachable state a thread that is
    blocked in [sema_down] is in the waiting list of that semaphore and
    every thread of the list is such a thread; and while a thread waits,
    each unit of the semaphore's value is matched by a thread that has been
    woken (or has not slept) and is about to test the value again. *)
Theorem no_lost_wakeup (main tid_lock : Z) (k : kernel) (r : sema_ref) (s : semaphore) :
  reach step (boot main tid_lock) k -> semas k !! r = Some s ->
  (forall t, t ∈ waiters s <-> st k t = Some THREAD_BLOCKED /\ exists c, cd k t = Some (ADown r :: c)) /\
  (waiters s <> [] -> exists ts, NoDup ts /\ Z.of_nat (length ts) = value s /\
     forall t, t ∈ ts -> st k t <> Some THREAD_BLOCKED /\ exists c, cd k t = Some (ADown r :: c)).
Proof.
  intros [Hc _]%inv_reach Hs. split; [|by apply (c_wake _ _ Hc)].
  intros t. split; [by apply (c_wait _ _ Hc r s Hs)|]. intros (Hb & c & Hcd).
  destruct (c_block _ _ Hc t r c Hb Hcd) as (s' & Hs' & ?). by simplify_eq.
Qed.

Lemma no_lost_wakeup_witness : st demo_kernel 8192 = Some THREAD_BLOCKED.
Proof.
  destruct (no_lost_wakeup 4096 7 demo_kernel (LockSema 100) (mk_sema 0 [8192])) as [H _];
    [apply demo_kernel_reach|vm_compute; reflexivity|].
  apply H. by left.
Defined.

(** C2: Mutual exclusion.  In every reachable state a lock is free, or one
    thread is between the two halves of an acquisition or release, or one
    thread holds it and no thread is in between; and the holder stays the
    holder in every step, whatever the other threads and interrupts do,
    until the holder itself runs [lock_release]. *)
Theorem lock_mutual_exclusion (main tid_lock : Z) (k : kernel) (l : Z) :
  reach step (boot main tid_lock) k ->
  (forall s, semas k !! LockSema l = Some s ->
     exists h, holders k !! l = Some h /\ lock_ok k l (value s) h) /\
  (forall k' t, step k k' -> holders k !! l = Some (Some t) ->
     holders k' !! l = Some (Some t) \/
     (current k = t /\ exists c, cd k t = Some (AClearHolder l :: c))).
Proof.
  intros Hr%inv_reach. pose proof Hr as [Hc Hl]. split; [by apply Hl|].
  intros k' t Hstep Ht. destruct (lk_holder k Hl l _ Ht) as [s Hs].
  destruct (lk_state k Hl l s Hs) as (h & Hh & Hlk). rewrite Ht in Hh. injection Hh as <-.
  destruct Hlk as [(_ & ? & _)|[(_ & ? & _)|(_ & _ & Hno)]]; [done..|].
  destruct Hstep as [th x Hth Hcode|th a rest k2 Hth Hcode Hal E|k2 E|a k2 E].
  - by left.
  - assert (Hcd : cd k (current k) = Some (a :: rest)) by (apply cd_Some; eauto).
    assert (Hkeep : keeps (exec a) -> holders k2 = holders k).
    { intros Hk. apply (wlp_elim _ _ (fun _ k' => holders k' = holders (popped rest k)) _ _ (Hk _) E). }
    pose proof (keeps_exec a) as Hka.
    destruct a as [| | | |l'| | |l'|l'| | | | | | | | | | | |]; try (left; by rewrite (Hkeep Hka)).
    + left. simpl in E. unfold mbind, ST_bind in E. simpl in E. injection E as <-. simpl.
      rewrite lookup_insert_ne; [done|]. intros ->. simpl in Hal. congruence.
    + left. revert E. apply (wlp_elim (exec (ASetHolder l')) _ (fun _ k' => holders k' !! l = Some (Some t))).
      apply wlp_bind, wlp_get_holder. intros h _. apply wlp_bind, wlp_thread_current. intros _. apply wlp_modify. simpl.
      rewrite lookup_insert_ne; [done|]. intros ->. apply (Hno (current k)).
      exists (ASetHolder l :: rest). split; [done|]. exists rest. by left.
    + destruct (decide (l' = l)) as [->|Hne].
      * right. revert E. apply (wlp_elim (exec (AClearHolder l)) _ (fun _ _ => current k = t /\ _)).
        apply wlp_bind, wlp_held. intros h Hh. apply wlp_bind, wlp_assert. intros Hb%bool_decide_eq_true.
        apply wlp_modify. simpl in Hh, Hb. rewrite Ht in Hh. simplify_eq. eauto.
      * left. revert E. apply (wlp_elim (exec (AClearHolder l')) _ (fun _ k' => holders k' !! l = Some (Some t))).
        apply wlp_bind, wlp_held. intros h _. apply wlp_bind, wlp_assert. intros _. apply wlp_modify. simpl.
        by rewrite lookup_insert_ne.
  - left. rewrite <- Ht. f_equal. revert E. apply (wlp_elim timer_tick k (fun _ k' => holders k' = holders k)).
    unfold timer_tick, thread_tick, thread_current.
    enough (Hk : keeps timer_tick) by apply Hk. unfold timer_tick, thread_tick, thread_current.
    keeps_tac; apply keeps_thread_yield.
  - left. rewrite <- Ht. f_equal.
    apply (wlp_elim (sema_up (Sema a)) k (fun _ k' => holders k' = holders k) _ _ (keeps_sema_up _ k) E).
Qed.

Lemma lock_mutual_exclusion_witness :
  exists h, holders demo_kernel !! 100 = Some h /\ lock_ok demo_kernel 100 0 h.
Proof.
  destruct (lock_mutual_exclusion 4096 7 demo_kernel 100 demo_kernel_reach) as [H _].
  apply (H (mk_sema 0 [8192])). vm_compute. reflexivity.
Defined.

(** ** Total behaviour *)

Lemma wp_get_thread t th k Q : threads k !! t = Some th -> Q th k -> wp (get_thread t) k Q.
Proof. intros E HQ. unfold wp, get_thread. by rewrite E. Qed.
Lemma wp_upd_thread t th f k Q : threads k !! t = Some th -> Q tt (with_threads (alter f t) k) -> wp (upd_thread t f) k Q.
Proof. intros E HQ. by eapply wp_bind, wp_get_thread, wp_modify. Qed.
Lemma wp_get_sema r s k Q : semas k !! r = Some s -> Q s k -> wp (get_sema r) k Q.
Proof. intros E HQ. unfold wp, get_sema. by rewrite E. Qed.
Lemma wp_thread_current k th Q : threads k !! current k = Some th -> status th = THREAD_RUNNING ->
  Q (current k) k -> wp thread_current k Q.
Proof.
  intros E Hs HQ. apply wp_bind, wp_gets, wp_bind. eapply wp_get_thread; [done|].
  apply wp_bind, wp_assert; [by apply bool_decide_eq_true|]. by apply wp_ret.
Qed.

Lemma wp_yield_next k x rest Q : inv k -> idle_thread k <> Some (current k) -> ready_list k = x :: rest ->
  (forall k', current k' = x -> ready_list k' = rest ++ [current k] -> idle_thread k' = idle_thread k -> Q tt k') ->
  wp thread_yield k Q.
Proof.
  intros [Hc _] Hi Hr HQ.
  assert (Hrun : st k (current k) = Some THREAD_RUNNING) by by apply (c_run _ _ Hc).
  assert (Hx : st k x = Some THREAD_READY) by (apply (c_ready _ _ Hc); rewrite Hr; by left).
  assert (Hne : x <> current k) by (intros ->; congruence).
  apply st_Some in Hrun as (th & Hth & Hs). apply st_Some in Hx as (thx & Hthx & _).
  eapply wp_bind, wp_thread_current; [done..|]. apply wp_bind, wp_gets, wp_bind.
  rewrite bool_decide_eq_false_2 by done. apply wp_modify, wp_bind.
  eapply wp_upd_thread; [done|]. unfold schedule, next_thread_to_run. apply wp_bind, wp_gets, wp_bind, wp_bind, wp_gets.
  simpl. rewrite Hr. simpl. apply wp_bind, wp_modify, wp_ret, wp_bind.
  eapply wp_get_thread; [simpl; by rewrite lookup_alter_eq, Hth|]. apply wp_bind, wp_assert; [done|].
  apply wp_bind. eapply wp_get_thread; [simpl; by rewrite lookup_alter_ne, Hthx|].
  apply wp_bind, wp_modify. unfold schedule_tail. apply wp_bind, wp_gets, wp_bind.
  eapply wp_upd_thread; [simpl; by rewrite lookup_alter_ne, Hthx|]. apply wp_bind, wp_modify.
  destruct (Z.eqb_spec (current k) x) as [?|_]; [congruence|].
  apply wp_bind. eapply wp_get_thread; [simpl; by rewrite lookup_alter_ne, lookup_alter_eq, Hth|].
  apply wp_bind, wp_gets. simpl. apply wp_ret. by apply HQ.
Qed.

(** [n] yields in a row, whichever thread is running. *)
Fixpoint yields (n : nat) : ST kernel unit :=
  match n with
  | O => mret tt
  | S n => thread_yield;; yields n
  end.

Lemma yields_reach n k t Q : inv k -> idle_thread k <> Some (current k) -> ready_list k !! n = Some t ->
  (forall k', current k' = t -> Q tt k') -> wp (yields (S n)) k Q.
Proof.
  revert k. induction n as [|n IH]; intros k Hinv Hi Hr HQ; destruct (ready_list k) as [|x rest] eqn:E; try done.
  - injection Hr as ->. apply wp_bind. eapply wp_yield_next; [done..|]. intros. by apply wp_ret, HQ.
  - change (yields (S (S n))) with (thread_yield;; yields (S n)).
    assert (Hx : idle_thread k <> Some x) by (apply (c_ready _ _ (proj1 Hinv) x); rewrite E; by left).
    assert (Hy : wp thread_yield k (fun _ k' => current k' = x /\ ready_list k' = rest ++ [current k] /\
      idle_thread k' = idle_thread k)) by (eapply wp_yield_next; eauto).
    apply wp_bind. apply wp_elim. apply wp_elim in Hy as ([] & k' & Ey & Hcur & Hrl & Hid).
    exists tt, k'. split; [done|]. apply IH; [|congruence| |done].
    + by eapply (wlp_elim _ _ (fun _ => inv)); [apply step_yield|].
    + rewrite Hrl. simpl in Hr. rewrite lookup_app_l; [done|]. by eapply lookup_lt_Some.
Qed.

(** Round robin.  In every reachable state in which the idle thread is
    not running, the thread at position [n] of the ready list is running
    after [n + 1] yields, and none of them fails. *)
Theorem round_robin (main tid_lock : Z) (k : kernel) (n : nat) (t : Z) :
  reach step (boot main tid_lock) k -> idle_thread k <> Some (current k) -> ready_list k !! n = Some t ->
  exists k', yields (S n) k = Ret (tt, k') /\ current k' = t.
Proof. intros Hr%inv_reach Hi Ht. apply wp_run_unit. by eapply yields_reach. Qed.

Definition demo_ready : kernel := default (boot 4096 7) (drive (boot 4096 7) (take 9 demo_trace)).

Lemma round_robin_witness : exists k', yields 1 demo_ready = Ret (tt, k') /\ current k' = 8192.
Proof.
  apply (round_robin 4096 7 demo_ready 0 8192).
  - apply (drive_reach _ (take 9 demo_trace)). vm_compute. reflexivity.
  - vm_compute. discriminate.
  - vm_compute. reflexivity.
Defined.

(** [sema_up] on an initialised semaphore never fails in a reachable
    state: it adds one to the value and, when threads wait, moves exactly the
    one that has waited longest to the end of the ready list. *)
Theorem sema_up_correct (main tid_lock : Z) (k : kernel) (r : sema_ref) (s : semaphore) :
  reach step (boot main tid_lock) k -> semas k !! r = Some s ->
  exists k', sema_up r k = Ret (tt, k') /\
    semas k' = <[r := mk_sema (value s +u 1) (tail (waiters s))]> (semas k) /\
    ready_list k' = ready_list k ++ (match waiters s with [] => [] | w :: _ => [w] end) /\
    (forall w ws, waiters s = w :: ws -> st k' w = Some THREAD_READY).
Proof.
  intros [Hc _]%inv_reach Hs. apply wp_run_unit. apply wp_bind. eapply wp_get_sema; [done|]. apply wp_bind.
  destruct (waiters s) as [|w ws] eqn:Ew.
  - apply wp_ret, wp_bind. eapply wp_get_sema; [done|]. apply wp_modify. simpl. rewrite app_nil_r, Ew. done.
  - destruct (c_wait _ _ Hc r s Hs) as (_ & _ & Hall). destruct (Hall w) as [Hb _]; [rewrite Ew; by left|].
    apply st_Some in Hb as (th & Hth & Hst). apply wp_bind, wp_modify, wp_bind.
    eapply wp_get_thread; [done|]. apply wp_bind, wp_assert; [by apply bool_decide_eq_true|].
    apply wp_bind, wp_modify. eapply wp_upd_thread; [done|]. apply wp_bind.
    eapply wp_get_sema; [simpl; by rewrite lookup_insert_eq|]. apply wp_modify. simpl.
    rewrite insert_insert_eq. split_and!; [done..|]. intros ? ? [= <- <-]. unfold st. simpl.
    by rewrite lookup_alter_eq, Hth.
Qed.

Lemma sema_up_correct_witness :
  exists k', sema_up (LockSema 100) demo_kernel = Ret (tt, k') /\ st k' 8192 = Some THREAD_READY.
Proof.
  destruct (sema_up_correct 4096 7 demo_kernel (LockSema 100) (mk_sema 0 [8192])) as (k' & E & _ & _ & H);
    [apply demo_kernel_reach|vm_compute; reflexivity|].
  exists k'. split; [exact E|]. by apply (H 8192 []).
Defined.
