(* ===== verification/Children.v ===== *)
(** * Parents and children: processes that are started, exit and are waited for

    The children lists of threads/thread.c ([thread_create_child], the part of
    [thread_exit] that concerns relatives), the handshake of [execute_thread]
    with its parent and [process_wait] of userprog/process.c, and the calls
    [exec], [wait] and [exit] of userprog/syscall.c, for any number of
    processes and any interleaving.

    A thread stands at a [point] of these functions and [exec] runs it to the
    next one.  A stretch of code that holds a [children_lock] from beginning to
    end is one step: locks exclude each other (ThreadsProps.v), and everything
    the stretch touches is protected by the lock or by a test that is a step
    of its own.  A thread that has to wait for a semaphore stays where it is.
    Opening the executable, the address space and the descriptors of a process
    are in other files; here only whether [load] succeeds matters. *)

From S2P Require Import Prelude.

(** ** Data *)

(** [struct dead_thread], allocated by a child that exits and freed by its
    parent. *)
Record dead_thread := mk_dead { d_tid : Z; d_exit_code : Z }.
#[export] Instance dead_thread_eq : EqDecision dead_thread.
Proof. solve_decision. Defined.

(** An element of a children list: the [child_elem] of a [struct thread] that
    lives, or of a [struct dead_thread]. *)
Inductive child := Alive (t : Z) | Dead (d : dead_thread).
#[export] Instance child_eq : EqDecision child.
Proof. solve_decision. Defined.

(** Where a thread is.  The points of [thread_create_child] carry its local
    variables [t] and [tid]; [ExitParentLock] carries the address whose lock
    [lock_acquire] was called for. *)
Inductive point :=
| New                                   (* created, not yet unblocked *)
| Load                                  (* [execute_thread] up to the result of [load] *)
| LoadUp (success : bool)               (* [sema_up (&cur->parent->child_sema)] *)
| User                                  (* outside the functions of this file *)
| CreatePush (t tid : Z)                (* the new thread joins the list *)
| CreateStart (t tid : Z)               (* its parent is set and it is unblocked *)
| CreateInit (t tid : Z)                (* [init_supplemental_pagetable (t)] *)
| CreateDown (tid : Z)                  (* [sema_down (&cur->child_sema)] *)
| Wait (child_tid : Z)                  (* a turn of the loop of [process_wait] *)
| ExitChildren                          (* children are told *)
| ExitTest                              (* [if (t->parent != NULL)] *)
| ExitParent                            (* [&t->parent->children_lock] *)
| ExitParentLock (p : Z)                (* the parent is told *)
| ExitDie                               (* the rest of [thread_exit] *)
| Dying.                                (* waits for [schedule_tail] to free it *)

(** The fields of [struct thread] that matter here; a null pointer is 0.
    [spt] says whether [sup_pagetable] has been initialised. *)
Record thread := mk_thr {
  tid : Z; exit_code : Z; children : list child; parent : Z;
  child_sema : Z; child_success : bool; spt : bool; at_point : point }.

(** What has happened, latest first, by thread identifiers. *)
Inductive event :=
| Created (p c : Z)                     (* [c] was put on the list of [p] *)
| Loaded (c : Z) (success : bool)       (* [load] has returned in [c] *)
| Execed (p c : Z) (success : bool)     (* [thread_create_child] returned [c], or [TID_ERROR] *)
| Exited (c code : Z)                   (* [c] called [thread_exit] *)
| Waited (p c : Z) (r : option Z).      (* [process_wait (c)] returned: the code, or -1 for a stranger *)

Record family := mk_family {
  threads : gmap Z thread; initial_thread : Z; next_tid : Z; log : list event }.

Definition set_threads (f : gmap Z thread -> gmap Z thread) (s : family) : family :=
  mk_family (f (threads s)) (initial_thread s) (next_tid s) (log s).
Definition set_exit_code (v : Z) (th : thread) : thread :=
  mk_thr (tid th) v (children th) (parent th) (child_sema th) (child_success th) (spt th) (at_point th).
Definition set_children (l : list child) (th : thread) : thread :=
  mk_thr (tid th) (exit_code th) l (parent th) (child_sema th) (child_success th) (spt th) (at_point th).
Definition set_parent (p : Z) (th : thread) : thread :=
  mk_thr (tid th) (exit_code th) (children th) p (child_sema th) (child_success th) (spt th) (at_point th).
Definition set_sema (v : Z) (th : thread) : thread :=
  mk_thr (tid th) (exit_code th) (children th) (parent th) v (child_success th) (spt th) (at_point th).
Definition set_success (b : bool) (th : thread) : thread :=
  mk_thr (tid th) (exit_code th) (children th) (parent th) (child_sema th) b (spt th) (at_point th).
Definition set_spt (b : bool) (th : thread) : thread :=
  mk_thr (tid th) (exit_code th) (children th) (parent th) (child_sema th) (child_success th) b (at_point th).
Definition set_point (a : point) (th : thread) : thread :=
  mk_thr (tid th) (exit_code th) (children th) (parent th) (child_sema th) (child_success th) (spt th) a.

(** A page without a thread has been freed; the null page is never one. *)
Definition get_thread (t : Z) : ST family thread := fun s =>
  match threads s !! t with Some th => Ret (th, s) | None => Panic end.
Definition upd_thread (t : Z) (f : thread -> thread) : ST family unit :=
  get_thread t;; modify (set_threads (alter f t)).
Definition goto (t : Z) (a : point) : ST family unit := upd_thread t (set_point a).
Definition record (e : event) : ST family unit :=
  modify (fun s => mk_family (threads s) (initial_thread s) (next_tid s) (e :: log s)).

(** [list_remove] of an element that is on the list. *)
Fixpoint list_remove (e : child) (l : list child) : list child :=
  match l with
  | [] => []
  | x :: l => if decide (x = e) then l else x :: list_remove e l
  end.

(** ** Starting a process *)

Definition allocate_tid : ST family Z :=
  n ← gets next_tid;
  modify (fun s => mk_family (threads s) (initial_thread s) (s32 (n + 1)) (log s));;
  mret n.

(** [mk_thread] with the page that [palloc_get_page] returned, with
    [init_thread]. *)
Definition mk_thread (t : Z) : ST family Z :=
  n ← allocate_tid;
  modify (set_threads (insert t (mk_thr n (-1) [] 0 0 false false New)));;
  mret n.

(** [thread_create_child], from the page (0 for none) to the result. *)
Definition create_begin (cur page : Z) : ST family unit :=
  if page =? 0 then mret tt
  else n ← mk_thread page; goto cur (CreatePush page n).

Definition create_push (cur t n : Z) : ST family unit :=
  c ← get_thread cur;
  upd_thread cur (set_children (children c ++ [Alive t]));;
  record (Created (tid c) n);;
  goto cur (CreateStart t n).

Definition create_start (cur t n : Z) : ST family unit :=
  upd_thread t (set_parent cur);;
  upd_thread cur (set_success true);;
  upd_thread cur (set_sema 0);;
  goto t Load;;
  goto cur (CreateInit t n).

Definition create_init (cur t n : Z) : ST family unit :=
  upd_thread t (set_spt true);;
  goto cur (CreateDown n).

Definition create_down (cur n : Z) : ST family unit :=
  c ← get_thread cur;
  if child_sema c =? 0 then mret tt
  else
    upd_thread cur (set_sema (child_sema c - 1));;
    record (Execed (tid c) n (child_success c));;
    goto cur User.

(** ** Exiting *)

(** [exit], up to the call of [thread_exit] and its first lock. *)
Definition begin_exit (t : Z) : ST family unit :=
  th ← get_thread t;
  record (Exited (tid th) (exit_code th));;
  goto t ExitChildren.
Definition exit (t status : Z) : ST family unit :=
  upd_thread t (set_exit_code status);;
  begin_exit t.

(** The loop of [thread_exit] over the children. *)
Fixpoint tell_children (t : Z) (l : list child) : ST family unit :=
  match l with
  | [] => mret tt
  | e :: rest =>
    upd_thread t (set_children rest);;
    match e with
    | Alive c => upd_thread c (set_parent 0)
    | Dead _ => mret tt (* [free (child)] *)
    end;;
    tell_children t rest
  end.

Definition exit_children (t : Z) : ST family unit :=
  th ← get_thread t;
  tell_children t (children th);;
  goto t ExitTest.

Definition exit_test (t : Z) : ST family unit :=
  th ← get_thread t;
  goto t (if parent th =? 0 then ExitDie else ExitParent).

Definition exit_parent (t : Z) : ST family unit :=
  th ← get_thread t;
  if parent th =? 0 then panic else goto t (ExitParentLock (parent th)).

(** From [lock_acquire] on the lock in the page of [p] to [lock_release].
    [block] says whether [malloc] returned one. *)
Definition exit_tell (t p : Z) (block : bool) : ST family unit :=
  get_thread p;;
  th ← get_thread t;
  when (negb (parent th =? 0)) (
    ASSERT block;;
    q ← get_thread (parent th);
    upd_thread (parent th) (set_children (list_remove (Alive t) (children q)));;
    q ← get_thread (parent th);
    upd_thread (parent th) (set_children (children q ++ [Dead (mk_dead (tid th) (exit_code th))])));;
  ASSERT (negb (parent th =? 0));;
  goto t ExitDie.

Definition free_thread (t : Z) : ST family unit :=
  i ← gets initial_thread;
  when (negb (t =? i)) (modify (set_threads (delete t))).

(** ** Loading, in the new thread *)

Definition load_done (cur : Z) (success : bool) : ST family unit :=
  c ← get_thread cur;
  ASSERT (negb success || spt c);; (* [load] enters pages in the table *)
  when (negb success) (upd_thread (parent c) (set_success false));;
  record (Loaded (tid c) success);;
  goto cur (LoadUp success).

Definition load_up (cur : Z) (success : bool) : ST family unit :=
  c ← get_thread cur;
  p ← get_thread (parent c);
  upd_thread (parent c) (set_sema (child_sema p +u 1));;
  if success then goto cur User else exit cur (-1).

(** ** Waiting *)

(** The fields that [struct thread] and [struct dead_thread] share. *)
Definition entry_tid (e : child) : ST family Z :=
  match e with Alive a => th ← get_thread a; mret (tid th) | Dead d => mret (d_tid d) end.

(** The exit code if [d->status >= THREAD_DYING]. *)
Definition entry_code (e : child) : ST family (option Z) :=
  match e with
  | Alive a => th ← get_thread a; mret (match at_point th with Dying => Some (exit_code th) | _ => None end)
  | Dead d => mret (Some (d_exit_code d))
  end.

(** The search of [process_wait]. *)
Fixpoint find_child (child_tid : Z) (l : list child) : ST family (option child) :=
  match l with
  | [] => mret None
  | e :: l =>
    n ← entry_tid e;
    if n =? child_tid then mret (Some e) else find_child child_tid l
  end.

Definition process_wait (t child_tid : Z) : ST family unit :=
  th ← get_thread t;
  e ← find_child child_tid (children th);
  match e with
  | None => record (Waited (tid th) child_tid None);; goto t User
  | Some e =>
    r ← entry_code e;
    match r with
    | None => mret tt
    | Some code =>
      upd_thread t (set_children (list_remove e (children th)));;
      record (Waited (tid th) child_tid (Some code));;
      goto t User
    end
  end.

(** ** Execution *)

(** What the rest of the system decides: the call a program makes, the page
    that is free, whether [load] succeeds and whether [malloc] does. *)
Inductive choice :=
| CExec (page : Z) | CWait (child_tid : Z) | CExit (status : Z) | CReturn
| CLoad (success : bool) | CMalloc (block : bool).

(** One step of thread [t]; [CReturn] is the end of a kernel thread, which
    leaves the exit code as it is. *)
Definition exec (t : Z) (ch : choice) : ST family unit :=
  th ← get_thread t;
  match at_point th, ch with
  | User, CExec page => create_begin t page
  | User, CWait n => goto t (Wait n)
  | User, CExit v => exit t v
  | User, CReturn => begin_exit t
  | CreatePush c n, _ => create_push t c n
  | CreateStart c n, _ => create_start t c n
  | CreateInit c n, _ => create_init t c n
  | CreateDown n, _ => create_down t n
  | Load, CLoad b => load_done t b
  | LoadUp b, _ => load_up t b
  | Wait n, _ => process_wait t n
  | ExitChildren, _ => exit_children t
  | ExitTest, _ => exit_test t
  | ExitParent, _ => exit_parent t
  | ExitParentLock p, CMalloc b => exit_tell t p b
  | ExitDie, _ => goto t Dying
  | Dying, _ => free_thread t
  | _, _ => mret tt
  end.

(** The page allocator hands out pages that no thread uses. *)
Definition page_free (s : family) (ch : choice) : Prop :=
  match ch with CExec page => threads s !! page = None | _ => True end.

(** Thread identifiers have not wrapped around as long as the next one is
    positive. *)
Inductive step (s s' : family) : Prop :=
| step_exec t ch : page_free s ch -> exec t ch s = Ret (tt, s') -> 0 < next_tid s' -> step s s'.

(** After the boot: the initial thread, and an idle thread with identifier 2. *)
Definition boot (main : Z) : family :=
  mk_family {[main := mk_thr 1 (-1) [] 0 0 false true User]} main 3 [].
