(* ===== verification/ChildrenInv.v ===== *)
(** * Parents and children: the invariant

    What holds of every state that Children.v can reach, in four parts: the
    history and identifiers ([base]), the children lists ([kin]), exit codes
    ([exits]) and processes that are being created ([births]), with the proof
    that every step keeps them.  A state is seen through the function from
    addresses to threads and the predicate of the addresses in use. *)

From S2P Require Import Prelude Children.

(** ** Views of a state *)
Definition null_thread : thread := mk_thr 0 0 [] 0 0 false false New.
Definition live (s : family) (t : Z) : Prop := is_Some (threads s !! t).
Definition th (s : family) (t : Z) : thread := default null_thread (threads s !! t).
Definition upd (t : Z) (f : thread -> thread) (s : family) : family := set_threads (alter f t) s.
Definition put_log (e : event) (s : family) : family := mk_family (threads s) (initial_thread s) (next_tid s) (e :: log s).
#[export] Instance live_dec s t : Decision (live s t).
Proof. unfold live. apply _. Defined.

Lemma th_upd s u f x : live s u -> th (upd u f s) x = if decide (x = u) then f (th s x) else th s x.
Proof.
  intros [y Hy]. unfold th, upd. cbn [threads set_threads]. case_decide as E.
  - subst. by rewrite lookup_alter_eq, Hy.
  - by rewrite lookup_alter_ne by done.
Qed.
Lemma live_upd s u f x : live (upd u f s) x <-> live s x.
Proof.
  unfold live, upd. cbn [threads set_threads]. destruct (decide (x = u)) as [->|E].
  - rewrite lookup_alter_eq. by rewrite fmap_is_Some.
  - by rewrite lookup_alter_ne by done.
Qed.
Lemma live_th s t y : threads s !! t = Some y -> live s t /\ th s t = y.
Proof. intros E. unfold live, th. rewrite E. by split. Qed.

(** ** Lists *)
Lemma elem_of_list_remove e x l : x ∈ list_remove e l -> x ∈ l.
Proof. induction l as [|y l IH]; cbn [list_remove]; [done|]. case_decide; rewrite ?elem_of_cons; intuition. Qed.
Lemma NoDup_list_remove e l : NoDup l -> NoDup (list_remove e l).
Proof.
  induction l as [|y l IH]; cbn [list_remove]; [done|]. rewrite NoDup_cons. intros [Hy Hl]. case_decide; [done|].
  rewrite NoDup_cons. split; [|by apply IH]. intros Hx. by apply elem_of_list_remove in Hx.
Qed.
Lemma list_remove_spec e x l : NoDup l -> x ∈ list_remove e l <-> x ∈ l /\ x <> e.
Proof.
  intros Hl. split.
  - intros Hx. split; [by eapply elem_of_list_remove|]. revert Hx. induction l as [|y l IH]; cbn [list_remove].
    + by rewrite elem_of_nil.
    + apply NoDup_cons in Hl as [Hy Hl]. case_decide; [subst; by intros ? ->|]. rewrite elem_of_cons. intros [->|Hx]; [done|by apply IH].
  - intros [Hx Hn]. induction l as [|y l IH]; cbn [list_remove]; [done|]. apply NoDup_cons in Hl as [Hy Hl].
    apply elem_of_cons in Hx as [->|Hx]; case_decide; rewrite ?elem_of_cons; auto. done.
Qed.

(** ** The contract of a history, latest event first *)
Definition event_ok (e : event) (past : list event) : Prop :=
  match e with
  | Created p c => forall q, Created q c ∉ past
  | Loaded c _ => forall b, Loaded c b ∉ past
  | Execed p c b => Created p c ∈ past /\ Loaded c b ∈ past
  | Exited c _ => forall v, Exited c v ∉ past
  | Waited p c (Some v) => Created p c ∈ past /\ Exited c v ∈ past /\ forall q w, Waited q c (Some w) ∉ past
  | Waited p c None => Created p c ∉ past \/ exists v, Waited p c (Some v) ∈ past
  end.
Fixpoint log_ok (l : list event) : Prop :=
  match l with [] => True | e :: l => event_ok e l /\ log_ok l end.

Lemma waited_created l q c v : log_ok l -> Waited q c (Some v) ∈ l -> Created q c ∈ l.
Proof.
  induction l as [|e l IH]; [by rewrite elem_of_nil|]. cbn [log_ok]. intros [He Hl]. rewrite !elem_of_cons. intros [E|Hw]; [|right; by apply IH].
  subst. right. by apply He.
Qed.
Lemma created_once l p q c : log_ok l -> Created p c ∈ l -> Created q c ∈ l -> p = q.
Proof.
  induction l as [|e l IH]; [by rewrite elem_of_nil|]. cbn [log_ok]. intros [He Hl]. rewrite !elem_of_cons.
  intros [E|Hp] [E'|Hq]; subst; try (by injection E'); [by destruct (He q)|by destruct (He p)|by apply IH].
Qed.
Lemma exited_once l c v w : log_ok l -> Exited c v ∈ l -> Exited c w ∈ l -> v = w.
Proof.
  induction l as [|e l IH]; [by rewrite elem_of_nil|]. cbn [log_ok]. intros [He Hl]. rewrite !elem_of_cons.
  intros [E|Hp] [E'|Hq]; subst; try (by injection E'); [by destruct (He w)|by destruct (He v)|by apply IH].
Qed.

(** ** The invariant *)
Definition gone (a : point) : bool := match a with ExitDie | Dying => true | _ => false end.
Definition leaving (a : point) : bool :=
  match a with ExitTest | ExitParent | ExitParentLock _ | ExitDie | Dying => true | _ => false end.
Definition exiting (a : point) : bool := match a with ExitChildren => true | _ => leaving a end.
Definition loading (a : point) : bool := match a with Load | LoadUp _ => true | _ => false end.
Definition no_exit (l : list event) (c : Z) : Prop := forall v, Exited c v ∉ l.
Definition no_load (l : list event) (c : Z) : Prop := forall b, Loaded c b ∉ l.
Definition no_wait (l : list event) (c : Z) : Prop := forall q v, Waited q c (Some v) ∉ l.
Definition no_create (l : list event) (c : Z) : Prop := forall q, Created q c ∉ l.

(** Identifiers and the history. *)
Record base (L : Z -> Prop) (T : Z -> thread) (n0 : Z) (l : list event) : Prop := {
  b_log : log_ok l;
  b_next : 0 < n0 < 2 ^ 31;
  b_tid t : L t -> t <> 0 /\ 0 < tid (T t) < n0;
  b_inj t u : L t -> L u -> tid (T t) = tid (T u) -> t = u;
  b_past e : e ∈ l -> match e with Created p c => p < n0 /\ c < n0 | Loaded c _ | Exited c _ | Waited _ c (Some _) => c < n0 | _ => True end;
}.

(** Children lists, parents and what they record. *)
Record kin (L : Z -> Prop) (T : Z -> thread) (l : list event) : Prop := {
  k_link t : L t -> parent (T t) <> 0 -> gone (at_point (T t)) = false ->
    L (parent (T t)) /\ Alive t ∈ children (T (parent (T t)));
  k_alive p c : L p -> Alive c ∈ children (T p) ->
    L c /\ gone (at_point (T c)) = false /\ Created (tid (T p)) (tid (T c)) ∈ l /\ no_wait l (tid (T c)) /\
    (parent (T c) = p \/ parent (T c) = 0 /\ exists n, at_point (T p) = CreateStart c n);
  k_dead p d : L p -> Dead d ∈ children (T p) ->
    Created (tid (T p)) (d_tid d) ∈ l /\ Exited (d_tid d) (d_exit_code d) ∈ l /\ no_wait l (d_tid d) /\
    forall t, L t -> tid (T t) = d_tid d -> gone (at_point (T t)) = true;
  k_start p c n : L p -> at_point (T p) = CreateStart c n -> Alive c ∈ children (T p);
  k_nodup t : L t -> NoDup (children (T t));
  k_empty t : L t -> leaving (at_point (T t)) = true -> children (T t) = [];
  k_all p c : L p -> leaving (at_point (T p)) = false -> Created (tid (T p)) c ∈ l -> no_wait l c ->
    (exists d, Dead d ∈ children (T p) /\ d_tid d = c) \/ exists t, Alive t ∈ children (T p) /\ tid (T t) = c;
}.

(** Exit codes. *)
Definition exits (L : Z -> Prop) (T : Z -> thread) (l : list event) : Prop := forall t, L t ->
  if exiting (at_point (T t)) then Exited (tid (T t)) (exit_code (T t)) ∈ l else no_exit l (tid (T t)).

(** Threads that are being created, and their creators. *)
Record births (L : Z -> Prop) (T : Z -> thread) (l : list event) : Prop := {
  c_new c : L c -> at_point (T c) = New -> parent (T c) = 0;
  c_push p t n : L p -> at_point (T p) = CreatePush t n ->
    L t /\ tid (T t) = n /\ at_point (T t) = New /\ parent (T t) = 0 /\ no_create l n /\ no_load l n;
  c_pusher p q t n m : L p -> L q -> at_point (T p) = CreatePush t n -> at_point (T q) = CreatePush t m -> p = q;
  c_start p t n : L p -> at_point (T p) = CreateStart t n ->
    L t /\ tid (T t) = n /\ at_point (T t) = New /\ parent (T t) = 0 /\ Created (tid (T p)) n ∈ l /\ no_load l n;
  c_load c : L c -> loading (at_point (T c)) = true ->
    L (parent (T c)) /\ child_sema (T (parent (T c))) = 0 /\
    (at_point (T (parent (T c))) = CreateInit c (tid (T c)) \/ at_point (T (parent (T c))) = CreateDown (tid (T c))) /\
    match at_point (T c) with
    | LoadUp b => child_success (T (parent (T c))) = b /\ Loaded (tid (T c)) b ∈ l
    | _ => child_success (T (parent (T c))) = true /\ no_load l (tid (T c))
    end;
  c_down p n : L p -> (exists t, at_point (T p) = CreateInit t n) \/ at_point (T p) = CreateDown n ->
    Created (tid (T p)) n ∈ l /\
    ((child_sema (T p) = 0 /\ exists c, L c /\ tid (T c) = n /\ parent (T c) = p /\ loading (at_point (T c)) = true) \/
     (child_sema (T p) = 1 /\ Loaded n (child_success (T p)) ∈ l));
}.

Record inv (L : Z -> Prop) (T : Z -> thread) (n0 : Z) (l : list event) : Prop := {
  i_base : base L T n0 l; i_kin : kin L T l; i_exits : exits L T l; i_births : births L T l }.
Definition good (s : family) : Prop := inv (live s) (th s) (next_tid s) (log s).

(** ** Steps that leave a part alone *)

(** The points that have nothing to do with creation. *)
Definition plain (a : point) : bool :=
  match a with New | Load | LoadUp _ | CreatePush _ _ | CreateStart _ _ | CreateInit _ _ | CreateDown _ => false | _ => true end.

Definition formed (a : point) : bool := match a with New | Load | LoadUp _ => false | _ => true end.

Definition same_kin (x y : thread) : Prop :=
  tid x = tid y /\ parent x = parent y /\ children x = children y /\
  gone (at_point x) = gone (at_point y) /\ leaving (at_point x) = leaving (at_point y) /\
  forall c n, at_point x = CreateStart c n <-> at_point y = CreateStart c n.
Definition same_exit (x y : thread) : Prop :=
  tid x = tid y /\ exiting (at_point x) = exiting (at_point y) /\ (exiting (at_point x) = true -> exit_code x = exit_code y).
Definition same_births (x y : thread) : Prop :=
  tid x = tid y /\ (parent x = parent y \/ formed (at_point x) = true) /\
  (plain (at_point x) = true /\ plain (at_point y) = true \/
   at_point x = at_point y /\ child_sema x = child_sema y /\ child_success x = child_success y).

(** Histories that agree on the events that matter. *)
Definition kin_event (e : event) : bool := match e with Created _ _ | Waited _ _ (Some _) => true | _ => false end.
Definition exit_event (e : event) : bool := match e with Exited _ _ => true | _ => false end.
Definition birth_event (e : event) : bool := match e with Created _ _ | Loaded _ _ => true | _ => false end.
Definition same_log (f : event -> bool) (l l' : list event) : Prop := forall e, f e = true -> e ∈ l' <-> e ∈ l.
Lemma same_log_refl f l : same_log f l l.
Proof. done. Qed.
Lemma same_log_cons f l e : f e = false -> same_log f l (e :: l).
Proof. intros He x Hx. rewrite elem_of_cons. split; [intros [->|?]; [congruence|done]|by right]. Qed.

Ltac same_at S x Hx := let E := fresh in pose proof (S x Hx) as E; destruct E as (?Et & ?Ep & ?Ec & ?Eg & ?El & ?Es).

Lemma kin_same L T T' l l' : kin L T l -> (forall x, L x -> same_kin (T x) (T' x)) -> same_log kin_event l l' ->
  (forall c v, Exited c v ∈ l -> Exited c v ∈ l') -> kin L T' l'.
Proof.
  intros [] S M Me. assert (Mw : forall c, no_wait l' c <-> no_wait l c) by (intros c; unfold no_wait; split; intros H q v Hx; apply (H q v); by apply M).
  assert (Mc : forall p c, Created p c ∈ l' <-> Created p c ∈ l) by (intros; by apply M).
  split.
  - intros t Ht. same_at S t Ht. rewrite <- Ep, <- Eg. intros Hp Hg. destruct (k_link0 t Ht Hp Hg) as [Hl Ha]. split; [done|]. same_at S (parent (T t)) Hl. by rewrite <- Ec0.
  - intros p c Hp. same_at S p Hp. rewrite <- Ec, <- Et. intros Hc. destruct (k_alive0 p c Hp Hc) as (Hl & Hg & H1 & H2 & H3). same_at S c Hl.
    rewrite <- Eg0, <- Et0, <- Ep0, Mc, Mw. split_and!; try done. destruct H3 as [?|[? [n ?]]]; [by left|right]. split; [done|]. exists n. by apply Es.
  - intros p d Hp. same_at S p Hp. rewrite <- Ec, <- Et, Mc, Mw. intros Hd. destruct (k_dead0 p d Hp Hd) as (H1 & H2 & H3 & H4). split_and!; [done|by apply Me|done|].
    intros t Ht. same_at S t Ht. rewrite <- Et0, <- Eg0. by apply H4.
  - intros p c n Hp. same_at S p Hp. rewrite <- Ec, <- Es. by apply k_start0.
  - intros t Ht. same_at S t Ht. rewrite <- Ec. by apply k_nodup0.
  - intros t Ht. same_at S t Ht. rewrite <- Ec, <- El. by apply k_empty0.
  - intros p c Hp. same_at S p Hp. rewrite <- El, <- Et, <- Ec, Mc, Mw. intros H1 H2 H3. destruct (k_all0 p c Hp H1 H2 H3) as [?|(t & Ha & Htc)]; [by left|right].
    exists t. split; [done|]. destruct (k_alive0 p t Hp Ha) as (Hl & _). same_at S t Hl. by rewrite <- Et0.
Qed.

Lemma exits_same L T T' l l' : exits L T l -> (forall x, L x -> same_exit (T x) (T' x)) -> same_log exit_event l l' -> exits L T' l'.
Proof.
  intros X S M t Ht. destruct (S t Ht) as (E1 & E2 & E3). rewrite <- E2, <- E1. pose proof (X t Ht) as H. destruct (exiting (at_point (T t))).
  - rewrite <- E3 by done. by apply M.
  - intros v Hv. apply (H v). by apply M.
Qed.

Lemma births_same L T T' l l' : births L T l -> (forall x, L x -> same_births (T x) (T' x)) -> same_log birth_event l l' -> births L T' l'.
Proof.
  intros [] S M. assert (Ml : forall c, no_load l' c <-> no_load l c) by (intros c; unfold no_load; split; intros H b Hx; apply (H b); by apply M).
  assert (Mn : forall c, no_create l' c <-> no_create l c) by (intros c; unfold no_create; split; intros H b Hx; apply (H b); by apply M).
  assert (Mc : forall p c, Created p c ∈ l' <-> Created p c ∈ l) by (intros; by apply M).
  assert (Me : forall p c, Loaded p c ∈ l' <-> Loaded p c ∈ l) by (intros; by apply M).
  assert (Sa : forall x a, L x -> at_point (T' x) = a -> plain a = false -> tid (T x) = tid (T' x) /\ (formed a = false -> parent (T x) = parent (T' x)) /\
    at_point (T x) = a /\ child_sema (T x) = child_sema (T' x) /\ child_success (T x) = child_success (T' x)).
  { intros x a Hx E Ha. destruct (S x Hx) as (E1 & E2 & [[E3 E4]|(E3 & E4 & E5)]); [congruence|]. split_and!; try congruence. intros Hf. destruct E2; congruence. }
  assert (Sb : forall x a, L x -> at_point (T x) = a -> plain a = false -> tid (T x) = tid (T' x) /\ (formed a = false -> parent (T x) = parent (T' x)) /\
    at_point (T' x) = a /\ child_sema (T x) = child_sema (T' x) /\ child_success (T x) = child_success (T' x)).
  { intros x a Hx E Ha. destruct (S x Hx) as (E1 & E2 & [[E3 E4]|(E3 & E4 & E5)]); [congruence|]. split_and!; try congruence. intros Hf. destruct E2; congruence. }
  split.
  - intros c Hc Ea. destruct (Sa c _ Hc Ea eq_refl) as (_ & Ep & Ea' & _). rewrite <- Ep by done. by apply c_new0.
  - intros p t n Hp Ea. destruct (Sa p _ Hp Ea eq_refl) as (_ & _ & Ea' & _). rewrite Mn, Ml. destruct (c_push0 p t n Hp Ea') as (H1 & H2 & H3 & H4 & H5).
    destruct (Sb t _ H1 H3 eq_refl) as (E1 & E2 & E3 & _). by rewrite <- E1, <- E2 by done.
  - intros p q t n m Hp Hq Ea Ea'. destruct (Sa p _ Hp Ea eq_refl) as (_ & _ & H1 & _). destruct (Sa q _ Hq Ea' eq_refl) as (_ & _ & H2 & _). by apply (c_pusher0 p q t n m).
  - intros p t n Hp Ea. destruct (Sa p _ Hp Ea eq_refl) as (Ep & _ & Ea' & _). rewrite Ml, Mc, <- Ep. destruct (c_start0 p t n Hp Ea') as (H1 & H2 & H3 & H4 & H5).
    destruct (Sb t _ H1 H3 eq_refl) as (E1 & E2 & E3 & _). by rewrite <- E1, <- E2 by done.
  - intros c Hc Hload. assert (Hpl : plain (at_point (T' c)) = false) by (by destruct (at_point (T' c))). destruct (Sa c _ Hc eq_refl Hpl) as (E1 & E2' & E3 & _).
    assert (E2 : parent (T c) = parent (T' c)) by (apply E2'; by destruct (at_point (T' c))). rewrite <- E3 in Hload. destruct (c_load0 c Hc Hload) as (H1 & H2 & H3 & H4). rewrite <- E1, <- E2, <- E3.
    assert (Hq : plain (at_point (T (parent (T c)))) = false) by (by destruct H3 as [-> | ->]). destruct (Sb _ _ H1 eq_refl Hq) as (_ & _ & F3 & F4 & F5). rewrite F3, <- F4, <- F5.
    split_and!; try done. destruct (at_point (T c)); by rewrite ?Me, ?Ml.
  - intros p n Hp Ha. assert (Hpl : plain (at_point (T' p)) = false) by (by destruct Ha as [[? ->] | ->]). destruct (Sa p _ Hp eq_refl Hpl) as (E1 & E2 & E3 & E4 & E5).
    rewrite <- E3 in Ha. rewrite <- E1, <- E4, <- E5, Mc, Me. destruct (c_down0 p n Hp Ha) as (H1 & H2). split; [done|]. destruct H2 as [(H2 & c & Hc & F1 & F2 & F3)|?]; [left|by right].
    split; [done|]. exists c. assert (Hq : plain (at_point (T c)) = false) by (by destruct (at_point (T c))). destruct (Sb _ _ Hc eq_refl Hq) as (G1 & G2 & G3 & _).
    rewrite <- G1, <- G2, G3; [done|]. by destruct (at_point (T c)).
Qed.

Lemma base_same L T T' n0 l : base L T n0 l -> (forall x, L x -> tid (T x) = tid (T' x)) -> base L T' n0 l.
Proof.
  intros [] S. split; try done.
  - intros t Ht. rewrite <- S by done. by apply b_tid0.
  - intros t u Ht Hu. rewrite <- !S by done. by apply b_inj0.
Qed.
Lemma base_event L T n0 l e : base L T n0 l -> event_ok e l ->
  match e with Created p c => p < n0 /\ c < n0 | Loaded c _ | Exited c _ | Waited _ c (Some _) => c < n0 | _ => True end -> base L T n0 (e :: l).
Proof.
  intros [] He Hc. split; try done. intros x. rewrite elem_of_cons. intros [->|Hx]; [done|by apply b_past0].
Qed.

Lemma same_kin_refl x : same_kin x x.
Proof. by repeat split. Qed.
Lemma same_exit_refl x : same_exit x x.
Proof. by repeat split. Qed.
Lemma same_births_refl x : same_births x x.
Proof. split_and!; [done|by left|by right]. Qed.

Lemma kinship_ext L L' T T' n0 l : inv L T n0 l -> (forall x, L x <-> L' x) -> (forall x, L x -> T x = T' x) -> inv L' T' n0 l.
Proof.
  intros [[] K X B] HL HT. assert (HK : kin L T' l).
  { apply (kin_same L T T' l l); [done| |apply same_log_refl|done]. intros x Hx. rewrite HT by done. apply same_kin_refl. }
  assert (HB : births L T' l).
  { apply (births_same L T T' l l); [done| |apply same_log_refl]. intros x Hx. rewrite HT by done. apply same_births_refl. }
  split; [|destruct HK| |destruct HB]; try split; intros *; try setoid_rewrite <- HL; eauto.
  - intros Ht. rewrite <- HT by done. by apply b_tid0.
  - intros Ht Hu. rewrite <- !HT by done. by apply b_inj0.
  - apply b_past0.
  - intros t Ht. apply HL in Ht. rewrite <- HT by done. by apply X.
Qed.

(** Changing the thread [t]. *)
Definition fupd (t : Z) (f : thread -> thread) (T : Z -> thread) (x : Z) : thread := if decide (x = t) then f (T x) else T x.
Lemma fupd_eq t f T : fupd t f T t = f (T t).
Proof. unfold fupd. by rewrite decide_True. Qed.
Lemma fupd_ne t f T x : x <> t -> fupd t f T x = T x.
Proof. intros. unfold fupd. by rewrite decide_False. Qed.
Lemma fupd_rel (R : thread -> thread -> Prop) t f T x : (forall y, R y y) -> R (T t) (f (T t)) -> R (T x) (fupd t f T x).
Proof. intros Hr Ht. unfold fupd. case_decide; [by subst|done]. Qed.

Lemma kin_move L T l t f : kin L T l -> same_kin (T t) (f (T t)) -> kin L (fupd t f T) l.
Proof. intros K S. apply (kin_same L T _ l l); [done| |apply same_log_refl|done]. intros x _. apply fupd_rel; [apply same_kin_refl|done]. Qed.
Lemma exits_move L T l t f : exits L T l -> same_exit (T t) (f (T t)) -> exits L (fupd t f T) l.
Proof. intros K S. apply (exits_same L T _ l l); [done| |apply same_log_refl]. intros x _. apply fupd_rel; [apply same_exit_refl|done]. Qed.
Lemma births_move L T l t f : births L T l -> same_births (T t) (f (T t)) -> births L (fupd t f T) l.
Proof. intros K S. apply (births_same L T _ l l); [done| |apply same_log_refl]. intros x _. apply fupd_rel; [apply same_births_refl|done]. Qed.
Lemma base_move L T n0 l t f : base L T n0 l -> tid (f (T t)) = tid (T t) -> base L (fupd t f T) n0 l.
Proof. intros B S. apply (base_same L T); [done|]. intros x _. by apply (fupd_rel (fun a b => tid a = tid b)). Qed.

Lemma kin_event_skip L T l e : kin L T l -> kin_event e = false -> kin L T (e :: l).
Proof.
  intros K He. apply (kin_same L T T l); [done| |by apply same_log_cons|by intros; right]. intros. apply same_kin_refl.
Qed.
Lemma exits_event_skip L T l e : exits L T l -> exit_event e = false -> exits L T (e :: l).
Proof. intros K He. apply (exits_same L T T l); [done| |by apply same_log_cons]. intros. apply same_exit_refl. Qed.
Lemma births_event_skip L T l e : births L T l -> birth_event e = false -> births L T (e :: l).
Proof. intros K He. apply (births_same L T T l); [done| |by apply same_log_cons]. intros. apply same_births_refl. Qed.

(** An event that only the contract is about. *)
Lemma event_note L T n0 l e : inv L T n0 l -> event_ok e l -> kin_event e || exit_event e || birth_event e = false -> inv L T n0 (e :: l).
Proof.
  intros [B K X C] He Hk. apply orb_false_elim in Hk as [Hk Hb]. apply orb_false_elim in Hk as [Hk Hx].
  split; [|by apply kin_event_skip|by apply exits_event_skip|by apply births_event_skip].
  apply base_event; [done..|]. by destruct e as [| | | |? ? []].
Qed.

(** [same_kin], [same_exit] and [same_births] when the point of the thread is known. *)
Ltac same_by E := unfold same_kin, same_exit, same_births; cbn; rewrite ?E; cbn; naive_solver.

Section Steps.
Context (L : Z -> Prop) (T : Z -> thread) (n0 : Z) (l : list event) (I : inv L T n0 l).

Lemma move_ok t f : same_kin (T t) (f (T t)) -> same_exit (T t) (f (T t)) -> same_births (T t) (f (T t)) -> inv L (fupd t f T) n0 l.
Proof.
  intros S1 S2 S3. destruct I. split; [|by apply kin_move|by apply exits_move|by apply births_move]. apply base_move; [done|symmetry; apply S1].
Qed.

(** *** Exiting *)
Lemma begin_exit_ok t v : L t -> at_point (T t) = User ->
  inv L (fupd t (fun y => set_point ExitChildren (set_exit_code v y)) T) n0 (Exited (tid (T t)) v :: l).
Proof.
  intros Ht Ea. destruct I as [B K X C]. assert (Hno : no_exit l (tid (T t))) by (pose proof (X t Ht) as H; by rewrite Ea in H).
  split.
  - apply base_event; [by apply base_move|by apply Hno|]. by apply (b_tid _ _ _ _ B).
  - apply kin_event_skip; [|done]. apply kin_move; [done|]. same_by Ea.
  - intros x Hx. unfold fupd. case_decide as E; [subst; by left|]. pose proof (X x Hx) as H. destruct (exiting _); [by right|].
    intros w Hw. apply elem_of_cons in Hw as [Hw|Hw]; [|by apply (H w)]. injection Hw as Hw ->. apply E. by apply (b_inj _ _ _ _ B).
  - apply births_event_skip; [|done]. apply births_move; [done|]. same_by Ea.
Qed.

(** The children are told that their parent is gone. *)
Definition orphaned (t : Z) (x : Z) : thread :=
  let y := if decide (Alive x ∈ children (T t)) then set_parent 0 (T x) else T x in
  if decide (x = t) then set_point ExitTest (set_children [] y) else y.

Lemma orphaned_same t x : at_point (T t) = ExitChildren -> tid (orphaned t x) = tid (T x) /\ exit_code (orphaned t x) = exit_code (T x) /\
  gone (at_point (orphaned t x)) = gone (at_point (T x)) /\ exiting (at_point (orphaned t x)) = exiting (at_point (T x)).
Proof using. intros Ea. unfold orphaned. repeat case_decide; subst; cbn; rewrite ?Ea; done. Qed.
Lemma orphaned_ne t x : x <> t -> children (orphaned t x) = children (T x) /\ at_point (orphaned t x) = at_point (T x).
Proof using. intros Hx. unfold orphaned. repeat case_decide; done. Qed.
Lemma orphaned_parent t x : parent (orphaned t x) = if decide (Alive x ∈ children (T t)) then 0 else parent (T x).
Proof using. unfold orphaned. repeat case_decide; done. Qed.
Lemma orphaned_at t : children (orphaned t t) = [] /\ at_point (orphaned t t) = ExitTest.
Proof using. unfold orphaned. by rewrite (decide_True (P := t = t)). Qed.

Lemma child_parent t x : L t -> plain (at_point (T t)) = true -> Alive x ∈ children (T t) -> L x /\ parent (T x) = t.
Proof.
  intros Ht Ha Hx. destruct I as [B K X C]. destruct (k_alive _ _ _ K t x Ht Hx) as (Hl & _ & _ & _ & [?|[_ [n E]]]); [done|]. by rewrite E in Ha.
Qed.

Lemma exit_children_kin t : L t -> at_point (T t) = ExitChildren -> kin L (orphaned t) l.
Proof.
  intros Ht Ea. pose proof (fun x => orphaned_same t x Ea) as S. pose proof (child_parent t) as Hcp. rewrite Ea in Hcp. specialize (fun x => Hcp x Ht eq_refl).
  destruct I as [B [] X C]. assert (Ht0 : t <> 0) by (by apply (b_tid _ _ _ _ B)). split.
  - intros x Hx. destruct (S x) as (_ & _ & -> & _). rewrite orphaned_parent. case_decide as Hc; [done|]. intros Hp Hg. destruct (k_link0 x Hx Hp Hg) as [H1 H2].
    split; [done|]. destruct (orphaned_ne t (parent (T x))) as [-> _]; [by intros E; rewrite E in H2|done].
  - intros p c Hp. destruct (decide (p = t)) as [->|Hpt]; [rewrite (proj1 (orphaned_at t)); by intros ?%elem_of_nil|].
    destruct (orphaned_ne t p Hpt) as [-> ->]. intros Hc. destruct (k_alive0 p c Hp Hc) as (H1 & H2 & H3 & H4 & H5). destruct (S c) as (-> & _ & -> & _). destruct (S p) as (-> & _).
    split_and!; try done. rewrite orphaned_parent. case_decide as Hct; [|done]. destruct (Hcp c Hct) as [_ E]. destruct H5 as [H5|[H5 _]]; congruence.
  - intros p d Hp. destruct (decide (p = t)) as [->|Hpt]; [rewrite (proj1 (orphaned_at t)); by intros ?%elem_of_nil|].
    destruct (orphaned_ne t p Hpt) as [-> _]. intros Hd. destruct (k_dead0 p d Hp Hd) as (H1 & H2 & H3 & H4). destruct (S p) as (-> & _). split_and!; try done.
    intros x Hx. destruct (S x) as (-> & _ & -> & _). by apply H4.
  - intros p c n Hp. destruct (decide (p = t)) as [->|Hpt]; [by rewrite (proj2 (orphaned_at t))|]. destruct (orphaned_ne t p Hpt) as [-> ->]. by apply k_start0.
  - intros x Hx. destruct (decide (x = t)) as [->|Hxt]; [rewrite (proj1 (orphaned_at t)); constructor|]. destruct (orphaned_ne t x Hxt) as [-> _]. by apply k_nodup0.
  - intros x Hx. destruct (decide (x = t)) as [->|Hxt]; [by rewrite (proj1 (orphaned_at t))|]. destruct (orphaned_ne t x Hxt) as [-> ->]. by apply k_empty0.
  - intros p c Hp. destruct (decide (p = t)) as [->|Hpt]; [by rewrite (proj2 (orphaned_at t))|]. destruct (orphaned_ne t p Hpt) as [-> ->]. destruct (S p) as (-> & _).
    intros H1 H2 H3. destruct (k_all0 p c Hp H1 H2 H3) as [?|(x & Hx & E)]; [by left|right]. exists x. by destruct (S x) as (-> & _).
Qed.

Lemma exit_children_ok t : L t -> at_point (T t) = ExitChildren -> inv L (orphaned t) n0 l.
Proof.
  intros Ht Ea. pose proof (fun x => orphaned_same t x Ea) as S. pose proof (exit_children_kin t Ht Ea) as K'. pose proof (child_parent t) as Hcp. rewrite Ea in Hcp. specialize (fun x => Hcp x Ht eq_refl).
  destruct I as [B K X C]. split; [|done| |].
  - apply (base_same L T); [done|]. intros x _. by destruct (S x) as (-> & _).
  - apply (exits_same L T _ l l); [done| |apply same_log_refl]. intros x _. destruct (S x) as (E1 & E2 & _ & E3). unfold same_exit. by rewrite E1, E2, E3.
  - apply (births_same L T _ l l); [done| |apply same_log_refl]. intros x Hx. unfold same_births. destruct (S x) as (-> & _). split; [done|]. split.
    + rewrite orphaned_parent. case_decide as Hc; [|by left]. destruct (Hcp x Hc) as [_ Ep]. destruct (formed (at_point (T x))) eqn:Ef; [by right|left].
      destruct (loading (at_point (T x))) eqn:El; [|destruct C; rewrite c_new0; [done|done|by destruct (at_point (T x))]].
      destruct (c_load _ _ _ C x Hx El) as (_ & _ & H & _). rewrite Ep, Ea in H. by destruct H.
    + destruct (decide (x = t)) as [->|Hxt]; [left; by rewrite Ea, (proj2 (orphaned_at t))|right]. unfold orphaned. repeat case_decide; done.
Qed.

(** Who lists a thread that is past its creation is its parent. *)
Lemma lister_parent p t : L p -> at_point (T t) <> New -> Alive t ∈ children (T p) -> parent (T t) = p.
Proof.
  intros Hp Hn Ha. destruct I as [B K X C]. destruct (k_alive _ _ _ K p t Hp Ha) as (_ & _ & _ & _ & [?|[_ [n E]]]); [done|].
  by destruct (c_start _ _ _ C p t n Hp E) as (_ & _ & ? & _).
Qed.

(** A thread is gone, and whoever lists it has the record of it instead. *)
Lemma kin_gone T' t : L t -> at_point (T t) = ExitTest \/ (exists p, at_point (T t) = ExitParentLock p) ->
  (forall x, tid (T' x) = tid (T x) /\ parent (T' x) = parent (T x) /\ at_point (T' x) = if decide (x = t) then ExitDie else at_point (T x)) ->
  (forall p c, L p -> Alive c ∈ children (T' p) <-> Alive c ∈ children (T p) /\ c <> t) ->
  (forall p d, L p -> Dead d ∈ children (T' p) <-> Dead d ∈ children (T p) \/ Alive t ∈ children (T p) /\ d = mk_dead (tid (T t)) (exit_code (T t))) ->
  (forall p, L p -> NoDup (children (T' p)) /\ (children (T p) = [] -> children (T' p) = [])) -> kin L T' l.
Proof.
  intros Ht Ea S Sa Sd Sn. assert (He : exiting (at_point (T t)) = true /\ leaving (at_point (T t)) = true) by (by destruct Ea as [->|[? ->]]).
  destruct He as [He Hle]. assert (Hn : at_point (T t) <> New) by (by destruct Ea as [->|[? ->]]).
  destruct I as [B [] X C]. pose proof (X t Ht) as Hexit. rewrite He in Hexit.
  assert (Sg : forall x, gone (at_point (T x)) = true -> gone (at_point (T' x)) = true) by (intros x; destruct (S x) as (_ & _ & ->); by case_decide).
  assert (Sl : forall x, leaving (at_point (T' x)) = leaving (at_point (T x))) by (intros x; destruct (S x) as (_ & _ & ->); case_decide; [by subst|done]).
  split.
  - intros x Hx. destruct (S x) as (_ & -> & ->). case_decide; [done|]. intros Hp Hg. destruct (k_link0 x Hx Hp Hg). split; [done|]. by apply Sa.
  - intros p c Hp. rewrite Sa by done. intros [Hc Hct]. destruct (k_alive0 p c Hp Hc) as (H1 & H2 & H3 & H4 & H5). destruct (S c) as (-> & -> & ->). destruct (S p) as (-> & _ & ->).
    rewrite decide_False by done. split_and!; try done. destruct H5 as [?|[? [n E]]]; [by left|right]. split; [done|]. exists n. rewrite decide_False; [done|]. intros ->. by rewrite E in Hle.
  - intros p d Hp. rewrite Sd by done. destruct (S p) as (-> & _). intros [Hd|[Ha ->]]; cbn.
    + destruct (k_dead0 p d Hp Hd) as (H1 & H2 & H3 & H4). split_and!; try done. intros x Hx. destruct (S x) as (-> & _). intros E. by apply Sg, H4.
    + destruct (k_alive0 p t Hp Ha) as (H1 & H2 & H3 & H4 & H5). split_and!; try done. intros x Hx. destruct (S x) as (-> & _ & ->). intros E.
      by rewrite decide_True by (by apply (b_inj _ _ _ _ B)).
  - intros p c n Hp. destruct (S p) as (_ & _ & ->). case_decide; [done|]. intros E. apply Sa; [done|]. split; [by apply (k_start0 p c n)|]. intros ->.
    destruct (c_start _ _ _ C p t n Hp E) as (_ & _ & ? & _). done.
  - intros x Hx. by apply Sn.
  - intros x Hx. rewrite Sl. intros Hl. by apply Sn, k_empty0.
  - intros p c Hp. rewrite Sl. destruct (S p) as (-> & _). intros H1 H2 H3. destruct (k_all0 p c Hp H1 H2 H3) as [(d & Hd & E)|(x & Hx & E)].
    + left. exists d. split; [|done]. apply Sd; [done|by left].
    + destruct (decide (x = t)) as [->|Hxt].
      * left. eexists. split; [apply Sd; [done|by right]|done].
      * right. exists x. destruct (S x) as (-> & _). split; [by apply Sa|done].
Qed.

Lemma exit_orphan_ok t : L t -> at_point (T t) = ExitTest -> parent (T t) = 0 -> inv L (fupd t (set_point ExitDie) T) n0 l.
Proof.
  intros Ht Ea Ep. assert (Hnot : forall p, L p -> Alive t ∉ children (T p)).
  { intros p Hp Ha. apply (b_tid _ _ _ _ (i_base _ _ _ _ I) p Hp). rewrite <- Ep. symmetry. apply lister_parent; [done|by rewrite Ea|done]. }
  assert (Sc : forall x, children (fupd t (set_point ExitDie) T x) = children (T x)) by (intros; unfold fupd; by case_decide).
  split; [apply base_move; [apply I|done]| |apply exits_move; [apply I|same_by Ea]|apply births_move; [apply I|same_by Ea]].
  apply (kin_gone _ t); [done|by left|intros x; unfold fupd; by case_decide|..]; intros p.
  - intros c Hp. rewrite Sc. split; [|by intros []]. intros Hc. split; [done|]. intros ->. by apply (Hnot p).
  - intros d Hp. rewrite Sc. split; [by left|]. intros [?|[? _]]; [done|]. by destruct (Hnot p).
  - intros Hp. rewrite Sc. split; [|done]. by apply (k_nodup _ _ _ (i_kin _ _ _ _ I)).
Qed.

Definition told (t p : Z) (y : thread) : thread :=
  set_children (list_remove (Alive t) (children y) ++ [Dead (mk_dead (tid (T t)) (exit_code (T t)))]) y.

Lemma exit_tell_ok t q p : L t -> at_point (T t) = ExitParentLock q -> parent (T t) = p -> p <> 0 ->
  inv L (fupd t (set_point ExitDie) (fupd p (told t p) T)) n0 l.
Proof.
  intros Ht Ea Ep Hp0. destruct (k_link _ _ _ (i_kin _ _ _ _ I) t Ht) as [Hp Ha]; [by rewrite Ep|by rewrite Ea|]. rewrite Ep in Hp, Ha.
  pose proof (k_nodup _ _ _ (i_kin _ _ _ _ I)) as Hnd. pose proof (k_empty _ _ _ (i_kin _ _ _ _ I)) as Hem. pose proof (k_dead _ _ _ (i_kin _ _ _ _ I)) as Hde.
  assert (Hpt : p <> t) by (intros E; rewrite E, (Hem t) in Ha; [by apply elem_of_nil in Ha|done|by rewrite Ea]).
  assert (Hother : forall x, L x -> x <> p -> Alive t ∉ children (T x)).
  { intros x Hx Hne Hc. apply Hne. rewrite <- Ep. symmetry. apply (lister_parent x t); [done|by rewrite Ea|done]. }
  set (T' := fupd t (set_point ExitDie) (fupd p (told t p) T)).
  assert (Sne : forall x, x <> p -> children (T' x) = children (T x)).
  { intros x Hx. unfold T', fupd. rewrite (decide_False (P := x = p)) by done. by case_decide. }
  assert (Sp : children (T' p) = list_remove (Alive t) (children (T p)) ++ [Dead (mk_dead (tid (T t)) (exit_code (T t)))]).
  { unfold T', fupd. rewrite (decide_False (P := p = t)), (decide_True (P := p = p)) by done. done. }
  assert (Et : fupd p (told t p) T t = T t) by (by rewrite fupd_ne).
  split; [apply base_move; [apply base_move; [apply I|done]|by rewrite Et]| |apply exits_move; [apply exits_move; [apply I|by repeat split]|rewrite Et; same_by Ea]|].
  2:{ apply births_move; [apply births_move; [apply I|]|rewrite Et; same_by Ea]. split_and!; [done|by left|by right]. }
  apply (kin_gone _ t); [done|right; by exists q|intros x; unfold T', fupd; repeat case_decide; by subst|..]; intros x.
  - intros c Hx. destruct (decide (x = p)) as [->|Hxp].
    + rewrite Sp, elem_of_app, list_elem_of_singleton, list_remove_spec by (by apply Hnd). naive_solver.
    + rewrite Sne by done. split; [|by intros []]. intros Hc. split; [done|]. intros ->. by apply (Hother x).
  - intros d Hx. destruct (decide (x = p)) as [->|Hxp].
    + rewrite Sp, elem_of_app, list_elem_of_singleton, list_remove_spec by (by apply Hnd). naive_solver.
    + rewrite Sne by done. split; [by left|]. intros [?|[? _]]; [done|]. by destruct (Hother x).
  - intros Hx. destruct (decide (x = p)) as [->|Hxp]; [|rewrite Sne by done; split; [by apply Hnd|done]]. rewrite Sp. split.
    + apply NoDup_app. split_and!; [by apply NoDup_list_remove, Hnd| |apply NoDup_singleton].
      intros e He Hd. apply list_elem_of_singleton in Hd as ->. apply elem_of_list_remove in He. destruct (Hde p _ Hp He) as (_ & _ & _ & H). specialize (H t Ht eq_refl). by rewrite Ea in H.
    + intros E. rewrite E in Ha. by apply elem_of_nil in Ha.
Qed.

(** [schedule_tail] frees a thread that has died. *)
Lemma free_ok t : at_point (T t) = Dying -> inv (fun x => L x /\ x <> t) T n0 l.
Proof.
  intros Ea. destruct I as [[] [] X []]. split.
  - split; try done; [intros x [Hx _]; by apply b_tid0|intros x y [Hx _] [Hy _]; by apply b_inj0].
  - split.
    + intros x [Hx Hxt] Hp Hg. destruct (k_link0 x Hx Hp Hg) as [H1 H2]. split_and!; [done| |done]. intros E. rewrite E in H1, H2. rewrite k_empty0 in H2; [by apply elem_of_nil in H2|done|by rewrite Ea].
    + intros p c [Hp _] Hc. destruct (k_alive0 p c Hp Hc) as (H1 & H2 & H3). split_and!; try done; try apply H3. intros ->. by rewrite Ea in H2.
    + intros p d [Hp _] Hd. destruct (k_dead0 p d Hp Hd) as (H1 & H2 & H3 & H4). split_and!; try done. intros x [Hx _]. by apply H4.
    + intros p c n [Hp _]. by apply k_start0.
    + intros x [Hx _]. by apply k_nodup0.
    + intros x [Hx _]. by apply k_empty0.
    + intros p c [Hp _]. by apply k_all0.
  - intros x [Hx _]. by apply X.
  - split.
    + intros x [Hx _]. by apply c_new0.
    + intros p c n [Hp _] E. destruct (c_push0 p c n Hp E) as (H1 & H2 & H3 & H4). split_and!; try done; try apply H4. intros ->. by rewrite Ea in H3.
    + intros p q c n m [Hp _] [Hq _]. by apply c_pusher0.
    + intros p c n [Hp _] E. destruct (c_start0 p c n Hp E) as (H1 & H2 & H3 & H4). split_and!; try done; try apply H4. intros ->. by rewrite Ea in H3.
    + intros c [Hc _] E. destruct (c_load0 c Hc E) as (H1 & H2 & H3 & H4). split_and!; try done. intros Et. rewrite Et, Ea in H3. by destruct H3.
    + intros p n [Hp _] E. destruct (c_down0 p n Hp E) as (H1 & [(H2 & c & H3 & H4 & H5 & H6)|H2]); (split; [done|]); [left|by right].
      split; [done|]. exists c. split_and!; try done. intros ->. by rewrite Ea in H6.
Qed.

(** *** Waiting *)
Definition waited (d : dead_thread) (y : thread) : thread := set_point User (set_children (list_remove (Dead d) (children y)) y).

Lemma wait_dead_kin t n d : L t -> at_point (T t) = Wait n -> Dead d ∈ children (T t) ->
  kin L (fupd t (waited d) T) (Waited (tid (T t)) (d_tid d) (Some (d_exit_code d)) :: l).
Proof.
  intros Ht Ea Hd. destruct I as [B [] X C]. set (T' := fupd t (waited d) T). set (e := Waited _ _ _).
  assert (S : forall x, tid (T' x) = tid (T x) /\ parent (T' x) = parent (T x) /\ gone (at_point (T' x)) = gone (at_point (T x)) /\ leaving (at_point (T' x)) = leaving (at_point (T x)) /\
    forall c m, at_point (T' x) = CreateStart c m <-> at_point (T x) = CreateStart c m).
  { intros x. unfold T', fupd. case_decide; [subst; cbn; by rewrite Ea|done]. }
  assert (Sc : forall x y, L x -> y ∈ children (T' x) <-> y ∈ children (T x) /\ (x = t -> y <> Dead d)).
  { intros x y Hx. unfold T', fupd. case_decide as E; [|naive_solver]. subst. cbn. rewrite list_remove_spec by (by apply k_nodup0). naive_solver. }
  destruct (k_dead0 t d Ht Hd) as (Hcr & Hex & Hnw & Hgo). pose proof (b_log _ _ _ _ B) as Hlog.
  assert (M : forall c, no_wait l c -> c <> d_tid d -> no_wait (e :: l) c) by (intros c Hc Hne q v Hx; apply elem_of_cons in Hx as [Hx|Hx]; [by injection Hx|by apply (Hc q v)]).
  split.
  - intros x Hx. destruct (S x) as (_ & -> & -> & _). intros Hp Hg. destruct (k_link0 x Hx Hp Hg). split; [done|]. by apply Sc.
  - intros p c Hp. rewrite Sc by done. intros [Hc _]. destruct (k_alive0 p c Hp Hc) as (H1 & H2 & H3 & H4 & H5). destruct (S c) as (-> & -> & -> & _). destruct (S p) as (-> & _ & _ & _ & Hs).
    split_and!; [done|done|by right|apply M; [done|]|setoid_rewrite Hs; done]. intros E. rewrite (Hgo c H1 E) in H2. done.
  - intros p d' Hp. rewrite Sc by done. intros [Hd' Hne]. destruct (k_dead0 p d' Hp Hd') as (H1 & H2 & H3 & H4). destruct (S p) as (-> & _). split_and!; [by right|by right|apply M; [done|]|].
    + intros E. rewrite E in H1, H2. pose proof (created_once l _ _ _ Hlog H1 Hcr) as Ep. apply Hne; [by apply (b_inj _ _ _ _ B)|]. pose proof (exited_once l _ _ _ Hlog H2 Hex). destruct d, d'; cbn in *; congruence.
    + intros x Hx. destruct (S x) as (-> & _ & -> & _). by apply H4.
  - intros p c m Hp. destruct (S p) as (_ & _ & _ & _ & ->). intros E. apply Sc; [done|]. split; [by apply (k_start0 p c m)|done].
  - intros x Hx. unfold T', fupd. case_decide; [|by apply k_nodup0]. by apply NoDup_list_remove, k_nodup0.
  - intros x Hx. destruct (S x) as (_ & _ & _ & -> & _). intros Hl. unfold T', fupd. case_decide; [subst; by rewrite Ea in Hl|by apply k_empty0].
  - intros p c Hp. destruct (S p) as (-> & _ & _ & -> & _). intros H1 H2 H3. apply elem_of_cons in H2 as [|H2]; [done|].
    assert (c <> d_tid d) by (intros ->; apply (H3 (tid (T t)) (d_exit_code d)); by left). assert (Hw : no_wait l c) by (intros q v Hx; apply (H3 q v); by right).
    destruct (k_all0 p c Hp H1 H2 Hw) as [(d' & Hd' & E)|(x & Hx & E)]; [left|right].
    + exists d'. split; [|done]. apply Sc; [done|]. split; [done|]. intros _ Ed. congruence.
    + exists x. destruct (S x) as (-> & _). split; [|done]. by apply Sc.
Qed.

Lemma wait_dead_ok t n d : L t -> at_point (T t) = Wait n -> Dead d ∈ children (T t) ->
  inv L (fupd t (waited d) T) n0 (Waited (tid (T t)) (d_tid d) (Some (d_exit_code d)) :: l).
Proof.
  intros Ht Ea Hd. destruct (k_dead _ _ _ (i_kin _ _ _ _ I) t d Ht Hd) as (Hcr & Hex & Hnw & Hgo). split.
  - apply base_event; [apply base_move; [apply I|done]|done|]. apply (b_past _ _ _ _ (i_base _ _ _ _ I) _ Hex).
  - by apply (wait_dead_kin t n d).
  - apply exits_event_skip; [|done]. apply exits_move; [apply I|same_by Ea].
  - apply births_event_skip; [|done]. apply births_move; [apply I|same_by Ea].
Qed.

(** *** Creation *)

(** A new thread, not yet known to anyone. *)
Definition with_new (c : Z) (x : Z) : thread := if decide (x = c) then mk_thr n0 (-1) [] 0 0 false false New else T x.

Lemma mk_thread_ok c : ~ L c -> c <> 0 -> n0 + 1 < 2 ^ 31 -> inv (fun x => L x \/ x = c) (with_new c) (n0 + 1) l.
Proof.
  intros Hc Hc0 Hn. assert (Sn : forall x, L x -> with_new c x = T x) by (intros x Hx; unfold with_new; rewrite decide_False; [done|by intros ->]).
  assert (Sc : with_new c c = mk_thr n0 (-1) [] 0 0 false false New) by (unfold with_new; by rewrite decide_True).
  destruct I as [[] [] X []]. assert (Hpast : no_exit l n0 /\ no_load l n0 /\ no_create l n0 /\ forall d, Created n0 d ∉ l).
  { split_and!; intros v Hv; apply b_past0 in Hv; cbn in Hv; lia. }
  destruct Hpast as (P1 & P2 & P3 & P4). split.
  - split; [done|lia|..].
    + intros x [Hx | ->]; [rewrite Sn by done; destruct (b_tid0 x Hx); split; [done|lia]|rewrite Sc; cbn; lia].
    + intros x y [Hx | ->] [Hy | ->]; rewrite ?Sc, ?Sn by done; cbn; intros E; [by apply b_inj0|destruct (b_tid0 x Hx); lia|destruct (b_tid0 y Hy); lia|done].
    + intros e He. pose proof (b_past0 e He) as H. destruct e as [| | | |? ? []]; cbn in *; try done; lia.
  - split.
    + intros x [Hx | ->]; [|by rewrite Sc]. rewrite !Sn by done. intros Hp Hg. destruct (k_link0 x Hx Hp Hg) as [H1 H2]. rewrite Sn by done. split; [by left|done].
    + intros p x [Hp | ->]; [|rewrite Sc; by intros ?%elem_of_nil]. rewrite Sn by done. intros Hx. destruct (k_alive0 p x Hp Hx) as (H1 & H2). rewrite Sn by done. split; [by left|done].
    + intros p d [Hp | ->]; [|rewrite Sc; by intros ?%elem_of_nil]. rewrite Sn by done. intros Hd. destruct (k_dead0 p d Hp Hd) as (H1 & H2 & H3 & H4). split_and!; try done.
      intros x [Hx | ->]; [rewrite Sn by done; by apply H4|]. rewrite Sc. cbn. intros E. rewrite <- E in H1. by destruct (P3 (tid (T p))).
    + intros p x m [Hp | ->]; [|by rewrite Sc]. rewrite Sn by done. by apply k_start0.
    + intros x [Hx | ->]; [rewrite Sn by done; by apply k_nodup0|rewrite Sc; constructor].
    + intros x [Hx | ->]; [rewrite Sn by done; by apply k_empty0|by rewrite Sc].
    + intros p x [Hp | ->]; [|rewrite Sc; cbn; intros _ Hx; by destruct (P4 x)]. rewrite Sn by done. intros H1 H2 H3. destruct (k_all0 p x Hp H1 H2 H3) as [?|(y & Hy & E)]; [by left|right].
      exists y. split; [done|]. rewrite Sn; [done|]. by apply (k_alive0 p y).
  - intros x [Hx | ->]; [rewrite Sn by done; by apply X|by rewrite Sc].
  - split.
    + intros x [Hx | ->]; [rewrite Sn by done; by apply c_new0|by rewrite Sc].
    + intros p x m [Hp | ->]; [|by rewrite Sc]. rewrite Sn by done. intros E. destruct (c_push0 p x m Hp E) as (H1 & H2). rewrite Sn by done. split; [by left|done].
    + intros p q x m m' [Hp | ->] [Hq | ->]; rewrite ?Sc; try done. rewrite !Sn by done. by apply c_pusher0.
    + intros p x m [Hp | ->]; [|by rewrite Sc]. rewrite Sn by done. intros E. destruct (c_start0 p x m Hp E) as (H1 & H2). rewrite Sn by done. split; [by left|done].
    + intros x [Hx | ->]; [|by rewrite Sc]. rewrite Sn by done. intros E. destruct (c_load0 x Hx E) as (H1 & H2). rewrite Sn by done. split; [by left|done].
    + intros p m [Hp | ->]; [|rewrite Sc; cbn; naive_solver]. rewrite Sn by done. intros E. destruct (c_down0 p m Hp E) as (H1 & [(H2 & x & H3 & H4)|H2]); (split; [done|]); [left|by right].
      split; [done|]. exists x. rewrite Sn by done. split; [by left|done].
Qed.

(** Its creator. *)
Lemma create_begin_ok t c : L t -> L c -> at_point (T t) = User -> at_point (T c) = New ->
  (forall q m, L q -> at_point (T q) <> CreatePush c m) -> no_create l (tid (T c)) -> no_load l (tid (T c)) ->
  inv L (fupd t (set_point (CreatePush c (tid (T c)))) T) n0 l.
Proof.
  intros Ht Hc Ea En Hq Hnc Hnl. destruct I as [B K X C]. split; [by apply base_move|apply kin_move; [done|same_by Ea]|apply exits_move; [done|same_by Ea]|].
  set (T' := fupd t _ T). assert (Sne : forall x, x <> t -> T' x = T x) by (intros; by apply fupd_ne).
  assert (St : T' t = set_point (CreatePush c (tid (T c))) (T t)) by (by apply fupd_eq).
  assert (Hnot : forall x, at_point (T x) <> User -> x <> t) by (by intros x Hx ->). destruct C. split.
  - intros x Hx. destruct (decide (x = t)) as [->|Hxt]; [by rewrite St|]. rewrite Sne by done. by apply c_new0.
  - intros p x m Hp. destruct (decide (p = t)) as [->|Hpt].
    + rewrite St. cbn. intros E. injection E as <- <-. rewrite Sne by (apply Hnot; by rewrite En). split_and!; try done. by apply c_new0.
    + rewrite Sne by done. intros E. destruct (c_push0 p x m Hp E) as (H1 & H2 & H3 & H4). rewrite Sne by (apply Hnot; by rewrite H3). done.
  - intros p q x m m' Hp Hq'. destruct (decide (p = t)) as [->|Hpt], (decide (q = t)) as [->|Hqt]; rewrite ?St, ?Sne by done; cbn; try done.
    + intros E E'. injection E as <- <-. by destruct (Hq q m').
    + intros E E'. injection E' as <- <-. by destruct (Hq p m).
    + by apply c_pusher0.
  - intros p x m Hp. destruct (decide (p = t)) as [->|Hpt]; [by rewrite St|]. rewrite (Sne p) by done. intros E. destruct (c_start0 p x m Hp E) as (H1 & H2 & H3 & H4).
    rewrite Sne by (apply Hnot; by rewrite H3). done.
  - intros x Hx. destruct (decide (x = t)) as [->|Hxt]; [by rewrite St|]. rewrite (Sne x) by done. intros E. destruct (c_load0 x Hx E) as (H1 & H2 & H3 & H4).
    rewrite Sne; [done|]. apply Hnot. by destruct H3 as [-> | ->].
  - intros p m Hp. destruct (decide (p = t)) as [->|Hpt]; [rewrite St; cbn; naive_solver|]. rewrite (Sne p) by done. intros E. destruct (c_down0 p m Hp E) as (H1 & [(H2 & x & H3 & H4 & H5 & H6)|H2]); (split; [done|]); [left|by right].
    split; [done|]. exists x. rewrite Sne; [done|]. apply Hnot. by destruct (at_point (T x)).
Qed.

(** The new thread joins the list of its creator. *)
Definition pushed (c n : Z) (y : thread) : thread := set_point (CreateStart c n) (set_children (children y ++ [Alive c]) y).

Lemma create_push_kin t c n : L t -> at_point (T t) = CreatePush c n -> kin L (fupd t (pushed c n) T) (Created (tid (T t)) n :: l).
Proof.
  intros Ht Ea. destruct I as [B [] X C]. destruct (c_push _ _ _ C t c n Ht Ea) as (Hc & Hn & En & Hp0 & Hnc & Hnl). pose proof (b_log _ _ _ _ B) as Hlog.
  assert (Hnw : no_wait l n) by (intros q v Hv; apply (Hnc q); by apply (waited_created l q n v)).
  set (T' := fupd t (pushed c n) T). set (e := Created (tid (T t)) n).
  assert (S : forall x, tid (T' x) = tid (T x) /\ parent (T' x) = parent (T x) /\ gone (at_point (T' x)) = gone (at_point (T x)) /\ leaving (at_point (T' x)) = leaving (at_point (T x))).
  { intros x. unfold T', fupd. case_decide; [subst; cbn; by rewrite Ea|done]. }
  assert (Sc : forall x y, y ∈ children (T' x) <-> y ∈ children (T x) \/ (x = t /\ y = Alive c)).
  { intros x y. unfold T', fupd. case_decide as E; [|naive_solver]. subst. cbn. rewrite elem_of_app, list_elem_of_singleton. naive_solver. }
  assert (M : forall z, no_wait (e :: l) z <-> no_wait l z) by (intros z; unfold no_wait; split; intros H q v Hx; apply (H q v); [by right|by apply elem_of_cons in Hx as []]).
  split.
  - intros x Hx. destruct (S x) as (_ & -> & -> & _). intros Hp Hg. destruct (k_link0 x Hx Hp Hg). split; [done|]. apply Sc. by left.
  - intros p x Hp. rewrite Sc, M. destruct (S x) as (-> & -> & -> & _). destruct (S p) as (-> & _). intros [Hx|[-> Hx]].
    + destruct (k_alive0 p x Hp Hx) as (H1 & H2 & H3 & H4 & H5). split_and!; try done; [by right|]. destruct H5 as [?|[H5 [m E]]]; [by left|right]. split; [done|]. exists m. unfold T'. rewrite fupd_ne; [done|]. intros ->. by rewrite Ea in E.
    + injection Hx as ->. rewrite Hn, En. split_and!; try done; [by left|]. right. split; [done|]. exists n. unfold T'. by rewrite fupd_eq.
  - intros p d Hp. rewrite Sc, M. destruct (S p) as (-> & _). intros [Hd|[_ ?]]; [|done]. destruct (k_dead0 p d Hp Hd) as (H1 & H2 & H3 & H4). split_and!; [by right|by right|done|].
    intros x Hx. destruct (S x) as (-> & _ & -> & _). by apply H4.
  - intros p x m Hp. rewrite Sc. unfold T', fupd. case_decide; [subst; cbn; intros E; injection E as <- _; by right|]. intros E. left. by apply (k_start0 p x m).
  - intros x Hx. unfold T', fupd. case_decide; [subst|by apply k_nodup0]. cbn. apply NoDup_app. split_and!; [by apply k_nodup0| |apply NoDup_singleton].
    intros y Hy Hy'. apply list_elem_of_singleton in Hy' as ->. destruct (k_alive0 t c Ht Hy) as (_ & _ & H & _). by destruct (Hnc (tid (T t))).
  - intros x Hx. destruct (S x) as (_ & _ & _ & ->). intros Hl. unfold T', fupd. case_decide; [subst; by rewrite Ea in Hl|by apply k_empty0].
  - intros p x Hp. rewrite M. destruct (S p) as (-> & _ & _ & ->). intros H1 H2 H3. apply elem_of_cons in H2 as [H2|H2].
    + injection H2 as Et ->. right. exists c. destruct (S c) as (-> & _). split; [|done]. apply Sc. right. split; [by apply (b_inj _ _ _ _ B)|done].
    + destruct (k_all0 p x Hp H1 H2 H3) as [(d & Hd & E)|(y & Hy & E)]; [left; exists d; split; [apply Sc; by left|done]|right]. exists y. destruct (S y) as (-> & _). split; [apply Sc; by left|done].
Qed.

Lemma create_push_births t c n : L t -> at_point (T t) = CreatePush c n -> births L (fupd t (pushed c n) T) (Created (tid (T t)) n :: l).
Proof.
  intros Ht Ea. destruct I as [B K X []]. destruct (c_push0 t c n Ht Ea) as (Hc & Hn & En & Hp0 & Hnc & Hnl). set (T' := fupd t (pushed c n) T).
  assert (Sne : forall x, at_point (T x) <> CreatePush c n -> T' x = T x) by (intros x Hx; apply fupd_ne; by intros ->).
  assert (Snt : forall x, x <> t -> T' x = T x) by (intros; by apply fupd_ne). assert (St : T' t = pushed c n (T t)) by (by apply fupd_eq).
  assert (Ml : forall z, no_load (Created (tid (T t)) n :: l) z <-> no_load l z) by (intros z; unfold no_load; split; intros H b Hx; apply (H b); [by right|by apply elem_of_cons in Hx as []]).
  split.
  - intros x Hx. destruct (decide (x = t)) as [->|Hxt]; [by rewrite St|]. rewrite Snt by done. by apply c_new0.
  - intros p x m Hp. destruct (decide (p = t)) as [->|Hpt]; [by rewrite St|]. rewrite (Snt p) by done. intros E. destruct (c_push0 p x m Hp E) as (H1 & H2 & H3 & H4 & H5 & H6).
    rewrite Sne by (by rewrite H3). rewrite Ml. split_and!; try done. intros q Hq. apply elem_of_cons in Hq as [Hq|Hq]; [|by apply (H5 q)]. injection Hq as _ ->.
    apply Hpt. assert (x = c) as -> by (apply (b_inj _ _ _ _ B); [done..|congruence]). by apply (c_pusher0 p t c n n).
  - intros p q x m m' Hp Hq. destruct (decide (p = t)) as [->|Hpt]; [by rewrite St|]. destruct (decide (q = t)) as [->|Hqt]; [by rewrite St|]. rewrite !Snt by done. by apply c_pusher0.
  - intros p x m Hp. rewrite Ml. destruct (decide (p = t)) as [->|Hpt].
    + rewrite St. cbn. intros E. injection E as <- <-. rewrite Sne by (by rewrite En). split_and!; try done. by left.
    + rewrite (Snt p) by done. intros E. destruct (c_start0 p x m Hp E) as (H1 & H2 & H3 & H4 & H5 & H6). rewrite Sne by (by rewrite H3). split_and!; try done. by right.
  - intros x Hx. destruct (decide (x = t)) as [->|Hxt]; [by rewrite St|]. rewrite (Snt x) by done. intros E. destruct (c_load0 x Hx E) as (H1 & H2 & H3 & H4).
    rewrite Sne by (by destruct H3 as [-> | ->]). split_and!; try done. destruct (at_point (T x)); rewrite ?Ml; try done. split; [apply H4|right; apply H4].
  - intros p m Hp. destruct (decide (p = t)) as [->|Hpt]; [rewrite St; cbn; naive_solver|]. rewrite (Snt p) by done. intros E. destruct (c_down0 p m Hp E) as (H1 & H2).
    split; [by right|]. destruct H2 as [(H2 & x & H3 & H4 & H5 & H6)|[H2 H3]]; [left|right; split; [done|by right]].
    split; [done|]. exists x. rewrite Sne; [done|]. by destruct (at_point (T x)).
Qed.

Lemma create_push_ok t c n : L t -> at_point (T t) = CreatePush c n -> inv L (fupd t (pushed c n) T) n0 (Created (tid (T t)) n :: l).
Proof.
  intros Ht Ea. pose proof (create_push_kin t c n Ht Ea). pose proof (create_push_births t c n Ht Ea). destruct I as [B K X C].
  destruct (c_push _ _ _ C t c n Ht Ea) as (Hc & <- & En & Hp0 & Hnc & Hnl). split; [|done| |done].
  - apply base_event; [by apply base_move|done|]. split; by apply (b_tid _ _ _ _ B).
  - apply exits_event_skip; [|done]. apply exits_move; [done|same_by Ea].
Qed.

(** It gets its parent and starts. *)
Definition started (t c n : Z) (x : Z) : thread :=
  if decide (x = c) then set_point Load (set_parent t (T x))
  else if decide (x = t) then set_point (CreateInit c n) (set_sema 0 (set_success true (T x))) else T x.

Lemma create_start_ok t c n : L t -> at_point (T t) = CreateStart c n -> inv L (started t c n) n0 l.
Proof.
  intros Ht Ea. destruct I as [B K X C]. destruct (c_start _ _ _ C t c n Ht Ea) as (Hc & Hn & En & Hp0 & Hcr & Hnl). pose proof (b_log _ _ _ _ B) as Hlog.
  assert (Hct : c <> t) by (intros ->; congruence). pose proof (k_start _ _ _ K t c n Ht Ea) as Ha.
  assert (Honly : forall p, L p -> Created (tid (T p)) n ∈ l -> p = t) by (intros p Hp H; apply (b_inj _ _ _ _ B); [done..|]; by apply (created_once l _ _ n)).
  set (T' := started t c n). assert (Tc : T' c = set_point Load (set_parent t (T c))) by (unfold T', started; by rewrite decide_True).
  assert (Tt : T' t = set_point (CreateInit c n) (set_sema 0 (set_success true (T t)))) by (unfold T', started; by rewrite decide_False, decide_True).
  assert (Tx : forall x, x <> c -> x <> t -> T' x = T x) by (intros; unfold T', started; by rewrite !decide_False).
  assert (S : forall x, tid (T' x) = tid (T x) /\ children (T' x) = children (T x) /\ gone (at_point (T' x)) = gone (at_point (T x)) /\ leaving (at_point (T' x)) = leaving (at_point (T x)) /\ same_exit (T x) (T' x)).
  { intros x. unfold T', started, same_exit. repeat case_decide; subst; cbn; rewrite ?Ea, ?En; done. }
  split; [apply (base_same L T); [done|]; intros x _; by destruct (S x) as (-> & _)| |apply (exits_same L T _ l l); [done| |apply same_log_refl]; intros x _; apply S|].
  - destruct K. split.
    + intros x Hx. destruct (S x) as (_ & _ & -> & _). destruct (S (parent (T' x))) as (_ & -> & _). destruct (decide (x = c)) as [->|Hxc]; [rewrite Tc; cbn; done|].
      replace (parent (T' x)) with (parent (T x)) by (destruct (decide (x = t)) as [->|]; [by rewrite Tt|by rewrite Tx]). by apply k_link0.
    + intros p x Hp. destruct (S p) as (-> & -> & _). destruct (S x) as (-> & _ & -> & _). intros Hx. destruct (k_alive0 p x Hp Hx) as (H1 & H2 & H3 & H4 & H5). split_and!; try done.
      destruct (decide (x = c)) as [->|Hxc]; [left; rewrite Tc; cbn; symmetry; apply Honly; [done|congruence]|].
      replace (parent (T' x)) with (parent (T x)) by (destruct (decide (x = t)) as [->|]; [by rewrite Tt|by rewrite Tx]). destruct H5 as [?|[? [m E]]]; [by left|right]. split; [done|]. exists m.
      assert (p <> t) by (intros ->; rewrite Ea in E; by injection E). assert (p <> c) by (intros ->; congruence). by rewrite Tx.
    + intros p d Hp. destruct (S p) as (-> & -> & _). intros Hd. destruct (k_dead0 p d Hp Hd) as (H1 & H2 & H3 & H4). split_and!; try done. intros x Hx. destruct (S x) as (-> & _ & -> & _). by apply H4.
    + intros p x m Hp. destruct (S p) as (_ & -> & _). destruct (decide (p = c)) as [->|]; [by rewrite Tc|]. destruct (decide (p = t)) as [->|]; [by rewrite Tt|]. rewrite Tx by done. by apply k_start0.
    + intros x Hx. destruct (S x) as (_ & -> & _). by apply k_nodup0.
    + intros x Hx. destruct (S x) as (_ & -> & _ & -> & _). by apply k_empty0.
    + intros p x Hp. destruct (S p) as (-> & -> & _ & -> & _). intros H1 H2 H3. destruct (k_all0 p x Hp H1 H2 H3) as [?|(y & Hy & E)]; [by left|right]. exists y. by destruct (S y) as (-> & _).
  - destruct C. assert (Sn : forall x, at_point (T x) = New -> x <> c -> T' x = T x) by (intros x E Hx; apply Tx; [done|intros ->; congruence]). split.
    + intros x Hx. destruct (decide (x = c)) as [->|Hxc]; [by rewrite Tc|]. destruct (decide (x = t)) as [->|]; [by rewrite Tt|]. rewrite Tx by done. by apply c_new0.
    + intros p x m Hp. destruct (decide (p = c)) as [->|]; [by rewrite Tc|]. destruct (decide (p = t)) as [->|]; [by rewrite Tt|]. rewrite (Tx p) by done. intros E.
      destruct (c_push0 p x m Hp E) as (H1 & H2 & H3 & H4 & H5 & H6). rewrite Sn; [done|done|]. intros ->. apply (H5 (tid (T t))). congruence.
    + intros p q x m m' Hp Hq. destruct (decide (p = c)) as [->|]; [by rewrite Tc|]. destruct (decide (p = t)) as [->|]; [by rewrite Tt|].
      destruct (decide (q = c)) as [->|]; [by rewrite Tc|]. destruct (decide (q = t)) as [->|]; [by rewrite Tt|]. rewrite !Tx by done. by apply c_pusher0.
    + intros p x m Hp. destruct (decide (p = c)) as [->|]; [by rewrite Tc|]. destruct (decide (p = t)) as [->|]; [by rewrite Tt|]. rewrite (Tx p) by done. intros E.
      destruct (c_start0 p x m Hp E) as (H1 & H2 & H3 & H4 & H5 & H6). rewrite Sn; [done|done|]. intros ->. assert (m = n) by congruence. subst. by apply Honly in H5.
    + intros x Hx. destruct (decide (x = c)) as [->|Hxc].
      * intros _. rewrite Tc. cbn. rewrite Tt. cbn. rewrite Hn. split_and!; try done. by left.
      * destruct (decide (x = t)) as [->|]; [by rewrite Tt|]. rewrite (Tx x) by done. intros E. destruct (c_load0 x Hx E) as (H1 & H2 & H3 & H4).
        rewrite Tx; [done|intros E'; rewrite E', En in H3; by destruct H3|intros E'; rewrite E', Ea in H3; by destruct H3].
    + intros p m Hp. destruct (decide (p = c)) as [->|]; [rewrite Tc; cbn; naive_solver|]. destruct (decide (p = t)) as [->|].
      * rewrite Tt. cbn. intros [[x E]|E]; [|done]. injection E as <- <-. split; [done|]. left. split; [done|]. exists c. by rewrite Tc.
      * rewrite (Tx p) by done. intros E. destruct (c_down0 p m Hp E) as (H1 & [(H2 & x & H3 & H4 & H5 & H6)|H2]); (split; [done|]); [left|by right].
        split; [done|]. exists x. rewrite Tx; [done|intros ->; by rewrite En in H6|intros ->; by rewrite Ea in H6].
Qed.

(** A child that loads and its parent are alone with each other. *)
Lemma loader_unique x c : L x -> L c -> loading (at_point (T x)) = true -> loading (at_point (T c)) = true -> parent (T x) = parent (T c) -> x = c.
Proof.
  intros Hx Hc Lx Lc E. destruct I as [B _ _ []]. destruct (c_load0 x Hx Lx) as (_ & _ & H1 & _). destruct (c_load0 c Hc Lc) as (_ & _ & H2 & _). rewrite E in H1.
  apply (b_inj _ _ _ _ B); [done..|]. destruct H1 as [H1|H1], H2 as [H2|H2]; congruence.
Qed.

Lemma create_init_ok t c n : L t -> at_point (T t) = CreateInit c n -> inv L (fupd t (set_point (CreateDown n)) T) n0 l.
Proof.
  intros Ht Ea. destruct I as [B K X []]. split; [by apply base_move|apply kin_move; [done|same_by Ea]|apply exits_move; [done|same_by Ea]|].
  set (T' := fupd t _ T). assert (St : T' t = set_point (CreateDown n) (T t)) by (by apply fupd_eq). assert (Snt : forall x, x <> t -> T' x = T x) by (intros; by apply fupd_ne).
  split.
  - intros x Hx. destruct (decide (x = t)) as [->|Hxt]; [by rewrite St|]. rewrite Snt by done. by apply c_new0.
  - intros p x m Hp. destruct (decide (p = t)) as [->|Hpt]; [by rewrite St|]. rewrite (Snt p) by done. intros E. destruct (c_push0 p x m Hp E) as (H1 & H2 & H3 & H4).
    rewrite Snt; [done|]. intros ->. congruence.
  - intros p q x m m' Hp Hq. destruct (decide (p = t)) as [->|Hpt]; [by rewrite St|]. destruct (decide (q = t)) as [->|Hqt]; [by rewrite St|]. rewrite !Snt by done. by apply c_pusher0.
  - intros p x m Hp. destruct (decide (p = t)) as [->|Hpt]; [by rewrite St|]. rewrite (Snt p) by done. intros E. destruct (c_start0 p x m Hp E) as (H1 & H2 & H3 & H4).
    rewrite Snt; [done|]. intros ->. congruence.
  - intros x Hx. destruct (decide (x = t)) as [->|Hxt]; [by rewrite St|]. rewrite (Snt x) by done. intros E. destruct (c_load0 x Hx E) as (H1 & H2 & H3 & H4).
    destruct (decide (parent (T x) = t)) as [Ep|Hpt]; [|by rewrite Snt]. rewrite Ep in *. rewrite St. cbn. split_and!; try done. right. rewrite Ea in H3. destruct H3; congruence.
  - intros p m Hp. assert (Hm : (exists x, at_point (T' p) = CreateInit x m) \/ at_point (T' p) = CreateDown m -> (exists x, at_point (T p) = CreateInit x m) \/ at_point (T p) = CreateDown m).
    { destruct (decide (p = t)) as [->|Hpt]; [rewrite St, Ea; cbn; intros [[x E]|E]; [done|]; injection E as ->; left; by exists c|by rewrite Snt]. }
    intros E. destruct (c_down0 p m Hp (Hm E)) as (H1 & H2). assert (Sp : tid (T' p) = tid (T p) /\ child_sema (T' p) = child_sema (T p) /\ child_success (T' p) = child_success (T p)).
    { unfold T', fupd. by case_decide. }
    destruct Sp as (-> & -> & ->). split; [done|]. destruct H2 as [(H2 & x & H3 & H4 & H5 & H6)|H2]; [left|by right]. split; [done|]. exists x. rewrite Snt; [done|]. intros ->. by rewrite Ea in H6.
Qed.

Lemma create_down_ok t n : L t -> at_point (T t) = CreateDown n -> child_sema (T t) <> 0 ->
  inv L (fupd t (fun y => set_point User (set_sema (child_sema (T t) - 1) y)) T) n0 (Execed (tid (T t)) n (child_success (T t)) :: l).
Proof.
  intros Ht Ea Hs. destruct (c_down _ _ _ (i_births _ _ _ _ I) t n Ht (or_intror Ea)) as (Hc & [[? _]|[Hs1 Hl]]); [done|].
  apply event_note; [|by split|done]. destruct I as [B K X []]. split; [by apply base_move|apply kin_move; [done|same_by Ea]|apply exits_move; [done|same_by Ea]|].
  set (T' := fupd t _ T). assert (St : at_point (T' t) = User) by (unfold T'; by rewrite fupd_eq). assert (Snt : forall x, x <> t -> T' x = T x) by (intros; by apply fupd_ne).
  split.
  - intros x Hx. destruct (decide (x = t)) as [->|Hxt]; [by rewrite St|]. rewrite Snt by done. by apply c_new0.
  - intros p x m Hp. destruct (decide (p = t)) as [->|Hpt]; [by rewrite St|]. rewrite (Snt p) by done. intros E. destruct (c_push0 p x m Hp E) as (H1 & H2 & H3 & H4).
    rewrite Snt; [done|]. intros ->. congruence.
  - intros p q x m m' Hp Hq. destruct (decide (p = t)) as [->|Hpt]; [by rewrite St|]. destruct (decide (q = t)) as [->|Hqt]; [by rewrite St|]. rewrite !Snt by done. by apply c_pusher0.
  - intros p x m Hp. destruct (decide (p = t)) as [->|Hpt]; [by rewrite St|]. rewrite (Snt p) by done. intros E. destruct (c_start0 p x m Hp E) as (H1 & H2 & H3 & H4).
    rewrite Snt; [done|]. intros ->. congruence.
  - intros x Hx. destruct (decide (x = t)) as [->|Hxt]; [by rewrite St|]. rewrite (Snt x) by done. intros E. destruct (c_load0 x Hx E) as (H1 & H2 & H3 & H4).
    rewrite Snt; [done|]. intros Ep. by rewrite Ep in H2.
  - intros p m Hp. destruct (decide (p = t)) as [->|Hpt]; [rewrite St; naive_solver|]. rewrite (Snt p) by done. intros E.
    destruct (c_down0 p m Hp E) as (H1 & [(H2 & x & H3 & H4 & H5 & H6)|H2]); (split; [done|]); [left|by right]. split; [done|]. exists x. rewrite Snt; [done|]. intros ->. by rewrite Ea in H6.
Qed.

(** [load] has returned in a new process. *)
Definition load_told (b : bool) (y : thread) : thread := if b then y else set_success false y.

Lemma load_done_ok c b : L c -> at_point (T c) = Load ->
  inv L (fupd c (set_point (LoadUp b)) (fupd (parent (T c)) (load_told b) T)) n0 (Loaded (tid (T c)) b :: l).
Proof.
  intros Hc Ea. assert (Lc : loading (at_point (T c)) = true) by (by rewrite Ea). pose proof (fun x Hx Lx => loader_unique x c Hx Hc Lx Lc) as Hu.
  destruct I as [B K X []]. destruct (c_load0 c Hc Lc) as (Hp & Hs & Hat & Hsu). rewrite Ea in Hsu. destruct Hsu as [Hsu Hnl]. set (p := parent (T c)) in *.
  assert (Hpc : p <> c) by (intros E; rewrite E, Ea in Hat; by destruct Hat). assert (Tc0 : fupd p (load_told b) T c = T c) by (by rewrite fupd_ne).
  assert (Hold : forall y, tid (load_told b y) = tid y /\ parent (load_told b y) = parent y /\ at_point (load_told b y) = at_point y /\ child_sema (load_told b y) = child_sema y) by (intros y; by destruct b).
  split.
  - apply base_event; [apply base_move; [apply base_move; [done|apply Hold]|by rewrite Tc0]|done|]. by apply (b_tid _ _ _ _ B).
  - apply kin_event_skip; [|done]. apply kin_move; [apply kin_move; [done|by destruct b]|]. rewrite Tc0. same_by Ea.
  - apply exits_event_skip; [|done]. apply exits_move; [apply exits_move; [done|by destruct b]|]. rewrite Tc0. same_by Ea.
  - set (T' := fupd c _ _). assert (Tc : T' c = set_point (LoadUp b) (T c)) by (unfold T'; by rewrite fupd_eq, Tc0).
    assert (Tp : T' p = load_told b (T p)) by (unfold T'; by rewrite fupd_ne, fupd_eq). assert (Tx : forall x, x <> c -> x <> p -> T' x = T x) by (intros; unfold T'; by rewrite !fupd_ne).
    assert (S : forall x, tid (T' x) = tid (T x) /\ parent (T' x) = parent (T x) /\ child_sema (T' x) = child_sema (T x) /\ loading (at_point (T' x)) = loading (at_point (T x)) /\ (x <> c -> at_point (T' x) = at_point (T x))).
    { intros x. destruct (decide (x = c)) as [->|]; [rewrite Tc; cbn; by rewrite Ea|]. destruct (decide (x = p)) as [->|]; [|by rewrite Tx]. rewrite Tp. by destruct (Hold (T p)) as (-> & -> & -> & ->). }
    assert (Sa : forall x a, at_point (T' x) = a -> loading a = false -> at_point (T x) = a /\ x <> c).
    { intros x a E Hl. assert (x <> c) by (intros ->; rewrite Tc in E; cbn in E; by subst). split; [|done]. destruct (S x) as (_ & _ & _ & _ & <-); done. }
    assert (M : forall x, x <> c -> L x -> no_load l (tid (T x)) -> no_load (Loaded (tid (T c)) b :: l) (tid (T x))).
    { intros x Hxc Hx H b' Hb. apply elem_of_cons in Hb as [Hb|Hb]; [|by apply (H b')]. injection Hb as Hb _. apply Hxc. by apply (b_inj _ _ _ _ B). }
    split.
    + intros x Hx E. destruct (Sa x _ E eq_refl) as [E' _]. destruct (S x) as (_ & -> & _). by apply c_new0.
    + intros q x m Hq E. destruct (Sa q _ E eq_refl) as [E' _]. destruct (c_push0 q x m Hq E') as (H1 & <- & H3 & H4 & H5 & H6). assert (x <> c) by (intros ->; congruence).
      destruct (S x) as (-> & -> & _ & _ & Hax). rewrite Hax by done. split_and!; try done; [|by apply M]. intros z Hz. apply elem_of_cons in Hz as [|Hz]; [done|by apply (H5 z)].
    + intros q r x m m' Hq Hr E1 E2. destruct (Sa q _ E1 eq_refl). destruct (Sa r _ E2 eq_refl). by apply (c_pusher0 q r x m m').
    + intros q x m Hq E. destruct (Sa q _ E eq_refl) as [E' _]. destruct (c_start0 q x m Hq E') as (H1 & <- & H3 & H4 & H5 & H6). assert (x <> c) by (intros ->; congruence).
      destruct (S x) as (-> & -> & _ & _ & Hax). rewrite Hax by done. destruct (S q) as (-> & _). split_and!; try done; [by right|by apply M].
    + intros x Hx. destruct (S x) as (-> & -> & _ & -> & Hax). intros Hl. destruct (decide (x = c)) as [->|Hxc].
      * fold p. destruct (S p) as (_ & _ & -> & _ & Hap). rewrite Hap by done. split_and!; try done. rewrite Tc. cbn. rewrite Tp. split; [by destruct b|by left].
      * rewrite Hax by done. destruct (c_load0 x Hx Hl) as (H1 & H2 & H3 & H4). assert (parent (T x) <> p) by (intros E; by apply Hxc, Hu).
        assert (parent (T x) <> c) by (intros E; rewrite E, Ea in H3; by destruct H3). rewrite Tx by done. split_and!; try done.
        destruct (at_point (T x)); try (split; [apply H4|by apply M, H4]). split; [apply H4|right; apply H4].
    + intros q m Hq E. assert (E' : (exists t, at_point (T q) = CreateInit t m) \/ at_point (T q) = CreateDown m) by (destruct E as [[z E]|E]; destruct (Sa q _ E eq_refl) as [? _]; [left; by exists z|by right]).
      destruct (S q) as (-> & _ & -> & _). destruct (c_down0 q m Hq E') as (H1 & H2). split; [by right|]. destruct H2 as [(H2 & x & H3 & H4 & H5 & H6)|[H2 H3]]; [left|right].
      * split; [done|]. exists x. by destruct (S x) as (-> & -> & _ & -> & _).
      * split; [done|]. right. assert (q <> p) by (intros ->; congruence). assert (q <> c) by (intros ->; rewrite Ea in E'; naive_solver). by rewrite Tx.
Qed.

(** The parent learns of it. *)
Lemma load_up_ok c b : L c -> at_point (T c) = LoadUp b ->
  inv L (fupd c (set_point User) (fupd (parent (T c)) (set_sema (child_sema (T (parent (T c))) +u 1)) T)) n0 l.
Proof.
  intros Hc Ea. assert (Lc : loading (at_point (T c)) = true) by (by rewrite Ea). pose proof (fun x Hx Lx => loader_unique x c Hx Hc Lx Lc) as Hu.
  destruct I as [B K X []]. destruct (c_load0 c Hc Lc) as (Hp & Hs & Hat & Hsu). rewrite Ea in Hsu. destruct Hsu as [Hsu Hld]. set (p := parent (T c)) in *. rewrite Hs. change (0 +u 1) with 1.
  assert (Hpc : p <> c) by (intros E; rewrite E, Ea in Hat; by destruct Hat). assert (Tc0 : fupd p (set_sema 1) T c = T c) by (by rewrite fupd_ne).
  split; [apply base_move; [by apply base_move|by rewrite Tc0]|apply kin_move; [by apply kin_move|rewrite Tc0; same_by Ea]|apply exits_move; [by apply exits_move|rewrite Tc0; same_by Ea]|].
  set (T' := fupd c _ _). assert (Tc : T' c = set_point User (T c)) by (unfold T'; by rewrite fupd_eq, Tc0).
  assert (Tp : T' p = set_sema 1 (T p)) by (unfold T'; by rewrite fupd_ne, fupd_eq). assert (Tx : forall x, x <> c -> x <> p -> T' x = T x) by (intros; unfold T'; by rewrite !fupd_ne).
  assert (S : forall x, tid (T' x) = tid (T x) /\ parent (T' x) = parent (T x) /\ child_success (T' x) = child_success (T x) /\ (x <> c -> at_point (T' x) = at_point (T x))).
  { intros x. destruct (decide (x = c)) as [->|]; [by rewrite Tc|]. destruct (decide (x = p)) as [->|]; [by rewrite Tp|by rewrite Tx]. }
  assert (Sa : forall x a, at_point (T' x) = a -> plain a = false -> at_point (T x) = a /\ x <> c).
  { intros x a E Hl. assert (x <> c) by (intros ->; rewrite Tc in E; cbn in E; by subst). split; [|done]. destruct (S x) as (_ & _ & _ & <-); done. }
  split.
  - intros x Hx E. destruct (Sa x _ E eq_refl) as [E' _]. destruct (S x) as (_ & -> & _). by apply c_new0.
  - intros q x m Hq E. destruct (Sa q _ E eq_refl) as [E' _]. destruct (c_push0 q x m Hq E') as (H1 & <- & H3 & H4). destruct (S x) as (-> & -> & _ & Hax). rewrite Hax; [done|]. intros ->; congruence.
  - intros q r x m m' Hq Hr E1 E2. destruct (Sa q _ E1 eq_refl). destruct (Sa r _ E2 eq_refl). by apply (c_pusher0 q r x m m').
  - intros q x m Hq E. destruct (Sa q _ E eq_refl) as [E' _]. destruct (c_start0 q x m Hq E') as (H1 & <- & H3 & H4). destruct (S q) as (-> & _). destruct (S x) as (-> & -> & _ & Hax). rewrite Hax; [done|]. intros ->; congruence.
  - intros x Hx E. assert (Hpl : plain (at_point (T' x)) = false) by (by destruct (at_point (T' x))). destruct (Sa x _ eq_refl Hpl) as [E' Hxc]. rewrite <- E' in E. destruct (S x) as (-> & -> & _).
    destruct (c_load0 x Hx E) as (H1 & H2 & H3 & H4). assert (parent (T x) <> p) by (intros F; by apply Hxc, Hu). assert (parent (T x) <> c) by (intros F; rewrite F, Ea in H3; by destruct H3).
    rewrite Tx by done. by rewrite <- E'.
  - intros q m Hq E. assert (E' : (exists t, at_point (T q) = CreateInit t m) \/ at_point (T q) = CreateDown m) by (destruct E as [[z E]|E]; destruct (Sa q _ E eq_refl) as [? _]; [left; by exists z|by right]).
    destruct (c_down0 q m Hq E') as (H1 & H2). destruct (S q) as (-> & _). split; [done|]. destruct (decide (q = p)) as [->|Hqp].
    + right. rewrite Tp. cbn. split; [done|]. rewrite Hsu. assert (m = tid (T c)) as -> by (destruct Hat as [Hat|Hat]; rewrite Hat in E'; naive_solver). done.
    + assert (q <> c) by (intros ->; rewrite Ea in E'; naive_solver). rewrite Tx by done. destruct H2 as [(H2 & x & H3 & H4 & H5 & H6)|?]; [left|by right]. split; [done|]. exists x.
      assert (x <> c) by (by intros ->). destruct (S x) as (-> & -> & _ & Hax). by rewrite Hax.
Qed.
End Steps.
