(* ===== verification/ChildrenProps.v ===== *)
(** * Parents and children: what exec, wait and exit promise

    Every run of Children.v keeps the invariant of ChildrenInv.v.  It follows
    that [exec] and [wait] report what happened, each exit code once, that
    [wait] waits only for a child that lives, and exactly where the machine can
    stop. *)

From S2P Require Import Prelude Children ChildrenInv.

(** ** Running a step *)
Lemma wp_get_relative t s (Q : thread -> family -> Prop) : live s t -> Q (th s t) s -> wp (get_thread t) s Q.
Proof. intros [y Hy] H. unfold wp, get_thread. rewrite Hy. destruct (live_th _ _ _ Hy) as [_ E]. by rewrite E in H. Qed.
Lemma wp_upd_relative t f s (Q : unit -> family -> Prop) : live s t -> Q tt (upd t f s) -> wp (upd_thread t f) s Q.
Proof. intros Hl H. unfold upd_thread. by apply wp_bind, wp_get_relative, wp_modify. Qed.
Lemma wp_record e s (Q : unit -> family -> Prop) : Q tt (put_log e s) -> wp (record e) s Q.
Proof. intros H. by apply wp_modify. Qed.
Lemma live_log s e x : live (put_log e s) x <-> live s x.
Proof. done. Qed.
Lemma th_log s e x : th (put_log e s) x = th s x.
Proof. done. Qed.

Ltac is_live := rewrite ?live_log, ?live_upd; repeat (rewrite live_log || rewrite live_upd); assumption.
Ltac run := unfold goto in *; repeat (first
  [ lazymatch goal with |- wp (_ ≫= _) _ _ => apply wp_bind end
  | lazymatch goal with |- wp (get_thread _) _ _ => apply wp_get_relative; [is_live|] end
  | lazymatch goal with |- wp (upd_thread _ _) _ _ => apply wp_upd_relative; [is_live|] end
  | lazymatch goal with |- wp (record _) _ _ => apply wp_record end
  | lazymatch goal with |- wp (mret _) _ _ => apply wp_ret end
  | lazymatch goal with |- wp (gets _) _ _ => apply wp_gets end
  | lazymatch goal with |- wp (modify _) _ _ => apply wp_modify end ]; cbn beta).

(** ** From states to their views *)
Lemma good_of s L T n l : inv L T n l -> (forall x, L x <-> live s x) -> (forall x, L x -> T x = th s x) ->
  next_tid s = n -> log s = l -> good s.
Proof. intros I HL HT <- <-. by apply (kinship_ext L (live s) T (th s)). Qed.

(** A state made by updates has the view that the updates make. *)
Ltac seen := unfold fupd; repeat (rewrite th_log || rewrite th_upd by is_live); repeat case_decide; subst; try done; try congruence.
Ltac good_by I := eapply good_of; [apply I|..]; [..|intros x; repeat (rewrite live_log || rewrite live_upd); done|intros x Hx; seen|try done|try done].

Section Run.
Context (s : family) (G : good s) (t : Z) (Ht : live s t).
Definition keeps (m : ST family unit) : Prop := wp m s (fun _ s' => 0 < next_tid s' -> good s').

Lemma run_move f : same_kin (th s t) (f (th s t)) -> same_exit (th s t) (f (th s t)) -> same_births (th s t) (f (th s t)) -> good (upd t f s).
Proof. intros S1 S2 S3. good_by (move_ok _ _ _ _ G t f S1 S2 S3). Qed.

Lemma run_create_begin page : at_point (th s t) = User -> threads s !! page = None -> keeps (create_begin t page).
Proof.
  intros Ea Hf. unfold keeps, create_begin. destruct (Z.eqb_spec page 0) as [->|Hp]; [by apply wp_ret|].
  assert (Hnl : ~ live s page) by (unfold live; rewrite Hf; by intros []). unfold mk_thread, allocate_tid. run.
  set (n := next_tid s). set (s1 := set_threads _ _). assert (L1 : forall x, live s x \/ x = page <-> live s1 x).
  { intros x. unfold live, s1. cbn. destruct (decide (x = page)) as [->|]; [rewrite lookup_insert_eq; naive_solver|]. rewrite lookup_insert_ne by done. naive_solver. }
  assert (T1 : forall x, with_new (th s) n page x = th s1 x).
  { intros x. unfold th, s1, with_new. cbn. case_decide; [subst; by rewrite lookup_insert_eq|]. by rewrite lookup_insert_ne. }
  assert (Ht1 : live s1 t) by (apply L1; by left). apply wp_upd_relative; [done|]. cbn. intros Hn.
  pose proof (b_next _ _ _ _ (i_base _ _ _ _ G)) as Hnx. assert (Hsmall : n + 1 < 2 ^ 31) by (unfold s32 in Hn; fold n in Hnx; Z.to_euclidean_division_equations; lia).
  assert (En : s32 (n + 1) = n + 1) by (apply s32_small; unfold is_s32; fold n in Hnx; lia).
  assert (G1 : good s1).
  { eapply good_of; [apply (mk_thread_ok _ _ _ _ G page Hnl Hp Hsmall)|done|intros; apply T1|done|done]. }
  assert (Tp : th s1 page = mk_thr n (-1) [] 0 0 false false New) by (rewrite <- T1; unfold with_new; by rewrite decide_True).
  assert (Tn : forall x, live s x -> th s1 x = th s x) by (intros x Hx; rewrite <- T1; unfold with_new; rewrite decide_False; [done|by intros ->]).
  assert (Hpast : no_create (log s) n /\ no_load (log s) n) by (split; intros v Hv; apply (b_past _ _ _ _ (i_base _ _ _ _ G)) in Hv; cbn in Hv; fold n in Hv; lia).
  eapply good_of; [apply (create_begin_ok _ _ _ _ G1 t page)|..]; try done.
  - apply L1. by right.
  - by rewrite Tn.
  - by rewrite Tp.
  - intros q m Hq. destruct (decide (q = page)) as [->|]; [by rewrite Tp|]. apply L1 in Hq as [Hq|]; [|done]. rewrite Tn by done. intros E. by destruct (c_push _ _ _ (i_births _ _ _ _ G) q page m Hq E).
  - rewrite Tp. apply Hpast.
  - rewrite Tp. apply Hpast.
  - intros x. by rewrite live_upd.
  - intros x _. rewrite th_upd by done. unfold fupd. case_decide; [|done]. by rewrite Tp.
Qed.

Lemma run_create_push c n : at_point (th s t) = CreatePush c n -> keeps (create_push t c n).
Proof. intros Ea. unfold keeps, create_push. run. intros _. good_by (create_push_ok _ _ _ _ G t c n Ht Ea). Qed.

Lemma run_create_start c n : at_point (th s t) = CreateStart c n -> keeps (create_start t c n).
Proof.
  intros Ea. destruct (c_start _ _ _ (i_births _ _ _ _ G) t c n Ht Ea) as (Hc & _ & En & _). assert (Hct : c <> t) by (intros ->; congruence).
  unfold keeps, create_start. run. intros _. good_by (create_start_ok _ _ _ _ G t c n Ht Ea).
  all: unfold started; repeat case_decide; subst; done.
Qed.

Lemma run_create_init c n : at_point (th s t) = CreateInit c n -> live s c -> keeps (create_init t c n).
Proof.
  intros Ea Hc. unfold keeps, create_init. run. intros _. assert (G1 : good (upd c (set_spt true) s)).
  { good_by (move_ok _ _ _ _ G c (set_spt true)); [by repeat split|by repeat split|]. split_and!; [done|by left|by right]. }
  assert (Et : at_point (th (upd c (set_spt true) s) t) = CreateInit c n) by (rewrite th_upd by done; by case_decide).
  good_by (create_init_ok _ _ _ _ G1 t c n (proj2 (live_upd _ _ _ _) Ht) Et).
Qed.

Lemma run_create_down n : at_point (th s t) = CreateDown n -> keeps (create_down t n).
Proof.
  intros Ea. unfold keeps, create_down. run. destruct (Z.eqb_spec (child_sema (th s t)) 0) as [E|E]; [by apply wp_ret|]. run. intros _.
  good_by (create_down_ok _ _ _ _ G t n Ht Ea E).
Qed.

(** *** Exiting *)
Lemma run_exit v : at_point (th s t) = User -> keeps (exit t v).
Proof.
  intros Ea. unfold keeps, exit, begin_exit. run. intros _. good_by (begin_exit_ok _ _ _ _ G t v Ht Ea). cbn. rewrite th_upd by done. by rewrite decide_True.
Qed.
Lemma run_return : at_point (th s t) = User -> keeps (begin_exit t).
Proof.
  intros Ea. unfold keeps, begin_exit. run. intros _. good_by (begin_exit_ok _ _ _ _ G t (exit_code (th s t)) Ht Ea).
Qed.

Lemma wp_tell_children r s0 : live s0 t -> children (th s0 t) = r -> (forall c, Alive c ∈ r -> live s0 c) ->
  wp (tell_children t r) s0 (fun _ s' => (forall x, live s' x <-> live s0 x) /\ next_tid s' = next_tid s0 /\ log s' = log s0 /\
    forall x, th s' x = let y := if decide (Alive x ∈ r) then set_parent 0 (th s0 x) else th s0 x in if decide (x = t) then set_children [] y else y).
Proof using.
  revert s0. induction r as [|e r IH]; intros s0 Hl Hr Hc; cbn [tell_children].
  - apply wp_ret. split_and!; try done. intros x. rewrite (decide_False (P := Alive x ∈ [])) by apply not_elem_of_nil. cbn. case_decide; [|done]. subst. destruct (th s0 t). cbn in *. by subst.
  - run. set (s1 := upd t (set_children r) s0). assert (L1 : forall x, live s1 x <-> live s0 x) by (intros; apply live_upd).
    assert (Hm : exists s2, wp (match e with Alive c => upd_thread c (set_parent 0) | Dead _ => mret tt end) s1 (fun _ s' => s' = s2) /\ (forall x, live s2 x <-> live s0 x) /\
      next_tid s2 = next_tid s0 /\ log s2 = log s0 /\ forall x, th s2 x = let y := if decide (e = Alive x) then set_parent 0 (th s0 x) else th s0 x in if decide (x = t) then set_children r y else y).
    { destruct e as [c|d].
      - assert (live s1 c) by (apply L1, Hc; by left). exists (upd c (set_parent 0) s1). split_and!; try done; [by apply wp_upd_relative|intros x; by rewrite live_upd|].
        intros x. rewrite th_upd by done. unfold s1. rewrite th_upd by done. destruct (decide (x = c)) as [->|Hx]; [rewrite (decide_True (P := Alive c = Alive c)) by done|rewrite (decide_False (P := Alive c = Alive x)) by congruence]; cbn; by case_decide.
      - exists s1. split_and!; try done. intros x. unfold s1. by rewrite th_upd. }
    destruct Hm as (s2 & W & L2 & N2 & G2 & T2). eapply wp_mono; [exact W|]. intros _ ? ->. eapply wp_mono; [apply IH|].
    + by apply L2.
    + rewrite T2. cbn. by rewrite (decide_True (P := t = t)).
    + intros c Hcr. apply L2, Hc. by right.
    + intros _ s' (L3 & N3 & G3 & T3). split_and!; [intros x; by rewrite L3, L2|congruence|congruence|]. intros x. rewrite T3, T2. cbn.
      destruct (decide (Alive x ∈ r)) as [Hx|Hx].
      * rewrite (decide_True (P := Alive x ∈ e :: r)) by (by right). by repeat case_decide.
      * destruct (decide (e = Alive x)) as [->|He]; [rewrite (decide_True (P := Alive x ∈ Alive x :: r)) by (by left); by repeat case_decide|].
        rewrite (decide_False (P := Alive x ∈ e :: r)) by (intros [?|?]%elem_of_cons; [congruence|done]). by repeat case_decide.
Qed.

Lemma run_exit_children : at_point (th s t) = ExitChildren -> keeps (exit_children t).
Proof.
  intros Ea. unfold keeps, exit_children. run. eapply wp_mono.
  { apply wp_tell_children; [done|done|]. intros c Hc. by apply (k_alive _ _ _ (i_kin _ _ _ _ G) t c). }
  intros _ s1 (L1 & N1 & G1 & T1). assert (Ht1 : live s1 t) by (by apply L1). run. intros _. eapply good_of; [apply (exit_children_ok _ _ _ _ G t Ht Ea)|..]; try done.
  - intros x. by rewrite live_upd, L1.
  - intros x _. rewrite th_upd by done. rewrite T1. cbn. unfold orphaned. by repeat case_decide.
Qed.

Lemma run_exit_test : at_point (th s t) = ExitTest -> keeps (exit_test t).
Proof.
  intros Ea. unfold keeps, exit_test. run. intros _. destruct (Z.eqb_spec (parent (th s t)) 0) as [E|E].
  - good_by (exit_orphan_ok _ _ _ _ G t Ht Ea E).
  - apply run_move; same_by Ea.
Qed.

Lemma run_exit_parent : at_point (th s t) = ExitParent -> parent (th s t) <> 0 -> keeps (exit_parent t).
Proof.
  intros Ea Hp. unfold keeps, exit_parent. run. rewrite (proj2 (Z.eqb_neq _ _)) by done. run. intros _. apply run_move; same_by Ea.
Qed.

Lemma run_exit_tell p : at_point (th s t) = ExitParentLock p -> live s p -> parent (th s t) <> 0 -> keeps (exit_tell t p true).
Proof.
  intros Ea Hp Hq. destruct (k_link _ _ _ (i_kin _ _ _ _ G) t Ht Hq) as [Hq' _]; [by rewrite Ea|]. unfold keeps, exit_tell. run. rewrite (proj2 (Z.eqb_neq _ _)) by done. cbn [negb when].
  run. apply wp_assert; [done|]. run. apply wp_assert; [done|]. run. intros _.
  good_by (exit_tell_ok _ _ _ _ G t p (parent (th s t)) Ht Ea eq_refl Hq).
  all: unfold told; cbn; match goal with E : t = parent (th s t) |- _ => by rewrite <- !E end.
Qed.

Lemma run_free : at_point (th s t) = Dying -> keeps (free_thread t).
Proof.
  intros Ea. unfold keeps, free_thread. run. destruct (t =? _); cbn [negb when]; run; [done|]. intros _. eapply good_of; [apply (free_ok _ _ _ _ G t Ea)|..]; try done.
  - intros x. unfold live. cbn. destruct (decide (x = t)) as [->|]; [rewrite lookup_delete_eq; split; [naive_solver|by intros []]|]. rewrite lookup_delete_ne by done. naive_solver.
  - intros x [_ Hx]. unfold th. cbn. by rewrite lookup_delete_ne.
Qed.

(** *** Loading *)
Lemma run_load_done b : at_point (th s t) = Load -> negb b || spt (th s t) = true -> keeps (load_done t b).
Proof.
  intros Ea Hb. destruct (c_load _ _ _ (i_births _ _ _ _ G) t Ht) as (Hp & _); [by rewrite Ea|].
  unfold keeps, load_done. run. apply wp_assert; [done|]. run.
  destruct b; cbn [negb when]; run; intros _; good_by (fun b => load_done_ok _ _ _ _ G t b Ht Ea).
  all: reflexivity.
Qed.

Lemma run_load_up b : at_point (th s t) = LoadUp b -> keeps (load_up t b).
Proof.
  intros Ea. destruct (c_load _ _ _ (i_births _ _ _ _ G) t Ht) as (Hp & _ & Hat & _); [by rewrite Ea|]. pose proof (load_up_ok _ _ _ _ G t b Ht Ea) as I.
  assert (Hne : parent (th s t) <> t) by (intros E; rewrite E, Ea in Hat; by destruct Hat).
  unfold keeps, load_up. run. destruct b; run; [intros _; good_by I|]. unfold exit, begin_exit. run. intros _.
  pose proof (begin_exit_ok _ _ _ _ I t (-1) Ht) as I2. rewrite fupd_eq in I2. specialize (I2 eq_refl). good_by I2.
  cbn. repeat (rewrite th_upd by is_live). rewrite (fupd_ne (parent (th s t))) by done. by rewrite !decide_True, decide_False by done.
Qed.

(** *** Waiting *)
Definition etid (e : child) : Z := match e with Alive a => tid (th s a) | Dead d => d_tid d end.

Lemma wp_find_child c r : (forall x, Alive x ∈ r -> live s x) ->
  wp (find_child c r) s (fun o s' => s' = s /\ match o with Some e => e ∈ r /\ etid e = c | None => forall e, e ∈ r -> etid e <> c end).
Proof using.
  induction r as [|e r IH]; intros Hl; cbn [find_child]; [apply wp_ret; split; [done|]; by intros e ?%elem_of_nil|].
  assert (W : wp (entry_tid e) s (fun n s' => s' = s /\ n = etid e)).
  { destruct e as [a|d]; cbn [entry_tid]; [|by apply wp_ret]. apply wp_bind, wp_get_relative; [apply Hl; by left|]. by apply wp_ret. }
  apply wp_bind. eapply wp_mono; [exact W|]. intros n ? [-> ->]. destruct (Z.eqb_spec (etid e) c) as [E|E]; [apply wp_ret; split; [done|]; split; [by left|done]|].
  eapply wp_mono; [apply IH; intros x Hx; apply Hl; by right|]. intros o ? [-> Ho]. split; [done|]. destruct o as [y|]; [split; [right; apply Ho|apply Ho]|].
  intros y [->|Hy]%elem_of_cons; [done|by apply Ho].
Qed.

Lemma waited_dec (l : list event) c : no_wait l c \/ exists q v, Waited q c (Some v) ∈ l.
Proof using.
  induction l as [|e l IH]; [left; by intros q v ?%elem_of_nil|]. destruct IH as [IH|(q & v & Hx)]; [|right; exists q, v; by right].
  destruct e as [| | | |q z [v|]]; try (left; intros ? ? [?|?]%elem_of_cons; [done|by eapply IH]).
  destruct (decide (z = c)) as [->|Hz]; [right; exists q, v; by left|]. left. intros ? ? [?|?]%elem_of_cons; [congruence|by eapply IH].
Qed.

(** One turn: it goes on, finds the record, or finds that there is none. *)
Lemma run_wait c : at_point (th s t) = Wait c ->
  wp (process_wait t c) s (fun _ s' => good s' /\
    ((s' = s /\ exists a, Alive a ∈ children (th s t) /\ tid (th s a) = c) \/
     (at_point (th s' t) = User /\ exists r, log s' = Waited (tid (th s t)) c r :: log s))).
Proof.
  intros Ea. pose proof (k_alive _ _ _ (i_kin _ _ _ _ G)) as Hal. unfold process_wait. run. eapply wp_mono; [apply wp_find_child; intros x Hx; by apply (Hal t x)|]. intros o ? [-> Ho].
  destruct o as [[a|d]|]; cbn [entry_code].
  - destruct Ho as [Ha Etid]. destruct (Hal t a Ht Ha) as (Hla & Hg & _). cbn in Etid. run.
    replace (match at_point (th s a) with Dying => Some (exit_code (th s a)) | _ => None end) with (@None Z) by (by destruct (at_point (th s a))).
    apply wp_ret. split; [done|]. left. split; [done|]. by exists a.
  - destruct Ho as [Hd Etid]. cbn in Etid. subst c. run. split; [good_by (wait_dead_ok _ _ _ _ G t (d_tid d) d Ht Ea Hd)|right].
    split; [repeat (rewrite th_log || rewrite th_upd by is_live); by rewrite decide_True|]. by exists (Some (d_exit_code d)).
  - run. split; [|right; split; [repeat (rewrite th_log || rewrite th_upd by is_live); by rewrite decide_True|by exists None]].
    assert (Hok : event_ok (Waited (tid (th s t)) c None) (log s)).
    { cbn. destruct (waited_dec (log s) c) as [Hw|(q & v & Hw)].
      - left. intros Hc. destruct (k_all _ _ _ (i_kin _ _ _ _ G) t c Ht) as [(d & Hd & E)|(a & Ha & E)]; [by rewrite Ea|done|done| |]; by eapply Ho.
      - destruct (decide (q = tid (th s t))) as [->|Hq]; [right; by exists v|left]. intros Hc. apply Hq. eapply (created_once (log s)); [apply G| |exact Hc].
        eapply waited_created; [apply G|done]. }
    assert (I1 : inv (live s) (fupd t (set_point User) (th s)) (next_tid s) (log s)) by (apply move_ok; [done|same_by Ea..]).
    good_by (event_note _ _ _ _ _ I1 Hok eq_refl).
Qed.
End Run.

(** ** Every step *)

(** The steps at which the machine stops: the page of a new process is
    initialised after it has died, [load] runs before that page table is
    initialised, a parent is gone when its child wants to tell it, or there is no
    memory for the record. *)
Definition fault (s : family) (t : Z) (ch : choice) : Prop :=
  match at_point (th s t), ch with
  | CreateInit c _, _ => ~ live s c
  | Load, CLoad true => spt (th s t) = false
  | ExitParent, _ => parent (th s t) = 0
  | ExitParentLock p, CMalloc b => ~ live s p \/ parent (th s t) = 0 \/ b = false
  | _, _ => False
  end.

Lemma exec_keeps s t ch : good s -> live s t -> page_free s ch -> ~ fault s t ch -> keeps s (exec t ch).
Proof.
  intros G Ht Hf Hno. unfold keeps, exec. apply wp_bind, wp_get_relative; [done|]. unfold fault in Hno.
  destruct (at_point (th s t)) eqn:Ea; try (apply wp_ret; intros _; exact G).
  - destruct ch; try (apply wp_ret; intros _; exact G). apply (run_load_done s G t Ht); [done|]. destruct success; [|done]. by apply not_false_iff_true.
  - by apply (run_load_up s G t Ht).
  - destruct ch; try (apply wp_ret; intros _; exact G).
    + by apply (run_create_begin s G t Ht).
    + run. intros _. apply (run_move s G t Ht); same_by Ea.
    + by apply (run_exit s G t Ht).
    + by apply (run_return s G t Ht).
  - by apply (run_create_push s G t Ht).
  - by apply (run_create_start s G t Ht).
  - apply (run_create_init s G t Ht); [done|]. destruct (decide (live s t0)); [done|by destruct Hno].
  - by apply (run_create_down s G t Ht).
  - eapply wp_mono; [by apply (run_wait s G t Ht)|]. by intros _ s' [? _] _.
  - by apply (run_exit_children s G t Ht).
  - by apply (run_exit_test s G t Ht).
  - by apply (run_exit_parent s G t Ht).
  - destruct ch; try (apply wp_ret; intros _; exact G). destruct block; [|destruct Hno; auto]. apply (run_exit_tell s G t Ht); [done| |naive_solver].
    destruct (decide (live s p)); [done|]. by destruct Hno; left.
  - run. intros _. apply (run_move s G t Ht); same_by Ea.
  - by apply (run_free s G t).
Qed.

Lemma get_thread_dead s t : ~ live s t -> get_thread t s = Panic.
Proof. unfold live, get_thread. destruct (threads s !! t); [|done]. intros H. by destruct H. Qed.
Lemma get_thread_run s t : live s t -> get_thread t s = Ret (th s t, s).
Proof. unfold live, get_thread, th. destruct (threads s !! t); [done|]. by intros []. Qed.

Lemma exec_faults s t ch : live s t -> fault s t ch -> exec t ch s = Panic.
Proof.
  intros Ht Hf. unfold exec. rewrite (bind_run _ _ _ _ _ (get_thread_run s t Ht)). unfold fault in Hf.
  destruct (at_point (th s t)) eqn:Ea; try (by destruct ch).
  - destruct ch; try done. destruct success; [|done]. unfold load_done. rewrite (bind_run _ _ _ _ _ (get_thread_run s t Ht)). by rewrite Hf.
  - unfold create_init, upd_thread. do 2 apply bind_panics. by apply get_thread_dead.
  - unfold exit_parent. rewrite (bind_run _ _ _ _ _ (get_thread_run s t Ht)). by rewrite Hf.
  - destruct ch; try done. unfold exit_tell. destruct (decide (live s p)) as [Hp|Hp]; [|apply bind_panics; by apply get_thread_dead].
    rewrite (bind_run _ _ _ _ _ (get_thread_run s p Hp)), (bind_run _ _ _ _ _ (get_thread_run s t Ht)).
    destruct (Z.eqb_spec (parent (th s t)) 0) as [E|E]; [done|]. destruct Hf as [?|[?| ->]]; done.
Qed.

Lemma step_good s s' : good s -> step s s' -> good s'.
Proof.
  intros G [t ch Hf E Hn]. destruct (decide (live s t)) as [Ht|Ht]; [|unfold exec in E; by rewrite bind_panics in E by (by apply get_thread_dead)].
  assert (Hno : ~ fault s t ch) by (intros H; by rewrite exec_faults in E). pose proof (exec_keeps s t ch G Ht Hf Hno) as W.
  unfold keeps, wp in W. rewrite E in W. by apply W.
Qed.

Lemma boot_th main : forall x, live (boot main) x <-> x = main.
Proof. intros x. unfold live, boot. cbn. rewrite lookup_singleton_is_Some. naive_solver. Qed.
Lemma boot_good main : main <> 0 -> good (boot main).
Proof.
  intros Hm. assert (T : th (boot main) main = mk_thr 1 (-1) [] 0 0 false true User) by (unfold th, boot; cbn; by rewrite lookup_singleton_eq).
  pose proof (boot_th main) as HL. unfold good. split.
  - split; cbn; try done; [|intros x y Hx Hy _; apply HL in Hx, Hy; congruence|by intros e ?%elem_of_nil]. intros x Hx. apply HL in Hx as ->. rewrite T. cbn. lia.
  - split; cbn; intros x; [..|]; intros; repeat match goal with H : live _ _ |- _ => apply HL in H as -> end; rewrite ?T in *; cbn in *; try done.
    all: try (by match goal with H : _ ∈ [] |- _ => apply elem_of_nil in H end). constructor.
  - intros x Hx. apply HL in Hx as ->. rewrite T. cbn. by intros v ?%elem_of_nil.
  - split; cbn; intros x; intros; repeat match goal with H : live _ _ |- _ => apply HL in H as -> end; rewrite ?T in *; cbn in *; try done. naive_solver.
Qed.

Lemma reach_good main s : main <> 0 -> reach step (boot main) s -> good s.
Proof. intros Hm. apply reach_invariant; [by apply boot_good|apply step_good]. Qed.

(** ** Runs by computation *)
Definition play1 (s : family) (m : Z * choice) : option family :=
  let (t, ch) := m in
  let free := match ch with CExec page => bool_decide (threads s !! page = None) | _ => true end in
  match exec t ch s with
  | Ret (_, s') => if free && (0 <? next_tid s') then Some s' else None
  | _ => None
  end.
Fixpoint play (s : family) (l : list (Z * choice)) : option family :=
  match l with
  | [] => Some s
  | m :: l => s' ← play1 s m; play s' l
  end.

Lemma play1_step s m s' : play1 s m = Some s' -> step s s'.
Proof.
  destruct m as [t ch]. unfold play1. destruct (exec t ch s) as [[[] s1]| |] eqn:E; try done. destruct (_ && _) eqn:B; [|done]. intros H. injection H as <-.
  apply andb_true_iff in B as [B1 B2]. apply (step_exec _ _ t ch); [|done|lia]. destruct ch; try done. by apply bool_decide_eq_true in B1.
Qed.
Lemma play_reach s l s' : play s l = Some s' -> reach step s s'.
Proof.
  revert s. induction l as [|m l IH]; intros s; cbn [play]; [intros H; injection H as <-; constructor|].
  destruct (play1 s m) as [s1|] eqn:E; [|done]. cbn. intros H. eapply reach_trans; [|by apply (IH s1)]. eapply reach_step; [constructor|]. by apply play1_step in E.
Qed.

(** A process is started, exits with code 7 and is waited for twice. *)
Definition demo_start : list (Z * choice) :=
  [(4096, CExec 8192); (4096, CReturn); (4096, CReturn); (4096, CReturn); (8192, CLoad true); (8192, CReturn); (4096, CReturn)].
Definition demo_run : list (Z * choice) :=
  demo_start ++ [(4096, CWait 3); (4096, CReturn); (8192, CExit 7); (8192, CReturn); (8192, CReturn); (8192, CReturn); (8192, CMalloc true);
    (4096, CReturn); (8192, CReturn); (8192, CReturn); (4096, CWait 3); (4096, CReturn)].
Definition demo_waiting : list (Z * choice) := demo_start ++ [(4096, CWait 3)].
Definition demo_state (l : list (Z * choice)) : family := default (boot 4096) (play (boot 4096) l).
Lemma demo_reach l : is_Some (play (boot 4096) l) -> reach step (boot 4096) (demo_state l).
Proof. intros [s E]. unfold demo_state. rewrite E. by apply (play_reach _ l). Qed.

(** ** The properties *)

(** C3: The history of every run keeps the contract of the system calls.
    [wait] returns a code only to the parent of the process, only the code with
    which that process exited, and at most once; it returns -1 as for a
    stranger only for a process that is not a child or has been waited for
    already.  [exec] reports success exactly if [load] succeeded in the new
    process.  No process is created, loaded or exits twice. *)
Theorem exec_wait_contract main s after e past : main <> 0 -> reach step (boot main) s -> log s = after ++ e :: past ->
  match e with
  | Created p c => forall q, Created q c ∉ past
  | Loaded c _ => forall b, Loaded c b ∉ past
  | Execed p c b => Created p c ∈ past /\ Loaded c b ∈ past
  | Exited c _ => forall v, Exited c v ∉ past
  | Waited p c (Some v) => Created p c ∈ past /\ Exited c v ∈ past /\ forall q w, Waited q c (Some w) ∉ past
  | Waited p c None => Created p c ∉ past \/ exists v, Waited p c (Some v) ∈ past
  end.
Proof.
  intros Hm R E. pose proof (b_log _ _ _ _ (i_base _ _ _ _ (reach_good main s Hm R))) as H. rewrite E in H. clear R E.
  induction after as [|x after IH]; [apply H|]. apply IH, H.
Qed.

Lemma exec_wait_contract_witness : log (demo_state demo_run) =
    [Waited 1 3 None; Waited 1 3 (Some 7); Exited 3 7; Execed 1 3 true; Loaded 3 true; Created 1 3] /\
  (Created 1 3 ∈ [Exited 3 7; Execed 1 3 true; Loaded 3 true; Created 1 3] /\ Exited 3 7 ∈ [Exited 3 7; Execed 1 3 true; Loaded 3 true; Created 1 3] /\
   forall q w, Waited q 3 (Some w) ∉ [Exited 3 7; Execed 1 3 true; Loaded 3 true; Created 1 3]).
Proof.
  split; [vm_compute; reflexivity|].
  apply (exec_wait_contract 4096 (demo_state demo_run) [Waited 1 3 None] (Waited 1 3 (Some 7))).
  - lia.
  - apply demo_reach. vm_compute. by eexists.
  - vm_compute. reflexivity.
Defined.

(** C21: A turn of [wait] always returns, and only a living child keeps it
    waiting: either the process waited for is still on the list as a thread that
    has not told its parent, and nothing changes, or [wait] is over and
    its result is recorded. *)
Theorem wait_waits_for_living main s t c ch : main <> 0 -> reach step (boot main) s -> live s t -> at_point (th s t) = Wait c ->
  exists s', exec t ch s = Ret (tt, s') /\
    ((s' = s /\ exists a, Alive a ∈ children (th s t) /\ live s a /\ tid (th s a) = c /\ gone (at_point (th s a)) = false) \/
     (at_point (th s' t) = User /\ exists r, log s' = Waited (tid (th s t)) c r :: log s)).
Proof.
  intros Hm R Ht Ea. pose proof (reach_good main s Hm R) as G. pose proof (run_wait s G t Ht c Ea) as W. apply wp_run_unit in W as (s' & E & _ & H).
  exists s'. split; [unfold exec; rewrite (bind_run _ _ _ _ _ (get_thread_run s t Ht)); by rewrite Ea|]. destruct H as [(-> & a & Ha & Et)|H]; [left|by right].
  split; [done|]. exists a. destruct (k_alive _ _ _ (i_kin _ _ _ _ G) t a Ht Ha) as (H1 & H2 & _). done.
Qed.

Lemma wait_waits_for_living_witness : exists s', exec 4096 CReturn (demo_state demo_waiting) = Ret (tt, s') /\
    ((s' = demo_state demo_waiting /\ exists a, Alive a ∈ children (th (demo_state demo_waiting) 4096) /\ live (demo_state demo_waiting) a /\
        tid (th (demo_state demo_waiting) a) = 3 /\ gone (at_point (th (demo_state demo_waiting) a)) = false) \/
     (at_point (th s' 4096) = User /\ exists r, log s' = Waited (tid (th (demo_state demo_waiting) 4096)) 3 r :: log (demo_state demo_waiting))).
Proof.
  apply (wait_waits_for_living 4096 (demo_state demo_waiting) 4096 3 CReturn).
  - lia.
  - apply demo_reach. vm_compute. by eexists.
  - vm_compute. by eexists.
  - vm_compute. reflexivity.
Defined.



