(* ===== verification/Bytes.v ===== *)
(** * Byte buffers

    A buffer of C code is the list of its bytes.  Copies in and out of a
    buffer check their bounds: an access outside the object stops the model,
    so every theorem that concludes [Ret _] also rules out an overrun.
    Integers are stored with the low byte first. *)

From S2P Require Import Prelude.

(** Byte [k] of a buffer (0 outside it). *)
Definition byte (l : list Z) (k : Z) : Z := nth (Z.to_nat k) l 0.

(** [n] bytes from offset [o], and the buffer with [l] put at offset [o]. *)
Definition slice (o n : Z) (b : list Z) : list Z := take (Z.to_nat n) (drop (Z.to_nat o) b).
Definition splice (o : Z) (l b : list Z) : list Z :=
  take (Z.to_nat o) b ++ l ++ drop (Z.to_nat o + length l) b.

Definition get_bytes {S} (b : list Z) (o n : Z) : ST S (list Z) :=
  ASSERT ((0 <=? o) && (o + n <=? length b));;
  mret (slice o n b).
Definition put_bytes {S} (b : list Z) (o : Z) (l : list Z) : ST S (list Z) :=
  ASSERT ((0 <=? o) && (o + length l <=? length b));;
  mret (splice o l b).

(** [n] bytes of an integer, low byte first, and back. *)
Fixpoint to_le (n : nat) (x : Z) : list Z :=
  match n with
  | O => []
  | S n => x mod 256 :: to_le n (x / 256)
  end.
Fixpoint of_le (l : list Z) : Z :=
  match l with
  | [] => 0
  | b :: l => b + 256 * of_le l
  end.

Definition all_bytes (l : list Z) : Prop := Forall is_u8 l.

(** ** Lemmas *)

Lemma bytes_eq (l l' : list Z) : length l = length l' ->
  (forall k, 0 <= k < length l -> byte l k = byte l' k) -> l = l'.
Proof.
  intros Hl Hk. apply (nth_ext l l' 0 0 Hl). intros n Hn.
  specialize (Hk n ltac:(lia)). unfold byte in Hk. by rewrite Nat2Z.id in Hk.
Qed.

Lemma byte_app l l' k : 0 <= k ->
  byte (l ++ l') k = if k <? length l then byte l k else byte l' (k - length l).
Proof.
  intros Hk. unfold byte. destruct (Z.ltb_spec k (length l)).
  - apply app_nth1. lia.
  - rewrite app_nth2 by lia. f_equal. lia.
Qed.

Lemma byte_take n l k : byte (take n l) k = if Z.to_nat k <? n then byte l k else 0.
Proof.
  unfold byte. rewrite !nth_lookup. destruct (Z.ltb_spec (Z.to_nat k) n).
  - by rewrite lookup_take_lt by lia.
  - by rewrite lookup_take_ge by lia.
Qed.

Lemma byte_drop n l k : 0 <= k -> byte (drop n l) k = byte l (n + k).
Proof.
  intros Hk. unfold byte. rewrite !nth_lookup, lookup_drop. do 2 f_equal. lia.
Qed.

Lemma byte_outside l k : length l <= k -> byte l k = 0.
Proof. intros. unfold byte. apply nth_overflow. lia. Qed.

Lemma byte_replicate (n : nat) x k : 0 <= k < n -> byte (replicate n x) k = x.
Proof. intros H. unfold byte. rewrite nth_lookup, lookup_replicate_2; [done|lia]. Qed.

Lemma slice_length o n b : 0 <= o -> 0 <= n -> o + n <= length b -> length (slice o n b) = Z.to_nat n.
Proof. intros. unfold slice. rewrite length_take, length_drop. lia. Qed.

Lemma byte_slice o n b k : 0 <= o -> 0 <= k < n -> byte (slice o n b) k = byte b (o + k).
Proof.
  intros Ho Hk. unfold slice. rewrite byte_take. destruct (Z.ltb_spec (Z.to_nat k) (Z.to_nat n)); [|lia].
  rewrite byte_drop by lia. f_equal. lia.
Qed.

Lemma splice_length o l b : 0 <= o -> o + length l <= length b -> length (splice o l b) = length b.
Proof. intros. unfold splice. rewrite !length_app, length_take, length_drop. lia. Qed.

Lemma byte_splice o l b k : 0 <= o -> o + length l <= length b -> 0 <= k ->
  byte (splice o l b) k = if (o <=? k) && (k <? o + length l) then byte l (k - o) else byte b k.
Proof.
  intros Ho Hl Hk. unfold splice. rewrite byte_app, length_take by lia.
  replace (Z.of_nat (Z.to_nat o `min` length b)%nat) with o by lia.
  destruct (Z.ltb_spec k o) as [Hko|Hko].
  - destruct (Z.leb_spec o k); [lia|]. cbn [andb]. rewrite byte_take.
    destruct (Z.ltb_spec (Z.to_nat k) (Z.to_nat o)); [done|lia].
  - destruct (Z.leb_spec o k); [|lia]. cbn [andb]. rewrite byte_app by lia.
    destruct (Z.ltb_spec (k - o) (length l)), (Z.ltb_spec k (o + length l)); [done|lia..|].
    rewrite byte_drop by lia. f_equal. lia.
Qed.

Lemma splice_all l b : length l = length b -> splice 0 l b = l.
Proof.
  intros H. unfold splice. cbn [Z.to_nat take app]. rewrite H, drop_ge by lia. by rewrite app_nil_r.
Qed.

Lemma slice_all b (n : Z) : n = length b -> slice 0 n b = b.
Proof. intros ->. unfold slice. cbn [Z.to_nat drop]. apply take_ge. lia. Qed.

Lemma wp_get_bytes {S} (s : S) b o n Q : 0 <= o -> o + n <= length b -> Q (slice o n b) s ->
  wp (get_bytes b o n) s Q.
Proof.
  intros Ho Hn HQ. apply wp_bind, wp_assert; [|by apply wp_ret].
  apply andb_true_intro. split; apply Z.leb_le; lia.
Qed.

Lemma wp_put_bytes {S} (s : S) b o l Q : 0 <= o -> o + length l <= length b -> Q (splice o l b) s ->
  wp (put_bytes b o l) s Q.
Proof.
  intros Ho Hn HQ. apply wp_bind, wp_assert; [|by apply wp_ret].
  apply andb_true_intro. split; apply Z.leb_le; lia.
Qed.

Lemma to_le_length n x : length (to_le n x) = n.
Proof. revert x. induction n as [|n IH]; intros x; simpl; [done|]. by rewrite IH. Qed.

Lemma to_le_bytes n x : all_bytes (to_le n x).
Proof.
  revert x. induction n as [|n IH]; intros x; simpl; constructor; [|apply IH].
  apply (Z.mod_pos_bound x 256). lia.
Qed.

Lemma of_to_le (n : nat) x : 0 <= x < 256 ^ n -> of_le (to_le n x) = x.
Proof.
  revert x. induction n as [|n IH]; intros x Hx; cbn [to_le of_le].
  - simpl in Hx. lia.
  - rewrite IH.
    + pose proof (Z.div_mod x 256). lia.
    + replace (Z.of_nat (S n)) with (Z.succ n) in Hx by lia. rewrite Z.pow_succ_r in Hx by lia.
      split; [apply Z.div_pos; lia|]. apply Z.div_lt_upper_bound; lia.
Qed.

Lemma of_le_range l : all_bytes l -> 0 <= of_le l < 256 ^ length l.
Proof.
  induction 1 as [|b l Hb Hl IH]; cbn [of_le length]; [simpl; lia|].
  replace (Z.of_nat (S (length l))) with (Z.succ (length l)) by lia. rewrite Z.pow_succ_r by lia.
  destruct Hb as [? Hb]. change (2 ^ 8) with 256 in Hb. lia.
Qed.

Lemma to_of_le l : all_bytes l -> to_le (length l) (of_le l) = l.
Proof.
  induction 1 as [|b l Hb Hl IH]; cbn [of_le length to_le]; [done|].
  destruct Hb as [? Hb]. change (2 ^ 8) with 256 in Hb.
  replace (b + 256 * of_le l) with (b + of_le l * 256) by lia.
  rewrite Z.mod_add, Z.mod_small by lia. f_equal. rewrite Z.div_add, Z.div_small by lia. exact IH.
Qed.
