(* ===== verification/CString.v ===== *)
(** * Memory blocks and strings: lib/string.c

    Memory is a map from addresses to bytes; a load or store at an address
    that is not mapped faults.  Pointers are 32-bit addresses and null is 0.
    A loop over a string has no bound of its own in the code: its fuel is an
    argument, and any number above the length of the string is enough.  The
    [while (size-- > 0)] loops run [size] times. *)

From S2P Require Import Prelude.

Abbreviation memory := (gmap Z Z).

Definition load (p : Z) : ST memory Z := fun m =>
  match m !! p with Some b => Ret (b, m) | None => Panic end.
Definition store (p b : Z) : ST memory unit := fun m =>
  match m !! p with Some _ => Ret (tt, <[p := b]> m) | None => Panic end.

(** ** Blocks *)

Definition not_null (p size : Z) : bool := negb (p =? 0) || (size =? 0).

Fixpoint memcpy_loop (size : nat) (dst src : Z) : ST memory unit :=
  match size with
  | O => mret tt
  | S size => b ← load src; store dst b;; memcpy_loop size (dst +u 1) (src +u 1)
  end.

Definition memcpy (dst src size : Z) : ST memory Z :=
  ASSERT (not_null dst size);;
  ASSERT (not_null src size);;
  memcpy_loop (Z.to_nat size) dst src;;
  mret dst.

(** The loop that copies backwards, from the ends of the blocks. *)
Fixpoint memmove_down (size : nat) (dst src : Z) : ST memory unit :=
  match size with
  | O => mret tt
  | S size => b ← load (src -u 1); store (dst -u 1) b;; memmove_down size (dst -u 1) (src -u 1)
  end.

(** The result is the variable [dst], which the loops have moved. *)
Definition memmove (dst src size : Z) : ST memory Z :=
  ASSERT (not_null dst size);;
  ASSERT (not_null src size);;
  if dst <? src then memcpy_loop (Z.to_nat size) dst src;; mret (dst +u size)
  else memmove_down (Z.to_nat size) (dst +u size) (src +u size);; mret dst.

Fixpoint memcmp_loop (size : nat) (a b : Z) : ST memory Z :=
  match size with
  | O => mret 0
  | S size =>
    x ← load a; y ← load b;
    if x =? y then memcmp_loop size (a +u 1) (b +u 1) else mret (if y <? x then 1 else -1)
  end.

Definition memcmp (a b size : Z) : ST memory Z :=
  ASSERT (not_null a size);;
  ASSERT (not_null b size);;
  memcmp_loop (Z.to_nat size) a b.

Fixpoint memchr_loop (size : nat) (block ch : Z) : ST memory Z :=
  match size with
  | O => mret 0
  | S size => x ← load block; if x =? ch then mret block else memchr_loop size (block +u 1) ch
  end.

Definition memchr (block ch size : Z) : ST memory Z :=
  ASSERT (not_null block size);;
  memchr_loop (Z.to_nat size) block (u8 ch).

Fixpoint memset_loop (size : nat) (dst value : Z) : ST memory unit :=
  match size with
  | O => mret tt
  | S size => store dst (u8 value);; memset_loop size (dst +u 1) value
  end.

Definition memset (dst value size : Z) : ST memory Z :=
  ASSERT (not_null dst size);;
  memset_loop (Z.to_nat size) dst value;;
  mret dst.

(** ** Strings *)

Fixpoint strcmp_loop (fuel : nat) (a b : Z) : ST memory Z :=
  match fuel with
  | O => no_fuel
  | S fuel =>
    x ← load a; y ← load b;
    if negb (x =? 0) && (x =? y) then strcmp_loop fuel (a +u 1) (b +u 1)
    else mret (if x <? y then -1 else if y <? x then 1 else 0)
  end.

Definition strcmp (fuel : nat) (a b : Z) : ST memory Z :=
  ASSERT (negb (a =? 0));;
  ASSERT (negb (b =? 0));;
  strcmp_loop fuel a b.

Fixpoint strchr_loop (fuel : nat) (string c : Z) : ST memory Z :=
  match fuel with
  | O => no_fuel
  | S fuel =>
    x ← load string;
    if x =? c then mret string
    else if x =? 0 then mret 0
    else strchr_loop fuel (string +u 1) c
  end.

Definition strchr (fuel : nat) (string c : Z) : ST memory Z :=
  ASSERT (negb (string =? 0));;
  strchr_loop fuel string (u8 c).

(** [strcspn] and [strspn]: the loops stop at a character that is
    ([strcspn]) or is not ([strspn]) in the set. *)
Fixpoint span_loop (fuel : nat) (stop_in : bool) (string set length : Z) : ST memory Z :=
  match fuel with
  | O => no_fuel
  | S fuel' =>
    x ← load (string +u length);
    if x =? 0 then mret length
    else
      p ← strchr fuel set x;
      if Bool.eqb (negb (p =? 0)) stop_in then mret length
      else span_loop fuel' stop_in string set (length +u 1)
  end.

Definition strcspn (fuel : nat) (string stop : Z) : ST memory Z := span_loop fuel true string stop 0.
Definition strspn (fuel : nat) (string skip : Z) : ST memory Z := span_loop fuel false string skip 0.

Fixpoint strpbrk (fuel : nat) (string stop : Z) : ST memory Z :=
  match fuel with
  | O => no_fuel
  | S fuel' =>
    x ← load string;
    if x =? 0 then mret 0
    else
      p ← strchr fuel stop x;
      if negb (p =? 0) then mret string else strpbrk fuel' (string +u 1) stop
  end.

Fixpoint strrchr_loop (fuel : nat) (string c p : Z) : ST memory Z :=
  match fuel with
  | O => no_fuel
  | S fuel =>
    x ← load string;
    if x =? 0 then mret p
    else strrchr_loop fuel (string +u 1) c (if x =? c then string else p)
  end.

Definition strrchr (fuel : nat) (string c : Z) : ST memory Z := strrchr_loop fuel string (u8 c) 0.

Fixpoint strlen_loop (fuel : nat) (string p : Z) : ST memory Z :=
  match fuel with
  | O => no_fuel
  | S fuel =>
    x ← load p;
    if x =? 0 then mret (p -u string) else strlen_loop fuel string (p +u 1)
  end.

Definition strlen (fuel : nat) (string : Z) : ST memory Z :=
  ASSERT (negb (string =? 0));;
  strlen_loop fuel string string.

Fixpoint strnlen_loop (fuel : nat) (string maxlen length : Z) : ST memory Z :=
  match fuel with
  | O => no_fuel
  | S fuel =>
    x ← load (string +u length);
    if negb (x =? 0) && (length <? maxlen) then strnlen_loop fuel string maxlen (length +u 1)
    else mret length
  end.

Definition strnlen (fuel : nat) (string maxlen : Z) : ST memory Z := strnlen_loop fuel string maxlen 0.

(** The scan of [strstr], over the positions up to the difference of the
    lengths. *)
Fixpoint strstr_loop (fuel : nat) (haystack needle needle_len last i : Z) : ST memory Z :=
  match fuel with
  | O => no_fuel
  | S fuel =>
    if i <=? last then
      c ← memcmp (haystack +u i) needle needle_len;
      if c =? 0 then mret (haystack +u i)
      else strstr_loop fuel haystack needle needle_len last (i +u 1)
    else mret 0
  end.

Definition strstr (fuel : nat) (haystack needle : Z) : ST memory Z :=
  haystack_len ← strlen fuel haystack;
  needle_len ← strlen fuel needle;
  if needle_len <=? haystack_len
  then strstr_loop (S (S (Z.to_nat haystack_len))) haystack needle needle_len (haystack_len -u needle_len) 0
  else mret 0.

(** The two scans of [strtok_r]: over delimiters, [None] at the end of the
    string, and over the token. *)
Fixpoint skip_delimiters (fuel : nat) (s delimiters : Z) : ST memory (Z * bool) :=
  match fuel with
  | O => no_fuel
  | S fuel' =>
    x ← load s;
    p ← strchr fuel delimiters x;
    if negb (p =? 0) then
      if x =? 0 then mret (s, false) else skip_delimiters fuel' (s +u 1) delimiters
    else mret (s, true)
  end.

Fixpoint skip_token (fuel : nat) (s delimiters : Z) : ST memory Z :=
  match fuel with
  | O => no_fuel
  | S fuel' =>
    x ← load s;
    p ← strchr fuel delimiters x;
    if p =? 0 then skip_token fuel' (s +u 1) delimiters else mret s
  end.

(** [save]: the value of [*save_ptr]; the result is the token and the new
    value. *)
Definition strtok_r (fuel : nat) (s delimiters save : Z) : ST memory (Z * Z) :=
  ASSERT (negb (delimiters =? 0));;
  let s := if s =? 0 then save else s in
  ASSERT (negb (s =? 0));;
  r ← skip_delimiters fuel s delimiters;
  let '(s, found) := (r : Z * bool) in
  if found then
    let token := s in
    s ← skip_token fuel s delimiters;
    x ← load s;
    if negb (x =? 0) then store s 0;; mret (token, s +u 1) else mret (token, s)
  else mret (0, s).

Definition strlcpy (fuel : nat) (dst src size : Z) : ST memory Z :=
  ASSERT (negb (dst =? 0));;
  ASSERT (negb (src =? 0));;
  src_len ← strlen fuel src;
  when (0 <? size)
    (let dst_len := if src_len <? size -u 1 then src_len else size -u 1 in
     memcpy dst src dst_len;; store (dst +u dst_len) 0);;
  mret src_len.

Definition strlcat (fuel : nat) (dst src size : Z) : ST memory Z :=
  ASSERT (negb (dst =? 0));;
  ASSERT (negb (src =? 0));;
  src_len ← strlen fuel src;
  dst_len ← strlen fuel dst;
  when ((0 <? size) && (dst_len <? size))
    (let room := (size -u dst_len) -u 1 in
     let copy_cnt := if src_len <? room then src_len else room in
     memcpy (dst +u dst_len) src copy_cnt;; store ((dst +u dst_len) +u copy_cnt) 0);;
  mret (src_len +u dst_len).

(** The loop of the usage example: every token of a string.  The same loop
    parses command lines in userprog/process.c. *)
Fixpoint strtok_all (fuel : nat) (s delimiters save : Z) : ST memory (list Z) :=
  match fuel with
  | O => no_fuel
  | S fuel' =>
    r ← strtok_r fuel s delimiters save;
    let '(token, save) := (r : Z * Z) in
    if token =? 0 then mret []
    else ts ← strtok_all fuel' 0 delimiters save; mret (token :: ts)
  end.
