(* ===== verification/CStringProps.v ===== *)
(** * Memory blocks and strings: correctness *)

From S2P Require Import Prelude CString.

(** ** Blocks *)

(** The [n] bytes at [p] can be accessed. *)
Definition mapped (m : memory) (p n : Z) : Prop :=
  0 < p /\ p + n < 2 ^ 32 /\ forall a, p <= a < p + n -> is_Some (m !! a).

(** [m'] is [m] with the [n] bytes at [dst] replaced by those that [m] has
    at [src]. *)
Definition copied (m : memory) (dst src n : Z) (m' : memory) : Prop :=
  forall a, m' !! a = if (dst <=? a) && (a <? dst + n) then m !! (src + (a - dst)) else m !! a.

Lemma load_eq (m : memory) p b : m !! p = Some b -> load p m = Ret (b, m).
Proof. intros H. unfold load. by rewrite H. Qed.
Lemma store_eq (m : memory) p b : is_Some (m !! p) -> store p b m = Ret (tt, <[p := b]> m).
Proof. intros [x H]. unfold store. by rewrite H. Qed.

Lemma mapped_head m p n : mapped m p (Z.of_nat (S n)) -> is_Some (m !! p) /\ mapped m (p + 1) n \/ n = O.
Proof.
  intros (H1 & H2 & H3). destruct n; [by right|left]. split; [apply H3; lia|].
  split_and!; [lia..|]. intros a Ha. apply H3. lia.
Qed.

Lemma mapped_insert m p n a b : mapped m p n -> mapped (<[a := b]> m) p n.
Proof.
  intros (H1 & H2 & H3). split_and!; [done..|]. intros x Hx. rewrite lookup_insert. case_decide; [by eexists|by apply H3].
Qed.

Lemma memcpy_loop_eq (n : nat) m dst src : mapped m dst n -> mapped m src n -> dst < src \/ src + n <= dst ->
  exists m', memcpy_loop n dst src m = Ret (tt, m') /\ copied m dst src n m'.
Proof.
  revert m dst src. induction n as [|n IH]; intros m dst src Hd Hs Hov.
  - exists m. split; [done|]. intros a. zcases; simpl; lia || done.
  - cbn [memcpy_loop]. destruct Hd as (Hd1 & Hd2 & Hd3), Hs as (Hs1 & Hs2 & Hs3).
    destruct (Hs3 src) as [b Hb]; [lia|]. rewrite (bind_run _ _ _ _ _ (load_eq _ _ _ Hb)).
    rewrite (bind_run _ _ _ _ _ (store_eq m dst b (Hd3 dst ltac:(lia)))). rewrite !u32_small by (urange; lia).
    destruct (IH (<[dst := b]> m) (dst + 1) (src + 1)) as (m' & E & Hm').
    + apply mapped_insert. split_and!; [lia..|]. intros a Ha. apply Hd3. lia.
    + apply mapped_insert. split_and!; [lia..|]. intros a Ha. apply Hs3. lia.
    + lia.
    + exists m'. split; [done|]. intros a. rewrite Hm'. destruct (decide (a = dst)) as [->|Ha].
      * rewrite lookup_insert_eq. zcases; simpl; try lia. by replace (src + (dst - dst)) with src by lia.
      * zcases; simpl; try lia; rewrite lookup_insert_ne by lia; try done. f_equal. lia.
Qed.

Lemma memmove_down_eq (n : nat) m dst src : mapped m dst n -> mapped m src n -> src <= dst ->
  exists m', memmove_down n (dst + n) (src + n) m = Ret (tt, m') /\ copied m dst src n m'.
Proof.
  revert m. induction n as [|n IH]; intros m Hd Hs Hov.
  - exists m. split; [done|]. intros a. zcases; simpl; lia || done.
  - cbn [memmove_down]. destruct Hd as (Hd1 & Hd2 & Hd3), Hs as (Hs1 & Hs2 & Hs3).
    replace (dst + S n -u 1) with (dst + n) by (rewrite u32_small; urange; lia).
    replace (src + S n -u 1) with (src + n) by (rewrite u32_small; urange; lia).
    destruct (Hs3 (src + n)) as [b Hb]; [lia|]. rewrite (bind_run _ _ _ _ _ (load_eq _ _ _ Hb)).
    rewrite (bind_run _ _ _ _ _ (store_eq m (dst + n) b (Hd3 (dst + n) ltac:(lia)))).
    destruct (IH (<[dst + n := b]> m)) as (m' & E & Hm').
    + apply mapped_insert. split_and!; [lia..|]. intros a Ha. apply Hd3. lia.
    + apply mapped_insert. split_and!; [lia..|]. intros a Ha. apply Hs3. lia.
    + lia.
    + exists m'. split; [done|]. intros a. rewrite Hm'. destruct (decide (a = dst + n)) as [->|Ha].
      * rewrite lookup_insert_eq. zcases; simpl; try lia. by replace (src + (dst + n - dst)) with (src + n) by lia.
      * zcases; simpl; try lia; rewrite lookup_insert_ne by lia; done.
Qed.

(** ** Strings *)

(** The string [l] is at [p]. *)
Definition cstr (m : memory) (p : Z) (l : list Z) : Prop :=
  0 < p /\ p + length l < 2 ^ 32 - 1 /\ Forall (fun c => is_u8 c /\ c <> 0) l /\
  (forall (k : nat) c, l !! k = Some c -> m !! (p + k) = Some c) /\ m !! (p + length l) = Some 0.

Lemma cstr_nil m p : cstr m p [] -> m !! p = Some 0 /\ 0 < p < 2 ^ 32 - 1.
Proof. intros (? & ? & _ & _ & H). simpl in *. rewrite Z.add_0_r in *. done. Qed.

Lemma cstr_cons m p c l : cstr m p (c :: l) ->
  m !! p = Some c /\ is_u8 c /\ c <> 0 /\ 0 < p < 2 ^ 32 - 2 /\ p +u 1 = p + 1 /\ cstr m (p + 1) l.
Proof.
  intros (Hp & Hb & Hf & Hl & He). cbn [length] in *. apply Forall_cons in Hf as [[Hc Hc0] Hf].
  split_and!; [|done|done|lia|lia|apply u32_small; urange; lia|].
  - replace p with (p + 0%nat) by lia. by apply Hl.
  - split_and!; [lia|lia|done| |].
    + intros k x Hk. replace (p + 1 + k) with (p + S k) by lia. by apply Hl.
    + by replace (p + 1 + length l) with (p + S (length l)) by lia.
Qed.

Lemma cstr_frame m m' p l : cstr m p l -> (forall a, p <= a <= p + length l -> m' !! a = m !! a) -> cstr m' p l.
Proof.
  intros (Hp & Hb & Hf & Hl & He) Hm. split_and!; [done..| |].
  - intros k c Hk. pose proof (lookup_lt_Some _ _ _ Hk). rewrite Hm by lia. by apply Hl.
  - rewrite Hm by lia. done.
Qed.

(** A prefix of a string, cut by a null byte, and what follows the cut. *)
Lemma cstr_take m p l (n : nat) : cstr m p l -> (n <= length l)%nat -> cstr (<[p + n := 0]> m) p (take n l).
Proof.
  intros (Hp & Hb & Hf & Hl & He) Hn. assert (E : length (take n l) = n) by (rewrite length_take; lia).
  split_and!; [done|lia|by apply Forall_take| |].
  - intros k c [Hk Hkn]%lookup_take_Some. rewrite lookup_insert_ne by lia. by apply Hl.
  - rewrite E. by rewrite lookup_insert_eq.
Qed.

Lemma cstr_drop m p l (n : nat) : cstr m p l -> (n <= length l)%nat -> cstr m (p + n) (drop n l).
Proof.
  intros (Hp & Hb & Hf & Hl & He) Hn. assert (E : length (drop n l) = (length l - n)%nat) by apply length_drop.
  split_and!; [lia|lia|by apply Forall_drop| |].
  - intros k c Hk. rewrite lookup_drop in Hk. replace (p + n + k) with (p + (n + k)%nat) by lia. by apply Hl.
  - rewrite E. replace (p + n + (length l - n)%nat) with (p + length l) by lia. done.
Qed.

Lemma strlen_eq fuel m p l : cstr m p l -> (length l < fuel)%nat -> strlen fuel p m = Ret (Z.of_nat (length l), m).
Proof.
  intros H Hf. assert (Hp : 0 < p) by apply H. unfold strlen.
  rewrite (bind_run _ _ m tt m) by (unfold ASSERT; by destruct (Z.eqb_spec p 0); [lia|]).
  assert (Hgo : forall q, cstr m q l -> 0 < p <= q ->
    strlen_loop fuel p q m = Ret (q - p + length l, m)).
  { clear H. revert l Hf. induction fuel as [|fuel IH]; intros l Hf q Hq Hpq; [lia|]. cbn [strlen_loop].
    destruct l as [|c l].
    - apply cstr_nil in Hq as [Hq ?]. rewrite (bind_run _ _ _ _ _ (load_eq _ _ _ Hq)). simpl.
      unfold mret, ST_ret. do 2 f_equal. rewrite u32_small; urange; lia.
    - apply cstr_cons in Hq as (Hc & _ & Hc0 & _ & -> & Hq). rewrite (bind_run _ _ _ _ _ (load_eq _ _ _ Hc)).
      destruct (Z.eqb_spec c 0); [done|]. simpl in Hf. rewrite (IH l) by (done || lia). do 2 f_equal. simpl. lia. }
  rewrite Hgo; [|done|lia]. do 2 f_equal. lia.
Qed.

(** Where [c] is first found from [p] on; 0 if it is not. *)
Fixpoint find_char (p c : Z) (l : list Z) : Z :=
  match l with
  | [] => if c =? 0 then p else 0
  | x :: l => if x =? c then p else find_char (p + 1) c l
  end.

Lemma strchr_eq fuel m p l c : cstr m p l -> is_u8 c -> (length l < fuel)%nat ->
  strchr fuel p c m = Ret (find_char p c l, m).
Proof.
  intros H Hc Hf. assert (Hp : 0 < p) by apply H. unfold strchr. rewrite u8_small by done.
  rewrite (bind_run _ _ m tt m) by (unfold ASSERT; by destruct (Z.eqb_spec p 0); [lia|]). clear Hp.
  revert l p H Hf. induction fuel as [|fuel IH]; intros l p H Hf; [lia|]. cbn [strchr_loop]. destruct l as [|x l].
  - apply cstr_nil in H as [H ?]. rewrite (bind_run _ _ _ _ _ (load_eq _ _ _ H)). cbn [find_char].
    rewrite Z.eqb_sym. by destruct (Z.eqb_spec c 0).
  - apply cstr_cons in H as (Hx & _ & Hx0 & _ & -> & H). rewrite (bind_run _ _ _ _ _ (load_eq _ _ _ Hx)).
    cbn [find_char]. destruct (x =? c); [done|]. destruct (Z.eqb_spec x 0); [done|]. simpl in Hf. apply IH; [done|lia].
Qed.

Lemma find_char_found p c l : 0 < p -> find_char p c l =? 0 = negb ((c =? 0) || bool_decide (c ∈ l)).
Proof.
  revert p. induction l as [|x l IH]; intros p Hp; cbn [find_char].
  - rewrite bool_decide_eq_false_2 by apply not_elem_of_nil. destruct (Z.eqb_spec c 0); simpl; [apply Z.eqb_neq; lia|done].
  - destruct (Z.eqb_spec x c) as [->|Hx].
    + rewrite bool_decide_eq_true_2 by left. rewrite orb_true_r. apply Z.eqb_neq. lia.
    + rewrite IH by lia. do 2 f_equal. apply bool_decide_ext. rewrite elem_of_cons. naive_solver.
Qed.

(** ** Tokens *)

Section Tokens.
Context (D : list Z).

Definition delim (x : Z) : bool := bool_decide (x ∈ D).

(** What is left after leading delimiters, and the token at the front. *)
Fixpoint skip (l : list Z) : list Z :=
  match l with
  | [] => []
  | x :: l' => if delim x then skip l' else l
  end.
Fixpoint word (l : list Z) : list Z :=
  match l with
  | [] => []
  | x :: l' => if delim x then [] else x :: word l'
  end.

(** The maximal runs of characters that are not delimiters, in order;
    [cur] is the run being read, reversed. *)
Fixpoint tokens_from (cur l : list Z) : list (list Z) :=
  let done_ := match cur with [] => [] | _ => [rev cur] end in
  match l with
  | [] => done_
  | x :: l' => if delim x then done_ ++ tokens_from [] l' else tokens_from (x :: cur) l'
  end.
Definition tokens (l : list Z) : list (list Z) := tokens_from [] l.

Lemma skip_suffix l : exists k, (k <= length l)%nat /\ skip l = drop k l /\ length (skip l) = (length l - k)%nat.
Proof.
  induction l as [|x l (k & Hk & E & L)]; [by exists O|]. cbn [skip]. destruct (delim x).
  - exists (S k). simpl. split_and!; [lia|done|lia].
  - exists O. simpl. split_and!; [lia|done|lia].
Qed.

Lemma word_prefix l : exists k, (k <= length l)%nat /\ word l = take k l /\ length (word l) = k /\
  (forall x, l !! k = Some x -> delim x = true).
Proof.
  induction l as [|x l (k & Hk & E & L & H)]; [by exists O|]. cbn [word]. destruct (delim x) eqn:Ex.
  - exists O. simpl. split_and!; [lia|done|done|]. by intros ? [= <-].
  - exists (S k). simpl. split_and!; [lia|by rewrite E|by rewrite L|done].
Qed.

Lemma skip_head l x r : skip l = x :: r -> delim x = false.
Proof. induction l as [|y l IH]; [done|]. cbn [skip]. destruct (delim y) eqn:E; [done|]. by intros [= <- _]. Qed.

Lemma tokens_skip l : tokens l = tokens (skip l).
Proof.
  unfold tokens. induction l as [|x l IH]; [done|]. cbn [skip tokens_from]. destruct (delim x) eqn:E; [done|].
  cbn [tokens_from]. by rewrite E.
Qed.

Lemma tokens_from_word cur l : cur <> [] ->
  tokens_from cur l = (rev cur ++ word l) :: tokens (drop (S (length (word l))) l).
Proof.
  revert cur. induction l as [|x l IH]; intros cur Hc; cbn [word tokens_from].
  - destruct cur; [done|]. by rewrite app_nil_r.
  - destruct (delim x) eqn:E.
    + cbn [length drop]. destruct cur; [done|]. by rewrite app_nil_r.
    + rewrite IH by done. cbn [length drop rev]. by rewrite <- app_assoc.
Qed.

Lemma tokens_word x l : delim x = false ->
  tokens (x :: l) = word (x :: l) :: tokens (drop (S (length (word (x :: l)))) (x :: l)).
Proof.
  intros E. unfold tokens at 1. cbn [tokens_from]. rewrite E. rewrite tokens_from_word by done.
  cbn [word]. rewrite E. done.
Qed.
End Tokens.

Section Tokenizer.
Context (d : Z) (D : list Z).

Lemma strchr_delim fuel m x : cstr m d D -> is_u8 x -> (length D < fuel)%nat ->
  exists p, strchr fuel d x m = Ret (p, m) /\ (p =? 0) = negb ((x =? 0) || delim D x).
Proof.
  intros H Hx Hf. exists (find_char d x D). split; [by apply strchr_eq|]. apply find_char_found. apply H.
Qed.

Lemma skip_delimiters_eq fuel m s l : cstr m d D -> cstr m s l -> (length l + length D < fuel)%nat ->
  skip_delimiters fuel s d m =
    Ret ((s + (length l - length (skip D l))%nat, match skip D l with [] => false | _ => true end), m).
Proof.
  intros Hd. revert s l. induction fuel as [|fuel IH]; intros s l H Hf; [lia|]. cbn [skip_delimiters].
  destruct l as [|x l].
  - apply cstr_nil in H as [H ?]. rewrite (bind_run _ _ _ _ _ (load_eq _ _ _ H)).
    destruct (strchr_delim (S fuel) m 0 Hd) as (p & E & Ep); [done|lia|]. rewrite (bind_run _ _ _ _ _ E), Ep. simpl.
    by rewrite Z.add_0_r.
  - apply cstr_cons in H as (Hx & Hu & Hx0 & _ & -> & H). rewrite (bind_run _ _ _ _ _ (load_eq _ _ _ Hx)).
    destruct (strchr_delim (S fuel) m x Hd) as (p & E & Ep); [done|lia|]. rewrite (bind_run _ _ _ _ _ E), Ep.
    destruct (Z.eqb_spec x 0); [done|]. cbn [orb skip]. rewrite negb_involutive. destruct (delim D x).
    + simpl in Hf. rewrite (IH _ l) by (done || lia). do 3 f_equal.
      destruct (skip_suffix D l) as (k & ? & _ & L). cbn [length]. lia.
    + unfold mret, ST_ret. do 3 f_equal. lia.
Qed.

Lemma skip_token_eq fuel m s l : cstr m d D -> cstr m s l -> (length l + length D < fuel)%nat ->
  skip_token fuel s d m = Ret (s + length (word D l), m).
Proof.
  intros Hd. revert s l. induction fuel as [|fuel IH]; intros s l H Hf; [lia|]. cbn [skip_token].
  destruct l as [|x l].
  - apply cstr_nil in H as [H ?]. rewrite (bind_run _ _ _ _ _ (load_eq _ _ _ H)).
    destruct (strchr_delim (S fuel) m 0 Hd) as (p & E & Ep); [done|lia|]. rewrite (bind_run _ _ _ _ _ E), Ep. simpl.
    by rewrite Z.add_0_r.
  - apply cstr_cons in H as (Hx & Hu & Hx0 & _ & -> & H). rewrite (bind_run _ _ _ _ _ (load_eq _ _ _ Hx)).
    destruct (strchr_delim (S fuel) m x Hd) as (p & E & Ep); [done|lia|]. rewrite (bind_run _ _ _ _ _ E), Ep.
    destruct (Z.eqb_spec x 0); [done|]. cbn [orb word]. destruct (delim D x); cbn [negb].
    + unfold mret, ST_ret. simpl. by rewrite Z.add_0_r.
    + simpl in Hf. rewrite (IH _ l) by (done || lia). do 2 f_equal. cbn [length]. lia.
Qed.

(** One call, on the string [l] at [s]. *)
Lemma strtok_r_eq fuel m s save s0 l : cstr m d D -> s0 = (if s =? 0 then save else s) -> cstr m s0 l ->
  (length l + length D < fuel)%nat ->
  match skip D l with
  | [] => strtok_r fuel s d save m = Ret ((0, s0 + length l), m)
  | r => let t := word D r in
         let tok := s0 + (length l - length r)%nat in
         let rest := drop (S (length t)) r in
         exists save', strtok_r fuel s d save m = Ret ((tok, save'), <[tok + length t := 0]> m) /\
           s0 <= tok /\ tok + length t <= s0 + length l /\ save' + length rest = s0 + length l /\ 0 < save' /\
           cstr (<[tok + length t := 0]> m) tok t /\ cstr (<[tok + length t := 0]> m) save' rest /\
           tok + length t <= save' /\ (save' = tok + length t -> rest = [])
  end.
Proof.
  intros Hd Es H Hf. assert (Hd0 : 0 < d) by apply Hd. assert (Hs0 : 0 < s0) by apply H.
  assert (Hbegin : forall Q, (r ← skip_delimiters fuel s0 d; Q r) m = strtok_r fuel s d save m ->
    strtok_r fuel s d save m =
    Q (s0 + (length l - length (skip D l))%nat, match skip D l with [] => false | _ => true end) m).
  { intros Q <-. by rewrite (bind_run _ _ _ _ _ (skip_delimiters_eq fuel m s0 l Hd H Hf)). }
  erewrite Hbegin.
  2: { unfold strtok_r. rewrite (bind_run _ _ m tt m) by (unfold ASSERT; by destruct (Z.eqb_spec d 0); [lia|]).
       rewrite <- Es. rewrite (bind_run _ _ m tt m) by (unfold ASSERT; by destruct (Z.eqb_spec s0 0); [lia|]).
       reflexivity. }
  clear Hbegin. destruct (skip_suffix D l) as (k & Hk & Ek & Lk).
  destruct (skip D l) as [|x r] eqn:Er; cbv beta iota zeta.
  { simpl. by rewrite Nat.sub_0_r. }
  set (tok := s0 + (length l - length (x :: r))%nat).
  assert (Htok : cstr m tok (x :: r)).
  { subst tok. rewrite Lk, Ek. replace (length l - (length l - k))%nat with k by lia. by apply cstr_drop. }
  rewrite (bind_run _ _ _ _ _ (skip_token_eq fuel m tok (x :: r) Hd Htok ltac:(lia))).
  destruct (word_prefix D (x :: r)) as (n & Hn & En & Ln & Hdl). rewrite Ln. set (q := tok + n).
  assert (Hcut := cstr_take m tok (x :: r) n Htok Hn). rewrite <- En in Hcut.
  pose proof Htok as (Ht1 & Ht2 & Hfa & Hlk & Hend).
  destruct ((x :: r) !! n) as [y|] eqn:Ey.
  - assert (Hy : m !! q = Some y) by by apply Hlk. rewrite (bind_run _ _ _ _ _ (load_eq _ _ _ Hy)).
    assert (Hlt := lookup_lt_Some _ _ _ Ey). rewrite Forall_lookup in Hfa. destruct (Hfa n y Ey) as [_ Hy0].
    destruct (Z.eqb_spec y 0); [done|]. cbn [negb].
    assert (Est := store_eq m q 0 (ltac:(by exists y))). rewrite (bind_run _ _ _ _ _ Est).
    assert (Eq : q +u 1 = q + 1) by (apply u32_small; urange; lia). rewrite Eq. exists (q + 1).
    assert (Lrest : length (drop (S n) (x :: r)) = (length (x :: r) - S n)%nat) by apply length_drop.
    split_and!; [done|lia|lia|lia|lia|done| |lia|lia].
    apply (cstr_frame m); [|intros a Ha; rewrite lookup_insert_ne by lia; done].
    replace (q + 1) with (tok + S n) by lia. by apply cstr_drop.
  - apply lookup_ge_None in Ey. assert (n = length (x :: r)) as Hnl by lia.
    assert (Hy : m !! q = Some 0) by (subst q; by rewrite Hnl). rewrite (bind_run _ _ _ _ _ (load_eq _ _ _ Hy)).
    cbn [Z.eqb negb]. exists q. rewrite (drop_ge (x :: r) (S n)) by lia. rewrite insert_id in * by done.
    split_and!; [done|lia|lia|simpl; lia|lia|done| |lia|done].
    replace (@nil Z) with (drop n (x :: r)) by (apply drop_ge; lia). by apply cstr_drop.
Qed.
End Tokenizer.

(** The whole loop: later calls leave the tokens already found alone. *)
Lemma strtok_all_eq d D fuel m s save s0 l : cstr m d D -> s0 = (if s =? 0 then save else s) -> cstr m s0 l ->
  d + length D < s0 \/ s0 + length l < d -> (length l + length D < fuel)%nat ->
  exists ts m', strtok_all fuel s d save m = Ret (ts, m') /\ Forall2 (cstr m') ts (tokens D l) /\
    (forall a, a < s0 \/ s0 + length l <= a -> m' !! a = m !! a) /\
    Forall2 (fun t w => s0 <= t /\ t + length w <= s0 + length l) ts (tokens D l).
Proof.
  revert m s save s0 l. induction fuel as [|fuel IH]; intros m s save s0 l Hd Es H Hdis Hf; [lia|]. cbn [strtok_all].
  rewrite tokens_skip. pose proof (strtok_r_eq d D (S fuel) m s save s0 l Hd Es H Hf) as Hr.
  destruct (skip D l) as [|x r] eqn:Er; cbv zeta in Hr.
  - rewrite (bind_run _ _ _ _ _ Hr). exists [], m. split_and!; [done|constructor|done|constructor].
  - destruct Hr as (save' & E & H1 & H2 & H3 & H4 & Ht & Hrest & H5 & H6). rewrite (bind_run _ _ _ _ _ E).
    pose proof (skip_head D l x r Er) as Hx. destruct H as (H0 & _ & _ & _ & Hnul).
    set (t := word D (x :: r)) in *. set (tok := s0 + (length l - length (x :: r))%nat) in *. set (rest := drop (S (length t)) (x :: r)) in *.
    destruct (Z.eqb_spec tok 0); [lia|].
    assert (Hlr : (length rest < length l)%nat).
    { subst rest. rewrite length_drop. destruct (skip_suffix D l) as (k & ? & _ & L). rewrite Er in L. simpl in *. lia. }
    destruct (IH (<[tok + length t := 0]> m) 0 save' save' rest) as (ts & m' & E' & Hts & Hfr & Hrg).
    + eapply cstr_frame; [exact Hd|]. intros a Ha. rewrite lookup_insert_ne by lia. done.
    + done.
    + done.
    + lia.
    + lia.
    + exists (tok :: ts), m'. rewrite (bind_run _ _ _ _ _ E'). split_and!; [done| | |].
      * rewrite tokens_word by done. constructor; [|done]. eapply cstr_frame; [exact Ht|].
        intros a Ha. fold t in Ha. apply Hfr. destruct (decide (a < save')) as [|Hge]; [by left|right].
        rewrite H6 by lia. simpl. lia.
      * intros a Ha. rewrite Hfr by lia. rewrite lookup_insert. case_decide as Ea; [|done].
        assert (a = s0 + length l) as -> by lia. by rewrite Hnul.
      * rewrite tokens_word by done. constructor; [by split|]. eapply Forall2_impl; [exact Hrg|]. simpl. intros. lia.
Qed.

(** ** Comparing and copying *)

Fixpoint str_compare (la lb : list Z) : Z :=
  match la, lb with
  | [], [] => 0
  | [], _ => -1
  | _, [] => 1
  | x :: la, y :: lb => if x =? y then str_compare la lb else if x <? y then -1 else 1
  end.

Lemma str_compare_eq la lb : str_compare la lb = 0 <-> la = lb.
Proof.
  revert lb. induction la as [|x la IH]; intros [|y lb]; simpl; try done.
  destruct (Z.eqb_spec x y) as [->|Hn]; [rewrite IH; naive_solver|].
  split; [destruct (x <? y); discriminate|congruence].
Qed.

Lemma strcmp_eq fuel m a b la lb : cstr m a la -> cstr m b lb -> (length la < fuel)%nat ->
  strcmp fuel a b m = Ret (str_compare la lb, m).
Proof.
  intros Ha Hb Hf. assert (0 < a) by apply Ha. assert (0 < b) by apply Hb. unfold strcmp.
  rewrite (bind_run _ _ m tt m) by (unfold ASSERT; by destruct (Z.eqb_spec a 0); [lia|]).
  rewrite (bind_run _ _ m tt m) by (unfold ASSERT; by destruct (Z.eqb_spec b 0); [lia|]).
  revert a b la lb Ha Hb Hf H H0. induction fuel as [|fuel IH]; intros a b la lb Ha Hb Hf H H0; [lia|].
  cbn [strcmp_loop].
  assert (Hload : forall v w (k : Z -> Z -> ST memory Z), m !! a = Some v -> m !! b = Some w ->
    (x ← load a; y ← load b; k x y) m = k v w m).
  { intros v w k Hv Hw. rewrite (bind_run _ _ _ _ _ (load_eq _ _ _ Hv)). by rewrite (bind_run _ _ _ _ _ (load_eq _ _ _ Hw)). }
  destruct la as [|x la]; [apply cstr_nil in Ha as [Ha _]|apply cstr_cons in Ha as (Ha & Hx & Hx0 & _ & -> & Ha')];
  (destruct lb as [|y lb]; [apply cstr_nil in Hb as [Hb _]|apply cstr_cons in Hb as (Hb & Hy & Hy0 & _ & -> & Hb')]);
  rewrite (Hload _ _ _ Ha Hb); cbn [str_compare].
  - done.
  - destruct (Z.ltb_spec 0 y); [done|]. urange. lia.
  - urange. unfold mret, ST_ret. zcases; simpl; lia || done.
  - destruct (Z.eqb_spec x 0); [done|]. destruct (Z.eqb_spec x y); cbn [negb andb].
    + simpl in Hf. apply IH; done || lia.
    + unfold mret, ST_ret. zcases; simpl; lia || done.
Qed.

Lemma memcpy_eq m dst src n : 0 <= n -> mapped m dst n -> mapped m src n -> dst < src \/ src + n <= dst ->
  exists m', memcpy dst src n m = Ret (dst, m') /\ copied m dst src n m'.
Proof.
  intros Hn Hd Hs Hov. assert (0 < dst) by apply Hd. assert (0 < src) by apply Hs.
  unfold memcpy, not_null.
  rewrite (bind_run _ _ m tt m) by (unfold ASSERT; by destruct (Z.eqb_spec dst 0); [lia|]).
  rewrite (bind_run _ _ m tt m) by (unfold ASSERT; by destruct (Z.eqb_spec src 0); [lia|]).
  destruct (memcpy_loop_eq (Z.to_nat n) m dst src) as (m' & E & Hc); rewrite ?Z2Nat.id in * by lia; [done..|].
  exists m'. by rewrite (bind_run _ _ _ _ _ E).
Qed.

Lemma cstr_mapped m p l n : cstr m p l -> n <= length l + 1 -> mapped m p n.
Proof.
  intros (H1 & H2 & _ & H3 & H4) Hn. split_and!; [done|lia|]. intros a Ha.
  destruct (decide (a = p + length l)) as [->|]; [by eexists|].
  destruct (lookup_lt_is_Some_2 l (Z.to_nat (a - p))) as [c Hc]; [lia|].
  apply H3 in Hc. exists c. rewrite <- Hc. f_equal. lia.
Qed.

(** ** Properties *)

(** [memmove] copies a block correctly whether or not the source and
    the destination overlap, changing nothing else; what it returns is the
    end of the destination, and not its start, when it copied upwards. *)
Theorem memmove_correct (m : memory) (dst src size : Z) :
  0 <= size -> mapped m dst size -> mapped m src size ->
  exists m', memmove dst src size m = Ret (if dst <? src then dst + size else dst, m') /\ copied m dst src size m'.
Proof.
  intros Hn Hd Hs. pose proof Hd as (Hd1 & Hd2 & _). pose proof Hs as (Hs1 & Hs2 & _).
  unfold memmove, not_null.
  rewrite (bind_run _ _ m tt m) by (unfold ASSERT; by destruct (Z.eqb_spec dst 0); [lia|]).
  rewrite (bind_run _ _ m tt m) by (unfold ASSERT; by destruct (Z.eqb_spec src 0); [lia|]).
  rewrite !u32_small by (urange; lia). destruct (Z.ltb_spec dst src).
  - destruct (memcpy_loop_eq (Z.to_nat size) m dst src) as (m' & E & Hc); rewrite ?Z2Nat.id in * by lia; [done|done|lia|].
    exists m'. by rewrite (bind_run _ _ _ _ _ E).
  - destruct (memmove_down_eq (Z.to_nat size) m dst src) as (m' & E & Hc); rewrite ?Z2Nat.id in * by lia; [done|done|lia|].
    exists m'. by rewrite (bind_run _ _ _ _ _ E).
Qed.

(** the loop over [strtok_r] returns pointers to exactly the maximal
    runs of non-delimiter characters of the string, in order, each of them a
    null-terminated string in the memory the loop leaves, and touches no
    byte outside the string. *)
Theorem strtok_r_tokenizes (fuel : nat) (m : memory) (s d : Z) (l D : list Z) :
  cstr m s l -> cstr m d D -> d + length D < s \/ s + length l < d -> (length l + length D < fuel)%nat ->
  exists ts m', strtok_all fuel s d 0 m = Ret (ts, m') /\ Forall2 (cstr m') ts (tokens D l) /\
    forall a, a < s \/ s + length l <= a -> m' !! a = m !! a.
Proof.
  intros Hs Hd Hdis Hf. destruct (strtok_all_eq d D fuel m s 0 s l) as (ts & m' & ? & ? & ? & _); [done| |done..|by eauto].
  destruct Hs as (? & _). destruct (Z.eqb_spec s 0); [lia|done].
Qed.

(** [strlcpy] never writes past the size it is given, always leaves a
    null-terminated string there, which is as much of the source as fits,
    and returns the length of the source. *)
Theorem strlcpy_correct (fuel : nat) (m : memory) (dst src size : Z) (l : list Z) :
  cstr m src l -> 0 < size -> mapped m dst size -> dst + size <= src \/ src + length l < dst -> (length l < fuel)%nat ->
  exists m', strlcpy fuel dst src size m = Ret (Z.of_nat (length l), m') /\
    cstr m' dst (take (Z.to_nat (size - 1)) l) /\
    forall a, a < dst \/ dst + size <= a -> m' !! a = m !! a.
Proof.
  intros H Hsz Hd Hdis Hf. pose proof H as (Hs1 & Hs2 & Hfa & Hlk & Hnul). pose proof Hd as (Hd1 & Hd2 & Hd3).
  unfold strlcpy. rewrite (bind_run _ _ m tt m) by (unfold ASSERT; by destruct (Z.eqb_spec dst 0); [lia|]).
  rewrite (bind_run _ _ m tt m) by (unfold ASSERT; by destruct (Z.eqb_spec src 0); [lia|]).
  rewrite (bind_run _ _ _ _ _ (strlen_eq fuel m src l H Hf)). rewrite (u32_small (size - 1)) by (urange; lia).
  destruct (Z.ltb_spec 0 size); [|lia]. cbn [when]. set (n := if _ <? _ then _ else _).
  assert (Hn : 0 <= n <= length l /\ n < size /\ n = Z.min (length l) (size - 1)) by (subst n; zcases; lia).
  destruct (memcpy_eq m dst src n) as (m1 & E & Hc); [lia| |apply (cstr_mapped m src l); [done|lia]|lia|].
  { split_and!; [done|lia|]. intros a Ha. apply Hd3. lia. }
  assert (Est : store (dst +u n) 0 m1 = Ret (tt, <[dst + n := 0]> m1)).
  { rewrite u32_small by (urange; lia). apply store_eq. rewrite Hc. zcases; simpl; try lia; apply Hd3; lia. }
  exists (<[dst + n := 0]> m1). split_and!.
  - rewrite (bind_run _ _ m tt (<[dst + n := 0]> m1)); [done|]. rewrite (bind_run _ _ _ _ _ E). done.
  - assert (Lt : Z.of_nat (length (take (Z.to_nat (size - 1)) l)) = n) by (rewrite length_take; lia).
    split_and!; [done|lia|by apply Forall_take| |by rewrite Lt, lookup_insert_eq].
    intros k c [Hk Hkn]%lookup_take_Some. pose proof (lookup_lt_Some _ _ _ Hk).
    rewrite lookup_insert_ne by lia. rewrite Hc. zcases; simpl; try lia.
    rewrite <- (Hlk k c Hk). f_equal. lia.
  - intros a Ha. rewrite lookup_insert_ne by lia. rewrite Hc. zcases; simpl; lia || done.
Qed.

(** Memory with "  ab c" at 10 and " " at 40. *)
Definition demo_memory : memory :=
  list_to_map (zip (seqZ 10 7) [32; 32; 97; 98; 32; 99; 0] ++ zip (seqZ 40 2) [32; 0]).

Lemma demo_string : cstr demo_memory 10 [32; 32; 97; 98; 32; 99].
Proof.
  split_and!; [done|done|repeat constructor; done| |done].
  intros k c Hk. do 6 (destruct k as [|k]; [injection Hk as <-; reflexivity|]). done.
Qed.

Lemma demo_delimiters : cstr demo_memory 40 [32].
Proof.
  split_and!; [done|done|repeat constructor; done| |done].
  intros k c Hk. destruct k as [|k]; [injection Hk as <-; reflexivity|done].
Qed.

Lemma demo_mapped p n : 10 <= p -> p + n <= 17 -> mapped demo_memory p n.
Proof.
  intros Hp Hn. split_and!; [lia|lia|]. intros a Ha.
  assert (Hs := cstr_mapped _ _ _ 7 demo_string ltac:(done)). destruct Hs as (_ & _ & Hs). apply Hs. lia.
Qed.

Lemma memmove_correct_witness :
  exists m', memmove 10 12 4 demo_memory = Ret (14, m') /\ copied demo_memory 10 12 4 m'.
Proof. apply (memmove_correct demo_memory 10 12 4); [discriminate|apply demo_mapped; discriminate..]. Defined.

Lemma strtok_r_tokenizes_witness :
  exists ts m', strtok_all 20 10 40 0 demo_memory = Ret (ts, m') /\
    Forall2 (cstr m') ts [[97; 98]; [99]] /\ forall a, a < 10 \/ 16 <= a -> m' !! a = demo_memory !! a.
Proof.
  apply (strtok_r_tokenizes 20 demo_memory 10 40 [32; 32; 97; 98; 32; 99] [32]);
    [apply demo_string|apply demo_delimiters|right; reflexivity|simpl; lia].
Defined.

Lemma strlcpy_correct_witness :
  exists m', strlcpy 20 12 40 5 demo_memory = Ret (1, m') /\ cstr m' 12 [32] /\
    forall a, a < 12 \/ 17 <= a -> m' !! a = demo_memory !! a.
Proof.
  apply (strlcpy_correct 20 demo_memory 12 40 5 [32]);
    [apply demo_delimiters|reflexivity|apply demo_mapped; discriminate|left; discriminate|simpl; lia].
Defined.
