(* ===== verification/CStdlib.v ===== *)
(** * General utilities: lib/stdlib.c and lib/ctype.h

    Heap sort and binary search of an array of [cnt] elements of [size]
    bytes in memory, through a comparison function given by the caller, and
    [atoi].  Indices of the heap count from 1.  The loop of [heapify] moves
    to a larger index at every turn and that of [binary_search] to a smaller
    range, so [cnt] turns and the last test are enough. *)

From S2P Require Import Prelude CString.

(** ** Characters *)

Definition islower (c : Z) : bool := (97 <=? c) && (c <=? 122).
Definition isupper (c : Z) : bool := (65 <=? c) && (c <=? 90).
Definition isalpha (c : Z) : bool := islower c || isupper c.
Definition isdigit (c : Z) : bool := (48 <=? c) && (c <=? 57).
Definition isalnum (c : Z) : bool := isalpha c || isdigit c.
Definition isxdigit (c : Z) : bool := isdigit c || ((97 <=? c) && (c <=? 102)) || ((65 <=? c) && (c <=? 70)).
Definition isspace (c : Z) : bool :=
  (c =? 32) || (c =? 12) || (c =? 10) || (c =? 13) || (c =? 9) || (c =? 11).
Definition isprint (c : Z) : bool := (32 <=? c) && (c <? 127).
Definition tolower (c : Z) : Z := if isupper c then c - 65 + 97 else c.
Definition toupper (c : Z) : Z := if islower c then c - 97 + 65 else c.

(** A byte read as a [char], which is signed. *)
Definition schar (b : Z) : Z := if b <? 128 then b else b - 256.

(** ** Numbers *)

Fixpoint skip_spaces (fuel : nat) (s : Z) : ST memory Z :=
  match fuel with
  | O => no_fuel
  | S fuel => b ← load s; if isspace b then skip_spaces fuel (s +u 1) else mret s
  end.

Fixpoint atoi_digits (fuel : nat) (s value : Z) : ST memory Z :=
  match fuel with
  | O => no_fuel
  | S fuel =>
    b ← load s;
    if isdigit (schar b) then atoi_digits fuel (s +u 1) (s32 (value * 10 - (schar b - 48)))
    else mret value
  end.

Definition atoi (fuel : nat) (s : Z) : ST memory Z :=
  ASSERT (negb (s =? 0));;
  s ← skip_spaces fuel s;
  b ← load s;
  let negative := b =? 45 in
  let s := if (b =? 43) || (b =? 45) then s +u 1 else s in
  value ← atoi_digits fuel s 0;
  mret (if negb negative then s32 (- value) else value).

(** ** Sorting *)

Section Sort.
Context (compare : Z -> Z -> ST memory Z).

(** The byte loop of [do_swap], [n] bytes from [a] and [b] on. *)
Fixpoint swap_bytes (n : nat) (a b : Z) : ST memory unit :=
  match n with
  | O => mret tt
  | S n =>
    t ← load a; u ← load b;
    store a u;; store b t;;
    swap_bytes n (a +u 1) (b +u 1)
  end.

Definition do_swap (array a_idx b_idx size : Z) : ST memory unit :=
  let a := array +u (a_idx -u 1) *u size in
  let b := array +u (b_idx -u 1) *u size in
  swap_bytes (Z.to_nat size) a b.

Definition do_compare (array a_idx b_idx size : Z) : ST memory Z :=
  compare (array +u (a_idx -u 1) *u size) (array +u (b_idx -u 1) *u size).

Fixpoint heapify_loop (fuel : nat) (array i cnt size : Z) : ST memory unit :=
  match fuel with
  | O => no_fuel
  | S fuel =>
    let left := 2 *u i in
    let right := 2 *u i +u 1 in
    max ← (if left <=? cnt then
             c ← do_compare array left i size;
             mret (if 0 <? c then left else i)
           else mret i);
    max ← (if right <=? cnt then
             c ← do_compare array right max size;
             mret (if 0 <? c then right else max)
           else mret max);
    if max =? i then mret tt
    else
      do_swap array i max size;;
      heapify_loop fuel array max cnt size
  end.

Definition heapify (array i cnt size : Z) : ST memory unit :=
  heapify_loop (S (Z.to_nat cnt)) array i cnt size.

(** The loop that builds the heap, from index [i] down to 1. *)
Fixpoint build_heap (i : nat) (array cnt size : Z) : ST memory unit :=
  match i with
  | O => mret tt
  | S i' => heapify array i cnt size;; build_heap i' array cnt size
  end.

(** The loop that takes the largest element off the heap, [i] down to 2. *)
Fixpoint sort_heap (i : nat) (array size : Z) : ST memory unit :=
  match i with
  | S (S _ as i') =>
    do_swap array 1 i size;;
    heapify array 1 (i -u 1) size;;
    sort_heap i' array size
  | _ => mret tt
  end.

Definition sort (array cnt size : Z) : ST memory unit :=
  ASSERT (negb (array =? 0) || (cnt =? 0));;
  ASSERT (0 <? size);;
  build_heap (Z.to_nat (cnt / 2)) array cnt size;;
  sort_heap (Z.to_nat cnt) array size.

(** ** Searching *)

Fixpoint search_loop (fuel : nat) (key first last size : Z) : ST memory Z :=
  match fuel with
  | O => no_fuel
  | S fuel =>
    if first <? last then
      let range := (last - first) / size in
      let middle := first +u (range / 2) *u size in
      cmp ← compare key middle;
      if cmp <? 0 then search_loop fuel key first middle size
      else if 0 <? cmp then search_loop fuel key (middle +u size) last size
      else mret middle
    else mret 0
  end.

Definition binary_search (key array cnt size : Z) : ST memory Z :=
  search_loop (S (Z.to_nat cnt)) key array (array +u size *u cnt) size.
End Sort.

(** [qsort] and [bsearch] pass [compare] through [compare_thunk]. *)
Definition qsort (array cnt size : Z) (compare : Z -> Z -> ST memory Z) : ST memory unit := sort compare array cnt size.
Definition bsearch (key array cnt size : Z) (compare : Z -> Z -> ST memory Z) : ST memory Z :=
  binary_search compare key array cnt size.
