(* ===== verification/CStdlibProps.v ===== *)
(** * General utilities: correctness

    Heap sort is shown on sequences first, then on the bytes of the array. *)

From S2P Require Import Prelude CString CStringProps CStdlib.

(** What stdlib.h asks of a comparison function: a "strcmp()-type result",
    that is, the sign of a total preorder. *)
Class Comparison {A : Type} (cmp : A -> A -> Z) : Prop := {
  cmp_sym a b : 0 < cmp a b <-> cmp b a < 0;
  cmp_trans a b c : cmp a b <= 0 -> cmp b c <= 0 -> cmp a c <= 0;
}.

(** ** Heaps of sequences *)

Section Heap.
Context {A : Type} (d : A) (cmp : A -> A -> Z) `{!Comparison cmp}.
Implicit Types l : list A.

Definition le (a b : A) : Prop := cmp a b <= 0.

Lemma le_refl a : le a a.
Proof. unfold le. pose proof (cmp_sym a a). lia. Qed.
Lemma le_of_gt a b : 0 < cmp a b -> le b a.
Proof. unfold le. rewrite cmp_sym. lia. Qed.
Lemma le_of_not_gt a b : ~ 0 < cmp a b -> le a b.
Proof. unfold le. lia. Qed.
Lemma le_trans a b c : le a b -> le b c -> le a c.
Proof. apply cmp_trans. Qed.

(** The element with index [i], counted from 1. *)
Definition at_ l (i : Z) : A := nth (Z.to_nat (i - 1)) l d.

(** The elements with indices [i] and [j] exchanged. *)
Definition exchange l (i j : Z) : list A :=
  <[Z.to_nat (i - 1) := at_ l j]> (<[Z.to_nat (j - 1) := at_ l i]> l).

Lemma at_exchange l i j k : 1 <= i <= length l -> 1 <= j <= length l -> 1 <= k ->
  at_ (exchange l i j) k = if k =? i then at_ l j else if k =? j then at_ l i else at_ l k.
Proof.
  intros Hi Hj Hk. unfold exchange, at_ at 1. rewrite nth_lookup, !list_lookup_insert.
  repeat case_decide; zcases; try lia; try done. all: rewrite length_insert in *; try lia.
  all: try by rewrite <- nth_lookup.
Qed.

Lemma exchange_length l i j : length (exchange l i j) = length l.
Proof. unfold exchange. by rewrite !length_insert. Qed.

Lemma exchange_perm l i j : 1 <= i <= length l -> 1 <= j <= length l -> exchange l i j ≡ₚ l.
Proof.
  intros Hi Hj. assert (Hs : forall k, 1 <= k <= length l -> l !! Z.to_nat (k - 1) = Some (at_ l k)).
  { intros k Hk. destruct (lookup_lt_is_Some_2 l (Z.to_nat (k - 1))) as [x Hx]; [lia|].
    rewrite Hx. unfold at_. by rewrite nth_lookup, Hx. }
  apply Permutation_inj. split; [apply exchange_length|].
  exists (fun n => if decide (n = Z.to_nat (i - 1)) then Z.to_nat (j - 1)
                   else if decide (n = Z.to_nat (j - 1)) then Z.to_nat (i - 1) else n).
  split.
  - intros x y. repeat case_decide; lia.
  - intros n. unfold exchange. rewrite !list_lookup_insert, length_insert.
    repeat case_decide; try lia; try done; subst; try (by rewrite Hs by lia); lia.
Qed.

(** Every element at an index from 2 to [cnt] whose parent is at [lo] or
    above is at most its parent, except for the children of [i]. *)
Definition heap_but l (lo cnt i : Z) : Prop := forall j, 2 <= j <= cnt -> lo <= j / 2 -> j / 2 <> i -> le (at_ l j) (at_ l (j / 2)).
Definition heap l (lo cnt : Z) : Prop := forall j, 2 <= j <= cnt -> lo <= j / 2 -> le (at_ l j) (at_ l (j / 2)).

(** What [heapify] is given: a heap but for the children of [i], which are
    at most the parent of [i]. *)
Definition heap_at l (lo cnt i : Z) : Prop :=
  heap_but l lo cnt i /\ (lo <= i / 2 -> forall j, 2 <= j <= cnt -> j / 2 = i -> le (at_ l j) (at_ l (i / 2))).

(** The larger of the element [i] and its children. *)
Definition heap_max l (cnt i : Z) : Z :=
  let m := if (2 * i <=? cnt) && (0 <? cmp (at_ l (2 * i)) (at_ l i)) then 2 * i else i in
  if (2 * i + 1 <=? cnt) && (0 <? cmp (at_ l (2 * i + 1)) (at_ l m)) then 2 * i + 1 else m.

Lemma heap_max_spec l cnt i : 1 <= i -> let m := heap_max l cnt i in
  (m = i \/ (m = 2 * i \/ m = 2 * i + 1) /\ m <= cnt) /\ le (at_ l i) (at_ l m) /\
  forall j, 2 <= j <= cnt -> j / 2 = i -> le (at_ l j) (at_ l m).
Proof.
  intros Hi m.
  assert (Hj : forall j, j / 2 = i -> j = 2 * i \/ j = 2 * i + 1)
    by (intros j E; pose proof (Z.div_mod j 2); pose proof (Z.mod_pos_bound j 2); lia).
  set (m1 := if (2 * i <=? cnt) && (0 <? cmp (at_ l (2 * i)) (at_ l i)) then 2 * i else i).
  assert (H1 : (m1 = i \/ m1 = 2 * i /\ 2 * i <= cnt) /\ le (at_ l i) (at_ l m1) /\
    (2 * i <= cnt -> le (at_ l (2 * i)) (at_ l m1))).
  { unfold m1. zcases; simpl; split_and!; eauto using le_refl, le_of_gt, le_of_not_gt; try lia. }
  destruct H1 as (Ha & Hb & Hc). unfold m, heap_max. fold m1. split_and!.
  - zcases; simpl; lia.
  - zcases; simpl; try done. eapply le_trans; [exact Hb|]. by apply le_of_gt.
  - intros j Hj2 [-> | ->]%Hj; zcases; simpl; try lia; eauto using le_refl, le_of_not_gt.
    + eapply le_trans; [apply Hc; lia|]. by apply le_of_gt.
    + apply Hc. lia.
    + apply Hc. lia.
    + apply Hc. lia.
Qed.

(** The step of [heapify] that moves down. *)
Lemma heap_at_step l lo cnt i : 1 <= lo <= i -> i <= cnt <= length l -> heap_at l lo cnt i ->
  let m := heap_max l cnt i in m <> i -> heap_at (exchange l i m) lo cnt m.
Proof.
  intros Hlo Hi [Hb Hg] m Hm. destruct (heap_max_spec l cnt i ltac:(lia)) as ([|[Hmi Hmc]] & Hle & Hmax); [done|].
  fold m in Hmi, Hmc, Hle, Hmax. assert (Hm2 : m / 2 = i) by (destruct Hmi as [->| ->]; Z.to_euclidean_division_equations; lia).
  assert (Hd : forall j, 2 <= j -> 1 <= j / 2 < j) by (intros; Z.to_euclidean_division_equations; lia).
  split.
  - intros j Hj Hlj Hne. pose proof (Hd j ltac:(lia)). rewrite !at_exchange by lia. destruct (Z.eqb_spec (j / 2) i) as [E|E].
    + destruct (Z.eqb_spec j i); [lia|]. destruct (Z.eqb_spec j m); [exact Hle|]. by apply Hmax.
    + destruct (Z.eqb_spec (j / 2) m); [done|]. destruct (Z.eqb_spec j i) as [->|].
      * apply Hg; lia.
      * destruct (Z.eqb_spec j m); [congruence|]. by apply Hb.
  - intros _ j Hj E. pose proof (Hd j ltac:(lia)). rewrite Hm2, !at_exchange by lia. rewrite Z.eqb_refl.
    destruct (Z.eqb_spec j i); [lia|]. destruct (Z.eqb_spec j m); [lia|]. rewrite <- E. apply Hb; lia.
Qed.

Lemma heap_at_done l lo cnt i : 1 <= lo <= i -> heap_at l lo cnt i -> heap_max l cnt i = i -> heap l lo cnt.
Proof.
  intros Hlo [Hb _] E j Hj Hl. destruct (decide (j / 2 = i)) as [Ei|Ei]; [|by apply Hb].
  destruct (heap_max_spec l cnt i ltac:(lia)) as (_ & _ & Hmax). rewrite E in Hmax. rewrite Ei. by apply Hmax.
Qed.

(** The first element of a heap is the largest. *)
Lemma heap_root l cnt j : heap l 1 cnt -> 1 <= j <= cnt -> le (at_ l j) (at_ l 1).
Proof.
  intros Hh. induction j as [j IH] using (well_founded_induction (Z.lt_wf 0)). intros Hj. destruct (decide (j = 1)) as [->|]; [apply le_refl|].
  assert (1 <= j / 2 < j) by (Z.to_euclidean_division_equations; lia).
  eapply le_trans; [apply Hh; lia|]. apply IH; lia.
Qed.

(** ** Sorting sequences *)

(** [l'] has the elements of [l], those after index [cnt] in place. *)
Definition shuffled l l' (cnt : Z) : Prop :=
  l' ≡ₚ l /\ take (Z.to_nat cnt) l' ≡ₚ take (Z.to_nat cnt) l /\ drop (Z.to_nat cnt) l' = drop (Z.to_nat cnt) l.

Lemma shuffled_refl l cnt : shuffled l l cnt.
Proof. done. Qed.

Lemma shuffled_trans l1 l2 l3 cnt : shuffled l1 l2 cnt -> shuffled l2 l3 cnt -> shuffled l1 l3 cnt.
Proof. intros (H1 & H2 & H3) (H4 & H5 & H6). split_and!; [by rewrite H4|by rewrite H5|by rewrite H6]. Qed.

Lemma take_exchange l i j cnt : 1 <= i <= cnt -> 1 <= j <= cnt -> cnt <= length l ->
  take (Z.to_nat cnt) (exchange l i j) = exchange (take (Z.to_nat cnt) l) i j.
Proof.
  intros Hi Hj Hc. apply list_eq. intros n. unfold exchange, at_.
  rewrite lookup_take, !list_lookup_insert, !length_insert, length_take, !lookup_take, !nth_lookup, !lookup_take.
  repeat case_decide; try lia; done.
Qed.

Lemma drop_exchange l i j cnt : 1 <= i <= cnt -> 1 <= j <= cnt ->
  drop (Z.to_nat cnt) (exchange l i j) = drop (Z.to_nat cnt) l.
Proof. intros Hi Hj. unfold exchange. by rewrite !drop_insert_lt by lia. Qed.

Lemma exchange_shuffled l i j cnt : 1 <= i <= cnt -> 1 <= j <= cnt -> cnt <= length l -> shuffled l (exchange l i j) cnt.
Proof.
  intros Hi Hj Hc. split_and!.
  - apply exchange_perm; lia.
  - rewrite take_exchange by lia. apply exchange_perm; rewrite length_take; lia.
  - by apply drop_exchange.
Qed.

(** The part of the array from index [i] on is sorted, and no element
    before it is larger than one of it. *)
Definition tail_sorted l (i : Z) : Prop := forall j k, 1 <= j < k -> i <= k <= length l -> le (at_ l j) (at_ l k).

Lemma shuffled_tail l l' i : shuffled l l' (i - 1) -> 1 <= i -> tail_sorted l i -> tail_sorted l' i.
Proof.
  intros (Hp & Ht & Hd) Hi Hs j k Hj Hk. rewrite (Permutation_length Hp) in Hk.
  assert (Hat : forall n, i <= n <= length l -> at_ l' n = at_ l n).
  { intros n Hn. unfold at_. rewrite !nth_lookup. f_equal.
    assert (E : drop (Z.to_nat (i - 1)) l' !! (Z.to_nat (n - i))%nat = drop (Z.to_nat (i - 1)) l !! (Z.to_nat (n - i))%nat) by (by rewrite Hd).
    rewrite !lookup_drop in E. by replace (Z.to_nat (n - 1)) with (Z.to_nat (i - 1) + Z.to_nat (n - i))%nat by lia. }
  rewrite (Hat k) by lia. destruct (decide (i <= j)); [rewrite Hat by lia; by apply Hs|].
  assert (Hin : at_ l' j ∈ take (Z.to_nat (i - 1)) l').
  { apply list_elem_of_lookup. exists (Z.to_nat (j - 1)). rewrite lookup_take_lt by lia.
    destruct (lookup_lt_is_Some_2 l' (Z.to_nat (j - 1))) as [x Hx]; [rewrite (Permutation_length Hp); lia|].
    unfold at_. by rewrite nth_lookup, Hx. }
  rewrite Ht in Hin. apply list_elem_of_lookup in Hin as [q Hq]. apply lookup_take_Some in Hq as [Hq Hlt].
  assert (E : at_ l (q + 1) = at_ l' j).
  { unfold at_ at 1. rewrite nth_lookup. replace (Z.to_nat (q + 1 - 1)) with q by lia. by rewrite Hq. }
  rewrite <- E. apply Hs; lia.
Qed.

(** One turn of the second loop of [sort]. *)
Lemma sort_turn l i : 2 <= i <= length l -> heap l 1 i -> tail_sorted l (i + 1) ->
  heap_at (exchange l 1 i) 1 (i - 1) 1 /\ tail_sorted (exchange l 1 i) i.
Proof.
  intros Hi Hh Hs. split.
  - split; [|by intros Hx; Z.to_euclidean_division_equations; lia].
    intros j Hj Hl Hne. assert (1 <= j / 2 < j) by (Z.to_euclidean_division_equations; lia).
    rewrite !at_exchange by lia. zcases; try lia. apply Hh; lia.
  - intros j k Hj Hk. rewrite exchange_length in Hk. rewrite !at_exchange by lia.
    pose proof (fun j => heap_root l i j Hh) as Hr. zcases; try lia; subst; try (apply Hr; lia).
    all: try (apply Hs; lia).
Qed.
End Heap.

(** ** Arrays in memory *)

(** The bytes [x] are at [p]. *)
Definition elem_at (m : memory) (p : Z) (x : list Z) : Prop := forall k b, x !! k = Some b -> m !! (p + Z.of_nat k) = Some b.

(** The elements [l], of [size] bytes each, are at [array]. *)
Record is_array (m : memory) (array size : Z) (l : list (list Z)) : Prop := {
  ia_array : 0 < array;
  ia_size : 0 < size;
  ia_end : array + size * length l < 2 ^ 32;
  ia_count : length l < 2 ^ 31;
  ia_elems k x : l !! k = Some x -> length x = Z.to_nat size /\ elem_at m (array + size * Z.of_nat k) x;
}.

(** Memory outside the [n] bytes at [p] is the same. *)
Definition same_beyond (p n : Z) (m m' : memory) : Prop := forall a, a < p \/ p + n <= a -> m' !! a = m !! a.

Lemma swap_bytes_eq (n : nat) m a b : mapped m a n -> mapped m b n -> a + n <= b \/ b + n <= a ->
  exists m', swap_bytes n a b m = Ret (tt, m') /\
    forall x, m' !! x = if (a <=? x) && (x <? a + n) then m !! (x - a + b)
                        else if (b <=? x) && (x <? b + n) then m !! (x - b + a) else m !! x.
Proof.
  revert m a b. induction n as [|n IH]; intros m a b Ha Hb Hd.
  - exists m. split; [done|]. intros x. zcases; simpl; lia || done.
  - cbn [swap_bytes]. destruct Ha as (Ha1 & Ha2 & Ha3), Hb as (Hb1 & Hb2 & Hb3).
    destruct (Ha3 a) as [t Ht]; [lia|]. destruct (Hb3 b) as [u Hu]; [lia|].
    rewrite (bind_run _ _ _ _ _ (load_eq _ _ _ Ht)), (bind_run _ _ _ _ _ (load_eq _ _ _ Hu)).
    rewrite (bind_run _ _ _ _ _ (store_eq m a u (Ha3 a ltac:(lia)))).
    rewrite (bind_run _ _ _ tt (<[b := t]> (<[a := u]> m))).
    2:{ apply store_eq. rewrite lookup_insert_ne by lia. by exists u. }
    rewrite !u32_small by (urange; lia).
    destruct (IH (<[b := t]> (<[a := u]> m)) (a + 1) (b + 1)) as (m' & E & Hm').
    + apply mapped_insert, mapped_insert. split_and!; [lia..|]. intros x Hx. apply Ha3. lia.
    + apply mapped_insert, mapped_insert. split_and!; [lia..|]. intros x Hx. apply Hb3. lia.
    + lia.
    + exists m'. split; [done|]. intros x. rewrite Hm'.
      destruct (decide (x = a)) as [->|Hxa]; [|destruct (decide (x = b)) as [->|Hxb]].
      * zcases; simpl; try lia; rewrite lookup_insert_ne, lookup_insert_eq by lia; by replace (a - a + b) with b by lia.
      * zcases; simpl; try lia; rewrite lookup_insert_eq; by replace (b - b + a) with a by lia.
      * zcases; simpl; try lia; rewrite !lookup_insert_ne by lia; try done; f_equal; lia.
Qed.

Section Array.
Context (array size : Z).

Lemma array_mapped m l i : is_array m array size l -> 1 <= i <= length l -> mapped m (array + size * (i - 1)) size.
Proof.
  intros [H1 H2 H3 H4 H5] Hi. destruct (lookup_lt_is_Some_2 l (Z.to_nat (i - 1))) as [x Hx]; [lia|].
  apply H5 in Hx as [Hlen Hx]. replace (Z.of_nat (Z.to_nat (i - 1))) with (i - 1) in Hx by lia.
  split_and!; [nia..|]. intros a Ha. destruct (lookup_lt_is_Some_2 x (Z.to_nat (a - (array + size * (i - 1))))) as [b Hb]; [lia|].
  apply Hx in Hb. replace (array + size * (i - 1) + _) with a in Hb by lia. by exists b.
Qed.

Lemma array_elem m l i : is_array m array size l -> 1 <= i <= length l ->
  length (at_ [] l i) = Z.to_nat size /\ elem_at m (array + size * (i - 1)) (at_ [] l i).
Proof.
  intros Ha Hi. destruct (lookup_lt_is_Some_2 l (Z.to_nat (i - 1))) as [x Hx]; [lia|].
  unfold at_. rewrite nth_lookup, Hx. apply (ia_elems _ _ _ _ Ha) in Hx.
  by replace (Z.of_nat (Z.to_nat (i - 1))) with (i - 1) in Hx by lia.
Qed.

Lemma index_addr m l i : is_array m array size l -> 1 <= i <= length l ->
  array +u (i -u 1) *u size = array + size * (i - 1).
Proof.
  intros [H1 H2 H3 H4 H5] Hi. urange. rewrite (Z.mod_small (i - 1)) by lia.
  rewrite (Z.mod_small ((i - 1) * size)) by nia. rewrite Z.mod_small by nia. lia.
Qed.

(** Elements do not overlap. *)
Lemma in_elem p q y : 0 < size -> 0 <= y < size ->
  (array + size * p <=? array + size * q + y) && (array + size * q + y <? array + size * p + size) = (p =? q).
Proof.
  intros Hs Hy. destruct (Z.lt_trichotomy p q) as [H|[->|H]].
  - assert (size * (p + 1) <= size * q) by (apply Z.mul_le_mono_nonneg_l; lia). zcases; simpl; done || lia.
  - zcases; simpl; done || lia.
  - assert (size * (q + 1) <= size * p) by (apply Z.mul_le_mono_nonneg_l; lia). zcases; simpl; done || lia.
Qed.

Lemma do_swap_eq m l i j : is_array m array size l -> 1 <= i <= length l -> 1 <= j <= length l -> i <> j ->
  exists m', do_swap array i j size m = Ret (tt, m') /\ is_array m' array size (exchange [] l i j) /\
    same_beyond array (size * length l) m m'.
Proof.
  intros Ha Hi Hj Hij. pose proof Ha as [H1 H2 H3 H4 H5].
  destruct (swap_bytes_eq (Z.to_nat size) m (array + size * (i - 1)) (array + size * (j - 1))) as (m' & E & Hm');
    [rewrite Z2Nat.id by lia; by eapply array_mapped..|nia|].
  exists m'. split; [unfold do_swap; by rewrite !(index_addr m l)|]. rewrite Z2Nat.id in Hm' by lia. split.
  - constructor; rewrite ?exchange_length; try done. intros k x Hx.
    assert (Hk : (k < length l)%nat) by (rewrite <- (exchange_length [] l i j); by eapply lookup_lt_Some).
    assert (Hat : at_ [] (exchange [] l i j) (k + 1) = x).
    { unfold at_. rewrite nth_lookup. replace (Z.to_nat (k + 1 - 1)) with k by lia. by rewrite Hx. }
    rewrite at_exchange in Hat by lia.
    assert (Hsrc : exists n, 1 <= n <= length l /\ x = at_ [] l n /\
      forall y, 0 <= y < size -> m' !! (array + size * k + y) = m !! (array + size * (n - 1) + y)).
    { destruct (Z.eqb_spec (k + 1) i); [exists j|destruct (Z.eqb_spec (k + 1) j); [exists i|exists (k + 1)]];
        (split_and!; [lia|lia|done|]); intros y Hy; rewrite Hm', !in_elem by done; zcases; try lia; f_equal; lia. }
    destruct Hsrc as (n & Hn & -> & Hy). destruct (array_elem m l n Ha Hn) as [Hl He].
    split; [done|]. intros q b Hq. rewrite Hy; [by apply He|].
    apply lookup_lt_Some in Hq. lia.
  - assert (forall n, 1 <= n <= length l -> 0 <= size * (n - 1) /\ size * (n - 1) + size <= size * length l) as Hr by nia.
    pose proof (Hr i Hi). pose proof (Hr j Hj). intros x Hx. rewrite Hm'. zcases; simpl; lia || done.
Qed.

Context (compare : Z -> Z -> ST memory Z) (cmp : list Z -> list Z -> Z) `{!Comparison cmp}.

(** [compare] reads two elements and compares them by [cmp]. *)
Definition compares : Prop := forall m p q x y, length x = Z.to_nat size -> length y = Z.to_nat size ->
  elem_at m p x -> elem_at m q y -> compare p q m = Ret (cmp x y, m).
Context (Hcmp : compares).

Lemma do_compare_eq m l i j : is_array m array size l -> 1 <= i <= length l -> 1 <= j <= length l ->
  do_compare compare array i j size m = Ret (cmp (at_ [] l i) (at_ [] l j), m).
Proof.
  intros Ha Hi Hj. unfold do_compare. rewrite !(index_addr m l) by done.
  destruct (array_elem m l i Ha Hi), (array_elem m l j Ha Hj). by apply Hcmp.
Qed.

(** One turn of [heapify]. *)
Lemma heapify_turn fuel m l i cnt : is_array m array size l -> 1 <= i <= cnt -> cnt <= length l ->
  heapify_loop compare (S fuel) array i cnt size m =
    let max := heap_max [] cmp l cnt i in
    if max =? i then Ret (tt, m)
    else (do_swap array i max size;; heapify_loop compare fuel array max cnt size) m.
Proof.
  intros Ha Hi Hc. cbn [heapify_loop]. pose proof (ia_count _ _ _ _ Ha). unfold heap_max.
  rewrite (u32_small (2 * i)), (u32_small (2 * i + 1)) by (urange; lia).
  set (m1 := if (2 * i <=? cnt) && (0 <? cmp (at_ [] l (2 * i)) (at_ [] l i)) then 2 * i else i).
  rewrite (bind_run _ _ _ m1 m).
  2:{ unfold m1. destruct (Z.leb_spec (2 * i) cnt); [|done].
      rewrite (bind_run _ _ _ _ _ (do_compare_eq m l (2 * i) i Ha ltac:(lia) ltac:(lia))). done. }
  assert (1 <= m1 <= length l) by (unfold m1; zcases; simpl; lia).
  set (m2 := if _ && _ then 2 * i + 1 else m1). rewrite (bind_run _ _ _ m2 m); [by destruct (Z.eqb_spec m2 i)|].
  unfold m2. destruct (Z.leb_spec (2 * i + 1) cnt); [|done].
  rewrite (bind_run _ _ _ _ _ (do_compare_eq m l (2 * i + 1) m1 Ha ltac:(lia) ltac:(lia))). done.
Qed.

Lemma heapify_loop_eq (fuel : nat) m l lo i cnt : is_array m array size l -> 1 <= lo <= i -> i <= cnt -> cnt <= length l ->
  heap_at [] cmp l lo cnt i -> cnt - i < fuel ->
  exists m' l', heapify_loop compare fuel array i cnt size m = Ret (tt, m') /\ is_array m' array size l' /\
    heap [] cmp l' lo cnt /\ shuffled l l' cnt /\ same_beyond array (size * length l) m m'.
Proof.
  revert m l i. induction fuel as [|fuel IH]; intros m l i Ha Hlo Hi Hc Hh Hf; [lia|].
  rewrite (heapify_turn fuel m l) by (done || lia). cbv zeta.
  destruct (heap_max_spec [] cmp l cnt i ltac:(lia)) as (Hm & _ & _). set (max := heap_max [] cmp l cnt i) in *.
  destruct (Z.eqb_spec max i) as [E|E].
  - exists m, l. split_and!; [done|done|by eapply heap_at_done|apply shuffled_refl|done].
  - destruct (do_swap_eq m l i max Ha) as (m1 & E1 & Ha1 & Hs1); [lia..|done|].
    rewrite (bind_run _ _ _ _ _ E1).
    destruct (IH m1 (exchange [] l i max) max) as (m' & l' & E' & Ha' & Hh' & Hs' & Hb'); rewrite ?exchange_length; try lia; [done|apply heap_at_step; done || lia|].
    rewrite exchange_length in Hb'. exists m', l'. split_and!; [done|done|done| |].
    + eapply shuffled_trans; [|exact Hs']. apply exchange_shuffled; lia.
    + intros a Hx. by rewrite Hb', Hs1.
Qed.

Lemma heapify_eq m l lo i cnt : is_array m array size l -> 1 <= lo <= i -> i <= cnt -> cnt <= length l ->
  heap_at [] cmp l lo cnt i ->
  exists m' l', heapify compare array i cnt size m = Ret (tt, m') /\ is_array m' array size l' /\
    heap [] cmp l' lo cnt /\ shuffled l l' cnt /\ same_beyond array (size * length l) m m'.
Proof. intros. unfold heapify. apply heapify_loop_eq; done || lia. Qed.

Lemma build_heap_eq (i : nat) m l : is_array m array size l -> i <= length l / 2 -> heap [] cmp l (i + 1) (length l) ->
  exists m' l', build_heap compare i array (length l) size m = Ret (tt, m') /\ is_array m' array size l' /\
    heap [] cmp l' 1 (length l) /\ l' ≡ₚ l /\ same_beyond array (size * length l) m m'.
Proof.
  revert m l. induction i as [|i IH]; intros m l Ha Hi Hh.
  - exists m, l. done.
  - assert (2 * (length l / 2) <= length l) by (apply Z.mul_div_le; lia).
    destruct (heapify_eq m l (S i) (S i) (length l)) as (m1 & l1 & E1 & Ha1 & Hh1 & (Hp1 & _) & Hb1); [done|lia..| |].
    { split; [|intros Hx; Z.to_euclidean_division_equations; lia].
      intros j Hj Hl Hne. apply Hh; [done|lia]. }
    cbn [build_heap]. rewrite (bind_run _ _ _ _ _ E1). pose proof (Permutation_length Hp1) as El.
    destruct (IH m1 l1 Ha1) as (m' & l' & E' & Ha' & Hh' & Hp' & Hb'); [rewrite El; lia| |].
    { rewrite El. by replace (i + 1) with (Z.of_nat (S i)) by lia. }
    rewrite El in *. exists m', l'. split_and!; [done|done|done|by rewrite Hp'|]. intros a Hx. by rewrite Hb', Hb1.
Qed.

Lemma sort_heap_eq (i : nat) m l : is_array m array size l -> i <= length l ->
  heap [] cmp l 1 i -> tail_sorted [] cmp l (i + 1) ->
  exists m' l', sort_heap compare i array size m = Ret (tt, m') /\ is_array m' array size l' /\
    tail_sorted [] cmp l' 1 /\ l' ≡ₚ l /\ same_beyond array (size * length l) m m'.
Proof.
  revert m l. induction i as [|[|i] IH]; intros m l Ha Hi Hh Hs; [by exists m, l| |].
  - exists m, l. split_and!; try done. intros j k Hj Hk. apply Hs; lia.
  - pose proof (ia_count _ _ _ _ Ha). remember (S i) as i' eqn:Ei'. cbn [sort_heap].
    destruct (do_swap_eq m l 1 (S i') Ha) as (m1 & E1 & Ha1 & Hb1); [lia..|].
    destruct (sort_turn [] cmp l (S i') ltac:(lia) Hh Hs) as [Hh1 Hs1].
    destruct (heapify_eq m1 (exchange [] l 1 (S i')) 1 1 (S i' - 1)) as (m2 & l2 & E2 & Ha2 & Hh2 & Hp2 & Hb2);
      rewrite ?exchange_length; try done; try lia.
    assert (El : length l2 = length l) by (destruct Hp2 as [Hp2 _]; by rewrite (Permutation_length Hp2), exchange_length).
    subst i'. rewrite (bind_run _ _ _ _ _ E1), (u32_small (S (S i) - 1)) by (urange; lia).
    rewrite (bind_run _ _ _ _ _ E2).
    destruct (IH m2 l2 Ha2) as (m' & l' & E' & Ha' & Hs' & Hp' & Hb'); [lia| | |].
    { by replace (Z.of_nat (S i)) with (S (S i) - 1) by lia. }
    { replace (S i + 1) with (Z.of_nat (S (S i))) by lia. eapply shuffled_tail; [exact Hp2|lia|done]. }
    rewrite El, exchange_length in *. exists m', l'. split_and!; [done|done|done| |].
    + rewrite Hp', (proj1 Hp2). apply exchange_perm; lia.
    + intros a Hx. by rewrite Hb', Hb2, Hb1.
Qed.

(** ** Properties *)

(** C36: [sort] (and so [qsort]) is a correct in-place sort for every
    comparison function that is a total preorder: it returns, leaves the
    elements of the array in order, as a permutation of what they were, and
    changes no memory outside the array. *)
Theorem sort_correct m l : is_array m array size l ->
  exists m' l', qsort array (length l) size compare m = Ret (tt, m') /\ is_array m' array size l' /\
    l' ≡ₚ l /\ (forall i j, 1 <= i < j -> j <= length l' -> cmp (at_ [] l' i) (at_ [] l' j) <= 0) /\
    same_beyond array (size * length l) m m'.
Proof.
  intros Ha. pose proof Ha as [H1 H2 H3 H4 H5]. unfold qsort, sort.
  rewrite (bind_run _ _ _ tt m) by (unfold ASSERT; by destruct (Z.eqb_spec array 0); [lia|]).
  rewrite (bind_run _ _ _ tt m) by (unfold ASSERT; by destruct (Z.ltb_spec 0 size); [|lia]).
  assert (0 <= length l / 2) by (apply Z.div_pos; lia).
  destruct (build_heap_eq (Z.to_nat (length l / 2)) m l Ha) as (m1 & l1 & E1 & Ha1 & Hh1 & Hp1 & Hb1); [lia| |].
  { intros j Hj Hl. Z.to_euclidean_division_equations. lia. }
  rewrite (bind_run _ _ _ _ _ E1). pose proof (Permutation_length Hp1) as El.
  destruct (sort_heap_eq (length l) m1 l1 Ha1) as (m2 & l2 & E2 & Ha2 & Hs2 & Hp2 & Hb2); [lia|done|intros j k Hj Hk; lia|].
  rewrite Nat2Z.id, El in *. exists m2, l2. split_and!; [done|done|by rewrite Hp2| |].
  - intros i j Hi Hj. by apply Hs2; lia.
  - intros a Hx. by rewrite Hb2, Hb1.
Qed.

(** The elements before [first] are less than [key] and those from [last]
    on greater, counted in elements. *)
Lemma search_loop_eq (fuel : nat) m l kp key (f n : Z) : is_array m array size l ->
  elem_at m kp key -> length key = Z.to_nat size ->
  (forall i j, 1 <= i < j -> j <= length l -> cmp (at_ [] l i) (at_ [] l j) <= 0) ->
  0 <= f <= n -> n <= length l -> n - f < fuel ->
  (forall i, 1 <= i <= f -> 0 < cmp key (at_ [] l i)) -> (forall i, n < i <= length l -> cmp key (at_ [] l i) < 0) ->
  exists r, search_loop compare fuel kp (array + size * f) (array + size * n) size m = Ret (r, m) /\
    (r = 0 /\ (forall i, 1 <= i <= length l -> cmp key (at_ [] l i) <> 0) \/
     exists i, 1 <= i <= length l /\ r = array + size * (i - 1) /\ cmp key (at_ [] l i) = 0).
Proof.
  intros Ha Hk Hkl Hs. pose proof Ha as [H1 H2 H3 H4 H5].
  revert f n. induction fuel as [|fuel IH]; intros f n Hf Hn Hfu Hlo Hhi; [lia|]. cbn [search_loop].
  destruct (Z.ltb_spec (array + size * f) (array + size * n)) as [Hlt|Hge].
  2:{ exists 0. split; [done|]. left. split; [done|]. intros i Hi. assert (f = n) as -> by nia.
      destruct (decide (i <= n)); [specialize (Hlo i)|specialize (Hhi i)]; lia. }
  assert (Hfn : f < n) by nia.
  assert (Er : (array + size * n - (array + size * f)) / size = n - f).
  { replace (_ - _) with ((n - f) * size) by lia. by rewrite Z.div_mul by lia. }
  rewrite Er. set (h := (n - f) / 2). assert (Hh : 0 <= h < n - f) by (unfold h; Z.to_euclidean_division_equations; lia).
  assert (Em : array + size * f +u h *u size = array + size * (f + h + 1 - 1)).
  { urange. rewrite (Z.mod_small (h * size)) by nia. rewrite Z.mod_small by nia. lia. }
  rewrite Em. destruct (array_elem m l (f + h + 1) Ha ltac:(lia)) as [Hel Hea].
  rewrite (bind_run _ _ _ (cmp key (at_ [] l (f + h + 1))) m) by (by apply Hcmp).
  assert (Hord : forall x y, cmp x y < 0 -> forall z, cmp y z <= 0 -> cmp x z < 0).
  { intros x y Hxy z Hyz. pose proof (proj1 (cmp_sym z x)). destruct (decide (cmp x z < 0)); [done|].
    assert (cmp z x <= 0) by lia. pose proof (cmp_trans y z x Hyz). apply (cmp_sym y x) in Hxy. lia. }
  assert (Hord' : forall x y, 0 < cmp x y -> forall z, cmp z y <= 0 -> 0 < cmp x z).
  { intros x y Hxy z Hzy. destruct (decide (0 < cmp x z)); [done|]. assert (Hxz : cmp x z <= 0) by lia. pose proof (cmp_trans x z y Hxz Hzy). lia. }
  destruct (Z.ltb_spec (cmp key (at_ [] l (f + h + 1))) 0) as [Hc|Hc];
    [|destruct (Z.ltb_spec 0 (cmp key (at_ [] l (f + h + 1)))) as [Hc'|Hc']].
  - replace (f + h + 1 - 1) with (f + h) by lia. apply IH; [lia..|done|]. intros i Hi.
    destruct (decide (i = f + h + 1)) as [->|]; [done|]. eapply Hord; [exact Hc|]. apply Hs; lia.
  - replace (array + size * (f + h + 1 - 1) +u size) with (array + size * (f + h + 1)) by (urange; rewrite Z.mod_small by nia; lia).
    apply IH; [lia..| |done]. intros i Hi.
    destruct (decide (i = f + h + 1)) as [->|]; [done|]. eapply Hord'; [exact Hc'|]. apply Hs; lia.
  - eexists. split; [done|]. right. exists (f + h + 1). split_and!; [lia|lia|done|lia].
Qed.

(** [binary_search] (and so [bsearch]) of a sorted array returns the
    address of an element equal to the key if there is one, and null
    otherwise; it always returns and changes nothing. *)
Theorem bsearch_correct m l kp key : is_array m array size l ->
  elem_at m kp key -> length key = Z.to_nat size ->
  (forall i j, 1 <= i < j -> j <= length l -> cmp (at_ [] l i) (at_ [] l j) <= 0) ->
  exists r, bsearch kp array (length l) size compare m = Ret (r, m) /\
    (r = 0 /\ (forall i, 1 <= i <= length l -> cmp key (at_ [] l i) <> 0) \/
     exists i, 1 <= i <= length l /\ r = array + size * (i - 1) /\ cmp key (at_ [] l i) = 0).
Proof.
  intros Ha Hk Hkl Hs. pose proof Ha as [H1 H2 H3 H4 H5]. unfold bsearch, binary_search.
  replace (array +u size *u length l) with (array + size * length l).
  2:{ urange. rewrite (Z.mod_small (size * _)) by nia. by rewrite Z.mod_small by nia. }
  destruct (search_loop_eq (S (Z.to_nat (length l))) m l kp key 0 (length l)) as (r & E & Hr); try done; try lia.
  rewrite Z.mul_0_r, Z.add_0_r in E. by exists r.
Qed.
End Array.

(** ** atoi *)

(** The number with the digits [vals], first the highest. *)
Definition horner (base : Z) (vals : list Z) : Z := fold_left (fun v d => v * base + d) vals 0.

Lemma horner_snoc base vals d : horner base (vals ++ [d]) = horner base vals * base + d.
Proof. unfold horner. by rewrite fold_left_app. Qed.

Definition digit_value (c : Z) : Z := c - 48.

Lemma s32_cong x y : (x - y) mod 2 ^ 32 = 0 -> s32 x = s32 y.
Proof.
  intros E. unfold s32. f_equal. replace (x + 2 ^ 31) with (y + 2 ^ 31 + (x - y)) by lia.
  rewrite Z.add_mod, E, Z.add_0_r by lia. by rewrite Z.mod_mod by lia.
Qed.

Lemma s32_diff x : (s32 x - x) mod 2 ^ 32 = 0.
Proof.
  unfold s32. replace (_ - _ - x) with ((x + 2 ^ 31) mod 2 ^ 32 - (x + 2 ^ 31)) by lia.
  rewrite Zminus_mod, Z.mod_mod, Z.sub_diag by lia. done.
Qed.

Lemma s32_step x d : s32 (s32 x * 10 - d) = s32 (x * 10 - d).
Proof.
  apply s32_cong. replace (s32 x * 10 - d - (x * 10 - d)) with ((s32 x - x) * 10) by lia.
  rewrite Z.mul_mod, s32_diff by lia. done.
Qed.

(** What may follow a number: a terminator or a character other than a
    digit. *)
Definition ends_number (rest : list Z) : Prop := match rest with [] => True | c :: _ => isdigit (schar c) = false end.

Lemma atoi_digits_eq fuel m p ds rest v : cstr m p (ds ++ rest) -> Forall (fun c => isdigit c = true) ds ->
  ends_number rest -> (length ds < fuel)%nat ->
  atoi_digits fuel p (s32 (- v)) m = Ret (s32 (- fold_left (fun v d => v * 10 + d) (map digit_value ds) v), m).
Proof.
  revert p v fuel. induction ds as [|c ds IH]; intros p v [|fuel] Hs Hd Hr Hf; simpl in Hf; try lia; cbn [atoi_digits].
  - destruct rest as [|c rest].
    + destruct (cstr_nil m p Hs) as [E _]. rewrite (bind_run _ _ _ _ _ (load_eq _ _ _ E)). done.
    + destruct (cstr_cons m p c rest Hs) as (E & _). rewrite (bind_run _ _ _ _ _ (load_eq _ _ _ E)).
      simpl in Hr. by rewrite Hr.
  - apply Forall_cons in Hd as [Hc Hd]. destruct (cstr_cons m p c (ds ++ rest) Hs) as (E & _ & _ & _ & Hp & Hcs).
    rewrite (bind_run _ _ _ _ _ (load_eq _ _ _ E)).
    assert (Hsc : schar c = c) by (unfold schar, isdigit in *; zcases; simpl in *; done || lia).
    rewrite Hsc, Hc. simpl. rewrite Hp.
    rewrite s32_step. replace (- v * 10 - (c - 48)) with (- (v * 10 + digit_value c)) by (unfold digit_value; lia).
    apply IH; [done..|lia].
Qed.
Lemma skip_spaces_eq fuel m p sp l : cstr m p (sp ++ l) -> Forall (fun c => isspace c = true) sp ->
  match l with [] => True | c :: _ => isspace c = false end -> (length sp < fuel)%nat ->
  skip_spaces fuel p m = Ret (p + length sp, m) /\ cstr m (p + length sp) l.
Proof.
  revert p fuel. induction sp as [|c sp IH]; intros p [|fuel] Hs Hsp Hl Hf; simpl in Hf; try lia; cbn [skip_spaces].
  - rewrite Z.add_0_r. split; [|done]. destruct l as [|c l].
    + destruct (cstr_nil m p Hs) as [E _]. by rewrite (bind_run _ _ _ _ _ (load_eq _ _ _ E)).
    + destruct (cstr_cons m p c l Hs) as (E & _). by rewrite (bind_run _ _ _ _ _ (load_eq _ _ _ E)), Hl.
  - apply Forall_cons in Hsp as [Hc Hsp]. destruct (cstr_cons m p c (sp ++ l) Hs) as (E & _ & _ & _ & Hp & Hcs).
    rewrite (bind_run _ _ _ _ _ (load_eq _ _ _ E)), Hc, Hp.
    replace (p + length (c :: sp)) with (p + 1 + length sp) by (cbn [length]; lia). apply IH; done || lia.
Qed.

(** [atoi] skips spaces, takes a sign, and returns the number that the
    digits denote, reduced to an [int]. *)
Lemma atoi_eq fuel m p sp sg ds rest : cstr m p (sp ++ sg ++ ds ++ rest) -> Forall (fun c => isspace c = true) sp ->
  sg = [] \/ sg = [43] \/ sg = [45] -> ds <> [] -> Forall (fun c => isdigit c = true) ds -> ends_number rest ->
  (length sp + length ds < fuel)%nat ->
  atoi fuel p m = Ret (s32 ((if bool_decide (sg = [45]) then -1 else 1) * horner 10 (map digit_value ds)), m).
Proof.
  intros Hs Hsp Hsg Hne Hd Hr Hf. destruct ds as [|c ds]; [done|]. pose proof (Forall_inv Hd) as Hc. simpl in Hc.
  assert (Hc' : 48 <= c <= 57) by (unfold isdigit in Hc; zcases; simpl in Hc; done || lia).
  unfold atoi. rewrite (bind_run _ _ _ tt m).
  2:{ unfold ASSERT. destruct Hs as (Hp & _). by destruct (Z.eqb_spec p 0); [lia|]. }
  destruct (skip_spaces_eq fuel m p sp (sg ++ (c :: ds) ++ rest) Hs Hsp) as [E Hs'].
  { destruct Hsg as [->|[->| ->]]; [|done..]. simpl. unfold isspace. zcases; simpl; done || lia. }
  { lia. }
  rewrite (bind_run _ _ _ _ _ E). set (q := p + length sp) in *.
  assert (Hdig : forall b, cstr m b ((c :: ds) ++ rest) ->
    atoi_digits fuel b 0 m = Ret (s32 (- horner 10 (map digit_value (c :: ds))), m)).
  { intros b Hb. apply (atoi_digits_eq fuel m b (c :: ds) rest 0); done || lia. }
  assert (Hneg : forall v, s32 (- s32 (- v)) = s32 v).
  { intros v. apply s32_cong. replace (- s32 (- v) - v) with ((s32 (- v) - - v) * -1) by lia.
    by rewrite Z.mul_mod, s32_diff by lia. }
  destruct Hsg as [->|[->| ->]]; cbn [app] in Hs'; destruct (cstr_cons m q _ _ Hs') as (El & _ & _ & _ & Hq & Hcs);
    rewrite (bind_run _ _ _ _ _ (load_eq _ _ _ El)).
  - destruct (Z.eqb_spec c 43), (Z.eqb_spec c 45); [lia..|]. cbn [orb negb].
    rewrite (bind_run _ _ _ _ _ (Hdig q Hs')). cbn [mret ST_ret]. by rewrite Hneg, Z.mul_1_l.
  - cbn. rewrite Hq. rewrite (bind_run _ _ _ _ _ (Hdig _ Hcs)). cbn [mret ST_ret]. by rewrite Hneg, Z.mul_1_l.
  - cbn. rewrite Hq. rewrite (bind_run _ _ _ _ _ (Hdig _ Hcs)). cbn [mret ST_ret]. reflexivity.
Qed.

(** ** An example: three elements of one byte *)

(** [x], [y], [z] at 16 and [k] behind them. *)
Definition demo_array (x y z k : Z) : memory := list_to_map (zip (seqZ 16 4) [x; y; z; k]).
Definition byte_compare (p q : Z) : ST memory Z := x ← load p; y ← load q; mret (x - y).
Definition byte_cmp (x y : list Z) : Z := nth 0 x 0 - nth 0 y 0.

#[local] Instance byte_comparison : Comparison byte_cmp.
Proof. split; unfold byte_cmp; intros; lia. Qed.

Lemma byte_compares : compares 1 byte_compare byte_cmp.
Proof.
  intros m p q [|x [|]] [|y [|]]; try done. intros _ _ Hx Hy. unfold byte_compare.
  specialize (Hx 0%nat x eq_refl). specialize (Hy 0%nat y eq_refl). rewrite Z.add_0_r in *.
  by rewrite (bind_run _ _ _ _ _ (load_eq _ _ _ Hx)), (bind_run _ _ _ _ _ (load_eq _ _ _ Hy)).
Qed.

Lemma demo_is_array x y z k : is_array (demo_array x y z k) 16 1 [[x]; [y]; [z]].
Proof. constructor; [done..|]. by intros [|[|[|]]] w [= <-]; (split; [done|]); intros [|] b [= <-]. Qed.

Lemma sort_correct_witness :
  exists m' l', qsort 16 3 1 byte_compare (demo_array 7 3 9 3) = Ret (tt, m') /\ is_array m' 16 1 l' /\
    l' ≡ₚ [[7]; [3]; [9]] /\ (forall i j, 1 <= i < j -> j <= length l' -> byte_cmp (at_ [] l' i) (at_ [] l' j) <= 0) /\
    same_beyond 16 3 (demo_array 7 3 9 3) m'.
Proof.
  apply (sort_correct 16 1 byte_compare byte_cmp byte_compares (demo_array 7 3 9 3) [[7]; [3]; [9]]).
  apply demo_is_array.
Defined.

Lemma bsearch_correct_witness :
  exists r, bsearch 19 16 3 1 byte_compare (demo_array 3 7 9 7) = Ret (r, demo_array 3 7 9 7) /\
    (r = 0 /\ (forall i, 1 <= i <= 3 -> byte_cmp [7] (at_ [] [[3]; [7]; [9]] i) <> 0) \/
     exists i, 1 <= i <= 3 /\ r = 16 + 1 * (i - 1) /\ byte_cmp [7] (at_ [] [[3]; [7]; [9]] i) = 0).
Proof.
  apply (bsearch_correct 16 1 byte_compare byte_cmp byte_compares (demo_array 3 7 9 7) [[3]; [7]; [9]] 19 [7]).
  - apply demo_is_array.
  - intros [|] b [= <-]. reflexivity.
  - reflexivity.
  - intros i j Hi Hj. simpl in Hj. assert (i = 1 /\ j = 2 \/ i = 1 /\ j = 3 \/ i = 2 /\ j = 3) as [[-> ->]|[[-> ->]|[-> ->]]] by lia; done.
Defined.
