(* ===== verification/Stdio.v ===== *)
(** * Formatted output: lib/stdio.c

    A format is the list of its characters with the terminating 0; reading
    behind it faults.  Variable arguments are the 32-bit words the caller
    has pushed.  Output goes through a callback of the caller; the state is
    the memory, from which string arguments are read, and what the callback
    keeps.  The loop over the format moves on at every turn; the message for
    an unknown conversion is printed by a call of the same function, so its
    fuel is the length of the format and that of the longest message. *)

From S2P Require Import Prelude CString CStdlib.
From Stdlib Require Import Ascii.

(** The characters of a literal. *)
Fixpoint chars (s : string) : list Z :=
  match s with
  | EmptyString => []
  | String c s => Z.of_N (N_of_ascii c) :: chars s
  end.

(** ** Conversions *)

Definition MINUS : Z := 1.
Definition PLUS : Z := 2.
Definition SPACE : Z := 4.
Definition POUND : Z := 8.
Definition ZERO : Z := 16.
Definition GROUP : Z := 32.

Inductive arg_type := CHAR | SHORT | INT | INTMAX | LONG | LONGLONG | PTRDIFFT | SIZET.

Record printf_conversion := mk_conversion { flags : Z; width : Z; precision : Z; type : arg_type }.

Definition flag (c : printf_conversion) (f : Z) : bool := negb (Z.land (flags c) f =? 0).

Record integer_base := mk_base { base : Z; digits : list Z; x_char : Z; group : Z }.

Definition base_d : integer_base := mk_base 10 (chars "0123456789") 0 3.
Definition base_o : integer_base := mk_base 8 (chars "01234567") 0 3.
Definition base_x : integer_base := mk_base 16 (chars "0123456789abcdef") 120 4.
Definition base_X : integer_base := mk_base 16 (chars "0123456789ABCDEF") 88 4.

(** ** Arguments *)

(** One word, as an [unsigned] and as an [int]; two words, as 64 bits. *)
Definition va_word (args : list Z) : outcome (Z * list Z) :=
  match args with w :: args => Ret (w, args) | [] => Panic end.
Definition va_int (args : list Z) : outcome (Z * list Z) :=
  '(w, args) ← va_word args; Ret (s32 w, args).
Definition va_word64 (args : list Z) : outcome (Z * list Z) :=
  '(lo, args) ← va_word args; '(hi, args) ← va_word args; Ret (lo + 2 ^ 32 * hi, args).

(** A value cast to [signed char] and [short]. *)
Definition s8 (x : Z) : Z := (x + 2 ^ 7) mod 2 ^ 8 - 2 ^ 7.
Definition s16 (x : Z) : Z := (x + 2 ^ 15) mod 2 ^ 16 - 2 ^ 15.

(** The argument of a signed conversion, of type [intmax_t]. *)
Definition va_signed (t : arg_type) (args : list Z) : outcome (Z * list Z) :=
  match t with
  | CHAR => '(v, args) ← va_int args; Ret (s8 v, args)
  | SHORT => '(v, args) ← va_int args; Ret (s16 v, args)
  | INT | LONG | PTRDIFFT => va_int args
  | INTMAX | LONGLONG => '(v, args) ← va_word64 args; Ret (s64 v, args)
  | SIZET =>
    '(v, args) ← va_word args;
    Ret (if (2 ^ 32 - 1) / 2 <? v then v - (2 ^ 32 - 1) - 1 else v, args)
  end.

(** That of an unsigned conversion, of type [uintmax_t]. *)
Definition va_unsigned (t : arg_type) (args : list Z) : outcome (Z * list Z) :=
  match t with
  | CHAR => '(v, args) ← va_word args; Ret (u8 v, args)
  | SHORT => '(v, args) ← va_word args; Ret (v mod 2 ^ 16, args)
  | INT | LONG | SIZET => va_word args
  | INTMAX | LONGLONG => va_word64 args
  | PTRDIFFT =>
    '(v, args) ← va_int args;
    Ret (Z.land (u64 v) (Z.lor (Z.shiftl (2 ^ 31 - 1) 1) 1), args)
  end.

(** ** Parsing a conversion *)

Fixpoint parse_flags (format : list Z) (flags : Z) : outcome (list Z * Z) :=
  match format with
  | [] => Panic
  | ch :: rest =>
    if ch =? 45 then parse_flags rest (Z.lor flags MINUS)
    else if ch =? 43 then parse_flags rest (Z.lor flags PLUS)
    else if ch =? 32 then parse_flags rest (Z.lor flags SPACE)
    else if ch =? 35 then parse_flags rest (Z.lor flags POUND)
    else if ch =? 48 then parse_flags rest (Z.lor flags ZERO)
    else if ch =? 39 then parse_flags rest (Z.lor flags GROUP)
    else Ret (format, flags)
  end.

(** The digits of a field width or precision, of type [int]. *)
Fixpoint parse_digits (format : list Z) (v : Z) : outcome (list Z * Z) :=
  match format with
  | [] => Panic
  | ch :: rest =>
    if isdigit (schar ch) then parse_digits rest (s32 (s32 (s32 (v * 10) + schar ch) - 48))
    else Ret (format, v)
  end.

Definition peek (format : list Z) : outcome Z := match format with ch :: _ => Ret ch | [] => Panic end.

Definition parse_type (format : list Z) : outcome (list Z * arg_type) :=
  ch ← peek format;
  let rest := tail format in
  if ch =? 104 then
    ch ← peek rest; Ret (if ch =? 104 then (tail rest, CHAR) else (rest, SHORT))
  else if ch =? 106 then Ret (rest, INTMAX)
  else if ch =? 108 then
    ch ← peek rest; Ret (if ch =? 108 then (tail rest, LONGLONG) else (rest, LONG))
  else if ch =? 116 then Ret (rest, PTRDIFFT)
  else if ch =? 122 then Ret (rest, SIZET)
  else Ret (format, INT).

(** [f &= ~bit] *)
Definition clear (f bit : Z) : Z := Z.land f (Z.lnot bit).

Definition parse_conversion (format args : list Z) : outcome (list Z * printf_conversion * list Z) :=
  '(format, flags) ← parse_flags format 0;
  let flags := if negb (Z.land flags MINUS =? 0) then clear flags ZERO else flags in
  let flags := if negb (Z.land flags PLUS =? 0) then clear flags SPACE else flags in
  ch ← peek format;
  '(format, width, args) ←
    (if ch =? 42 then '(w, args) ← va_int args; Ret (tail format, w, args)
     else '(format, w) ← parse_digits format 0; Ret (format, w, args));
  let flags := if width <? 0 then Z.lor flags MINUS else flags in
  let width := if width <? 0 then s32 (- width) else width in
  ch ← peek format;
  '(format, precision, args) ←
    (if ch =? 46 then
       let format := tail format in
       ch ← peek format;
       '(format, p, args) ←
         (if ch =? 42 then '(p, args) ← va_int args; Ret (tail format, p, args)
          else '(format, p) ← parse_digits format 0; Ret (format, p, args));
       Ret (format, if p <? 0 then -1 else p, args)
     else Ret (format, -1, args));
  let flags := if 0 <=? precision then clear flags ZERO else flags in
  '(format, type) ← parse_type format;
  Ret (format, mk_conversion flags width precision type, args).

(** ** Conversions *)

Section Output.
Context {X : Type} (output : Z -> ST (memory * X) unit) (string_fuel : nat).

Definition on_memory {A} (f : ST memory A) : ST (memory * X) A := fun s =>
  match f s.1 with
  | Ret (a, m) => Ret (a, (m, s.2))
  | Panic => Panic
  | OutOfFuel => OutOfFuel
  end.

Fixpoint output_dup (ch : Z) (cnt : nat) : ST (memory * X) unit :=
  match cnt with
  | O => mret tt
  | S cnt => output ch;; output_dup ch cnt
  end.

Fixpoint output_all (l : list Z) : ST (memory * X) unit :=
  match l with
  | [] => mret tt
  | ch :: l => output ch;; output_all l
  end.

(** The buffer of [format_integer] holds 64 characters, the last one
    first in [buf]. *)
Definition push (ch : Z) (buf : list Z) : outcome (list Z) :=
  if length buf <? 64 then Ret (ch :: buf) else Panic.

(** The digits of [value]; a 64-bit number has at most 22 in base 8. *)
Fixpoint push_digits (fuel : nat) (b : integer_base) (grouped : bool) (value digit_cnt : Z) (buf : list Z) : outcome (list Z) :=
  match fuel with
  | O => OutOfFuel
  | S fuel =>
    if 0 <? value then
      buf ← (if grouped && (0 <? digit_cnt) && (digit_cnt mod group b =? 0) then push 44 buf else Ret buf);
      buf ← (match digits b !! Z.to_nat (value mod base b) with Some ch => push ch buf | None => Panic end);
      push_digits fuel b grouped (value / base b) (digit_cnt + 1) buf
    else Ret buf
  end.

(** [while (cp - buf < precision && cp < buf + sizeof buf - 1)] *)
Fixpoint push_zeros (fuel : nat) (precision : Z) (buf : list Z) : outcome (list Z) :=
  match fuel with
  | O => OutOfFuel
  | S fuel =>
    if (length buf <? precision) && (length buf <? 63) then buf ← push 48 buf; push_zeros fuel precision buf
    else Ret buf
  end.

Definition sign_char (is_signed negative : bool) (c : printf_conversion) : Z :=
  if is_signed then
    if flag c PLUS then if negative then 45 else 43
    else if flag c SPACE then if negative then 45 else 32
    else if negative then 45 else 0
  else 0.

Definition integer_digits (value : Z) (b : integer_base) (c : printf_conversion) : outcome (list Z) :=
  buf ← push_digits 65 b (flag c GROUP) value 0 [];
  buf ← push_zeros 65 (if precision c <? 0 then 1 else precision c) buf;
  if flag c POUND && (base b =? 8) && (match buf with [] => true | ch :: _ => negb (ch =? 48) end)
  then push 48 buf else Ret buf.

Definition format_integer (value : Z) (is_signed negative : bool) (b : integer_base) (c : printf_conversion) : ST (memory * X) unit :=
  let sign := sign_char is_signed negative c in
  let x := if flag c POUND && negb (value =? 0) then x_char b else 0 in
  buf ← lift (integer_digits value b c);
  let pad_cnt := s32 (width c - length buf - (if negb (x =? 0) then 2 else 0) - (if negb (sign =? 0) then 1 else 0)) in
  let pad_cnt := Z.to_nat (if pad_cnt <? 0 then 0 else pad_cnt) in
  when (negb (flag c MINUS || flag c ZERO)) (output_dup 32 pad_cnt);;
  when (negb (sign =? 0)) (output sign);;
  when (negb (x =? 0)) (output 48;; output x);;
  when (flag c ZERO) (output_dup 48 pad_cnt);;
  output_all buf;;
  when (flag c MINUS) (output_dup 32 pad_cnt).

(** A string argument: in memory, or a literal of the code. *)
Inductive str := in_memory (p : Z) | literal (l : list Z).

Definition str_char (s : str) (i : Z) : ST (memory * X) Z :=
  match s with
  | in_memory p => on_memory (load (p +u i))
  | literal l => match l !! Z.to_nat i with Some ch => mret ch | None => panic end
  end.
Definition str_nlen (s : str) (maxlen : Z) : ST (memory * X) Z :=
  match s with
  | in_memory p => on_memory (strnlen string_fuel p maxlen)
  | literal l => mret (Z.min (length l) maxlen)
  end.

Fixpoint output_string (n : nat) (s : str) (i : Z) : ST (memory * X) unit :=
  match n with
  | O => mret tt
  | S n => ch ← str_char s i; output ch;; output_string n s (i + 1)
  end.

Definition format_string (s : str) (length : Z) (c : printf_conversion) : ST (memory * X) unit :=
  when ((length <? width c) && negb (flag c MINUS)) (output_dup 32 (Z.to_nat (width c - length)));;
  output_string (Z.to_nat length) s 0;;
  when ((length <? width c) && flag c MINUS) (output_dup 32 (Z.to_nat (width c - length))).

(** The conversions other than the unsupported ones; the arguments left. *)
Definition conversion (conv : Z) (c : printf_conversion) (args : list Z) : option (ST (memory * X) (list Z)) :=
  if (conv =? 100) || (conv =? 105) then Some (
    '(value, args) ← lift (va_signed (type c) args);
    format_integer (u64 (if value <? 0 then - value else value)) true (value <? 0) base_d c;;
    mret args)
  else if (conv =? 111) || (conv =? 117) || (conv =? 120) || (conv =? 88) then Some (
    '(value, args) ← lift (va_unsigned (type c) args);
    let b := if conv =? 111 then base_o else if conv =? 117 then base_d else if conv =? 120 then base_x else base_X in
    format_integer value false false b c;;
    mret args)
  else if conv =? 99 then Some (
    '(ch, args) ← lift (va_int args);
    format_string (literal [u8 ch]) 1 c;;
    mret args)
  else if conv =? 115 then Some (
    '(p, args) ← lift (va_word args);
    let s := if p =? 0 then literal (chars "(null)") else in_memory p in
    len ← str_nlen s (u32 (precision c));
    format_string s (s32 len) c;;
    mret args)
  else if conv =? 112 then Some (
    '(p, args) ← lift (va_word args);
    format_integer p false false base_x (mk_conversion POUND (width c) (precision c) (type c));;
    mret args)
  else None.

(** The format of the message for an unsupported conversion. *)
Definition message (conv : Z) : list Z :=
  if (conv =? 102) || (conv =? 101) || (conv =? 69) || (conv =? 103) || (conv =? 71) || (conv =? 110)
  then chars "<<no %%%c in kernel>>" ++ [0] else chars "<<no %%%c conversion>>" ++ [0].

Fixpoint vprintf_loop (fuel : nat) (format args : list Z) : ST (memory * X) unit :=
  match fuel with
  | O => no_fuel
  | S fuel =>
    ch ← lift (peek format);
    if ch =? 0 then mret tt
    else if negb (ch =? 37) then output ch;; vprintf_loop fuel (tail format) args
    else
      ch ← lift (peek (tail format));
      if ch =? 37 then output 37;; vprintf_loop fuel (tail (tail format)) args
      else
        '(format, c, args) ← lift (parse_conversion (tail format) args);
        conv ← lift (peek format);
        match conversion conv c args with
        | Some act => args ← act; vprintf_loop fuel (tail format) args
        | None => vprintf_loop fuel (message conv) [u32 (schar conv)];; vprintf_loop fuel (tail format) args
        end
  end.

Definition __vprintf (format args : list Z) : ST (memory * X) unit :=
  vprintf_loop (length format + 30) format args.
End Output.

(** ** vsnprintf *)

Record vsnprintf_aux := mk_aux { aux_p : Z; aux_length : Z; aux_max_length : Z }.

Definition vsnprintf_helper (ch : Z) : ST (memory * vsnprintf_aux) unit :=
  aux ← gets snd;
  modify (fun s => (s.1, mk_aux (aux_p aux) (s32 (aux_length aux + 1)) (aux_max_length aux)));;
  if aux_length aux <? aux_max_length aux then
    modify (fun s => (s.1, mk_aux (aux_p (s.2) +u 1) (aux_length (s.2)) (aux_max_length (s.2))));;
    on_memory (store (aux_p aux) ch)
  else mret tt.

Definition vsnprintf (string_fuel : nat) (buffer buf_size : Z) (format args : list Z) : ST memory Z := fun m =>
  let aux := mk_aux buffer 0 (s32 (if 0 <? buf_size then buf_size - 1 else 0)) in
  match __vprintf vsnprintf_helper string_fuel format args (m, aux) with
  | Ret (_, (m, aux)) =>
    match (if 0 <? buf_size then store (aux_p aux) 0 m else Ret (tt, m)) with
    | Ret (_, m) => Ret (aux_length aux, m)
    | Panic => Panic
    | OutOfFuel => OutOfFuel
    end
  | Panic => Panic
  | OutOfFuel => OutOfFuel
  end.

(** ** Output that is collected *)

Definition collect (ch : Z) : ST (memory * list Z) unit := modify (fun s => (s.1, s.2 ++ [ch])).
