(* ===== verification/StdioProps.v ===== *)
(** * Formatted output: correctness *)

From S2P Require Import Prelude CString CStringProps CStdlib CStdlibProps Stdio.

(** ** vsnprintf stores what the format produces

    The run that stores characters in a buffer is compared with the run that
    collects them.  The second one does not have the buffer in its memory,
    so that if it returns, no string argument overlaps the buffer. *)

Section Sim.
Context (buffer size : Z) (m_init : memory).

Definition in_buffer (a : Z) : Prop := buffer <= a < buffer + size.

Record sim (s0 : memory * list Z) (s : memory * vsnprintf_aux) : Prop := {
  si_sub : s0.1 ⊆ s.1;
  si_apart a : in_buffer a -> s0.1 !! a = None;
  si_length : aux_length s.2 = length s0.2;
  si_max : aux_max_length s.2 = size - 1;
  si_p : aux_p s.2 = buffer + Z.min (length s0.2) (size - 1);
  si_stored (i : nat) : i < size - 1 -> (i < length s0.2)%nat -> s.1 !! (buffer + i) = s0.2 !! i;
  si_mapped a : in_buffer a -> is_Some (s.1 !! a);
  si_rest a : ~ in_buffer a -> s.1 !! a = m_init !! a;
}.

(** [act] does what [act0] does, which only adds to the output. *)
Definition follows {A} (act0 : ST (memory * list Z) A) (act : ST (memory * vsnprintf_aux) A) : Prop :=
  forall s0 a s0', act0 s0 = Ret (a, s0') ->
    (length s0.2 <= length s0'.2)%nat /\
    (forall s, sim s0 s -> length s0'.2 < 2 ^ 31 -> exists s', act s = Ret (a, s') /\ sim s0' s').

Lemma follows_ret {A} (a : A) : follows (mret a) (mret a).
Proof. intros s0 a' s0' [= <- <-]. split; [done|]. intros s Hs _. by exists s. Qed.

Lemma follows_bind {A B} (m0 : ST _ A) m (k0 : A -> ST _ B) k :
  follows m0 m -> (forall a, follows (k0 a) (k a)) -> follows (m0 ≫= k0) (m ≫= k).
Proof.
  intros Hm Hk s0 b s0' E. unfold mbind, ST_bind in E. destruct (m0 s0) as [[a s1]| |] eqn:E1; [|done..].
  destruct (Hm _ _ _ E1) as [Hl1 Hm1], (Hk a _ _ _ E) as [Hl2 Hk2]. split; [lia|].
  intros s Hs Hlen. destruct (Hm1 s Hs ltac:(lia)) as (s' & Em & Hs'). destruct (Hk2 s' Hs' Hlen) as (s'' & Ek & Hs'').
  exists s''. split; [|done]. by rewrite (bind_run _ _ _ _ _ Em).
Qed.

Lemma follows_lift {A} (o : outcome A) : follows (lift o) (lift o).
Proof. intros s0 a s0' E. unfold lift in *. destruct o; simplify_eq. split; [done|]. intros s Hs _. by exists s. Qed.

Lemma follows_panic {A} : follows (A := A) panic panic.
Proof. done. Qed.

Lemma follows_no_fuel {A} : follows (A := A) no_fuel no_fuel.
Proof. done. Qed.

Lemma follows_when (b : bool) m0 m : follows m0 m -> follows (when b m0) (when b m).
Proof. destruct b; [done|]. intros _. apply follows_ret. Qed.

(** Code that only reads memory, and so does the same in a larger one. *)
Definition reads {A} (f : ST memory A) : Prop :=
  forall m0 a m0', f m0 = Ret (a, m0') -> m0' = m0 /\ forall m, m0 ⊆ m -> f m = Ret (a, m).

Lemma follows_on_memory {A} (f : ST memory A) : reads f -> follows (on_memory f) (on_memory f).
Proof.
  intros Hf s0 a s0' E. unfold on_memory in E. destruct (f s0.1) as [[a' m0']| |] eqn:Ef; [|done..].
  destruct (Hf _ _ _ Ef) as [-> Hf']. destruct s0 as [m0 out]; simplify_eq. split; [done|].
  intros s Hs _. exists s. split; [|done]. unfold on_memory. rewrite (Hf' s.1); [by destruct s|apply Hs].
Qed.

Lemma reads_load p : reads (load p).
Proof.
  intros m0 a m0' E. unfold load in *. destruct (m0 !! p) eqn:Ep; simplify_eq. split; [done|].
  intros m Hm. by rewrite (lookup_weaken _ _ _ _ Ep Hm).
Qed.

Lemma reads_ret {A} (a : A) : reads (mret a).
Proof. by intros m0 a' m0' [= <- <-]. Qed.

Lemma reads_bind {A B} (f : ST memory A) (k : A -> ST memory B) : reads f -> (forall a, reads (k a)) -> reads (f ≫= k).
Proof.
  intros Hf Hk m0 b m0' E. unfold mbind, ST_bind in E. destruct (f m0) as [[a m1]| |] eqn:E1; [|done..].
  destruct (Hf _ _ _ E1) as [-> Hf']. destruct (Hk a _ _ _ E) as [-> Hk']. split; [done|].
  intros m Hm. by rewrite (bind_run _ _ _ _ _ (Hf' m Hm)), Hk'.
Qed.

Lemma reads_strnlen fuel p maxlen : reads (strnlen fuel p maxlen).
Proof.
  unfold strnlen. generalize 0. induction fuel as [|fuel IH]; intros n; [done|].
  cbn [strnlen_loop]. apply reads_bind; [apply reads_load|]. intros a. destruct (_ && _); [apply IH|apply reads_ret].
Qed.

Context (Hbuf : 0 < buffer) (Hsize : 0 < size) (Hend : buffer + size <= 2 ^ 32).

Lemma follows_output ch : follows (collect ch) (vsnprintf_helper ch).
Proof.
  intros [m0 out] [] s0' [= <-]. simpl. rewrite length_app. split; [simpl; lia|].
  intros [m aux] Hs Hlen. simpl in Hlen. destruct Hs as [H1 H2 H3 H4 H5 H6 H7 H8]; simpl in *.
  unfold vsnprintf_helper. rewrite (bind_run _ _ _ aux (m, aux)) by done.
  set (aux1 := mk_aux (aux_p aux) (s32 (aux_length aux + 1)) (aux_max_length aux)).
  rewrite (bind_run _ _ _ tt (m, aux1)) by done. rewrite H3, H4.
  assert (El : aux_length aux1 = length out + 1) by (unfold aux1; simpl; rewrite H3; apply s32_small; urange; lia).
  simpl in El.
  destruct (Z.ltb_spec (length out) (size - 1)) as [Hlt|Hge].
  - assert (Ep : aux_p aux = buffer + length out) by lia.
    set (aux2 := mk_aux (aux_p aux1 +u 1) (aux_length aux1) (aux_max_length aux1)).
    rewrite (bind_run _ _ _ tt (m, aux2)) by done.
    destruct (H7 (aux_p aux)) as [x Hx]; [unfold in_buffer; lia|].
    exists (<[aux_p aux := ch]> m, aux2). split; [unfold on_memory, store; simpl; by rewrite Hx|].
    constructor; simpl; rewrite ?length_app; simpl.
    + apply map_subseteq_spec. intros a b Hab. rewrite lookup_insert_ne; [by eapply lookup_weaken|].
      intros <-. rewrite H2 in Hab; [done|unfold in_buffer; lia].
    + done.
    + lia.
    + done.
    + rewrite Ep, u32_small by (urange; lia). lia.
    + intros i Hi Hi2. rewrite Ep. destruct (decide (i = length out)) as [->|].
      * rewrite lookup_insert_eq. by rewrite list_lookup_middle.
      * rewrite lookup_insert_ne by lia. rewrite lookup_app_l by lia. apply H6; lia.
    + intros a Ha. rewrite lookup_insert. case_decide; [by eexists|by apply H7].
    + intros a Ha. rewrite lookup_insert_ne; [by apply H8|]. intros <-. apply Ha. unfold in_buffer. lia.
  - exists (m, aux1). split; [done|]. constructor; simpl; rewrite ?length_app; simpl; try done.
    + lia.
    + lia.
    + intros i Hi Hi2. rewrite lookup_app_l by lia. apply H6; lia.
Qed.
End Sim.

Create HintDb follows.
#[export] Hint Resolve follows_ret follows_lift follows_panic follows_no_fuel follows_when : follows.

Section Format.
Context (buffer size : Z) (m_init : memory) (Hbuf : 0 < buffer) (Hsize : 0 < size) (Hend : buffer + size <= 2 ^ 32).
Let F {A} := @follows buffer size m_init A.

Ltac follow :=
  repeat first
    [ apply follows_bind; [|intros ?]
    | apply follows_when | apply follows_ret | apply follows_lift | apply follows_panic | apply follows_no_fuel
    | apply follows_output; assumption
    | apply follows_on_memory; first [apply reads_load | apply reads_strnlen]
    | progress unfold F in *
    | match goal with |- follows _ _ _ (match ?x with _ => _ end) _ => destruct x end
    | solve [auto] ].

Lemma follows_dup ch n : F (output_dup collect ch n) (output_dup vsnprintf_helper ch n).
Proof. induction n as [|n IH]; cbn [output_dup]; follow. Qed.

Lemma follows_all l : F (output_all collect l) (output_all vsnprintf_helper l).
Proof. induction l as [|ch l IH]; cbn [output_all]; follow. Qed.

Hint Resolve follows_dup follows_all : core.

Lemma follows_integer value sg ng b c :
  F (format_integer collect value sg ng b c) (format_integer vsnprintf_helper value sg ng b c).
Proof. unfold format_integer. follow; first [apply follows_dup|apply follows_all]. Qed.

Lemma follows_string_chars n str i :
  F (output_string collect n str i) (output_string vsnprintf_helper n str i).
Proof.
  revert i. induction n as [|n IH]; intros i; cbn [output_string]; follow. unfold str_char. follow.
Qed.

Lemma follows_string str len c :
  F (format_string collect str len c) (format_string vsnprintf_helper str len c).
Proof. unfold format_string. follow; first [apply follows_dup|apply follows_string_chars]. Qed.

#[local] Opaque format_integer format_string.

Lemma follows_conversion fuel conv c args :
  match conversion collect fuel conv c args, conversion vsnprintf_helper fuel conv c args with
  | Some a0, Some a => F a0 a
  | None, None => True
  | _, _ => False
  end.
Proof.
  unfold conversion.
  repeat match goal with |- context [if ?b then Some _ else _] => destruct b end; try exact I; follow;
    try (match goal with x : (_ * _)%type |- _ => destruct x end); follow;
    try first [apply follows_integer | apply follows_string].
  unfold str_nlen. follow.
Qed.

Lemma follows_vprintf sf fuel format args :
  F (vprintf_loop collect sf fuel format args) (vprintf_loop vsnprintf_helper sf fuel format args).
Proof.
  revert format args. induction fuel as [|fuel IH]; intros format args; cbn [vprintf_loop]; [follow|].
  apply follows_bind; [follow|]. intros ch. destruct (ch =? 0); [follow|]. destruct (negb (ch =? 37)); [follow|].
  apply follows_bind; [follow|]. intros ch2. destruct (ch2 =? 37); [follow|].
  apply follows_bind; [follow|]. intros [[format' c] args']. apply follows_bind; [follow|]. intros conv.
  pose proof (follows_conversion sf conv c args') as Hc. destruct (conversion collect sf conv c args'), (conversion vsnprintf_helper sf conv c args');
    try done; follow; done.
Qed.
End Format.

(** ** Integers *)

(** [act] adds [l] to the output. *)
Definition emits (act : ST (memory * list Z) unit) (l : list Z) : Prop :=
  forall m out, act (m, out) = Ret (tt, (m, out ++ l)).

Lemma emits_ret : emits (mret tt) [].
Proof. intros m out. by rewrite app_nil_r. Qed.
Lemma emits_one ch : emits (collect ch) [ch].
Proof. done. Qed.
Lemma emits_seq a b la lb : emits a la -> emits b lb -> emits (a;; b) (la ++ lb).
Proof. intros Ha Hb m out. rewrite (bind_run _ _ _ _ _ (Ha m out)), Hb. by rewrite app_assoc. Qed.
Lemma emits_when (b : bool) a l : emits a l -> emits (when b a) (if b then l else []).
Proof. destruct b; [done|]. intros _. apply emits_ret. Qed.
Lemma emits_dup ch n : emits (output_dup collect ch n) (replicate n ch).
Proof. induction n as [|n IH]; cbn [output_dup]; [apply emits_ret|]. apply (emits_seq _ _ [ch]); [apply emits_one|done]. Qed.
Lemma emits_all l : emits (output_all collect l) l.
Proof. induction l as [|ch l IH]; cbn [output_all]; [apply emits_ret|]. apply (emits_seq _ _ [ch]); [apply emits_one|done]. Qed.

(** The four bases. *)
Record base_ok (b : integer_base) : Prop := {
  bo_base : 8 <= base b;
  bo_digits : length (digits b) = Z.to_nat (base b);
  bo_group : 0 < group b;
}.

Lemma bases_ok : base_ok base_d /\ base_ok base_o /\ base_ok base_x /\ base_ok base_X.
Proof. by repeat split. Qed.

Lemma push_ok ch buf : length buf < 64 -> push ch buf = Ret (ch :: buf).
Proof. intros H. unfold push. by destruct (Z.ltb_spec (length buf) 64); [|lia]. Qed.

(** At most 22 digits, with as many separators, fit. *)
Lemma push_digits_ok fuel b g value (j : nat) k buf : base_ok b -> 0 <= value < 8 ^ j -> (j < fuel)%nat ->
  0 <= k -> length buf <= 2 * k -> k + j <= 22 ->
  exists buf', push_digits fuel b g value k buf = Ret buf' /\ length buf' <= 44.
Proof.
  intros Hb. pose proof (bo_base b Hb) as H8. revert value j k buf.
  induction fuel as [|fuel IH]; intros value j k buf Hv Hj Hk Hl Hkj; [lia|]. cbn [push_digits].
  destruct (Z.ltb_spec 0 value) as [Hpos|]; [|exists buf; split; [done|lia]].
  destruct j as [|j]; [simpl in Hv; lia|].
  set (sep := g && _ && _).
  assert (E : exists b1, (if sep then push 44 buf else Ret buf) = Ret b1 /\ length b1 <= 2 * k + 1).
  { destruct sep; [|exists buf; split; [done|lia]]. rewrite push_ok by lia. eexists. split; [done|]. simpl. lia. }
  destruct E as (b1 & E & Hl1). rewrite E. cbn [mbind outcome_bind].
  assert (Hm : 0 <= value mod base b < base b) by (apply Z.mod_pos_bound; lia).
  destruct (lookup_lt_is_Some_2 (digits b) (Z.to_nat (value mod base b))) as [ch Hch]; [rewrite (bo_digits b Hb); lia|].
  rewrite Hch, push_ok by lia. cbn [mbind outcome_bind].
  apply (IH _ j); [|lia|lia|simpl; lia|lia].
  replace (Z.of_nat (S j)) with (Z.succ j) in Hv by lia. rewrite Z.pow_succ_r in Hv by lia.
  split; [apply Z.div_pos; lia|]. apply Z.div_lt_upper_bound; [lia|]. nia.
Qed.

Lemma push_zeros_ok (fuel : nat) p buf : length buf <= 63 -> 63 - length buf < fuel ->
  exists n, push_zeros fuel p buf = Ret (replicate n 48 ++ buf) /\ n = Z.to_nat (Z.min p 63 - length buf).
Proof.
  revert buf. induction fuel as [|fuel IH]; intros buf Hl Hf; [lia|]. cbn [push_zeros].
  destruct (Z.ltb_spec (length buf) p); [destruct (Z.ltb_spec (length buf) 63)|]; cbn [andb].
  - rewrite push_ok by lia. cbn [mbind outcome_bind]. destruct (IH (48 :: buf)) as (n & E & ->); [simpl; lia..|].
    eexists. split; [|done]. rewrite E. f_equal. cbn [length].
    replace (Z.to_nat (Z.min p 63 - length buf)) with (S (Z.to_nat (Z.min p 63 - S (length buf)))) by lia.
    by rewrite replicate_S_end, <- app_assoc.
  - exists 0%nat. split; [done|lia].
  - exists 0%nat. split; [done|lia].
Qed.

(** The buffer of [format_integer] is never overrun. *)
Lemma integer_digits_ok value b c : base_ok b -> 0 <= value < 2 ^ 64 ->
  exists buf, integer_digits value b c = Ret buf /\ length buf <= 64.
Proof.
  intros Hb Hv. unfold integer_digits. generalize (eq_refl 65%nat). generalize 65%nat at 1 3 4. intros fuel Ef.
  destruct (push_digits_ok fuel b (flag c GROUP) value 22 0 [] Hb) as (b1 & E1 & Hl1); [|lia|lia|simpl; lia|lia|].
  { split; [lia|]. change (8 ^ 22%nat) with 73786976294838206464. lia. }
  rewrite E1. cbn [mbind outcome_bind].
  destruct (push_zeros_ok fuel (if precision c <? 0 then 1 else precision c) b1) as (n & E2 & Hn); [lia..|].
  rewrite E2. cbn [mbind outcome_bind].
  assert (Hl : length (replicate n 48 ++ b1) <= 63) by (rewrite length_app, length_replicate; lia).
  destruct (_ && _ && _); [|eexists; split; [done|lia]].
  rewrite push_ok by lia. eexists. split; [done|]. cbn [length]. lia.
Qed.

Definition digit_char (b : integer_base) (v : Z) : Z := nth (Z.to_nat v) (digits b) 0.

(** [vals] are the digits of [value] in base [b], without leading zeros. *)
Definition digits_of (b : integer_base) (value : Z) (vals : list Z) : Prop :=
  Forall (fun d => 0 <= d < base b) vals /\ horner (base b) vals = value /\ head vals <> Some 0.

Lemma horner_pos base vals : 0 < base -> Forall (fun d => 0 <= d < base) vals -> 0 <= horner base vals.
Proof.
  intros Hb. induction vals as [|d vals IH] using rev_ind; [done|].
  intros [H1 [H2 _]%Forall_cons]%Forall_app. rewrite horner_snoc. specialize (IH H1). nia.
Qed.

(** The loop of [format_integer] without separators. *)
Lemma push_digits_value fuel b value (j : nat) k buf : base_ok b -> 0 <= value < 8 ^ j -> (j < fuel)%nat -> length buf + j <= 63 ->
  exists vals, push_digits fuel b false value k buf = Ret (map (digit_char b) vals ++ buf) /\ (length vals <= j)%nat /\
    digits_of b value vals.
Proof.
  intros Hb. pose proof (bo_base b Hb) as H8. revert value j k buf.
  induction fuel as [|fuel IH]; intros value j k buf Hv Hj Hl; [lia|]. cbn [push_digits andb].
  destruct (Z.ltb_spec 0 value) as [Hpos|].
  2:{ exists []. unfold digits_of. split_and!; [done|simpl; lia|done|unfold horner; simpl; lia|done]. }
  destruct j as [|j]; [simpl in Hv; lia|]. cbn [mbind outcome_bind].
  assert (Hm : 0 <= value mod base b < base b) by (apply Z.mod_pos_bound; lia).
  destruct (lookup_lt_is_Some_2 (digits b) (Z.to_nat (value mod base b))) as [ch Hch]; [rewrite (bo_digits b Hb); lia|].
  rewrite Hch, push_ok by lia. cbn [mbind outcome_bind].
  replace (Z.of_nat (S j)) with (Z.succ j) in Hv by lia. rewrite Z.pow_succ_r in Hv by lia.
  destruct (IH (value / base b) j (k + 1) (ch :: buf)) as (vals & E & Hlen & Hf & Hh & Hhd); [|lia|simpl; lia|].
  { split; [apply Z.div_pos; lia|]. apply Z.div_lt_upper_bound; [lia|]. nia. }
  exists (vals ++ [value mod base b]). rewrite E. unfold digits_of. split_and!.
  - assert (Ec : digit_char b (value mod base b) = ch) by (unfold digit_char; by rewrite nth_lookup, Hch).
    rewrite map_app, <- app_assoc. simpl. by rewrite Ec.
  - rewrite length_app. simpl. lia.
  - apply Forall_app. split; [done|]. apply Forall_singleton. done.
  - rewrite horner_snoc, Hh. pose proof (Z.div_mod value (base b)). lia.
  - destruct vals as [|d vals]; [|done]. simpl. intros [= E0].
    unfold horner in Hh. simpl in Hh. pose proof (Z.div_mod value (base b)). lia.
Qed.

Lemma integer_digits_value value b c : base_ok b -> 0 <= value < 2 ^ 64 -> flag c GROUP = false ->
  exists n vals, integer_digits value b c = Ret (replicate n 48 ++ map (digit_char b) vals) /\
    digits_of b value vals /\ n + length vals <= 64 /\
    Z.min (if precision c <? 0 then 1 else precision c) 63 <= n + length vals /\
    (flag c POUND = false -> n = Z.to_nat (Z.min (if precision c <? 0 then 1 else precision c) 63 - length vals)).
Proof.
  intros Hb Hv Hg. unfold integer_digits. rewrite Hg. generalize (eq_refl 65%nat). generalize 65%nat at 1 3 4. intros fuel Ef.
  destruct (push_digits_value fuel b value 22 0 [] Hb) as (vals & E1 & Hl1 & Hd); [|lia|simpl; lia|].
  { split; [lia|]. change (8 ^ 22%nat) with 73786976294838206464. lia. }
  rewrite E1, app_nil_r. cbn [mbind outcome_bind]. set (p := if precision c <? 0 then 1 else precision c).
  destruct (push_zeros_ok fuel p (map (digit_char b) vals)) as (n & E2 & Hn); rewrite ?length_map in *; [lia..|].
  rewrite E2. cbn [mbind outcome_bind].
  destruct (flag c POUND); cbn [andb].
  2:{ exists n, vals. split_and!; [done|done|lia|lia|done]. }
  destruct ((base b =? 8) && _).
  - rewrite push_ok by (rewrite length_app, length_replicate, length_map; lia). exists (S n), vals.
    split_and!; [done|done|lia|lia|done].
  - exists n, vals. split_and!; [done|done|lia|lia|done].
Qed.

(** The sign and base prefix of a number. *)
Definition number_prefix (value : Z) (is_signed negative : bool) (b : integer_base) (c : printf_conversion) : list Z :=
  let sign := sign_char is_signed negative c in
  let x := if flag c POUND && negb (value =? 0) then x_char b else 0 in
  (if sign =? 0 then [] else [sign]) ++ (if x =? 0 then [] else [48; x]).

(** A field: the prefix and the digits, padded on the left or right. *)
Definition number_field (c : printf_conversion) (prefix body : list Z) : list Z :=
  let pad := Z.to_nat (width c - length prefix - length body) in
  (if flag c MINUS || flag c ZERO then [] else replicate pad 32) ++ prefix ++
  (if flag c ZERO then replicate pad 48 else []) ++ body ++ (if flag c MINUS then replicate pad 32 else []).

Lemma emits_integer value sg ng b c body : integer_digits value b c = Ret body -> length body <= 64 -> 0 <= width c < 2 ^ 31 ->
  emits (format_integer collect value sg ng b c) (number_field c (number_prefix value sg ng b c) body).
Proof.
  intros E Hl Hw m out. unfold format_integer, number_field, number_prefix. rewrite E.
  set (sign := sign_char sg ng c). set (x := if flag c POUND && negb (value =? 0) then x_char b else 0).
  rewrite (bind_run _ _ _ body (m, out)) by done. cbv zeta.
  set (pfx := (if sign =? 0 then [] else [sign]) ++ (if x =? 0 then [] else [48; x])).
  assert (Hp : Z.of_nat (length pfx) = (if negb (x =? 0) then 2 else 0) + (if negb (sign =? 0) then 1 else 0) /\ length pfx <= 3)
    by (unfold pfx; rewrite length_app; zcases; simpl; lia).
  set (pad := s32 _). assert (Ep : Z.to_nat (if pad <? 0 then 0 else pad) = Z.to_nat (width c - length pfx - length body)).
  { unfold pad. rewrite s32_small by (urange; lia). zcases; lia. }
  rewrite Ep. set (n := Z.to_nat _). 
  assert (Em : emits (when (negb (flag c MINUS || flag c ZERO)) (output_dup collect 32 n);;
    when (negb (sign =? 0)) (collect sign);; when (negb (x =? 0)) (collect 48;; collect x);;
    when (flag c ZERO) (output_dup collect 48 n);; output_all collect body;; when (flag c MINUS) (output_dup collect 32 n))
    ((if negb (flag c MINUS || flag c ZERO) then replicate n 32 else []) ++
     (if negb (sign =? 0) then [sign] else []) ++ (if negb (x =? 0) then [48] ++ [x] else []) ++
     (if flag c ZERO then replicate n 48 else []) ++ body ++ (if flag c MINUS then replicate n 32 else []))).
  { repeat apply emits_seq; try apply emits_when; try apply emits_dup; try apply emits_one; try apply emits_all.
    apply emits_seq; apply emits_one. }
  rewrite Em. unfold pfx. do 4 f_equal. rewrite <- !app_assoc.
  by destruct (flag c MINUS || flag c ZERO), (sign =? 0), (x =? 0).
Qed.

(** [format_integer] prints a number of 64 bits in any base: a sign or
    base prefix, then at least as many digits as the precision asks for (up
    to 63), which denote the number, in a field at least as wide as asked,
    padded with spaces or zeros.  Its buffer of 64 characters is never
    overrun. *)
Theorem format_integer_correct value sg ng b c m out :
  base_ok b -> 0 <= value < 2 ^ 64 -> flag c GROUP = false -> 0 <= width c < 2 ^ 31 ->
  exists n vals, let body := replicate n 48 ++ map (digit_char b) vals in
    digits_of b value vals /\ length body <= 64 /\
    Z.min (if precision c <? 0 then 1 else precision c) 63 <= length body /\
    format_integer collect value sg ng b c (m, out) =
      Ret (tt, (m, out ++ number_field c (number_prefix value sg ng b c) body)).
Proof.
  intros Hb Hv Hg Hw. destruct (integer_digits_value value b c Hb Hv Hg) as (n & vals & E & Hd & Hl & Hp & _).
  exists n, vals. cbv zeta. rewrite length_app, length_replicate, length_map.
  split_and!; [done|lia|lia|]. apply emits_integer; [done| |done]. rewrite length_app, length_replicate, length_map. lia.
Qed.

(** The outcome of [vsnprintf], given what the format produces. *)
Definition stored (m m' : memory) (buffer size : Z) (out : list Z) : Prop :=
  (forall i : nat, i < size - 1 -> (i < length out)%nat -> m' !! (buffer + i) = out !! i) /\
  m' !! (buffer + Z.min (length out) (size - 1)) = Some 0 /\
  (forall a, ~ buffer <= a < buffer + size -> m' !! a = m !! a).

Lemma vsnprintf_stores sf buffer size format args (m m0 m0' : memory) out :
  0 < buffer -> 0 < size -> size <= 2 ^ 31 -> buffer + size <= 2 ^ 32 ->
  (forall a, buffer <= a < buffer + size -> is_Some (m !! a) /\ m0 !! a = None) -> m0 ⊆ m ->
  __vprintf collect sf format args (m0, []) = Ret (tt, (m0', out)) -> length out < 2 ^ 31 ->
  exists m', vsnprintf sf buffer size format args m = Ret (Z.of_nat (length out), m') /\ stored m m' buffer size out.
Proof.
  intros Hb Hs Hs31 He Hm Hsub Erun Hlen.
  destruct (follows_vprintf buffer size m Hb He sf (length format + 30) format args _ _ _ Erun) as [_ Hf].
  destruct (Hf (m, mk_aux buffer 0 (size - 1))) as ([m1 aux] & E & [H1 H2 H3 H4 H5 H6 H7 H8]); [|done|]; simpl in *.
  { constructor; simpl; try done; try lia; intros a Ha; by apply Hm. }
  unfold vsnprintf. destruct (Z.ltb_spec 0 size) as [_|]; [|lia].
  rewrite (s32_small (size - 1)) by (urange; lia). unfold __vprintf. rewrite E.
  destruct (H7 (aux_p aux)) as [x Hx]; [unfold in_buffer; lia|]. unfold store. rewrite Hx, H3.
  eexists. split; [done|]. rewrite H5. split_and!.
  - intros i Hi Hi2. rewrite lookup_insert_ne by lia. by apply H6.
  - apply lookup_insert_eq.
  - intros a Ha. rewrite lookup_insert_ne by lia. by apply H8.
Qed.

(** C37: [vsnprintf] stores what the format produces: for every format and
    arguments for which the output is [out] (no string argument lies in the
    buffer), it returns the length of [out], the buffer holds as much of
    [out] as fits in [size - 1] bytes followed by a null byte, and no other
    memory is written. *)
Theorem vsnprintf_correct sf buffer size format args (m m0 m0' : memory) out :
  0 < buffer -> 0 < size -> size <= 2 ^ 31 -> buffer + size <= 2 ^ 32 ->
  (forall a, buffer <= a < buffer + size -> is_Some (m !! a) /\ m0 !! a = None) -> m0 ⊆ m ->
  __vprintf collect sf format args (m0, []) = Ret (tt, (m0', out)) -> length out < 2 ^ 31 ->
  exists m', vsnprintf sf buffer size format args m = Ret (Z.of_nat (length out), m') /\ stored m m' buffer size out.
Proof.
  intros Hb Hs Hs31 He Hm Hsub Erun Hlen.
  destruct (vsnprintf_stores sf buffer size format args m m0 m0' out) as (m' & E & Hst); try done. by exists m'.
Qed.

(** A number with [n] digits is at least [base ^ (n - 1)]. *)
Lemma horner_lower base vals : 0 < base -> Forall (fun d => 0 <= d < base) vals -> vals <> [] -> head vals <> Some 0 ->
  base ^ (length vals - 1) <= horner base vals.
Proof.
  intros Hb. induction vals as [|d vals IH] using rev_ind; [done|]. intros [Hf [Hd _]%Forall_cons]%Forall_app _ Hh.
  rewrite horner_snoc, length_app. destruct vals as [|v vals].
  - simpl in *. unfold horner. simpl. assert (d <> 0) by congruence. lia.
  - specialize (IH Hf ltac:(done) Hh). replace ((length (v :: vals) + length [d])%nat - 1) with (Z.succ (length (v :: vals) - 1)) by (simpl; lia).
    rewrite Z.pow_succ_r by (simpl; lia). nia.
Qed.

Lemma decimal_digit v : 0 <= v < 10 -> digit_char base_d v = 48 + v.
Proof.
  intros Hv. assert (v = 0 \/ v = 1 \/ v = 2 \/ v = 3 \/ v = 4 \/ v = 5 \/ v = 6 \/ v = 7 \/ v = 8 \/ v = 9) as Hc by lia.
  by destruct_or! Hc; subst.
Qed.

Definition plain : printf_conversion := mk_conversion 0 0 (-1) INT.

(** The digits of a plain decimal number. *)
Lemma decimal_body v : 0 <= v <= 2 ^ 31 ->
  exists ds, integer_digits v base_d plain = Ret ds /\ Forall (fun c => isdigit c = true) ds /\ ds <> [] /\
    (length ds <= 10)%nat /\ horner 10 (map digit_value ds) = v.
Proof.
  intros Hv. destruct (integer_digits_value v base_d plain) as (k & vals & E & (Hf & Hh & Hhd) & _ & _ & Hk);
    [apply bases_ok|lia|done|]. specialize (Hk eq_refl). change (base base_d) with 10 in *.
  change (Z.min (if precision plain <? 0 then 1 else precision plain) 63) with 1 in Hk.
  assert (Hvd : map digit_value (map (digit_char base_d) vals) = vals).
  { rewrite map_map. rewrite <- (map_id vals) at 2. apply map_ext_in. intros d Hd%list_elem_of_In.
    rewrite Forall_forall in Hf. rewrite decimal_digit by (by apply Hf). unfold digit_value. lia. }
  assert (Hdig : Forall (fun c => isdigit c = true) (map (digit_char base_d) vals)).
  { rewrite Forall_map. eapply Forall_impl; [exact Hf|]. intros d Hd. cbv beta in Hd. simpl. rewrite decimal_digit by done.
    unfold isdigit. zcases; simpl; try lia; done. }
  rewrite E. destruct vals as [|d vals].
  - simpl in Hk. rewrite Hk. change (Z.to_nat (1 - 0%nat)) with 1%nat. simpl. eexists. split; [done|].
    split_and!; [by apply Forall_singleton|done|simpl; lia|]. unfold horner in Hh. simpl in Hh. by subst.
  - assert (k = 0%nat) as -> by (simpl in Hk; lia). eexists. split; [done|].
    cbn [replicate app]. split_and!; [done|done| |by rewrite Hvd]. rewrite length_map.
    pose proof (horner_lower 10 (d :: vals) ltac:(lia) Hf ltac:(done) Hhd) as Hlo.
    destruct (decide (length (d :: vals) <= 10)); [lia|].
    assert (10 ^ 10 <= 10 ^ (length (d :: vals) - 1)) by (apply Z.pow_le_mono_r; lia). lia.
Qed.

Lemma s32_u32 n : is_s32 n -> s32 (u32 n) = n.
Proof.
  intros Hn. rewrite (s32_cong (u32 n) n); [by apply s32_small|]. unfold u32.
  rewrite Zminus_mod, Z.mod_mod, Z.sub_diag by lia. done.
Qed.

(** What "%d" prints. *)
Lemma print_decimal sf n m out : is_s32 n ->
  exists ds, __vprintf collect sf (chars "%d" ++ [0]) [u32 n] (m, out) = Ret (tt, (m, out ++ (if n <? 0 then [45] else []) ++ ds)) /\
    Forall (fun c => isdigit c = true) ds /\ ds <> [] /\ (length ds <= 10)%nat /\ horner 10 (map digit_value ds) = Z.abs n.
Proof.
  intros Hn. destruct (decimal_body (Z.abs n)) as (ds & E & Hd & Hne & Hl & Hh); [urange; lia|].
  exists ds. split; [|done].
  assert (En : u64 (if n <? 0 then - n else n) = Z.abs n) by (urange; rewrite Z.mod_small; zcases; lia).
  assert (Ef : format_integer collect (Z.abs n) true (n <? 0) base_d plain (m, out) =
    Ret (tt, (m, out ++ (if n <? 0 then [45] else []) ++ ds))).
  { rewrite (emits_integer (Z.abs n) true (n <? 0) base_d plain ds E) by (simpl; lia). do 4 f_equal.
    unfold number_field, number_prefix. change (width plain) with 0.
    replace (Z.to_nat _) with 0%nat by lia. change (sign_char true (n <? 0) plain) with (if n <? 0 then 45 else 0).
    simpl. by destruct (n <? 0); simpl; rewrite app_nil_r. }
  unfold __vprintf. change (chars "%d" ++ [0]) with [37; 100; 0]. change (length [37%Z; 100%Z; 0%Z] + 30)%nat with (S (S 31)).
  generalize 31%nat. intros fuel. remember (S fuel) as fuel' eqn:Ef'. cbn [vprintf_loop]. rewrite (bind_run _ _ _ 37 (m, out)) by done. change (37 =? 0) with false. change (37 =? 37) with true.
  cbv iota beta delta [negb]. rewrite (bind_run _ _ _ 100 (m, out)) by done. change (100 =? 37) with false. cbv iota.
  rewrite (bind_run _ _ _ ([100; 0], plain, [u32 n]) (m, out)) by done.
  rewrite (bind_run _ _ _ 100 (m, out)) by done.
  unfold conversion. change ((100 =? 100) || (100 =? 105)) with true. cbv iota.
  rewrite (bind_run _ _ _ [] (m, out ++ (if n <? 0 then [45] else []) ++ ds)); [by subst|].
  rewrite (bind_run _ _ _ (n, []) (m, out)) by (unfold lift; simpl; by rewrite s32_u32).
  rewrite En. by rewrite (bind_run _ _ _ _ _ Ef).
Qed.

(** Printing and reading a number: for every [int], what [vsnprintf]
    stores for the format "%d" in a buffer of at least 12 bytes is read back
    by [atoi] as the same number. *)
Theorem print_atoi_roundtrip sf fuel buffer size m n :
  is_s32 n -> 0 < buffer -> 12 <= size -> size <= 2 ^ 31 -> buffer + size < 2 ^ 32 ->
  (forall a, buffer <= a < buffer + size -> is_Some (m !! a)) -> (12 <= fuel)%nat ->
  exists len m', vsnprintf sf buffer size (chars "%d" ++ [0]) [u32 n] m = Ret (len, m') /\
    atoi fuel buffer m' = Ret (n, m').
Proof.
  intros Hn Hb Hs Hs31 He Hm Hf. destruct (print_decimal sf n ∅ [] Hn) as (ds & E & Hd & Hne & Hl & Hh).
  set (out := (if n <? 0 then [45] else []) ++ ds) in *. simpl in E.
  assert (Hlo : (length out <= 11)%nat) by (unfold out; rewrite length_app; destruct (n <? 0); simpl; lia).
  destruct (vsnprintf_stores sf buffer size (chars "%d" ++ [0]) [u32 n] m ∅ ∅ out) as (m' & Er & Hst & H0 & _);
    [done|lia|done|lia|intros a Ha; split; [by apply Hm|done]|apply map_empty_subseteq|exact E|lia|].
  exists (Z.of_nat (length out)), m'. split; [exact Er|].
  replace (Z.min (length out) (size - 1)) with (Z.of_nat (length out)) in H0 by lia.
  assert (Hc : forall c, isdigit c = true -> is_u8 c /\ c <> 0)
    by (intros c Hc; unfold isdigit in Hc; zcases; simpl in Hc; try done; urange; lia).
  assert (Hcs : cstr m' buffer out).
  { split_and!; [done|lia| | |].
    - unfold out. apply Forall_app. split; [by destruct (n <? 0); [apply Forall_singleton|]|].
      eapply Forall_impl; [exact Hd|done].
    - intros k c Hk. pose proof (lookup_lt_Some _ _ _ Hk). by rewrite Hst by lia.
    - done. }
  assert (Hcs' : cstr m' buffer ([] ++ (if n <? 0 then [45] else []) ++ ds ++ [])) by (simpl; by rewrite app_nil_r).
  rewrite (atoi_eq fuel m' buffer [] (if n <? 0 then [45] else []) ds []); [|done|done|by destruct (n <? 0); auto|done|done|done|simpl; lia].
  rewrite Hh. do 2 f_equal.
  destruct (Z.ltb_spec n 0); [rewrite bool_decide_true by done|rewrite bool_decide_false by done];
    rewrite s32_small; try lia; urange; lia.
Qed.

(** ** Examples *)

Definition demo_buffer : memory := list_to_map (zip (seqZ 16 12) (replicate 12 1)).

Lemma demo_buffer_mapped a : 16 <= a < 28 -> is_Some (demo_buffer !! a).
Proof.
  intros Ha. assert (a = 16 \/ a = 17 \/ a = 18 \/ a = 19 \/ a = 20 \/ a = 21 \/ a = 22 \/ a = 23 \/ a = 24 \/ a = 25 \/ a = 26 \/ a = 27) as Hc by lia.
  destruct_or! Hc; subst; by eexists.
Qed.

Lemma format_integer_correct_witness :
  exists n vals, let body := replicate n 48 ++ map (digit_char base_x) vals in
    digits_of base_x 48879 vals /\ length body <= 64 /\ 6 <= length body /\
    format_integer collect 48879 false false base_x (mk_conversion POUND 12 6 INT) (∅, []) =
      Ret (tt, (∅, number_field (mk_conversion POUND 12 6 INT) [48; 120] body)).
Proof.
  apply (format_integer_correct 48879 false false base_x (mk_conversion POUND 12 6 INT) ∅ []);
    [apply bases_ok|done|reflexivity|done].
Defined.

(** "x=%d!" needs five characters and gets four bytes. *)
Lemma vsnprintf_correct_witness :
  exists m', vsnprintf 1 16 4 (chars "x=%d!" ++ [0]) [42] demo_buffer = Ret (5, m') /\
    stored demo_buffer m' 16 4 (chars "x=42!").
Proof.
  apply (vsnprintf_correct 1 16 4 (chars "x=%d!" ++ [0]) [42] demo_buffer ∅ ∅ (chars "x=42!")); try done.
  - intros a Ha. split; [apply demo_buffer_mapped; lia|reflexivity].
  - apply map_empty_subseteq.
Defined.

Lemma print_atoi_roundtrip_witness :
  exists len m', vsnprintf 1 16 12 (chars "%d" ++ [0]) [u32 (-42)] demo_buffer = Ret (len, m') /\
    atoi 12 16 m' = Ret (-42, m').
Proof.
  apply (print_atoi_roundtrip 1 12 16 12 demo_buffer (-42)); try done.
  intros a Ha. apply demo_buffer_mapped. lia.
Defined.
