(* ===== verification/Random.v ===== *)
(** * Pseudo-random numbers: lib/random.c

    The RC4 state is an array of 256 bytes with two indices; [uint8_t]
    arithmetic wraps at 256. *)

From S2P Require Import Prelude Bytes.

Record rc4 := mk_rc4 { s : list Z; s_i : Z; s_j : Z; inited : bool }.

(** An element of an array of 256, whose index is a byte. *)
Definition byte_at (a : list Z) (i : Z) : outcome Z :=
  match a !! Z.to_nat i with Some x => Ret x | None => Panic end.

Definition swap_byte (a : list Z) (i j : Z) : outcome (list Z) :=
  x ← byte_at a i; y ← byte_at a j; Ret (<[Z.to_nat j := x]> (<[Z.to_nat i := y]> a)).

(** The second loop of [random_init], [n] turns from [i] on. *)
Fixpoint key_schedule (n : nat) (i j : Z) (seedp a : list Z) : outcome (list Z) :=
  match n with
  | O => Ret a
  | S n =>
    x ← byte_at a i;
    k ← byte_at seedp (i mod 4);
    let j := u8 (j + (x + k)) in
    a ← swap_byte a i j;
    key_schedule n (i + 1) j seedp a
  end.

Definition random_init (seed : Z) : ST rc4 unit :=
  a ← lift (key_schedule 256 0 0 (to_le 4 seed) (seqZ 0 256));
  modify (fun _ => mk_rc4 a 0 0 true).

(** The body of the loop of [random_bytes]. *)
Definition random_byte : ST rc4 Z := fun r =>
  let i := u8 (s_i r + 1) in
  match (x ← byte_at (s r) i;
         let j := u8 (s_j r + x) in
         a ← swap_byte (s r) i j;
         x ← byte_at a i; y ← byte_at a j;
         b ← byte_at a (u8 (x + y));
         Ret (b, mk_rc4 a i j (inited r))) with
  | Ret p => Ret p
  | Panic => Panic
  | OutOfFuel => OutOfFuel
  end.

Fixpoint random_loop (size : nat) : ST rc4 (list Z) :=
  match size with
  | O => mret []
  | S size => b ← random_byte; l ← random_loop size; mret (b :: l)
  end.

Definition random_bytes (size : Z) : ST rc4 (list Z) :=
  i ← gets inited;
  when (negb i) (random_init 0);;
  random_loop (Z.to_nat size).

Definition random_ulong : ST rc4 Z := l ← random_bytes 4; mret (of_le l).

(** ** Properties *)

(** The array is a permutation of the bytes; both indices are bytes. *)
Record rc4_ok (r : rc4) : Prop := {
  ro_perm : s r ≡ₚ seqZ 0 256;
  ro_i : is_u8 (s_i r);
  ro_j : is_u8 (s_j r);
}.

Definition state_ok (r : rc4) : Prop := inited r = true -> rc4_ok r.

Lemma bytes_length a : a ≡ₚ seqZ 0 256 -> length a = 256%nat.
Proof. intros H. by rewrite (Permutation_length H), length_seqZ. Qed.

Lemma at_ok a i : a ≡ₚ seqZ 0 256 -> is_u8 i -> exists x, byte_at a i = Ret x /\ a !! Z.to_nat i = Some x /\ is_u8 x.
Proof.
  intros Ha Hi. destruct (lookup_lt_is_Some_2 a (Z.to_nat i)) as [x Hx]; [rewrite (bytes_length a Ha); urange; lia|].
  exists x. unfold byte_at. rewrite Hx. split_and!; [done..|].
  apply list_elem_of_lookup_2 in Hx. rewrite Ha in Hx. apply elem_of_seqZ in Hx. urange. lia.
Qed.

Lemma swap_perm (a : list Z) (i j : nat) x y : a !! i = Some x -> a !! j = Some y -> <[j := x]> (<[i := y]> a) ≡ₚ a.
Proof.
  intros Hi Hj. apply Permutation_inj. split; [by rewrite !length_insert|].
  exists (fun n => if decide (n = j) then i else if decide (n = i) then j else n). split.
  - intros n m. repeat case_decide; congruence.
  - intros n. pose proof (lookup_lt_Some _ _ _ Hi). pose proof (lookup_lt_Some _ _ _ Hj).
    rewrite !list_lookup_insert, length_insert. repeat case_decide; destruct_and?; subst; try congruence; try lia.
Qed.

Lemma swap_byte_ok a i j : a ≡ₚ seqZ 0 256 -> is_u8 i -> is_u8 j -> exists a', swap_byte a i j = Ret a' /\ a' ≡ₚ seqZ 0 256.
Proof.
  intros Ha Hi Hj. destruct (at_ok a i Ha Hi) as (x & Ex & Hx & _), (at_ok a j Ha Hj) as (y & Ey & Hy & _).
  unfold swap_byte. rewrite Ex. cbn. rewrite Ey. cbn. eexists. split; [done|]. by rewrite (swap_perm a _ _ x y).
Qed.

Lemma key_schedule_ok (n : nat) i j seedp a : a ≡ₚ seqZ 0 256 -> length seedp = 4%nat -> 0 <= i -> i + n <= 256 -> is_u8 j ->
  exists a', key_schedule n i j seedp a = Ret a' /\ a' ≡ₚ seqZ 0 256.
Proof.
  intros Ha Hs. revert i j a Ha. induction n as [|n IH]; intros i j a Ha Hi Hn Hj; [by exists a|].
  cbn [key_schedule]. destruct (at_ok a i Ha) as (x & -> & _ & _); [urange; lia|]. cbn [mbind outcome_bind].
  assert (Hk : exists k, byte_at seedp (i mod 4) = Ret k).
  { unfold byte_at. pose proof (Z.mod_pos_bound i 4). destruct (lookup_lt_is_Some_2 seedp (Z.to_nat (i mod 4))) as [k ->]; [lia|]. by exists k. }
  destruct Hk as [k ->]. cbn [mbind outcome_bind].
  destruct (swap_byte_ok a i (u8 (j + (x + k))) Ha) as (a' & -> & Ha'); [urange; lia|apply u8_range|].
  cbn [mbind outcome_bind]. apply IH; [done|lia|lia|apply u8_range].
Qed.

Lemma random_init_ok seed r : exists r', random_init seed r = Ret (tt, r') /\ rc4_ok r' /\ inited r' = true.
Proof.
  unfold random_init. destruct (key_schedule_ok 256 0 0 (to_le 4 seed) (seqZ 0 256)) as (a & E & Ha);
    [done|apply to_le_length|lia|lia|done|].
  rewrite (bind_run _ _ _ a r) by (unfold lift; by rewrite E). eexists. split; [done|]. by split.
Qed.

Lemma random_byte_ok r : rc4_ok r -> exists b r', random_byte r = Ret (b, r') /\ is_u8 b /\ rc4_ok r' /\ inited r' = inited r.
Proof.
  intros [Hp Hi Hj]. unfold random_byte. set (i := u8 (s_i r + 1)). assert (Hi' : is_u8 i) by apply u8_range.
  destruct (at_ok (s r) i Hp Hi') as (x & -> & _). cbn [mbind outcome_bind]. set (j := u8 (s_j r + x)).
  assert (Hj' : is_u8 j) by apply u8_range.
  destruct (swap_byte_ok (s r) i j Hp Hi' Hj') as (a & -> & Ha). cbn [mbind outcome_bind].
  destruct (at_ok a i Ha Hi') as (y & -> & _), (at_ok a j Ha Hj') as (z & -> & _). cbn [mbind outcome_bind].
  destruct (at_ok a (u8 (y + z)) Ha (u8_range _)) as (b & -> & _ & Hb). cbn [mbind outcome_bind].
  eexists _, _. split; [done|]. done.
Qed.

Lemma random_loop_ok n r : rc4_ok r ->
  exists l r', random_loop n r = Ret (l, r') /\ length l = n /\ all_bytes l /\ rc4_ok r' /\ inited r' = inited r.
Proof.
  revert r. induction n as [|n IH]; intros r Hr; cbn [random_loop].
  - exists [], r. split_and!; [done|done|by apply Forall_nil|done|done].
  - destruct (random_byte_ok r Hr) as (b & r1 & E1 & Hb & Hr1 & Ei1). rewrite (bind_run _ _ _ _ _ E1).
    destruct (IH r1 Hr1) as (l & r2 & E2 & Hl & Hbl & Hr2 & Ei2). rewrite (bind_run _ _ _ _ _ E2).
    exists (b :: l), r2. split; [done|]. split; [simpl; by rewrite Hl|]. split; [by apply Forall_cons|]. split; [done|congruence].
Qed.


(** The state at boot. *)
Definition boot_rc4 : rc4 := mk_rc4 (replicate 256 0) 0 0 false.

