(* ===== verification/Process.v ===== *)
(** * Processes: userprog/process.c

    The command line of a process: [execute_thread] splits it into words
    with [strtok_r] and builds the initial stack that [main] of the user
    program reads, after [load] has mapped the stack page.  Memory holds the
    page of the command line, the literal [" "] and the stack page. *)

From S2P Require Import Prelude Bytes CString Vaddr.

(** A 32-bit store, byte by byte. *)
Fixpoint store_bytes (p : Z) (l : list Z) : ST memory unit :=
  match l with
  | [] => mret tt
  | b :: l => store p b;; store_bytes (p +u 1) l
  end.
Definition store_word (p v : Z) : ST memory unit := store_bytes p (to_le 4 v).

(** The size of [argv_temp]. *)
Definition ARGV_TEMP : Z := 100.

Section Arguments.
(** The address of the literal [" "]. *)
Context (blank : Z).

(** The loop over [strtok_r]: a word is stored at [argv_temp[count]], an
    array of 100 elements. *)
Fixpoint parse_args (fuel : nat) (s save count : Z) : ST memory (list Z) :=
  match fuel with
  | O => no_fuel
  | S fuel' =>
    r ← strtok_r fuel s blank save;
    let '(token, save) := (r : Z * Z) in
    if token =? 0 then mret []
    else
      ASSERT (count <? ARGV_TEMP);;
      ts ← parse_args fuel' 0 save (count + 1); mret (token :: ts)
  end.

Section Stack.
Context (fuel : nat).

(** [arg_length[i] = strlen (argv_count[i]) + 1]. *)
Fixpoint arg_lengths (argv : list Z) : ST memory (list Z) :=
  match argv with
  | [] => mret []
  | a :: argv => n ← strlen fuel a; ns ← arg_lengths argv; mret (n +u 1 :: ns)
  end.

Fixpoint copy_args (argv lengths : list Z) (temp : Z) : ST memory unit :=
  match argv, lengths with
  | a :: argv, n :: lengths => strlcpy fuel temp a n;; copy_args argv lengths (temp +u n)
  | _, _ => mret tt
  end.

(** The loop that clears [num_word_align] bytes. *)
Fixpoint clear_bytes (n : nat) (p : Z) : ST memory unit :=
  match n with
  | O => mret tt
  | S n => store p 0;; clear_bytes n (p +u 1)
  end.

(** The pointers to the words; the result is the place after them. *)
Fixpoint push_pointers (lengths : list Z) (temp2 argvs_offset : Z) : ST memory Z :=
  match lengths with
  | [] => mret temp2
  | n :: lengths => store_word temp2 argvs_offset;; push_pointers lengths (temp2 +u 4) (argvs_offset +u n)
  end.

(** Below the words and their padding: the array of pointers, [argv], [argc]
    and the room of a return address; the result is the stack pointer. *)
Definition push_vector (lengths : list Z) (count word_align argv_stack_address : Z) : ST memory Z :=
  let argvs := word_align -u 4 * (count + 1) in
  temp2 ← push_pointers lengths argvs argv_stack_address;
  store_word temp2 0;;
  let argv := argvs -u 4 in
  store_word argv argvs;;
  let argc := argv -u 4 in
  store_word argc count;;
  mret (argc -u 4).

(** The stack below [PHYS_BASE]. *)
Definition push_arguments (argv lengths : list Z) (sum : Z) : ST memory Z :=
  let argv_stack_address := PHYS_BASE -u sum in
  copy_args argv lengths argv_stack_address;;
  let num_word_align := 4 -u sum mod 4 in
  let word_align := argv_stack_address -u num_word_align in
  clear_bytes (Z.to_nat num_word_align) word_align;;
  push_vector lengths (Z.of_nat (length argv)) word_align argv_stack_address.
End Stack.

(** [execute_thread] around [load]: the words of the command line at
    [file_name], then the stack; [argv_count[0]] is the name given to
    [load]. *)
Definition execute_args (fuel : nat) (file_name : Z) : ST memory (Z * Z) :=
  argv ← parse_args fuel file_name 0 0;
  lengths ← arg_lengths fuel argv;
  let sum := foldl (fun x y => x +u y) 0 lengths in
  match argv with
  | [] => panic
  | name :: _ => esp ← push_arguments fuel argv lengths sum; mret (name, esp)
  end.
End Arguments.

(** ** The name of the program

    [process_execute] copies at most 16 characters, up to a space, into
    [file_name] and fills the array of 17 with null characters. *)
Fixpoint copy_name (n : nat) (cmdline i : Z) : ST memory (list Z) :=
  match n with
  | O => mret []
  | S n =>
    c ← load (cmdline +u i);
    if (c =? 32) || (c =? 0) then mret []
    else cs ← copy_name n cmdline (i + 1); mret (c :: cs)
  end.

Definition command_name (cmdline : Z) : ST memory (list Z) :=
  cs ← copy_name 16 cmdline 0;
  mret (cs ++ replicate (17 - length cs) 0).
