(* ===== verification/ProcessProps.v ===== *)
(** * Processes: the initial stack *)

From S2P Require Import Prelude Bytes CString CStringProps Vaddr Process.

(** [m'] is [m] except for the bytes from [lo] to [hi], and maps at least the
    same addresses. *)
Definition within (lo hi : Z) (m m' : memory) : Prop :=
  (forall a, a < lo \/ hi <= a -> m' !! a = m !! a) /\ (forall a, is_Some (m !! a) -> is_Some (m' !! a)).

Lemma within_refl lo hi m : within lo hi m m.
Proof. by split. Qed.

Lemma within_trans lo hi lo1 hi1 lo2 hi2 m m1 m2 : within lo1 hi1 m m1 -> within lo2 hi2 m1 m2 ->
  lo <= lo1 -> hi1 <= hi -> lo <= lo2 -> hi2 <= hi -> within lo hi m m2.
Proof.
  intros [H1 D1] [H2 D2] ????. split; [|by auto]. intros a Ha. rewrite H2, H1; [done|lia..].
Qed.

Lemma within_mapped lo hi m m' p n : within lo hi m m' -> mapped m p n -> mapped m' p n.
Proof. intros [_ D] (H1 & H2 & H3). split_and!; [done..|]. intros a Ha. by apply D, H3. Qed.

Lemma within_cstr lo hi m m' p l : within lo hi m m' -> cstr m p l -> p + length l < lo \/ hi <= p -> cstr m' p l.
Proof. intros [H _] Hc Hd. apply (cstr_frame m); [done|]. intros a Ha. apply H. lia. Qed.

Lemma mapped_sub m p n q k : mapped m p n -> p <= q -> q + k <= p + n -> mapped m q k.
Proof. intros (H1 & H2 & H3) ??. split_and!; [lia..|]. intros a Ha. apply H3. lia. Qed.

Lemma Forall2_both {A B} (P Q : A -> B -> Prop) l k : Forall2 P l k -> Forall2 Q l k -> Forall2 (fun x y => P x y /\ Q x y) l k.
Proof. induction 1; inversion 1; subst; constructor; auto. Qed.

(** ** Words in memory *)

(** The 32-bit number [v] is at [p]. *)
Definition word_at (m : memory) (p v : Z) : Prop :=
  forall (k : nat) b, to_le 4 v !! k = Some b -> m !! (p + k) = Some b.

Lemma within_word lo hi m m' p v : within lo hi m m' -> word_at m p v -> p + 4 <= lo \/ hi <= p -> word_at m' p v.
Proof.
  intros [H _] Hw Hd k b Hk. rewrite H; [by apply Hw|]. apply lookup_lt_Some in Hk as Hl. rewrite to_le_length in Hl. lia.
Qed.

Lemma store_bytes_eq (l : list Z) p m : mapped m p (length l) ->
  exists m', store_bytes p l m = Ret (tt, m') /\ within p (p + length l) m m' /\
    forall (k : nat) b, l !! k = Some b -> m' !! (p + k) = Some b.
Proof.
  revert p m. induction l as [|b l IH]; intros p m (H1 & H2 & H3).
  - exists m. split_and!; [done|apply within_refl|done].
  - cbn [store_bytes length] in *. rewrite (bind_run _ _ _ _ _ (store_eq m p b (H3 p ltac:(lia)))).
    rewrite u32_small by (urange; lia).
    destruct (IH (p + 1) (<[p := b]> m)) as (m' & E & Hw & Hl).
    { apply mapped_insert. split_and!; [lia..|]. intros a Ha. apply H3. lia. }
    exists m'. split; [done|]. split.
    + apply (within_trans p (p + S (length l)) p (p + 1) (p + 1) (p + 1 + length l) m (<[p := b]> m)); [|done|lia..].
      split; [intros a Ha; rewrite lookup_insert_ne by lia; done|].
      intros a Ha. rewrite lookup_insert. case_decide; [by eexists|done].
    + intros [|k] x Hk.
      * injection Hk as <-. rewrite Z.add_0_r. destruct Hw as [Hw _]. rewrite Hw by lia. apply lookup_insert_eq.
      * replace (p + S k) with (p + 1 + k) by lia. by apply Hl.
Qed.

Lemma store_word_eq p v m : mapped m p 4 -> exists m', store_word p v m = Ret (tt, m') /\ within p (p + 4) m m' /\ word_at m' p v.
Proof. intros H. apply (store_bytes_eq (to_le 4 v)). by rewrite to_le_length. Qed.

Lemma clear_bytes_eq (n : nat) p m : mapped m p n ->
  exists m', clear_bytes n p m = Ret (tt, m') /\ within p (p + n) m m'.
Proof.
  revert p m. induction n as [|n IH]; intros p m (H1 & H2 & H3).
  - exists m. split; [done|apply within_refl].
  - cbn [clear_bytes]. rewrite (bind_run _ _ _ _ _ (store_eq m p 0 (H3 p ltac:(lia)))). rewrite u32_small by (urange; lia).
    destruct (IH (p + 1) (<[p := 0]> m)) as (m' & E & Hw).
    { apply mapped_insert. split_and!; [lia..|]. intros a Ha. apply H3. lia. }
    exists m'. split; [done|].
    apply (within_trans p (p + S n) p (p + 1) (p + 1) (p + 1 + n) m (<[p := 0]> m)); [|done|lia..].
    split; [intros a Ha; rewrite lookup_insert_ne by lia; done|].
    intros a Ha. rewrite lookup_insert. case_decide; [by eexists|done].
Qed.

(** ** The words of the command line *)

(** Where the copies of the words start, and how much room they take. *)
Fixpoint offsets (base : Z) (args : list (list Z)) : list Z :=
  match args with
  | [] => []
  | w :: args => base :: offsets (base + length w + 1) args
  end.
Definition room (args : list (list Z)) : Z := foldr (fun w n => length w + 1 + n) 0 args.
Definition sizes (args : list (list Z)) : list Z := map (fun w => Z.of_nat (length w) + 1) args.

Lemma room_nonneg args : 0 <= room args.
Proof. induction args; simpl; lia. Qed.

Lemma offsets_range base args :
  Forall2 (fun p w => base <= p /\ p + length w < base + room args) (offsets base args) args.
Proof.
  revert base. induction args as [|w args IH]; intros base; simpl; constructor.
  - pose proof (room_nonneg args). lia.
  - eapply Forall2_impl; [apply IH|]. simpl. intros. lia.
Qed.

Lemma parse_args_all blank fuel s save count m ts m' : 0 <= count -> strtok_all fuel s blank save m = Ret (ts, m') ->
  parse_args blank fuel s save count m = if count + length ts <=? Z.max count 100 then Ret (ts, m') else Panic.
Proof.
  revert s save count m ts m'. induction fuel as [|fuel IH]; intros s save count m ts m' Hc E; [done|].
  cbn [strtok_all parse_args] in *.
  destruct (strtok_r (S fuel) s blank save m) as [[[token save'] m1]| |] eqn:E1;
    [|unfold mbind, ST_bind in E; by rewrite E1 in E..].
  rewrite (bind_run _ _ _ _ _ E1) in E. rewrite (bind_run _ _ _ _ _ E1). cbv beta iota in *. destruct (token =? 0).
  - injection E as <- <-. simpl. by destruct (Z.leb_spec (count + 0%nat) (Z.max count 100)); [|lia].
  - destruct (strtok_all fuel 0 blank save' m1) as [[ts1 m2]| |] eqn:E2; [|unfold mbind, ST_bind in E; by rewrite E2 in E..].
    rewrite (bind_run _ _ _ _ _ E2) in E. injection E as <- <-. unfold ARGV_TEMP.
    destruct (Z.ltb_spec count 100).
    + rewrite (bind_run _ _ m1 tt m1) by done.
      specialize (IH 0 save' (count + 1) m1 ts1 m2 ltac:(lia) E2). cbn [length].
      replace (count + S (length ts1)) with (count + 1 + length ts1) by lia.
      replace (Z.max count 100) with (Z.max (count + 1) 100) by lia.
      destruct (count + 1 + length ts1 <=? Z.max (count + 1) 100).
      * by rewrite (bind_run _ _ _ _ _ IH).
      * by apply bind_panics.
    + rewrite bind_panics by done. cbn [length]. by destruct (Z.leb_spec (count + S (length ts1)) (Z.max count 100)); [lia|].
Qed.

Lemma arg_lengths_eq fuel m ts args : Forall2 (cstr m) ts args -> Forall (fun w => (length w < fuel)%nat) args ->
  arg_lengths fuel ts m = Ret (sizes args, m).
Proof.
  induction 1 as [|t w ts args Ht Hts IH]; intros Hf; [done|]. apply Forall_cons in Hf as [Hw Hf].
  cbn [arg_lengths]. rewrite (bind_run _ _ _ _ _ (strlen_eq fuel m t w Ht Hw)), (bind_run _ _ _ _ _ (IH Hf)).
  destruct Ht as (? & ? & _). by rewrite u32_small by (urange; lia).
Qed.

Lemma sum_sizes x args : 0 <= x -> x + room args < 2 ^ 32 -> foldl (fun x y => x +u y) x (sizes args) = x + room args.
Proof.
  revert x. induction args as [|w args IH]; intros x Hx Hr; simpl in *; [lia|]. pose proof (room_nonneg args).
  rewrite u32_small by (urange; lia). rewrite IH; lia.
Qed.

Lemma copy_args_eq fuel args ts m temp : Forall2 (cstr m) ts args -> Forall (fun w => (length w < fuel)%nat) args ->
  Forall2 (fun t w => temp + room args <= t \/ t + length w < temp) ts args -> mapped m temp (room args) ->
  exists m', copy_args fuel ts (sizes args) temp m = Ret (tt, m') /\ within temp (temp + room args) m m' /\
    Forall2 (cstr m') (offsets temp args) args.
Proof.
  revert ts m temp. induction args as [|w args IH]; intros ts m temp Hts Hf Hd Hm.
  - inversion Hts; subst. exists m. split_and!; [done|apply within_refl|constructor].
  - inversion Hts as [|t ? ts' ? Ht Hts']; subst. inversion Hd as [|? ? ? ? Hd1 Hd']; subst. apply Forall_cons in Hf as [Hw Hf].
    cbn [copy_args sizes map room foldr offsets] in *. fold (room args) (sizes args) in *. pose proof (room_nonneg args).
    destruct (strlcpy_correct fuel m temp t (length w + 1) w Ht ltac:(lia)) as (m1 & E & Hc & Hfr);
      [apply (mapped_sub _ _ _ _ _ Hm); lia|lia|done|].
    rewrite (bind_run _ _ _ _ _ E). pose proof Hm as (Hm1 & Hm2 & Hm3). rewrite u32_small by (urange; lia).
    rewrite take_ge in Hc by lia.
    assert (W1 : within temp (temp + length w + 1) m m1).
    { split; [intros a Ha; apply Hfr; lia|]. intros a Ha.
      destruct (decide (a < temp \/ temp + (length w + 1) <= a)); [by rewrite Hfr|].
      destruct (cstr_mapped m1 temp w (length w + 1) Hc ltac:(lia)) as (_ & _ & H3). apply H3. lia. }
    destruct (IH ts' m1 (temp + length w + 1)) as (m' & E' & W' & Hc').
    + eapply Forall2_impl; [exact (Forall2_both _ _ _ _ Hts' Hd')|]. simpl.
      intros x y [Hx Hy]. apply (within_cstr _ _ _ _ _ _ W1 Hx). lia.
    + done.
    + eapply Forall2_impl; [exact Hd'|]. simpl. intros. lia.
    + apply (within_mapped _ _ _ _ _ _ W1), (mapped_sub _ _ _ _ _ Hm); lia.
    + exists m'. replace (temp + (length w + 1)) with (temp + length w + 1) by lia. split_and!; [done| |].
      * eapply within_trans; [exact W1|exact W'|lia..].
      * constructor; [|done]. apply (within_cstr _ _ _ _ _ _ W' Hc). lia.
Qed.

Lemma push_pointers_eq args m temp2 base : mapped m temp2 (4 * length args) -> 0 < base -> base + room args < 2 ^ 32 ->
  exists m', push_pointers (sizes args) temp2 base m = Ret (temp2 + 4 * length args, m') /\
    within temp2 (temp2 + 4 * length args) m m' /\
    forall (i : nat) p, offsets base args !! i = Some p -> word_at m' (temp2 + 4 * i) p.
Proof.
  revert m temp2 base. induction args as [|w args IH]; intros m temp2 base Hm Hb Hr.
  - exists m. simpl. rewrite Z.add_0_r. split_and!; [done|apply within_refl|done].
  - cbn [push_pointers sizes map room foldr offsets length] in *. fold (room args) (sizes args) in *. pose proof (room_nonneg args).
    destruct (store_word_eq temp2 base m) as (m1 & E1 & W1 & Hw1); [apply (mapped_sub _ _ _ _ _ Hm); lia|].
    rewrite (bind_run _ _ _ _ _ E1). pose proof Hm as (Hm1 & Hm2 & Hm3). rewrite !u32_small by (urange; lia).
    destruct (IH m1 (temp2 + 4) (base + (length w + 1))) as (m' & E' & W' & Hw');
      [apply (within_mapped _ _ _ _ _ _ W1), (mapped_sub _ _ _ _ _ Hm); lia|lia|lia|].
    exists m'. split_and!.
    + rewrite E'. do 2 f_equal. lia.
    + eapply within_trans; [exact W1|exact W'|lia..].
    + intros [|i] p Hp.
      * injection Hp as <-. rewrite Z.mul_0_r, Z.add_0_r. apply (within_word _ _ _ _ _ _ W' Hw1). lia.
      * replace (temp2 + 4 * S i) with (temp2 + 4 + 4 * i) by lia. apply Hw'. cbn [lookup] in Hp. by rewrite <- Z.add_assoc in Hp.
Qed.

(** ** The initial stack *)

(** What a program started with [args] finds at its stack pointer: an unused
    return address, [argc], [argv], the array of pointers to the words with
    a null pointer at its end, and the words above. *)
Record initial_stack (m : memory) (esp : Z) (args : list (list Z)) : Prop := {
  is_aligned : esp mod 4 = 0;
  is_argc : word_at m (esp + 4) (length args);
  is_argv : word_at m (esp + 8) (esp + 12);
  is_arg (i : nat) w : args !! i = Some w ->
    exists p, word_at m (esp + 12 + 4 * i) p /\ cstr m p w /\ esp + 12 + 4 * length args < p /\ p + length w < PHYS_BASE;
  is_null : word_at m (esp + 12 + 4 * length args) 0;
}.

(** The bytes the stack takes, its padding included. *)
Definition stack_size (args : list (list Z)) : Z := room args + (4 - room args mod 4) + 4 * (length args + 1) + 12.

Lemma push_vector_eq args m wa asa : let n := Z.of_nat (length args) in let esp := wa - 4 * n - 16 in
  mapped m esp (wa - esp) -> 0 < asa -> asa + room args < 2 ^ 32 ->
  exists m', push_vector (sizes args) n wa asa m = Ret (esp, m') /\ within esp wa m m' /\
    word_at m' (esp + 4) n /\ word_at m' (esp + 8) (esp + 12) /\ word_at m' (esp + 12 + 4 * n) 0 /\
    forall (i : nat) p, offsets asa args !! i = Some p -> word_at m' (esp + 12 + 4 * i) p.
Proof.
  intros n esp Hm Ha Hr. assert (Hn : 0 <= n) by lia. pose proof Hm as (Hm1 & Hm2 & _). unfold push_vector.
  assert (Eav : wa -u 4 * (n + 1) = esp + 12) by (rewrite u32_small; urange; lia). rewrite Eav.
  assert (Eargv : esp + 12 -u 4 = esp + 8) by (rewrite u32_small; urange; lia). rewrite Eargv.
  assert (Eargc : esp + 8 -u 4 = esp + 4) by (rewrite u32_small; urange; lia). rewrite Eargc.
  destruct (push_pointers_eq args m (esp + 12) asa) as (m1 & E1 & W1 & H1); [apply (mapped_sub _ _ _ _ _ Hm); lia|done..|].
  fold n in E1, W1. rewrite (bind_run _ _ _ _ _ E1).
  destruct (store_word_eq (esp + 12 + 4 * n) 0 m1) as (m2 & E2 & W2 & H2);
    [apply (within_mapped _ _ _ _ _ _ W1), (mapped_sub _ _ _ _ _ Hm); lia|]. rewrite (bind_run _ _ _ _ _ E2).
  assert (V2 : within esp wa m m2) by (eapply within_trans; [exact W1|exact W2|lia..]).
  destruct (store_word_eq (esp + 8) (esp + 12) m2) as (m3 & E3 & W3 & H3);
    [apply (within_mapped _ _ _ _ _ _ V2), (mapped_sub _ _ _ _ _ Hm); lia|]. rewrite (bind_run _ _ _ _ _ E3).
  assert (V3 : within esp wa m m3) by (eapply within_trans; [exact V2|exact W3|lia..]).
  destruct (store_word_eq (esp + 4) n m3) as (m4 & E4 & W4 & H4);
    [apply (within_mapped _ _ _ _ _ _ V3), (mapped_sub _ _ _ _ _ Hm); lia|]. rewrite (bind_run _ _ _ _ _ E4).
  assert (W24 : within (esp + 4) (esp + 12) m2 m4) by (eapply within_trans; [exact W3|exact W4|lia..]).
  exists m4. split; [|split_and!].
  - replace (esp + 4 -u 4) with esp by (rewrite u32_small; urange; lia). done.
  - eapply within_trans; [exact V3|exact W4|lia..].
  - done.
  - apply (within_word _ _ _ _ _ _ W4 H3). lia.
  - apply (within_word _ _ _ _ _ _ W24 H2). lia.
  - intros i p Hp. apply lookup_lt_Some in Hp as Hi. rewrite (Forall2_length _ _ _ (offsets_range asa args)) in Hi.
    apply H1 in Hp. apply (within_word _ _ _ _ _ _ W24); [|lia]. apply (within_word _ _ _ _ _ _ W2 Hp). lia.
Qed.

Lemma push_arguments_eq fuel args ts m : Forall2 (cstr m) ts args -> Forall (fun w => (length w < fuel)%nat) args ->
  stack_size args <= PGSIZE -> mapped m (PHYS_BASE - PGSIZE) PGSIZE ->
  Forall2 (fun t w => PHYS_BASE <= t \/ t + length w < PHYS_BASE - PGSIZE) ts args ->
  exists m', push_arguments fuel ts (sizes args) (room args) m = Ret (PHYS_BASE - stack_size args, m') /\
    within (PHYS_BASE - PGSIZE) PHYS_BASE m m' /\ initial_stack m' (PHYS_BASE - stack_size args) args.
Proof.
  intros Hts Hf Hs Hm Hd. pose proof (room_nonneg args) as Hr. unfold push_arguments, stack_size in *.
  change PGSIZE with 4096 in *. set (B := PHYS_BASE) in *. assert (HB : B = 3221225472) by done.
  pose proof (Z.mod_pos_bound (room args) 4 ltac:(lia)) as Hmod. set (n := Z.of_nat (length args)) in *.
  rewrite (Forall2_length _ _ _ Hts). fold n.
  rewrite !(u32_small (B - room args)), !(u32_small (4 - room args mod 4)) by (urange; lia).
  rewrite !(u32_small (B - room args - (4 - room args mod 4))) by (urange; lia).
  set (asa := B - room args) in *. set (wa := asa - (4 - room args mod 4)) in *.
  destruct (copy_args_eq fuel args ts m asa Hts Hf) as (m1 & E1 & W1 & Hc1).
  { eapply Forall2_impl; [exact Hd|]. simpl. intros. lia. }
  { apply (mapped_sub _ _ _ _ _ Hm); lia. }
  rewrite (bind_run _ _ _ _ _ E1).
  destruct (clear_bytes_eq (Z.to_nat (4 - room args mod 4)) wa m1) as (m2 & E2 & W2);
    [apply (within_mapped _ _ _ _ _ _ W1), (mapped_sub _ _ _ _ _ Hm); lia|]. rewrite Z2Nat.id in W2 by lia.
  rewrite (bind_run _ _ _ _ _ E2). assert (V2 : within (B - 4096) B m m2) by (eapply within_trans; [exact W1|exact W2|lia..]).
  destruct (push_vector_eq args m2 wa asa) as (m3 & E3 & W3 & H3);
    [apply (within_mapped _ _ _ _ _ _ V2), (mapped_sub _ _ _ _ _ Hm); lia|lia|urange; lia|]. fold n in E3, W3, H3.
  replace (wa - 4 * n - 16) with (B - (room args + (4 - room args mod 4) + 4 * (n + 1) + 12)) in * by lia.
  set (esp := B - (_ + 12)) in *. destruct H3 as (Hargc & Hargv & Hnull & Hptr).
  exists m3. split; [done|]. split; [eapply within_trans; [exact V2|exact W3|lia..]|]. split; [| | | |done]; [|done|done|].
  - subst esp. rewrite HB. clear. Z.to_euclidean_division_equations. lia.
  - intros i w Hw. destruct (Forall2_lookup_r _ _ _ _ _ (Forall2_both _ _ _ _ Hc1 (offsets_range asa args)) Hw) as (p & Hp & Hcw & Hpr).
    exists p. split_and!; [by apply Hptr| |fold n; lia|fold B; lia].
    apply (within_cstr _ _ _ _ _ _ W3); [|lia]. apply (within_cstr _ _ _ _ _ _ W2 Hcw). lia.
Qed.

(** C16: A process starts with the words of its command line.  For every
    command line of at most 100 words whose stack fits a page,
    [execute_thread] (around [load]) returns, hands [load] the first word,
    and leaves at the stack pointer, which is a multiple of 4 within the
    stack page, a return address, the number of words, and a null-terminated
    array of pointers to copies of exactly the words of the command line, in
    order, all of them inside the stack page; it changes nothing but the
    stack page and the delimiters of the command line. *)
Theorem execute_args_correct blank fuel m s l : let args := tokens [32] l in
  cstr m s l -> cstr m blank [32] -> blank + 1 < s \/ s + length l < blank -> (length l + 1 < fuel)%nat ->
  mapped m (PHYS_BASE - PGSIZE) PGSIZE -> s + length l < PHYS_BASE - PGSIZE \/ PHYS_BASE <= s ->
  args <> [] -> (length args <= 100)%nat -> stack_size args <= PGSIZE ->
  exists name esp m', execute_args blank fuel s m = Ret ((name, esp), m') /\
    PHYS_BASE - PGSIZE <= esp < PHYS_BASE /\ initial_stack m' esp args /\
    (exists w, args !! 0%nat = Some w /\ cstr m' name w) /\
    forall a, ~ (s <= a < s + length l) -> ~ (PHYS_BASE - PGSIZE <= a < PHYS_BASE) -> m' !! a = m !! a.
Proof.
  intros args Hs Hb Hdis Hf Hm Hst Hne Hcnt Hsz.
  destruct (strtok_all_eq blank [32] fuel m s 0 s l Hb) as (ts & m1 & E1 & Hts & Hfr & Hrg); [|done|simpl; lia..|].
  { destruct Hs as (? & _). by destruct (Z.eqb_spec s 0); [lia|]. }
  fold args in Hts, Hrg. pose proof (Forall2_length _ _ _ Hts) as Hlen.
  assert (E2 : parse_args blank fuel s 0 0 m = Ret (ts, m1)).
  { rewrite (parse_args_all _ _ _ _ 0 _ _ _ (Z.le_refl 0) E1). by destruct (Z.leb_spec (0 + length ts) (Z.max 0 100)); [|lia]. }
  assert (Hw : Forall (fun w => (length w < fuel)%nat) args).
  { apply Forall_lookup. intros i w Hi. destruct (Forall2_lookup_r _ _ _ _ _ Hrg Hi) as (t & _ & Ht). lia. }
  assert (Hm1 : mapped m1 (PHYS_BASE - PGSIZE) PGSIZE).
  { destruct Hm as (? & ? & H3). split_and!; [done..|]. intros a Ha. rewrite Hfr by lia. by apply H3. }
  pose proof (room_nonneg args) as Hr. assert (HPG : PGSIZE = 4096) by done.
  assert (Hsz' := Hsz). unfold stack_size in Hsz'. pose proof (Z.mod_pos_bound (room args) 4 ltac:(lia)).
  destruct (push_arguments_eq fuel args ts m1 Hts Hw Hsz Hm1) as (m2 & E3 & W & Hi).
  { eapply Forall2_impl; [exact Hrg|]. simpl. intros. lia. }
  unfold execute_args. rewrite (bind_run _ _ _ _ _ E2), (bind_run _ _ _ _ _ (arg_lengths_eq fuel m1 ts args Hts Hw)).
  rewrite sum_sizes by (urange; lia). destruct ts as [|t ts]; [by destruct args|]. rewrite (bind_run _ _ _ _ _ E3).
  exists t, (PHYS_BASE - stack_size args), m2. split_and!; [done|lia|unfold stack_size; lia|done| |].
  - destruct (Forall2_lookup_l _ _ _ 0%nat t (Forall2_both _ _ _ _ Hts Hrg) eq_refl) as (w & Ew & Hcw & Hrw).
    exists w. split; [done|]. apply (within_cstr _ _ _ _ _ _ W Hcw). lia.
  - intros a Ha1 Ha2. destruct W as [W _]. rewrite W by lia. apply Hfr. lia.
Qed.

(** More than 100 words overrun [argv_temp]. *)
Lemma too_many_words blank fuel m s l : cstr m s l -> cstr m blank [32] -> blank + 1 < s \/ s + length l < blank ->
  (length l + 1 < fuel)%nat -> 100 < length (tokens [32] l) -> execute_args blank fuel s m = Panic.
Proof.
  intros Hs Hb Hdis Hf Hn.
  destruct (strtok_all_eq blank [32] fuel m s 0 s l Hb) as (ts & m1 & E1 & Hts & _); [|done|simpl; lia..|].
  { destruct Hs as (? & _). by destruct (Z.eqb_spec s 0); [lia|]. }
  apply bind_panics. rewrite (parse_args_all _ _ _ _ 0 _ _ _ (Z.le_refl 0) E1). apply Forall2_length in Hts.
  by destruct (Z.leb_spec (0 + length ts) (Z.max 0 100)); [lia|].
Qed.

(** The command line "  ab c" and a stack page. *)
Definition demo_process : memory := demo_memory ∪ list_to_map (map (fun a => (a, 0)) (seqZ (PHYS_BASE - PGSIZE) PGSIZE)).

Lemma demo_stack a : PHYS_BASE - PGSIZE <= a < PHYS_BASE -> is_Some (demo_process !! a).
Proof.
  intros Ha. unfold demo_process. apply lookup_union_is_Some. right.
  exists 0. apply elem_of_list_to_map_1'.
  - intros y (x & [= <- <-] & _)%list_elem_of_fmap. done.
  - apply list_elem_of_fmap. exists a. split; [done|]. apply elem_of_seqZ. change PGSIZE with 4096 in *. lia.
Qed.

Lemma demo_process_low a : a < PHYS_BASE - PGSIZE -> demo_process !! a = demo_memory !! a.
Proof.
  intros Ha. unfold demo_process. rewrite lookup_union_l; [done|]. apply not_elem_of_list_to_map_1.
  rewrite list_elem_of_fmap. intros ([x y] & E & (z & [= -> ->] & Hz)%list_elem_of_fmap). simpl in E. apply elem_of_seqZ in Hz. lia.
Qed.

Lemma execute_args_correct_witness : exists name esp m', execute_args 40 20 10 demo_process = Ret ((name, esp), m') /\
  PHYS_BASE - PGSIZE <= esp < PHYS_BASE /\ initial_stack m' esp [[97; 98]; [99]].
Proof.
  destruct (execute_args_correct 40 20 demo_process 10 [32; 32; 97; 98; 32; 99]) as (name & esp & m' & E & Hr & Hi & _).
  - apply (cstr_frame demo_memory _ _ _ demo_string). intros a Ha. apply demo_process_low.
    simpl in Ha. change (PHYS_BASE - PGSIZE) with 3221221376. lia.
  - apply (cstr_frame demo_memory _ _ _ demo_delimiters). intros a Ha. apply demo_process_low.
    simpl in Ha. change (PHYS_BASE - PGSIZE) with 3221221376. lia.
  - right. reflexivity.
  - simpl. lia.
  - split_and!; [reflexivity|reflexivity|]. intros a Ha. apply demo_stack. change PGSIZE with 4096 in *. lia.
  - left. reflexivity.
  - discriminate.
  - vm_compute. lia.
  - vm_compute. discriminate.
  - exists name, esp, m'. split_and!; [exact E|exact (proj1 Hr)|exact (proj2 Hr)|exact Hi].
Defined.
