(* ===== verification/Page.v ===== *)
(** * Lazily loaded pages: vm/page.c, and the segments of userprog/process.c

    The supplemental page table of a process is a hash table (Hash.v) of
    entries that say where the contents of a page that is not in memory come
    from.  An entry is owned by the table that holds it, or by the swap entry
    that has replaced it, and is modelled by its value.  [entry_mem] is the
    number of entries that [malloc] can still provide: the constructors write
    through the result of [malloc] without a check.  [page_sema] is held for
    the whole of each operation. *)

From S2P Require Import Prelude Vaddr Hash.

(** userprog/process.h *)
Definition MAX_STACK_SIZE : Z := 2000.
Definition STACK_BOTTOM : Z := PHYS_BASE - PGSIZE * MAX_STACK_SIZE.

Inductive special_page_elem :=
| exec_page (virtual_page elf_file offset zero_after : Z) (writable : bool)
| file_page (virtual_page source_file offset zero_after : Z)
| swap_page (virtual_page slot : Z) (dirty : bool) (evicted_page : option special_page_elem)
| zero_page (virtual_page : Z).

#[export] Instance special_page_eq : EqDecision special_page_elem.
Proof.
  refine (fix go (x y : special_page_elem) : Decision (x = y) :=
    match x, y with
    | exec_page v f o z w, exec_page v' f' o' z' w' => cast_if (decide ((v, f, o, z, w) = (v', f', o', z', w')))
    | file_page v f o z, file_page v' f' o' z' => cast_if (decide ((v, f, o, z) = (v', f', o', z')))
    | swap_page v s d None, swap_page v' s' d' None => cast_if (decide ((v, s, d) = (v', s', d')))
    | swap_page v s d (Some e), swap_page v' s' d' (Some e') =>
      let _ : Decision (e = e') := go e e' in cast_if_and (decide ((v, s, d) = (v', s', d'))) (decide (e = e'))
    | zero_page v, zero_page v' => cast_if (decide (v = v'))
    | _, _ => right _
    end); congruence.
Defined.

Definition virtual_page (e : special_page_elem) : Z :=
  match e with
  | exec_page v _ _ _ _ | file_page v _ _ _ | swap_page v _ _ _ | zero_page v => v
  end.

Definition page_hash (e : special_page_elem) : Z := hash_bytes_loop FNV_32_BASIS (le_bytes (virtual_page e)).
Definition page_key_less (a b : special_page_elem) : bool := virtual_page a <? virtual_page b.

Record lazy := mk_lazy { sup_pagetable : hash special_page_elem; entry_mem : nat }.

Section Page.
(** Whether [rehash] gets its memory. *)
Context (mem : bool).

Definition on_sup {A} (m : ST (hash special_page_elem) A) : ST lazy A := fun s =>
  match m (sup_pagetable s) with
  | Ret (a, h) => Ret (a, mk_lazy h (entry_mem s))
  | Panic => Panic
  | OutOfFuel => OutOfFuel
  end.

Definition init_supplemental_pagetable (block : option (list (list special_page_elem))) : ST lazy unit :=
  r ← hash_init block;
  modify (fun s => mk_lazy (r : bool * hash special_page_elem).2 (entry_mem s)).

Definition add_lazy_page (page : special_page_elem) : ST lazy (option special_page_elem) :=
  on_sup (hash_insert page_hash page_key_less mem page).

(** [malloc] of an entry. *)
Definition new_entry (e : special_page_elem) : ST lazy special_page_elem :=
  n ← gets entry_mem;
  match n with
  | O => panic
  | S n => modify (fun s => mk_lazy (sup_pagetable s) n);; mret e
  end.

Definition new_zero_page (v : Z) := new_entry (zero_page v).
Definition new_exec_page (v elf_file offset zero_after : Z) (writable : bool) := new_entry (exec_page v elf_file offset zero_after writable).
Definition new_file_page (v source_file offset zero_after : Z) := new_entry (file_page v source_file offset zero_after).
Definition new_swap_page (v slot : Z) (dirty : bool) (evicted : option special_page_elem) := new_entry (swap_page v slot dirty evicted).

Definition find_lazy_page (ptr : Z) : ST lazy (option special_page_elem) :=
  ASSERT (negb (Z.land ptr 0xfffff000 =? 0xccccc000));;
  on_sup (hash_find page_hash page_key_less (zero_page (Z.land 0xfffff000 ptr))).

(** [hash_delete] of an entry, as [expire_page] and [page_fault] do. *)
Definition delete_lazy_page (e : special_page_elem) : ST lazy (option special_page_elem) :=
  on_sup (hash_delete page_hash page_key_less mem e).

Fixpoint validate_free_loop (n : nat) (ptr : Z) : ST lazy bool :=
  match n with
  | O => mret true
  | S n =>
    spe ← find_lazy_page ptr;
    match spe with
    | Some _ => mret false
    | None => validate_free_loop n (ptr +u PGSIZE)
    end
  end.

Definition page_count (bytes : Z) : Z := bytes / PGSIZE + (if bytes mod PGSIZE =? 0 then 0 else 1).

Definition validate_free_page (upage read_bytes : Z) : ST lazy bool :=
  validate_free_loop (Z.to_nat (page_count read_bytes)) upage.

(** ** Loading a segment *)

Fixpoint load_segment_loop (fuel : nat) (file ofs upage read_bytes zero_bytes : Z) (writable : bool) : ST lazy Z :=
  match fuel with
  | O => no_fuel
  | S fuel =>
    if (0 <? read_bytes) || (0 <? zero_bytes) then
      let page_read_bytes := if read_bytes <? PGSIZE then read_bytes else PGSIZE in
      let page_zero_bytes := PGSIZE -u page_read_bytes in
      gen_page ← (if page_read_bytes =? 0 then new_zero_page upage
                  else new_exec_page upage file (u32 ofs) page_read_bytes writable);
      add_lazy_page gen_page;;
      load_segment_loop fuel file (s32 (ofs + PGSIZE)) (upage +u PGSIZE)
        (read_bytes -u page_read_bytes) (zero_bytes -u page_zero_bytes) writable
    else mret ofs
  end.

(** The result is the offset given to [file_seek] at the end, [None] when
    the function returns false.  The loop runs once per page. *)
Definition load_segment (file ofs upage read_bytes zero_bytes : Z) (writable : bool) : ST lazy (option Z) :=
  ASSERT ((read_bytes +u zero_bytes) mod PGSIZE =? 0);;
  ASSERT (pg_ofs upage =? 0);;
  ASSERT (Z.rem ofs PGSIZE =? 0);;
  free ← validate_free_page upage read_bytes;
  if negb free then mret None
  else
    ofs ← load_segment_loop (S (Z.to_nat ((read_bytes +u zero_bytes) / PGSIZE))) file ofs upage read_bytes zero_bytes writable;
    mret (Some ofs).

(** ** Program headers *)

Record Elf32_Phdr := mk_phdr {
  p_type : Z; p_offset : Z; p_vaddr : Z; p_paddr : Z; p_filesz : Z; p_memsz : Z; p_flags : Z; p_align : Z
}.
Definition PF_W : Z := 2.

Definition validate_segment (phdr : Elf32_Phdr) (file_length : Z) : bool :=
  if negb (Z.land (p_offset phdr) PGMASK =? Z.land (p_vaddr phdr) PGMASK) then false
  else if u32 file_length <? p_offset phdr then false
  else if p_memsz phdr <? p_filesz phdr then false
  else if p_memsz phdr =? 0 then false
  else if negb (is_user_vaddr (p_vaddr phdr)) then false
  else if negb (is_user_vaddr (p_vaddr phdr +u p_memsz phdr)) then false
  else if p_vaddr phdr +u p_memsz phdr <? p_vaddr phdr then false
  else if p_vaddr phdr <? PGSIZE then false
  else true.

(** The case [PT_LOAD] of [load]. *)
Definition load_phdr (phdr : Elf32_Phdr) (file file_length : Z) : ST lazy (option Z) :=
  if validate_segment phdr file_length then
    let writable := negb (Z.land (p_flags phdr) PF_W =? 0) in
    let file_page := Z.land (p_offset phdr) (unot PGMASK) in
    let mem_page := Z.land (p_vaddr phdr) (unot PGMASK) in
    let page_offset := Z.land (p_vaddr phdr) PGMASK in
    let end_ := ROUND_UP (page_offset +u p_memsz phdr) PGSIZE in
    let '(read_bytes, zero_bytes) :=
      if 0 <? p_filesz phdr then (page_offset +u p_filesz phdr, end_ -u (page_offset +u p_filesz phdr))
      else (0, end_) in
    load_segment file (s32 file_page) mem_page read_bytes zero_bytes writable
  else mret None.
End Page.
