(* ===== verification/PageProps.v ===== *)
(** * Lazily loaded pages: correctness

    The supplemental page table as a partial function from pages to entries,
    and the segments of an executable. *)

From S2P Require Import Prelude DlistSort Vaddr Hash HashProps Page.

#[export] Instance page_key : HashKey page_hash page_key_less.
Proof.
  split; [exact (key_order virtual_page)|]. intros a b [H1 H2]%same_key_spec. unfold page_key_less, page_hash in *.
  assert (virtual_page a = virtual_page b) as ->; [zcases; lia|done].
Qed.

Lemma same_page_key a b : same_key page_key_less a b = true <-> virtual_page a = virtual_page b.
Proof.
  rewrite same_key_spec. unfold page_key_less. split; [intros [H1 H2]; zcases; lia|]. intros ->. by rewrite Z.ltb_irrefl.
Qed.

(** ** The table as a function *)

Definition is_page (v : Z) : Prop := 0 <= v < 2 ^ 32 /\ v mod PGSIZE = 0.

Record sup_ok (s : lazy) : Prop := {
  sk_hash : hash_ok page_hash page_key_less (sup_pagetable s);
  sk_pages : Forall (fun e => is_page (virtual_page e)) (elements (sup_pagetable s));
}.

Definition entry_at (s : lazy) (v : Z) : option special_page_elem :=
  lookup_key page_key_less (elements (sup_pagetable s)) (zero_page v).

Lemma entry_at_page s v e : entry_at s v = Some e -> virtual_page e = v.
Proof. intros [_ Hk%same_page_key]%lookup_key_Some. done. Qed.

(** Pages have different addresses, so a table has at most 2^20 entries. *)
Lemma sup_bound s (n : Z) : sup_ok s -> n = 2 ^ 20 -> Z.of_nat (length (elements (sup_pagetable s))) <= n.
Proof.
  intros [H Hp] Hn20. destruct (ok_distinct _ _ _ H) as [Hn Hd]. set (l := elements _) in *.
  set (all := map (fun k => 4096 * k) (seqZ 0 n)). enough (length (map virtual_page l) <= length all)%nat as Hle.
  { unfold all in Hle. rewrite !length_map, length_seqZ in Hle. lia. }
  apply NoDup_incl_length.
  - apply NoDup_ListNoDup. apply NoDup_fmap_2_strong; [|done]. intros x y Hx Hy E. apply Hd; [done..|]. by apply same_page_key.
  - intros v (e & <- & He)%in_map_iff. rewrite Forall_forall in Hp. apply list_elem_of_In in He. apply Hp in He as [Hr Hm].
    rewrite PGSIZE_eq in Hm. apply in_map_iff. exists (virtual_page e / 4096). split.
    + pose proof (Z.div_mod (virtual_page e) 4096). lia.
    + apply list_elem_of_In, elem_of_seqZ. change (2 ^ 20) with 1048576 in Hn20. urange. Z.to_euclidean_division_equations. lia.
Qed.

Lemma sup_small s : sup_ok s -> length (elements (sup_pagetable s)) + 1 < 2 ^ 32.
Proof. intros H. pose proof (sup_bound s _ H eq_refl). lia. Qed.

Lemma wp_on_sup {A} (m : ST (hash special_page_elem) A) s Q :
  wp m (sup_pagetable s) (fun a h => Q a (mk_lazy h (entry_mem s))) -> wp (on_sup m) s Q.
Proof. unfold wp, on_sup. by destruct (m (sup_pagetable s)) as [[a h]| |]. Qed.

(** Looking a page up changes nothing. *)
Lemma find_lazy_page_run s ptr : sup_ok s -> is_u32 ptr -> ptr - ptr mod PGSIZE <> 0xccccc000 ->
  find_lazy_page ptr s = Ret (entry_at s (ptr - ptr mod PGSIZE), s).
Proof.
  intros H Hp Hc. assert (El : forall x, Z.land ptr 0xfffff000 = x <-> ptr - ptr mod PGSIZE = x).
  { intros x. by rewrite <- (pg_round_down_eq ptr Hp). }
  destruct (wp_run_read (find_lazy_page ptr) s (fun r => r = entry_at s (ptr - ptr mod PGSIZE))) as (a & E & ->); [|exact E].
  unfold find_lazy_page. apply wp_bind, wp_assert.
  - apply negb_true_iff, Z.eqb_neq. by rewrite El.
  - rewrite Z.land_comm, (proj2 (El _) eq_refl). apply wp_on_sup, (wp_hash_find _ _); [apply H|]. by destruct s.
Qed.

(** A fault at the page 0xccccc000 stops the machine. *)
Lemma find_lazy_page_poison s ptr : Z.land ptr 0xfffff000 = 0xccccc000 -> find_lazy_page ptr s = Panic.
Proof. intros E. unfold find_lazy_page. by rewrite E. Qed.

(** The table after an insertion, which does nothing when the page has an
    entry. *)
Lemma add_lazy_page_run mem e s : sup_ok s -> is_page (virtual_page e) ->
  exists s', add_lazy_page mem e s = Ret (entry_at s (virtual_page e), s') /\ sup_ok s' /\ entry_mem s' = entry_mem s /\
    forall v, entry_at s' v = if decide (v = virtual_page e) then Some (default e (entry_at s v)) else entry_at s v.
Proof.
  intros H Hp. pose proof (lookup_key_perm page_hash page_key_less) as Hperm.
  destruct (wp_run (add_lazy_page mem e) s (fun r s' => r = entry_at s (virtual_page e) /\ sup_ok s' /\ entry_mem s' = entry_mem s /\
    forall v, entry_at s' v = if decide (v = virtual_page e) then Some (default e (entry_at s v)) else entry_at s v))
    as (r & s' & E & -> & ?); [|by eauto].
  assert (Ek : forall xs, lookup_key page_key_less xs e = lookup_key page_key_less xs (zero_page (virtual_page e))).
  { intros xs. unfold lookup_key. f_equal. }
  apply wp_on_sup, (wp_hash_insert _ _); [apply H|by apply sup_small|]. intros h' [Hok He] _. unfold dict_insert in He.
  split; [apply Ek|]. rewrite Ek in He. fold (entry_at s (virtual_page e)) in He. split; [|split; [done|]].
  - split; [done|]. rewrite He. destruct (entry_at s (virtual_page e)); [apply H|]. constructor; [done|apply H].
  - intros v. unfold entry_at at 1. cbn [sup_pagetable]. rewrite (Hperm _ _ _ (ok_distinct _ _ _ Hok) He).
    destruct (entry_at s (virtual_page e)) as [x|] eqn:Ex.
    + case_decide as Ev; [|done]. subst v. rewrite Ex. simpl. done.
    + case_decide as Ev.
      * subst v. rewrite Ex. cbn [lookup_key List.find default]. by rewrite (proj2 (same_page_key e (zero_page _)) eq_refl).
      * unfold lookup_key. cbn [List.find]. destruct (same_key _ e _) eqn:Es; [by apply same_page_key in Es|done].
Qed.

(** The table after a deletion. *)
Lemma delete_lazy_page_run mem e s : sup_ok s ->
  exists s', delete_lazy_page mem e s = Ret (entry_at s (virtual_page e), s') /\ sup_ok s' /\ entry_mem s' = entry_mem s /\
    forall v, entry_at s' v = if decide (v = virtual_page e) then None else entry_at s v.
Proof.
  intros H. destruct (wp_run (delete_lazy_page mem e) s (fun r s' => r = entry_at s (virtual_page e) /\ sup_ok s' /\ entry_mem s' = entry_mem s /\
    forall v, entry_at s' v = if decide (v = virtual_page e) then None else entry_at s v)) as (r & s' & E & -> & ?); [|by eauto].
  apply wp_on_sup, (wp_hash_delete _ _); [apply H|]. intros h' [Hok He]. unfold dict_remove in He.
  assert (Hin : forall x, x ∈ elements h' <-> x ∈ elements (sup_pagetable s) /\ virtual_page x <> virtual_page e).
  { intros x. rewrite He, !list_elem_of_In, filter_In, negb_true_iff. rewrite <- (same_page_key x e). destruct (same_key page_key_less x e); split; naive_solver. }
  split; [done|]. split; [|split; [done|]].
  - split; [done|]. apply Forall_forall. intros x [Hx _]%Hin. pose proof (sk_pages s H) as Hp. rewrite Forall_forall in Hp. by apply Hp.
  - intros v. unfold entry_at. cbn [sup_pagetable]. case_decide as Ev.
    + subst v. apply (lookup_key_absent page_key_less). intros x [_ Hne]%Hin. destruct (same_key _ _ _) eqn:Es; [by apply same_page_key in Es|done].
    + destruct (lookup_key page_key_less (elements (sup_pagetable s)) (zero_page v)) as [x|] eqn:El.
      * apply (lookup_key_Some page_key_less) in El as [Hx Hk]. apply (lookup_key_unique page_hash page_key_less); [apply (ok_distinct _ _ _ Hok)| |done].
        apply Hin. split; [done|]. apply same_page_key in Hk. simpl in Hk. congruence.
      * apply (lookup_key_absent page_key_less). intros x [Hx _]%Hin. by apply (lookup_key_None page_key_less _ _ El).
Qed.

Lemma new_entry_run e s (n : nat) : entry_mem s = S n -> new_entry e s = Ret (e, mk_lazy (sup_pagetable s) n).
Proof. intros E. unfold new_entry. rewrite (bind_run _ _ _ (S n) s) by (unfold gets; by rewrite E). done. Qed.

(** ** Free ranges *)

Lemma validate_free_run (n : nat) s upage : sup_ok s -> is_page upage -> upage + 4096 * n <= PHYS_BASE ->
  exists b, validate_free_loop n upage s = Ret (b, s) /\
    (b = true <-> forall k, 0 <= k < n -> entry_at s (upage + 4096 * k) = None).
Proof.
  intros H. revert upage. induction n as [|n IH]; intros upage [Hu Hm] Hb.
  - exists true. split; [done|]. split; [intros _ k Hk; lia|done].
  - cbn [validate_free_loop]. unfold PHYS_BASE in Hb. rewrite PGSIZE_eq in Hm.
    rewrite (bind_run _ _ _ _ _ (find_lazy_page_run s upage H Hu ltac:(rewrite PGSIZE_eq; lia))).
    replace (upage - upage mod PGSIZE) with (upage + 4096 * 0) by (rewrite PGSIZE_eq; lia).
    destruct (entry_at s (upage + 4096 * 0)) as [e|] eqn:E.
    + exists false. split; [done|]. split; [done|]. intros Hk. rewrite Hk in E; [done|lia].
    + destruct (decide (n = O)) as [->|Hn].
      { exists true. split; [done|]. split; [|done]. intros _ k Hk. by replace k with 0 by lia. }
      assert (Eu : upage +u PGSIZE = upage + 4096) by (rewrite PGSIZE_eq, u32_small; urange; lia). rewrite Eu.
      destruct (IH (upage + 4096)) as (b & Eb & Hbk); [|unfold PHYS_BASE; lia|].
      { split; [urange; lia|]. rewrite PGSIZE_eq. replace (upage + 4096) with (upage + 1 * 4096) by lia. by rewrite Z.mod_add. }
      exists b. split; [done|]. rewrite Hbk. split.
      * intros Hk k Hkr. destruct (decide (k = 0)) as [->|]; [done|].
        specialize (Hk (k - 1) ltac:(lia)). by replace (upage + 4096 + 4096 * (k - 1)) with (upage + 4096 * k) in Hk by lia.
      * intros Hk k Hkr. specialize (Hk (k + 1) ltac:(lia)). by replace (upage + 4096 * (k + 1)) with (upage + 4096 + 4096 * k) in Hk by lia.
Qed.

(** ** Segments *)

(** The entry of the page [v] of a segment of [read] bytes from offset [ofs]
    of the file, mapped from page [u] on. *)
Definition segment_entry (file ofs u read : Z) (w : bool) (v : Z) : special_page_elem :=
  let r := Z.min (read - (v - u)) PGSIZE in
  if 0 <? r then exec_page v file (ofs + (v - u)) r w else zero_page v.

Lemma segment_entry_page file ofs u read w v : virtual_page (segment_entry file ofs u read w v) = v.
Proof. unfold segment_entry. by destruct (0 <? _). Qed.

(** [v] is one of [n] pages from [u] on. *)
Definition in_pages (u n v : Z) : Prop := exists k, 0 <= k < n /\ v = u + 4096 * k.

#[export] Instance in_pages_dec u n v : Decision (in_pages u n v).
Proof.
  refine (cast_if (decide (u <= v < u + 4096 * n /\ (v - u) mod 4096 = 0))).
  - abstract (exists ((v - u) / 4096); Z.to_euclidean_division_equations; lia).
  - abstract (intros (k & Hk & ->); apply n0; replace (u + 4096 * k - u) with (k * 4096) by lia;
      rewrite Z.mod_mul by lia; lia).
Defined.

Lemma is_page_next u : is_page u -> u + 4096 < 2 ^ 32 -> is_page (u + 4096).
Proof.
  intros [Hu Hm] Hl. split; [urange; lia|]. rewrite PGSIZE_eq in *. replace (u + 4096) with (u + 1 * 4096) by lia. by rewrite Z.mod_add.
Qed.

(** One turn of the loop: the entry of the first page. *)
Lemma load_page_run mem file ofs u read w s (m : nat) : sup_ok s -> is_page u -> entry_mem s = S m ->
  0 <= read -> (0 < read -> 0 <= ofs < 2 ^ 31) -> entry_at s u = None ->
  let r := if read <? PGSIZE then read else PGSIZE in
  exists e s', (if r =? 0 then new_zero_page u else new_exec_page u file (u32 ofs) r w) s = Ret (e, mk_lazy (sup_pagetable s) m) /\
    add_lazy_page mem e (mk_lazy (sup_pagetable s) m) = Ret (None, s') /\ sup_ok s' /\ entry_mem s' = m /\
    forall v, entry_at s' v = if decide (v = u) then Some (segment_entry file ofs u read w u) else entry_at s v.
Proof.
  intros H Hu Hm Hr Ho Hf r. exists (segment_entry file ofs u read w u).
  set (s1 := mk_lazy (sup_pagetable s) m). assert (H1 : sup_ok s1) by (by destruct H; constructor).
  destruct (add_lazy_page_run mem (segment_entry file ofs u read w u) s1 H1) as (s' & E & H' & Hm' & Hat); rewrite segment_entry_page in *; [done|].
  change (entry_at s1) with (entry_at s) in *. rewrite Hf in E. exists s'. split_and!; [|done..|].
  - unfold segment_entry. rewrite Z.sub_diag, Z.sub_0_r, Z.add_0_r. replace (Z.min read PGSIZE) with r by (subst r; zcases; lia).
    unfold new_zero_page, new_exec_page. assert (HPG := PGSIZE_eq). destruct (Z.eqb_spec r 0) as [E0|E0], (Z.ltb_spec 0 r); try (subst r; zcases; lia).
    + by rewrite (new_entry_run _ _ m Hm).
    + rewrite (new_entry_run _ _ m Hm). rewrite u32_small; [done|]. assert (0 < read) by (subst r; zcases; lia). urange. lia.
  - intros v. rewrite Hat. case_decide; [|done]. subst v. by rewrite Hf.
Qed.

Lemma load_segment_loop_run mem (n : nat) file ofs u read zero w s :
  sup_ok s -> is_page u -> u + 4096 * n <= PHYS_BASE -> (n <= entry_mem s)%nat ->
  0 <= read -> 0 <= zero -> read + zero = 4096 * n -> (0 < read -> 0 <= ofs /\ ofs + read + 4096 < 2 ^ 31) ->
  (forall v, in_pages u n v -> entry_at s v = None) ->
  exists o s', load_segment_loop mem (S n) file ofs u read zero w s = Ret (o, s') /\ sup_ok s' /\
    entry_mem s' = (entry_mem s - n)%nat /\ (0 <= ofs -> ofs + 4096 * n < 2 ^ 31 -> o = ofs + 4096 * n) /\
    forall v, entry_at s' v = if decide (in_pages u n v) then Some (segment_entry file ofs u read w v) else entry_at s v.
Proof.
  revert ofs u read zero s. induction n as [|n IH]; intros ofs u read zero s H Hu Hb Hm Hr Hz Hs Ho Hf.
  - exists ofs, s. assert (read = 0 /\ zero = 0) as [-> ->] by lia. split_and!; [done|done|lia|lia|].
    intros v. rewrite decide_False; [done|]. intros (k & Hk & _). lia.
  - rewrite (eq_refl : load_segment_loop mem (S (S n)) = fun file ofs u read zero w => _). cbv beta.
    assert (Ht : (0 <? read) || (0 <? zero) = true) by (zcases; simpl; done || lia). rewrite Ht.
    destruct (entry_mem s) as [|m] eqn:Em; [lia|]. unfold PHYS_BASE in Hb. pose proof (proj1 Hu) as Hu0.
    destruct (load_page_run mem file ofs u read w s m H Hu Em Hr) as (e & s1 & E1 & E2 & H1 & Hm1 & Hat1);
      [lia|apply Hf; exists 0; lia|]. cbv zeta. rewrite (bind_run _ _ _ _ _ E1), (bind_run _ _ _ _ _ E2).
    set (r := if read <? PGSIZE then read else PGSIZE) in *.
    assert (Hrr : 0 <= r <= read /\ r <= 4096 /\ (r = read \/ r = 4096)) by (subst r; rewrite PGSIZE_eq; zcases; lia).
    assert (Eu : u +u PGSIZE = u + 4096) by (rewrite PGSIZE_eq, u32_small; urange; destruct Hu; lia).
    assert (Er : read -u r = read - r) by (rewrite u32_small; urange; lia).
    assert (Ez : zero -u (PGSIZE -u r) = zero - (4096 - r)).
    { rewrite PGSIZE_eq, (u32_small (4096 - r)), u32_small; urange; lia. }
    rewrite Eu, Er, Ez. destruct (decide (n = O)) as [->|Hn].
    { assert (read - r = 0 /\ zero - (4096 - r) = 0) as [-> ->] by lia.
      exists (s32 (ofs + PGSIZE)), s1. split_and!; [done|done|lia|intros; rewrite PGSIZE_eq, s32_small by (urange; lia); lia|]. intros v. rewrite Hat1. case_decide as Ev.
      - subst v. rewrite decide_True; [done|]. exists 0. lia.
      - rewrite decide_False; [done|]. intros (k & Hk & ->). apply Ev. lia. }
    destruct (IH (s32 (ofs + PGSIZE)) (u + 4096) (read - r) (zero - (4096 - r)) s1) as (o & s' & E' & H' & Hme' & Ho' & Hat');
      [done|apply is_page_next; [done|urange; lia]|unfold PHYS_BASE; lia|lia|lia|lia|lia| | |].
    { intros Hpos. rewrite PGSIZE_eq, s32_small by (urange; lia). lia. }
    { intros v (k & Hk & ->). rewrite Hat1, decide_False by lia. apply Hf. exists (k + 1). lia. }
    exists o, s'. split_and!; [done|done|lia| |].
    { intros Ho0 Ho1. rewrite PGSIZE_eq, s32_small in Ho' by (urange; lia). rewrite Ho' by lia. lia. }
    intros v. rewrite Hat', Hat1. case_decide as D1.
    + rewrite decide_True by (destruct D1 as (k & Hk & ->); exists (k + 1); lia). f_equal.
      destruct D1 as (k & Hk & ->). unfold segment_entry. rewrite PGSIZE_eq.
      replace (read - r - (u + 4096 + 4096 * k - (u + 4096))) with (read - r - 4096 * k) by lia.
      replace (read - (u + 4096 + 4096 * k - u)) with (read - 4096 - 4096 * k) by lia.
      destruct (Z.ltb_spec 0 (Z.min (read - r - 4096 * k) 4096)), (Z.ltb_spec 0 (Z.min (read - 4096 - 4096 * k) 4096)); try lia; [|done].
      rewrite s32_small by (urange; lia). f_equal; lia.
    + case_decide as D2; [subst v; rewrite decide_True by (exists 0; lia); done|]. rewrite decide_False; [done|].
      intros (k & Hk & ->). destruct (decide (k = 0)) as [->|]; [by rewrite Z.mul_0_r, Z.add_0_r in D2|]. apply D1. exists (k - 1). lia.
Qed.

(** ** Program headers *)

(** Where a byte of a page comes from. *)
Inductive source := FileByte (file ofs : Z) | SwapByte (slot ofs : Z) | ZeroByte.

Definition source_of (e : special_page_elem) (k : Z) : source :=
  match e with
  | exec_page _ f o z _ | file_page _ f o z => if k <? z then FileByte f (o + k) else ZeroByte
  | swap_page _ slot _ _ => SwapByte slot k
  | zero_page _ => ZeroByte
  end.

Definition is_writable (e : special_page_elem) : bool :=
  match e with exec_page _ _ _ _ w => w | _ => true end.

(** Where the ELF specification takes the byte at [a] of a segment from. *)
Definition segment_source (p : Elf32_Phdr) (file a : Z) : source :=
  if (0 <? p_filesz p) && (a <? p_vaddr p + p_filesz p) then FileByte file (p_offset p + (a - p_vaddr p)) else ZeroByte.

Record phdr_ok (p : Elf32_Phdr) : Prop := {
  ph_offset : is_u32 (p_offset p); ph_vaddr : is_u32 (p_vaddr p);
  ph_filesz : is_u32 (p_filesz p); ph_memsz : is_u32 (p_memsz p);
}.

Lemma validate_segment_spec p len : phdr_ok p -> 0 <= len < 2 ^ 31 -> validate_segment p len = true ->
  p_offset p mod PGSIZE = p_vaddr p mod PGSIZE /\ p_offset p <= len /\ p_filesz p <= p_memsz p /\ 0 < p_memsz p /\
  PGSIZE <= p_vaddr p /\ p_vaddr p + p_memsz p < PHYS_BASE.
Proof.
  intros [H1 H2 H3 H4] Hl. unfold validate_segment, is_user_vaddr.
  change (Z.land ?x PGMASK) with (pg_ofs x). rewrite !pg_ofs_mod, (u32_small len) by (urange; lia). rewrite PGSIZE_eq. unfold PHYS_BASE.
  zcases; simpl; try done. intros _. assert (E : p_vaddr p + p_memsz p < 2 ^ 32).
  { destruct (decide (p_vaddr p + p_memsz p < 2 ^ 32)) as [|Hge]; [done|exfalso].
    urange. assert (E : (p_vaddr p + p_memsz p) mod 4294967296 = p_vaddr p + p_memsz p - 4294967296) by (Z.to_euclidean_division_equations; lia). lia. }
  rewrite u32_small in * by (urange; lia). urange. lia.
Qed.

(** The pages of a segment. *)
Definition seg_first (p : Elf32_Phdr) : Z := p_vaddr p - p_vaddr p mod PGSIZE.
Definition seg_pages (p : Elf32_Phdr) : Z := (p_vaddr p mod PGSIZE + p_memsz p + 4095) / PGSIZE.

(** What [load] computes from a valid header. *)
Lemma load_phdr_run mem p file len s : phdr_ok p -> 0 <= len < 2 ^ 31 -> validate_segment p len = true ->
  let ofs := p_vaddr p mod PGSIZE in
  let read := if 0 <? p_filesz p then ofs + p_filesz p else 0 in
  let w := negb (Z.land (p_flags p) PF_W =? 0) in
  0 <= read <= 4096 * seg_pages p /\ 4096 * seg_pages p < 2 ^ 32 /\
  load_phdr mem p file len s = load_segment mem file (p_offset p - ofs) (seg_first p) read (4096 * seg_pages p - read) w s.
Proof.
  intros Hp Hl Hv ofs read w. destruct (validate_segment_spec p len Hp Hl Hv) as (V1 & V2 & V3 & V4 & V5 & V6).
  destruct Hp as [H1 H2 H3 H4]. pose proof (Z.mod_pos_bound (p_vaddr p) PGSIZE ltac:(done)) as Hm. fold ofs in Hm, V1. rewrite PGSIZE_eq in Hm, V1, V5. unfold PHYS_BASE in V6.
  assert (Hpg : 4096 * seg_pages p = (ofs + p_memsz p + 4095) / 4096 * 4096) by (unfold seg_pages; fold ofs; rewrite PGSIZE_eq; lia).
  assert (Hb : ofs + p_memsz p <= 4096 * seg_pages p < ofs + p_memsz p + 4096).
  { rewrite Hpg. pose proof (Z.div_mod (ofs + p_memsz p + 4095) 4096). pose proof (Z.mod_pos_bound (ofs + p_memsz p + 4095) 4096). lia. }
  assert (Hr : 0 <= read <= 4096 * seg_pages p) by (subst read; zcases; lia).
  split_and!; [lia|lia|urange; lia|]. unfold load_phdr. rewrite Hv. cbv zeta.
  change (Z.land ?x PGMASK) with (pg_ofs x). change (Z.land ?x (unot PGMASK)) with (pg_round_down x).
  assert (E1 : pg_ofs (p_vaddr p) = ofs) by apply pg_ofs_mod.
  assert (E2 : pg_round_down (p_offset p) = p_offset p - ofs) by (rewrite pg_round_down_eq, PGSIZE_eq, V1; done).
  assert (E3 : pg_round_down (p_vaddr p) = seg_first p) by (by apply pg_round_down_eq).
  rewrite E1, E2, E3. fold w.
  assert (Ee : ROUND_UP (ofs +u p_memsz p) PGSIZE = 4096 * seg_pages p).
  { unfold ROUND_UP. rewrite PGSIZE_eq, (u32_small (ofs + _)), (u32_small (_ + 4096)), (u32_small (_ - 1)) by (urange; lia).
    replace (ofs + p_memsz p + 4096 - 1) with (ofs + p_memsz p + 4095) by lia. rewrite <- Hpg. apply u32_small. urange. lia. }
  rewrite Ee. assert (Eo : s32 (p_offset p - ofs) = p_offset p - ofs).
  { apply s32_small. pose proof (Z.mod_le (p_offset p) 4096). urange. lia. }
  rewrite Eo. subst read. destruct (Z.ltb_spec 0 (p_filesz p)).
  - rewrite (u32_small (ofs + p_filesz p)), (u32_small (4096 * _ - _)) by (urange; lia). done.
  - by rewrite Z.sub_0_r.
Qed.

(** The checks of [load_segment] on page-aligned arguments. *)
Lemma load_segment_checks mem file ofs u read zero w s (n : Z) : is_page u -> 0 <= read -> 0 <= zero -> read + zero = 4096 * n ->
  4096 * n < 2 ^ 32 -> 0 <= ofs -> ofs mod PGSIZE = 0 ->
  load_segment mem file ofs u read zero w s =
    (free ← validate_free_page u read;
     if negb free then mret None
     else o ← load_segment_loop mem (S (Z.to_nat n)) file ofs u read zero w; mret (Some o)) s.
Proof.
  intros [Hu Hm] Hr Hz Hs Hn Ho Hom. unfold load_segment. rewrite (u32_small (read + zero)) by (urange; lia).
  rewrite Hs, PGSIZE_eq in *. rewrite (Z.mul_comm 4096 n), Z.mod_mul, Z.div_mul by lia.
  rewrite pg_ofs_mod, PGSIZE_eq, Hm, Z.rem_mod_nonneg, Hom by lia. done.
Qed.

(** The source of every byte of a page of the segment. *)
Lemma segment_entry_source p file w a : phdr_ok p -> p_offset p mod PGSIZE = p_vaddr p mod PGSIZE -> seg_first p <= a ->
  let ofs := p_vaddr p mod PGSIZE in
  let read := if 0 <? p_filesz p then ofs + p_filesz p else 0 in
  let e := segment_entry file (p_offset p - ofs) (seg_first p) read w (a - a mod PGSIZE) in
  source_of e (a mod PGSIZE) = segment_source p file a /\
  (0 <? p_filesz p = true -> a < p_vaddr p + p_filesz p -> is_writable e = w).
Proof.
  intros [H1 H2 H3 H4] Hm Ha ofs read e. subst e. unfold segment_entry, segment_source.
  pose proof (Z.mod_pos_bound a PGSIZE ltac:(done)) as Hk. assert (Ho : 0 <= ofs < PGSIZE) by (by apply Z.mod_pos_bound).
  assert (Ef : p_vaddr p = seg_first p + ofs) by (unfold seg_first; fold ofs; lia). set (k := a mod PGSIZE) in *.
  assert (Hv : seg_first p <= a - k).
  { unfold seg_first in *. fold ofs in Ha |- *. subst k ofs. rewrite PGSIZE_eq in *. clear -Ha. Z.to_euclidean_division_equations. lia. }
  set (v := a - k) in *. assert (Ea : a = v + k) by lia. rewrite PGSIZE_eq in *. subst read.
  destruct (Z.ltb_spec 0 (p_filesz p)); simpl.
  - destruct (Z.ltb_spec 0 (Z.min (ofs + p_filesz p - (v - seg_first p)) 4096)) as [Hr|Hr], (Z.ltb_spec a (p_vaddr p + p_filesz p)) as [Ha'|Ha'];
      try lia; (split; [|done || lia]); cbn [source_of]; [..|done].
    + destruct (Z.ltb_spec k (Z.min (ofs + p_filesz p - (v - seg_first p)) 4096)); [|lia]. f_equal. lia.
    + destruct (Z.ltb_spec k (Z.min (ofs + p_filesz p - (v - seg_first p)) 4096)); [lia|done].
  - destruct (Z.ltb_spec 0 (Z.min (0 - (v - seg_first p)) 4096)); [lia|]. split; [done|lia].
Qed.

(** Where the pages of a valid segment are. *)
Lemma seg_geometry p len : phdr_ok p -> 0 <= len < 2 ^ 31 -> validate_segment p len = true ->
  let ofs := p_vaddr p mod PGSIZE in
  0 <= ofs < 4096 /\ seg_first p = p_vaddr p - ofs /\ is_page (seg_first p) /\ 4096 <= seg_first p /\
  ofs + p_memsz p <= 4096 * seg_pages p < ofs + p_memsz p + 4096 /\ seg_first p + 4096 * seg_pages p <= PHYS_BASE /\
  0 <= p_offset p - ofs /\ (p_offset p - ofs) mod PGSIZE = 0.
Proof.
  intros Hp Hl Hv ofs. destruct (validate_segment_spec p len Hp Hl Hv) as (V1 & V2 & V3 & V4 & V5 & V6).
  assert (Ho : 0 <= ofs < 4096) by (rewrite <- PGSIZE_eq; by apply Z.mod_pos_bound). unfold PHYS_BASE in *.
  destruct Hp as [P1 P2 P3 P4]. assert (Hf : seg_first p = p_vaddr p - ofs /\ seg_first p mod 4096 = 0 /\ 4096 <= seg_first p).
  { unfold seg_first. fold ofs. rewrite PGSIZE_eq in V5. subst ofs. rewrite PGSIZE_eq. clear -V5. Z.to_euclidean_division_equations. lia. }
  assert (Hn : 4096 * seg_pages p < ofs + p_memsz p + 4096 /\ ofs + p_memsz p <= 4096 * seg_pages p).
  { unfold seg_pages. fold ofs. rewrite PGSIZE_eq. clear. Z.to_euclidean_division_equations. lia. }
  assert (Hend : seg_first p + 4096 * seg_pages p <= 3221225472) by (clear -Hf Hn V6; Z.to_euclidean_division_equations; lia).
  assert (Hof : 0 <= p_offset p - ofs /\ (p_offset p - ofs) mod PGSIZE = 0).
  { fold ofs in V1. rewrite <- V1, PGSIZE_eq. clear -P1. urange. Z.to_euclidean_division_equations. lia. }
  split_and!; try apply Hof; try lia. split; [urange; lia|rewrite PGSIZE_eq; lia].
Qed.

(** A segment is laid out as its program header says.  For every header
    that [validate_segment] accepts whose pages have no entries yet, [load]
    succeeds and gives every page from the one of [p_vaddr] to the one of
    the last byte an entry: a byte below [p_vaddr + p_filesz] comes from the
    file, at the offset that keeps [p_offset] at [p_vaddr], with the write
    permission of the header, and every byte after it is zero.  The entries
    of other pages stay as they were, and the segment lies between the first
    page and [PHYS_BASE]. *)
Theorem load_phdr_correct mem p file len s : phdr_ok p -> 0 <= len < 2 ^ 31 -> sup_ok s -> validate_segment p len = true ->
  p_offset p + p_filesz p + 8192 < 2 ^ 31 -> seg_pages p <= entry_mem s ->
  (forall v, in_pages (seg_first p) (seg_pages p) v -> entry_at s v = None) ->
  PGSIZE <= seg_first p <= p_vaddr p /\ p_vaddr p + p_memsz p <= seg_first p + 4096 * seg_pages p <= PHYS_BASE /\
  exists o s', load_phdr mem p file len s = Ret (Some o, s') /\ sup_ok s' /\ entry_mem s' = (entry_mem s - Z.to_nat (seg_pages p))%nat /\
    (p_offset p + p_memsz p + 8192 < 2 ^ 31 -> 0 <= o) /\
    (forall v, ~ in_pages (seg_first p) (seg_pages p) v -> entry_at s' v = entry_at s v) /\
    forall a, seg_first p <= a < seg_first p + 4096 * seg_pages p ->
      exists e, entry_at s' (a - a mod PGSIZE) = Some e /\ source_of e (a mod PGSIZE) = segment_source p file a /\
        (0 < p_filesz p -> a < p_vaddr p + p_filesz p -> is_writable e = negb (Z.land (p_flags p) PF_W =? 0)).
Proof.
  intros Hp Hl Hs Hv Hoff Hmem Hfree. destruct (validate_segment_spec p len Hp Hl Hv) as (V1 & V2 & V3 & V4 & V5 & V6).
  destruct (load_phdr_run mem p file len s Hp Hl Hv) as (Hr & Hlt & E).
  set (ofs := p_vaddr p mod PGSIZE) in *. set (read := if 0 <? p_filesz p then ofs + p_filesz p else 0) in *. set (w := negb _) in *.
  destruct (seg_geometry p len Hp Hl Hv) as (Ho & Hf & Hpage & Hf4 & Hn & Hend & Hof & Hom). fold ofs in Ho, Hf, Hn, Hof, Hom.
  unfold PHYS_BASE in *. destruct (ph_filesz p Hp) as [Hfz _]. split_and!; [rewrite PGSIZE_eq; lia|lia|lia|lia|].
  rewrite E, (load_segment_checks mem file (p_offset p - ofs) (seg_first p) read (4096 * seg_pages p - read) w s (seg_pages p));
    [|done|lia|lia|lia|done|done|done].
  destruct (validate_free_run (Z.to_nat (page_count read)) s (seg_first p) Hs Hpage) as (b & Eb & Hb).
  { unfold page_count, PHYS_BASE. rewrite PGSIZE_eq. clear -Hr Hend Hf4. zcases; Z.to_euclidean_division_equations; lia. }
  assert (b = true) as ->.
  { apply Hb. intros k Hk. apply Hfree. exists k. split; [|done]. split; [lia|]. revert Hk. unfold page_count. rewrite PGSIZE_eq.
    clear -Hr Hn Ho V4. intros Hk. zcases; Z.to_euclidean_division_equations; lia. }
  unfold validate_free_page. rewrite (bind_run _ _ _ _ _ Eb). cbn [negb].
  destruct (load_segment_loop_run mem (Z.to_nat (seg_pages p)) file (p_offset p - ofs) (seg_first p) read (4096 * seg_pages p - read) w s)
    as (o & s' & E' & Hs' & Hme & Hoo & Hat); rewrite ?Z2Nat.id by lia; [done|done|unfold PHYS_BASE; lia|lia|lia|lia|lia| |done|].
  { intros Hrd. split; [done|]. subst read. zcases; lia. }
  rewrite Z2Nat.id in Hat, Hoo by lia. rewrite (bind_run _ _ _ _ _ E'). exists o, s'. split_and!; [done|done|done| | |].
  { intros Hfit. rewrite Hoo by lia. lia. }
  - intros v Hv'. rewrite Hat, decide_False; done.
  - intros a Ha. destruct (segment_entry_source p file w a Hp V1 ltac:(lia)) as [Es Ew]. fold ofs read in Es, Ew.
    eexists. split_and!; [|exact Es|].
    + rewrite Hat, decide_True; [done|]. exists ((a - seg_first p) / 4096). rewrite PGSIZE_eq.
      destruct Hpage as [_ Hm]. rewrite PGSIZE_eq in Hm. clear -Ha Hf Hm. Z.to_euclidean_division_equations. lia.
    + intros Hpos Hlt'. apply Ew; [by apply Z.ltb_lt|done].
Qed.

(** A header none of whose file pages may have an entry: [load] fails and
    changes nothing. *)
Lemma load_phdr_refuses mem p file len s k : phdr_ok p -> 0 <= len < 2 ^ 31 -> sup_ok s -> validate_segment p len = true ->
  0 < p_filesz p -> 0 <= k -> 4096 * k < p_vaddr p mod PGSIZE + p_filesz p -> entry_at s (seg_first p + 4096 * k) <> None ->
  load_phdr mem p file len s = Ret (None, s).
Proof.
  intros Hp Hl Hs Hv Hfz Hk0 Hk Hat. destruct (validate_segment_spec p len Hp Hl Hv) as (V1 & V2 & V3 & V4 & V5 & V6).
  destruct (load_phdr_run mem p file len s Hp Hl Hv) as (Hr & Hlt & E). rewrite E. clear E.
  destruct (Z.ltb_spec 0 (p_filesz p)); [|lia]. set (ofs := p_vaddr p mod PGSIZE) in *. set (w := negb _) in *.
  destruct (seg_geometry p len Hp Hl Hv) as (Ho & Hf & Hpage & Hf4 & Hn & Hend & Hof & Hom). fold ofs in Ho, Hf, Hn, Hof, Hom.
  unfold PHYS_BASE in *.
  rewrite (load_segment_checks mem file _ (seg_first p) _ _ w s (seg_pages p)); [|done|lia|lia|lia|done|done|done].
  destruct (validate_free_run (Z.to_nat (page_count (ofs + p_filesz p))) s (seg_first p) Hs Hpage) as (b & Eb & Hb).
  { unfold page_count, PHYS_BASE. rewrite PGSIZE_eq. clear -Hr Hend Hf4. zcases; Z.to_euclidean_division_equations; lia. }
  assert (b = false) as ->.
  { destruct b; [|done]. destruct Hat. apply Hb; [done|]. split; [done|]. unfold page_count. rewrite PGSIZE_eq.
    clear -Hk Hk0 Ho Hfz. zcases; Z.to_euclidean_division_equations; lia. }
  unfold validate_free_page. by rewrite (bind_run _ _ _ _ _ Eb).
Qed.

(** ** Examples *)

Definition demo_table : lazy := mk_lazy (mk_hash 0 4 [[]; []; []; []]) 10.
Definition demo_phdr : Elf32_Phdr := mk_phdr 1 0x100 0x8048100 0x8048100 5000 9000 PF_W PGSIZE.

Lemma demo_table_ok : sup_ok demo_table.
Proof.
  split; [|by apply Forall_nil]. split; simpl; [by exists 2| |done|done|].
  - split; [done|]. intros i b e Hi He. do 4 (destruct i as [|i]; [injection Hi as <-; by apply not_elem_of_nil in He|]). done.
  - split; [by apply NoDup_nil|]. intros x y Hx. by apply not_elem_of_nil in Hx.
Qed.

Lemma load_phdr_correct_witness : exists o s', load_phdr true demo_phdr 1 6000 demo_table = Ret (Some o, s') /\ sup_ok s'.
Proof.
  destruct (load_phdr_correct true demo_phdr 1 6000 demo_table) as (_ & _ & o & s' & E & Hs & _);
    [split; split; discriminate || reflexivity|split; discriminate || reflexivity|apply demo_table_ok|reflexivity|reflexivity|discriminate| |].
  - intros v _. reflexivity.
  - exists o, s'. split; [exact E|exact Hs].
Defined.

(** Only the pages read from the file are checked: a page of zeros that
    overlaps an earlier segment keeps the entry of that segment, and [load]
    reports success. *)
Lemma load_phdr_overlap : exists o s' s1,
  add_lazy_page true (exec_page 0x804a000 7 0 4096 false) demo_table = Ret (None, s1) /\
  load_phdr true demo_phdr 1 6000 s1 = Ret (Some o, s') /\
  entry_at s' 0x804a000 = Some (exec_page 0x804a000 7 0 4096 false) /\
  segment_source demo_phdr 1 0x804a010 = ZeroByte.
Proof. do 3 eexists. split; [vm_compute; reflexivity|]. split; [vm_compute; reflexivity|]. split; vm_compute; reflexivity. Qed.
