(* ===== verification/Intq.v ===== *)
(** * Interrupt queues: devices/intq.c

    A ring of 64 bytes shared by threads and interrupt handlers, always used
    with interrupts off.  [intq_getc] and [intq_putc] loop while the queue is
    empty or full: the model gives one turn of the loop, which either does
    the work or puts the thread to sleep.  A thread that slept on the
    condition releases the queue's lock when it is woken up ([intq_resume])
    and takes another turn; a thread that slept on the lock goes on inside
    the loop's body with the lock it was given ([locked]). *)

From S2P Require Import Prelude.

Definition INTQ_BUFSIZE : Z := 64.

(** [q_lock] is the holder of the lock, [not_full] and [not_empty] the
    waiting threads. *)
Record intq := mk_intq {
  q_lock : option Z; not_full : option Z; not_empty : option Z;
  buf : list Z; head : Z; tail : Z
}.

Definition intq_init (garbage : list Z) : intq := mk_intq None None None garbage 0 0.

Definition next (pos : Z) : Z := Z.rem (s32 (pos + 1)) INTQ_BUFSIZE.

Definition intq_empty (q : intq) : bool := head q =? tail q.
Definition intq_full (q : intq) : bool := next (head q) =? tail q.

(** A turn of a loop: the operation was done, with its result and the thread
    to be woken up; or the caller sleeps until it is woken up; or it sleeps
    on the lock. *)
Inductive turn (A : Type) :=
| Done (a : A) (woken : option Z)
| Sleeps
| LockBusy.
Arguments Done {A}.
Arguments Sleeps {A}.
Arguments LockBusy {A}.

Section Queue.
(** Whether an interrupt is being handled, and the running thread. *)
Context (intr_context : bool) (cur : Z).

(** [wait]: [full] says which of the two conditions is waited for. *)
Definition wait (full : bool) : ST intq unit :=
  ASSERT (negb intr_context);;
  q ← gets id;
  ASSERT (if full then intq_full q else intq_empty q);;
  modify (fun q =>
    if full then mk_intq (q_lock q) (Some cur) (not_empty q) (buf q) (head q) (tail q)
    else mk_intq (q_lock q) (not_full q) (Some cur) (buf q) (head q) (tail q)).

(** [signal]: the thread that was woken up, if one was waiting. *)
Definition signal (full : bool) : ST intq (option Z) :=
  q ← gets id;
  ASSERT (if full then negb (intq_full q) else negb (intq_empty q));;
  modify (fun q =>
    if full then mk_intq (q_lock q) None (not_empty q) (buf q) (head q) (tail q)
    else mk_intq (q_lock q) (not_full q) None (buf q) (head q) (tail q));;
  mret (if full then not_full q else not_empty q).

(** The waiting loops' bodies once [lock_acquire] has the lock: the condition
    is not tested again before [wait]. *)
Definition locked {A} (full : bool) : ST intq (turn A) :=
  modify (fun q => mk_intq (Some cur) (not_full q) (not_empty q) (buf q) (head q) (tail q));;
  wait full;;
  mret Sleeps.

(** The body of the waiting loops. *)
Definition sleep {A} (full : bool) : ST intq (turn A) :=
  ASSERT (negb intr_context);;
  l ← gets q_lock;
  match l with
  | Some _ => mret LockBusy
  | None => locked full
  end.

Definition intq_getc : ST intq (turn Z) :=
  e ← gets intq_empty;
  if e : bool then sleep false
  else
    q ← gets id;
    match buf q !! Z.to_nat (tail q) with
    | None => panic
    | Some byte =>
      modify (fun q => mk_intq (q_lock q) (not_full q) (not_empty q) (buf q) (head q) (next (tail q)));;
      w ← signal true;
      mret (Done byte w)
    end.

Definition intq_putc (byte : Z) : ST intq (turn unit) :=
  f ← gets intq_full;
  if f : bool then sleep true
  else
    q ← gets id;
    ASSERT (bool_decide (Z.to_nat (head q) < length (buf q))%nat);;
    modify (fun q => mk_intq (q_lock q) (not_full q) (not_empty q) (<[Z.to_nat (head q) := byte]> (buf q)) (next (head q)) (tail q));;
    w ← signal false;
    mret (Done tt w).

(** A thread that was woken up releases the lock. *)
Definition intq_resume : ST intq unit :=
  l ← gets q_lock;
  ASSERT (bool_decide (l = Some cur));;
  modify (fun q => mk_intq None (not_full q) (not_empty q) (buf q) (head q) (tail q)).
End Queue.

(** ** The queue as a sequence *)

Record ring_ok (q : intq) : Prop := {
  rk_buf : length (buf q) = 64%nat;
  rk_head : 0 <= head q < 64;
  rk_tail : 0 <= tail q < 64;
}.

(** The number of bytes in the queue, and the bytes, oldest first. *)
Definition count (q : intq) : Z := (head q - tail q) mod 64.
Definition contents (q : intq) : list Z :=
  map (fun k => nth (Z.to_nat ((tail q + k) mod 64)) (buf q) 0) (seqZ 0 (count q)).

(** A thread waits only while its condition holds, and holds the lock. *)
Record waiters_ok (q : intq) : Prop := {
  wk_empty t : not_empty q = Some t -> contents q = [] /\ q_lock q = Some t;
  wk_full t : not_full q = Some t -> length (contents q) = 63%nat /\ q_lock q = Some t;
}.

Lemma next_eq pos : 0 <= pos < 64 -> next pos = (pos + 1) mod 64.
Proof. intros Hp. unfold next, INTQ_BUFSIZE. rewrite s32_small by (urange; lia). by rewrite Z.rem_mod_nonneg by lia. Qed.

Lemma count_range q : 0 <= count q < 64.
Proof. apply Z.mod_pos_bound. lia. Qed.

Lemma queue_length q : Z.of_nat (length (contents q)) = count q.
Proof. unfold contents. rewrite length_map, length_seqZ. pose proof (count_range q). lia. Qed.

Ltac modz := Z.to_euclidean_division_equations; lia.

Lemma empty_iff q : ring_ok q -> intq_empty q = bool_decide (contents q = []).
Proof.
  intros [_ Hh Ht]. unfold intq_empty. pose proof (queue_length q) as Hc. unfold count in Hc.
  destruct (Z.eqb_spec (head q) (tail q)) as [E|E].
  - rewrite E, Z.sub_diag in Hc. rewrite bool_decide_true; [done|]. apply nil_length_inv. change (0 mod 64) with 0 in Hc. lia.
  - rewrite bool_decide_false; [done|]. intros E0. rewrite E0 in Hc. simpl in Hc. modz.
Qed.

Lemma full_iff q : ring_ok q -> intq_full q = bool_decide (length (contents q) = 63%nat).
Proof.
  intros [_ Hh Ht]. unfold intq_full. rewrite next_eq by done. pose proof (queue_length q) as Hc. unfold count in Hc.
  destruct (Z.eqb_spec ((head q + 1) mod 64) (tail q)) as [E|E].
  - rewrite bool_decide_true; [done|]. modz.
  - rewrite bool_decide_false; [done|]. intros E0. rewrite E0 in Hc. modz.
Qed.

Lemma seqZ_first n : 0 < n -> seqZ 0 n = 0 :: map (fun k => k + 1) (seqZ 0 (n - 1)).
Proof.
  intros Hn. rewrite seqZ_cons by lia. f_equal. replace (Z.pred n) with (n - 1) by lia.
  rewrite <- (fmap_add_seqZ 1 0). apply list_fmap_ext. intros k x _. lia.
Qed.

(** Taking the oldest byte. *)
Lemma contents_get q l nf ne : ring_ok q -> contents q <> [] ->
  contents q = nth (Z.to_nat (tail q)) (buf q) 0 :: contents (mk_intq l nf ne (buf q) (head q) (next (tail q))).
Proof.
  intros Hr Hne. pose proof Hr as [Hb Hh Ht]. pose proof (queue_length q) as Hc. pose proof (count_range q).
  assert (0 < count q) by (destruct (contents q); [done|simpl in Hc; lia]).
  unfold contents at 1. rewrite seqZ_first by done. cbn [map]. f_equal.
  - f_equal. rewrite Z.add_0_r, Z.mod_small by lia. done.
  - unfold contents, count. cbn [buf head tail]. rewrite next_eq by done. unfold count in *.
    replace ((head q - (tail q + 1) mod 64) mod 64) with ((head q - tail q) mod 64 - 1) by modz.
    rewrite map_map. apply map_ext_in. intros k Hk%list_elem_of_In%elem_of_seqZ. do 2 f_equal. modz.
Qed.

(** Adding a byte behind the newest one. *)
Lemma contents_put q l nf ne byte : ring_ok q -> (length (contents q) < 63)%nat ->
  contents (mk_intq l nf ne (<[Z.to_nat (head q) := byte]> (buf q)) (next (head q)) (tail q)) = contents q ++ [byte].
Proof.
  intros Hr Hlt. pose proof Hr as [Hb Hh Ht]. pose proof (queue_length q) as Hc. pose proof (count_range q).
  unfold contents, count in *. cbn [buf head tail]. rewrite next_eq by done.
  replace (((head q + 1) mod 64 - tail q) mod 64) with ((head q - tail q) mod 64 + 1) by modz.
  set (n := (head q - tail q) mod 64) in *. rewrite (seqZ_app 0 n 1), map_app by lia. f_equal.
  - apply map_ext_in. intros k Hk%list_elem_of_In%elem_of_seqZ. rewrite !nth_lookup, list_lookup_insert_ne; [done|]. unfold n in *. modz.
  - simpl. rewrite nth_lookup. replace ((tail q + (0%nat + (0 + n))) mod 64) with (head q) by (unfold n; modz).
    by rewrite list_lookup_insert_eq by lia.
Qed.

(** ** The operations *)

Record queue_ok (q : intq) : Prop := { qk_ring : ring_ok q; qk_waiters : waiters_ok q }.

Lemma ring_ok_next q l nf ne b : ring_ok q -> length b = 64%nat ->
  ring_ok (mk_intq l nf ne b (head q) (next (tail q))) /\ ring_ok (mk_intq l nf ne b (next (head q)) (tail q)).
Proof.
  intros [Hb Hh Ht] Hl. split; constructor; simpl; rewrite ?next_eq by done; try done; apply Z.mod_pos_bound; lia.
Qed.

Lemma getc_some ic cur q b t : queue_ok q -> contents q = b :: t ->
  exists q', intq_getc ic cur q = Ret (Done b (not_full q), q') /\ queue_ok q' /\ contents q' = t /\
    q_lock q' = q_lock q /\ not_full q' = None /\ not_empty q' = None.
Proof.
  intros [Hr Hw] Hc. pose proof Hr as [Hb Hh Ht].
  set (q' := mk_intq (q_lock q) None (not_empty q) (buf q) (head q) (next (tail q))).
  pose proof (contents_get q (q_lock q) None (not_empty q) Hr ltac:(by rewrite Hc)) as Hg. fold q' in Hg. rewrite Hc in Hg.
  injection Hg as Eb Et. destruct (lookup_lt_is_Some_2 (buf q) (Z.to_nat (tail q))) as [x Hx]; [lia|].
  assert (x = b) as -> by (rewrite Eb, nth_lookup, Hx; done).
  assert (Hr' : ring_ok q') by (by apply ring_ok_next).
  assert (Hne : not_empty q = None).
  { destruct (not_empty q) as [u|] eqn:E; [|done]. destruct (wk_empty q Hw u E) as [E0 _]. by rewrite E0 in Hc. }
  assert (Hlen : (length (contents q') < 63)%nat).
  { pose proof (queue_length q) as Hl. pose proof (count_range q). rewrite Hc in Hl. rewrite <- Et. simpl in Hl. lia. }
  exists q'. split; [|split_and!; [|done..]].
  - unfold intq_getc. rewrite (bind_run _ _ _ false q) by (unfold gets; by rewrite empty_iff, Hc).
    rewrite (bind_run _ _ _ q q) by done. rewrite Hx.
    set (q1 := mk_intq (q_lock q) (not_full q) (not_empty q) (buf q) (head q) (next (tail q))).
    rewrite (bind_run _ _ _ tt q1) by done. rewrite (bind_run _ _ _ (not_full q) q'); [done|].
    unfold signal. rewrite (bind_run _ _ _ q1 q1) by done. rewrite (bind_run _ _ _ tt q1); [done|].
    unfold ASSERT. rewrite full_iff by (by apply ring_ok_next). change (contents q1) with (contents q').
    rewrite bool_decide_false; [done|lia].
  - split; [done|]. split; [|done]. simpl. rewrite Hne. done.
Qed.

Lemma putc_some ic cur q byte : queue_ok q -> (length (contents q) < 63)%nat ->
  exists q', intq_putc ic cur byte q = Ret (Done tt (not_empty q), q') /\ queue_ok q' /\ contents q' = contents q ++ [byte] /\
    q_lock q' = q_lock q /\ not_full q' = None /\ not_empty q' = None.
Proof.
  intros [Hr Hw] Hc. pose proof Hr as [Hb Hh Ht].
  set (b' := <[Z.to_nat (head q) := byte]> (buf q)). assert (Hb' : length b' = 64%nat) by (unfold b'; by rewrite length_insert).
  set (q' := mk_intq (q_lock q) (not_full q) None b' (next (head q)) (tail q)).
  pose proof (contents_put q (q_lock q) (not_full q) None byte Hr Hc) as Hp. fold b' q' in Hp.
  assert (Hr' : ring_ok q') by (by apply ring_ok_next).
  assert (Hnf : not_full q = None).
  { destruct (not_full q) as [u|] eqn:E; [|done]. destruct (wk_full q Hw u E) as [E0 _]. lia. }
  exists q'. split; [|split_and!; [|done..]].
  - unfold intq_putc. rewrite (bind_run _ _ _ false q) by (unfold gets; rewrite full_iff, bool_decide_false by (done || lia); done).
    rewrite (bind_run _ _ _ q q) by done. rewrite (bind_run _ _ _ tt q) by (unfold ASSERT; rewrite bool_decide_true; [done|lia]).
    set (q1 := mk_intq (q_lock q) (not_full q) (not_empty q) b' (next (head q)) (tail q)).
    rewrite (bind_run _ _ _ tt q1) by done. rewrite (bind_run _ _ _ (not_empty q) q'); [done|].
    unfold signal. rewrite (bind_run _ _ _ q1 q1) by done. rewrite (bind_run _ _ _ tt q1); [done|].
    unfold ASSERT. rewrite empty_iff by (by apply ring_ok_next). change (contents q1) with (contents q').
    rewrite Hp, bool_decide_false; [done|]. by destruct (contents q).
  - split; [done|]. split; [done|]. simpl. rewrite Hnf. done.
Qed.

(** Sleeping: [full] says which condition is waited for. *)
Definition must_wait (full : bool) (q : intq) : Prop :=
  if full then length (contents q) = 63%nat else contents q = [].

#[export] Instance must_wait_dec full q : Decision (must_wait full q).
Proof. destruct full; unfold must_wait; apply _. Defined.

Definition set_lock (l : option Z) (q : intq) : intq :=
  mk_intq l (not_full q) (not_empty q) (buf q) (head q) (tail q).

Lemma no_waiter q : waiters_ok q -> q_lock q = None -> not_full q = None /\ not_empty q = None.
Proof.
  intros Hw El. split; [destruct (not_full q) as [u|] eqn:E|destruct (not_empty q) as [u|] eqn:E]; try done;
    [apply (wk_full q Hw) in E as [_ E]|apply (wk_empty q Hw) in E as [_ E]]; congruence.
Qed.

Lemma must_wait_test (full : bool) q : ring_ok q ->
  (if full then intq_full q else intq_empty q) = true <-> must_wait full q.
Proof. intros Hr. destruct full; rewrite ?full_iff, ?empty_iff by done; apply bool_decide_eq_true. Qed.

Lemma locked_spec {A} cur (full : bool) q : queue_ok q -> q_lock q = None -> must_wait full q ->
  exists q', locked (A := A) false cur full q = Ret (Sleeps, q') /\ queue_ok q' /\ contents q' = contents q /\
    q_lock q' = Some cur /\ (if full then not_full q' else not_empty q') = Some cur.
Proof.
  intros [Hr Hw] El Hc. destruct (no_waiter q Hw El) as [Hnf Hne]. unfold locked.
  set (q1 := set_lock (Some cur) q).
  assert (Hr1 : ring_ok q1) by (by destruct Hr; constructor). rewrite (bind_run _ _ _ tt q1) by done.
  set (q2 := if full then mk_intq (Some cur) (Some cur) (not_empty q) (buf q) (head q) (tail q)
             else mk_intq (Some cur) (not_full q) (Some cur) (buf q) (head q) (tail q)).
  exists q2. rewrite (bind_run _ _ _ tt q2).
  - split; [done|]. split; [split|]; [by destruct full; destruct Hr; constructor| |by destruct full].
    destruct full; unfold q2; split; simpl; rewrite ?Hnf, ?Hne; intros t [= <-]; done.
  - unfold wait. rewrite (bind_run _ _ _ tt q1) by done. rewrite (bind_run _ _ _ q1 q1) by done.
    rewrite (bind_run _ _ _ tt q1); [by destruct full|]. unfold ASSERT.
    apply (must_wait_test full q1 Hr1) in Hc as E. by rewrite E.
Qed.

(** The lock is granted to a thread whose condition no longer holds. *)
Lemma locked_stale {A} cur (full : bool) q : queue_ok q -> ~ must_wait full q -> locked (A := A) false cur full q = Panic.
Proof.
  intros [Hr Hw] Hc. unfold locked. set (q1 := set_lock (Some cur) q).
  assert (Hr1 : ring_ok q1) by (by destruct Hr; constructor). rewrite (bind_run _ _ _ tt q1) by done.
  assert (E : wait false cur full q1 = Panic); [|by apply bind_panics].
  unfold wait. rewrite (bind_run _ _ _ tt q1) by done. rewrite (bind_run _ _ _ q1 q1) by done.
  apply bind_panics. unfold ASSERT.
  destruct (if full then intq_full q1 else intq_empty q1) eqn:E; [|done].
  by apply (must_wait_test full q1 Hr1) in E.
Qed.

Lemma resume_spec cur q : queue_ok q -> q_lock q = Some cur -> not_full q <> Some cur -> not_empty q <> Some cur ->
  intq_resume cur q = Ret (tt, set_lock None q) /\ queue_ok (set_lock None q).
Proof.
  intros [Hr Hw] El Hf He. split.
  - unfold intq_resume. rewrite (bind_run _ _ _ (q_lock q) q) by done. rewrite (bind_run _ _ _ tt q); [done|].
    unfold ASSERT. by rewrite bool_decide_true.
  - split; [by destruct Hr; constructor|]. split; intros t E; exfalso.
    + destruct (wk_empty q Hw t E) as [_ E']. simpl in E. congruence.
    + destruct (wk_full q Hw t E) as [_ E']. simpl in E. congruence.
Qed.

Lemma getc_wait cur q : queue_ok q -> contents q = [] ->
  (intq_getc false cur q = Ret (LockBusy, q) /\ q_lock q <> None) \/ (q_lock q = None /\ intq_getc false cur q = locked false cur false q).
Proof.
  intros [Hr Hw] Hc. unfold intq_getc. rewrite (bind_run _ _ _ true q) by (unfold gets; rewrite empty_iff, bool_decide_true by done; done).
  unfold sleep. rewrite (bind_run _ _ _ tt q) by done. rewrite (bind_run _ _ _ (q_lock q) q) by done.
  destruct (q_lock q); [by left|by right].
Qed.

Lemma putc_wait cur byte q : queue_ok q -> length (contents q) = 63%nat ->
  (intq_putc false cur byte q = Ret (LockBusy, q) /\ q_lock q <> None) \/ (q_lock q = None /\ intq_putc false cur byte q = locked false cur true q).
Proof.
  intros [Hr Hw] Hc. unfold intq_putc. rewrite (bind_run _ _ _ true q) by (unfold gets; rewrite full_iff, bool_decide_true by done; done).
  unfold sleep. rewrite (bind_run _ _ _ tt q) by done. rewrite (bind_run _ _ _ (q_lock q) q) by done.
  destruct (q_lock q); [by left|by right].
Qed.

Lemma contents_bound q : (length (contents q) <= 63)%nat.
Proof. pose proof (queue_length q). pose proof (count_range q). lia. Qed.

(** ** Histories

    The bytes put into the queue and taken from it so far, by threads and
    interrupt handlers in any interleaving. *)
Record history := mk_history { queue : intq; sent : list Z; received : list Z }.

Inductive hstep : history -> history -> Prop :=
| hs_put ic t b w q' h : intq_putc ic t b (queue h) = Ret (Done tt w, q') ->
    hstep h (mk_history q' (sent h ++ [b]) (received h))
| hs_get ic t b w q' h : intq_getc ic t (queue h) = Ret (Done b w, q') ->
    hstep h (mk_history q' (sent h) (received h ++ [b]))
| hs_put_sleeps t b r q' h : intq_putc false t b (queue h) = Ret (r, q') -> r = Sleeps \/ r = LockBusy ->
    hstep h (mk_history q' (sent h) (received h))
| hs_get_sleeps t r q' h : intq_getc false t (queue h) = Ret (r, q') -> r = Sleeps \/ r = LockBusy ->
    hstep h (mk_history q' (sent h) (received h))
| hs_locked t full q' h : q_lock (queue h) = None -> locked (A := unit) false t full (queue h) = Ret (Sleeps, q') ->
    hstep h (mk_history q' (sent h) (received h))
(** A thread goes on after [thread_block] only when a [signal] has woken it up
    and so has cleared its entry. *)
| hs_resume t q' h : not_full (queue h) <> Some t -> not_empty (queue h) <> Some t ->
    intq_resume t (queue h) = Ret (tt, q') -> hstep h (mk_history q' (sent h) (received h)).

Record history_ok (h : history) : Prop := {
  ho_queue : queue_ok (queue h);
  ho_order : sent h = received h ++ contents (queue h);
}.

Lemma locked_keeps {A} t (full : bool) q r q' : queue_ok q -> q_lock q = None -> locked (A := A) false t full q = Ret (r, q') ->
  r = Sleeps /\ queue_ok q' /\ contents q' = contents q.
Proof.
  intros Hq El E. destruct (decide (must_wait full q)) as [Hc|Hc].
  - destruct (locked_spec (A := A) t full q Hq El Hc) as (q1 & E1 & Hq1 & Hc1 & _). rewrite E1 in E. by injection E as <- <-.
  - by rewrite (locked_stale (A := A) t full q Hq Hc) in E.
Qed.

Lemma putc_cases ic t b q r q' : queue_ok q -> intq_putc ic t b q = Ret (r, q') ->
  queue_ok q' /\ ((exists w, r = Done tt w) /\ contents q' = contents q ++ [b] \/ (r = Sleeps \/ r = LockBusy) /\ contents q' = contents q).
Proof.
  intros Hq E. pose proof (contents_bound q).
  destruct (decide (length (contents q) = 63%nat)) as [Hf|Hf].
  - assert (ic = false) as ->.
    { destruct ic; [|done]. unfold intq_putc in E. rewrite (bind_run _ _ _ true q) in E; [done|].
      unfold gets. rewrite full_iff, bool_decide_true; [done..|]. apply Hq. }
    destruct (putc_wait t b q Hq Hf) as [[E1 _]|[El E1]]; rewrite E1 in E.
    + injection E as <- <-. tauto.
    + destruct (locked_keeps _ _ _ _ _ Hq El E) as (-> & ? & ?). tauto.
  - destruct (putc_some ic t q b Hq ltac:(lia)) as (q1 & E1 & Hq1 & Hc1 & _). rewrite E1 in E. injection E as <- <-. eauto 6.
Qed.

Lemma getc_cases ic t q r q' : queue_ok q -> intq_getc ic t q = Ret (r, q') ->
  queue_ok q' /\ ((exists b w, r = Done b w /\ contents q = b :: contents q') \/ (r = Sleeps \/ r = LockBusy) /\ contents q' = contents q).
Proof.
  intros Hq E. destruct (contents q) as [|b l] eqn:Hc.
  - assert (ic = false) as ->.
    { destruct ic; [|done]. unfold intq_getc in E. rewrite (bind_run _ _ _ true q) in E; [done|].
      unfold gets. rewrite empty_iff, bool_decide_true; [done..|]. apply Hq. }
    destruct (getc_wait t q Hq Hc) as [[E1 _]|[El E1]]; rewrite E1 in E.
    + injection E as <- <-. tauto.
    + destruct (locked_keeps _ _ _ _ _ Hq El E) as (-> & ? & ?). rewrite Hc in *. tauto.
  - destruct (getc_some ic t q b l Hq Hc) as (q1 & E1 & Hq1 & Hc1 & _). rewrite E1 in E. injection E as <- <-.
    split; [done|]. left. exists b, (not_full q). by rewrite Hc1.
Qed.

Lemma hstep_ok h h' : hstep h h' -> history_ok h -> history_ok h'.
Proof.
  intros Hs [Hq Ho]. destruct Hs as [ic t b w q' h E|ic t b w q' h E|t b r q' h E Hr|t r q' h E Hr|t full q' h El E|t q' h Hf He E].
  - destruct (putc_cases _ _ _ _ _ _ Hq E) as (Hq' & [[_ Hc]|[[?|?] _]]); [|done..].
    split; simpl; [done|]. by rewrite Hc, Ho, app_assoc.
  - destruct (getc_cases _ _ _ _ _ Hq E) as (Hq' & [(b' & w' & [= <- <-] & Hc)|[[?|?] _]]); [|done..].
    split; simpl; [done|]. by rewrite Ho, Hc, <- app_assoc.
  - destruct (putc_cases _ _ _ _ _ _ Hq E) as (Hq' & [[[w ->] _]|[_ Hc]]); [by destruct Hr|]. split; simpl; congruence.
  - destruct (getc_cases _ _ _ _ _ Hq E) as (Hq' & [(b' & w' & -> & _)|[_ Hc]]); [by destruct Hr|]. split; simpl; congruence.
  - destruct (locked_keeps _ _ _ _ _ Hq El E) as (_ & ? & Hc). split; simpl; congruence.
  - assert (El : q_lock (queue h) = Some t).
    { unfold intq_resume in E. rewrite (bind_run _ _ _ (q_lock (queue h)) (queue h)) in E by done.
      destruct (decide (q_lock (queue h) = Some t)); [done|]. unfold ASSERT in E. by rewrite bool_decide_false in E. }
    destruct (resume_spec t _ Hq El Hf He) as [E' Hq']. rewrite E' in E. injection E as <-. by split.
Qed.

Definition hinit (garbage : list Z) : history := mk_history (intq_init garbage) [] [].

(** a queue is first-in first-out and never panics in an interrupt
    handler that checks it first.  After any interleaving of turns by threads
    and interrupt handlers, the bytes received are a prefix of the bytes
    sent, in order, and the queue holds the rest, at most 63 of them.  A
    reader finds a byte unless everything sent was received, and wakes up the
    writer that waits; a writer finds room while fewer than 63 bytes are
    outstanding, and wakes up the reader that waits; a thread sleeps on a
    condition only while that condition holds, so no wake-up is lost. *)
Theorem intq_fifo (garbage : list Z) h : length garbage = 64%nat -> rtc hstep (hinit garbage) h ->
  let q := queue h in
  sent h = received h ++ contents q /\ (length (contents q) <= 63)%nat /\
  (forall ic t b l, contents q = b :: l ->
    exists q', intq_getc ic t q = Ret (Done b (not_full q), q') /\ contents q' = l /\ not_full q' = None) /\
  (forall ic t b, (length (contents q) < 63)%nat ->
    exists q', intq_putc ic t b q = Ret (Done tt (not_empty q), q') /\ contents q' = contents q ++ [b] /\ not_empty q' = None) /\
  (forall t, not_empty q = Some t -> contents q = []) /\
  (forall t, not_full q = Some t -> length (contents q) = 63%nat).
Proof.
  intros Hg Hreach q.
  assert (Hi : history_ok (hinit garbage)) by (split; [split; [split; simpl; done || lia|split; done]|done]).
  assert (Hok : history_ok h) by (clear q; induction Hreach; eauto using hstep_ok).
  destruct Hok as [Hq Ho]. split_and!; [done|apply contents_bound|..].
  - intros ic t b l Hc. destruct (getc_some ic t q b l Hq Hc) as (q' & E & _ & Hc' & _ & Hf & _). by exists q'.
  - intros ic t b Hc. destruct (putc_some ic t q b Hq Hc) as (q' & E & _ & Hc' & _ & _ & He). by exists q'.
  - intros t Ht. apply (wk_empty q (qk_waiters q Hq) t Ht).
  - intros t Ht. apply (wk_full q (qk_waiters q Hq) t Ht).
Qed.

(** Two readers: the first sleeps on the empty queue with the lock, the second
    on the lock; two bytes arrive, the first reader takes one and the second
    one is given the lock while a byte is left.  It does not look at the queue
    again, and the assertion of [wait] stops the machine. *)
Definition two_readers : ST intq (turn Z * turn Z * turn Z) :=
  r1 ← intq_getc false 1;
  r2 ← intq_getc false 2;
  _ ← intq_putc true 0 65;
  _ ← intq_putc true 0 66;
  _ ← intq_resume 1;
  r3 ← intq_getc false 1;
  mret (r1, r2, r3).

(** the second of two threads that read an empty queue stops the machine
    when the lock it waited for is given to it while a byte is in the queue. *)
Theorem two_readers_panic : exists q,
  two_readers (intq_init (replicate 64 0)) = Ret (Sleeps, LockBusy, Done 65 None, q) /\ contents q = [66] /\
  q_lock q = None /\ locked (A := Z) false 2 false q = Panic.
Proof. eexists. split; [vm_compute; reflexivity|]. split_and!; vm_compute; reflexivity. Qed.

Definition demo_hist : history := mk_history (set_lock (Some 1) (mk_intq (Some 1) None None (7 :: replicate 63 0) 1 0)) [7] [].

Lemma intq_fifo_witness : rtc hstep (hinit (replicate 64 0)) demo_hist /\
  exists q', intq_getc true 9 (queue demo_hist) = Ret (Done 7 None, q') /\ contents q' = [] /\ not_full q' = None.
Proof.
  assert (Hr : rtc hstep (hinit (replicate 64 0)) demo_hist).
  { eapply rtc_l; [eapply (hs_get_sleeps 1 Sleeps); [vm_compute; reflexivity|by left]|].
    eapply rtc_l; [eapply (hs_put true 0 7); vm_compute; reflexivity|]. apply rtc_refl. }
  split; [exact Hr|]. apply (intq_fifo (replicate 64 0) demo_hist eq_refl Hr). vm_compute. reflexivity.
Defined.
