(* ===== verification/Timer.v ===== *)
(** * Timer: devices/timer.c

    The number of ticks, sleeping, and the calibration of the delay loop.
    [too_many_loops] runs the delay loop against the hardware clock: the
    calibration is modelled for any outcome of these runs.  Interrupts that
    arrive while a thread sleeps are the sequence of values it reads from
    [ticks]. *)

From S2P Require Import Prelude Vaddr.

Definition TIMER_FREQ : Z := 100.

(** ** Calibration *)

Section Calibrate.
Context (too_many_loops : Z -> bool).

(** [while (!too_many_loops (loops_per_tick << 1)) loops_per_tick <<= 1;]
    doubles at most 22 times before the assertion fails. *)
Fixpoint double_loops (fuel : nat) (loops_per_tick : Z) : outcome Z :=
  match fuel with
  | O => OutOfFuel
  | S fuel =>
    if too_many_loops (u32 (Z.shiftl loops_per_tick 1)) then Ret loops_per_tick
    else
      let loops_per_tick := u32 (Z.shiftl loops_per_tick 1) in
      check (negb (loops_per_tick =? 0));;
      double_loops fuel loops_per_tick
  end.

Fixpoint refine_loops (fuel : nat) (high_bit test_bit loops_per_tick : Z) : outcome Z :=
  match fuel with
  | O => OutOfFuel
  | S fuel =>
    if test_bit =? Z.shiftr high_bit 10 then Ret loops_per_tick
    else
      let loops_per_tick :=
        if too_many_loops (Z.lor high_bit test_bit) then loops_per_tick else Z.lor loops_per_tick test_bit in
      refine_loops fuel high_bit (Z.shiftr test_bit 1) loops_per_tick
  end.

Definition timer_calibrate : outcome Z :=
  high_bit ← double_loops 24 (2 ^ 10);
  refine_loops 11 high_bit (Z.shiftr high_bit 1) high_bit.
End Calibrate.

(** ** Sleeping *)

Definition timer_elapsed (now then_ : Z) : Z := s64 (now - then_).

(** [while (timer_elapsed (start) < ticks) thread_yield ();]: [seen] are the
    values of [ticks] at the tests; the result is the value that ended the
    loop, none if the thread still sleeps. *)
Fixpoint timer_sleep_loop (start ticks : Z) (seen : list Z) : option Z :=
  match seen with
  | [] => None
  | now :: seen => if timer_elapsed now start <? ticks then timer_sleep_loop start ticks seen else Some now
  end.

(** What [real_time_sleep] does: sleep for ticks, or run the delay loop. *)
Inductive delay := SleepTicks (ticks : Z) | BusyWait (loops : Z).

Definition real_time_sleep (loops_per_tick num denom : Z) : outcome delay :=
  let ticks := Z.quot (s64 (num * TIMER_FREQ)) denom in
  if 0 <? ticks then Ret (SleepTicks ticks)
  else
    check (Z.rem denom 1000 =? 0);;
    Ret (BusyWait (Z.quot (s64 (Z.quot (s64 (loops_per_tick * num)) 1000 * TIMER_FREQ)) (Z.quot denom 1000))).

Definition timer_msleep (l ms : Z) : outcome delay := real_time_sleep l ms 1000.
Definition timer_usleep (l us : Z) : outcome delay := real_time_sleep l us (1000 * 1000).
Definition timer_nsleep (l ns : Z) : outcome delay := real_time_sleep l ns (1000 * 1000 * 1000).

(** [timer_interrupt] counts a tick ([thread_tick] is in Threads.v). *)
Definition timer_interrupt (ticks : Z) : Z := s64 (ticks + 1).

(** ** Correctness *)

(** The clock allows at most [T] loops per tick. *)
Definition threshold (T : Z) (loops : Z) : bool := T <? loops.

Lemma double_loops_run (n fuel : nat) T k : 0 <= k -> 2 ^ (k + n) <= T < 2 ^ (k + n + 1) -> k + n <= 30 -> (n < fuel)%nat ->
  double_loops (threshold T) fuel (2 ^ k) = Ret (2 ^ (k + n)).
Proof.
  intros Hk. revert k fuel Hk. induction n as [|n IH]; intros k fuel Hk HT Hb Hf; destruct fuel as [|fuel]; try lia; cbn [double_loops].
  - rewrite Z.shiftl_mul_pow2, Z.pow_1_r by lia. rewrite Z.add_0_r in *. replace (2 ^ k * 2) with (2 ^ (k + 1)) by (rewrite Z.pow_add_r; lia).
    assert (2 ^ (k + 1) <= 2 ^ 31) by (apply Z.pow_le_mono_r; lia). pose proof (Z.pow_pos_nonneg 2 (k + 1)).
    rewrite u32_small by (urange; lia). unfold threshold. by destruct (Z.ltb_spec T (2 ^ (k + 1))); [|lia].
  - assert (E : Z.shiftl (2 ^ k) 1 = 2 ^ (k + 1)) by (rewrite Z.shiftl_mul_pow2, Z.pow_1_r, Z.pow_add_r; lia). rewrite E.
    assert (2 ^ (k + 1) <= 2 ^ 30) by (apply Z.pow_le_mono_r; lia). pose proof (Z.pow_pos_nonneg 2 (k + 1)).
    assert (2 ^ (k + 1) <= 2 ^ (k + S n)) by (apply Z.pow_le_mono_r; lia).
    rewrite u32_small by (urange; lia). unfold threshold. destruct (Z.ltb_spec T (2 ^ (k + 1))); [lia|].
    destruct (Z.eqb_spec (2 ^ (k + 1)) 0); [lia|]. simpl. rewrite (IH (k + 1)); [f_equal; f_equal; lia|lia| |lia|lia].
    replace (k + 1 + n) with (k + S n) by lia. done.
Qed.

Lemma pow2_shiftr k j : 0 <= j <= k -> Z.shiftr (2 ^ k) j = 2 ^ (k - j).
Proof. intros. rewrite Z.shiftr_div_pow2, <- Z.pow_sub_r by lia. done. Qed.

Lemma pow2_lor h i : 0 <= i < h -> Z.lor (2 ^ h) (2 ^ i) = 2 ^ h + 2 ^ i.
Proof.
  intros. apply (lor_aligned _ _ (i + 1)); [lia| |split; [lia|apply Z.pow_lt_mono_r; lia]].
  replace h with (h - (i + 1) + (i + 1)) by lia. rewrite Z.pow_add_r by lia. apply Z.mod_mul. lia.
Qed.

Section Refine.
Context (h T : Z) (Hh : 10 <= h <= 30).

(** From the first bit the test accepts on, it accepts every bit. *)
Lemma refine_accepts (n fuel : nat) L : let i := h - 10 + n in
  (n <= 9)%nat -> (n < fuel)%nat -> (n = 0%nat \/ 2 ^ h + 2 ^ i <= T) -> L mod 2 ^ (i + 1) = 0 ->
  refine_loops (threshold T) fuel (2 ^ h) (2 ^ i) L = Ret (L + 2 ^ (i + 1) - 2 ^ (h - 9)).
Proof using Hh.
  revert fuel L. induction n as [|n IH]; intros fuel L i Hn Hf HT HL;
    remember i as j eqn:Ej; subst i; destruct fuel as [|fuel]; try lia; cbn [refine_loops]; rewrite pow2_shiftr by lia.
  - replace (h - 10) with j by lia. rewrite Z.eqb_refl. f_equal. replace (h - 9) with (j + 1) by lia. lia.
  - assert (2 ^ (h - 10) < 2 ^ j) by (apply Z.pow_lt_mono_r; lia). destruct (Z.eqb_spec (2 ^ j) (2 ^ (h - 10))); [lia|].
    rewrite pow2_lor by lia. unfold threshold at 2. destruct (Z.ltb_spec T (2 ^ h + 2 ^ j)); [lia|].
    rewrite (lor_aligned L (2 ^ j) (j + 1)); [|lia|done|split; [lia|apply Z.pow_lt_mono_r; lia]].
    rewrite pow2_shiftr by lia. replace (j - 1) with (h - 10 + n) by lia.
    assert (2 ^ (h - 10 + n) <= 2 ^ j) by (apply Z.pow_le_mono_r; lia). assert (E : 2 ^ (j + 1) = 2 * 2 ^ j) by (rewrite Z.pow_add_r; lia).
    cbv zeta in IH; replace (h - 10 + n + 1) with j in IH by lia. rewrite IH; [f_equal; lia|lia|lia|right; lia|].
    rewrite E in HL. apply Z.mod_divide; [lia|]. apply Z.mod_divide in HL as [c Hc]; [|lia]. exists (2 * c + 1). lia.
Qed.

(** The bits above are left clear. *)
Lemma refine_rejects (m n fuel : nat) L : let i := h - 10 + m + n in
  (m + n <= 9)%nat -> (n <= fuel)%nat -> T < 2 ^ h + 2 ^ (h - 10 + m + 1) ->
  refine_loops (threshold T) fuel (2 ^ h) (2 ^ i) L = refine_loops (threshold T) (fuel - n) (2 ^ h) (2 ^ (h - 10 + m)) L.
Proof using Hh.
  revert fuel. induction n as [|n IH]; intros fuel i Hn Hf HT; remember i as j eqn:Ej; subst i.
  { rewrite Nat.sub_0_r. by replace j with (h - 10 + m) by lia. }
  destruct fuel as [|fuel]; try lia. cbn [refine_loops]. rewrite pow2_shiftr by lia.
  assert (2 ^ (h - 10) < 2 ^ j) by (apply Z.pow_lt_mono_r; lia). destruct (Z.eqb_spec (2 ^ j) (2 ^ (h - 10))); [lia|].
  rewrite pow2_lor by lia. unfold threshold at 2. assert (2 ^ (h - 10 + m + 1) <= 2 ^ j) by (apply Z.pow_le_mono_r; lia).
  destruct (Z.ltb_spec T (2 ^ h + 2 ^ j)); [|lia]. rewrite pow2_shiftr by lia.
  replace (j - 1) with (h - 10 + m + n) by lia. rewrite IH by lia. done.
Qed.
End Refine.

(** The calibration on a machine that runs [T] loops in a tick: the leading
    bit is right, but the bits below are all ones from the leading bit of the
    rest on, because each is tested against the leading bit alone. *)
Theorem timer_calibrate_result (h T : Z) (m : nat) : 10 <= h <= 30 -> (m <= 9)%nat ->
  2 ^ h <= T < 2 ^ (h + 1) -> (m = 0%nat \/ 2 ^ h + 2 ^ (h - 10 + m) <= T) -> T < 2 ^ h + 2 ^ (h - 10 + m + 1) ->
  timer_calibrate (threshold T) = Ret (2 ^ h + 2 ^ (h - 10 + m + 1) - 2 ^ (h - 9)).
Proof.
  intros Hh Hm HT Hlo Hhi. unfold timer_calibrate.
  rewrite (double_loops_run (Z.to_nat (h - 10)) _ T) by (rewrite ?Z2Nat.id; lia || (replace (10 + (h - 10)) with h by lia; done)).
  rewrite Z2Nat.id, Zplus_minus by lia. unfold mbind, outcome_bind. rewrite pow2_shiftr by lia.
  replace (h - 1) with (h - 10 + m + (9 - m)%nat) by lia. rewrite (refine_rejects h T Hh m (9 - m)%nat) by lia.
  apply (refine_accepts h T Hh m); [lia|lia|done|].
  replace h with (h - 10 + m + 1 + (9 - m)) at 1 by lia. rewrite Z.pow_add_r, Z.mul_comm by lia. apply Z.mod_mul. lia.
Qed.

(** A clock of 1536 + 10 loops per tick is calibrated as 2046 loops. *)
Lemma timer_calibrate_result_witness :
  timer_calibrate (threshold 1546) = Ret 2046.
Proof. apply (timer_calibrate_result 10 1546 9); lia. Defined.

(** A delay shorter than a tick waits less than a tick's loops, without
    overflow, for every count of loops and every unit of time. *)
Theorem real_time_sleep_short l num denom : 0 <= l < 2 ^ 32 -> 0 <= num -> num * TIMER_FREQ < denom ->
  denom = 1000 \/ denom = 1000 * 1000 \/ denom = 1000 * 1000 * 1000 ->
  exists loops, real_time_sleep l num denom = Ret (BusyWait loops) /\ 0 <= loops <= l /\
    loops = l * num / 1000 * TIMER_FREQ / (denom / 1000).
Proof.
  unfold TIMER_FREQ. intros Hl Hn Hd HD. unfold real_time_sleep, TIMER_FREQ. assert (l * num <= 2 ^ 32 * num) by nia.
  assert (0 <= l * num) by nia. assert (0 <= l * num / 1000 <= l * num) by (split; [apply Z.div_pos; lia|apply Z.div_le_upper_bound; lia]).
  rewrite (s64_small (num * 100)) by (urange; lia). rewrite (Z.quot_small (num * 100) denom) by lia. simpl.
  assert (E : Z.rem denom 1000 =? 0 = true) by (apply Z.eqb_eq; by destruct HD as [-> | [-> | ->]]). rewrite E. simpl.
  rewrite (s64_small (l * num)) by (urange; lia). rewrite (Z.quot_div_nonneg (l * num)) by lia.
  rewrite s64_small by (urange; lia). eexists. split; [done|].
  rewrite (Z.quot_div_nonneg denom) by lia. assert (Hk : 1 <= denom / 1000 /\ denom = 1000 * (denom / 1000)).
  { destruct HD as [-> | [-> | ->]]; vm_compute; split; congruence. }
  rewrite Z.quot_div_nonneg by lia. split; [|done]. split; [apply Z.div_pos; lia|].
  assert (l * num / 1000 * 1000 <= l * num) by (rewrite Z.mul_comm; apply Z.mul_div_le; lia).
  apply Z.div_le_upper_bound; [lia|]. nia.
Qed.

Lemma real_time_sleep_short_witness :
  exists loops, timer_usleep 981503 70 = Ret (BusyWait loops) /\ loops = 6870.
Proof.
  destruct (real_time_sleep_short 981503 70 (1000 * 1000)) as (n & E & _ & ->); [lia|lia|unfold TIMER_FREQ; lia|auto|].
  exists 6870. split; [exact E|done].
Defined.

(** Sleeping: on a counter that never runs backwards, the thread wakes at the
    first test that finds the interval over, and wakes if any does. *)
Theorem timer_sleep_wakes start ticks seen : 0 <= start -> 0 <= ticks < 2 ^ 62 ->
  Forall (fun now => start <= now < 2 ^ 62) seen ->
  timer_sleep_loop start ticks seen = list_find (fun now => start + ticks <= now) seen ≫= (fun p => Some p.2).
Proof.
  intros Hs Ht. induction 1 as [|now seen Hn Hseen IH]; simpl; [done|].
  unfold timer_elapsed. rewrite s64_small by (urange; lia).
  destruct (Z.ltb_spec (now - start) ticks); case_decide; try lia; simpl; [|done].
  rewrite IH. by destruct (list_find _ seen) as [[]|].
Qed.
