(* ===== verification/Vga.v ===== *)
(** * The text screen: devices/vga.c

    The state is the cursor, the framebuffer (25 rows of 80 cells, a cell is
    a character and its attribute) and the display controller, whose cursor
    registers are reached through ports (class [Crtc]).  The screen is proved
    to be a window on an endless sheet of paper. *)

From S2P Require Import Prelude Vaddr.

Definition COL_CNT : Z := 80.
Definition ROW_CNT : Z := 25.
Definition GRAY_ON_BLACK : Z := 7.

(** The display controller: writing a word or a byte to port 0x3d4, reading
    port 0x3d5.  A byte selects a register; a word selects one and writes its
    high byte to it. *)
Class Crtc (H : Type) := {
  outw_3d4 : Z -> H -> H;
  outb_3d4 : Z -> H -> H;
  inb_3d5 : H -> Z;
}.

Class CrtcLaws (H : Type) `{Crtc H} := {
  crtc_written v i h : inb_3d5 (outb_3d4 i (outw_3d4 v h)) = if decide (i = u8 v) then Z.shiftr v 8 else inb_3d5 (outb_3d4 i h);
  crtc_select i j h : inb_3d5 (outb_3d4 i (outb_3d4 j h)) = inb_3d5 (outb_3d4 i h);
}.

Section Vga.
Context {H : Type} `{CrtcLaws H}.

Definition cell : Type := Z * Z.
Record vga := mk_vga { inited : bool; cx : Z; cy : Z; fb : list (list cell); crtc : H }.

Definition set_cursor (x y : Z) (s : vga) : vga := mk_vga (inited s) x y (fb s) (crtc s).
Definition set_fb (f : list (list cell)) (s : vga) : vga := mk_vga (inited s) (cx s) (cy s) f (crtc s).
Definition set_crtc (h : H) (s : vga) : vga := mk_vga (inited s) (cx s) (cy s) (fb s) h.

(** [fb[y][x][0] = c; fb[y][x][1] = GRAY_ON_BLACK;] *)
Definition put_cell (y x c : Z) : ST vga unit :=
  f ← gets fb;
  match f !! Z.to_nat y with
  | Some row =>
    ASSERT ((0 <=? y) && (0 <=? x) && bool_decide (x < length row));;
    modify (set_fb (<[Z.to_nat y := <[Z.to_nat x := (u8 c, GRAY_ON_BLACK)]> row]> f))
  | None => panic
  end.

Definition find_cursor (h : H) : (Z * Z) * H :=
  let h := outb_3d4 14 h in
  let cp := Z.shiftl (inb_3d5 h) 8 in
  let h := outb_3d4 15 h in
  let cp := Z.lor cp (inb_3d5 h) in
  ((cp mod COL_CNT, cp / COL_CNT), h).

Definition move_cursor : ST vga unit :=
  modify (fun s =>
    let cp := u16 (cx s +u (COL_CNT *u cy s)) in
    let h := outw_3d4 (Z.lor 14 (Z.land cp 65280)) (crtc s) in
    set_crtc (outw_3d4 (u16 (Z.lor 15 (Z.shiftl cp 8))) h) s).

Definition init : ST vga unit :=
  modify (fun s =>
    if inited s then s
    else let '((x, y), h) := find_cursor (crtc s) in mk_vga true x y (fb s) h).

(** [for (x = 0; x < COL_CNT; x++)], from [x] on. *)
Fixpoint clear_cells (fuel : nat) (y x : Z) : ST vga unit :=
  match fuel with
  | O => no_fuel
  | S fuel => if x <? COL_CNT then put_cell y x 32;; clear_cells fuel y (x +u 1) else mret tt
  end.
Definition clear_row (y : Z) : ST vga unit := clear_cells 81 y 0.

Fixpoint clear_rows (fuel : nat) (y : Z) : ST vga unit :=
  match fuel with
  | O => no_fuel
  | S fuel => if y <? ROW_CNT then clear_row y;; clear_rows fuel (y +u 1) else mret tt
  end.

Definition cls : ST vga unit :=
  clear_rows 26 0;;
  modify (set_cursor 0 0);;
  move_cursor.

(** [memmove (&fb[0], &fb[1], sizeof fb[0] * (ROW_CNT - 1))] moves rows. *)
Definition newline : ST vga unit :=
  modify (fun s => set_cursor 0 (cy s +u 1) s);;
  s ← gets id;
  when (ROW_CNT <=? cy s) (
    modify (fun s => set_cursor (cx s) (ROW_CNT - 1) s);;
    modify (fun s => set_fb (take 24 (drop 1 (fb s)) ++ drop 24 (fb s)) s);;
    clear_row (ROW_CNT - 1)).

Definition vga_putc (c : Z) : ST vga unit :=
  init;;
  (if c =? 10 then newline
   else if c =? 12 then cls
   else if c =? 8 then modify (fun s => set_cursor (if 0 <? cx s then cx s -u 1 else cx s) (cy s) s)
   else if c =? 13 then modify (fun s => set_cursor 0 (cy s) s)
   else if c =? 9 then
     modify (fun s => set_cursor (ROUND_UP (cx s +u 1) 8) (cy s) s);;
     s ← gets id;
     when (COL_CNT <=? cx s) newline
   else
     s ← gets id;
     put_cell (cy s) (cx s) c;;
     modify (fun s => set_cursor (cx s +u 1) (cy s) s);;
     s ← gets id;
     when (COL_CNT <=? cx s) newline);;
  move_cursor.

(** Writing a string. *)
Fixpoint vga_puts (cs : list Z) : ST vga unit :=
  match cs with
  | [] => mret tt
  | c :: cs => vga_putc c;; vga_puts cs
  end.

(** ** The sheet of paper

    Rows are numbered from 0 and never move; [p_top] is the first row that
    can be seen, 25 can be.  A form feed turns to a new page. *)
Record paper := mk_paper { p_rows : Z -> list cell; p_x : Z; p_y : Z; p_top : Z }.

Definition blank_row : list cell := replicate 80 (32, GRAY_ON_BLACK).

Definition paper_newline (p : paper) : paper :=
  mk_paper (p_rows p) 0 (p_y p + 1) (Z.max (p_top p) (p_y p + 1 - 24)).

Definition paper_print (c : Z) (p : paper) : paper :=
  mk_paper (fun r => if decide (r = p_y p) then <[Z.to_nat (p_x p) := (u8 c, GRAY_ON_BLACK)]> (p_rows p r) else p_rows p r)
    (p_x p + 1) (p_y p) (p_top p).

Definition paper_wrap (p : paper) : paper := if 80 <=? p_x p then paper_newline p else p.

Definition paper_putc (c : Z) (p : paper) : paper :=
  if c =? 10 then paper_newline p
  else if c =? 12 then mk_paper (p_rows p) 0 (p_top p + 25) (p_top p + 25)
  else if c =? 8 then mk_paper (p_rows p) (Z.max 0 (p_x p - 1)) (p_y p) (p_top p)
  else if c =? 13 then mk_paper (p_rows p) 0 (p_y p) (p_top p)
  else if c =? 9 then paper_wrap (mk_paper (p_rows p) ((p_x p / 8 + 1) * 8) (p_y p) (p_top p))
  else paper_wrap (paper_print c p).

(** The sheet that is on the screen when the kernel starts to write. *)
Definition sheet (f : list (list cell)) (x y : Z) : paper :=
  mk_paper (fun r => if decide (0 <= r < 25) then nth (Z.to_nat r) f blank_row else blank_row) x y 0.

(** The part that can be seen. *)
Definition window (p : paper) : list (list cell) := map (p_rows p) (seqZ (p_top p) 25).

(** The screen shows the sheet, and nothing was written below it; the column
    is 80 for a moment before a line is wrapped. *)
Record shows_rows (p : paper) (s : vga) : Prop := {
  sh_x : cx s = p_x p /\ 0 <= p_x p <= 80;
  sh_y : cy s = p_y p - p_top p /\ 0 <= p_y p - p_top p < 25;
  sh_fb : fb s = window p;
  sh_row r : length (p_rows p r) = 80%nat;
  sh_blank r : p_top p + 25 <= r -> p_rows p r = blank_row;
  sh_inited : inited s = true;
}.
Definition shows (p : paper) (s : vga) : Prop := shows_rows p s /\ p_x p < 80.

(** ** Rows and cells *)

Lemma window_lookup p i : 0 <= i < 25 -> window p !! Z.to_nat i = Some (p_rows p (p_top p + i)).
Proof.
  intros Hi. unfold window. rewrite list_lookup_fmap, (lookup_seqZ_lt _ _ _) by lia. simpl. do 2 f_equal. lia.
Qed.

Lemma window_length p : length (window p) = 25%nat.
Proof. unfold window. by rewrite length_map, length_seqZ. Qed.

Lemma window_ext p f : length f = 25%nat -> (forall i, 0 <= i < 25 -> f !! Z.to_nat i = Some (p_rows p (p_top p + i))) -> f = window p.
Proof.
  intros Hl Hf. apply list_eq. intros i. destruct (decide (i < 25)%nat) as [Hi|Hi].
  - replace i with (Z.to_nat (Z.of_nat i)) by lia. by rewrite Hf, window_lookup by lia.
  - rewrite !lookup_ge_None_2; [done| |]; rewrite ?window_length; lia.
Qed.

Lemma wp_put_cell y x c s row (Q : unit -> vga -> Prop) :
  0 <= y -> 0 <= x < 80 -> fb s !! Z.to_nat y = Some row -> length row = 80%nat ->
  Q tt (set_fb (<[Z.to_nat y := <[Z.to_nat x := (u8 c, GRAY_ON_BLACK)]> row]> (fb s)) s) -> wp (put_cell y x c) s Q.
Proof.
  intros Hy Hx Hrow Hlen HQ. apply wp_bind, wp_gets. rewrite Hrow. apply wp_bind, wp_assert; [|exact HQ].
  rewrite (proj2 (Z.leb_le 0 y)), (proj2 (Z.leb_le 0 x)), bool_decide_true by lia. done.
Qed.

Lemma wp_clear_cells (n fuel : nat) y x s row (Q : unit -> vga -> Prop) :
  0 <= y -> x + n = 80 -> 0 <= x -> (n < fuel)%nat -> fb s !! Z.to_nat y = Some row -> length row = 80%nat ->
  take (Z.to_nat x) row = replicate (Z.to_nat x) (32, GRAY_ON_BLACK) ->
  Q tt (set_fb (<[Z.to_nat y := blank_row]> (fb s)) s) -> wp (clear_cells fuel y x) s Q.
Proof.
  revert fuel x s row. induction n as [|n IH]; intros fuel x s row Hy Hn Hx Hf Hrow Hlen Hpre HQ; destruct fuel as [|fuel]; try lia;
    cbn [clear_cells]; unfold COL_CNT; destruct (Z.ltb_spec x 80); try lia.
  - apply wp_ret. replace x with 80 in Hpre by lia. rewrite take_ge in Hpre by (simpl; lia).
    rewrite Hpre in Hrow. rewrite list_insert_id in HQ by done. by destruct s.
  - apply wp_bind. eapply wp_put_cell; [done|lia|done|done|]. rewrite u32_small by (urange; lia).
    eapply IH; [done|lia|lia|lia| | | |].
    + cbn [fb set_fb]. apply list_lookup_insert_eq. by apply lookup_lt_Some in Hrow.
    + by rewrite length_insert.
    + replace (Z.to_nat (x + 1)) with (S (Z.to_nat x)) by lia. rewrite (take_S_r _ _ (u8 32, GRAY_ON_BLACK)) by (apply list_lookup_insert_eq; lia).
      rewrite take_insert_ge by lia. rewrite Hpre, replicate_S_end. done.
    + cbn [fb set_fb]. by rewrite list_insert_insert_eq.
Qed.

Lemma wp_clear_row y s row (Q : unit -> vga -> Prop) :
  0 <= y -> fb s !! Z.to_nat y = Some row -> length row = 80%nat ->
  Q tt (set_fb (<[Z.to_nat y := blank_row]> (fb s)) s) -> wp (clear_row y) s Q.
Proof. intros Hy Hr Hl HQ. eapply (wp_clear_cells 80 81 y 0 s row); (done || lia). Qed.

Lemma wp_clear_rows (n fuel : nat) y s (Q : unit -> vga -> Prop) :
  y + n = 25 -> 0 <= y -> (n < fuel)%nat -> length (fb s) = 25%nat -> Forall (fun row => length row = 80%nat) (fb s) ->
  take (Z.to_nat y) (fb s) = replicate (Z.to_nat y) blank_row ->
  Q tt (set_fb (replicate 25 blank_row) s) -> wp (clear_rows fuel y) s Q.
Proof.
  revert fuel y s. induction n as [|n IH]; intros fuel y s Hn Hy Hf Hlen Hrows Hpre HQ; destruct fuel as [|fuel]; try lia;
    cbn [clear_rows]; unfold ROW_CNT; destruct (Z.ltb_spec y 25); try lia.
  - apply wp_ret. replace y with 25 in Hpre by lia. rewrite take_ge in Hpre by (simpl; lia). simpl in *. rewrite <- Hpre in HQ. by destruct s.
  - destruct (lookup_lt_is_Some_2 (fb s) (Z.to_nat y)) as [row Hrow]; [lia|].
    apply wp_bind. eapply wp_clear_row; [lia|done|by eapply (Forall_lookup_1 _ _ _ _ Hrows)|]. rewrite u32_small by (urange; lia).
    eapply IH; [lia|lia|lia| | | |done]; cbn [fb set_fb].
    + by rewrite length_insert.
    + apply Forall_insert; [done|]. unfold blank_row. by rewrite length_replicate.
    + replace (Z.to_nat (y + 1)) with (S (Z.to_nat y)) by lia. rewrite (take_S_r _ _ blank_row) by (apply list_lookup_insert_eq; lia).
      rewrite take_insert_ge by lia. rewrite Hpre, replicate_S_end. done.
Qed.

(** ** The screen as a window *)

Lemma window_rows p : (forall r, length (p_rows p r) = 80%nat) -> Forall (fun row => length row = 80%nat) (window p).
Proof. intros Hr. apply Forall_forall. intros row (r & -> & _)%list_elem_of_fmap. apply Hr. Qed.

Lemma newline_shows p s : shows_rows p s -> wp newline s (fun _ s' => shows (paper_newline p) s' /\ crtc s' = crtc s).
Proof.
  intros [Hx Hy Hfb Hrow Hblank Hin]. apply wp_bind, wp_modify, wp_bind, wp_gets. cbn [cy set_cursor].
  rewrite u32_small by (urange; lia). apply wp_when; intros E; unfold ROW_CNT in *; cbn [cy set_cursor id] in E.
  - apply Z.leb_le in E. apply wp_bind, wp_modify, wp_bind, wp_modify. cbn [fb set_cursor set_fb cx cy].
    assert (Hl : length (fb s) = 25%nat) by (rewrite Hfb; apply window_length).
    destruct (lookup_lt_is_Some_2 (take 24 (drop 1 (fb s)) ++ drop 24 (fb s)) 24) as [row Hlast]; [rewrite length_app, length_take, !length_drop; lia|].
    assert (length row = 80%nat).
    { apply (Forall_lookup_1 _ _ 24 _ (window_rows p Hrow)). rewrite <- Hfb, <- Hlast.
      rewrite lookup_app_r, length_take, length_drop by (rewrite length_take, length_drop; lia). rewrite Hl. simpl.
      by rewrite lookup_drop. }
    apply (wp_clear_row (25 - 1) _ row); [lia|exact Hlast|done|].
    split; [|done]. assert (Etop : p_y p = p_top p + 24) by lia. split; [|simpl; lia].
    split; simpl; try done; rewrite ?Z.max_r by lia; try lia.
    + apply window_ext; simpl.
      * rewrite length_insert, length_app, length_take, !length_drop. lia.
      * intros k Hk. rewrite Z.max_r by lia. destruct (decide (k = 24)) as [->|Hk24].
        -- rewrite list_lookup_insert_eq by (rewrite length_app, length_take, !length_drop; lia). f_equal. symmetry. apply Hblank. lia.
        -- rewrite list_lookup_insert_ne, lookup_app_l, lookup_take_lt, lookup_drop by (rewrite ?length_take, ?length_drop; lia).
           rewrite Hfb. replace (1 + Z.to_nat k)%nat with (Z.to_nat (k + 1)) by lia. rewrite window_lookup by lia. do 2 f_equal. lia.
    + intros r Hr. apply Hblank. lia.
  - apply Z.leb_gt in E. split; [|done]. split; [|simpl; lia]. split; simpl; try done; rewrite ?Z.max_l by lia; try lia; try done.
    rewrite Hfb. unfold window. simpl. by rewrite Z.max_l by lia.
Qed.

Lemma wrap_shows p s : shows_rows p s ->
  wp (s ← gets id; when (COL_CNT <=? cx s) newline) s (fun _ s' => shows (paper_wrap p) s' /\ crtc s' = crtc s).
Proof.
  intros Hs. apply wp_bind, wp_gets. unfold id. unfold paper_wrap. rewrite (proj1 (sh_x _ _ Hs)). unfold COL_CNT.
  apply wp_when; intros E; rewrite E; [by apply newline_shows|]. apply Z.leb_gt in E. split; [by split|done].
Qed.

Lemma print_shows p s c (k : ST vga unit) Q : shows p s -> (forall s', shows_rows (paper_print c p) s' -> wp k s' Q) ->
  wp (s ← gets id; put_cell (cy s) (cx s) c;; modify (fun s => set_cursor (cx s +u 1) (cy s) s);; k) s Q.
Proof.
  intros [[[Ex Hx] [Ey Hy] Hfb Hrow Hblank Hin] Hlt] Hk. apply wp_bind, wp_gets. unfold id. rewrite Ex, Ey.
  assert (Hl := window_lookup p (p_y p - p_top p) Hy). replace (p_top p + (p_y p - p_top p)) with (p_y p) in Hl by lia.
  apply wp_bind. eapply wp_put_cell; [lia|lia|by rewrite Hfb|apply Hrow|]. apply wp_bind, wp_modify, Hk.
  split; simpl; try done.
  - rewrite Ex, u32_small by (urange; lia). lia.
  - rewrite Hfb. apply window_ext; [by rewrite length_insert, window_length|]. intros i Hi. simpl. case_decide as E.
    + replace i with (p_y p - p_top p) by lia. rewrite list_lookup_insert_eq by (rewrite window_length; lia). do 2 f_equal. f_equal. lia.
    + rewrite list_lookup_insert_ne by lia. by apply window_lookup.
  - intros r. case_decide; rewrite ?length_insert; apply Hrow.
  - intros r Hr. case_decide; [lia|]. by apply Hblank.
Qed.

(** The cursor that was moved is the cursor that is found. *)
Lemma cursor_words cp : 0 <= cp < 2000 ->
  let v1 := Z.lor 14 (Z.land cp 65280) in let v2 := u16 (Z.lor 15 (Z.shiftl cp 8)) in
  u8 v1 = 14 /\ u8 v2 = 15 /\ Z.lor (Z.shiftl (Z.shiftr v1 8) 8) (Z.shiftr v2 8) = cp.
Proof.
  intros Hcp. assert (Hall : forallb (fun cp => let v1 := Z.lor 14 (Z.land cp 65280) in let v2 := u16 (Z.lor 15 (Z.shiftl cp 8)) in
    (u8 v1 =? 14) && (u8 v2 =? 15) && (Z.lor (Z.shiftl (Z.shiftr v1 8) 8) (Z.shiftr v2 8) =? cp)) (seqZ 0 2000) = true) by (vm_compute; reflexivity).
  rewrite forallb_forall in Hall. specialize (Hall cp). rewrite <- list_elem_of_In, elem_of_seqZ in Hall.
  specialize (Hall ltac:(lia)). apply andb_prop in Hall as [[E1 E2]%andb_prop E3]. split_and!; by apply Z.eqb_eq.
Qed.

Lemma move_cursor_found s : 0 <= cx s < 80 -> 0 <= cy s < 25 ->
  wp move_cursor s (fun _ s' => (find_cursor (crtc s')).1 = (cx s, cy s) /\ cx s' = cx s /\ cy s' = cy s /\ fb s' = fb s /\ inited s' = inited s).
Proof.
  intros Hx Hy. apply wp_modify. split; [|done]. unfold find_cursor. cbn [crtc set_crtc fst].
  unfold COL_CNT. rewrite (u32_small (80 * cy s)), u32_small, (u16_small (cx s + 80 * cy s)) by (urange; lia).
  destruct (cursor_words (cx s + 80 * cy s)) as (E1 & E2 & E3); [lia|].
  set (v1 := Z.lor 14 _) in *. set (v2 := u16 _) in *. rewrite crtc_select, !crtc_written, E1, E2. simpl. rewrite E3.
  f_equal; [rewrite Z.mul_comm, Z_mod_plus_full; apply Z.mod_small; lia|rewrite Z.mul_comm, Z.div_add, Z.div_small; lia].
Qed.

Lemma shows_same p s s' : shows p s -> cx s' = cx s -> cy s' = cy s -> fb s' = fb s -> inited s' = inited s -> shows p s'.
Proof. intros [[Hx Hy Hfb Hrow Hblank Hin] Hl] Ex Ey Ef Ei. split; [|done]. split; rewrite ?Ex, ?Ey, ?Ef, ?Ei; done. Qed.

Lemma round_up_tab x : 0 <= x < 80 -> ROUND_UP (x +u 1) 8 = (x / 8 + 1) * 8.
Proof.
  intros Hx. unfold ROUND_UP. rewrite (u32_small (x + 1)), (u32_small (x + 1 + 8)), (u32_small (x + 1 + 8 - 1)) by (urange; lia).
  replace (x + 1 + 8 - 1) with (x + 1 * 8) by lia. rewrite Z.div_add by lia. apply u32_small.
  assert (x / 8 < 10) by (apply Z.div_lt_upper_bound; lia). assert (0 <= x / 8) by (apply Z.div_pos; lia). urange. lia.
Qed.

(** One character, up to the last [move_cursor]. *)
Lemma wp_then_move p s (m : ST vga unit) : wp m s (fun _ s' => shows p s') ->
  wp (m;; move_cursor) s (fun _ s' => shows p s' /\ (find_cursor (crtc s')).1 = (cx s', cy s')).
Proof.
  intros Hm. apply wp_bind. eapply wp_mono; [exact Hm|]. intros [] s1 Hs. pose proof Hs as [Hr Hl].
  eapply wp_mono; [apply move_cursor_found|].
  - rewrite (proj1 (sh_x _ _ Hr)). pose proof (sh_x _ _ Hr). lia.
  - rewrite (proj1 (sh_y _ _ Hr)). apply (sh_y _ _ Hr).
  - intros _ s' (Ec & Ex & Ey & Ef & Ei). split; [by eapply shows_same|]. by rewrite Ex, Ey.
Qed.

Lemma cls_shows p s : shows p s ->
  wp cls s (fun _ s' => shows (mk_paper (p_rows p) 0 (p_top p + 25) (p_top p + 25)) s').
Proof.
  intros [[Hx Hy Hfb Hrow Hblank Hin] _]. apply wp_bind. apply (wp_clear_rows 25); try lia; [..|].
  - rewrite Hfb. apply window_length.
  - rewrite Hfb. by apply window_rows.
  - done.
  - eapply wp_mono; [apply wp_then_move|by intros _ s' [? _]]. apply wp_modify.
    split; [|simpl; lia]. split; cbn [fb set_fb set_cursor cx cy inited p_x p_y p_top p_rows]; try done; try lia.
    + apply window_ext; [by rewrite length_replicate|]. intros i Hi. cbn [p_rows p_top]. rewrite lookup_replicate_2 by lia. f_equal. symmetry. apply Hblank. lia.
    + intros r Hr. apply Hblank. lia.
Qed.

Lemma moved_shows p s x : shows p s -> 0 <= x <= 80 -> shows_rows (mk_paper (p_rows p) x (p_y p) (p_top p)) (set_cursor x (cy s) s).
Proof. intros [[_ Hy Hfb Hrow Hblank Hin] _] Hx. by split. Qed.

Lemma vga_putc_shows p s c : shows p s ->
  wp (vga_putc c) s (fun _ s' => shows (paper_putc c p) s' /\ (find_cursor (crtc s')).1 = (cx s', cy s')).
Proof.
  intros Hs. pose proof Hs as [Hr Hlt]. destruct (sh_x _ _ Hr) as [Ex Hx]. unfold vga_putc.
  apply wp_bind, wp_modify. rewrite (sh_inited _ _ Hr). apply wp_then_move. unfold paper_putc.
  destruct (c =? 10); [by eapply wp_mono; [apply newline_shows|intros _ s' []]|].
  destruct (c =? 12); [by apply cls_shows|].
  destruct (c =? 8).
  { apply wp_modify. rewrite Ex. replace (if 0 <? p_x p then _ else _) with (Z.max 0 (p_x p - 1)).
    - split; [apply moved_shows; [done|lia]|simpl; lia].
    - destruct (Z.ltb_spec 0 (p_x p)); [rewrite u32_small by (urange; lia)|]; lia. }
  destruct (c =? 13); [apply wp_modify; split; [by apply moved_shows|simpl; lia]|].
  destruct (c =? 9).
  { apply wp_bind, wp_modify. rewrite Ex, round_up_tab by lia. eapply wp_mono; [apply wrap_shows|by intros _ s' []].
    apply moved_shows; [done|]. assert (p_x p / 8 < 10) by (apply Z.div_lt_upper_bound; lia). assert (0 <= p_x p / 8) by (apply Z.div_pos; lia). lia. }
  apply print_shows with (p := p); [done|]. intros s' Hp. eapply wp_mono; [by apply wrap_shows|by intros _ s2 []].
Qed.

Lemma vga_puts_shows p s cs : shows p s -> (find_cursor (crtc s)).1 = (cx s, cy s) ->
  wp (vga_puts cs) s (fun _ s' => shows (foldl (fun p c => paper_putc c p) p cs) s' /\ (find_cursor (crtc s')).1 = (cx s', cy s')).
Proof.
  revert p s. induction cs as [|c cs IH]; intros p s Hs Hc; [by apply wp_ret|].
  apply wp_bind. eapply wp_mono; [by apply (vga_putc_shows p)|]. intros _ s' [Hs' Hc']. by apply IH.
Qed.

(** The screen before the first character. *)
Record fresh (s : vga) (x y : Z) : Prop := {
  fr_inited : inited s = false;
  fr_rows : length (fb s) = 25%nat /\ Forall (fun row => length row = 80%nat) (fb s);
  fr_cursor : (find_cursor (crtc s)).1 = (x, y) /\ 0 <= y < 25;
}.

Lemma init_shows s x y : fresh s x y -> wp init s (fun _ s' => shows (sheet (fb s) x y) s' /\ inited s' = true).
Proof.
  intros [Hi [Hl Hrows] [Hc Hy]]. apply wp_modify. rewrite Hi. destruct (find_cursor (crtc s)) as [[x' y'] h] eqn:E.
  simpl in Hc. injection Hc as -> ->. split; [|done].
  assert (0 <= x < 80).
  { unfold find_cursor in E. injection E as <- _ _. unfold COL_CNT. apply Z.mod_pos_bound. lia. }
  split; [|simpl; lia]. split; simpl; try done; try lia.
  - apply window_ext; [done|]. intros i Hi'. simpl. rewrite decide_True by lia. rewrite nth_lookup.
    destruct (lookup_lt_is_Some_2 (fb s) (Z.to_nat i)) as [row Hrow]; [lia|]. by rewrite Z.add_0_l, Hrow.
  - intros r. case_decide; [|by unfold blank_row; rewrite length_replicate]. rewrite nth_lookup.
    destruct (lookup_lt_is_Some_2 (fb s) (Z.to_nat r)) as [row Hrow]; [lia|]. rewrite Hrow. by apply (Forall_lookup_1 _ _ _ _ Hrows Hrow).
  - intros r Hr. rewrite decide_False by lia. done.
Qed.

Lemma init_twice s s' c : init s = Ret (tt, s') -> inited s' = true -> vga_putc c s = vga_putc c s'.
Proof.
  intros E Hi. unfold vga_putc. rewrite (bind_run _ _ _ tt s' E). rewrite (bind_run init _ s' tt s'); [done|].
  unfold init, modify. by rewrite Hi.
Qed.

(** C30: Any text written to a screen returns, and the screen then shows the last
    25 rows of the sheet of paper with that text; the cursor, and the cursor
    in the display controller, are where the sheet ends. *)
Theorem vga_puts_correct s x y c cs : fresh s x y ->
  let p := foldl (fun p c => paper_putc c p) (sheet (fb s) x y) (c :: cs) in
  exists s', vga_puts (c :: cs) s = Ret (tt, s') /\ fb s' = window p /\
    cx s' = p_x p /\ cy s' = p_y p - p_top p /\ 0 <= cx s' < 80 /\ 0 <= cy s' < 25 /\
    (find_cursor (crtc s')).1 = (cx s', cy s').
Proof.
  intros Hf p. pose proof (init_shows s x y Hf) as (s0 & E0 & Hs0 & Hi0)%wp_run_unit.
  assert (Hw : wp (vga_puts (c :: cs)) s (fun _ s' => shows p s' /\ (find_cursor (crtc s')).1 = (cx s', cy s'))).
  { unfold vga_puts; fold vga_puts. apply wp_bind. unfold wp at 1. rewrite (init_twice s s0 c E0 Hi0).
    eapply wp_mono; [by apply (vga_putc_shows (sheet (fb s) x y))|]. intros _ s' [Hs' Hc']. by apply (vga_puts_shows (paper_putc c (sheet (fb s) x y))). }
  apply wp_run_unit in Hw as (s' & E & [[[Ex Hx] [Ey Hy] Hfb _ _ _] Hlt] & Hc). exists s'. split_and!; try done; lia.
Qed.
End Vga.
Arguments vga : clear implicits.

(** A display controller: the selected register and the registers. *)
Definition demo_crtc : Type := Z * (Z -> Z).
#[export] Instance demo_Crtc : Crtc demo_crtc := {
  outw_3d4 v h := (u8 v, fun i => if i =? u8 v then Z.shiftr v 8 else h.2 i);
  outb_3d4 i h := (i, h.2);
  inb_3d5 h := h.2 h.1;
}.
#[export] Instance demo_CrtcLaws : CrtcLaws demo_crtc.
Proof.
  split.
  - intros v i h. simpl. destruct (Z.eqb_spec i (u8 v)); case_decide; done.
  - done.
Qed.

Definition demo_screen : vga demo_crtc :=
  mk_vga false 0 0 (replicate 25 blank_row) (0, fun i => if i =? 14 then 7 else if i =? 15 then 206 else 0).

(** From the last but one column of the last row: a character, a second one,
    which wraps and scrolls, and a tab. *)
Lemma vga_puts_correct_witness : exists s',
  vga_puts [72; 105; 9] demo_screen = Ret (tt, s') /\
  fb s' = replicate 23 blank_row ++ [<[79%nat := (105, 7)]> (<[78%nat := (72, 7)]> blank_row); blank_row] /\
  cx s' = 8 /\ cy s' = 24.
Proof.
  destruct (vga_puts_correct demo_screen 78 24 72 [105; 9]) as (s' & E & Hfb & Hx & Hy & _).
  - split; [done| |by split]. split; [done|]. by apply Forall_replicate.
  - exists s'. split_and!; [exact E|rewrite Hfb; by vm_compute|rewrite Hx; by vm_compute|rewrite Hy; by vm_compute].
Defined.
