(* ===== verification/Serial.v ===== *)
(** * The serial port and the input buffer: devices/serial.c, devices/input.c

    The two modules call each other: the serial port puts the bytes it
    receives into the input buffer, and the buffer tells the port whether
    there is room.  The registers of the port are functions of the number of
    reads done so far; [tx] and [rx] are the bytes written to and read from
    it.  A level of interrupts is a Boolean, true for INTR_ON.  As in Intq.v,
    a call that has to wait ends with [Sleeps] or [LockBusy], and the thread
    takes another turn later. *)

From S2P Require Import Prelude Intq.

Inductive serial_mode := UNINIT | POLL | QUEUE.
#[export] Instance serial_mode_eq_dec : EqDecision serial_mode.
Proof. solve_decision. Defined.

Definition IER_RECV : Z := 1.
Definition IER_XMIT : Z := 2.
Definition LSR_DR : Z := 1.
Definition LSR_THRE : Z := 32.
Definition LCR_N81 : Z := 3.
Definition LCR_DLAB : Z := 128.

(** [divisor] is the divisor latch and [lcr] the line control register. *)
Record devs := mk_devs {
  mode : serial_mode; txq : intq; buffer : intq;
  ier : Z; lcr : Z; divisor : Z; reads : nat; tx : list Z; rx : list Z
}.

Definition set_mode (m : serial_mode) (d : devs) : devs := mk_devs m (txq d) (buffer d) (ier d) (lcr d) (divisor d) (reads d) (tx d) (rx d).
Definition set_txq (q : intq) (d : devs) : devs := mk_devs (mode d) q (buffer d) (ier d) (lcr d) (divisor d) (reads d) (tx d) (rx d).
Definition set_buffer (q : intq) (d : devs) : devs := mk_devs (mode d) (txq d) q (ier d) (lcr d) (divisor d) (reads d) (tx d) (rx d).
Definition set_ier (v : Z) (d : devs) : devs := mk_devs (mode d) (txq d) (buffer d) v (lcr d) (divisor d) (reads d) (tx d) (rx d).
Definition set_line (l dv : Z) (d : devs) : devs := mk_devs (mode d) (txq d) (buffer d) (ier d) l dv (reads d) (tx d) (rx d).
Definition set_reads (n : nat) (d : devs) : devs := mk_devs (mode d) (txq d) (buffer d) (ier d) (lcr d) (divisor d) n (tx d) (rx d).
Definition add_tx (b : Z) (d : devs) : devs := mk_devs (mode d) (txq d) (buffer d) (ier d) (lcr d) (divisor d) (reads d) (tx d ++ [b]) (rx d).
Definition add_rx (b : Z) (d : devs) : devs := mk_devs (mode d) (txq d) (buffer d) (ier d) (lcr d) (divisor d) (reads d) (tx d) (rx d ++ [b]).

(** Operations on one of the queues. *)
Definition on_txq {A} (m : ST intq A) : ST devs A := fun d =>
  match m (txq d) with
  | Ret (a, q) => Ret (a, set_txq q d)
  | Panic => Panic
  | OutOfFuel => OutOfFuel
  end.
Definition on_buffer {A} (m : ST intq A) : ST devs A := fun d =>
  match m (buffer d) with
  | Ret (a, q) => Ret (a, set_buffer q d)
  | Panic => Panic
  | OutOfFuel => OutOfFuel
  end.

(** The rest of a call after an operation that may have to wait. *)
Definition then_ {A B} (m : ST devs (turn A)) (k : A -> option Z -> ST devs (turn B)) : ST devs (turn B) :=
  r ← m;
  match r with
  | Done a w => k a w
  | Sleeps => mret Sleeps
  | LockBusy => mret LockBusy
  end.

Section Port.
(** The line status and receiver buffer registers at each read, and how many
    reads [putc_poll] is followed for. *)
Context (lsr rbr : nat -> Z) (patience : nat).
(** Whether an external interrupt is being handled, and the thread. *)
Context (intr_context : bool) (cur : Z).

Definition inb_lsr : ST devs Z :=
  n ← gets reads; modify (set_reads (S n));; mret (lsr n).
Definition inb_rbr : ST devs Z :=
  n ← gets reads; modify (set_reads (S n));; modify (add_rx (rbr n));; mret (rbr n).

(** [intr_set_level (old_level)]: enabling is not allowed in a handler. *)
Definition intr_restore (old_level : bool) : ST devs unit := ASSERT (negb (old_level && intr_context)).

Definition input_init (garbage : list Z) : ST devs unit := modify (set_buffer (intq_init garbage)).

Definition input_full (level : bool) : ST devs bool :=
  ASSERT (negb level);;
  gets (fun d => intq_full (buffer d)).

Definition write_ier (level : bool) : ST devs unit :=
  ASSERT (negb level);;
  e ← gets (fun d => intq_empty (txq d));
  f ← input_full level;
  modify (set_ier (Z.lor (if e : bool then 0 else IER_XMIT) (if f : bool then 0 else IER_RECV))).

Definition serial_notify (level : bool) : ST devs unit :=
  ASSERT (negb level);;
  m ← gets mode;
  when (bool_decide (m = QUEUE)) (write_ier level).

Definition input_putc (level : bool) (key : Z) : ST devs (turn unit) :=
  ASSERT (negb level);;
  f ← gets (fun d => intq_full (buffer d));
  ASSERT (negb f);;
  then_ (on_buffer (intq_putc intr_context cur key)) (fun _ w =>
  serial_notify level;;
  mret (Done tt w)).

Definition input_getc (old_level : bool) : ST devs (turn Z) :=
  then_ (on_buffer (intq_getc intr_context cur)) (fun key w =>
  serial_notify false;;
  intr_restore old_level;;
  mret (Done key w)).

Definition set_serial (bps : Z) : ST devs unit :=
  let base_rate := 1843200 / 16 in
  let dv := u16 (Z.quot base_rate bps) in
  ASSERT ((300 <=? bps) && (bps <=? 115200));;
  modify (fun d => set_line (Z.lor LCR_N81 LCR_DLAB) (divisor d) d);;
  modify (fun d => set_line (lcr d) (Z.lor (Z.land dv 255) (Z.shiftl (Z.shiftr dv 8) 8)) d);;
  modify (fun d => set_line LCR_N81 (divisor d) d).

Definition init_poll (garbage : list Z) : ST devs unit :=
  m ← gets mode;
  ASSERT (bool_decide (m = UNINIT));;
  modify (set_ier 0);;
  set_serial 115200;;
  modify (set_txq (intq_init garbage));;
  modify (set_mode POLL).

Definition serial_init_queue (garbage : list Z) (old_level : bool) : ST devs unit :=
  m ← gets mode;
  when (bool_decide (m = UNINIT)) (init_poll garbage);;
  m ← gets mode;
  ASSERT (bool_decide (m = POLL));;
  modify (set_mode QUEUE);;
  write_ier false;;
  intr_restore old_level.

Fixpoint poll (fuel : nat) : ST devs unit :=
  match fuel with
  | O => no_fuel
  | S fuel => l ← inb_lsr; if Z.land l LSR_THRE =? 0 then poll fuel else mret tt
  end.

Definition putc_poll (level : bool) (byte : Z) : ST devs unit :=
  ASSERT (negb level);;
  poll patience;;
  modify (add_tx byte).

Definition serial_putc (garbage : list Z) (old_level : bool) (byte : Z) : ST devs (turn unit) :=
  m ← gets mode;
  if bool_decide (m <> QUEUE) then
    when (bool_decide (m = UNINIT)) (init_poll garbage);;
    putc_poll false byte;;
    intr_restore old_level;;
    mret (Done tt None)
  else
    f ← gets (fun d => intq_full (txq d));
    then_ (if negb old_level && f
           then then_ (on_txq (intq_getc intr_context cur)) (fun b w => putc_poll false b;; mret (Done tt w))
           else mret (Done tt None)) (fun _ w1 =>
    then_ (on_txq (intq_putc intr_context cur byte)) (fun _ w2 =>
    write_ier false;;
    intr_restore old_level;;
    mret (Done tt (from_option Some w2 w1)))).

Fixpoint flush (fuel : nat) : ST devs (turn unit) :=
  match fuel with
  | O => no_fuel
  | S fuel =>
    e ← gets (fun d => intq_empty (txq d));
    if e : bool then mret (Done tt None)
    else then_ (on_txq (intq_getc intr_context cur)) (fun b _ => putc_poll false b;; flush fuel)
  end.

(** The queue holds at most 63 bytes. *)
Definition serial_flush (old_level : bool) : ST devs (turn unit) :=
  then_ (flush 64) (fun _ w => intr_restore old_level;; mret (Done tt w)).

Fixpoint receive (fuel : nat) : ST devs (turn unit) :=
  match fuel with
  | O => no_fuel
  | S fuel =>
    f ← input_full false;
    if f : bool then mret (Done tt None)
    else
      l ← inb_lsr;
      if Z.land l LSR_DR =? 0 then mret (Done tt None)
      else b ← inb_rbr; then_ (input_putc false b) (fun _ _ => receive fuel)
  end.

Fixpoint transmit (fuel : nat) : ST devs (turn unit) :=
  match fuel with
  | O => no_fuel
  | S fuel =>
    e ← gets (fun d => intq_empty (txq d));
    if e : bool then mret (Done tt None)
    else
      l ← inb_lsr;
      if Z.land l LSR_THRE =? 0 then mret (Done tt None)
      else then_ (on_txq (intq_getc intr_context cur)) (fun b _ => modify (add_tx b);; transmit fuel)
  end.

(** Each loop ends after at most 63 bytes, when a queue is full or empty. *)
Definition serial_interrupt : ST devs (turn unit) :=
  n ← gets reads;
  modify (set_reads (S n));;
  then_ (receive 64) (fun _ _ =>
  then_ (transmit 64) (fun _ _ =>
  write_ier false;;
  mret (Done tt None))).
End Port.

(** ** Rules *)

Lemma wp_then {A B} (m : ST devs (turn A)) (k : A -> option Z -> ST devs (turn B)) d Q :
  wp m d (fun r d' => match r with Done a w => wp (k a w) d' Q | Sleeps => Q Sleeps d' | LockBusy => Q LockBusy d' end) ->
  wp (then_ m k) d Q.
Proof. intros Hm. apply wp_bind. eapply wp_mono; [exact Hm|]. by intros [a w| |] d'. Qed.

(** The outcome of a turn on a queue that held [c]: done, with the queue then
    holding [c'], or the queue is as before and the caller waits. *)
Definition turned {A} (may_wait : Prop) (c c' : list Z) (r : turn A) (q' : intq) : Prop :=
  queue_ok q' /\ match r with Done _ _ => contents q' = c' | _ => may_wait /\ contents q' = c end.

Lemma put_turn ic cur b q : queue_ok q -> (ic = true -> (length (contents q) < 63)%nat) ->
  wp (intq_putc ic cur b) q (turned (length (contents q) = 63%nat) (contents q) (contents q ++ [b])).
Proof.
  intros Hq Hic. pose proof (contents_bound q). destruct (decide (length (contents q) = 63%nat)) as [Hf|Hf].
  - destruct ic; [lia|]. unfold wp. destruct (putc_wait cur b q Hq Hf) as [[-> _]|[El ->]]; [by split|].
    destruct (locked_spec (A := unit) cur true q Hq El Hf) as (q' & -> & Hq' & Hc & _). by split.
  - destruct (putc_some ic cur q b Hq) as (q' & E & Hq' & Hc & _); [lia|]. unfold wp. rewrite E. by split.
Qed.

Lemma get_turn ic cur q : queue_ok q -> (ic = true -> contents q <> []) ->
  wp (intq_getc ic cur) q (fun r q' => turned (contents q = []) (contents q) (drop 1 (contents q)) r q' /\
    match r with Done b _ => contents q = b :: contents q' | _ => True end).
Proof.
  intros Hq Hic. destruct (contents q) as [|b l] eqn:Hc.
  - destruct ic; [by specialize (Hic eq_refl)|]. unfold wp. destruct (getc_wait cur q Hq Hc) as [[-> _]|[El ->]]; [split; [by split|done]|].
    destruct (locked_spec (A := Z) cur false q Hq El Hc) as (q' & -> & Hq' & Hc' & _). rewrite Hc in Hc'. split; [by split|done].
  - destruct (getc_some ic cur q b l Hq Hc) as (q' & E & Hq' & Hc' & _). unfold wp. rewrite E. simpl. split; [by split|by rewrite Hc'].
Qed.

Lemma wp_on_txq {A} (m : ST intq A) d Q : wp m (txq d) (fun a q => Q a (set_txq q d)) -> wp (on_txq m) d Q.
Proof. unfold wp, on_txq. by destruct (m (txq d)) as [[]| |]. Qed.
Lemma wp_on_buffer {A} (m : ST intq A) d Q : wp m (buffer d) (fun a q => Q a (set_buffer q d)) -> wp (on_buffer m) d Q.
Proof. unfold wp, on_buffer. by destruct (m (buffer d)) as [[]| |]. Qed.

(** ** The invariant

    The queues are sound; whenever bytes wait to be sent the transmit
    interrupt is on, and the receive interrupt is on exactly when the input
    buffer has room. *)
Record queues_ok (d : devs) : Prop := {
  qo_mode : mode d = QUEUE;
  qo_txq : queue_ok (txq d);
  qo_buffer : queue_ok (buffer d);
}.
Record devs_ok (d : devs) : Prop := {
  do_queues : queues_ok d;
  do_xmit : contents (txq d) <> [] -> Z.testbit (ier d) 1 = true;
  do_recv : Z.testbit (ier d) 0 = bool_decide (length (contents (buffer d)) < 63)%nat;
}.

(** The bytes handed to the port so far. *)
Definition pending (d : devs) : list Z := tx d ++ contents (txq d).

(** [s] was handed to the port, [a] arrived and [g] was taken from the input. *)
Record flows (s a g : list Z) (d d' : devs) : Prop := {
  fl_out : pending d' = pending d ++ s;
  fl_in : contents (buffer d) ++ a = g ++ contents (buffer d');
}.

Lemma wp_write_ier d Q : queues_ok d -> (forall v, devs_ok (set_ier v d) -> Q tt (set_ier v d)) -> wp (write_ier false) d Q.
Proof.
  intros Hq HQ. apply wp_bind, wp_assert; [done|]. apply wp_bind, wp_gets, wp_bind. apply wp_bind, wp_assert; [done|]. apply wp_gets, wp_modify, HQ.
  destruct Hq as [Hm Ht Hb]. rewrite empty_iff, full_iff by apply Ht || apply Hb. pose proof (contents_bound (buffer d)).
  split; [done|..]; simpl; repeat case_bool_decide; try done; try lia.
Qed.

Lemma wp_serial_notify d Q : queues_ok d -> (forall v, devs_ok (set_ier v d) -> Q tt (set_ier v d)) -> wp (serial_notify false) d Q.
Proof.
  intros Hq HQ. apply wp_bind, wp_assert; [done|]. apply wp_bind, wp_gets. rewrite (qo_mode d Hq). apply wp_when; [|done].
  intros _. by apply wp_write_ier.
Qed.

Lemma queues_ok_keep d q1 q2 i n t r : queues_ok d -> queue_ok q1 -> queue_ok q2 ->
  queues_ok (mk_devs (mode d) q1 q2 i (lcr d) (divisor d) n t r).
Proof. intros [Hm _ _] H1 H2. by split. Qed.

(** ** The operations *)

(** A port whose transmitter becomes empty again: the documented behaviour
    [putc_poll] waits for. *)
Definition port_ready (lsr : nat -> Z) (patience : nat) : Prop :=
  forall n, exists k, (k < patience)%nat /\ Z.land (lsr (n + k)%nat) LSR_THRE <> 0.

Section Operations.
Context (lsr rbr : nat -> Z) (patience : nat) (Hready : port_ready lsr patience).
Context (intr_context : bool) (cur : Z).

Lemma wp_poll fuel (k : nat) d Q : Z.land (lsr (reads d + k)%nat) LSR_THRE <> 0 -> (k < fuel)%nat ->
  (forall n, Q tt (set_reads n d)) -> wp (poll lsr fuel) d Q.
Proof.
  revert k d. induction fuel as [|fuel IH]; intros k d Hk Hf HQ; [lia|]. cbn [poll]. apply wp_bind.
  apply wp_bind, wp_gets, wp_bind, wp_modify, wp_ret. destruct (Z.eqb_spec (Z.land (lsr (reads d)) LSR_THRE) 0) as [E|E].
  - destruct k as [|k]; [by rewrite Nat.add_0_r in Hk|].
    apply (IH k); [|lia|intros n; apply HQ]. simpl. by replace (S (reads d + k)) with (reads d + S k)%nat by lia.
  - apply wp_ret, HQ.
Qed.

Lemma wp_putc_poll b d Q : (forall n, Q tt (add_tx b (set_reads n d))) -> wp (putc_poll lsr patience false b) d Q.
Proof using Hready.
  intros HQ. apply wp_bind, wp_assert; [done|]. destruct (Hready (reads d)) as (k & Hk & E).
  apply wp_bind, (wp_poll _ k); [done|done|]. intros n. apply wp_modify, HQ.
Qed.

(** Handing a byte to the port.  With interrupts off it is always accepted;
    with interrupts on a thread may have to wait while the queue is full. *)
Lemma serial_putc_flows garbage level b d : devs_ok d -> (intr_context = true -> level = false) ->
  wp (serial_putc lsr patience intr_context cur garbage level b) d (fun r d' => devs_ok d' /\ rx d' = rx d /\
    match r with
    | Done _ _ => flows [b] [] [] d d'
    | _ => level = true /\ length (contents (txq d)) = 63%nat /\ flows [] [] [] d d'
    end).
Proof using Hready.
  intros [Hq Hx Hr] Hic. pose proof Hq as [Hm Ht Hb]. apply wp_bind, wp_gets. rewrite Hm. simpl. apply wp_bind, wp_gets.
  rewrite full_iff by apply Ht. apply wp_then. destruct level; cbn [negb andb].
  - apply wp_ret. apply wp_then, wp_on_txq. eapply wp_mono; [apply put_turn; [done|]; intros E; by specialize (Hic E)|].
    intros [[] w| |] q' [Hq' Hc].
    + apply wp_bind, wp_write_ier; [by apply (queues_ok_keep d)|]. intros v Hd. apply wp_bind, wp_assert; [destruct intr_context; [by specialize (Hic eq_refl)|done]|].
      apply wp_ret. split_and!; [done..|]. split; simpl; [|by rewrite app_nil_r]. unfold pending. simpl. by rewrite Hc, app_assoc.
    + destruct Hc as [Hf Hc]. split_and!; try done; [split; simpl; rewrite ?Hc; [by apply (queues_ok_keep d)|done..]|].
      split; simpl; unfold pending; simpl; by rewrite ?Hc, ?app_nil_r.
    + destruct Hc as [Hf Hc]. split_and!; try done; [split; simpl; rewrite ?Hc; [by apply (queues_ok_keep d)|done..]|].
      split; simpl; unfold pending; simpl; by rewrite ?Hc, ?app_nil_r.
  - set (P := fun d1 : devs => queues_ok d1 /\ pending d1 = pending d /\ contents (buffer d1) = contents (buffer d) /\ rx d1 = rx d /\ (length (contents (txq d1)) < 63)%nat).
    eapply (wp_mono _ _ (fun r d1 => (exists w, r = Done tt w) /\ P d1)).
    + destruct (decide (length (contents (txq d)) = 63%nat)) as [Hf|Hf]; [rewrite bool_decide_true by done|rewrite bool_decide_false by done].
      * apply wp_then, wp_on_txq. eapply wp_mono; [apply get_turn; [done|]; intros _ E; by rewrite E in Hf|].
        intros [b' w| |] q' [[Hq' Hc] Hb']; [|by destruct Hc as [E _]; rewrite E in Hf..].
        apply wp_bind, wp_putc_poll. intros n. apply wp_ret. split; [by eexists|]. split_and!; try done; simpl.
        -- unfold pending. simpl. by rewrite Hb', <- app_assoc.
        -- rewrite Hb' in Hf. simpl in Hf. lia.
      * apply wp_ret. split; [by eexists|]. split_and!; try done. pose proof (contents_bound (txq d)). lia.
    + intros r d1 [[w ->] (Hq1 & Hp & Hbuf & Hrx & Hlt)]. apply wp_then, wp_on_txq.
      eapply wp_mono; [apply put_turn; [apply Hq1|done]|]. intros [[] w'| |] q' [Hq' Hc]; [|lia..].
      apply wp_bind, wp_write_ier; [apply (queues_ok_keep d1); [done|done|apply Hq1]|]. intros v Hd. apply wp_bind, wp_assert; [done|].
      apply wp_ret. split_and!; [done..|]. split; simpl; [|by rewrite Hbuf, app_nil_r]. unfold pending in *. simpl. by rewrite Hc, app_assoc, Hp.
Qed.

Lemma wp_input_putc key d Q : queues_ok d -> (length (contents (buffer d)) < 63)%nat ->
  (forall w v q', contents q' = contents (buffer d) ++ [key] -> devs_ok (set_ier v (set_buffer q' d)) -> Q (Done tt w) (set_ier v (set_buffer q' d))) ->
  wp (input_putc intr_context cur false key) d Q.
Proof.
  intros Hq Hlt HQ. apply wp_bind, wp_assert; [done|]. apply wp_bind, wp_gets. rewrite full_iff, bool_decide_false by apply Hq || lia.
  apply wp_bind, wp_assert; [done|]. apply wp_then, wp_on_buffer. eapply wp_mono; [apply put_turn; [apply Hq|done]|].
  intros [[] w| |] q' [Hq' Hc]; [|lia..]. apply wp_bind, wp_serial_notify; [apply (queues_ok_keep d); [done|apply Hq|done]|].
  intros v Hd. by apply wp_ret, HQ.
Qed.

Lemma input_getc_flows level d : devs_ok d -> intr_context = false ->
  wp (input_getc intr_context cur level) d (fun r d' => devs_ok d' /\ rx d' = rx d /\
    match r with
    | Done b _ => flows [] [] [b] d d'
    | _ => contents (buffer d) = [] /\ flows [] [] [] d d'
    end).
Proof.
  intros [Hq Hx Hr] ->. pose proof Hq as [Hm Ht Hb]. apply wp_then, wp_on_buffer. eapply wp_mono; [by apply get_turn|].
  assert (Hwait : forall q', queue_ok q' -> contents q' = contents (buffer d) -> devs_ok (set_buffer q' d) /\ flows [] [] [] d (set_buffer q' d)).
  { intros q' Hq' Hc. split; [split; simpl; rewrite ?Hc; [by apply (queues_ok_keep d)|done..]|].
    split; simpl; unfold pending; simpl; by rewrite ?Hc, ?app_nil_r. }
  intros [b w| |] q' [[Hq' Hc] Hb'].
  - apply wp_bind, wp_serial_notify; [by apply (queues_ok_keep d)|]. intros v Hd. apply wp_bind, wp_assert; [by destruct level|].
    apply wp_ret. split_and!; [done..|]. split; simpl; unfold pending; simpl; by rewrite ?app_nil_r.
  - destruct Hc as [He Hc]. destruct (Hwait q' Hq' Hc). by split_and!.
  - destruct Hc as [He Hc]. destruct (Hwait q' Hq' Hc). by split_and!.
Qed.

(** What the loops leave alone. *)
Lemma wp_flush fuel d : queues_ok d -> (length (contents (txq d)) < fuel)%nat ->
  wp (flush lsr patience intr_context cur fuel) d (fun r d' => r = Done tt None /\ queues_ok d' /\ pending d' = pending d /\ contents (txq d') = [] /\
    buffer d' = buffer d /\ rx d' = rx d /\ ier d' = ier d).
Proof using Hready.
  revert d. induction fuel as [|fuel IH]; intros d Hq Hf; [lia|]. cbn [flush]. apply wp_bind, wp_gets. rewrite empty_iff by apply Hq.
  case_bool_decide as E; [by apply wp_ret|]. apply wp_then, wp_on_txq. eapply wp_mono; [apply get_turn; [apply Hq|done]|].
  intros [b w| |] q' [[Hq' Hc] Hb]; [|by destruct Hc..]. apply wp_bind, wp_putc_poll. intros n.
  eapply wp_mono; [apply IH|].
  - apply (queues_ok_keep d); [done|done|apply Hq].
  - simpl. rewrite Hb in Hf. simpl in Hf. lia.
  - intros r d' (-> & ? & Hp & Hrest). split; [done|]. split; [done|]. split; [|exact Hrest]. rewrite Hp. unfold pending. simpl. by rewrite Hb, <- app_assoc.
Qed.

Lemma wp_receive fuel d : queues_ok d -> (63 < length (contents (buffer d)) + fuel)%nat ->
  wp (receive lsr rbr intr_context cur fuel) d (fun r d' => r = Done tt None /\ queues_ok d' /\ txq d' = txq d /\ tx d' = tx d /\
    exists bs, rx d' = rx d ++ bs /\ contents (buffer d') = contents (buffer d) ++ bs).
Proof.
  revert d. assert (Hstop : forall d, queues_ok d -> forall n, queues_ok (set_reads n d) /\ txq (set_reads n d) = txq d /\ tx (set_reads n d) = tx d /\
    exists bs, rx (set_reads n d) = rx d ++ bs /\ contents (buffer (set_reads n d)) = contents (buffer d) ++ bs).
  { clear. intros d Hq n. split_and!; [by destruct Hq; split|done|done|]. exists []. simpl. by rewrite !app_nil_r. }
  induction fuel as [|fuel IH]; intros d Hq Hf; pose proof (contents_bound (buffer d)); [lia|]. cbn [receive].
  apply wp_bind. apply wp_bind, wp_assert; [done|]. apply wp_gets. rewrite full_iff by apply Hq.
  case_bool_decide as E; [apply wp_ret; split; [done|]; specialize (Hstop d Hq (reads d)); by destruct d|].
  apply wp_bind. apply wp_bind, wp_gets, wp_bind, wp_modify, wp_ret.
  destruct (_ =? 0); [apply wp_ret; split; [done|]; by apply Hstop|].
  apply wp_bind. apply wp_bind, wp_gets, wp_bind, wp_modify, wp_bind, wp_modify, wp_ret. apply wp_then, wp_input_putc.
  - by destruct Hq; split.
  - simpl. lia.
  - intros w v q' Hc Hd. simpl in Hc. eapply wp_mono; [apply IH; [apply Hd|simpl; rewrite Hc, length_app; simpl; lia]|].
    intros r d' (-> & ? & ? & ? & bs & Hrx & Hb). split_and!; try done. exists (rbr (S (reads d)) :: bs).
    simpl in Hrx, Hb. by rewrite Hrx, Hb, Hc, <- !app_assoc.
Qed.

Lemma wp_transmit fuel d : queues_ok d -> (length (contents (txq d)) < fuel)%nat ->
  wp (transmit lsr intr_context cur fuel) d (fun r d' => r = Done tt None /\ queues_ok d' /\ pending d' = pending d /\ buffer d' = buffer d /\ rx d' = rx d).
Proof.
  revert d. induction fuel as [|fuel IH]; intros d Hq Hf; [lia|]. cbn [transmit]. apply wp_bind, wp_gets. rewrite empty_iff by apply Hq.
  case_bool_decide as E; [by apply wp_ret|]. apply wp_bind. apply wp_bind, wp_gets, wp_bind, wp_modify, wp_ret.
  destruct (_ =? 0); [apply wp_ret; split_and!; try done; by destruct Hq; split|].
  apply wp_then, wp_on_txq. eapply wp_mono; [apply get_turn; [apply Hq|done]|].
  intros [b w| |] q' [[Hq' Hc] Hb]; [|by destruct Hc..]. simpl in Hb. apply wp_bind, wp_modify.
  eapply wp_mono; [apply IH|].
  - by destruct Hq; split.
  - simpl. rewrite Hb in Hf. simpl in Hf. lia.
  - intros r d' (-> & ? & Hp & Hrest). split; [done|]. split; [done|]. split; [|exact Hrest]. rewrite Hp. unfold pending. simpl. by rewrite Hb, <- app_assoc.
Qed.

Lemma serial_interrupt_flows d : devs_ok d ->
  wp (serial_interrupt lsr rbr intr_context cur) d (fun r d' => (exists w, r = Done tt w) /\ devs_ok d' /\
    exists bs, rx d' = rx d ++ bs /\ flows [] bs [] d d').
Proof.
  intros [Hq Hx Hr]. apply wp_bind, wp_gets, wp_bind, wp_modify. apply wp_then.
  eapply wp_mono; [apply wp_receive; [by destruct Hq; split|lia]|]. intros r d1 (-> & Hq1 & Et & Etx & bs & Hrx & Hb).
  pose proof (contents_bound (txq d1)). apply wp_then. eapply wp_mono; [apply wp_transmit; [done|lia]|].
  intros r d2 (-> & Hq2 & Hp & Eb & Hrx2). apply wp_bind, wp_write_ier; [done|]. intros v Hd. apply wp_ret.
  split; [by eexists|]. split; [done|]. exists bs. split; [simpl; by rewrite Hrx2, Hrx|]. split; simpl.
  - rewrite app_nil_r. change (pending (set_ier v d2)) with (pending d2). rewrite Hp. unfold pending. by rewrite Et, Etx.
  - by rewrite Eb, Hb.
Qed.

Lemma serial_flush_flows level d : devs_ok d -> (intr_context = true -> level = false) ->
  wp (serial_flush lsr patience intr_context cur level) d (fun r d' => r = Done tt None /\ devs_ok d' /\ rx d' = rx d /\
    tx d' = pending d /\ flows [] [] [] d d').
Proof using Hready.
  intros [Hq Hx Hr] Hic. pose proof (contents_bound (txq d)). apply wp_then. eapply wp_mono; [apply wp_flush; [done|lia]|].
  intros r d' (-> & Hq' & Hp & He & Eb & Hrx & Ei). apply wp_bind, wp_assert; [by destruct level, intr_context; [specialize (Hic eq_refl)|..]|].
  apply wp_ret. split_and!; try done.
  - split; [done|by rewrite He|by rewrite Ei, Eb].
  - rewrite <- Hp. unfold pending. by rewrite He, app_nil_r.
  - split; [by rewrite app_nil_r|by rewrite Eb, app_nil_r].
Qed.
End Operations.

(** ** Histories

    What was handed to the port, what arrived in the input buffer, and what
    was taken from it, over any interleaving of threads and handlers. *)
Record port_history := mk_port { ph : devs; handed : list Z; arrived : list Z; taken : list Z }.

Definition done_byte {A} (r : turn A) (l : list Z) : list Z := match r with Done _ _ => l | _ => [] end.

(** A thread that waits on a queue goes on: it is given the lock, or it was
    woken up. *)
Definition wait_step (q q' : intq) : Prop :=
  (exists t full, q_lock q = None /\ locked (A := unit) false t full q = Ret (Sleeps, q')) \/
  (exists t, not_full q <> Some t /\ not_empty q <> Some t /\ intq_resume t q = Ret (tt, q')).

Inductive pstep (lsr rbr : nat -> Z) (patience : nat) : port_history -> port_history -> Prop :=
| ps_putc ic cur garbage level b r d' h : (ic = true -> level = false) ->
    serial_putc lsr patience ic cur garbage level b (ph h) = Ret (r, d') ->
    pstep lsr rbr patience h (mk_port d' (handed h ++ done_byte r [b]) (arrived h) (taken h))
| ps_interrupt cur r d' h : serial_interrupt lsr rbr true cur (ph h) = Ret (r, d') ->
    pstep lsr rbr patience h (mk_port d' (handed h) (arrived h ++ drop (length (rx (ph h))) (rx d')) (taken h))
| ps_key cur key r d' h : (length (contents (buffer (ph h))) < 63)%nat -> input_putc true cur false key (ph h) = Ret (r, d') ->
    pstep lsr rbr patience h (mk_port d' (handed h) (arrived h ++ [key]) (taken h))
| ps_getc cur level r d' h : input_getc false cur level (ph h) = Ret (r, d') ->
    pstep lsr rbr patience h (mk_port d' (handed h) (arrived h) (taken h ++ match r with Done b _ => [b] | _ => [] end))
| ps_flush ic cur level r d' h : (ic = true -> level = false) -> serial_flush lsr patience ic cur level (ph h) = Ret (r, d') ->
    pstep lsr rbr patience h (mk_port d' (handed h) (arrived h) (taken h))
| ps_txq q' h : wait_step (txq (ph h)) q' ->
    pstep lsr rbr patience h (mk_port (set_txq q' (ph h)) (handed h) (arrived h) (taken h))
| ps_buffer q' h : wait_step (buffer (ph h)) q' ->
    pstep lsr rbr patience h (mk_port (set_buffer q' (ph h)) (handed h) (arrived h) (taken h)).

Record port_ok (h : port_history) : Prop := {
  po_devs : devs_ok (ph h);
  po_out : handed h = pending (ph h);
  po_in : arrived h = taken h ++ contents (buffer (ph h));
}.

Lemma wait_step_keeps q q' : queue_ok q -> wait_step q q' -> queue_ok q' /\ contents q' = contents q.
Proof.
  intros Hq Hs. assert (Hh : history_ok (mk_history q' (contents q) [])).
  { apply (hstep_ok (mk_history q (contents q) [])); [|by split].
    destruct Hs as [(t & full & El & E)|(t & Hf & He & E)]; [by apply (hs_locked t full q' (mk_history q (contents q) []))|by apply (hs_resume t q' (mk_history q (contents q) []))]. }
  split; [apply Hh|]. symmetry. apply (ho_order _ Hh).
Qed.

Lemma port_flows h d' s a g : port_ok h -> devs_ok d' -> flows s a g (ph h) d' ->
  port_ok (mk_port d' (handed h ++ s) (arrived h ++ a) (taken h ++ g)).
Proof.
  intros [_ Ho Hi] Hd [Hs Ha]. split; simpl; [done|by rewrite Hs, Ho|]. by rewrite Hi, <- !app_assoc, Ha.
Qed.

Lemma port_flows_none h d' : port_ok h -> devs_ok d' -> flows [] [] [] (ph h) d' -> port_ok (mk_port d' (handed h) (arrived h) (taken h)).
Proof. intros Hh Hd Hf. pose proof (port_flows h d' [] [] [] Hh Hd Hf) as H0. by rewrite !app_nil_r in H0. Qed.

Lemma pstep_ok lsr rbr patience h h' : port_ready lsr patience -> pstep lsr rbr patience h h' -> port_ok h -> port_ok h'.
Proof.
  intros Hready Hs Hh. pose proof Hh as [Hd Ho Hi].
  destruct Hs as [ic cur g level b r d' h Hic E|cur r d' h E|cur key r d' h Hlt E|cur level r d' h E|ic cur level r d' h Hic E|q' h E|q' h E].
  - destruct (wp_run _ _ _ (serial_putc_flows lsr patience Hready ic cur g level b (ph h) Hd Hic)) as (r1 & d1 & E1 & Hd1 & _ & Hf).
    rewrite E1 in E. injection E as -> ->. rewrite <- (app_nil_r (arrived h)), <- (app_nil_r (taken h)).
    apply port_flows; [done|done|]. destruct r as [[] w| |]; tauto.
  - destruct (wp_run _ _ _ (serial_interrupt_flows lsr rbr true cur (ph h) Hd)) as (r1 & d1 & E1 & _ & Hd1 & bs & Hrx & Hf).
    rewrite E1 in E. injection E as -> ->. rewrite Hrx, drop_app_length. rewrite <- (app_nil_r (handed h)), <- (app_nil_r (taken h)).
    by apply port_flows.
  - assert (Hw : wp (input_putc true cur false key) (ph h) (fun _ d' => devs_ok d' /\ flows [] [key] [] (ph h) d')).
    { apply wp_input_putc; [apply Hd|done|]. intros w v q' Hc Hd'. split; [done|]. split; simpl; [by rewrite app_nil_r|done]. }
    destruct (wp_run _ _ _ Hw) as (r1 & d1 & E1 & Hd1 & Hf). rewrite E1 in E. injection E as -> ->.
    rewrite <- (app_nil_r (handed h)), <- (app_nil_r (taken h)). by apply port_flows.
  - destruct (wp_run _ _ _ (input_getc_flows false cur level (ph h) Hd eq_refl)) as (r1 & d1 & E1 & Hd1 & _ & Hf).
    rewrite E1 in E. injection E as -> ->. rewrite <- (app_nil_r (handed h)), <- (app_nil_r (arrived h)).
    apply port_flows; [done|done|]. destruct r; tauto.
  - destruct (wp_run _ _ _ (serial_flush_flows lsr patience Hready ic cur level (ph h) Hd Hic)) as (r1 & d1 & E1 & _ & Hd1 & _ & _ & Hf).
    rewrite E1 in E. injection E as -> ->. by apply port_flows_none.
  - destruct Hd as [Hq Hx Hr]. destruct (wait_step_keeps _ _ (qo_txq _ Hq) E) as [Hq' Hc]. apply port_flows_none; [done|..].
    + split; simpl; rewrite ?Hc; [by apply (queues_ok_keep (ph h)); [..|apply Hq]|done..].
    + split; simpl; unfold pending; simpl; by rewrite ?Hc, ?app_nil_r.
  - destruct Hd as [Hq Hx Hr]. destruct (wait_step_keeps _ _ (qo_buffer _ Hq) E) as [Hq' Hc]. apply port_flows_none; [done|..].
    + split; simpl; rewrite ?Hc; [by apply (queues_ok_keep (ph h)); [|apply Hq|]|done..].
    + split; simpl; unfold pending; simpl; by rewrite ?Hc, ?app_nil_r.
Qed.

(** The devices before [serial_init_queue]: the input buffer is empty, and
    the port has not been used or was used by polling. *)
Record booting (d : devs) : Prop := {
  bo_buffer : queue_ok (buffer d) /\ contents (buffer d) = [];
  bo_txq : mode d = UNINIT \/ mode d = POLL /\ queue_ok (txq d) /\ contents (txq d) = [];
}.

Lemma intq_init_ok garbage : length garbage = 64%nat -> queue_ok (intq_init garbage) /\ contents (intq_init garbage) = [].
Proof. intros Hl. split; [split; [split; simpl; done || lia|by split]|done]. Qed.

Lemma wp_init_poll garbage d Q : mode d = UNINIT ->
  Q tt (mk_devs POLL (intq_init garbage) (buffer d) 0 LCR_N81 1 (reads d) (tx d) (rx d)) -> wp (init_poll garbage) d Q.
Proof. intros Hm HQ. apply wp_bind, wp_gets. rewrite Hm. apply wp_bind, wp_assert; [done|]. exact HQ. Qed.

Lemma serial_init_queue_ok garbage level d : booting d -> length garbage = 64%nat ->
  wp (serial_init_queue false garbage level) d (fun _ d' => devs_ok d' /\ pending d' = tx d /\ tx d' = tx d /\ contents (buffer d') = []).
Proof.
  intros [[Hb Eb] Hm] Hg. destruct (intq_init_ok garbage Hg) as [Hi Ei]. apply wp_bind, wp_gets, wp_bind.
  eapply (wp_mono _ _ (fun _ d1 => mode d1 = POLL /\ queue_ok (txq d1) /\ contents (txq d1) = [] /\ buffer d1 = buffer d /\ tx d1 = tx d)).
  - destruct Hm as [Hm|(Hm & Hq & He)]; rewrite Hm; [|by apply wp_ret]. by apply wp_init_poll.
  - intros [] d1 (Hm1 & Hq1 & He1 & Eb1 & Et1). apply wp_bind, wp_gets. rewrite Hm1. apply wp_bind, wp_assert; [done|].
    apply wp_bind, wp_modify, wp_bind, wp_write_ier; [by split; simpl; rewrite ?Eb1|]. intros v Hd. apply wp_assert; [by destruct level|].
    split_and!; [done|unfold pending; simpl; by rewrite He1, app_nil_r|done|simpl; by rewrite Eb1].
Qed.


(** A port that is ready at every other read and delivers the byte 120. *)
Definition demo_lsr (n : nat) : Z := if Nat.even n then 33 else 0.
Definition demo_boot : devs := mk_devs UNINIT (intq_init (replicate 64 0)) (intq_init (replicate 64 0)) 0 0 0 0 [] [].

Definition final {A} (o : outcome (A * devs)) : devs := match o with Ret (_, d) => d | _ => demo_boot end.
Definition demo_queue : devs := final (serial_init_queue false (replicate 64 0) true demo_boot).
Definition demo_put : devs := final (serial_putc demo_lsr 2 false 1 [] true 104 demo_queue).
Definition demo_int : devs := final (serial_interrupt demo_lsr (fun _ => 120) true 0 demo_put).
#[local] Strategy 100 [demo_queue demo_put demo_int].

