(* ===== verification/Kbd.v ===== *)
(** * The keyboard: devices/kbd.c

    The interrupt handler decodes scancodes with tables of key ranges and
    puts characters into the input buffer of Serial.v.  It is proved to
    implement a keyboard given key by key: each key has a plain and a shifted
    character, modifiers are down or up. *)

From S2P Require Import Prelude CStdlib Intq Serial.
From Stdlib Require Ascii String.

(** The character codes of a string. *)
Definition codes (s : String.string) : list Z :=
  map (fun a => Z.of_N (Ascii.N_of_ascii a)) (String.list_ascii_of_string s).

Definition keymap : Type := list (Z * list Z).

(** Tables end at scancode 0 in the source. *)
Definition invariant_keymap : keymap :=
  [(0x01, [27]); (0x0e, [8]); (0x0f, 9 :: codes "QWERTYUIOP"); (0x1c, [13]); (0x1e, codes "ASDFGHJKL");
   (0x2c, codes "ZXCVBNM"); (0x37, codes "*"); (0x39, codes " ")].

Definition unshifted_keymap : keymap :=
  [(0x02, codes "1234567890-="); (0x1a, codes "[]"); (0x27, codes ";'`"); (0x2b, codes "\"); (0x33, codes ",./")].

Definition shifted_keymap : keymap :=
  [(0x02, codes "!@#$%^&*()_+"); (0x1a, codes "{}"); (0x27, [58; 34; 126]); (0x2b, codes "|"); (0x33, codes "<>?")].

Fixpoint map_key (k : keymap) (scancode : Z) : option Z :=
  match k with
  | [] => None
  | (first_scancode, chars) :: k =>
    if (first_scancode <=? scancode) && (scancode <? first_scancode + length chars)
    then chars !! Z.to_nat (scancode - first_scancode)
    else map_key k scancode
  end.

Record kbd := mk_kbd {
  left_shift : bool; right_shift : bool; left_alt : bool; right_alt : bool; left_ctrl : bool; right_ctrl : bool;
  caps_lock : bool; key_cnt : Z; kdevs : devs
}.

Definition set_caps (b : bool) (k : kbd) : kbd :=
  mk_kbd (left_shift k) (right_shift k) (left_alt k) (right_alt k) (left_ctrl k) (right_ctrl k) b (key_cnt k) (kdevs k).
Definition set_kdevs (n : Z) (d : devs) (k : kbd) : kbd :=
  mk_kbd (left_shift k) (right_shift k) (left_alt k) (right_alt k) (left_ctrl k) (right_ctrl k) (caps_lock k) n d.

Definition on_devs {A} (m : ST devs A) : ST kbd A := fun k =>
  match m (kdevs k) with
  | Ret (a, d) => Ret (a, set_kdevs (key_cnt k) d k)
  | Panic => Panic
  | OutOfFuel => OutOfFuel
  end.

(** The table of shift keys, with the variable each one sets. *)
Definition shift_keys : list (Z * (bool -> kbd -> kbd)) :=
  [(0x2a, fun b k => mk_kbd b (right_shift k) (left_alt k) (right_alt k) (left_ctrl k) (right_ctrl k) (caps_lock k) (key_cnt k) (kdevs k));
   (0x36, fun b k => mk_kbd (left_shift k) b (left_alt k) (right_alt k) (left_ctrl k) (right_ctrl k) (caps_lock k) (key_cnt k) (kdevs k));
   (0x38, fun b k => mk_kbd (left_shift k) (right_shift k) b (right_alt k) (left_ctrl k) (right_ctrl k) (caps_lock k) (key_cnt k) (kdevs k));
   (0xe038, fun b k => mk_kbd (left_shift k) (right_shift k) (left_alt k) b (left_ctrl k) (right_ctrl k) (caps_lock k) (key_cnt k) (kdevs k));
   (0x1d, fun b k => mk_kbd (left_shift k) (right_shift k) (left_alt k) (right_alt k) b (right_ctrl k) (caps_lock k) (key_cnt k) (kdevs k));
   (0xe01d, fun b k => mk_kbd (left_shift k) (right_shift k) (left_alt k) (right_alt k) (left_ctrl k) b (caps_lock k) (key_cnt k) (kdevs k))].

Fixpoint scan_shift_keys (l : list (Z * (bool -> kbd -> kbd))) (code : Z) (release : bool) (k : kbd) : kbd :=
  match l with
  | [] => k
  | (scancode, set_var) :: l => if scancode =? code then set_var (negb release) k else scan_shift_keys l code release k
  end.

(** [map_key (invariant_keymap, ..) || (!shift && ..) || (shift && ..)] *)
Definition find_char (shift : bool) (code : Z) : option Z :=
  match map_key invariant_keymap code with
  | Some c => Some c
  | None => if shift then map_key shifted_keymap code else map_key unshifted_keymap code
  end.

(** Ctrl, Shift and Caps Lock, Alt. *)
Definition adjust (shift ctrl alt caps : bool) (c : Z) : Z :=
  let c := if ctrl && (0x40 <=? c) && (c <? 0x60) then u8 (c - 0x40)
           else if Bool.eqb shift caps then u8 (tolower c) else c in
  if alt then u8 (c + 0x80) else c.

(** [inb0] and [inb1] are the bytes the data port gives: the second one is
    read after the prefix 0xe0 only. *)
Definition keyboard_interrupt (cur inb0 inb1 : Z) : ST kbd unit :=
  k ← gets id;
  let shift := left_shift k || right_shift k in
  let alt := left_alt k || right_alt k in
  let ctrl := left_ctrl k || right_ctrl k in
  let code := if inb0 =? 0xe0 then Z.lor (Z.shiftl inb0 8) inb1 else inb0 in
  let release := negb (Z.land code 0x80 =? 0) in
  let code := Z.land code (u32 (-1 - 0x80)) in
  if code =? 0x3a then
    when (negb release) (modify (fun k => set_caps (negb (caps_lock k)) k))
  else match find_char shift code with
  | Some c =>
    when (negb release) (
      let c := adjust shift ctrl alt (caps_lock k) c in
      f ← on_devs (input_full false);
      when (negb f) (
        modify (fun k => set_kdevs (s64 (key_cnt k + 1)) (kdevs k) k);;
        on_devs (input_putc true cur false c);;
        mret tt))
  | None => modify (scan_shift_keys shift_keys code release)
  end.

(** ** A keyboard, key by key *)

Inductive modifier := LShift | RShift | LAlt | RAlt | LCtrl | RCtrl.
Inductive key := KMod (m : modifier) | KCaps | KLetter (upper : Z) | KChar (plain shifted : Z) | KNone.

#[export] Instance modifier_eq_dec : EqDecision modifier.
Proof. solve_decision. Defined.
#[export] Instance key_eq_dec : EqDecision key.
Proof. solve_decision. Defined.

(** The keys by their scancode, extended keys with the prefix. *)
Definition key_of (extended : bool) (code : Z) : key :=
  if extended then (if code =? 0x38 then KMod RAlt else if code =? 0x1d then KMod RCtrl else KNone)
  else match code with
  | 0x01 => KChar 27 27 | 0x02 => KChar 49 33 | 0x03 => KChar 50 64 | 0x04 => KChar 51 35 | 0x05 => KChar 52 36
  | 0x06 => KChar 53 37 | 0x07 => KChar 54 94 | 0x08 => KChar 55 38 | 0x09 => KChar 56 42 | 0x0a => KChar 57 40
  | 0x0b => KChar 48 41 | 0x0c => KChar 45 95 | 0x0d => KChar 61 43 | 0x0e => KChar 8 8 | 0x0f => KChar 9 9
  | 0x10 => KLetter 81 | 0x11 => KLetter 87 | 0x12 => KLetter 69 | 0x13 => KLetter 82 | 0x14 => KLetter 84
  | 0x15 => KLetter 89 | 0x16 => KLetter 85 | 0x17 => KLetter 73 | 0x18 => KLetter 79 | 0x19 => KLetter 80
  | 0x1a => KChar 91 123 | 0x1b => KChar 93 125 | 0x1c => KChar 13 13 | 0x1d => KMod LCtrl
  | 0x1e => KLetter 65 | 0x1f => KLetter 83 | 0x20 => KLetter 68 | 0x21 => KLetter 70 | 0x22 => KLetter 71
  | 0x23 => KLetter 72 | 0x24 => KLetter 74 | 0x25 => KLetter 75 | 0x26 => KLetter 76
  | 0x27 => KChar 59 58 | 0x28 => KChar 39 34 | 0x29 => KChar 96 126 | 0x2a => KMod LShift | 0x2b => KChar 92 124
  | 0x2c => KLetter 90 | 0x2d => KLetter 88 | 0x2e => KLetter 67 | 0x2f => KLetter 86 | 0x30 => KLetter 66
  | 0x31 => KLetter 78 | 0x32 => KLetter 77 | 0x33 => KChar 44 60 | 0x34 => KChar 46 62 | 0x35 => KChar 47 63
  | 0x36 => KMod RShift | 0x37 => KChar 42 42 | 0x38 => KMod LAlt | 0x39 => KChar 32 32 | 0x3a => KCaps
  | _ => KNone
  end.

(** Which modifiers are down, and whether Caps Lock is on. *)
Record keys := mk_keys { down : modifier -> bool; caps : bool }.

Definition any_shift (k : keys) : bool := down k LShift || down k RShift.
Definition any_alt (k : keys) : bool := down k LAlt || down k RAlt.
Definition any_ctrl (k : keys) : bool := down k LCtrl || down k RCtrl.

(** Ctrl gives a control code for the characters from 64 to 95; Caps Lock
    inverts Shift for letters; Alt sets the high bit. *)
Definition type_key (shift ctrl alt caps : bool) (key : key) : option Z :=
  let base :=
    match key with
    | KLetter upper => Some (if ctrl then upper - 64 else if xorb shift caps then upper else upper + 32)
    | KChar plain shifted =>
      let c := if shift then shifted else plain in
      Some (if ctrl && (64 <=? c) && (c <? 96) then c - 64 else c)
    | _ => None
    end in
  (fun c => if alt then c + 128 else c) <$> base.

Definition typed (k : keys) (key : key) : option Z :=
  type_key (any_shift k) (any_ctrl k) (any_alt k) (caps k) key.

Definition press (key : key) (is_down : bool) (k : keys) : keys :=
  match key with
  | KMod m => mk_keys (fun m' => if decide (m' = m) then is_down else down k m') (caps k)
  | KCaps => if is_down then mk_keys (down k) (negb (caps k)) else k
  | _ => k
  end.

(** The key and the direction of an event. *)
Definition event_key (inb0 inb1 : Z) : key :=
  if inb0 =? 0xe0 then key_of true (Z.land inb1 127) else key_of false (Z.land inb0 127).
Definition event_down (inb0 inb1 : Z) : bool := (if inb0 =? 0xe0 then inb1 else inb0) <? 128.

(** ** The tables are the keyboard *)

Definition mod_code (m : modifier) : Z :=
  match m with LShift => 0x2a | RShift => 0x36 | LAlt => 0x38 | RAlt => 0xe038 | LCtrl => 0x1d | RCtrl => 0xe01d end.

Definition full_code (inb0 inb1 : Z) : Z := if inb0 =? 0xe0 then Z.lor (Z.shiftl inb0 8) inb1 else inb0.

Definition bools : list bool := [true; false].

(** What the handler finds for a scancode agrees with the key. *)
Definition decoded (code : Z) (k : key) : bool :=
  match k with
  | KCaps => code =? 0x3a
  | KMod m => (code =? mod_code m) && negb (code =? 0x3a) && forallb (fun s => bool_decide (find_char s code = None)) bools
  | KNone => forallb (fun p => negb (p.1 =? code)) shift_keys && negb (code =? 0x3a) && forallb (fun s => bool_decide (find_char s code = None)) bools
  | _ => negb (code =? 0x3a) && forallb (fun s => forallb (fun c => forallb (fun a => forallb (fun cl =>
      bool_decide (adjust s c a cl <$> find_char s code = type_key s c a cl k)) bools) bools) bools) bools
  end.

Definition decoded_event (inb0 inb1 : Z) : bool :=
  Bool.eqb (Z.land (full_code inb0 inb1) 0x80 =? 0) (event_down inb0 inb1) &&
  decoded (Z.land (full_code inb0 inb1) (u32 (-1 - 0x80))) (event_key inb0 inb1).

Lemma decode_plain b : 0 <= b < 256 -> b <> 0xe0 -> forall b', decoded_event b b' = true.
Proof.
  intros Hb Hne b'. assert (Hall : forallb (fun b => (b =? 0xe0) || decoded_event b 0) (seqZ 0 256) = true) by (vm_compute; reflexivity).
  rewrite forallb_forall in Hall. specialize (Hall b). rewrite <- list_elem_of_In, elem_of_seqZ in Hall. specialize (Hall ltac:(lia)).
  unfold decoded_event, full_code, event_down, event_key in *. destruct (Z.eqb_spec b 0xe0); [lia|]. exact Hall.
Qed.

Lemma decode_extended b : 0 <= b < 256 -> decoded_event 0xe0 b = true.
Proof.
  intros Hb. assert (Hall : forallb (decoded_event 0xe0) (seqZ 0 256) = true) by (vm_compute; reflexivity).
  rewrite forallb_forall in Hall. apply Hall. rewrite <- list_elem_of_In, elem_of_seqZ. lia.
Qed.

Lemma decode inb0 inb1 : is_u8 inb0 -> is_u8 inb1 -> decoded_event inb0 inb1 = true.
Proof.
  intros H0 H1. destruct (decide (inb0 = 0xe0)) as [->|Hne]; [by apply decode_extended|]. by apply decode_plain.
Qed.

(** ** The handler *)

Definition keys_of (k : kbd) : keys :=
  mk_keys (fun m => match m with LShift => left_shift k | RShift => right_shift k | LAlt => left_alt k | RAlt => right_alt k
    | LCtrl => left_ctrl k | RCtrl => right_ctrl k end) (caps_lock k).

Definition keys_eq (a b : keys) : Prop := (forall m, down a m = down b m) /\ caps a = caps b.

#[export] Instance keys_eq_equiv : Equivalence keys_eq.
Proof. split; [done|by intros a b [? ?]|]. intros a b c [H1 H2] [H3 H4]. split; [intros m; by rewrite H1|congruence]. Qed.

#[export] Instance press_proper key d : Proper (keys_eq ==> keys_eq) (press key d).
Proof. intros a b [H1 H2]. destruct key, d; split; simpl; intros; rewrite ?H1, ?H2; done. Qed.

#[export] Instance typed_proper : Proper (keys_eq ==> eq ==> eq) typed.
Proof. intros a b [H1 H2] key ? <-. unfold typed, any_shift, any_ctrl, any_alt. by rewrite !H1, H2. Qed.

Lemma scan_modifier m release k : keys_eq (keys_of (scan_shift_keys shift_keys (mod_code m) release k)) (press (KMod m) (negb release) (keys_of k)) /\
  kdevs (scan_shift_keys shift_keys (mod_code m) release k) = kdevs k /\ key_cnt (scan_shift_keys shift_keys (mod_code m) release k) = key_cnt k.
Proof. destruct m; (split; [split; [intros []; reflexivity|done]|done]). Qed.

Lemma scan_other l code release k : forallb (fun p => negb (p.1 =? code)) l = true -> scan_shift_keys l code release k = k.
Proof. induction l as [|[c f] l IH]; simpl; [done|]. destruct (c =? code); [done|]. exact IH. Qed.

(** The character that an event puts into a buffer that holds [buf]. *)
Definition key_input (k : keys) (inb0 inb1 : Z) (buf : list Z) : list Z :=
  match typed k (event_key inb0 inb1) with
  | Some c => if event_down inb0 inb1 && bool_decide (length buf < 63)%nat then [c] else []
  | None => []
  end.

Lemma wp_on_devs {A} (m : ST devs A) k Q : wp m (kdevs k) (fun a d => Q a (set_kdevs (key_cnt k) d k)) -> wp (on_devs m) k Q.
Proof. unfold wp, on_devs. by destruct (m (kdevs k)) as [[]| |]. Qed.

(** What one event does. *)
Record event_done (inb0 inb1 : Z) (k k' : kbd) : Prop := {
  ed_devs : devs_ok (kdevs k') /\ pending (kdevs k') = pending (kdevs k);
  ed_keys : keys_eq (keys_of k') (press (event_key inb0 inb1) (event_down inb0 inb1) (keys_of k));
  ed_buffer : contents (buffer (kdevs k')) = contents (buffer (kdevs k)) ++ key_input (keys_of k) inb0 inb1 (contents (buffer (kdevs k)));
}.

(** A character key that was pressed. *)
Lemma wp_type_char cur c k Q : devs_ok (kdevs k) ->
  (forall k', devs_ok (kdevs k') -> pending (kdevs k') = pending (kdevs k) -> keys_of k' = keys_of k ->
    contents (buffer (kdevs k')) = contents (buffer (kdevs k)) ++ (if bool_decide (length (contents (buffer (kdevs k))) < 63)%nat then [c] else []) -> Q tt k') ->
  wp (f ← on_devs (input_full false);
      when (negb f) (modify (fun k => set_kdevs (s64 (key_cnt k + 1)) (kdevs k) k);; on_devs (input_putc true cur false c);; mret tt)) k Q.
Proof.
  intros Hd HQ. assert (Ek : set_kdevs (key_cnt k) (kdevs k) k = k) by (by destruct k). apply wp_bind, wp_on_devs.
  apply wp_bind, wp_assert; [done|]. apply wp_gets. rewrite Ek. pose proof (qo_buffer _ (do_queues _ Hd)) as Hb.
  rewrite full_iff by apply Hb. pose proof (contents_bound (buffer (kdevs k))).
  destruct (decide (length (contents (buffer (kdevs k))) = 63%nat)) as [Hf|Hf].
  - rewrite bool_decide_true by done. apply wp_ret, HQ; try done. rewrite bool_decide_false by lia. by rewrite app_nil_r.
  - rewrite bool_decide_false by done. apply wp_bind, wp_modify, wp_bind, wp_on_devs. simpl.
    apply wp_input_putc; [apply Hd|lia|]. intros w v q' Hc Hd'. apply wp_ret, HQ; try done. simpl.
    rewrite bool_decide_true by lia. exact Hc.
Qed.

Lemma find_char_typed (shift ctrl alt caps : bool) code key (c : Z) :
  (forall s c a cl, adjust s c a cl <$> find_char s code = type_key s c a cl key) -> type_key shift ctrl alt caps key = Some c ->
  exists c0, find_char shift code = Some c0 /\ adjust shift ctrl alt caps c0 = c.
Proof. intros Hall Ht. specialize (Hall shift ctrl alt caps). rewrite Ht in Hall. destruct (find_char shift code) as [c0|]; [|done]. exists c0. by injection Hall. Qed.

Lemma forallb_bools (P : bool -> bool) : forallb P bools = true -> forall b, P b = true.
Proof. simpl. intros [H1 [H2 _]%andb_prop]%andb_prop []; done. Qed.

Lemma no_char code : forallb (fun s => bool_decide (find_char s code = None)) bools = true -> forall s, find_char s code = None.
Proof. intros Hf s. apply (bool_decide_eq_true_1 _ (forallb_bools _ Hf s)). Qed.

(** The handler on a character key, either direction. *)
Lemma keyboard_char cur inb0 inb1 k : devs_ok (kdevs k) -> is_u8 inb0 -> is_u8 inb1 ->
  match event_key inb0 inb1 with KLetter _ | KChar _ _ => True | _ => False end ->
  wp (keyboard_interrupt cur inb0 inb1) k (fun _ => event_done inb0 inb1 k).
Proof.
  intros Hd H0 H1 Hk. pose proof (decode inb0 inb1 H0 H1) as [Hdown Hdec]%andb_prop. apply Bool.eqb_prop in Hdown.
  assert (Hall : forall s c a cl, adjust s c a cl <$> find_char s (Z.land (full_code inb0 inb1) (u32 (-1 - 0x80))) = type_key s c a cl (event_key inb0 inb1)).
  { intros s c a cl. destruct (event_key inb0 inb1); try done; apply andb_prop in Hdec as [_ Hdec];
      by apply (bool_decide_eq_true_1 _ (forallb_bools _ (forallb_bools _ (forallb_bools _ (forallb_bools _ Hdec s) c) a) cl)). }
  assert (Hcaps : (Z.land (full_code inb0 inb1) (u32 (-1 - 0x80)) =? 0x3a) = false).
  { destruct (event_key inb0 inb1); try done; by apply andb_prop in Hdec as [->%negb_true_iff _]. }
  assert (Ht : exists c, typed (keys_of k) (event_key inb0 inb1) = Some c) by (unfold typed; destruct (event_key inb0 inb1); simpl; eauto; done).
  destruct Ht as [c Ht]. destruct (find_char_typed _ _ _ _ _ _ _ Hall Ht) as (c0 & Ef & Ea).
  apply wp_bind, wp_gets. unfold id. fold (full_code inb0 inb1). rewrite Hcaps.
  change (left_shift k || right_shift k) with (any_shift (keys_of k)). change (left_ctrl k || right_ctrl k) with (any_ctrl (keys_of k)).
  change (left_alt k || right_alt k) with (any_alt (keys_of k)). change (caps_lock k) with (caps (keys_of k)). rewrite Ef, Ea, Hdown, negb_involutive.
  assert (Hp : forall d x, press (event_key inb0 inb1) d x = x) by (intros d x; by destruct (event_key inb0 inb1)).
  apply wp_when; intros Edown.
  - apply wp_type_char; [done|]. intros k' Hd' Hpe Hke Hc. split; [done|by rewrite Hp, Hke|].
    unfold key_input. by rewrite Ht, Edown.
  - split; [done|by rewrite Hp|]. unfold key_input. rewrite Ht, Edown. by rewrite app_nil_r.
Qed.

Lemma keyboard_interrupt_done cur inb0 inb1 k : devs_ok (kdevs k) -> is_u8 inb0 -> is_u8 inb1 ->
  wp (keyboard_interrupt cur inb0 inb1) k (fun _ => event_done inb0 inb1 k).
Proof.
  intros Hd H0 H1. destruct (event_key inb0 inb1) as [m| | | |] eqn:Ek; try (apply keyboard_char; try done; by rewrite Ek).
  all: pose proof (decode inb0 inb1 H0 H1) as [Hdown Hdec]%andb_prop; apply Bool.eqb_prop in Hdown; rewrite Ek in Hdec; cbn [decoded] in Hdec.
  all: assert (Ht : key_input (keys_of k) inb0 inb1 (contents (buffer (kdevs k))) = []) by (unfold key_input; by rewrite Ek).
  all: apply wp_bind, wp_gets; unfold id; fold (full_code inb0 inb1); rewrite Hdown, ?negb_involutive.
  - apply andb_prop in Hdec as [[Hc%Z.eqb_eq Hn%negb_true_iff]%andb_prop Hf].
    rewrite Hn. rewrite (no_char _ Hf). rewrite Hc.
    destruct (scan_modifier m (negb (event_down inb0 inb1)) k) as (Hk & Ed & _). rewrite negb_involutive in Hk.
    apply wp_modify. split; rewrite ?Ed, ?Ht, ?Ek, ?app_nil_r; done.
  - rewrite Hdec. apply wp_when; intros E; split; rewrite ?Ht, ?Ek, ?E, ?app_nil_r; simpl; done.
  - apply andb_prop in Hdec as [[Hc Hn%negb_true_iff]%andb_prop Hf]. rewrite Hn.
    rewrite (no_char _ Hf). apply wp_modify. rewrite scan_other by done.
    split; rewrite ?Ht, ?Ek, ?app_nil_r; done.
Qed.

(** Events one after the other, in the code and on the keyboard. *)
Fixpoint keyboard_events (cur : Z) (es : list (Z * Z)) : ST kbd unit :=
  match es with
  | [] => mret tt
  | (inb0, inb1) :: es => keyboard_interrupt cur inb0 inb1;; keyboard_events cur es
  end.

Fixpoint type_events (es : list (Z * Z)) (k : keys) (buf : list Z) : keys * list Z :=
  match es with
  | [] => (k, buf)
  | (inb0, inb1) :: es => type_events es (press (event_key inb0 inb1) (event_down inb0 inb1) k) (buf ++ key_input k inb0 inb1 buf)
  end.

#[export] Instance key_input_proper : Proper (keys_eq ==> eq ==> eq ==> eq ==> eq) key_input.
Proof. intros a b Hab i ? <- j ? <- buf ? <-. unfold key_input. by rewrite Hab. Qed.

Lemma type_events_proper es a b buf : keys_eq a b ->
  keys_eq (type_events es a buf).1 (type_events es b buf).1 /\ (type_events es a buf).2 = (type_events es b buf).2.
Proof.
  revert a b buf. induction es as [|[i j] es IH]; intros a b buf Hab; [done|]. simpl.
  rewrite (key_input_proper a b Hab i _ eq_refl j _ eq_refl buf _ eq_refl). apply IH. by rewrite Hab.
Qed.

(** C29: Any sequence of scancodes, well-formed or not, is handled without an
    assertion failing, and leaves in the input buffer the characters of the
    keys that were pressed: with the modifiers that were down and Caps Lock at
    the time, in order, as long as the buffer had room.  Nothing is sent to
    the serial port. *)
Theorem keyboard_correct cur es k : devs_ok (kdevs k) -> Forall (fun e => is_u8 e.1 /\ is_u8 e.2) es ->
  exists k', keyboard_events cur es k = Ret (tt, k') /\ devs_ok (kdevs k') /\ pending (kdevs k') = pending (kdevs k) /\
    keys_eq (keys_of k') (type_events es (keys_of k) (contents (buffer (kdevs k)))).1 /\
    contents (buffer (kdevs k')) = (type_events es (keys_of k) (contents (buffer (kdevs k)))).2.
Proof.
  intros Hd Hes. revert k Hd. induction Hes as [|[i j] es [Hi Hj] Hes IH]; intros k Hd; [by exists k|].
  destruct (wp_run_unit _ _ _ (keyboard_interrupt_done cur i j k Hd Hi Hj)) as (k1 & E1 & [[Hd1 Hp1] Hk1 Hb1]).
  destruct (IH k1 Hd1) as (k' & E & Hd' & Hp' & Hk' & Hb'). exists k'. cbn [keyboard_events type_events].
  rewrite (bind_run _ _ _ tt k1 E1). rewrite Hb1 in *. destruct (type_events_proper es _ _ (contents (buffer (kdevs k)) ++ key_input (keys_of k) i j (contents (buffer (kdevs k)))) Hk1) as [T1 T2].
  split_and!; [done|done|congruence|by rewrite Hk', T1|by rewrite Hb', T2].
Qed.

(** Shift down, A, Shift up, A, 3 with Alt, Ctrl down, C. *)
Definition demo_keys : kbd := mk_kbd false false false false false false false 0 demo_queue.

Lemma keyboard_correct_witness : exists k',
  keyboard_events 1 [(42, 0); (30, 0); (170, 0); (30, 0); (224, 56); (4, 0); (224, 184); (29, 0); (46, 0)] demo_keys = Ret (tt, k') /\
  contents (buffer (kdevs k')) = [65; 97; 179; 3].
Proof.
  destruct (keyboard_correct 1 [(42, 0); (30, 0); (170, 0); (30, 0); (224, 56); (4, 0); (224, 184); (29, 0); (46, 0)] demo_keys)
    as (k' & E & _ & _ & _ & Hb).
  - assert (Hb : booting demo_boot) by (split; [by apply intq_init_ok|by left]).
    pose proof (serial_init_queue_ok (replicate 64 0) true demo_boot Hb eq_refl) as Hw. unfold wp in Hw.
    replace (serial_init_queue false (replicate 64 0) true demo_boot) with (@Ret (unit * devs) (tt, demo_queue)) in Hw by (vm_compute; reflexivity).
    apply Hw.
  - repeat constructor; done.
  - exists k'. split; [exact E|]. rewrite Hb. vm_compute. reflexivity.
Defined.
