(* ===== verification/Disk.v ===== *)
(** * Disks as the rest of the kernel sees them: devices/disk.c

    The contract of [disk_read] and [disk_write]: sectors of 512 bytes by
    number, with the range check of [select_sector].  Ata.v is the driver behind
    it. *)

From S2P Require Import Prelude.

Definition DISK_SECTOR_SIZE : Z := 512.

(** [sectors]: the sectors written so far; the others read as zeros. *)
Record disk := mk_disk { capacity : Z; sectors : gmap Z (list Z) }.

Definition zero_sector : list Z := replicate 512 0.

Definition sector (d : disk) (sec_no : Z) : list Z := default zero_sector (sectors d !! sec_no).

Definition disk_size (d : disk) : Z := capacity d.

Definition disk_read (sec_no : Z) : ST disk (list Z) :=
  c ← gets capacity;
  ASSERT (sec_no <? c);;
  ASSERT (sec_no <? 2 ^ 28);;
  gets (fun d => sector d sec_no).

(** [buffer]: the [DISK_SECTOR_SIZE] bytes at the given address. *)
Definition disk_write (sec_no : Z) (buffer : list Z) : ST disk unit :=
  c ← gets capacity;
  ASSERT (sec_no <? c);;
  ASSERT (sec_no <? 2 ^ 28);;
  modify (fun d => mk_disk (capacity d) (<[sec_no := buffer]> (sectors d))).

Definition disk_put (sec_no : Z) (buffer : list Z) (d : disk) : disk :=
  mk_disk (capacity d) (<[sec_no := buffer]> (sectors d)).

(** A disk whose sectors all have 512 bytes. *)
Record disk_ok (d : disk) : Prop := {
  dk_cap : 0 <= capacity d <= 2 ^ 28;
  dk_len s b : sectors d !! s = Some b -> length b = 512%nat;
}.

Lemma sector_length d s : disk_ok d -> length (sector d s) = 512%nat.
Proof. intros H. unfold sector. destruct (sectors d !! s) eqn:E; [by eapply dk_len|done]. Qed.

Lemma sector_put d s b s' : sector (disk_put s b d) s' = if decide (s' = s) then b else sector d s'.
Proof.
  unfold sector. simpl. case_decide as E; [subst; by rewrite lookup_insert_eq|by rewrite lookup_insert_ne].
Qed.

Lemma disk_put_ok d s b : disk_ok d -> length b = 512%nat -> disk_ok (disk_put s b d).
Proof.
  intros H Hb. split; [apply H|]. simpl. intros s' b'. rewrite lookup_insert. case_decide; [naive_solver|apply H].
Qed.

Lemma wp_disk_read d s Q : disk_ok d -> s < capacity d -> Q (sector d s) d -> wp (disk_read s) d Q.
Proof.
  intros H Hs HQ. pose proof (dk_cap d H). apply wp_bind, wp_gets, wp_bind, wp_assert; [apply Z.ltb_lt; lia|].
  apply wp_bind, wp_assert; [apply Z.ltb_lt; lia|]. by apply wp_gets.
Qed.

Lemma wp_disk_write d s b Q : disk_ok d -> s < capacity d -> Q tt (disk_put s b d) -> wp (disk_write s b) d Q.
Proof.
  intros H Hs HQ. pose proof (dk_cap d H). apply wp_bind, wp_gets, wp_bind, wp_assert; [apply Z.ltb_lt; lia|].
  apply wp_bind, wp_assert; [apply Z.ltb_lt; lia|]. by apply wp_modify.
Qed.
