(* ===== verification/Ata.v ===== *)
(** * The disk driver: devices/disk.c

    The driver of the two ATA channels, over any hardware behind the ports
    (class [Ports]).  The kernel is seen from the thread that holds the lock
    of the channel: after every access to the hardware, and while the thread
    sleeps, an interrupt line that is asserted runs [interrupt_handler] at
    once, because the driver works with interrupts on; the hardware decides
    when it asserts a line.  A wait that no interrupt ends runs out of
    [patience].  Messages are not modelled. *)

From S2P Require Import Prelude CStdlib.

(** ** The hardware behind the ports

    [inb], [outb], [insw] and [outsw] of threads/io.h, the passing of a time in
    nanoseconds, and whether the line of an interrupt vector is asserted. *)
Class Ports (H : Type) := {
  port_in : Z -> H -> Z * H;
  port_out : Z -> Z -> H -> H;
  port_in_words : Z -> nat -> H -> list Z * H;
  port_out_words : Z -> list Z -> H -> H;
  pass_time : Z -> H -> H;
  line : Z -> H -> bool;
}.

(** ** Registers and commands *)
Definition STA_BSY : Z := 0x80.
Definition STA_DRDY : Z := 0x40.
Definition STA_DRQ : Z := 0x08.
Definition CTL_SRST : Z := 0x04.
Definition DEV_MBS : Z := 0xa0.
Definition DEV_LBA : Z := 0x40.
Definition DEV_DEV : Z := 0x10.
Definition CMD_IDENTIFY_DEVICE : Z := 0xec.
Definition CMD_READ_SECTOR_RETRY : Z := 0x20.
Definition CMD_WRITE_SECTOR_RETRY : Z := 0x30.
Definition CHANNEL_CNT : nat := 2.

(** ** The state *)
Record drive := mk_drive { dev_no : Z; is_ata : bool; drive_capacity : Z; read_cnt : Z; write_cnt : Z }.

(** [held]: the lock of the channel; [completion_wait]: the value of the
    semaphore. *)
Record channel := mk_channel {
  reg_base : Z; irq : Z; held : bool; expecting_interrupt : bool; completion_wait : Z; devices : list drive
}.

Record ide (H : Type) := mk_ide { hw : H; channels : list channel }.
Arguments mk_ide {H}.
Arguments hw {H}.
Arguments channels {H}.

Definition reg_data (c : channel) : Z := reg_base c + 0.
Definition reg_error (c : channel) : Z := reg_base c + 1.
Definition reg_nsect (c : channel) : Z := reg_base c + 2.
Definition reg_lbal (c : channel) : Z := reg_base c + 3.
Definition reg_lbam (c : channel) : Z := reg_base c + 4.
Definition reg_lbah (c : channel) : Z := reg_base c + 5.
Definition reg_device (c : channel) : Z := reg_base c + 6.
Definition reg_status (c : channel) : Z := reg_base c + 7.
Definition reg_command (c : channel) : Z := reg_status c.
Definition reg_ctl (c : channel) : Z := reg_base c + 0x206.
Definition reg_alt_status (c : channel) : Z := reg_ctl c.

Definition set_held (x : bool) (c : channel) : channel :=
  mk_channel (reg_base c) (irq c) x (expecting_interrupt c) (completion_wait c) (devices c).
Definition set_expecting (x : bool) (c : channel) : channel :=
  mk_channel (reg_base c) (irq c) (held c) x (completion_wait c) (devices c).
Definition set_completion (x : Z) (c : channel) : channel :=
  mk_channel (reg_base c) (irq c) (held c) (expecting_interrupt c) x (devices c).
Definition set_devices (x : list drive) (c : channel) : channel :=
  mk_channel (reg_base c) (irq c) (held c) (expecting_interrupt c) (completion_wait c) x.

(** A sector's bytes as 16-bit words, low byte first, and back. *)
Fixpoint words_of (l : list Z) : list Z :=
  match l with
  | a :: b :: l => a + 256 * b :: words_of l
  | _ => []
  end.
Fixpoint bytes_of (l : list Z) : list Z :=
  match l with
  | w :: l => w mod 256 :: w / 256 :: bytes_of l
  | [] => []
  end.

Section Driver.
Context {H : Type} `{Ports H} (patience : nat).
Implicit Types s : ide H.

(** A disk is a device of a channel; the pointers to both as their numbers. *)
Definition get_channel (i : nat) : ST (ide H) channel :=
  cs ← gets channels;
  match cs !! i with Some c => mret c | None => panic end.
Definition upd_channel (i : nat) (f : channel -> channel) : ST (ide H) unit :=
  c ← get_channel i;
  modify (fun s => mk_ide (hw s) (<[i := f c]> (channels s))).
Definition get_drive (i j : nat) : ST (ide H) drive :=
  c ← get_channel i;
  match devices c !! j with Some d => mret d | None => panic end.
Definition upd_drive (i j : nat) (f : drive -> drive) : ST (ide H) unit :=
  d ← get_drive i j;
  upd_channel i (fun c => set_devices (<[j := f d]> (devices c)) c).

Definition on_hw {A} (f : H -> A * H) : ST (ide H) A := fun s =>
  let (a, h) := f (hw s) in Ret (a, mk_ide h (channels s)).

(** ** Interrupts *)

(** The loop over the channels from number [i] on. *)
Fixpoint handler_loop (vec_no : Z) (n i : nat) : ST (ide H) unit :=
  match n with
  | O => panic
  | S n =>
    c ← get_channel i;
    if vec_no =? irq c then
      if expecting_interrupt c then
        on_hw (port_in (reg_status c));;
        upd_channel i (fun c => set_completion (completion_wait c + 1) c)
      else mret tt
    else handler_loop vec_no n (S i)
  end.
Definition interrupt_handler (vec_no : Z) : ST (ide H) unit := handler_loop vec_no CHANNEL_CNT 0.

(** The interrupts that are due, with interrupts on. *)
Definition take_interrupt (i : nat) : ST (ide H) unit :=
  c ← get_channel i;
  h ← gets hw;
  when (line (irq c) h) (interrupt_handler (irq c)).
Definition take_interrupts : ST (ide H) unit := take_interrupt 0;; take_interrupt 1.

Definition inb (port : Z) : ST (ide H) Z := x ← on_hw (port_in port); take_interrupts;; mret x.
Definition outb (port data : Z) : ST (ide H) unit := on_hw (fun h => (tt, port_out port data h));; take_interrupts.
Definition insw (port : Z) (cnt : nat) : ST (ide H) (list Z) := x ← on_hw (port_in_words port cnt); take_interrupts;; mret x.
Definition outsw (port : Z) (l : list Z) : ST (ide H) unit := on_hw (fun h => (tt, port_out_words port l h));; take_interrupts.
Definition timer_nsleep (ns : Z) : ST (ide H) unit := on_hw (fun h => (tt, pass_time ns h));; take_interrupts.
Definition timer_usleep (us : Z) : ST (ide H) unit := timer_nsleep (us * 1000).
Definition timer_msleep (ms : Z) : ST (ide H) unit := timer_nsleep (ms * 1000 * 1000).

(** ** Waiting *)
Definition lock_acquire (i : nat) : ST (ide H) unit :=
  c ← get_channel i;
  if held c then no_fuel else upd_channel i (set_held true).
Definition lock_release (i : nat) : ST (ide H) unit :=
  c ← get_channel i;
  ASSERT (held c);;
  upd_channel i (set_held false).

(** [sema_down (&c->completion_wait)]: other threads run for a while, until an
    interrupt raises the value. *)
Fixpoint sema_down (n i : nat) : ST (ide H) unit :=
  c ← get_channel i;
  if 0 <? completion_wait c then upd_channel i (fun c => set_completion (completion_wait c - 1) c)
  else
    match n with
    | O => no_fuel
    | S n => timer_nsleep 0;; sema_down n i
    end.

(** [n] is the number of turns that are left. *)
Fixpoint idle_loop (c : channel) (n : nat) : ST (ide H) unit :=
  match n with
  | O => mret tt
  | S n =>
    x ← inb (reg_status c);
    if Z.land x (Z.lor STA_BSY STA_DRQ) =? 0 then mret tt
    else timer_usleep 10;; idle_loop c n
  end.
Definition wait_until_idle (i j : nat) : ST (ide H) unit := c ← get_channel i; idle_loop c 1000.

Fixpoint busy_loop (c : channel) (n : nat) : ST (ide H) bool :=
  match n with
  | O => mret false
  | S n =>
    x ← inb (reg_alt_status c);
    if Z.land x STA_BSY =? 0 then
      y ← inb (reg_alt_status c);
      mret (negb (Z.land y STA_DRQ =? 0))
    else timer_msleep 10;; busy_loop c n
  end.
Definition wait_while_busy (i j : nat) : ST (ide H) bool := c ← get_channel i; busy_loop c 3000.

Definition select_device (i j : nat) : ST (ide H) unit :=
  c ← get_channel i; d ← get_drive i j;
  let dev := if dev_no d =? 1 then Z.lor DEV_MBS DEV_DEV else DEV_MBS in
  outb (reg_device c) dev;;
  inb (reg_alt_status c);;
  timer_nsleep 400.

Definition select_device_wait (i j : nat) : ST (ide H) unit :=
  wait_until_idle i j;; select_device i j;; wait_until_idle i j.

(** ** Commands *)

(** The registers take the low eight bits of what is written. *)
Definition select_sector (i j : nat) (sec_no : Z) : ST (ide H) unit :=
  c ← get_channel i; d ← get_drive i j;
  ASSERT (sec_no <? drive_capacity d);;
  ASSERT (sec_no <? 2 ^ 28);;
  select_device_wait i j;;
  outb (reg_nsect c) 1;;
  outb (reg_lbal c) (u8 sec_no);;
  outb (reg_lbam c) (u8 (Z.shiftr sec_no 8));;
  outb (reg_lbah c) (u8 (Z.shiftr sec_no 16));;
  outb (reg_device c) (u8 (Z.lor (Z.lor (Z.lor DEV_MBS DEV_LBA) (if dev_no d =? 1 then DEV_DEV else 0)) (Z.shiftr sec_no 24))).

(** The assertion that interrupts are on holds throughout. *)
Definition issue_pio_command (i : nat) (command : Z) : ST (ide H) unit :=
  c ← get_channel i;
  upd_channel i (set_expecting true);;
  outb (reg_command c) command.

Definition input_sector (i : nat) : ST (ide H) (list Z) := c ← get_channel i; insw (reg_data c) 256.
Definition output_sector (i : nat) (sector : list Z) : ST (ide H) unit := c ← get_channel i; outsw (reg_data c) sector.

(** ** Reading and writing *)
Definition disk_read (i j : nat) (sec_no : Z) : ST (ide H) (list Z) :=
  lock_acquire i;;
  select_sector i j sec_no;;
  issue_pio_command i CMD_READ_SECTOR_RETRY;;
  sema_down patience i;;
  ok ← wait_while_busy i j;
  ASSERT ok;;
  buffer ← input_sector i;
  upd_drive i j (fun d => mk_drive (dev_no d) (is_ata d) (drive_capacity d) (read_cnt d + 1) (write_cnt d));;
  lock_release i;;
  mret (bytes_of buffer).

Definition disk_write (i j : nat) (sec_no : Z) (buffer : list Z) : ST (ide H) unit :=
  lock_acquire i;;
  select_sector i j sec_no;;
  issue_pio_command i CMD_WRITE_SECTOR_RETRY;;
  ok ← wait_while_busy i j;
  ASSERT ok;;
  output_sector i (words_of buffer);;
  sema_down patience i;;
  upd_drive i j (fun d => mk_drive (dev_no d) (is_ata d) (drive_capacity d) (read_cnt d) (write_cnt d + 1));;
  lock_release i.

(** ** Detection *)

(** The test for the presence of a device; [&&] reads the second register only
    if the first one is as written. *)
Definition detect (i j : nat) : ST (ide H) bool :=
  c ← get_channel i;
  select_device i j;;
  outb (reg_nsect c) 0x55;; outb (reg_lbal c) 0xaa;;
  outb (reg_nsect c) 0xaa;; outb (reg_lbal c) 0x55;;
  outb (reg_nsect c) 0x55;; outb (reg_lbal c) 0xaa;;
  andM (x ← inb (reg_nsect c); mret (x =? 0x55)) (x ← inb (reg_lbal c); mret (x =? 0xaa)).

Fixpoint signature_loop (c : channel) (n : nat) : ST (ide H) unit :=
  match n with
  | O => mret tt
  | S n =>
    ok ← andM (x ← inb (reg_nsect c); mret (x =? 1)) (x ← inb (reg_lbal c); mret (x =? 1));
    if ok : bool then mret tt else timer_msleep 10;; signature_loop c n
  end.

Definition reset_channel (i : nat) : ST (ide H) unit :=
  c ← get_channel i;
  present0 ← detect i 0;
  present1 ← detect i 1;
  outb (reg_ctl c) 0;;
  timer_usleep 10;;
  outb (reg_ctl c) CTL_SRST;;
  timer_usleep 10;;
  outb (reg_ctl c) 0;;
  timer_msleep 150;;
  when present0 (select_device i 0;; wait_while_busy i 0;; mret tt);;
  when present1 (select_device i 1;; signature_loop c 3000;; wait_while_busy i 1;; mret tt).

Definition set_is_ata (x : bool) (d : drive) : drive := mk_drive (dev_no d) x (drive_capacity d) (read_cnt d) (write_cnt d).
Definition set_capacity (x : Z) (d : drive) : drive := mk_drive (dev_no d) (is_ata d) x (read_cnt d) (write_cnt d).

Definition check_device_type (i j : nat) : ST (ide H) bool :=
  c ← get_channel i; d ← get_drive i j;
  select_device i j;;
  error ← inb (reg_error c);
  lbam ← inb (reg_lbam c);
  lbah ← inb (reg_lbah c);
  status ← inb (reg_status c);
  if (negb (error =? 1) && (negb (error =? 0x81) || (dev_no d =? 1)))
     || (Z.land status STA_DRDY =? 0) || negb (Z.land status STA_BSY =? 0) then
    upd_drive i j (set_is_ata false);;
    mret (negb (error =? 0x81))
  else
    upd_drive i j (set_is_ata (((lbam =? 0) && (lbah =? 0)) || ((lbam =? 0x3c) && (lbah =? 0xc3))));;
    mret true.

(** [id]: the words of the response. *)
Definition identify_ata_device (i j : nat) : ST (ide H) unit :=
  d ← get_drive i j;
  ASSERT (is_ata d);;
  select_device_wait i j;;
  issue_pio_command i CMD_IDENTIFY_DEVICE;;
  sema_down patience i;;
  ok ← wait_while_busy i j;
  if negb ok then upd_drive i j (set_is_ata false)
  else
    id ← input_sector i;
    upd_drive i j (set_capacity (Z.lor (nth 60 id 0) (u32 (Z.shiftl (nth 61 id 0) 16)))).

(** [channels] gets its initial contents; its place is statically allocated. *)
Definition new_channel (i : nat) : channel :=
  mk_channel (if decide (i = 0%nat) then 0x1f0 else 0x170) (if decide (i = 0%nat) then 14 + 0x20 else 15 + 0x20) false false 0
    [mk_drive 0 false 0 0 0; mk_drive 1 false 0 0 0].

Definition init_channel (i : nat) : ST (ide H) unit :=
  upd_channel i (fun _ => new_channel i);;
  reset_channel i;;
  b ← check_device_type i 0;
  when b (check_device_type i 1;; mret tt);;
  d ← get_drive i 0; when (is_ata d) (identify_ata_device i 0);;
  d ← get_drive i 1; when (is_ata d) (identify_ata_device i 1).

Definition disk_init : ST (ide H) unit := init_channel 0;; init_channel 1.

Definition disk_get (chan_no dev_no : Z) : ST (ide H) (option (nat * nat)) :=
  ASSERT ((dev_no =? 0) || (dev_no =? 1));;
  if chan_no <? CHANNEL_CNT then
    d ← get_drive (Z.to_nat chan_no) (Z.to_nat dev_no);
    mret (if is_ata d then Some (Z.to_nat chan_no, Z.to_nat dev_no) else None)
  else mret None.

Definition disk_size (i j : nat) : ST (ide H) Z := d ← get_drive i j; mret (drive_capacity d).
End Driver.

(** ** The strings of an identification

    Pairs of bytes in reverse order.  The length without trailing blanks: *)
Fixpoint ata_length (string : list Z) (size : nat) : nat :=
  match size with
  | O => O
  | S n => let c := nth (Z.to_nat (Z.lxor n 1)) string 0 in
    if negb (c =? 0) && negb (isspace c) then size else ata_length string n
  end.

(** What [print_ata_string] prints. *)
Definition print_ata_string (string : list Z) (size : nat) : list Z :=
  map (fun i : nat => nth (Z.to_nat (Z.lxor i 1)) string 0) (seq 0 (ata_length string size)).
