(* ===== verification/AtaProps.v ===== *)
(** * The disk driver: ATA devices and the theorems

    A bus with up to two ATA disks as the standard describes it, seen through
    the registers: how long a command takes is any number of steps.  The
    driver on such buses does what Disk.v promises to the rest of the kernel. *)

From S2P Require Import Prelude Disk Ata.

(** ** Words and bytes *)
Lemma bytes_of_words l n : length l = (2 * n)%nat -> Forall is_u8 l -> bytes_of (words_of l) = l.
Proof.
  revert l. induction n as [|n IH]; intros l Hl Hb.
  - by destruct l.
  - destruct l as [|a [|b l]]; [simpl in Hl; lia..|]. apply Forall_cons in Hb as [Ha Hb]. apply Forall_cons in Hb as [Hb Hl'].
    cbn [words_of bytes_of]. rewrite IH by (simpl in Hl; lia || done). unfold is_u8 in *. f_equal; [|f_equal]; Z.to_euclidean_division_equations; lia.
Qed.

Lemma words_length l n : length l = (2 * n)%nat -> length (words_of l) = n.
Proof.
  revert l. induction n as [|n IH]; intros l Hl; [by destruct l|]. destruct l as [|a [|b l]]; [simpl in Hl; lia..|].
  cbn [words_of length]. f_equal. apply IH. simpl in Hl. lia.
Qed.

(** ** A bus *)

(** A disk and the words of its identification. *)
Record device := mk_device { dev_disk : disk; dev_id : list Z }.

(** What a busy device works on. *)
Inductive work := Reading (j : nat) (sec : Z) | Preparing (j : nat) (sec : Z) | Storing (j : nat) (sec : Z) (l : list Z) | Identifying (j : nat) | Resetting.

(** Busy for a number of steps, offering or expecting data, or held in reset. *)
Inductive phase := Idle | Busy (n : nat) (w : work) | DataIn (l : list Z) | DataOut (j : nat) (sec : Z) | Held.

(** [lags]: how long the next commands will take. *)
Record bus := mk_bus {
  dev0 : option device; dev1 : option device;
  r_error : Z; r_nsect : Z; r_lbal : Z; r_lbam : Z; r_lbah : Z; r_device : Z;
  ph : phase; intrq : bool; lags : list nat
}.

Definition dev_at (j : nat) (b : bus) : option device := if decide (j = 0%nat) then dev0 b else dev1 b.
Definition selected (b : bus) : nat := if Z.testbit (r_device b) 4 then 1 else 0.
Definition lba (b : bus) : Z := r_lbal b + 2 ^ 8 * r_lbam b + 2 ^ 16 * r_lbah b + 2 ^ 24 * (r_device b mod 16).

Definition set_phase (p : phase) (b : bus) : bus :=
  mk_bus (dev0 b) (dev1 b) (r_error b) (r_nsect b) (r_lbal b) (r_lbam b) (r_lbah b) (r_device b) p (intrq b) (lags b).
Definition set_intrq (x : bool) (b : bus) : bus :=
  mk_bus (dev0 b) (dev1 b) (r_error b) (r_nsect b) (r_lbal b) (r_lbam b) (r_lbah b) (r_device b) (ph b) x (lags b).
Definition set_dev (j : nat) (d : device) (b : bus) : bus :=
  mk_bus (if decide (j = 0%nat) then Some d else dev0 b) (if decide (j = 0%nat) then dev1 b else Some d)
    (r_error b) (r_nsect b) (r_lbal b) (r_lbam b) (r_lbah b) (r_device b) (ph b) (intrq b) (lags b).
Definition start (w : work) (b : bus) : bus :=
  mk_bus (dev0 b) (dev1 b) (r_error b) (r_nsect b) (r_lbal b) (r_lbam b) (r_lbah b) (r_device b)
    (Busy (default 0%nat (head (lags b))) w) (intrq b) (tail (lags b)).

(** The end of a piece of work; an interrupt announces data to read and the
    end of a write. *)
Definition finish (w : work) (b : bus) : bus :=
  match w with
  | Reading j s => match dev_at j b with Some d => set_intrq true (set_phase (DataIn (words_of (sector (dev_disk d) s))) b) | None => set_phase Idle b end
  | Preparing j s => set_phase (DataOut j s) b
  | Storing j s l =>
    match dev_at j b with
    | Some d => set_intrq true (set_phase Idle (set_dev j (mk_device (disk_put s (bytes_of l) (dev_disk d)) (dev_id d)) b))
    | None => set_phase Idle b
    end
  | Identifying j => match dev_at j b with Some d => set_intrq true (set_phase (DataIn (dev_id d)) b) | None => set_phase Idle b end
  | Resetting => mk_bus (dev0 b) (dev1 b) 1 1 1 0 0 0 Idle (intrq b) (lags b)
  end.

(** One step of time. *)
Definition tick (b : bus) : bus :=
  match ph b with
  | Busy O w => finish w b
  | Busy (S n) w => set_phase (Busy n w) b
  | _ => b
  end.

Definition status (b : bus) : Z :=
  match ph b with Busy _ _ | Held => STA_BSY | DataIn _ | DataOut _ _ => Z.lor STA_DRDY STA_DRQ | Idle => STA_DRDY end.

(** The registers as they read: without any device the lines float, and a
    missing device has status 0. *)
Definition read_reg (r : Z) (b : bus) : Z :=
  match dev0 b, dev1 b with
  | None, None => 0xff
  | _, _ =>
    if r =? 1 then r_error b else if r =? 2 then r_nsect b else if r =? 3 then r_lbal b
    else if r =? 4 then r_lbam b else if r =? 5 then r_lbah b else if r =? 6 then r_device b
    else match dev_at (selected b) b with Some _ => status b | None => 0 end
  end.

(** Reading the status register, not the alternate one, clears the interrupt. *)
Definition bus_in (r : Z) (b : bus) : Z * bus :=
  let b := tick b in (read_reg r b, if r =? 7 then set_intrq false b else b).

Definition abort (b : bus) : bus :=
  mk_bus (dev0 b) (dev1 b) 4 (r_nsect b) (r_lbal b) (r_lbam b) (r_lbah b) (r_device b) Idle true (lags b).

(** A command to the selected device, if there is one. *)
Definition command (x : Z) (b : bus) : bus :=
  let j := selected b in
  match dev_at j b with
  | None => b
  | Some d =>
    let valid := Z.testbit (r_device b) 6 && (lba b <? capacity (dev_disk d)) in
    if x =? CMD_READ_SECTOR_RETRY then if valid then start (Reading j (lba b)) b else abort b
    else if x =? CMD_WRITE_SECTOR_RETRY then if valid then start (Preparing j (lba b)) b else abort b
    else if x =? CMD_IDENTIFY_DEVICE then start (Identifying j) b
    else abort b
  end.

Definition write_reg (r x : Z) (b : bus) : bus :=
  mk_bus (dev0 b) (dev1 b) (r_error b) (if r =? 2 then x else r_nsect b) (if r =? 3 then x else r_lbal b)
    (if r =? 4 then x else r_lbam b) (if r =? 5 then x else r_lbah b) (if r =? 6 then x else r_device b) (ph b) (intrq b) (lags b).

(** The control register holds the devices in reset, which selects device 0;
    a device that is not idle accepts nothing else. *)
Definition bus_out (r x : Z) (b : bus) : bus :=
  let b := tick b in
  if r =? 0x206 then
    match dev0 b, dev1 b with
    | None, None => b
    | _, _ =>
      if Z.testbit x 2 then set_intrq false (set_phase Held (write_reg 6 0 b))
      else match ph b with Held => start Resetting b | _ => b end
    end
  else
    match ph b with
    | Idle => if r =? 7 then command x b else write_reg r x b
    | _ => b
    end.

Definition bus_in_words (n : nat) (b : bus) : list Z * bus :=
  let b := tick b in
  match ph b with
  | DataIn l => (take n l, set_phase (if (length l <=? n)%nat then Idle else DataIn (drop n l)) b)
  | _ => (replicate n 0xffff, b)
  end.

Definition bus_out_words (l : list Z) (b : bus) : bus :=
  let b := tick b in
  match ph b with
  | DataOut j s => if bool_decide (length l = 256%nat) then start (Storing j s l) b else b
  | _ => b
  end.

(** ** Two buses behind the ports *)
Record hardware := mk_hardware { bus0 : bus; bus1 : bus }.
Definition bus_at (i : nat) (h : hardware) : bus := if decide (i = 0%nat) then bus0 h else bus1 h.
Definition put_bus (i : nat) (b : bus) (h : hardware) : hardware :=
  if decide (i = 0%nat) then mk_hardware b (bus1 h) else mk_hardware (bus0 h) b.

(** The bus and the register that a port belongs to. *)
Definition decode_port (port : Z) : option (nat * Z) :=
  if (0x1f0 <=? port) && (port <=? 0x1f7) || (port =? 0x3f6) then Some (0%nat, port - 0x1f0)
  else if (0x170 <=? port) && (port <=? 0x177) || (port =? 0x376) then Some (1%nat, port - 0x170)
  else None.

#[export] Instance hardware_ports : Ports hardware := {
  port_in port h := match decode_port port with
                    | Some (i, r) => let (x, b) := bus_in r (bus_at i h) in (x, put_bus i b h)
                    | None => (0xff, h) end;
  port_out port x h := match decode_port port with Some (i, r) => put_bus i (bus_out r x (bus_at i h)) h | None => h end;
  port_in_words port n h := match decode_port port with
                            | Some (i, _) => let (l, b) := bus_in_words n (bus_at i h) in (l, put_bus i b h)
                            | None => (replicate n 0xffff, h) end;
  port_out_words port l h := match decode_port port with Some (i, _) => put_bus i (bus_out_words l (bus_at i h)) h | None => h end;
  pass_time _ h := mk_hardware (tick (bus0 h)) (tick (bus1 h));
  line v h := if v =? 14 + 0x20 then intrq (bus0 h) else if v =? 15 + 0x20 then intrq (bus1 h) else false;
}.

(** ** The driver on one channel

    Channel [i] with its bus, beside the other channel, whose bus is quiet. *)
Definition base_of (i : nat) : Z := if decide (i = 0%nat) then 0x1f0 else 0x170.
Definition vec_of (i : nat) : Z := if decide (i = 0%nat) then 14 + 0x20 else 15 + 0x20.

Definition quiet (b : bus) : Prop := ph b = Idle /\ intrq b = false.
Definition wired (i : nat) (c : channel) : Prop := reg_base c = base_of i /\ irq c = vec_of i.
Definition is_reg (r : Z) : Prop := 0 <= r <= 7 \/ r = 0x206.

Lemma decode_reg i r : (i < 2)%nat -> is_reg r -> decode_port (base_of i + r) = Some (i, r).
Proof.
  intros Hi Hr. unfold decode_port, base_of, is_reg in *. destruct i as [|[|]]; [| |lia]; cbn [decide decide_rel Nat.eq_dec nat_rec nat_rect].
  all: repeat (case_decide; try lia).
  all: repeat match goal with |- context [Z.leb ?a ?b] => destruct (Z.leb_spec a b) | |- context [Z.eqb ?a ?b] => destruct (Z.eqb_spec a b) end;
    cbn [andb orb]; first [lia | do 2 f_equal; lia].
Qed.

(** ** A quiet bus *)
Definition some_dev (b : bus) : Prop := is_Some (dev0 b) \/ is_Some (dev1 b).

Lemma tick_quiet b : quiet b -> tick b = b.
Proof. intros [Hp _]. unfold tick. by rewrite Hp. Qed.

Lemma set_intrq_same b : set_intrq (intrq b) b = b.
Proof. by destruct b. Qed.

Lemma quiet_in r b : quiet b -> bus_in r b = (read_reg r b, b).
Proof.
  intros Hq. unfold bus_in. rewrite tick_quiet by done. f_equal. destruct (r =? 7); [|done]. destruct Hq as [_ Hi].
  rewrite <- Hi at 1. apply set_intrq_same.
Qed.

Lemma quiet_out r x b : quiet b -> r <> 7 -> r <> 0x206 -> bus_out r x b = write_reg r x b.
Proof.
  intros Hq H7 H6. unfold bus_out. rewrite tick_quiet by done. destruct (Z.eqb_spec r 0x206); [done|]. rewrite (proj1 Hq). by destruct (Z.eqb_spec r 7).
Qed.

Lemma quiet_write r x b : quiet b -> quiet (write_reg r x b).
Proof. done. Qed.
#[local] Hint Resolve quiet_write : core.

(** A status that has been read, for a bus that has a device. *)
Lemma read_status r b : some_dev b -> r = 7 \/ r = 0x206 -> read_reg r b = match dev_at (selected b) b with Some _ => status b | None => 0 end.
Proof.
  intros Hd Hr. unfold read_reg. assert (Hn : dev0 b <> None \/ dev1 b <> None) by (destruct Hd as [[? ->]|[? ->]]; auto).
  destruct Hr as [-> | ->]; destruct (dev0 b), (dev1 b); tauto.
Qed.

Lemma some_dev_at j b : is_Some (dev_at j b) -> some_dev b.
Proof. unfold dev_at, some_dev. case_decide; auto. Qed.

Lemma quiet_status b : some_dev b -> quiet b -> Z.land (read_reg 7 b) (Z.lor STA_BSY STA_DRQ) = 0.
Proof. intros Hd [Hp _]. rewrite read_status by auto. unfold status. rewrite Hp. by destruct (dev_at _ b). Qed.

Lemma finish_phase w p b : finish w (set_phase p b) = finish w b.
Proof. by destruct w. Qed.

(** The end of this work is announced by an interrupt. *)
Definition announced (w : work) (b : bus) : Prop := intrq (finish w b) = true /\ tick (finish w b) = finish w b.

Section Channel.
Context (i : nat) (Hi : (i < 2)%nat) (b' : bus) (c' : channel).
Context (Hq : quiet b') (Hw' : irq c' = vec_of (1 - i) \/ irq c' = 0).

Definition st (b : bus) (c : channel) : ide hardware :=
  if decide (i = 0%nat) then mk_ide (mk_hardware b b') [c; c'] else mk_ide (mk_hardware b' b) [c'; c].

(** The state after an access: an interrupt that is due has been handled. *)
Definition settle (b : bus) (c : channel) : ide hardware :=
  if intrq b && expecting_interrupt c then st (bus_in 7 b).2 (set_completion (completion_wait c + 1) c) else st b c.

Lemma get_channel_run b c : get_channel i (st b c) = Ret (c, st b c).
Proof using Hi. clear Hw'. unfold st. by destruct i as [|[|]]; [..|lia]. Qed.

Lemma upd_channel_run f b c : upd_channel i f (st b c) = Ret (tt, st b (f c)).
Proof using Hi. clear Hw'. unfold st. by destruct i as [|[|]]; [..|lia]. Qed.

Lemma get_drive_run j b c d : devices c !! j = Some d -> get_drive i j (st b c) = Ret (d, st b c).
Proof using Hi. intros Hd. unfold get_drive. rewrite (bind_run _ _ _ _ _ (get_channel_run b c)). by rewrite Hd. Qed.

Lemma upd_drive_run j f b c d : devices c !! j = Some d -> upd_drive i j f (st b c) = Ret (tt, st b (set_devices (<[j := f d]> (devices c)) c)).
Proof using Hi. intros Hd. unfold upd_drive. rewrite (bind_run _ _ _ _ _ (get_drive_run j b c d Hd)). exact (upd_channel_run (fun c => set_devices (<[j := f d]> (devices c)) c) b c). Qed.

Lemma get_other_run b c : get_channel (1 - i) (st b c) = Ret (c', st b c).
Proof using Hi. clear Hw'. unfold st. by destruct i as [|[|]]; [..|lia]. Qed.

Lemma line_self b c : line (vec_of i) (hw (st b c)) = intrq b.
Proof using Hi. clear Hw'. unfold st, vec_of. by destruct i as [|[|]]; [..|lia]. Qed.

Lemma line_other b c : line (irq c') (hw (st b c)) = false.
Proof using Hi Hq Hw'.
  destruct Hq as [_ Hl]. revert Hw'. unfold st, vec_of. destruct i as [|[|]]; [..|lia]; intros [-> | ->]; cbn; done.
Qed.

Lemma vec_ne : vec_of i <> irq c'.
Proof using Hi Hw'. revert Hw'. unfold vec_of. destruct i as [|[|]]; [..|lia]; intros [-> | ->]; cbn; done. Qed.

Lemma port_in_run r b c : wired i c -> is_reg r ->
  on_hw (port_in (reg_base c + r)) (st b c) = Ret ((bus_in r b).1, st (bus_in r b).2 c).
Proof using Hi.
  clear Hw'. intros [Hb _] Hr. unfold on_hw, st. cbn [port_in hardware_ports]. rewrite Hb, decode_reg by done.
  by destruct i as [|[|]]; [..|lia].
Qed.

Lemma handler_found n b c : wired i c ->
  (if vec_of i =? irq c then
     if expecting_interrupt c then on_hw (port_in (reg_status c));; upd_channel i (fun c => set_completion (completion_wait c + 1) c) else mret tt
   else handler_loop (vec_of i) n (S i)) (st b c) =
  Ret (tt, if expecting_interrupt c then st (bus_in 7 b).2 (set_completion (completion_wait c + 1) c) else st b c).
Proof using Hi.
  intros Hw. destruct Hw as [Hb Hv]. rewrite Hv, Z.eqb_refl. destruct (expecting_interrupt c); [|done].
  rewrite (bind_run _ _ _ _ _ (port_in_run 7 b c (conj Hb Hv) ltac:(by left))). apply (upd_channel_run (fun c => set_completion (completion_wait c + 1) c)).
Qed.

Lemma handler_run b c : wired i c -> interrupt_handler (vec_of i) (st b c) =
  Ret (tt, if expecting_interrupt c then st (bus_in 7 b).2 (set_completion (completion_wait c + 1) c) else st b c).
Proof using Hi Hw'.
  intros Hw. unfold interrupt_handler, CHANNEL_CNT. cbn [handler_loop]. destruct (decide (i = 0%nat)) as [E|E].
  - rewrite <- E at 1. rewrite (bind_run _ _ _ _ _ (get_channel_run b c)).
    rewrite <- (handler_found 1 b c Hw), E. done.
  - assert (E1 : i = 1%nat) by lia. replace (get_channel 0) with (get_channel (H := hardware) (1 - i)) by (by rewrite E1).
    rewrite (bind_run _ _ _ _ _ (get_other_run b c)).
    destruct (Z.eqb_spec (vec_of i) (irq c')) as [Hx|_]; [by apply vec_ne in Hx|].
    rewrite <- E1 at 1. rewrite (bind_run _ _ _ _ _ (get_channel_run b c)). rewrite <- (handler_found 0 b c Hw). by rewrite E1.
Qed.

Lemma take_self b c : wired i c -> take_interrupt i (st b c) = Ret (tt, settle b c).
Proof using Hi Hw'.
  intros Hw. unfold take_interrupt, settle. rewrite (bind_run _ _ _ _ _ (get_channel_run b c)).
  rewrite (bind_run (gets hw) _ _ (hw (st b c)) (st b c)) by done. rewrite (proj2 Hw), line_self.
  destruct (intrq b); [|done]. cbn [when andb]. by apply handler_run.
Qed.

Lemma take_other b c : take_interrupt (1 - i) (st b c) = Ret (tt, st b c).
Proof using Hi Hq Hw'.
  unfold take_interrupt. rewrite (bind_run _ _ _ _ _ (get_other_run b c)). rewrite (bind_run (gets hw) _ _ (hw (st b c)) (st b c)) by done.
  by rewrite line_other.
Qed.

Lemma settle_st b c : exists b1 c1, settle b c = st b1 c1.
Proof using. unfold settle. destruct (_ && _); eauto. Qed.

Lemma take_run b c : wired i c -> take_interrupts (st b c) = Ret (tt, settle b c).
Proof using Hi Hq Hw'.
  intros Hw. unfold take_interrupts. destruct (decide (i = 0%nat)) as [E|E].
  - rewrite <- E at 1. rewrite (bind_run _ _ _ _ _ (take_self b c Hw)). destruct (settle_st b c) as (b1 & c1 & ->).
    replace (take_interrupt 1) with (take_interrupt (H := hardware) (1 - i)) by (f_equal; lia). apply take_other.
  - replace (take_interrupt 0) with (take_interrupt (H := hardware) (1 - i)) by (f_equal; lia). rewrite (bind_run _ _ _ _ _ (take_other b c)).
    replace (take_interrupt 1) with (take_interrupt (H := hardware) i) by (f_equal; lia). by apply take_self.
Qed.

Lemma inb_run r b c : wired i c -> is_reg r -> inb (reg_base c + r) (st b c) = Ret ((bus_in r b).1, settle (bus_in r b).2 c).
Proof using Hi Hq Hw'.
  intros Hw Hr. unfold inb. rewrite (bind_run _ _ _ _ _ (port_in_run r b c Hw Hr)). by rewrite (bind_run _ _ _ _ _ (take_run _ c Hw)).
Qed.

Lemma outb_run r x b c : wired i c -> is_reg r -> outb (reg_base c + r) x (st b c) = Ret (tt, settle (bus_out r x b) c).
Proof using Hi Hq Hw'.
  intros Hw Hr. unfold outb. rewrite (bind_run (on_hw _) _ _ tt (st (bus_out r x b) c)); [by apply take_run|].
  clear Hw'. destruct Hw as [Hb _]. unfold on_hw, st. cbn [port_out hardware_ports]. rewrite Hb, decode_reg by done. by destruct i as [|[|]]; [..|lia].
Qed.

Lemma insw_run n b c : wired i c -> insw (reg_base c + 0) n (st b c) = Ret ((bus_in_words n b).1, settle (bus_in_words n b).2 c).
Proof using Hi Hq Hw'.
  intros Hw. unfold insw. rewrite (bind_run (on_hw _) _ _ (bus_in_words n b).1 (st (bus_in_words n b).2 c)); [by rewrite (bind_run _ _ _ _ _ (take_run _ c Hw))|].
  clear Hw'. destruct Hw as [Hb _]. unfold on_hw, st. cbn [port_in_words hardware_ports]. rewrite Hb, decode_reg by (done || by left).
  unfold bus_at, put_bus. destruct i as [|[|]]; [..|lia]; case_decide; try done; cbn [hw bus0 bus1 channels]; by destruct (bus_in_words n b).
Qed.

Lemma outsw_run l b c : wired i c -> outsw (reg_base c + 0) l (st b c) = Ret (tt, settle (bus_out_words l b) c).
Proof using Hi Hq Hw'.
  intros Hw. unfold outsw. rewrite (bind_run (on_hw _) _ _ tt (st (bus_out_words l b) c)); [by apply take_run|].
  clear Hw'. destruct Hw as [Hb _]. unfold on_hw, st. cbn [port_out_words hardware_ports]. rewrite Hb, decode_reg by (done || by left). by destruct i as [|[|]]; [..|lia].
Qed.

Lemma nsleep_run t b c : wired i c -> timer_nsleep t (st b c) = Ret (tt, settle (tick b) c).
Proof using Hi Hq Hw'.
  intros Hw. unfold timer_nsleep. rewrite (bind_run (on_hw _) _ _ tt (st (tick b) c)); [by apply take_run|].
  assert (Ht : tick b' = b') by (unfold tick; by rewrite (proj1 Hq)). clear Hw'. unfold on_hw, st.
  destruct i as [|[|]]; [..|lia]; case_decide; try done; cbn; by rewrite Ht.
Qed.

(** *** Waiting *)
Lemma settle_low b c : intrq b = false -> settle b c = st b c.
Proof using. unfold settle. by intros ->. Qed.

Lemma idle_loop_run n b c : wired i c -> some_dev b -> quiet b -> idle_loop c (S n) (st b c) = Ret (tt, st b c).
Proof using Hi Hq Hw'.
  intros Hw Hd Hb. cbn [idle_loop]. unfold reg_status. rewrite (bind_run _ _ _ _ _ (inb_run 7 b c Hw ltac:(by left))).
  rewrite quiet_in by done. cbn [fst snd]. rewrite settle_low by apply Hb. by rewrite quiet_status.
Qed.

Lemma wait_until_idle_run j b c : wired i c -> some_dev b -> quiet b -> wait_until_idle i j (st b c) = Ret (tt, st b c).
Proof using Hi Hq Hw'.
  intros Hw Hd Hb. unfold wait_until_idle. rewrite (bind_run _ _ _ _ _ (get_channel_run b c)). by apply idle_loop_run.
Qed.

Definition dev_bits (j : nat) : Z := if decide (j = 0%nat) then 0xa0 else 0xb0.

Lemma select_device_run (j : nat) b c d : wired i c -> quiet b -> devices c !! j = Some d -> dev_no d = j -> (j < 2)%nat ->
  select_device i j (st b c) = Ret (tt, st (write_reg 6 (dev_bits j) b) c).
Proof using Hi Hq Hw'.
  intros Hw Hb Hd Hn Hj. unfold select_device. rewrite (bind_run _ _ _ _ _ (get_channel_run b c)), (bind_run _ _ _ _ _ (get_drive_run j b c d Hd)).
  replace (if dev_no d =? 1 then Z.lor DEV_MBS DEV_DEV else DEV_MBS) with (dev_bits j) by (rewrite Hn; by destruct j as [|[|]]; [..|lia]).
  unfold reg_device, reg_alt_status, reg_ctl. rewrite (bind_run _ _ _ _ _ (outb_run 6 (dev_bits j) b c Hw ltac:(by left))).
  rewrite quiet_out by done. rewrite settle_low by apply Hb. rewrite (bind_run _ _ _ _ _ (inb_run 0x206 _ c Hw ltac:(by right))).
  rewrite quiet_in by auto. cbn [fst snd]. rewrite settle_low by apply Hb. rewrite nsleep_run by done. rewrite tick_quiet by auto. by rewrite settle_low by apply Hb.
Qed.

Lemma select_device_wait_run (j : nat) b c d : wired i c -> some_dev b -> quiet b -> devices c !! j = Some d -> dev_no d = j -> (j < 2)%nat ->
  select_device_wait i j (st b c) = Ret (tt, st (write_reg 6 (dev_bits j) b) c).
Proof using Hi Hq Hw'.
  intros Hw Hs Hb Hd Hn Hj. unfold select_device_wait. rewrite (bind_run _ _ _ _ _ (wait_until_idle_run j b c Hw Hs Hb)).
  rewrite (bind_run _ _ _ _ _ (select_device_run j b c d Hw Hb Hd Hn Hj)). apply wait_until_idle_run; [done|exact Hs|auto].
Qed.

(** Sleeping on the semaphore until the work is done. *)
Lemma sema_down_run n p w b c : wired i c -> ph b = Busy n w -> intrq b = false -> announced w b ->
  expecting_interrupt c = true -> completion_wait c = 0 -> (n < p)%nat ->
  sema_down p i (st b c) = Ret (tt, st (set_intrq false (finish w b)) c).
Proof using Hi Hq Hw'.
  intros Hw. revert n b. induction p as [|p IH]; intros n b Hp Hl [Ha Ht] He Hc Hn; [lia|].
  cbn [sema_down]. rewrite (bind_run _ _ _ _ _ (get_channel_run b c)). rewrite Hc. change (0 <? 0) with false. cbn iota.
  rewrite (bind_run _ _ _ _ _ (nsleep_run 0 b c Hw)). unfold tick at 1. rewrite Hp. destruct n as [|n].
  - unfold settle. rewrite Ha, He. cbn [andb]. unfold bus_in. rewrite Ht. cbn [snd Z.eqb Pos.eqb].
    set (c1 := set_completion (completion_wait c + 1) c). destruct p as [|p].
    + cbn [sema_down]. rewrite (bind_run _ _ _ _ _ (get_channel_run _ c1)). unfold c1 at 1. cbn [completion_wait set_completion]. rewrite Hc. change (0 <? 0 + 1) with true. cbn iota.
      rewrite (upd_channel_run (fun c => set_completion (completion_wait c - 1) c)). do 3 f_equal. unfold c1. destruct c; cbn in *. by subst.
    + cbn [sema_down]. rewrite (bind_run _ _ _ _ _ (get_channel_run _ c1)). unfold c1 at 1. cbn [completion_wait set_completion]. rewrite Hc. change (0 <? 0 + 1) with true. cbn iota.
      rewrite (upd_channel_run (fun c => set_completion (completion_wait c - 1) c)). do 3 f_equal. unfold c1. destruct c; cbn in *. by subst.
  - rewrite settle_low by done. rewrite (IH n) by (done || (unfold announced; by rewrite finish_phase) || lia). by rewrite finish_phase.
Qed.

(** A device that is not busy, and whether it offers or wants data. *)
Definition ready_status (q : bool) : Z := if q then Z.lor STA_DRDY STA_DRQ else STA_DRDY.
Record ready (q : bool) (b : bus) : Prop := {
  rd_dev : is_Some (dev_at (selected b) b);
  rd_status : status b = ready_status q;
  rd_intrq : intrq b = false;
  rd_tick : tick b = b;
}.

Lemma ready_read q b : ready q b -> bus_in 0x206 b = (ready_status q, b).
Proof using.
  intros [[dv Hd] Hs _ Ht]. unfold bus_in. rewrite Ht. cbn [Z.eqb Pos.eqb].
  rewrite read_status by (auto || (apply (some_dev_at (selected b)); by exists dv)). by rewrite Hd, Hs.
Qed.

Lemma drq_run q b c : wired i c -> ready q b ->
  (y ← inb (reg_base c + 0x206); mret (negb (Z.land y STA_DRQ =? 0))) (st b c) = Ret (q, st b c).
Proof using Hi Hq Hw'.
  intros Hw Hr. rewrite (bind_run _ _ _ _ _ (inb_run 0x206 b c Hw ltac:(by right))). rewrite (ready_read q) by done.
  cbn [fst snd]. rewrite settle_low by apply Hr. by destruct q.
Qed.

Lemma ready_not_busy q : Z.land (ready_status q) STA_BSY =? 0 = true.
Proof using. by destruct q. Qed.

Lemma busy_loop_ready k q b c : wired i c -> ready q b -> busy_loop c (S k) (st b c) = Ret (q, st b c).
Proof using Hi Hq Hw'.
  intros Hw Hr. cbn [busy_loop]. unfold reg_alt_status, reg_ctl. rewrite (bind_run _ _ _ _ _ (inb_run 0x206 b c Hw ltac:(by right))).
  rewrite (ready_read q) by done. cbn [fst snd]. rewrite settle_low by apply Hr. rewrite ready_not_busy. by apply drq_run.
Qed.

(** Polling until the work is done. *)
Lemma busy_loop_run k n w q b c : wired i c -> is_Some (dev_at (selected b) b) -> ph b = Busy n w -> intrq b = false -> ready q (finish w b) -> (n < k)%nat ->
  busy_loop c k (st b c) = Ret (q, st (finish w b) c).
Proof using Hi Hq Hw'.
  intros Hw. revert n b. induction k as [|k IH]; intros n b Hd Hp Hl Hr Hn; [lia|].
  cbn [busy_loop]. unfold reg_alt_status, reg_ctl. rewrite (bind_run _ _ _ _ _ (inb_run 0x206 b c Hw ltac:(by right))).
  destruct n as [|n].
  - assert (E : bus_in 0x206 b = (ready_status q, finish w b)).
    { rewrite <- (ready_read q) by done. unfold bus_in. rewrite (rd_tick _ _ Hr). unfold tick. by rewrite Hp. }
    rewrite E. cbn [fst snd]. rewrite settle_low by apply Hr. rewrite ready_not_busy. by apply drq_run.
  - set (b1 := set_phase (Busy n w) b).
    assert (E : bus_in 0x206 b = (STA_BSY, b1)).
    { unfold bus_in, tick. rewrite Hp. cbn [Z.eqb Pos.eqb]. fold b1. destruct Hd as [dv Hd].
      rewrite read_status by (auto || (apply (some_dev_at (selected b)); by exists dv)). change (dev_at (selected b1) b1) with (dev_at (selected b) b). by rewrite Hd. }
    rewrite E. cbn [fst snd]. rewrite settle_low by done. change (Z.land STA_BSY STA_BSY =? 0) with false. cbn iota.
    unfold timer_msleep. rewrite (bind_run _ _ _ _ _ (nsleep_run _ b1 c Hw)). unfold tick. cbn [ph b1 set_phase]. destruct n as [|n].
    + unfold b1. rewrite finish_phase. rewrite settle_low by apply Hr. destruct k as [|k]; [lia|]. by apply busy_loop_ready.
    + rewrite settle_low by done. rewrite (IH n) by (done || (unfold b1; by rewrite !finish_phase) || lia). unfold b1. by rewrite !finish_phase.
Qed.

Lemma wait_ready_run q j b c : wired i c -> ready q b -> wait_while_busy i j (st b c) = Ret (q, st b c).
Proof using Hi Hq Hw'.
  intros Hw Hr. unfold wait_while_busy. rewrite (bind_run _ _ _ _ _ (get_channel_run b c)). change 3000%nat with (S 2999). by apply busy_loop_ready.
Qed.

Lemma wait_done_run n w q j b c : wired i c -> is_Some (dev_at (selected b) b) -> ph b = Busy n w -> intrq b = false -> ready q (finish w b) -> (n < 3000)%nat ->
  wait_while_busy i j (st b c) = Ret (q, st (finish w b) c).
Proof using Hi Hq Hw'.
  intros Hw Hd Hp Hl Hr Hn. unfold wait_while_busy. rewrite (bind_run _ _ _ _ _ (get_channel_run b c)). by apply (busy_loop_run 3000 n).
Qed.

Lemma input_run b c l b1 : wired i c -> bus_in_words 256 b = (l, b1) -> intrq b1 = false -> input_sector i (st b c) = Ret (l, st b1 c).
Proof using Hi Hq Hw'.
  intros Hw E Hl. unfold input_sector. rewrite (bind_run _ _ _ _ _ (get_channel_run b c)). unfold reg_data. rewrite insw_run by done.
  rewrite E. cbn [fst snd]. by rewrite settle_low.
Qed.

Lemma output_run l b c : wired i c -> intrq (bus_out_words l b) = false -> output_sector i l (st b c) = Ret (tt, st (bus_out_words l b) c).
Proof using Hi Hq Hw'.
  intros Hw Hl. unfold output_sector. rewrite (bind_run _ _ _ _ _ (get_channel_run b c)). unfold reg_data. rewrite outsw_run by done. by rewrite settle_low.
Qed.

(** *** A sector on its way *)

Definition addressed (j : nat) (sec : Z) (b : bus) : bus :=
  mk_bus (dev0 b) (dev1 b) (r_error b) 1 (u8 sec) (u8 (Z.shiftr sec 8)) (u8 (Z.shiftr sec 16))
    (u8 (Z.lor (Z.lor (Z.lor DEV_MBS DEV_LBA) (if Z.of_nat j =? 1 then DEV_DEV else 0)) (Z.shiftr sec 24))) (ph b) (intrq b) (lags b).

Lemma addressed_fields j sec b : (j < 2)%nat -> 0 <= sec < 2 ^ 28 ->
  selected (addressed j sec b) = j /\ lba (addressed j sec b) = sec /\ Z.testbit (r_device (addressed j sec b)) 6 = true.
Proof using.
  clear. intros Hj Hs. unfold selected, lba, addressed. cbn [r_device r_lbal r_lbam r_lbah]. rewrite !Z.shiftr_div_pow2 by lia.
  set (q := sec / 2 ^ 24). assert (Hq : 0 <= q < 16) by (unfold q; Z.to_euclidean_division_equations; lia).
  assert (Hd : let r := u8 (Z.lor (Z.lor (Z.lor DEV_MBS DEV_LBA) (if Z.of_nat j =? 1 then DEV_DEV else 0)) q) in
    Z.testbit r 4 = bool_decide (j = 1%nat) /\ r mod 16 = q /\ Z.testbit r 6 = true).
  { assert (Hc : q = 0 \/ q = 1 \/ q = 2 \/ q = 3 \/ q = 4 \/ q = 5 \/ q = 6 \/ q = 7 \/ q = 8 \/ q = 9 \/ q = 10 \/ q = 11 \/ q = 12 \/ q = 13 \/ q = 14 \/ q = 15) by lia.
    destruct j as [|[|]]; [..|lia]; destruct_or! Hc; rewrite Hc; vm_compute; auto. }
  cbn zeta in Hd. destruct Hd as (H4 & Hm & H6). rewrite H4, Hm, H6. split_and!; [|unfold u8, q; Z.to_euclidean_division_equations; lia|done].
  by destruct j as [|[|]]; [..|lia].
Qed.

(** Writing a register of a quiet bus. *)
Lemma out_then {A} r x (m : ST (ide hardware) A) b c : wired i c -> quiet b -> 0 <= r <= 6 ->
  (outb (reg_base c + r) x;; m) (st b c) = m (st (write_reg r x b) c).
Proof using Hi Hq Hw'.
  intros Hw Hb Hr. rewrite (bind_run _ _ _ _ _ (outb_run r x b c Hw ltac:(left; lia))). rewrite quiet_out by (done || lia). by rewrite settle_low by apply Hb.
Qed.

Lemma select_sector_run (j : nat) sec b c d : wired i c -> some_dev b -> quiet b -> devices c !! j = Some d -> dev_no d = j -> (j < 2)%nat ->
  select_sector i j sec (st b c) = if (sec <? drive_capacity d) && (sec <? 2 ^ 28) then Ret (tt, st (addressed j sec b) c) else Panic.
Proof using Hi Hq Hw'.
  intros Hw Hs Hb Hd Hn Hj. unfold select_sector. rewrite (bind_run _ _ _ _ _ (get_channel_run b c)), (bind_run _ _ _ _ _ (get_drive_run j b c d Hd)).
  destruct (sec <? drive_capacity d); [|done]. rewrite (bind_run (ASSERT true) _ _ tt (st b c)) by done.
  destruct (sec <? 2 ^ 28); [|done]. rewrite (bind_run (ASSERT true) _ _ tt (st b c)) by done. cbn [andb].
  rewrite (bind_run _ _ _ _ _ (select_device_wait_run j b c d Hw Hs Hb Hd Hn Hj)). rewrite Hn.
  unfold reg_nsect, reg_lbal, reg_lbam, reg_lbah, reg_device.
  rewrite (out_then 2), (out_then 3), (out_then 4), (out_then 5) by (auto || done). rewrite (outb_run 6) by (done || by left).
  rewrite quiet_out by auto. by rewrite settle_low by apply Hb.
Qed.

(** *** Reading and writing *)

(** A channel that is not in use, with a disk on line [j]. *)
Record usable (j : nat) (b : bus) (c : channel) (d : drive) (dv : device) : Prop := {
  us_wired : wired i c;
  us_quiet : quiet b;
  us_j : (j < 2)%nat;
  us_dev : dev_at j b = Some dv;
  us_drive : devices c !! j = Some d;
  us_no : dev_no d = j;
  us_capacity : drive_capacity d = capacity (dev_disk dv);
  us_held : held c = false;
  us_completion : completion_wait c = 0;
}.

Lemma lock_acquire_run b c : held c = false -> lock_acquire i (st b c) = Ret (tt, st b (set_held true c)).
Proof using Hi. intros Hh. unfold lock_acquire. rewrite (bind_run _ _ _ _ _ (get_channel_run b c)). rewrite Hh. apply upd_channel_run. Qed.

Lemma lock_release_run b c : held c = true -> lock_release i (st b c) = Ret (tt, st b (set_held false c)).
Proof using Hi.
  intros Hh. unfold lock_release. rewrite (bind_run _ _ _ _ _ (get_channel_run b c)). rewrite Hh.
  rewrite (bind_run (ASSERT true) _ _ tt (st b c)) by done. apply upd_channel_run.
Qed.

Definition working (c : channel) : channel := set_expecting true (set_held true c).

Lemma issue_run x b c : wired i c -> intrq (bus_out 7 x b) = false -> issue_pio_command i x (st b c) = Ret (tt, st (bus_out 7 x b) (set_expecting true c)).
Proof using Hi Hq Hw'.
  intros Hw Hl. unfold issue_pio_command. rewrite (bind_run _ _ _ _ _ (get_channel_run b c)).
  rewrite (bind_run _ _ _ _ _ (upd_channel_run (set_expecting true) b c)). change (reg_command c) with (reg_base (set_expecting true c) + 7).
  rewrite outb_run by (done || by left). by rewrite settle_low.
Qed.

(** What both begin with; [f] is the work that the command starts. *)
Lemma begin_run {A} j sec b c d dv x w (m : ST (ide hardware) A) : usable j b c d dv -> 0 <= sec ->
  (forall b, ph b = Idle -> dev_at (selected b) b = Some dv -> Z.testbit (r_device b) 6 = true -> lba b < capacity (dev_disk dv) ->
     command x b = start (w (selected b) (lba b)) b) ->
  (lock_acquire i;; select_sector i j sec;; issue_pio_command i x;; m) (st b c) =
  if (sec <? capacity (dev_disk dv)) && (sec <? 2 ^ 28) then m (st (start (w j sec) (addressed j sec b)) (working c)) else Panic.
Proof using Hi Hq Hw'.
  intros [Hw Hb Hj Hdv Hd Hn Hc Hh Hc0] Hs Hx. rewrite (bind_run _ _ _ _ _ (lock_acquire_run b c Hh)).
  pose proof (select_sector_run j sec b (set_held true c) d Hw (some_dev_at j b ltac:(by exists dv)) Hb Hd Hn Hj) as E. rewrite <- Hc.
  destruct (Z.ltb_spec sec (drive_capacity d)), (Z.ltb_spec sec (2 ^ 28)); cbn [andb] in *; [|by apply bind_panics..].
  rewrite (bind_run _ _ _ _ _ E). destruct (addressed_fields j sec b Hj ltac:(lia)) as (E1 & E2 & E3).
  assert (Eo : bus_out 7 x (addressed j sec b) = start (w j sec) (addressed j sec b)).
  { unfold bus_out. rewrite tick_quiet by exact Hb. cbn [Z.eqb Pos.eqb]. rewrite (proj1 Hb : ph (addressed j sec b) = Idle).
    rewrite Hx; [by rewrite E1, E2|apply Hb|by rewrite E1|done|rewrite E2; lia]. }
  rewrite (bind_run _ _ _ _ _ (issue_run x (addressed j sec b) (set_held true c) Hw ltac:(rewrite Eo; apply Hb))). by rewrite Eo.
Qed.

Definition counted (rd wr : Z) (d : drive) : drive := mk_drive (dev_no d) (is_ata d) (drive_capacity d) (read_cnt d + rd) (write_cnt d + wr).
Definition used (j : nat) (d : drive) (c : channel) : channel := set_devices (<[j := d]> (devices c)) (set_expecting true c).

(** What both end with. *)
Lemma release_run j b c d : held c = false -> lock_release i (st b (set_devices (<[j := d]> (devices (working c))) (working c))) = Ret (tt, st b (used j d c)).
Proof using Hi. intros Hh. rewrite lock_release_run by done. unfold used, working. destruct c; cbn in *. by subst. Qed.

Lemma disk_read_run p j sec b c d dv : usable j b c d dv -> 0 <= sec -> (default 0 (head (lags b)) < p)%nat ->
  disk_ok (dev_disk dv) -> Forall is_u8 (sector (dev_disk dv) sec) ->
  if (sec <? capacity (dev_disk dv)) && (sec <? 2 ^ 28) then
    exists b2, Ata.disk_read p i j sec (st b c) = Ret (sector (dev_disk dv) sec, st b2 (used j (counted 1 0 d) c)) /\
      quiet b2 /\ dev0 b2 = dev0 b /\ dev1 b2 = dev1 b /\ lags b2 = tail (lags b)
  else Ata.disk_read p i j sec (st b c) = Panic.
Proof using Hi Hq Hw'.
  intros Hu Hs Hlag Hok Hby. unfold Ata.disk_read. rewrite (begin_run j sec b c d dv CMD_READ_SECTOR_RETRY Reading) by
    (done || (intros b0 _ Hd H6 Hl; unfold command; rewrite Hd, H6; by destruct (Z.ltb_spec (lba b0) (capacity (dev_disk dv))); [|lia])).
  destruct (_ && _) eqn:Ec; [|done]. destruct Hu as [Hw Hb Hj Hdv Hd Hn Hc Hh Hc0].
  apply andb_true_iff in Ec as [Ec1%Z.ltb_lt Ec2%Z.ltb_lt]. destruct (addressed_fields j sec b Hj ltac:(lia)) as (E1 & _ & _).
  set (b1 := addressed j sec b). set (l := words_of (sector (dev_disk dv) sec)).
  assert (Hl : length l = 256%nat) by (apply words_length; by rewrite sector_length).
  assert (Ef : finish (Reading j sec) (start (Reading j sec) b1) = set_intrq true (set_phase (DataIn l) (start (Reading j sec) b1))).
  { unfold finish. change (dev_at j (start (Reading j sec) b1)) with (dev_at j b). by rewrite Hdv. }
  rewrite (bind_run (sema_down p i) _ _ _ _ (sema_down_run _ p (Reading j sec) (start (Reading j sec) b1) (working c) Hw eq_refl (proj2 Hb)
    ltac:(unfold announced; by rewrite Ef) eq_refl Hc0 Hlag)). rewrite Ef.
  set (b2 := set_intrq false _). assert (Hr : ready true b2).
  { split; [|done..]. change (selected b2) with (selected b1). unfold b1. rewrite E1. by exists dv. }
  rewrite (bind_run _ _ _ _ _ (wait_ready_run true j b2 (working c) Hw Hr)). rewrite (bind_run (ASSERT true) _ _ tt (st b2 (working c))) by done.
  assert (Ei : bus_in_words 256 b2 = (l, set_phase Idle b2)).
  { unfold bus_in_words. rewrite (rd_tick _ _ Hr). cbn [ph b2 set_intrq set_phase]. rewrite Hl, Nat.leb_refl. by rewrite take_ge by lia. }
  rewrite (bind_run _ _ _ _ _ (input_run b2 (working c) l (set_phase Idle b2) Hw Ei eq_refl)). exists (set_phase Idle b2). split; [|done].
  rewrite (bind_run _ _ _ _ _ (upd_drive_run j _ _ (working c) d Hd)). rewrite (bind_run _ _ _ _ _ (release_run j _ c _ Hh)).
  unfold l, counted. rewrite (bytes_of_words _ 256) by (done || by rewrite sector_length). by rewrite Z.add_0_r.
Qed.

Lemma disk_write_run p j sec buf b c d dv : usable j b c d dv -> 0 <= sec ->
  (default 0 (head (lags b)) < 3000)%nat -> (default 0 (head (tail (lags b))) < p)%nat -> length buf = 512%nat -> Forall is_u8 buf ->
  if (sec <? capacity (dev_disk dv)) && (sec <? 2 ^ 28) then
    exists b2, Ata.disk_write p i j sec buf (st b c) = Ret (tt, st b2 (used j (counted 0 1 d) c)) /\
      quiet b2 /\ dev_at j b2 = Some (mk_device (disk_put sec buf (dev_disk dv)) (dev_id dv)) /\ dev_at (1 - j) b2 = dev_at (1 - j) b /\
      lags b2 = tail (tail (lags b))
  else Ata.disk_write p i j sec buf (st b c) = Panic.
Proof using Hi Hq Hw'.
  intros Hu Hs Hlag Hlag' Hlen Hby. unfold Ata.disk_write. rewrite (begin_run j sec b c d dv CMD_WRITE_SECTOR_RETRY Preparing) by
    (done || (intros b0 _ Hd H6 Hl; unfold command; rewrite Hd, H6; by destruct (Z.ltb_spec (lba b0) (capacity (dev_disk dv))); [|lia])).
  destruct (_ && _) eqn:Ec; [|done]. destruct Hu as [Hw Hb Hj Hdv Hd Hn Hc Hh Hc0].
  apply andb_true_iff in Ec as [Ec1%Z.ltb_lt Ec2%Z.ltb_lt]. destruct (addressed_fields j sec b Hj ltac:(lia)) as (E1 & _ & _).
  set (b1 := start (Preparing j sec) (addressed j sec b)).
  assert (Hr : ready true (set_phase (DataOut j sec) b1)).
  { split; [|done|apply Hb|done]. change (selected (set_phase (DataOut j sec) b1)) with (selected (addressed j sec b)). rewrite E1. by exists dv. }
  rewrite (bind_run _ _ _ _ _ (wait_done_run _ (Preparing j sec) true j b1 (working c) Hw (rd_dev _ _ Hr) eq_refl (proj2 Hb) Hr Hlag)).
  cbn [finish].
  rewrite (bind_run (ASSERT true) _ _ tt (st (set_phase (DataOut j sec) b1) (working c))) by done.
  set (l := words_of buf). assert (Hl : length l = 256%nat) by (by apply words_length).
  set (b2 := start (Storing j sec l) (set_phase (DataOut j sec) b1)).
  assert (Eo : bus_out_words l (set_phase (DataOut j sec) b1) = b2).
  { unfold bus_out_words. cbn [tick ph set_phase]. by rewrite bool_decide_true. }
  rewrite (bind_run _ _ _ _ _ (output_run l (set_phase (DataOut j sec) b1) (working c) Hw ltac:(rewrite Eo; apply Hb))). rewrite Eo.
  assert (Ef : finish (Storing j sec l) b2 = set_intrq true (set_phase Idle (set_dev j (mk_device (disk_put sec (bytes_of l) (dev_disk dv)) (dev_id dv)) b2))).
  { unfold finish. change (dev_at j b2) with (dev_at j b). by rewrite Hdv. }
  rewrite (bind_run (sema_down p i) _ _ _ _ (sema_down_run _ p (Storing j sec l) b2 (working c) Hw eq_refl (proj2 Hb)
    ltac:(unfold announced; by rewrite Ef) eq_refl Hc0 Hlag')). rewrite Ef.
  replace (bytes_of l) with buf by (symmetry; by apply (bytes_of_words buf 256)).
  eexists. rewrite (bind_run _ _ _ _ _ (upd_drive_run j _ _ (working c) d Hd)). rewrite (release_run j _ c _ Hh).
  split; [unfold counted; by rewrite Z.add_0_r|]. split_and!; [done|by destruct j as [|[|]]; [..|lia]|by destruct j as [|[|]]; [..|lia]|done].
Qed.

(** *** Detection *)
Definition has_dev (b : bus) : bool := match dev0 b, dev1 b with None, None => false | _, _ => true end.

Lemma has_dev_some b : has_dev b = true -> some_dev b.
Proof using. unfold has_dev, some_dev. destruct (dev0 b), (dev1 b); (done || eauto). Qed.

(** What no register access changes. *)
Record alike (b b2 : bus) : Prop := {
  al_dev0 : dev0 b2 = dev0 b;
  al_dev1 : dev1 b2 = dev1 b;
}.

Lemma alike_dev b b2 j : alike b b2 -> dev_at j b2 = dev_at j b.
Proof using. intros [E0 E1]. unfold dev_at. by rewrite E0, E1. Qed.

Lemma alike_has b b2 : alike b b2 -> has_dev b2 = has_dev b.
Proof using. intros [E0 E1]. unfold has_dev. by rewrite E0, E1. Qed.

(** A register of a quiet bus. *)
Lemma in_then {A} r (m : Z -> ST (ide hardware) A) b c : wired i c -> quiet b -> is_reg r ->
  (inb (reg_base c + r) ≫= m) (st b c) = m (read_reg r b) (st b c).
Proof using Hi Hq Hw'.
  intros Hw Hb Hr. rewrite (bind_run _ _ _ _ _ (inb_run r b c Hw Hr)). rewrite quiet_in by done. cbn [fst snd]. by rewrite settle_low by apply Hb.
Qed.

Lemma read_none r b : has_dev b = false -> read_reg r b = 0xff.
Proof using. unfold has_dev, read_reg. by destruct (dev0 b), (dev1 b). Qed.

Lemma read_some r b : has_dev b = true -> 1 <= r <= 6 ->
  read_reg r b = if r =? 1 then r_error b else if r =? 2 then r_nsect b else if r =? 3 then r_lbal b
    else if r =? 4 then r_lbam b else if r =? 5 then r_lbah b else r_device b.
Proof using.
  clear. unfold has_dev, read_reg. intros Hd Hr. destruct (Z.eqb_spec r 6) as [->|H6]; [by destruct (dev0 b), (dev1 b)|].
  destruct (Z.eqb_spec r 1), (Z.eqb_spec r 2), (Z.eqb_spec r 3), (Z.eqb_spec r 4), (Z.eqb_spec r 5); try lia; by destruct (dev0 b), (dev1 b).
Qed.

Lemma detect_run (j : nat) b c d : wired i c -> quiet b -> devices c !! j = Some d -> dev_no d = j -> (j < 2)%nat ->
  exists b2, detect i j (st b c) = Ret (has_dev b, st b2 c) /\ quiet b2 /\ alike b b2 /\ lags b2 = lags b.
Proof using Hi Hq Hw'.
  intros Hw Hb Hd Hn Hj. unfold detect. rewrite (bind_run _ _ _ _ _ (get_channel_run b c)), (bind_run _ _ _ _ _ (select_device_run j b c d Hw Hb Hd Hn Hj)).
  unfold reg_nsect, reg_lbal. rewrite (out_then 2), (out_then 3), (out_then 2), (out_then 3), (out_then 2), (out_then 3) by (auto || done).
  match goal with |- context [andM _ _ (st ?b2 c)] => set (b3 := b2) end. exists b3. split; [|done].
  unfold andM. rewrite bind_assoc, (in_then 2) by (auto || by left). destruct (has_dev b) eqn:Eh.
  - rewrite read_some by (done || lia). cbn [Z.eqb Pos.eqb]. rewrite (bind_run (mret _) _ _ true (st b3 c)) by done. rewrite (in_then 3) by (auto || by left).
    by rewrite read_some by (done || lia).
  - by rewrite read_none.
Qed.

(** A bus that is being reset, or has been. *)
Definition fresh (b : bus) : Prop :=
  quiet b /\ r_error b = 1 /\ r_nsect b = 1 /\ r_lbal b = 1 /\ r_lbam b = 0 /\ r_lbah b = 0 /\ selected b = 0%nat.
Definition resetting (b : bus) : Prop := fresh b \/ exists n, ph b = Busy n Resetting /\ (n < 3000)%nat /\ intrq b = false /\ selected b = 0%nat.

Lemma tick_resetting b : resetting b -> resetting (tick b) /\ alike b (tick b) /\ lags (tick b) = lags b.
Proof using.
  clear. intros [Hf|(n & Hp & Hn & Hl & Hs)].
  - rewrite tick_quiet by apply Hf. split; [by left|done].
  - unfold tick. rewrite Hp. destruct n as [|n].
    + split; [|done]. left. done.
    + split; [|done]. right. exists n. split_and!; [done|lia|done|done].
Qed.

Lemma resetting_low b : resetting b -> intrq b = false.
Proof using. intros [Hf|(n & _ & _ & Hl & _)]; [apply Hf|done]. Qed.

Lemma select_resetting b c d : wired i c -> resetting b -> devices c !! 0%nat = Some d -> dev_no d = 0%nat ->
  exists b2, select_device i 0 (st b c) = Ret (tt, st b2 c) /\ resetting b2 /\ alike b b2 /\ lags b2 = lags b.
Proof using Hi Hq Hw'.
  intros Hw Hb Hd Hn. unfold select_device. rewrite (bind_run _ _ _ _ _ (get_channel_run b c)), (bind_run _ _ _ _ _ (get_drive_run 0 b c d Hd)).
  rewrite Hn. change (if Z.of_nat 0 =? 1 then Z.lor DEV_MBS DEV_DEV else DEV_MBS) with 0xa0.
  destruct (tick_resetting b Hb) as (R1 & A1 & L1).
  assert (H1 : resetting (bus_out 6 0xa0 b) /\ alike b (bus_out 6 0xa0 b) /\ lags (bus_out 6 0xa0 b) = lags b).
  { unfold bus_out. cbn [Z.eqb Pos.eqb]. destruct R1 as [R1|(n & Hp & Hx)].
    - rewrite (proj1 (proj1 R1)). split; [|by destruct A1]. left. destruct R1 as (? & ? & ? & ? & ? & ? & ?). done.
    - rewrite Hp. split; [|done]. right. by exists n. }
  destruct H1 as (R2 & A2 & L2). unfold reg_device, reg_alt_status, reg_ctl.
  rewrite (bind_run _ _ _ _ _ (outb_run 6 0xa0 b c Hw ltac:(by left))). rewrite settle_low by (by apply resetting_low).
  rewrite (bind_run _ _ _ _ _ (inb_run 0x206 _ c Hw ltac:(by right))). unfold bus_in. cbn [fst snd Z.eqb Pos.eqb].
  destruct (tick_resetting _ R2) as (R3 & A3 & L3). rewrite settle_low by (by apply resetting_low).
  rewrite nsleep_run by done. destruct (tick_resetting _ R3) as (R4 & A4 & L4). rewrite settle_low by (by apply resetting_low).
  eexists. split; [done|]. split; [done|]. destruct A2, A3, A4. split; [split|]; congruence.
Qed.

(** Waiting for the end of a reset. *)
Lemma wait_reset b c : wired i c -> resetting b -> is_Some (dev0 b) ->
  exists b2, wait_while_busy i 0 (st b c) = Ret (false, st b2 c) /\ fresh b2 /\ alike b b2 /\ lags b2 = lags b.
Proof using Hi Hq Hw'.
  intros Hw Hb Hd. assert (Hf : forall b2, fresh b2 -> dev0 b2 = dev0 b -> ready false b2).
  { intros b2 (Hqb & _ & _ & _ & _ & _ & Hs) E. destruct Hqb as [Hp Hl]. split; [rewrite Hs; by rewrite <- E in Hd|unfold status; by rewrite Hp|done|by apply tick_quiet]. }
  destruct Hb as [Hb|(n & Hp & Hn & Hl & Hs)].
  - exists b. split; [|done]. apply wait_ready_run; [done|]. by apply Hf.
  - exists (finish Resetting b). split; [|done]. apply (wait_done_run n Resetting false); [done|by rewrite Hs|done|done| |done]. by apply Hf.
Qed.

(** Waiting on a quiet bus. *)
Lemma busy_loop_absent k b c : wired i c -> quiet b -> some_dev b -> dev_at (selected b) b = None -> busy_loop c (S k) (st b c) = Ret (false, st b c).
Proof using Hi Hq Hw'.
  intros Hw Hb Hd E. cbn [busy_loop]. unfold reg_alt_status, reg_ctl. rewrite (in_then 0x206) by (auto || by right). rewrite read_status by auto.
  rewrite E. change (Z.land 0 STA_BSY =? 0) with true. cbn iota. rewrite (in_then 0x206) by (auto || by right). rewrite read_status by auto. by rewrite E.
Qed.

Lemma wait_quiet j b c : wired i c -> quiet b -> some_dev b -> wait_while_busy i j (st b c) = Ret (false, st b c).
Proof using Hi Hq Hw'.
  intros Hw Hb Hd. destruct (dev_at (selected b) b) as [dv|] eqn:E.
  - apply wait_ready_run; [done|]. destruct Hb as [Hp Hl]. split; [by rewrite E|unfold status; by rewrite Hp|done|by apply tick_quiet].
  - unfold wait_while_busy. rewrite (bind_run _ _ _ _ _ (get_channel_run b c)). change 3000%nat with (S 2999). by apply busy_loop_absent.
Qed.

Lemma signature_run n b c : wired i c -> quiet b -> has_dev b = true -> r_nsect b = 1 -> r_lbal b = 1 -> signature_loop c (S n) (st b c) = Ret (tt, st b c).
Proof using Hi Hq Hw'.
  intros Hw Hb Hd E2 E3. cbn [signature_loop]. unfold andM, reg_nsect, reg_lbal. rewrite bind_assoc, bind_assoc, (in_then 2) by (auto || by left).
  rewrite read_some by (done || lia). cbn [Z.eqb Pos.eqb]. rewrite E2. rewrite (bind_run (mret _) _ _ true (st b c)) by done.
  rewrite bind_assoc, (in_then 3) by (auto || by left). rewrite read_some by (done || lia). cbn [Z.eqb Pos.eqb]. by rewrite E3.
Qed.

(** The pulse on the reset line. *)
Definition pulse (b : bus) : bus := start Resetting (set_intrq false (set_phase Held (write_reg 6 0 b))).

Lemma ctl_quiet b : quiet b -> bus_out 0x206 0 b = b.
Proof using. intros Hb. unfold bus_out. rewrite tick_quiet by done. cbn [Z.eqb Pos.eqb Z.testbit]. rewrite (proj1 Hb). by destruct (dev0 b), (dev1 b). Qed.

Lemma pulse_run {A} (m : ST (ide hardware) A) b c : wired i c -> quiet b ->
  (outb (reg_ctl c) 0;; timer_usleep 10;; outb (reg_ctl c) CTL_SRST;; timer_usleep 10;; outb (reg_ctl c) 0;; timer_msleep 150;; m) (st b c) =
  m (st (if has_dev b then tick (pulse b) else b) c).
Proof using Hi Hq Hw'.
  intros Hw Hb. unfold reg_ctl, timer_usleep, timer_msleep.
  rewrite (bind_run _ _ _ _ _ (outb_run 0x206 0 b c Hw ltac:(by right))). rewrite ctl_quiet, settle_low by (done || apply Hb).
  rewrite (bind_run _ _ _ _ _ (nsleep_run _ b c Hw)). rewrite tick_quiet, settle_low by (done || apply Hb).
  rewrite (bind_run _ _ _ _ _ (outb_run 0x206 CTL_SRST b c Hw ltac:(by right))).
  destruct (has_dev b) eqn:Eh.
  - set (h := set_intrq false (set_phase Held (write_reg 6 0 b))).
    assert (E : bus_out 0x206 CTL_SRST b = h).
    { unfold bus_out. rewrite tick_quiet by done. cbn [Z.eqb Pos.eqb]. change (Z.testbit CTL_SRST 2) with true. unfold has_dev in Eh. by destruct (dev0 b), (dev1 b). }
    rewrite E. rewrite settle_low by done. rewrite (bind_run _ _ _ _ _ (nsleep_run _ h c Hw)). cbn [tick ph h set_intrq set_phase]. fold h.
    rewrite settle_low by done. rewrite (bind_run _ _ _ _ _ (outb_run 0x206 0 h c Hw ltac:(by right))).
    assert (E' : bus_out 0x206 0 h = pulse b).
    { unfold bus_out. cbn [tick ph h set_intrq set_phase Z.eqb Pos.eqb]. fold h. unfold has_dev in Eh. cbn. by destruct (dev0 b), (dev1 b). }
    rewrite E'. rewrite settle_low by done. rewrite (bind_run _ _ _ _ _ (nsleep_run _ (pulse b) c Hw)). rewrite settle_low; [done|].
    unfold tick. cbn [ph pulse start]. by destruct (default 0%nat _).
  - assert (E : bus_out 0x206 CTL_SRST b = b) by (unfold bus_out; rewrite tick_quiet by done; unfold has_dev in Eh; by destruct (dev0 b), (dev1 b)).
    rewrite E, settle_low by (done || apply Hb). rewrite (bind_run _ _ _ _ _ (nsleep_run _ b c Hw)). rewrite tick_quiet, settle_low by (done || apply Hb).
    rewrite (bind_run _ _ _ _ _ (outb_run 0x206 0 b c Hw ltac:(by right))). rewrite ctl_quiet, settle_low by (done || apply Hb).
    rewrite (bind_run _ _ _ _ _ (nsleep_run _ b c Hw)). by rewrite tick_quiet, settle_low by (done || apply Hb).
Qed.

(** The registers that tell a disk, after a reset. *)
Definition signed (b : bus) : Prop := has_dev b = true -> r_error b = 1 /\ r_lbam b = 0 /\ r_lbah b = 0.

Lemma reset_run b c d0 d1 : wired i c -> quiet b -> devices c !! 0%nat = Some d0 -> dev_no d0 = 0 -> devices c !! 1%nat = Some d1 -> dev_no d1 = 1 ->
  (is_Some (dev1 b) -> is_Some (dev0 b)) -> (default 0 (head (lags b)) < 3000)%nat ->
  exists b2, reset_channel i (st b c) = Ret (tt, st b2 c) /\ quiet b2 /\ alike b b2 /\ signed b2 /\
    lags b2 = if has_dev b then tail (lags b) else lags b.
Proof using Hi Hq Hw'.
  intros Hw Hb Hd0 Hn0 Hd1 Hn1 Hm Hlag. unfold reset_channel. rewrite (bind_run _ _ _ _ _ (get_channel_run b c)).
  destruct (detect_run 0 b c d0 Hw Hb Hd0 Hn0 ltac:(lia)) as (b1 & E1 & Q1 & A1 & L1). rewrite (bind_run _ _ _ _ _ E1).
  destruct (detect_run 1 b1 c d1 Hw Q1 Hd1 Hn1 ltac:(lia)) as (b2 & E2 & Q2 & A2 & L2). rewrite (bind_run _ _ _ _ _ E2).
  rewrite (alike_has _ _ A1). rewrite pulse_run by done. assert (A12 : alike b b2) by (destruct A1, A2; split; congruence).
  rewrite (alike_has _ _ A12). destruct (has_dev b) eqn:Eh; cbn [when].
  2: { exists b2. split; [done|]. split_and!; [done|done|intros Hx; by rewrite (alike_has _ _ A12), Eh in Hx|congruence]. }
  assert (Hdev0 : is_Some (dev0 b)) by (destruct (has_dev_some b Eh); auto).
  assert (R : resetting (pulse b2)) by (right; exists (default 0%nat (head (lags b2))); split_and!; [done|by rewrite L2, L1|done|done]).
  destruct (tick_resetting _ R) as (R1 & A3 & L3).
  destruct (select_resetting (tick (pulse b2)) c d0 Hw R1 Hd0 Hn0) as (b4 & E4 & R4 & A4 & L4). rewrite bind_assoc, (bind_run _ _ _ _ _ E4).
  destruct (wait_reset b4 c Hw R4) as (b5 & E5 & F5 & A5 & L5).
  { rewrite (al_dev0 _ _ A4), (al_dev0 _ _ A3). cbn. by rewrite (al_dev0 _ _ A12). }
  rewrite bind_assoc, (bind_run _ _ _ _ _ E5). rewrite (bind_run (mret tt) _ _ tt (st b5 c)) by done. destruct F5 as (Q5 & Fe & Fn & Fl & Fm & Fh & _).
  assert (A15 : alike b b5) by (destruct A12, A3, A4, A5; split; cbn in *; congruence).
  assert (Eh5 : has_dev b5 = true) by (by rewrite (alike_has _ _ A15)).
  rewrite (bind_run _ _ _ _ _ (select_device_run 1 b5 c d1 Hw Q5 Hd1 Hn1 ltac:(lia))). change 3000%nat with (S 2999).
  set (b6 := write_reg 6 (dev_bits 1) b5).
  rewrite (bind_run _ _ _ _ _ (signature_run 2999 b6 c Hw Q5 Eh5 Fn Fl)). rewrite (bind_run _ _ _ _ _ (wait_quiet 1 b6 c Hw Q5 (has_dev_some b5 Eh5))).
  exists b6. split; [done|]. split_and!; [done|by destruct A15|done|]. change (lags b6) with (lags b5). rewrite L5, L4, L3. cbn. by rewrite L2, L1.
Qed.

Lemma check_run (j : nat) b c d : wired i c -> quiet b -> signed b -> devices c !! j = Some d -> dev_no d = j -> (j < 2)%nat ->
  check_device_type i j (st b c) =
  Ret (true, st (write_reg 6 (dev_bits j) b) (set_devices (<[j := set_is_ata (bool_decide (is_Some (dev_at j b))) d]> (devices c)) c)).
Proof using Hi Hq Hw'.
  intros Hw Hb Hg Hd Hn Hj. unfold check_device_type. rewrite (bind_run _ _ _ _ _ (get_channel_run b c)), (bind_run _ _ _ _ _ (get_drive_run j b c d Hd)).
  rewrite (bind_run _ _ _ _ _ (select_device_run j b c d Hw Hb Hd Hn Hj)). set (b1 := write_reg 6 (dev_bits j) b).
  assert (Hb1 : quiet b1) by apply Hb. assert (Hs : selected b1 = j) by (destruct j as [|[|]]; [done|done|lia]).
  unfold reg_error, reg_lbam, reg_lbah, reg_status. rewrite (in_then 1), (in_then 4), (in_then 5), (in_then 7) by (auto || by left).
  destruct (has_dev b) eqn:Eh.
  - assert (F : r_error b1 = 1 /\ r_lbam b1 = 0 /\ r_lbah b1 = 0) by (by apply Hg). destruct F as (Ee & Em & Ehh).
    rewrite (read_some 1), (read_some 4), (read_some 5) by (done || lia). cbn [Z.eqb Pos.eqb]. rewrite Ee, Em, Ehh. rewrite read_status by (auto || apply (has_dev_some b Eh)). rewrite Hs. change (dev_at j b1) with (dev_at j b). unfold status. rewrite (proj1 Hb1).
    destruct (dev_at j b) as [dv|] eqn:Edv.
    + cbn [Z.eqb Pos.eqb negb andb orb]. change (Z.land STA_DRDY STA_DRDY =? 0) with false. change (Z.land STA_DRDY STA_BSY =? 0) with true. cbn [negb orb].
      rewrite (bind_run _ _ _ _ _ (upd_drive_run j _ b1 c d Hd)). by rewrite bool_decide_true by (by exists dv).
    + cbn [Z.eqb Pos.eqb negb andb orb]. change (Z.land 0 STA_DRDY =? 0) with true. cbn [negb orb].
      rewrite (bind_run _ _ _ _ _ (upd_drive_run j _ b1 c d Hd)). by rewrite bool_decide_false by (by intros [? ?]).
  - rewrite !read_none by done. cbn [Z.eqb Pos.eqb negb andb orb]. rewrite (bind_run _ _ _ _ _ (upd_drive_run j _ b1 c d Hd)).
    rewrite bool_decide_false; [done|]. unfold has_dev in Eh. unfold dev_at. intros [x Hx]. case_decide; destruct (dev0 b), (dev1 b); done.
Qed.

(** A device that identifies itself: words 60 and 61 are its capacity. *)
Record good_id (dv : device) : Prop := {
  gi_length : length (dev_id dv) = 256%nat;
  gi_low : is_u16 (nth 60 (dev_id dv) 0);
  gi_high : is_u16 (nth 61 (dev_id dv) 0);
  gi_capacity : capacity (dev_disk dv) = nth 60 (dev_id dv) 0 + nth 61 (dev_id dv) 0 * 2 ^ 16;
}.

Lemma identify_run p (j : nat) b c d dv : wired i c -> quiet b -> dev_at j b = Some dv -> good_id dv -> devices c !! j = Some d -> is_ata d = true ->
  dev_no d = j -> (j < 2)%nat -> completion_wait c = 0 -> (default 0 (head (lags b)) < p)%nat ->
  exists b2, identify_ata_device p i j (st b c) =
    Ret (tt, st b2 (set_devices (<[j := set_capacity (capacity (dev_disk dv)) d]> (devices c)) (set_expecting true c))) /\
    quiet b2 /\ alike b b2 /\ lags b2 = tail (lags b).
Proof using Hi Hq Hw'.
  intros Hw Hb Hdv Hid Hd Ha Hn Hj Hc Hlag. unfold identify_ata_device. rewrite (bind_run _ _ _ _ _ (get_drive_run j b c d Hd)). rewrite Ha.
  rewrite (bind_run (ASSERT true) _ _ tt (st b c)) by done.
  rewrite (bind_run _ _ _ _ _ (select_device_wait_run j b c d Hw (some_dev_at j b ltac:(by exists dv)) Hb Hd Hn Hj)).
  set (b1 := write_reg 6 (dev_bits j) b). assert (Hb1 : quiet b1) by apply Hb. assert (Hs : selected b1 = j) by (destruct j as [|[|]]; [done|done|lia]).
  assert (Eo : bus_out 7 CMD_IDENTIFY_DEVICE b1 = start (Identifying j) b1).
  { unfold bus_out. rewrite tick_quiet by done. cbn [Z.eqb Pos.eqb]. rewrite (proj1 Hb1). unfold command. rewrite Hs. change (dev_at j b1) with (dev_at j b). by rewrite Hdv. }
  rewrite (bind_run _ _ _ _ _ (issue_run CMD_IDENTIFY_DEVICE b1 c Hw ltac:(rewrite Eo; apply Hb))). rewrite Eo.
  assert (Ef : finish (Identifying j) (start (Identifying j) b1) = set_intrq true (set_phase (DataIn (dev_id dv)) (start (Identifying j) b1))).
  { unfold finish. change (dev_at j (start (Identifying j) b1)) with (dev_at j b). by rewrite Hdv. }
  rewrite (bind_run (sema_down p i) _ _ _ _ (sema_down_run _ p (Identifying j) (start (Identifying j) b1) (set_expecting true c) Hw eq_refl (proj2 Hb)
    ltac:(unfold announced; by rewrite Ef) eq_refl Hc Hlag)). rewrite Ef.
  set (b2 := set_intrq false _). assert (Hr : ready true b2).
  { split; [|done..]. change (selected b2) with (selected b1). rewrite Hs. by exists dv. }
  rewrite (bind_run _ _ _ _ _ (wait_ready_run true j b2 (set_expecting true c) Hw Hr)). cbn [negb].
  assert (Ei : bus_in_words 256 b2 = (dev_id dv, set_phase Idle b2)).
  { unfold bus_in_words. rewrite (rd_tick _ _ Hr). cbn [ph b2 set_intrq set_phase]. rewrite (gi_length _ Hid), Nat.leb_refl. by rewrite take_ge by (rewrite (gi_length _ Hid); lia). }
  rewrite (bind_run _ _ _ _ _ (input_run b2 (set_expecting true c) (dev_id dv) (set_phase Idle b2) Hw Ei eq_refl)).
  rewrite (upd_drive_run j _ _ (set_expecting true c) d Hd). exists (set_phase Idle b2). split; [|done].
  destruct Hid as [_ H60 H61 ->]. unfold is_u16 in *. unfold u32. rewrite Z.shiftl_mul_pow2 by lia. rewrite (Z.mod_small (_ * 2 ^ 16)) by lia. by rewrite lor_above by lia.
Qed.

(** A bus with disks that have bytes in their sectors and identify
    themselves; there is no second device without a first one. *)
Record attached (p : nat) (b : bus) : Prop := {
  at_quiet : quiet b;
  at_master : is_Some (dev1 b) -> is_Some (dev0 b);
  at_disks j dv : dev_at j b = Some dv -> disk_ok (dev_disk dv) /\ (forall sec, Forall is_u8 (sector (dev_disk dv) sec)) /\ good_id dv;
  at_lags : Forall (fun n => (n < 3000 /\ n < p)%nat) (lags b);
}.

Lemma lag_ok p (l : list nat) : (0 < p)%nat -> Forall (fun n => (n < 3000 /\ n < p)%nat) l ->
  (default 0 (head l) < 3000 /\ default 0 (head l) < p)%nat /\ Forall (fun n => (n < 3000 /\ n < p)%nat) (tail l).
Proof using. clear. intros Hp Hl. destruct l; [cbn; split; [lia|done]|]. by apply Forall_cons in Hl as [? ?]. Qed.

(** A channel during initialisation, with what has been found out so far. *)
Record probing (c : channel) (d0 d1 : drive) : Prop := {
  pr_wired : wired i c;
  pr_held : held c = false;
  pr_completion : completion_wait c = 0;
  pr_devices : devices c = [d0; d1];
  pr_no0 : dev_no d0 = 0;
  pr_no1 : dev_no d1 = 1;
}.

(** One device that may be there. *)
Lemma identify_if p j b c d0 d1 d : (0 < p)%nat -> attached p b -> probing c d0 d1 -> (j < 2)%nat -> [d0; d1] !! j = Some d ->
  is_ata d = bool_decide (is_Some (dev_at j b)) ->
  exists b2 c2 d', when (is_ata d) (identify_ata_device p i j) (st b c) = Ret (tt, st b2 c2) /\ attached p b2 /\ alike b b2 /\
    is_ata d' = is_ata d /\ (forall dv, dev_at j b = Some dv -> drive_capacity d' = capacity (dev_disk dv)) /\
    (if decide (j = 0%nat) then probing c2 d' d1 else probing c2 d0 d').
Proof using Hi Hq Hw'.
  intros Hp Hat Hpr Hj Hd Ha. destruct Hpr as [Hw Hh Hc Hds Hn0 Hn1]. assert (Hn : dev_no d = j) by (destruct j as [|[|]]; [..|lia]; cbn in Hd; injection Hd as <-; done).
  destruct (dev_at j b) as [dv|] eqn:Edv.
  - rewrite bool_decide_true in Ha by (by exists dv). rewrite Ha. cbn [when]. destruct (at_disks _ _ Hat j dv Edv) as (Hok & Hby & Hid).
    destruct (lag_ok p (lags b) Hp (at_lags _ _ Hat)) as [[L1 L2] L3].
    destruct (identify_run p j b c d dv Hw (at_quiet _ _ Hat) Edv Hid ltac:(by rewrite Hds) Ha Hn Hj Hc L2) as (b2 & E & Q & A & L).
    exists b2, (set_devices (<[j := set_capacity (capacity (dev_disk dv)) d]> (devices c)) (set_expecting true c)), (set_capacity (capacity (dev_disk dv)) d).
    split; [exact E|]. split; [|split_and!; [done|done|by intros ? [= <-]|]].
    + split; [done|rewrite (al_dev0 _ _ A), (al_dev1 _ _ A); apply Hat| |by rewrite L]. intros j' dv'. rewrite (alike_dev _ _ j' A). apply Hat.
    + destruct j as [|[|]]; [..|lia]; cbn in Hd; injection Hd as <-; cbn [decide decide_rel]; (split; [done|done|done|cbn; by rewrite Hds|done|done]).
  - rewrite bool_decide_false in Ha by (by intros [? ?]). rewrite Ha. exists b, c, d. split; [done|]. split_and!; [done|done|done|done|].
    destruct j as [|[|]]; [..|lia]; cbn in Hd; injection Hd as <-; cbn; done.
Qed.
End Channel.

(** ** The driver as the rest of the kernel sees it *)

(** A channel at rest: what it believes of its devices is so, the devices
    store bytes, and none is slower than the driver waits ([p] turns on the
    semaphore, 3000 polls). *)
Record chan_ok (p i : nat) (b : bus) (c : channel) : Prop := {
  co_wired : wired i c;
  co_quiet : quiet b;
  co_held : held c = false;
  co_completion : completion_wait c = 0;
  co_drives (j : nat) d : devices c !! j = Some d -> dev_no d = j;
  co_two : length (devices c) = 2%nat;
  co_ata j d : devices c !! j = Some d -> is_ata d = true -> exists dv, dev_at j b = Some dv /\ drive_capacity d = capacity (dev_disk dv);
  co_disks j dv : dev_at j b = Some dv -> disk_ok (dev_disk dv) /\ forall sec, Forall is_u8 (sector (dev_disk dv) sec);
  co_lags : Forall (fun n => (n < 3000 /\ n < p)%nat) (lags b);
}.

Record ide_ok (p : nat) (s : ide hardware) : Prop := {
  io_patience : (0 < p)%nat;
  io_channels : exists c0 c1, channels s = [c0; c1] /\ chan_ok p 0 (bus0 (hw s)) c0 /\ chan_ok p 1 (bus1 (hw s)) c1;
}.

(** The contents of a disk, and whether the driver knows of it. *)
Definition disk_of (s : ide hardware) (i j : nat) : option disk := dev_disk <$> dev_at j (bus_at i (hw s)).
Definition detected (s : ide hardware) (i j : nat) : bool :=
  match channels s !! i with Some c => match devices c !! j with Some d => is_ata d | None => false end | None => false end.

(** A state from the point of view of channel [i]. *)
Lemma ide_view p i s : ide_ok p s -> (i < 2)%nat -> exists b c b' c', s = st i b' c' b c /\ chan_ok p i b c /\ chan_ok p (1 - i) b' c'.
Proof.
  intros [_ (c0 & c1 & E & H0 & H1)] Hi. destruct s as [[b0 b1] cs]. cbn in *. subst. destruct i as [|[|]]; [..|lia].
  - by exists b0, c0, b1, c1.
  - by exists b1, c1, b0, c0.
Qed.

Lemma view_ok p i b c b' c' : (0 < p)%nat -> (i < 2)%nat -> chan_ok p i b c -> chan_ok p (1 - i) b' c' -> ide_ok p (st i b' c' b c).
Proof.
  intros Hp Hi H0 H1. split; [done|]. unfold st. destruct i as [|[|]]; [..|lia]; eauto 10.
Qed.

Lemma view_disk i j b c b' c' : (i < 2)%nat -> disk_of (st i b' c' b c) i j = dev_disk <$> dev_at j b.
Proof. intros Hi. unfold disk_of, st. by destruct i as [|[|]]; [..|lia]. Qed.

Lemma view_detected i j b c b' c' : (i < 2)%nat -> detected (st i b' c' b c) i j = match devices c !! j with Some d => is_ata d | None => false end.
Proof. intros Hi. unfold detected, st. by destruct i as [|[|]]; [..|lia]. Qed.

Lemma bus_other i i' b c b' c' b2 c2 : (i < 2)%nat -> (i' < 2)%nat -> i' <> i -> bus_at i' (hw (st i b' c' b2 c2)) = bus_at i' (hw (st i b' c' b c)).
Proof. intros Hi Hi' Hn. unfold st, bus_at. destruct i as [|[|]]; [..|lia]; destruct i' as [|i']; done || lia. Qed.

Lemma detected_same i i' j b c b' c' b2 d d2 : (i < 2)%nat -> (j < 2)%nat -> devices c !! j = Some d -> is_ata d2 = is_ata d ->
  forall j', detected (st i b' c' b2 (used j d2 c)) i' j' = detected (st i b' c' b c) i' j'.
Proof.
  intros Hi Hj Hd Ha j'. unfold detected, st, used.
  assert (Hx : match <[j := d2]> (devices c) !! j' with Some d => is_ata d | None => false end = match devices c !! j' with Some d => is_ata d | None => false end).
  { destruct (decide (j' = j)) as [->|]; [|by rewrite list_lookup_insert_ne]. rewrite list_lookup_insert_eq by (by apply lookup_lt_Some in Hd). by rewrite Hd. }
  destruct i as [|[|]]; [..|lia]; destruct i' as [|[|i']]; cbn; try done.
Qed.

(** A channel at rest can be used. *)
Lemma chan_usable p i j b c : chan_ok p i b c -> match devices c !! j with Some d => is_ata d | None => false end = true -> (j < 2)%nat ->
  exists d dv, usable i j b c d dv.
Proof.
  intros Hc Hd Hj. destruct (devices c !! j) as [d|] eqn:E; [|done]. destruct (co_ata _ _ _ _ Hc j d E Hd) as (dv & Hdv & Hcap).
  exists d, dv. split; [apply Hc|apply Hc|done|done|done|by apply Hc|done|apply Hc|apply Hc].
Qed.

(** The channel after an operation that leaves it with bus [b2]. *)
Lemma chan_ok_used p i j b c d dv b2 rd wr dv2 : chan_ok p i b c -> usable i j b c d dv -> quiet b2 ->
  dev_at j b2 = Some dv2 -> capacity (dev_disk dv2) = capacity (dev_disk dv) -> disk_ok (dev_disk dv2) -> (forall sec, Forall is_u8 (sector (dev_disk dv2) sec)) ->
  dev_at (1 - j) b2 = dev_at (1 - j) b -> Forall (fun n => (n < 3000 /\ n < p)%nat) (lags b2) ->
  chan_ok p i b2 (used j (counted rd wr d) c).
Proof.
  intros Hc Hu Hq2 Hd2 Hcap Hok Hby Ho Hl. pose proof (us_drive _ _ _ _ _ _ Hu) as Hd. pose proof (us_j _ _ _ _ _ _ Hu) as Hj.
  assert (Hother : forall j' x, (j' < 2)%nat -> j' <> j -> dev_at j' b2 = x <-> dev_at j' b = x).
  { intros j' x Hj' Hn. replace j' with (1 - j)%nat by lia. by rewrite Ho. }
  split; [apply Hc|done|apply Hc|apply Hc|..].
  - intros j' d' Hd'. cbn in Hd'. destruct (decide (j' = j)) as [->|Hn]; [|rewrite list_lookup_insert_ne in Hd' by done; by apply (co_drives _ _ _ _ Hc)].
    rewrite list_lookup_insert_eq in Hd' by (by apply lookup_lt_Some in Hd). injection Hd' as <-. apply Hu.
  - cbn. rewrite length_insert. apply Hc.
  - intros j' d' Hd' Ha. cbn in Hd'. destruct (decide (j' = j)) as [->|Hn].
    + rewrite list_lookup_insert_eq in Hd' by (by apply lookup_lt_Some in Hd). injection Hd' as <-. exists dv2. split; [done|]. cbn. rewrite Hcap. apply Hu.
    + rewrite list_lookup_insert_ne in Hd' by done. destruct (co_ata _ _ _ _ Hc j' d' Hd' Ha) as (dv' & Hdv' & ?). exists dv'. split; [|done].
      apply Hother; [|done|done]. pose proof (lookup_lt_Some _ _ _ Hd') as Hlt. by rewrite (co_two _ _ _ _ Hc) in Hlt.
  - intros j' dv' Hdv'. destruct (decide (j' = j)) as [->|Hn]; [naive_solver|].
    destruct (decide (j' < 2)%nat) as [Hl'|Hl']; [apply (co_disks _ _ _ _ Hc j'); by apply Hother|].
    assert (Hx : dev_at j' b2 = dev_at 1 b2) by (unfold dev_at; destruct j'; [lia|done]). rewrite Hx in Hdv'.
    destruct (decide (j = 1%nat)) as [->|]; [naive_solver|]. apply (co_disks _ _ _ _ Hc 1%nat). apply Hother; [lia|done|done].
  - done.
Qed.

(** C11: The driver does on ATA devices what Disk.v promises to the rest of the
    kernel: on a disk that was detected, reading returns the sector, writing
    replaces exactly it, a number beyond the disk or the 28 bits of an address
    stops the machine, and the other disks of both channels keep their
    contents.  The channels are at rest again afterwards, and no call waits
    forever, however the device times its interrupts within the limits that
    the driver waits. *)
Theorem disk_driver_refines p i j sec buf s d : ide_ok p s -> (i < 2)%nat -> (j < 2)%nat -> detected s i j = true ->
  disk_of s i j = Some d -> 0 <= sec -> length buf = 512%nat -> Forall is_u8 buf ->
  let same_but k s' := ide_ok p s' /\ forall i' j', (i' < 2)%nat -> (j' < 2)%nat -> detected s' i' j' = detected s i' j' /\ ((i', j') <> k -> disk_of s' i' j' = disk_of s i' j') in
  (match Disk.disk_read sec d with
   | Ret (x, _) => exists s', Ata.disk_read p i j sec s = Ret (x, s') /\ same_but (i, j) s' /\ disk_of s' i j = Some d
   | _ => Ata.disk_read p i j sec s = Panic
   end) /\
  (match Disk.disk_write sec buf d with
   | Ret (_, d') => exists s', Ata.disk_write p i j sec buf s = Ret (tt, s') /\ same_but (i, j) s' /\ disk_of s' i j = Some d'
   | _ => Ata.disk_write p i j sec buf s = Panic
   end).
Proof.
  intros Hok Hi Hj Hdet Hdisk Hs Hlen Hby same_but. pose proof (io_patience _ _ Hok) as Hp.
  destruct (ide_view p i s Hok Hi) as (b & c & b' & c' & -> & Hc & Hc').
  rewrite view_detected in Hdet by done. destruct (chan_usable p i j b c Hc Hdet Hj) as (dr & dv & Hu).
  rewrite view_disk, (us_dev _ _ _ _ _ _ Hu) in Hdisk by done. injection Hdisk as <-.
  destruct (co_disks _ _ _ _ Hc j dv (us_dev _ _ _ _ _ _ Hu)) as [Hdok Hdby].
  assert (Hw' : irq c' = vec_of (1 - i) \/ irq c' = 0) by (left; apply Hc'). assert (Hq' : quiet b') by apply Hc'.
  assert (Hl : (default 0 (head (lags b)) < 3000 /\ default 0 (head (lags b)) < p)%nat) by (pose proof (co_lags _ _ _ _ Hc) as Hl; destruct (lags b); [cbn; lia|by apply Forall_cons in Hl as [? _]]).
  assert (Hl1 : Forall (fun n => (n < 3000 /\ n < p)%nat) (tail (lags b))) by (pose proof (co_lags _ _ _ _ Hc) as Hx; destruct (lags b); [done|by apply Forall_cons in Hx as [_ ?]]).
  assert (Hl2 : (default 0 (head (tail (lags b))) < p)%nat) by (destruct (tail (lags b)); [cbn; lia|by apply Forall_cons in Hl1 as [[_ ?] _]]).
  assert (Hl3 : Forall (fun n => (n < 3000 /\ n < p)%nat) (tail (tail (lags b)))) by (destruct (tail (lags b)); [done|by apply Forall_cons in Hl1 as [_ ?]]).
  assert (Hsame : forall b2 rd wr dv2, quiet b2 -> dev_at j b2 = Some dv2 -> capacity (dev_disk dv2) = capacity (dev_disk dv) -> disk_ok (dev_disk dv2) ->
    (forall sec, Forall is_u8 (sector (dev_disk dv2) sec)) -> dev_at (1 - j) b2 = dev_at (1 - j) b -> Forall (fun n => (n < 3000 /\ n < p)%nat) (lags b2) ->
    same_but (i, j) (st i b' c' b2 (used j (counted rd wr dr) c))).
  { intros b2 rd wr dv2 Q1 Q2 Q3 Q4 Q5 Q6 Q7. split; [apply view_ok; [done|done|by apply (chan_ok_used p i j b c dr dv b2 rd wr dv2)|done]|].
    intros i' j' Hi' Hj'. split; [apply (detected_same i i' j b c b' c' b2 dr); [done|done|apply Hu|done]|]. intros Hn.
    destruct (decide (i' = i)) as [->|Hni]; [|unfold disk_of; by rewrite (bus_other i i' b c)]. rewrite !view_disk by done.
    assert (j' <> j) by congruence. replace j' with (1 - j)%nat by lia. by rewrite Q6. }
  split.
  - pose proof (disk_read_run i Hi b' c' Hq' Hw' p j sec b c dr dv Hu Hs (proj2 Hl) Hdok (Hdby sec)) as Hr.
    unfold Disk.disk_read, mbind, ST_bind, gets, ASSERT. destruct (sec <? capacity (dev_disk dv)); [|exact Hr]. destruct (sec <? 2 ^ 28); [|exact Hr].
    destruct Hr as (b2 & E & Q & E0 & E1 & El). assert (Ed : forall j', dev_at j' b2 = dev_at j' b) by (intros j'; unfold dev_at; by rewrite E0, E1).
    eexists. split; [exact E|]. split; [apply (Hsame b2 1 0 dv); [done|rewrite Ed; apply Hu|done|done|done|apply Ed|by rewrite El]|].
    rewrite view_disk, Ed by done. by rewrite (us_dev _ _ _ _ _ _ Hu).
  - pose proof (disk_write_run i Hi b' c' Hq' Hw' p j sec buf b c dr dv Hu Hs (proj1 Hl) Hl2 Hlen Hby) as Hr.
    unfold Disk.disk_write, mbind, ST_bind, gets, ASSERT, modify. destruct (sec <? capacity (dev_disk dv)); [|exact Hr]. destruct (sec <? 2 ^ 28); [|exact Hr].
    destruct Hr as (b2 & E & Q & E0 & E1 & El). eexists. split; [exact E|]. split; [|rewrite view_disk by done; by rewrite E0].
    apply (Hsame b2 0 1 (mk_device (disk_put sec buf (dev_disk dv)) (dev_id dv))); [done|done|done|by apply disk_put_ok| |done|by rewrite El].
    intros sec'. cbn [dev_disk]. rewrite sector_put. by case_decide.
Qed.

(** ** Detection of the disks *)
Section Init.
Context (p i : nat) (Hp : (0 < p)%nat) (Hi : (i < 2)%nat) (b' : bus) (c' : channel).
Context (Hq : quiet b') (Hw' : irq c' = vec_of (1 - i) \/ irq c' = 0).

Lemma init_channel_run b c : attached p b ->
  exists b2 c2, init_channel p i (st i b' c' b c) = Ret (tt, st i b' c' b2 c2) /\ chan_ok p i b2 c2 /\ alike b b2 /\
    forall j, (j < 2)%nat -> match devices c2 !! j with Some d => is_ata d | None => false end = bool_decide (is_Some (dev_at j b)).
Proof using Hp Hi Hq Hw'.
  intros Hat. unfold init_channel. rewrite (bind_run _ _ _ _ _ (upd_channel_run i Hi b' c' (fun _ => new_channel i) b c)).
  set (c0 := new_channel i). assert (P0 : probing i c0 (mk_drive 0 false 0 0 0) (mk_drive 1 false 0 0 0)) by (split; [split|..]; done).
  destruct (lag_ok p (lags b) Hp (at_lags _ _ Hat)) as [[L1 _] L2].
  destruct (reset_run i Hi b' c' Hq Hw' b c0 _ _ (pr_wired _ _ _ _ P0) (at_quiet _ _ Hat) eq_refl eq_refl eq_refl eq_refl (at_master _ _ Hat) L1) as (b1 & E1 & Q1 & A1 & S1 & Lg1).
  rewrite (bind_run _ _ _ _ _ E1).
  rewrite (bind_run _ _ _ _ _ (check_run i Hi b' c' Hq Hw' 0 b1 c0 _ (pr_wired _ _ _ _ P0) Q1 S1 eq_refl eq_refl ltac:(lia))). cbn [when].
  set (a0 := bool_decide (is_Some (dev_at 0 b1))). set (b2 := write_reg 6 (dev_bits 0) b1). set (c1 := set_devices _ c0).
  rewrite bind_assoc. rewrite (bind_run _ _ _ _ _ (check_run i Hi b' c' Hq Hw' 1 b2 c1 _ (pr_wired _ _ _ _ P0) Q1 S1 eq_refl eq_refl ltac:(lia))).
  set (b3 := write_reg 6 (dev_bits 1) b2). set (a1 := bool_decide (is_Some (dev_at 1 b2))). set (c2 := set_devices _ c1).
  rewrite (bind_run (mret tt) _ _ tt (st i b' c' b3 c2)) by done.
  set (d0 := mk_drive 0 a0 0 0 0). set (d1 := mk_drive 1 a1 0 0 0).
  assert (P2 : probing i c2 d0 d1) by (split; [split|..]; done).
  assert (A3 : alike b b3) by (by destruct A1).
  assert (At3 : attached p b3).
  { split; [done|rewrite (al_dev0 _ _ A3), (al_dev1 _ _ A3); apply Hat|intros j dv; rewrite (alike_dev _ _ j A3); apply Hat|].
    change (lags b3) with (lags b1). rewrite Lg1. destruct (has_dev b); [done|apply Hat]. }
  rewrite (bind_run _ _ _ _ _ (get_drive_run i Hi b' c' 0 b3 c2 d0 eq_refl)).
  destruct (identify_if i Hi b' c' Hq Hw' p 0 b3 c2 d0 d1 d0 Hp At3 P2 ltac:(lia) eq_refl eq_refl) as (b4 & c4 & e0 & E4 & At4 & A4 & Ha0 & Hc0 & P4).
  rewrite (bind_run _ _ _ _ _ E4). cbn [decide decide_rel] in P4.
  rewrite (bind_run _ _ _ _ _ (get_drive_run i Hi b' c' 1 b4 c4 d1 ltac:(by rewrite (pr_devices _ _ _ _ P4)))).
  destruct (identify_if i Hi b' c' Hq Hw' p 1 b4 c4 e0 d1 d1 Hp At4 P4 ltac:(lia) eq_refl) as (b5 & c5 & e1 & E5 & At5 & A5 & Ha1 & Hc1 & P5).
  { rewrite (alike_dev _ _ 1 A4). done. }
  rewrite E5. exists b5, c5. split; [done|]. assert (A15 : alike b b5) by (destruct A3, A4, A5; split; congruence).
  assert (D0 : is_ata e0 = bool_decide (is_Some (dev_at 0 b))) by (rewrite Ha0; cbn; unfold a0; by rewrite (alike_dev _ _ 0 A1)).
  assert (D1 : is_ata e1 = bool_decide (is_Some (dev_at 1 b))) by (rewrite Ha1; cbn; unfold a1; by rewrite <- (alike_dev _ _ 1 A1)).
  cbn [decide decide_rel] in P5. destruct P5 as [Hw5 Hh5 Hcm5 Hds5 Hn0 Hn1]. split; [|split; [done|]].
  - split; [done|apply At5|done|done|..].
    + intros j d. rewrite Hds5. destruct j as [|[|]]; [by intros [= <-]..|done].
    + by rewrite Hds5.
    + intros j d. rewrite Hds5. rewrite (alike_dev _ _ j A15). destruct j as [|[|]]; [intros [= <-]; rewrite D0|intros [= <-]; rewrite D1|done];
        intros [dv Hdv]%bool_decide_eq_true_1; exists dv; (split; [done|]).
      * apply Hc0. by rewrite (alike_dev _ _ 0 A3).
      * apply Hc1. by rewrite (alike_dev _ _ 1 A4), (alike_dev _ _ 1 A3).
    + intros j dv Hdv. destruct (at_disks _ _ At5 j dv Hdv) as (? & ? & _). done.
    + apply At5.
  - intros j Hj. rewrite Hds5. destruct j as [|[|]]; [exact D0|exact D1|lia].
Qed.
End Init.

(** What the rest of the kernel asks the driver after detection. *)
Lemma disk_get_run p s (i j : nat) : ide_ok p s -> (i < 2)%nat -> (j < 2)%nat ->
  disk_get i j s = Ret (if detected s i j then Some (i, j) else None, s) /\
  (forall d, detected s i j = true -> disk_of s i j = Some d -> Ata.disk_size i j s = Ret (capacity d, s)).
Proof.
  intros Hok Hi Hj. destruct (ide_view p i s Hok Hi) as (b & c & b' & c' & -> & Hc & Hc').
  rewrite view_detected, view_disk by done. destruct (devices c !! j) as [d|] eqn:Ed.
  2: { apply lookup_ge_None in Ed. rewrite (co_two _ _ _ _ Hc) in Ed. lia. }
  split.
  - unfold disk_get. rewrite (bind_run (ASSERT _) _ _ tt (st i b' c' b c)) by (by destruct j as [|[|]]; [..|lia]).
    destruct (Z.ltb_spec i CHANNEL_CNT); [|unfold CHANNEL_CNT in *; lia]. rewrite !Nat2Z.id. by rewrite (bind_run _ _ _ _ _ (get_drive_run i Hi b' c' j b c d Ed)).
  - intros d' Ha Hd. unfold Ata.disk_size. rewrite (bind_run _ _ _ _ _ (get_drive_run i Hi b' c' j b c d Ed)).
    destruct (co_ata _ _ _ _ Hc j d Ed Ha) as (dv & Edv & Ecap). rewrite Edv in Hd. injection Hd as <-. by rewrite Ecap.
Qed.


(** *** An example: a disk of 8192 sectors as the first device of channel 0 *)
Definition demo_device : device := mk_device (mk_disk 8192 ∅) (replicate 60 0 ++ [8192; 0] ++ replicate 194 0).
Definition demo_bus (d : option device) : bus := mk_bus d None 0 0 0 0 0 0 Idle false [2; 0; 7; 3]%nat.
Definition demo_ide : ide hardware :=
  mk_ide (mk_hardware (demo_bus (Some demo_device)) (demo_bus None)) [mk_channel 0 0 false false 0 []; mk_channel 0 0 false false 0 []].

Lemma demo_attached d : d = None \/ d = Some demo_device -> attached 100 (demo_bus d).
Proof.
  intros Hd. split; [done|by intros [? ?]| |repeat constructor; lia].
  intros j dv Hj. assert (E : dv = demo_device) by (unfold dev_at in Hj; case_decide; destruct Hd as [-> | ->]; cbn in Hj; congruence). subst dv.
  split; [split; [done|done]|split].
  - intros sec. change (Forall is_u8 zero_sector). by apply Forall_replicate.
  - by split.
Qed.


Lemma demo_found : exists s, disk_init 100 demo_ide = Ret (tt, s) /\ ide_ok 100 s /\ detected s 0 0 = true /\ disk_of s 0 0 = Some (mk_disk 8192 ∅).
Proof.
  destruct (init_channel_run 100 0 ltac:(lia) ltac:(lia) (demo_bus None) (mk_channel 0 0 false false 0 []) ltac:(done) ltac:(by right)
    (demo_bus (Some demo_device)) (mk_channel 0 0 false false 0 []) ltac:(apply demo_attached; by right)) as (b2 & c2 & E1 & C1 & A1 & D1).
  destruct (init_channel_run 100 1 ltac:(lia) ltac:(lia) b2 c2 (co_quiet _ _ _ _ C1) ltac:(left; apply C1) (demo_bus None) (mk_channel 0 0 false false 0 [])
    ltac:(apply demo_attached; by left)) as (b3 & c3 & E2 & C2 & A2 & D2).
  exists (st 1 b2 c2 b3 c3). split; [|split; [by apply view_ok; [lia|lia|..]|]].
  - unfold disk_init. change demo_ide with (st 0 (demo_bus None) (mk_channel 0 0 false false 0 []) (demo_bus (Some demo_device)) (mk_channel 0 0 false false 0 [])).
    rewrite (bind_run _ _ _ _ _ E1). exact E2.
  - split; [exact (D1 0%nat ltac:(lia))|]. change (dev_disk <$> dev_at 0 b2 = Some (mk_disk 8192 ∅)). by rewrite (alike_dev _ _ 0 A1).
Qed.

Lemma demo_read : Disk.disk_read 8191 (mk_disk 8192 ∅) = Ret (zero_sector, mk_disk 8192 ∅) /\ Disk.disk_read 8192 (mk_disk 8192 ∅) = Panic.
Proof. split; reflexivity. Qed.
Lemma demo_sector : length zero_sector = 512%nat /\ Forall is_u8 zero_sector.
Proof. split; [apply length_replicate|by apply Forall_replicate]. Qed.

Lemma disk_driver_refines_witness : exists s s', disk_init 100 demo_ide = Ret (tt, s) /\ Ata.disk_read 100 0 0 8191 s = Ret (zero_sector, s') /\
  Ata.disk_read 100 0 0 8192 s = Panic.
Proof.
  destruct demo_found as (s & E & Hok & Hx & Hd). destruct demo_read as [R1 R2]. destruct demo_sector as [Z1 Z2].
  pose proof (disk_driver_refines 100 0 0 8191 zero_sector s (mk_disk 8192 ∅) Hok ltac:(lia) ltac:(lia) Hx Hd ltac:(lia) Z1 Z2) as [H1 _].
  pose proof (disk_driver_refines 100 0 0 8192 zero_sector s (mk_disk 8192 ∅) Hok ltac:(lia) ltac:(lia) Hx Hd ltac:(lia) Z1 Z2) as [H2 _].
  rewrite R1 in H1. rewrite R2 in H2. destruct H1 as (s' & Hr & _). exists s, s'. split; [exact E|]. split; [exact Hr|exact H2].
Defined.
