(* ===== verification/Swap.v ===== *)
(** * Swap slots: vm/swap.c

    A swap slot is a run of eight sectors of the swap disk.  The free sectors
    are kept as a list of free runs, sorted and coalesced; the list is
    modelled by its sequence ([list_insert_ordered] is the insertion of
    DlistOps.v).  The outcomes of [malloc], which the code does not check,
    are arguments: a null pointer is written through and faults. *)

From S2P Require Import Prelude Vaddr Disk.

Definition SECTORS_PER_FRAME : Z := 8.

(** [struct free_swap_slot]. *)
Record free_swap_slot := mk_free { fs_start : Z; fs_size : Z }.

(** The static variables: the swap disk and the free list. *)
Record swap := mk_swap { swap_disk : disk; free_swap_list : list free_swap_slot }.

Definition with_disk (d : disk) (s : swap) : swap := mk_swap d (free_swap_list s).
Definition with_free (l : list free_swap_slot) (s : swap) : swap := mk_swap (swap_disk s) l.

(** A disk operation on the swap disk. *)
Definition on_disk {A} (m : ST disk A) : ST swap A := fun s =>
  match m (swap_disk s) with
  | Ret (a, d) => Ret (a, with_disk d s)
  | Panic => Panic
  | OutOfFuel => OutOfFuel
  end.

Definition swap_slot_less (a b : free_swap_slot) : bool := fs_start a <? fs_start b.

(** [list_insert_ordered]: what is before and after the place of [e]. *)
Fixpoint insert_place (e : free_swap_slot) (l : list free_swap_slot) : list free_swap_slot * list free_swap_slot :=
  match l with
  | [] => ([], [])
  | y :: ys =>
    if swap_slot_less e y then ([], y :: ys)
    else let '(pre, post) := insert_place e ys in (y :: pre, post)
  end.

Definition swap_init (mem : bool) (d : disk) : outcome swap :=
  check mem;;
  Ret (mk_swap d [mk_free 0 (disk_size d)]).

(** The loop over the list: the first run of at least eight sectors, with
    what is before and after it. *)
Fixpoint find_run (l : list free_swap_slot) : option (list free_swap_slot * free_swap_slot * list free_swap_slot) :=
  match l with
  | [] => None
  | f :: l =>
    if SECTORS_PER_FRAME <=? fs_size f then Some ([], f, l)
    else match find_run l with Some (pre, g, post) => Some (f :: pre, g, post) | None => None end
  end.

Definition false_sector (s : swap) : Z := disk_size (swap_disk s) +u 1.

Definition alloc_swap_slot : ST swap Z :=
  l ← gets free_swap_list;
  match find_run l with
  | None => gets false_sector
  | Some (pre, f, post) =>
    (if fs_size f =? SECTORS_PER_FRAME then modify (with_free (pre ++ post))
     else modify (with_free (pre ++ mk_free (fs_start f +u SECTORS_PER_FRAME) (fs_size f -u SECTORS_PER_FRAME) :: post)));;
    mret (fs_start f)
  end.

(** "Try to merge with the swap slot on the right." *)
Definition merge_right (f : free_swap_slot) (post : list free_swap_slot) : free_swap_slot * list free_swap_slot :=
  match post with
  | t :: post' => if fs_start f +u fs_size f =? fs_start t
                  then (mk_free (fs_start f) (fs_size f +u fs_size t), post') else (f, post)
  | [] => (f, post)
  end.

(** [mem]: the allocation of the list node. *)
Definition free_swap_slot_op (mem : bool) (ss : Z) : ST swap unit :=
  ASSERT mem;;
  let f := mk_free ss SECTORS_PER_FRAME in
  l ← gets free_swap_list;
  let '(pre, post) := insert_place f l in
  let '(f, post) := merge_right f post in
  (* "Try to merge with the swap slot on the left." *)
  match reverse pre with
  | t :: rpre =>
    if fs_start f =? fs_start t +u fs_size t
    then modify (with_free (reverse rpre ++ mk_free (fs_start t) (fs_size t +u fs_size f) :: post))
    else modify (with_free (pre ++ f :: post))
  | [] => modify (with_free (pre ++ f :: post))
  end.

(** [for (pos = 0; pos < PGSIZE; pos += DISK_SECTOR_SIZE, start++)]: eight
    iterations. *)
Fixpoint write_frame (fuel : nat) (frame : list Z) (pos start : Z) : ST swap unit :=
  match fuel with
  | O => no_fuel
  | S fuel =>
    if pos <? PGSIZE then
      on_disk (disk_write start (take 512 (drop (Z.to_nat pos) frame)));;
      write_frame fuel frame (pos + DISK_SECTOR_SIZE) (start +u 1)
    else mret tt
  end.

Fixpoint read_frame (fuel : nat) (pos start : Z) : ST swap (list Z) :=
  match fuel with
  | O => no_fuel
  | S fuel =>
    if pos <? PGSIZE then
      b ← on_disk (disk_read start);
      rest ← read_frame fuel (pos + DISK_SECTOR_SIZE) (start +u 1);
      mret (b ++ rest)
    else mret []
  end.

(** [frame]: the page at the address, [None] for a null pointer. *)
Definition swap_slot_write (mem : bool) (frame : option (list Z)) : ST swap (option Z) :=
  match frame with
  | None => mret None
  | Some frame =>
    start ← alloc_swap_slot;
    f ← gets false_sector;
    if start =? f then mret None
    else
      ASSERT mem;;
      write_frame 9 frame 0 start;;
      mret (Some start)
  end.

(** The result is what was read into the frame; [frame] says whether the
    pointer is non-null. *)
Definition swap_slot_read (mem frame : bool) (ss : Z) : ST swap (option (list Z)) :=
  if frame then
    bytes ← read_frame 9 0 ss;
    free_swap_slot_op mem ss;;
    mret (Some bytes)
  else mret None.

(** ** Free sectors *)

Definition run_end (f : free_swap_slot) : Z := fs_start f + fs_size f.
Definition in_run (f : free_swap_slot) (x : Z) : Prop := fs_start f <= x < run_end f.
Definition is_free (l : list free_swap_slot) (x : Z) : Prop := exists f, f ∈ l /\ in_run f x.

(** Sorted, non-empty, below [cap], and no run touches the next one. *)
Fixpoint canon (cap lo : Z) (l : list free_swap_slot) : Prop :=
  match l with
  | [] => True
  | f :: l => lo < fs_start f /\ 0 < fs_size f /\ run_end f <= cap /\ canon cap (run_end f) l
  end.

(** The end of the last run, or [lo]. *)
Definition last_end (lo : Z) (l : list free_swap_slot) : Z := from_option run_end lo (last l).

Lemma last_end_cons lo f l : last_end lo (f :: l) = last_end (run_end f) l.
Proof. unfold last_end. destruct l; [done|]. rewrite last_cons_cons. by destruct (last (f0 :: l)) eqn:E; [|apply last_None in E]. Qed.
Lemma last_end_snoc lo l f : last_end lo (l ++ [f]) = run_end f.
Proof. unfold last_end. by rewrite last_snoc. Qed.

Lemma canon_app cap lo l1 l2 : canon cap lo (l1 ++ l2) <-> canon cap lo l1 /\ canon cap (last_end lo l1) l2.
Proof.
  revert lo. induction l1 as [|f l1 IH]; intros lo; simpl; [unfold last_end; simpl; tauto|].
  rewrite IH, last_end_cons. tauto.
Qed.

Lemma canon_lower cap lo lo' l : canon cap lo l -> lo' <= lo -> canon cap lo' l.
Proof. destruct l; simpl; [done|]. intros (? & ? & ? & ?) ?. split_and!; [lia|done..]. Qed.

Lemma is_free_nil x : is_free [] x <-> False.
Proof. split; [|done]. intros (f & Hf & _). by apply elem_of_nil in Hf. Qed.
Lemma is_free_cons f l x : is_free (f :: l) x <-> in_run f x \/ is_free l x.
Proof. unfold is_free. setoid_rewrite elem_of_cons. naive_solver. Qed.
Lemma is_free_app l1 l2 x : is_free (l1 ++ l2) x <-> is_free l1 x \/ is_free l2 x.
Proof. unfold is_free. setoid_rewrite elem_of_app. naive_solver. Qed.

Lemma canon_range cap lo l x : canon cap lo l -> is_free l x -> lo < x < cap.
Proof.
  revert lo. induction l as [|f l IH]; intros lo; simpl; [by rewrite is_free_nil|].
  intros (? & ? & ? & Hc) [Hx|Hx]%is_free_cons; unfold in_run, run_end in *; [lia|]. apply (IH _ Hc) in Hx. lia.
Qed.

Lemma canon_last cap lo l : canon cap lo l -> lo <= last_end lo l /\ (lo <= cap -> last_end lo l <= cap).
Proof.
  revert lo. induction l as [|f l IH]; intros lo; [unfold last_end; simpl; lia|].
  rewrite last_end_cons. simpl. unfold run_end in *. intros (? & ? & ? & Hc). apply IH in Hc. lia.
Qed.

(** *** Allocation *)

Lemma find_run_Some l pre f post : find_run l = Some (pre, f, post) ->
  l = pre ++ f :: post /\ 8 <= fs_size f /\ Forall (fun g => fs_size g < 8) pre.
Proof.
  revert pre. induction l as [|g l IH]; intros pre; simpl; [done|]. unfold SECTORS_PER_FRAME.
  destruct (Z.leb_spec 8 (fs_size g)); [intros [= <- <- <-]; by split_and!|].
  destruct (find_run l) as [[[pre' g'] post']|]; [|done]. intros [= <- <- <-].
  destruct (IH _ eq_refl) as (-> & ? & ?). split_and!; [done|done|by constructor].
Qed.
Lemma find_run_None l : find_run l = None -> Forall (fun g => fs_size g < 8) l.
Proof.
  induction l as [|g l IH]; simpl; [done|]. unfold SECTORS_PER_FRAME.
  destruct (Z.leb_spec 8 (fs_size g)); [done|]. destruct (find_run l) as [[[]]|]; [done|]. constructor; auto.
Qed.

Lemma alloc_canon cap pre f post : cap <= 2 ^ 28 -> canon cap (-1) (pre ++ f :: post) -> 8 <= fs_size f ->
  let l' := if fs_size f =? 8 then pre ++ post
            else pre ++ mk_free (fs_start f +u 8) (fs_size f -u 8) :: post in
  canon cap (-1) l' /\ 0 <= fs_start f /\ fs_start f + 8 <= cap /\
  (forall x, fs_start f <= x < fs_start f + 8 -> is_free (pre ++ f :: post) x) /\
  (forall x, is_free l' x <-> is_free (pre ++ f :: post) x /\ ~ (fs_start f <= x < fs_start f + 8)).
Proof.
  intros Hcap Hc Hs l'. apply canon_app in Hc as [Hpre (Hlo & _ & Hend & Hpost)].
  destruct (canon_last _ _ _ Hpre) as [Hl _]. unfold run_end in *.
  assert (Hout : forall x, is_free pre x -> x < fs_start f).
  { clear -Hpre Hlo. revert Hpre Hlo. generalize (-1). induction pre as [|g pre IH]; intros lo; [by intros _ _ x ?%is_free_nil|].
    rewrite last_end_cons. simpl. intros (_ & _ & _ & Hp) Hlo x [Hx|Hx]%is_free_cons; [|by eapply IH].
    destruct (canon_last _ _ _ Hp). unfold in_run in Hx. lia. }
  assert (Hout2 : forall x, is_free post x -> fs_start f + fs_size f < x).
  { intros x Hx. eapply canon_range in Hx; [|exact Hpost]. lia. }
  assert (Hin : forall x, fs_start f <= x < fs_start f + 8 -> is_free (pre ++ f :: post) x).
  { intros x Hx. rewrite is_free_app, is_free_cons. right. left. unfold in_run, run_end. lia. }
  assert (Hsplit : forall x, is_free (pre ++ f :: post) x <-> is_free pre x \/ in_run f x \/ is_free post x).
  { intros x. by rewrite is_free_app, is_free_cons. }
  subst l'. destruct (Z.eqb_spec (fs_size f) 8) as [E|Hne].
  - split_and!; [|lia|lia|done|].
    + apply canon_app. split; [done|]. eapply canon_lower; [done|]. lia.
    + intros x. rewrite Hsplit, is_free_app. unfold in_run, run_end.
      split; [|naive_solver lia]. intros [Hx|Hx]; [apply Hout in Hx as ?|apply Hout2 in Hx as ?]; split; tauto || lia.
  - rewrite !u32_small by (urange; lia). split_and!; [|lia|lia|done|].
    + apply canon_app. split; [done|]. simpl. unfold run_end. simpl. split_and!; [lia..|].
      by replace (fs_start f + 8 + (fs_size f - 8)) with (fs_start f + fs_size f) by lia.
    + intros x. rewrite Hsplit, is_free_app, is_free_cons. unfold in_run, run_end. simpl. split.
      * intros [Hx|[Hx|Hx]]; [apply Hout in Hx as ?| |apply Hout2 in Hx as ?]; split; tauto || lia.
      * intros [[Hx|[Hx|Hx]] Hn]; [by left|right; left; lia|by right; right].
Qed.

(** *** Freeing *)

Lemma insert_place_spec f l pre post : insert_place f l = (pre, post) ->
  l = pre ++ post /\ Forall (fun g => fs_start g <= fs_start f) pre /\
  match post with [] => True | t :: _ => fs_start f < fs_start t end.
Proof.
  revert pre. induction l as [|y l IH]; intros pre; simpl; [by intros [= <- <-]|]. unfold swap_slot_less.
  destruct (Z.ltb_spec (fs_start f) (fs_start y)); [by intros [= <- <-]|].
  destruct (insert_place f l) as [pre' post'] eqn:E. intros [= <- <-].
  destruct (IH _ eq_refl) as (-> & ? & ?). split_and!; [done|by constructor|done].
Qed.

Lemma merge_right_spec cap f post f' post' : cap <= 2 ^ 28 -> 0 <= fs_start f -> 0 < fs_size f -> run_end f <= cap ->
  canon cap (run_end f - 1) post -> merge_right f post = (f', post') ->
  fs_start f' = fs_start f /\ 0 < fs_size f' /\ run_end f' <= cap /\ canon cap (run_end f') post' /\
  forall x, in_run f' x \/ is_free post' x <-> in_run f x \/ is_free post x.
Proof.
  intros Hcap H0 Hs He Hc. unfold merge_right. destruct post as [|t post]; [by intros [= <- <-]|].
  destruct Hc as (Hlo & Hts & Hte & Hc). unfold run_end in *.
  rewrite (u32_small (fs_start f + fs_size f)) by (urange; lia).
  destruct (Z.eqb_spec (fs_start f + fs_size f) (fs_start t)) as [E|Hne]; intros [= <- <-].
  - rewrite u32_small by (urange; lia). simpl. split_and!; [done|lia|lia| |].
    + by replace (fs_start f + (fs_size f + fs_size t)) with (fs_start t + fs_size t) by lia.
    + intros x. rewrite is_free_cons. unfold in_run, run_end. simpl. split; intros; naive_solver lia.
  - split_and!; [done..| |done]. simpl. unfold run_end. split_and!; [lia|done..].
Qed.

Lemma free_canon cap l s pre post : cap <= 2 ^ 28 -> canon cap (-1) l -> 0 <= s -> s + 8 <= cap ->
  (forall x, s <= x < s + 8 -> ~ is_free l x) -> insert_place (mk_free s 8) l = (pre, post) ->
  l = pre ++ post /\ canon cap (-1) pre /\ last_end (-1) pre <= s /\ canon cap (s + 8 - 1) post.
Proof.
  intros Hcap Hc H0 Hs Hno Hi. destruct (insert_place_spec _ _ _ _ Hi) as (-> & Hpre & Hpost). simpl in *.
  apply canon_app in Hc as [Hc1 Hc2]. split_and!; [done|done| |].
  - destruct (decide (pre = [])) as [->|Hne]; [unfold last_end; simpl; lia|].
    apply exists_last in Hne as (pre' & t & ->). rewrite last_end_snoc. apply Forall_app in Hpre as [_ Ht].
    rewrite Forall_singleton in Ht. apply canon_app in Hc1 as [_ (_ & Hts & _ & _)]. unfold run_end.
    destruct (decide (fs_start t + fs_size t <= s)); [done|exfalso]. apply (Hno s); [lia|].
    rewrite !is_free_app, is_free_cons. left. right. left. unfold in_run, run_end. lia.
  - destruct post as [|t post]; [done|]. destruct Hc2 as (_ & Hts & Hte & Hc2). split_and!; [|done..].
    destruct (decide (s + 8 - 1 < fs_start t)); [done|exfalso]. apply (Hno (fs_start t)); [lia|].
    rewrite is_free_app, is_free_cons. right. left. unfold in_run, run_end. lia.
Qed.

Lemma wp_free_swap_slot s st Q : capacity (swap_disk st) <= 2 ^ 28 ->
  canon (capacity (swap_disk st)) (-1) (free_swap_list st) -> 0 <= s -> s + 8 <= capacity (swap_disk st) ->
  (forall x, s <= x < s + 8 -> ~ is_free (free_swap_list st) x) ->
  (forall l', canon (capacity (swap_disk st)) (-1) l' ->
     (forall x, is_free l' x <-> is_free (free_swap_list st) x \/ s <= x < s + 8) -> Q tt (with_free l' st)) ->
  wp (free_swap_slot_op true s) st Q.
Proof.
  intros Hcap Hc H0 Hs Hno HQ. set (cap := capacity (swap_disk st)) in *.
  unfold free_swap_slot_op. apply wp_bind, wp_assert; [done|]. apply wp_bind, wp_gets.
  destruct (insert_place (mk_free s SECTORS_PER_FRAME) (free_swap_list st)) as [pre post] eqn:Ei.
  destruct (free_canon cap _ s pre post Hcap Hc H0 Hs Hno Ei) as (El & Hpre & Hlast & Hpost).
  destruct (merge_right (mk_free s SECTORS_PER_FRAME) post) as [f' post'] eqn:Em.
  destruct (merge_right_spec cap (mk_free s SECTORS_PER_FRAME) post f' post' Hcap H0 eq_refl Hs Hpost Em) as (Hst & Hsz & Hend & Hpost' & Hfree).
  simpl in Hst. unfold run_end in *.
  assert (Hall : forall x, is_free (pre ++ f' :: post') x <-> is_free (free_swap_list st) x \/ s <= x < s + 8).
  { intros x. rewrite El, !is_free_app, is_free_cons, Hfree. unfold in_run, run_end, SECTORS_PER_FRAME. simpl. tauto. }
  assert (Hplain : last_end (-1) pre < s -> Q tt (with_free (pre ++ f' :: post') st)).
  { intros Hlt. apply HQ; [|done]. apply canon_app. split; [done|]. simpl. unfold run_end. rewrite Hst.
    split_and!; [done..|lia|by rewrite <- Hst]. }
  destruct (reverse pre) as [|t rpre] eqn:Er.
  - apply wp_modify, Hplain. assert (pre = []) as -> by (destruct pre; [done|];
      apply (f_equal length) in Er; by rewrite length_reverse in Er). unfold last_end. simpl. lia.
  - assert (pre = reverse rpre ++ [t]) as ->.
    { rewrite <- (reverse_involutive pre), Er, reverse_cons. done. }
    rewrite last_end_snoc in *. unfold run_end in *. apply canon_app in Hpre as [Hrp (Htl & Hts & Hte & _)].
    destruct (canon_last _ _ _ Hrp) as [Hrl _]. unfold run_end in *.
    rewrite (u32_small (fs_start t + fs_size t)) by (urange; lia). rewrite Hst.
    destruct (Z.eqb_spec s (fs_start t + fs_size t)) as [E|Hne]; [|apply wp_modify, Hplain; lia].
    apply wp_modify. rewrite u32_small by (urange; lia). apply HQ.
    + apply canon_app. split; [done|]. simpl. unfold run_end. simpl. split_and!; [done|lia|lia|].
      by replace (fs_start t + (fs_size t + fs_size f')) with (fs_start f' + fs_size f') by lia.
    + intros x. rewrite <- Hall. rewrite !is_free_app, !is_free_cons, is_free_nil. unfold in_run, run_end. simpl.
      split; intros; naive_solver lia.
Qed.

(** ** Slots in use

    [live] gives, for the first sector of every slot in use, the page that
    was written there. *)
Definition page_at (d : disk) (s : Z) : list Z := concat (sector d <$> seqZ s 8).

Record swap_ok (st : swap) (live : gmap Z (list Z)) : Prop := {
  sw_disk : disk_ok (swap_disk st);
  sw_canon : canon (capacity (swap_disk st)) (-1) (free_swap_list st);
  sw_live s p : live !! s = Some p -> 0 <= s /\ s + 8 <= capacity (swap_disk st) /\
    page_at (swap_disk st) s = p /\ forall x, s <= x < s + 8 -> ~ is_free (free_swap_list st) x;
  sw_disjoint s1 s2 : is_Some (live !! s1) -> is_Some (live !! s2) -> s1 <> s2 -> s1 + 8 <= s2 \/ s2 + 8 <= s1;
  sw_total x : 0 <= x < capacity (swap_disk st) ->
    is_free (free_swap_list st) x \/ exists s, is_Some (live !! s) /\ s <= x < s + 8;
}.

Lemma wp_swap_disk {A} (m : ST disk A) st Q : wp m (swap_disk st) (fun a d => Q a (with_disk d st)) -> wp (on_disk m) st Q.
Proof. unfold wp, on_disk. by destruct (m (swap_disk st)) as [[a d]| |]. Qed.

(** The state of a disk after [write_frame] has written from [pos] on. *)
Definition written (d d' : disk) (frame : list Z) (start : Z) (i : Z) : Prop :=
  disk_ok d' /\ capacity d' = capacity d /\
  (forall j, i <= j < 8 -> sector d' (start + j) = take 512 (drop (Z.to_nat (512 * j)) frame)) /\
  (forall x, ~ (start + i <= x < start + 8) -> sector d' x = sector d x).

Lemma wp_write_frame (fuel : nat) frame st i start Q : disk_ok (swap_disk st) -> length frame = 4096%nat ->
  0 <= start -> start + 8 <= capacity (swap_disk st) -> 0 <= i <= 8 -> 8 < i + fuel ->
  (forall d', written (swap_disk st) d' frame start i -> Q tt (with_disk d' st)) ->
  wp (write_frame fuel frame (512 * i) (start + i)) st Q.
Proof.
  intros Hd Hlen Hs Hcap. revert st i Hd Hcap. induction fuel as [|fuel IH]; intros st i Hd Hcap Hi Hf HQ; [lia|].
  simpl. rewrite PGSIZE_eq. destruct (Z.ltb_spec (512 * i) 4096).
  - pose proof (dk_cap _ Hd). set (b := take 512 _).
    assert (Hb : length b = 512%nat) by (subst b; rewrite length_take, length_drop; lia).
    apply wp_bind, wp_swap_disk, wp_disk_write; [done|lia|].
    unfold DISK_SECTOR_SIZE. rewrite u32_small by (urange; lia).
    replace (512 * i + 512) with (512 * (i + 1)) by lia. replace (start + i + 1) with (start + (i + 1)) by lia.
    apply IH; simpl; [by apply disk_put_ok|done|lia|lia|].
    intros d' (Hok & Hc & Hw & Hk). unfold with_disk in *. simpl. apply HQ. split_and!; [done|done| |].
    + intros j Hj. destruct (decide (j = i)) as [->|]; [|apply Hw; lia].
      rewrite Hk, sector_put, decide_True by lia. done.
    + intros x Hx. rewrite Hk, sector_put, decide_False by lia. done.
  - assert (i = 8) as -> by lia. apply wp_ret.
    replace st with (with_disk (swap_disk st) st) at 1 by by destruct st.
    apply HQ. split_and!; [done|done| |done]. intros j Hj. lia.
Qed.

Lemma wp_read_frame (fuel : nat) st i start Q : disk_ok (swap_disk st) ->
  0 <= start -> start + 8 <= capacity (swap_disk st) -> 0 <= i <= 8 -> 8 < i + fuel ->
  Q (concat (sector (swap_disk st) <$> seqZ (start + i) (8 - i))) st ->
  wp (read_frame fuel (512 * i) (start + i)) st Q.
Proof.
  intros Hd Hs Hcap. revert i Q. induction fuel as [|fuel IH]; intros i Q Hi Hf HQ; [lia|].
  simpl. rewrite PGSIZE_eq. destruct (Z.ltb_spec (512 * i) 4096).
  - pose proof (dk_cap _ Hd). apply wp_bind, wp_swap_disk, wp_disk_read; [done|lia|].
    replace (with_disk (swap_disk st) st) with st by by destruct st.
    unfold DISK_SECTOR_SIZE. rewrite u32_small by (urange; lia).
    replace (512 * i + 512) with (512 * (i + 1)) by lia. replace (start + i + 1) with (start + (i + 1)) by lia.
    apply wp_bind, IH; [lia|lia|]. apply wp_ret.
    rewrite (seqZ_cons (start + i) (8 - i)) in HQ by lia. simpl in HQ.
    replace (Z.succ (start + i)) with (start + (i + 1)) in HQ by lia.
    replace (Z.pred (8 - i)) with (8 - (i + 1)) in HQ by lia. done.
  - assert (i = 8) as -> by lia. apply wp_ret. done.
Qed.

(** Eight pieces of 512 bytes make up the page. *)
Lemma chunks_concat (frame : list Z) : length frame = 4096%nat ->
  concat ((fun j => take 512 (drop (Z.to_nat (512 * j)) frame)) <$> seqZ 0 8) = frame.
Proof.
  intros Hl. change (seqZ 0 8) with [0;1;2;3;4;5;6;7]. cbn [fmap list_fmap concat].
  rewrite app_nil_r.
  assert (Hstep : forall (a b : nat) (l : list Z), (a <= b)%nat -> drop a l = take (b - a) (drop a l) ++ drop b l).
  { intros a b l Hab. rewrite <- (take_drop (b - a) (drop a l)) at 1. rewrite drop_drop. do 2 f_equal. lia. }
  transitivity (drop 0 frame); [|done]. symmetry.
  rewrite (Hstep 0%nat 512%nat) by lia. f_equal. rewrite (Hstep 512%nat 1024%nat) by lia. f_equal.
  rewrite (Hstep 1024%nat 1536%nat) by lia. f_equal. rewrite (Hstep 1536%nat 2048%nat) by lia. f_equal.
  rewrite (Hstep 2048%nat 2560%nat) by lia. f_equal. rewrite (Hstep 2560%nat 3072%nat) by lia. f_equal.
  rewrite (Hstep 3072%nat 3584%nat) by lia. f_equal.
  change (Z.to_nat (512 * 7)) with 3584%nat. rewrite take_ge; [done|]. rewrite length_drop. lia.
Qed.

Lemma written_page d d' frame s : written d d' frame s 0 -> length frame = 4096%nat -> page_at d' s = frame.
Proof.
  intros (_ & _ & Hw & _) Hl. rewrite <- (chunks_concat frame Hl) at 1. unfold page_at. f_equal.
  replace s with (s + 0) at 1 by lia. rewrite <- fmap_add_seqZ, <- list_fmap_compose.
  apply list_fmap_ext. intros k x Hx%list_elem_of_lookup_2%elem_of_seqZ. apply Hw. lia.
Qed.

Lemma page_at_kept d d' frame s s' : written d d' frame s 0 -> s' + 8 <= s \/ s + 8 <= s' -> page_at d' s' = page_at d s'.
Proof.
  intros (_ & _ & _ & Hk) Hdis. unfold page_at. f_equal. apply list_fmap_ext.
  intros k x Hx%list_elem_of_lookup_2%elem_of_seqZ. apply Hk. lia.
Qed.

(** ** Writing and reading pages *)

Lemma alloc_live st live f : swap_ok st live -> f ∈ free_swap_list st -> 8 <= fs_size f ->
  0 <= fs_start f /\ fs_start f + 8 <= capacity (swap_disk st) /\
  live !! fs_start f = None /\
  forall s, is_Some (live !! s) -> s + 8 <= fs_start f \/ fs_start f + 8 <= s.
Proof.
  intros H Hin Hs.
  assert (Hfree : forall x, fs_start f <= x < fs_start f + 8 -> is_free (free_swap_list st) x).
  { intros x Hx. exists f. split; [done|]. unfold in_run, run_end. lia. }
  pose proof (canon_range _ _ _ _ (sw_canon _ _ H) (Hfree (fs_start f) ltac:(lia))) as H1.
  pose proof (canon_range _ _ _ _ (sw_canon _ _ H) (Hfree (fs_start f + 7) ltac:(lia))) as H2.
  assert (Hdis : forall s, is_Some (live !! s) -> s + 8 <= fs_start f \/ fs_start f + 8 <= s).
  { intros s [p Hp]. destruct (sw_live _ _ H s p Hp) as (_ & _ & _ & Hno).
    destruct (decide (s + 8 <= fs_start f \/ fs_start f + 8 <= s)); [done|exfalso].
    apply (Hno (Z.max s (fs_start f))); [lia|]. apply Hfree. lia. }
  split_and!; [lia|lia| |done].
  destruct (live !! fs_start f) eqn:E; [|done]. destruct (Hdis (fs_start f)); [by rewrite E|lia..].
Qed.

Lemma swap_ok_write st live pre f post frame d' :
  swap_ok st live -> free_swap_list st = pre ++ f :: post -> 8 <= fs_size f -> length frame = 4096%nat ->
  written (swap_disk st) d' frame (fs_start f) 0 ->
  swap_ok (mk_swap d' (if fs_size f =? 8 then pre ++ post
                       else pre ++ mk_free (fs_start f +u 8) (fs_size f -u 8) :: post))
    (<[fs_start f := frame]> live).
Proof.
  intros H El Hs Hl Hw. pose proof (sw_disk _ _ H) as Hd. pose proof (dk_cap _ Hd) as Hcap.
  destruct (alloc_live st live f H) as (H0 & H8 & Hnew & Hdis); [rewrite El; set_solver|done|].
  pose proof (sw_canon _ _ H) as Hc. rewrite El in Hc.
  destruct (alloc_canon _ pre f post (proj2 Hcap) Hc Hs) as (Hc' & _ & _ & _ & Hfree).
  set (l' := if fs_size f =? 8 then pre ++ post else _) in *. pose proof Hw as (Hd' & Ecap & _).
  split; simpl.
  - done.
  - by rewrite Ecap.
  - intros s p. rewrite Ecap, lookup_insert. case_decide as E.
    + subst s. intros [= <-]. split_and!; [done|done|by eapply written_page|].
      intros x Hx. rewrite Hfree. tauto.
    + intros Hp. destruct (sw_live _ _ H s p Hp) as (? & ? & <- & Hno). split_and!; [done|done| |].
      * eapply page_at_kept; [done|]. by apply Hdis.
      * intros x Hx. rewrite Hfree, <- El. intros [? _]. by eapply Hno.
  - intros s1 s2. rewrite !lookup_insert. do 2 case_decide; subst; try done; intros ? ? ?.
    + destruct (Hdis s2); [done|lia..].
    + destruct (Hdis s1); [done|lia..].
    + by apply (sw_disjoint _ _ H).
  - intros x Hx. rewrite Ecap in Hx. rewrite Hfree, <- El.
    destruct (sw_total _ _ H x Hx) as [Hx'|(s & Hsl & Hsx)].
    + destruct (decide (fs_start f <= x < fs_start f + 8)); [|by left].
      right. exists (fs_start f). by rewrite lookup_insert_eq.
    + right. exists s. split; [|done]. rewrite lookup_insert. by case_decide.
Qed.

Lemma wp_swap_slot_write st live frame Q : swap_ok st live -> length frame = 4096%nat ->
  (forall r st', match r with
     | Some s => live !! s = None /\ swap_ok st' (<[s := frame]> live)
     | None => st' = st /\ Forall (fun f => fs_size f < 8) (free_swap_list st)
     end -> Q r st') ->
  wp (swap_slot_write true (Some frame)) st Q.
Proof.
  intros H Hl HQ. unfold swap_slot_write, alloc_swap_slot. apply wp_bind, wp_bind, wp_gets.
  pose proof (sw_disk _ _ H) as Hd. pose proof (dk_cap _ Hd) as Hcap.
  destruct (find_run (free_swap_list st)) as [[[pre f] post]|] eqn:Ef.
  - destruct (find_run_Some _ _ _ _ Ef) as (El & Hs & _).
    destruct (alloc_live st live f H) as (H0 & H8 & Hnew & _); [rewrite El; set_solver|done|].
    set (l' := if fs_size f =? 8 then pre ++ post else pre ++ mk_free (fs_start f +u 8) (fs_size f -u 8) :: post).
    apply wp_bind. assert (Hm : forall R, R tt (with_free l' st) ->
      wp (if fs_size f =? SECTORS_PER_FRAME then modify (with_free (pre ++ post))
          else modify (with_free (pre ++ mk_free (fs_start f +u SECTORS_PER_FRAME) (fs_size f -u SECTORS_PER_FRAME) :: post)))
        st R).
    { intros R HR. subst l'. unfold SECTORS_PER_FRAME. by destruct (fs_size f =? 8). }
    apply Hm, wp_ret. apply wp_bind, wp_gets. unfold false_sector, disk_size. cbn [with_free swap_disk].
    rewrite u32_small by (urange; lia). destruct (Z.eqb_spec (fs_start f) (capacity (swap_disk st) + 1)); [lia|].
    apply wp_bind, wp_assert; [done|]. apply wp_bind.
    replace (fs_start f) with (fs_start f + 0) at 1 by lia.
    apply (wp_write_frame 9 frame _ 0 (fs_start f)); simpl; [done|done|lia|lia|lia|lia|]. intros d' Hw. apply wp_ret, HQ.
    split; [done|]. exact (swap_ok_write st live pre f post frame d' H El Hs Hl Hw).
  - apply wp_gets, wp_bind, wp_gets. rewrite Z.eqb_refl. apply wp_ret, HQ. split; [done|]. by apply find_run_None.
Qed.

Lemma wp_swap_slot_read st live s p Q : swap_ok st live -> live !! s = Some p ->
  (forall st', swap_ok st' (delete s live) -> Q (Some p) st') -> wp (swap_slot_read true true s) st Q.
Proof.
  intros H Hp HQ. destruct (sw_live _ _ H s p Hp) as (H0 & H8 & Hpage & Hno).
  pose proof (sw_disk _ _ H) as Hd. pose proof (dk_cap _ Hd) as Hcap.
  unfold swap_slot_read. apply wp_bind. replace s with (s + 0) at 1 by lia.
  apply (wp_read_frame 9 st 0 s); [done|lia|lia|lia|lia|]. rewrite Z.add_0_r. change (concat _) with (page_at (swap_disk st) s). rewrite Hpage.
  apply wp_bind, wp_free_swap_slot; [lia|apply H|done|done|done|]. intros l' Hc Hfree. apply wp_ret, HQ.
  split; simpl; [done|done| | |].
  - intros s' p' [Hne Hp']%lookup_delete_Some. destruct (sw_live _ _ H s' p' Hp') as (? & ? & ? & Hno').
    split_and!; [done..|]. intros x Hx. rewrite Hfree. intros [?|?]; [by eapply Hno'|].
    destruct (sw_disjoint _ _ H s s'); [by rewrite Hp|by rewrite Hp'|done|lia..].
  - intros s1 s2 H1 H2. apply (sw_disjoint _ _ H).
    + rewrite lookup_delete in H1. by case_decide.
    + rewrite lookup_delete in H2. by case_decide.
  - intros x Hx. rewrite Hfree. destruct (sw_total _ _ H x Hx) as [?|(s' & Hs' & ?)]; [by left; left|].
    destruct (decide (s' = s)) as [->|]; [by left; right|]. right. exists s'. by rewrite lookup_delete_ne.
Qed.

(** ** Properties *)

Lemma swap_ok_init d : disk_ok d -> 0 < capacity d -> swap_ok (mk_swap d [mk_free 0 (capacity d)]) ∅.
Proof.
  intros Hd Hc. split; simpl; [done| |done| |].
  - unfold run_end. simpl. split_and!; [lia..|done].
  - intros s1 s2 [? ?]. done.
  - intros x Hx. left. rewrite is_free_cons. left. unfold in_run, run_end. simpl. lia.
Qed.

(** A history of the swap area: pages written, with the slots given out, and
    slots read back, with the pages returned. *)
Inductive swap_event := Write (frame : list Z) (slot : option Z) | Read (slot : Z) (page : list Z).

Inductive swap_run : swap * gmap Z (list Z) -> list swap_event -> swap * gmap Z (list Z) -> Prop :=
| run_nil x : swap_run x [] x
| run_write st live frame r st' evs y : length frame = 4096%nat ->
    swap_slot_write true (Some frame) st = Ret (r, st') ->
    swap_run (st', match r with Some s => <[s := frame]> live | None => live end) evs y ->
    swap_run (st, live) (Write frame r :: evs) y
| run_read st live s page st' evs y : is_Some (live !! s) ->
    swap_slot_read true true s st = Ret (Some page, st') ->
    swap_run (st', delete s live) evs y -> swap_run (st, live) (Read s page :: evs) y.

Lemma swap_run_ok st live evs st' live' : swap_run (st, live) evs (st', live') -> swap_ok st live -> swap_ok st' live'.
Proof.
  remember (st, live) as x eqn:Ex. remember (st', live') as y eqn:Ey. intros Hr. revert st live Ex.
  induction Hr as [x|st0 live0 frame r st1 evs y Hl E Hr IH|st0 live0 s page st1 evs y Hs E Hr IH]; intros st live Ex H; simplify_eq.
  - done.
  - eapply IH; [done..|].
    assert (Hw := wp_swap_slot_write st live frame (fun r st' => match r with
       | Some s => swap_ok st' (<[s := frame]> live) | None => swap_ok st' live end) H Hl).
    apply wp_elim in Hw as (r2 & st2 & E2 & Hok); [rewrite E in E2; injection E2 as <- <-; by destruct r|].
    intros [s|] st2; [by intros [_ ?]|by intros [-> _]].
  - eapply IH; [done..|]. destruct Hs as [p Hp].
    assert (Hw := wp_swap_slot_read st live s p (fun _ st' => swap_ok st' (delete s live)) H Hp).
    apply wp_elim in Hw as (r2 & st2 & E2 & Hok); [rewrite E in E2; by injection E2 as <- <-|done].
Qed.

(** C34: The swap area returns what was put there: after any history of
    writes and reads that starts with an empty swap area, reading a slot
    that is in use succeeds and returns the page last written to it, the
    slots in use are disjoint, and every sector is either free or part of a
    slot in use. *)
Theorem swap_roundtrip (d : disk) (evs : list swap_event) (st : swap) (live : gmap Z (list Z)) :
  disk_ok d -> 0 < capacity d ->
  swap_run (mk_swap d [mk_free 0 (capacity d)], ∅) evs (st, live) ->
  (forall s p, live !! s = Some p -> exists st', swap_slot_read true true s st = Ret (Some p, st')) /\
  (forall s1 s2, is_Some (live !! s1) -> is_Some (live !! s2) -> s1 <> s2 -> s1 + 8 <= s2 \/ s2 + 8 <= s1) /\
  (forall x, 0 <= x < capacity (swap_disk st) ->
     is_free (free_swap_list st) x \/ exists s, is_Some (live !! s) /\ s <= x < s + 8).
Proof.
  intros Hd Hc Hr. apply swap_run_ok in Hr; [|by apply swap_ok_init]. split_and!; [|apply Hr..].
  intros s p Hp. destruct (wp_run (swap_slot_read true true s) st (fun r _ => r = Some p)) as (r & st' & E & ->);
    [by eapply wp_swap_slot_read|eauto].
Qed.

Definition demo_frame : list Z := replicate 4096 7.
Definition demo_disk : disk := mk_disk 20 ∅.
Lemma demo_disk_ok : disk_ok demo_disk.
Proof. split; [done|]. simpl. intros s b Hs. by rewrite lookup_empty in Hs. Qed.
Definition demo_swap0 : swap := mk_swap demo_disk [mk_free 0 20].
Definition demo_swap1 : swap :=
  match swap_slot_write true (Some demo_frame) demo_swap0 with Ret (_, s) => s | _ => demo_swap0 end.

Lemma swap_roundtrip_witness : exists st', swap_slot_read true true 0 demo_swap1 = Ret (Some demo_frame, st').
Proof.
  apply (swap_roundtrip demo_disk [Write demo_frame (Some 0)] demo_swap1 {[0 := demo_frame]}).
  - apply demo_disk_ok.
  - reflexivity.
  - eapply run_write; [vm_compute; reflexivity|vm_compute; reflexivity|]. apply run_nil.
  - apply lookup_singleton_eq.
Defined.

(** Allocation is first fit over a sorted list of maximal runs: a page
    is refused exactly when no free run has eight sectors, and then nothing
    changes; freeing merges neighbours, so that no two runs of the list
    touch. *)
Theorem swap_alloc_free_correct (st : swap) (live : gmap Z (list Z)) (frame : list Z) :
  swap_ok st live -> length frame = 4096%nat ->
  (exists r st', swap_slot_write true (Some frame) st = Ret (r, st') /\
     match r with
     | Some s => live !! s = None /\ swap_ok st' (<[s := frame]> live)
     | None => st' = st /\ Forall (fun f => fs_size f < 8) (free_swap_list st)
     end) /\
  (forall s, is_Some (live !! s) -> exists st', free_swap_slot_op true s st = Ret (tt, st') /\
     canon (capacity (swap_disk st)) (-1) (free_swap_list st') /\
     forall x, is_free (free_swap_list st') x <-> is_free (free_swap_list st) x \/ s <= x < s + 8).
Proof.
  intros H Hl. split.
  - apply wp_run. by eapply wp_swap_slot_write.
  - intros s [p Hp]. destruct (sw_live _ _ H s p Hp) as (H0 & H8 & _ & Hno). apply wp_run_unit.
    pose proof (dk_cap _ (sw_disk _ _ H)). apply wp_free_swap_slot; [lia|apply H|done..|].
    intros l' Hc Hf. done.
Qed.

Lemma swap_alloc_free_correct_witness :
  exists r st', swap_slot_write true (Some demo_frame) demo_swap0 = Ret (r, st').
Proof.
  destruct (swap_alloc_free_correct demo_swap0 ∅ demo_frame) as [(r & st' & E & _) _].
  - apply (swap_ok_init demo_disk); [apply demo_disk_ok|reflexivity].
  - vm_compute. reflexivity.
  - exists r, st'. exact E.
Defined.
