(* ===== verification/Palloc.v ===== *)
(** * Page allocator: threads/palloc.c

    Two pools of pages, each with a bitmap of the pages in use.  [mem] is
    the contents of the pages that the allocator fills.  The pools' locks
    are not repeated here: a call runs its bitmap operations as one unit
    under its lock (Threads.v). *)

From S2P Require Import Prelude Vaddr Bitmap.

Definition PAL_ASSERT : Z := 1.
Definition PAL_ZERO : Z := 2.
Definition PAL_USER : Z := 4.
Definition has_flag (flags f : Z) : bool := negb (Z.land flags f =? 0).

(** [struct pool]. *)
Record pool := mk_pool { used_map : bitmap; base : Z }.

Record palloc := mk_palloc { kernel_pool : pool; user_pool : pool; mem : gmap Z (list Z) }.

Definition get_pool (user : bool) (p : palloc) : pool := if user then user_pool p else kernel_pool p.
Definition set_pool (user : bool) (q : pool) (p : palloc) : palloc :=
  if user then mk_palloc (kernel_pool p) q (mem p) else mk_palloc q (user_pool p) (mem p).
Definition set_mem (f : gmap Z (list Z) -> gmap Z (list Z)) (p : palloc) : palloc :=
  mk_palloc (kernel_pool p) (user_pool p) (f (mem p)).

(** A bitmap operation on the map of a pool. *)
Definition on_map {A} (user : bool) (m : ST bitmap A) : ST palloc A := fun p =>
  match m (used_map (get_pool user p)) with
  | Ret (a, b) => Ret (a, set_pool user (mk_pool b (base (get_pool user p))) p)
  | Panic => Panic
  | OutOfFuel => OutOfFuel
  end.

(** [memset (pages, byte, PGSIZE * cnt)], page by page. *)
Fixpoint fill (cnt : nat) (byte page_no : Z) (m : gmap Z (list Z)) : gmap Z (list Z) :=
  match cnt with
  | O => m
  | S cnt => fill cnt byte (page_no + 1) (<[page_no := replicate 4096 byte]> m)
  end.

(** [words]: what follows the bitmap header at the base of the pool. *)
Definition init_pool (start page_cnt : Z) (words : list Z) : outcome pool :=
  let bm_pages := DIV_ROUND_UP (bitmap_buf_size page_cnt) PGSIZE in
  if page_cnt <? bm_pages then Panic
  else
    let page_cnt := page_cnt -u bm_pages in
    b ← bitmap_create_in_buf page_cnt words (bm_pages *u PGSIZE);
    Ret (mk_pool b (start +u (bm_pages *u PGSIZE))).

(** [end_] is the linker's [_end]; [kw] and [uw] are the contents of the
    memory in which the two bitmaps are placed. *)
Definition palloc_init (end_ ram_pages user_page_limit : Z) (kw uw : list Z) (m : gmap Z (list Z)) : outcome palloc :=
  let free_start := pg_round_up end_ in
  free_end ← ptov (ram_pages *u PGSIZE);
  let free_pages := (free_end -u free_start) / PGSIZE in
  let user_pages := free_pages / 2 in
  let user_pages := if user_page_limit <? user_pages then user_page_limit else user_pages in
  let kernel_pages := free_pages -u user_pages in
  k ← init_pool free_start kernel_pages kw;
  u ← init_pool (free_start +u (kernel_pages *u PGSIZE)) user_pages uw;
  Ret (mk_palloc k u m).

Definition palloc_get_multiple (flags page_cnt : Z) : ST palloc Z :=
  let user := has_flag flags PAL_USER in
  if page_cnt =? 0 then mret 0
  else
    page_idx ← on_map user (bitmap_scan_and_flip 0 page_cnt false);
    b ← gets (fun p => base (get_pool user p));
    let pages := if page_idx =? BITMAP_ERROR then 0 else b +u (PGSIZE *u page_idx) in
    (if pages =? 0 then
       if has_flag flags PAL_ASSERT then panic else mret tt
     else if has_flag flags PAL_ZERO then modify (set_mem (fill (Z.to_nat page_cnt) 0 (pg_no pages)))
     else mret tt);;
    mret pages.

Definition palloc_get_page (flags : Z) : ST palloc Z := palloc_get_multiple flags 1.

Definition page_from_pool (q : pool) (page : Z) : bool :=
  let page_no := pg_no page in
  let start_page := pg_no (base q) in
  let end_page := start_page +u bit_cnt (used_map q) in
  (start_page <=? page_no) && (page_no <? end_page).

Definition palloc_free_multiple (pages page_cnt : Z) : ST palloc unit :=
  ASSERT (pg_ofs pages =? 0);;
  if (pages =? 0) || (page_cnt =? 0) then mret tt
  else
    k ← gets kernel_pool;
    u ← gets user_pool;
    let free_in (user : bool) (q : pool) : ST palloc unit :=
      let page_idx := pg_no pages -u pg_no (base q) in
      modify (set_mem (fill (Z.to_nat page_cnt) 0xcc (pg_no pages)));;
      a ← on_map user (bitmap_all page_idx page_cnt);
      ASSERT a;;
      on_map user (bitmap_set_multiple page_idx page_cnt false) in
    if page_from_pool k pages then free_in false k
    else if page_from_pool u pages then free_in true u
    else panic.

Definition palloc_free_page (page : Z) : ST palloc unit := palloc_free_multiple page 1.

(** ** Invariant *)

Record pool_ok (q : pool) : Prop := {
  po_map : bitmap_ok (used_map q);
  po_align : base q mod PGSIZE = 0;
  po_low : PHYS_BASE <= base q;
  po_high : base q + PGSIZE * bit_cnt (used_map q) < 2 ^ 32;
}.

Definition page_of (q : pool) (i : Z) : Z := base q + PGSIZE * i.

(** Both pools are well formed and share no page. *)
Record palloc_ok (p : palloc) : Prop := {
  pa_kernel : pool_ok (kernel_pool p);
  pa_user : pool_ok (user_pool p);
  pa_disjoint : page_of (kernel_pool p) (bit_cnt (used_map (kernel_pool p))) <= base (user_pool p);
}.

Lemma get_pool_ok p user : palloc_ok p -> pool_ok (get_pool user p).
Proof. intros H. destruct user; apply H. Qed.

Lemma wp_on_map {A} user (m : ST bitmap A) p Q :
  wp m (used_map (get_pool user p)) (fun a b => Q a (set_pool user (mk_pool b (base (get_pool user p))) p)) ->
  wp (on_map user m) p Q.
Proof. unfold wp, on_map. by destruct (m _) as [[a b]| |]. Qed.

Lemma get_set_pool user q p : get_pool user (set_pool user q p) = q.
Proof. by destruct user. Qed.
Lemma get_set_other user q p : get_pool (negb user) (set_pool user q p) = get_pool (negb user) p.
Proof. by destruct user. Qed.
Lemma get_set_mem user f p : get_pool user (set_mem f p) = get_pool user p.
Proof. by destruct user. Qed.
Lemma set_pool_mem user q p : mem (set_pool user q p) = mem p.
Proof. by destruct user. Qed.

(** Changing the bits of a pool keeps the invariant. *)
Lemma palloc_ok_bits p user b P v : palloc_ok p -> bits_set (used_map (get_pool user p)) b P v ->
  palloc_ok (set_pool user (mk_pool b (base (get_pool user p))) p).
Proof.
  intros H (Hb & Hc & _). pose proof (get_pool_ok p user H) as Hq.
  assert (Hq' : pool_ok (mk_pool b (base (get_pool user p)))).
  { split; simpl; [done|apply Hq|apply Hq|rewrite Hc; apply Hq]. }
  destruct user; split; simpl in *; try done; try apply H; unfold page_of; simpl; rewrite ?Hc; apply H.
Qed.

(** Page [i] of a pool, as an address. *)
Lemma page_of_addr q i : pool_ok q -> 0 <= i -> i < bit_cnt (used_map q) ->
  base q +u (PGSIZE *u i) = page_of q i /\ is_u32 (page_of q i) /\ page_of q i <> 0 /\
  pg_ofs (page_of q i) = 0 /\ pg_no (page_of q i) = pg_no (base q) + i.
Proof.
  intros H H0 Hi. pose proof (po_high q H). pose proof (po_low q H). pose proof (po_align q H) as Ha.
  unfold page_of in *. rewrite pg_ofs_mod, !pg_no_div. unfold PHYS_BASE in *. rewrite PGSIZE_eq in *.
  assert (E : u32 (4096 * i) = 4096 * i) by (apply u32_small; urange; lia). rewrite E.
  rewrite u32_small by (urange; lia). split_and!; [done|urange; lia|lia| |].
  - replace (4096 * i) with (i * 4096) by lia. by rewrite Z.mod_add.
  - replace (4096 * i) with (i * 4096) by lia. rewrite Z.div_add by lia. done.
Qed.

Lemma page_from_pool_spec q i : pool_ok q -> 0 <= i ->
  page_of q i < 2 ^ 32 -> page_from_pool q (page_of q i) = (i <? bit_cnt (used_map q)).
Proof.
  intros H H0 Hi. pose proof (po_high q H). pose proof (po_low q H). pose proof (po_align q H) as Ha.
  unfold page_from_pool, page_of in *. rewrite !pg_no_div. unfold PHYS_BASE in *. rewrite PGSIZE_eq in *.
  pose proof (ok_cnt _ (po_map q H)).
  replace (base q + 4096 * i) with (base q + i * 4096) by lia. rewrite Z.div_add by lia.
  assert (0 <= base q / 4096 /\ base q / 4096 * 4096 = base q) as [? ?].
  { split; [apply Z.div_pos; lia|]. pose proof (Z.div_mod (base q) 4096). lia. }
  rewrite u32_small by (urange; lia). zcases; simpl; lia || done.
Qed.

Lemma page_above_pool q a : pool_ok q -> page_of q (bit_cnt (used_map q)) <= a -> page_from_pool q a = false.
Proof.
  intros H Ha. pose proof (po_high q H). pose proof (po_low q H). pose proof (ok_cnt _ (po_map q H)).
  unfold page_from_pool, page_of in *. rewrite !pg_no_div. unfold PHYS_BASE in *. rewrite PGSIZE_eq in *.
  assert (base q / 4096 + bit_cnt (used_map q) <= a / 4096).
  { rewrite <- Z.div_add by lia. apply Z.div_le_mono; lia. }
  assert (base q / 4096 < 2 ^ 20) by (apply Z.div_lt_upper_bound; urange; lia).
  assert (0 <= base q / 4096) by (apply Z.div_pos; lia).
  rewrite u32_small by (urange; lia). zcases; simpl; lia || done.
Qed.

(** A page of a pool is recognised as one of that pool and of no other. *)
Lemma pool_of_page p user i : palloc_ok p -> 0 <= i < bit_cnt (used_map (get_pool user p)) ->
  page_from_pool (kernel_pool p) (page_of (get_pool user p) i) = negb user /\
  (user = true -> page_from_pool (user_pool p) (page_of (get_pool user p) i) = true).
Proof.
  intros H Hi. pose proof (get_pool_ok p user H) as Hq.
  destruct (page_of_addr _ i Hq) as (_ & Hu & _); [lia..|].
  assert (Hown : page_from_pool (get_pool user p) (page_of (get_pool user p) i) = true).
  { rewrite page_from_pool_spec by (done || lia || apply Hu). apply Z.ltb_lt. lia. }
  destruct user; simpl in *; [|done]. split; [|done]. apply page_above_pool; [apply H|].
  pose proof (pa_disjoint p H). unfold page_of in *. rewrite PGSIZE_eq in *. lia.
Qed.

(** ** Properties *)

(** What a successful call with index [i] does to the state. *)
Definition got (p : palloc) (flags cnt i : Z) (p' : palloc) : Prop :=
  let user := has_flag flags PAL_USER in
  palloc_ok p' /\
  bits_set (used_map (get_pool user p)) (used_map (get_pool user p')) (in_group i cnt) (fun _ => true) /\
  base (get_pool user p') = base (get_pool user p) /\
  get_pool (negb user) p' = get_pool (negb user) p /\
  mem p' = if has_flag flags PAL_ZERO then fill (Z.to_nat cnt) 0 (pg_no (page_of (get_pool user p) i)) (mem p) else mem p.

Lemma palloc_ok_mem p f : palloc_ok p -> palloc_ok (set_mem f p).
Proof. intros H. split; apply H. Qed.

Lemma palloc_get_spec (p : palloc) (flags cnt : Z) :
  palloc_ok p -> 0 < cnt ->
  let q := get_pool (has_flag flags PAL_USER) p in
  (exists i p', palloc_get_multiple flags cnt p = Ret (page_of q i, p') /\ page_of q i <> 0 /\
     0 <= i /\ i + cnt <= bit_cnt (used_map q) /\ group (used_map q) i cnt false /\
     (forall j, 0 <= j < i -> ~ group (used_map q) j cnt false) /\ got p flags cnt i p') \/
  ((forall j, 0 <= j -> j + cnt <= bit_cnt (used_map q) -> ~ group (used_map q) j cnt false) /\
   palloc_get_multiple flags cnt p = if has_flag flags PAL_ASSERT then Panic else Ret (0, p)).
Proof.
  intros H Hc q. set (user := has_flag flags PAL_USER) in *.
  pose proof (get_pool_ok p user H) as Hq. fold q in Hq. pose proof (ok_cnt _ (po_map q Hq)).
  assert (Hw := wp_bitmap_scan_and_flip 0 cnt false (used_map q) (fun r b' =>
    scan_result (used_map q) 0 cnt false r /\ (r = BITMAP_ERROR /\ b' = used_map q \/
      r <> BITMAP_ERROR /\ bits_set (used_map q) b' (in_group r cnt) (fun _ => true)))
    (po_map q Hq) ltac:(urange; lia) ltac:(lia) ltac:(done)).
  apply wp_elim in Hw as (r & b' & E & Hr & Hb).
  unfold palloc_get_multiple. fold user. destruct (Z.eqb_spec cnt 0); [lia|].
  assert (Em : on_map user (bitmap_scan_and_flip 0 cnt false) p = Ret (r, set_pool user (mk_pool b' (base q)) p)).
  { unfold on_map. fold q. by rewrite E. }
  unfold mbind, ST_bind. rewrite Em. unfold gets. cbv beta iota. rewrite get_set_pool. cbn [base].
  destruct Hb as [[-> ->]|[Hne Hb]].
  - right. destruct Hr as [(? & Hhi & _)|[_ Hno]].
    { pose proof (po_high q Hq). pose proof (po_low q Hq). unfold PHYS_BASE, BITMAP_ERROR in *.
      rewrite PGSIZE_eq in *. lia. }
    split; [done|]. rewrite Z.eqb_refl. cbn [Z.eqb]. destruct (has_flag flags PAL_ASSERT); [done|]. do 2 f_equal.
    destruct p as [k u m]. unfold q. by destruct user, k, u.
  - left. destruct Hr as [(Hlo & Hhi & Hg & Hmin)|[? _]]; [|done]. exists r.
    destruct (page_of_addr q r Hq) as (Ea & Hau & Hane & _ & _); [lia..|].
    destruct (Z.eqb_spec r BITMAP_ERROR) as [?|_]; [done|]. rewrite Ea.
    destruct (Z.eqb_spec (page_of q r) 0) as [?|_]; [done|].
    pose proof (palloc_ok_bits p user b' _ _ H Hb) as Hok. fold q in Hok.
    unfold got. fold user. fold q. destruct (has_flag flags PAL_ZERO).
    + eexists. split; [reflexivity|]. split_and!; [done|lia|lia|done|done|by apply palloc_ok_mem| | | |].
      * rewrite get_set_mem, get_set_pool. done.
      * rewrite get_set_mem, get_set_pool. done.
      * rewrite get_set_mem. apply get_set_other.
      * simpl. by rewrite set_pool_mem.
    + eexists. split; [reflexivity|]. split_and!; [done|lia|lia|done|done|done| | | |].
      * by rewrite get_set_pool.
      * by rewrite get_set_pool.
      * apply get_set_other.
      * apply set_pool_mem.
Qed.

(** [palloc_get_multiple] returns the first group of contiguous free
    pages of the pool its flags name, marks exactly these pages used, fills
    them with zeros when asked, and touches nothing else; when no such group
    exists it returns null and changes nothing, or panics under
    [PAL_ASSERT]. *)
Theorem palloc_get_correct (p : palloc) (flags cnt : Z) :
  palloc_ok p -> 0 < cnt ->
  let q := get_pool (has_flag flags PAL_USER) p in
  (exists i p', palloc_get_multiple flags cnt p = Ret (page_of q i, p') /\ page_of q i <> 0 /\
     0 <= i /\ i + cnt <= bit_cnt (used_map q) /\ group (used_map q) i cnt false /\
     (forall j, 0 <= j < i -> ~ group (used_map q) j cnt false) /\ got p flags cnt i p') \/
  ((forall j, 0 <= j -> j + cnt <= bit_cnt (used_map q) -> ~ group (used_map q) j cnt false) /\
   palloc_get_multiple flags cnt p = if has_flag flags PAL_ASSERT then Panic else Ret (0, p)).
Proof. intros H Hc q. exact (palloc_get_spec p flags cnt H Hc). Qed.

Lemma palloc_free_spec (p : palloc) (user : bool) (i cnt : Z) :
  palloc_ok p -> 0 <= i -> 0 < cnt -> i + cnt <= bit_cnt (used_map (get_pool user p)) ->
  let q := get_pool user p in
  (group (used_map q) i cnt true ->
   exists b', palloc_free_multiple (page_of q i) cnt p =
       Ret (tt, set_pool user (mk_pool b' (base q)) (set_mem (fill (Z.to_nat cnt) 0xcc (pg_no (page_of q i))) p)) /\
     bits_set (used_map q) b' (in_group i cnt) (fun _ => false) /\
     palloc_ok (set_pool user (mk_pool b' (base q)) p)) /\
  (~ group (used_map q) i cnt true -> palloc_free_multiple (page_of q i) cnt p = Panic).
Proof.
  intros H Hi Hc He q. pose proof (get_pool_ok p user H) as Hq. fold q in Hq, He.
  destruct (page_of_addr q i Hq) as (_ & Hu & Hne & Hofs & Hno); [lia..|].
  destruct (pool_of_page p user i H) as [Hk Hus]; [fold q; lia|]. fold q in Hk, Hus.
  assert (Eidx : pg_no (page_of q i) -u pg_no (base q) = i).
  { rewrite Hno. replace (pg_no (base q) + i - pg_no (base q)) with i by lia. apply u32_small.
    pose proof (ok_cnt _ (po_map q Hq)). urange. lia. }
  set (f := fill (Z.to_nat cnt) 0xcc (pg_no (page_of q i))).
  assert (Efree : palloc_free_multiple (page_of q i) cnt p =
    (a ← on_map user (bitmap_all i cnt); ASSERT a;; on_map user (bitmap_set_multiple i cnt false)) (set_mem f p)).
  { unfold palloc_free_multiple, mbind, ST_bind, gets, ASSERT, modify. rewrite Hofs. cbn [Z.eqb].
    destruct (Z.eqb_spec (page_of q i) 0) as [?|_]; [done|]. destruct (Z.eqb_spec cnt 0); [lia|].
    cbn [orb]. cbv beta iota zeta. rewrite Hk. subst f q.
    destruct user; cbn [negb get_pool] in *.
    - rewrite Hus, Eidx by done. done.
    - rewrite Eidx. done. }
  rewrite Efree.
  assert (Hall := wp_bitmap_contains i cnt false (used_map q) (fun c b => b = used_map q /\
    (c = false <-> group (used_map q) i cnt true)) (po_map q Hq) Hi ltac:(lia) He ltac:(done)).
  apply wp_elim in Hall as (c & b & E & -> & Hiff).
  assert (Ea : on_map user (bitmap_all i cnt) (set_mem f p) = Ret (negb c, set_mem f p)).
  { unfold on_map, bitmap_all, mbind, ST_bind. rewrite get_set_mem. fold q. rewrite E. unfold mret, ST_ret.
    do 2 f_equal. unfold q. destruct p as [k u m]. by destruct user, k, u. }
  split.
  - intros Hg. assert (c = false) as -> by by apply Hiff.
    assert (Hw := wp_bitmap_set_multiple i cnt false (used_map q) (fun _ b' =>
      bits_set (used_map q) b' (in_group i cnt) (fun _ => false)) (po_map q Hq) Hi ltac:(lia) He ltac:(done)).
    apply wp_run_unit in Hw as (b' & E' & Hb). exists b'. split_and!; [|done|].
    + unfold mbind, ST_bind at 1. rewrite Ea. cbn. unfold on_map. rewrite get_set_mem. fold q. by rewrite E'.
    + by eapply palloc_ok_bits.
  - intros Hng. assert (c = true) as -> by (destruct c; [done|]; destruct Hng; by apply Hiff).
    unfold mbind, ST_bind at 1. rewrite Ea. done.
Qed.

(** [palloc_free_multiple] of a group of used pages of either pool
    marks exactly them free in their own pool and fills them with 0xcc;
    freeing a group with a page that is already free stops at the assertion
    (a double free is caught). *)
Theorem palloc_free_correct (p : palloc) (user : bool) (i cnt : Z) :
  palloc_ok p -> 0 <= i -> 0 < cnt -> i + cnt <= bit_cnt (used_map (get_pool user p)) ->
  let q := get_pool user p in
  (group (used_map q) i cnt true ->
   exists b', palloc_free_multiple (page_of q i) cnt p =
       Ret (tt, set_pool user (mk_pool b' (base q)) (set_mem (fill (Z.to_nat cnt) 0xcc (pg_no (page_of q i))) p)) /\
     bits_set (used_map q) b' (in_group i cnt) (fun _ => false) /\
     palloc_ok (set_pool user (mk_pool b' (base q)) p)) /\
  (~ group (used_map q) i cnt true -> palloc_free_multiple (page_of q i) cnt p = Panic).
Proof. intros H Hi Hc He q. exact (palloc_free_spec p user i cnt H Hi Hc He). Qed.

Definition demo_palloc : palloc :=
  mk_palloc (mk_pool (mk_bitmap 40 [0xF00F; 0x1]) 0xc0100000) (mk_pool (mk_bitmap 40 [0; 0]) 0xc0200000) ∅.

Lemma demo_palloc_ok : palloc_ok demo_palloc.
Proof.
  split; [split; [apply demo_bitmap_ok|done..]| |done].
  split; [|done..]. split; simpl; [done|done|]. repeat constructor; done.
Qed.

Lemma palloc_get_correct_witness :
  let q := get_pool (has_flag (PAL_USER + PAL_ZERO) PAL_USER) demo_palloc in
  (exists i p', palloc_get_multiple (PAL_USER + PAL_ZERO) 2 demo_palloc = Ret (page_of q i, p') /\ page_of q i <> 0 /\
     0 <= i /\ i + 2 <= bit_cnt (used_map q) /\ group (used_map q) i 2 false /\
     (forall j, 0 <= j < i -> ~ group (used_map q) j 2 false) /\ got demo_palloc (PAL_USER + PAL_ZERO) 2 i p') \/
  ((forall j, 0 <= j -> j + 2 <= bit_cnt (used_map q) -> ~ group (used_map q) j 2 false) /\
   palloc_get_multiple (PAL_USER + PAL_ZERO) 2 demo_palloc = Ret (0, demo_palloc)).
Proof. apply (palloc_get_correct demo_palloc (PAL_USER + PAL_ZERO) 2); [apply demo_palloc_ok|reflexivity]. Defined.

Lemma palloc_free_correct_witness : palloc_free_multiple (page_of (user_pool demo_palloc) 1) 2 demo_palloc = Panic.
Proof.
  apply (palloc_free_correct demo_palloc true 1 2); [apply demo_palloc_ok|discriminate|reflexivity|discriminate|].
  intros Hg. assert (Hx : bit (used_map (user_pool demo_palloc)) 1 = true)
    by (apply Hg; split; [discriminate|reflexivity]).
  vm_compute in Hx. discriminate Hx.
Defined.
