(* ===== verification/PageAlloc.v ===== *)
(** * What the page allocator promises to its clients

    The interface through which page directories, the heap and the frame
    table use pages, and the proof that threads/palloc.c provides it. *)

From S2P Require Import Prelude Vaddr Bitmap Palloc.

(** The address of a page of the kernel's half of memory. *)
Definition kernel_page (a : Z) : Prop := PHYS_BASE <= a /\ a + PGSIZE <= 2 ^ 32 /\ a mod PGSIZE = 0.

(** Page [b] is one of the [cnt] pages from [a] on. *)
Definition page_range (a cnt b : Z) : Prop := exists k, 0 <= k < cnt /\ b = a + PGSIZE * k.

(** [get_pages zero cnt]: [palloc_get_multiple] with [PAL_ZERO] or without;
    null is 0.  [allocated p a]: page [a] has been given out and not
    returned.  [adjoining p a cnt]: the [cnt] pages from [a] on are managed
    together, so that they can be returned together. *)
Class PageAlloc (P : Type) := {
  get_pages : bool -> Z -> ST P Z;
  free_pages : Z -> Z -> ST P unit;
  pages_ok : P -> Prop;
  allocated : P -> Z -> Prop;
  adjoining : P -> Z -> Z -> Prop;
  allocated_page p a : pages_ok p -> allocated p a -> kernel_page a;
  adjoining_one p a : pages_ok p -> allocated p a -> adjoining p a 1;
  get_pages_spec p zero cnt : pages_ok p -> 0 <= cnt ->
    exists a p', get_pages zero cnt p = Ret (a, p') /\ pages_ok p' /\
      (a = 0 /\ p' = p \/
       0 < cnt /\ (forall b, page_range a cnt b -> kernel_page b /\ ~ allocated p b) /\
       (forall b, allocated p' b <-> page_range a cnt b \/ allocated p b) /\
       adjoining p' a cnt /\ (forall b n, adjoining p' b n <-> adjoining p b n));
  free_pages_spec p a cnt : pages_ok p -> 0 < cnt -> adjoining p a cnt ->
    (forall b, page_range a cnt b -> allocated p b) ->
    exists p', free_pages a cnt p = Ret (tt, p') /\ pages_ok p' /\
      (forall b, allocated p' b <-> allocated p b /\ ~ page_range a cnt b) /\
      (forall b n, adjoining p' b n <-> adjoining p b n);
}.

(** ** One page *)

Section One.
Context {P : Type} `{PageAlloc P}.

Definition get_page (zero : bool) : ST P Z := get_pages zero 1.
Definition free_page (a : Z) : ST P unit := free_pages a 1.

Lemma page_range_one a b : page_range a 1 b <-> b = a.
Proof.
  split; [intros (k & Hk & ->); assert (k = 0) as -> by lia; lia|]. intros ->. exists 0. split; lia.
Qed.

Lemma get_page_spec p zero : pages_ok p ->
  exists a p', get_page zero p = Ret (a, p') /\ pages_ok p' /\
    (a = 0 /\ p' = p \/
     kernel_page a /\ ~ allocated p a /\ forall b, allocated p' b <-> b = a \/ allocated p b).
Proof.
  intros Hp. destruct (get_pages_spec p zero 1 Hp ltac:(lia)) as (a & p' & E & Hp' & [?|(_ & Hr & Ha & _)]);
    exists a, p'; (split; [exact E|split; [done|]]); [by left|right].
  destruct (Hr a) as [Hk Hn]; [by apply page_range_one|]. split_and!; [done..|].
  intros b. by rewrite Ha, page_range_one.
Qed.

Lemma free_page_spec p a : pages_ok p -> allocated p a ->
  exists p', free_page a p = Ret (tt, p') /\ pages_ok p' /\
    forall b, allocated p' b <-> allocated p b /\ b <> a.
Proof.
  intros Hp Ha. destruct (free_pages_spec p a 1 Hp ltac:(lia)) as (p' & E & Hp' & Hal & _).
  - by apply adjoining_one.
  - intros b ->%page_range_one. done.
  - exists p'. split_and!; [done..|]. intros b. by rewrite Hal, page_range_one.
Qed.

(** The allocator manages the same pages as before. *)
Definition same_pool (p p' : P) : Prop := forall b n, adjoining p' b n <-> adjoining p b n.

Lemma same_pool_trans p1 p2 p3 : same_pool p1 p2 -> same_pool p2 p3 -> same_pool p1 p3.
Proof. intros H1 H2 b n. by rewrite (H2 b n), (H1 b n). Qed.

Lemma get_page_pool p zero a p' : pages_ok p -> get_page zero p = Ret (a, p') -> pages_ok p' /\ same_pool p p'.
Proof.
  intros Hp E. destruct (get_pages_spec p zero 1 Hp ltac:(lia)) as (a' & p'' & E' & Hp' & Hr). unfold get_page in E. rewrite E in E'. injection E' as <- <-.
  split; [done|]. destruct Hr as [[_ ->]|(_ & _ & _ & _ & ?)]; done.
Qed.
End One.

(** Pages for user processes come from a pool of their own
    ([palloc_get_page] with [PAL_USER]). *)
Class UserPages (P : Type) `{PageAlloc P} := {
  get_user_page : bool -> ST P Z;
  get_user_page_spec p zero : pages_ok p ->
    exists a p', get_user_page zero p = Ret (a, p') /\ pages_ok p' /\
      (a = 0 /\ p' = p \/
       kernel_page a /\ ~ allocated p a /\ (forall b, allocated p' b <-> b = a \/ allocated p b) /\ same_pool p p');
}.

(** ** The instance *)

Definition palloc_allocated (p : palloc) (a : Z) : Prop :=
  exists user i, 0 <= i < bit_cnt (used_map (get_pool user p)) /\
    bit (used_map (get_pool user p)) i = true /\ a = page_of (get_pool user p) i.

Definition palloc_adjoining (p : palloc) (a cnt : Z) : Prop :=
  exists user i, 0 <= i /\ i + cnt <= bit_cnt (used_map (get_pool user p)) /\ a = page_of (get_pool user p) i.

Lemma page_of_kernel q i : pool_ok q -> 0 <= i < bit_cnt (used_map q) -> kernel_page (page_of q i).
Proof.
  intros H Hi. pose proof (po_low q H). pose proof (po_high q H). pose proof (po_align q H) as Ha.
  unfold kernel_page, page_of in *. rewrite PGSIZE_eq in *. split_and!; [lia|lia|].
  replace (4096 * i) with (i * 4096) by lia. by rewrite Z.mod_add.
Qed.

(** A page belongs to one pool, at one index. *)
Lemma page_of_unique p u v i j : palloc_ok p -> 0 <= i < bit_cnt (used_map (get_pool u p)) ->
  0 <= j < bit_cnt (used_map (get_pool v p)) -> page_of (get_pool u p) i = page_of (get_pool v p) j -> u = v /\ i = j.
Proof.
  intros H Hi Hj E. pose proof (pa_disjoint p H) as Hd. unfold page_of in *. rewrite PGSIZE_eq in *.
  destruct u, v; simpl in *; [|lia..|]; split; done || lia.
Qed.

(** The pages of a group are those of its bits. *)
Lemma page_range_of p u i cnt v k : palloc_ok p -> 0 <= i -> i + cnt <= bit_cnt (used_map (get_pool u p)) ->
  0 <= k < bit_cnt (used_map (get_pool v p)) ->
  page_range (page_of (get_pool u p) i) cnt (page_of (get_pool v p) k) <-> v = u /\ i <= k < i + cnt.
Proof.
  intros H Hi Hc Hk. split.
  - intros (j & Hj & E). assert (E' : page_of (get_pool v p) k = page_of (get_pool u p) (i + j)) by (rewrite E; unfold page_of; lia).
    apply (page_of_unique p) in E' as [-> ->]; [|done|done|lia]. split; [done|lia].
  - intros [-> Hik]. exists (k - i). split; [lia|]. unfold page_of. lia.
Qed.

(** What changing the bits of a group of a pool does to the allocated pages. *)
Lemma allocated_bits p p' u i cnt b : palloc_ok p -> 0 <= i -> i + cnt <= bit_cnt (used_map (get_pool u p)) ->
  bits_set (used_map (get_pool u p)) (used_map (get_pool u p')) (in_group i cnt) (fun _ => b) ->
  base (get_pool u p') = base (get_pool u p) -> get_pool (negb u) p' = get_pool (negb u) p ->
  (forall a, palloc_allocated p' a <->
     if b then page_range (page_of (get_pool u p) i) cnt a \/ palloc_allocated p a
     else palloc_allocated p a /\ ~ page_range (page_of (get_pool u p) i) cnt a) /\
  (forall a n, palloc_adjoining p' a n <-> palloc_adjoining p a n).
Proof.
  intros H Hi Hc (Hok & Hcnt & _ & Hb) Hbase Hother.
  assert (Hpool : forall v, base (get_pool v p') = base (get_pool v p) /\
    bit_cnt (used_map (get_pool v p')) = bit_cnt (used_map (get_pool v p))).
  { intros v. destruct (decide (v = u)) as [->|]; [done|]. assert (v = negb u) as -> by (by destruct u, v). by rewrite Hother. }
  assert (Hpg : forall v k, page_of (get_pool v p') k = page_of (get_pool v p) k)
    by (intros; unfold page_of; by rewrite (proj1 (Hpool v))).
  assert (Hbit : forall v k, 0 <= k < bit_cnt (used_map (get_pool v p)) ->
    bit (used_map (get_pool v p')) k = if decide (v = u /\ i <= k < i + cnt) then b else bit (used_map (get_pool v p)) k).
  { intros v k Hk. destruct (decide (v = u)) as [->|].
    - rewrite Hb by done. unfold in_group. case_decide; zcases; simpl; try done; tauto || lia.
    - assert (v = negb u) as -> by (by destruct u, v). rewrite Hother. by rewrite decide_False by tauto. }
  split.
  - assert (Hin : forall v k, 0 <= k < bit_cnt (used_map (get_pool v p)) ->
      page_range (page_of (get_pool u p) i) cnt (page_of (get_pool v p) k) <-> v = u /\ i <= k < i + cnt)
      by (intros; by apply page_range_of).
    intros a. split.
    + intros (v & k & Hk & Hset & ->). rewrite (proj2 (Hpool v)) in Hk. rewrite Hpg, Hbit in * by done. case_decide as Hd.
      * subst b. left. by apply Hin.
      * assert (palloc_allocated p (page_of (get_pool v p) k)) by (by exists v, k).
        destruct b; [by right|]. split; [done|]. by rewrite Hin.
    + intros Ha. assert (Hx : (exists k, i <= k < i + cnt /\ a = page_of (get_pool u p) k /\ b = true) \/
        palloc_allocated p a /\ (b = false -> ~ page_range (page_of (get_pool u p) i) cnt a)).
      { destruct b; [|right; tauto]. destruct Ha as [(k & Hk & ->)|]; [left|right; done]. exists (i + k).
        split_and!; [lia|lia| |done]. unfold page_of. lia. }
      destruct Hx as [(k & Hk & -> & ->)|[(v & k & Hk & Hset & ->) Hn]].
      * exists u, k. rewrite (proj2 (Hpool u)), Hpg, Hbit by lia. split_and!; [lia|lia| |done]. by rewrite decide_True.
      * exists v, k. rewrite (proj2 (Hpool v)), Hpg, Hbit by done. split_and!; [lia|lia| |done]. case_decide as Hd; [|done].
        destruct b; [done|]. exfalso. apply Hn; [done|]. by apply Hin.
  - intros a n. unfold palloc_adjoining. split; intros (v & k & Hk); exists v, k;
      [rewrite <- Hpg, <- (proj2 (Hpool v))|rewrite Hpg, (proj2 (Hpool v))]; done.
Qed.

(** Both pools: the flags choose one of them. *)
Lemma palloc_get_flags_spec p flags cnt : palloc_ok p -> 0 <= cnt -> has_flag flags PAL_ASSERT = false ->
  exists a p', palloc_get_multiple flags cnt p = Ret (a, p') /\ palloc_ok p' /\
    (a = 0 /\ p' = p \/
     0 < cnt /\ (forall b, page_range a cnt b -> kernel_page b /\ ~ palloc_allocated p b) /\
     (forall b, palloc_allocated p' b <-> page_range a cnt b \/ palloc_allocated p b) /\
     palloc_adjoining p' a cnt /\ (forall b n, palloc_adjoining p' b n <-> palloc_adjoining p b n)).
Proof.
  intros H Hc0 E0.
  destruct (decide (cnt = 0)) as [->|]; [exists 0, p; split; [done|]; split; [done|by left]|].
  assert (Hc : 0 < cnt) by lia. remember (has_flag flags PAL_USER) as u eqn:Eu.
  destruct (palloc_get_spec p flags cnt H Hc) as
    [(i & p' & E & Hne & Hi & Hic & Hg & _ & Hok & Hb & Hbase & Hoth & _)|[_ E]].
  - exists (page_of (get_pool (has_flag flags PAL_USER) p) i), p'. split; [exact E|]. split; [done|]. right.
    rewrite <- Eu in *.
    destruct (allocated_bits p p' u i cnt true) as [Hal Hadj]; [done..|].
    split_and!; [done| |exact Hal|apply Hadj; by exists u, i|exact Hadj].
    intros b (k & Hk & ->). replace (page_of (get_pool u p) i + PGSIZE * k) with (page_of (get_pool u p) (i + k)) by (unfold page_of; lia).
    split; [apply page_of_kernel; [by apply (get_pool_ok p u)|lia]|].
    intros (v & j & Hj & Hset & Ep). apply (page_of_unique p) in Ep as [<- <-]; [|done|lia|done].
    rewrite (Hg (i + k)) in Hset by lia. done.
  - rewrite E0 in E. exists 0, p. split; [exact E|]. split; [done|]. by left.
Qed.

Lemma palloc_get_pages_spec p (zero : bool) cnt : palloc_ok p -> 0 <= cnt ->
  exists a p', palloc_get_multiple (if zero then PAL_ZERO else 0) cnt p = Ret (a, p') /\ palloc_ok p' /\
    (a = 0 /\ p' = p \/
     0 < cnt /\ (forall b, page_range a cnt b -> kernel_page b /\ ~ palloc_allocated p b) /\
     (forall b, palloc_allocated p' b <-> page_range a cnt b \/ palloc_allocated p b) /\
     palloc_adjoining p' a cnt /\ (forall b n, palloc_adjoining p' b n <-> palloc_adjoining p b n)).
Proof. intros H Hc. apply palloc_get_flags_spec; [done..|by destruct zero]. Qed.

Lemma palloc_free_pages_spec p a cnt : palloc_ok p -> 0 < cnt -> palloc_adjoining p a cnt ->
  (forall b, page_range a cnt b -> palloc_allocated p b) ->
  exists p', palloc_free_multiple a cnt p = Ret (tt, p') /\ palloc_ok p' /\
    (forall b, palloc_allocated p' b <-> palloc_allocated p b /\ ~ page_range a cnt b) /\
    (forall b n, palloc_adjoining p' b n <-> palloc_adjoining p b n).
Proof.
  intros H Hc (u & i & Hi & Hic & ->) Hall.
  destruct (palloc_free_spec p u i cnt H Hi Hc Hic) as [Hfree _].
  destruct Hfree as (b' & E & Hb & Hok).
  { intros k Hk. destruct (Hall (page_of (get_pool u p) k)) as (v & j & Hj & Hset & Ep).
    - apply page_range_of; [done..|lia|]. split; [done|lia].
    - by apply (page_of_unique p) in Ep as [<- <-]; [|done|lia|done]. }
  eexists. split; [exact E|]. split.
  - apply palloc_ok_mem with (f := fill (Z.to_nat cnt) 0xcc (pg_no (page_of (get_pool u p) i))) in Hok. by destruct u.
  - apply (allocated_bits p _ u i cnt false); [done..| | |].
    + by rewrite get_set_pool.
    + by rewrite get_set_pool.
    + by rewrite get_set_other, get_set_mem.
Qed.

Lemma palloc_allocated_page p a : palloc_ok p -> palloc_allocated p a -> kernel_page a.
Proof. intros H (u & i & Hi & _ & ->). apply page_of_kernel; [by apply get_pool_ok|done]. Qed.

Lemma palloc_adjoining_one p a : palloc_ok p -> palloc_allocated p a -> palloc_adjoining p a 1.
Proof. intros H (u & i & Hi & _ & ->). exists u, i. split_and!; [lia|lia|done]. Qed.

#[export] Instance palloc_pages : PageAlloc palloc := {
  get_pages zero := palloc_get_multiple (if zero then PAL_ZERO else 0);
  free_pages := palloc_free_multiple;
  pages_ok := palloc_ok;
  allocated := palloc_allocated;
  adjoining := palloc_adjoining;
  allocated_page := palloc_allocated_page;
  adjoining_one := palloc_adjoining_one;
  get_pages_spec := palloc_get_pages_spec;
  free_pages_spec := palloc_free_pages_spec;
}.

Lemma palloc_get_user_spec p (zero : bool) : palloc_ok p ->
  exists a p', palloc_get_multiple (if zero then Z.lor PAL_USER PAL_ZERO else PAL_USER) 1 p = Ret (a, p') /\ palloc_ok p' /\
    (a = 0 /\ p' = p \/
     kernel_page a /\ ~ palloc_allocated p a /\ (forall b, palloc_allocated p' b <-> b = a \/ palloc_allocated p b) /\ same_pool p p').
Proof.
  intros Hp. destruct (palloc_get_flags_spec p (if zero then Z.lor PAL_USER PAL_ZERO else PAL_USER) 1 Hp ltac:(lia))
    as (a & p' & E & Hp' & [?|(_ & Hr & Ha & _ & Hpool)]); [by destruct zero|..]; exists a, p'; (split; [exact E|split; [done|]]); [by left|right].
  destruct (Hr a) as [Hk Hn]; [by apply page_range_one|]. split_and!; [done..| |done]. intros b. by rewrite Ha, page_range_one.
Qed.

#[export] Instance palloc_user_pages : UserPages palloc := {
  get_user_page zero := palloc_get_multiple (if zero then Z.lor PAL_USER PAL_ZERO else PAL_USER) 1;
  get_user_page_spec := palloc_get_user_spec;
}.
