(* ===== verification/Segments.v ===== *)
(** * Segments: userprog/gdt.c, userprog/tss.c

    The global descriptor table and the task-state segment, over any page
    allocator, from which the task-state segment comes.  The segment
    registers of the processor are part of the state. *)

From S2P Require Import Prelude Vaddr Palloc PageAlloc.

(** ** Selectors (threads/loader.h, userprog/gdt.h) *)
Definition SEL_NULL : Z := 0.
Definition SEL_KCSEG : Z := 8.
Definition SEL_KDSEG : Z := 16.
Definition SEL_UCSEG : Z := 27.
Definition SEL_UDSEG : Z := 35.
Definition SEL_TSS : Z := 40.
Definition SEL_CNT : Z := 6.

(** ** Descriptors *)
Inductive seg_class := CLS_SYSTEM | CLS_CODE_DATA.
Inductive seg_granularity := GRAN_BYTE | GRAN_PAGE.
Definition class_bit (c : seg_class) : Z := match c with CLS_SYSTEM => 0 | CLS_CODE_DATA => 1 end.
Definition gran_bit (g : seg_granularity) : Z := match g with GRAN_BYTE => 0 | GRAN_PAGE => 1 end.

(** [ASSERT] in a function without state. *)
Definition assert_that (b : bool) : outcome unit := if b then Ret tt else Panic.

Definition make_seg_desc (base limit : Z) (class : seg_class) (type dpl : Z) (granularity : seg_granularity) : outcome Z :=
  assert_that (limit <=? 0xfffff);;
  assert_that ((0 <=? type) && (type <=? 15));;
  assert_that ((0 <=? dpl) && (dpl <=? 3));;
  let e0 := Z.lor (Z.land limit 0xffff) (u32 (Z.shiftl base 16)) in
  let e1 :=
    Z.lor (Z.lor (Z.lor (Z.lor (Z.lor (Z.lor (Z.lor (Z.lor
      (Z.land (Z.shiftr base 16) 0xff)
      (Z.shiftl type 8))
      (Z.shiftl (class_bit class) 12))
      (Z.shiftl dpl 13))
      (Z.shiftl 1 15))
      (Z.land limit 0xf0000))
      (Z.shiftl 1 22))
      (Z.shiftl (gran_bit granularity) 23))
      (Z.land base 0xff000000) in
  Ret (Z.lor e0 (u64 (Z.shiftl e1 32))).

Definition make_code_desc (dpl : Z) : outcome Z := make_seg_desc 0 0xfffff CLS_CODE_DATA 10 dpl GRAN_PAGE.
Definition make_data_desc (dpl : Z) : outcome Z := make_seg_desc 0 0xfffff CLS_CODE_DATA 2 dpl GRAN_PAGE.
Definition make_tss_desc (laddr : Z) : outcome Z := make_seg_desc laddr 0x67 CLS_SYSTEM 9 0 GRAN_BYTE.
Definition make_gdtr_operand (limit base : Z) : Z := Z.lor limit (u64 (Z.shiftl base 16)).

(** ** The state *)

(** The fields of the task-state segment that are used; the others keep the
    zeros of the new page. *)
Record tss := mk_tss { esp0 : Z; ss0 : Z; bitmap : Z }.

(** [tss_ptr] is the variable [tss], 0 for null; [gdtr] and [tr] are registers
    of the processor. *)
Record seg (P : Type) := mk_seg { seg_pal : P; tss_ptr : Z; tss_mem : tss; gdt : list Z; gdtr : Z; tr : Z }.
Arguments mk_seg {P}.
Arguments seg_pal {P}.
Arguments tss_ptr {P}.
Arguments tss_mem {P}.
Arguments gdt {P}.
Arguments gdtr {P}.
Arguments tr {P}.

Section Segments.
Context {P : Type} `{PageAlloc P} (gdt_addr : Z).
Implicit Types s : seg P.

Definition set_tss (t : tss) s : seg P := mk_seg (seg_pal s) (tss_ptr s) t (gdt s) (gdtr s) (tr s).

(** [palloc_get_page (PAL_ASSERT | PAL_ZERO)] stops the machine when there is
    no page. *)
Definition tss_init : ST (seg P) unit := fun s =>
  match get_page true (seg_pal s) with
  | Ret (a, p) =>
    if a =? 0 then Panic
    else (esp ← lift (ptov 0x20000);
          modify (fun s => mk_seg p a (mk_tss esp SEL_KDSEG 0xdfff) (gdt s) (gdtr s) (tr s))) s
  | Panic => Panic
  | OutOfFuel => OutOfFuel
  end.

Definition tss_get : ST (seg P) Z :=
  t ← gets tss_ptr;
  ASSERT (negb (t =? 0));;
  mret t.

Definition tss_set_esp0 (esp : Z) : ST (seg P) unit :=
  t ← gets tss_ptr;
  ASSERT (negb (t =? 0));;
  modify (fun s => set_tss (mk_tss esp (ss0 (tss_mem s)) (bitmap (tss_mem s))) s).

(** [gdt[SEL / sizeof *gdt] = desc] *)
Definition set_desc (sel : Z) (desc : Z) : ST (seg P) unit :=
  s ← gets id;
  ASSERT (sel / 8 <? length (gdt s));;
  modify (fun s => mk_seg (seg_pal s) (tss_ptr s) (tss_mem s) (<[Z.to_nat (sel / 8) := desc]> (gdt s)) (gdtr s) (tr s)).

Definition gdt_init : ST (seg P) unit :=
  set_desc SEL_NULL 0;;
  d ← lift (make_code_desc 0); set_desc SEL_KCSEG d;;
  d ← lift (make_data_desc 0); set_desc SEL_KDSEG d;;
  d ← lift (make_code_desc 3); set_desc SEL_UCSEG d;;
  d ← lift (make_data_desc 3); set_desc SEL_UDSEG d;;
  t ← tss_get; d ← lift (make_tss_desc t); set_desc SEL_TSS d;;
  modify (fun s => mk_seg (seg_pal s) (tss_ptr s) (tss_mem s) (gdt s) (make_gdtr_operand (SEL_CNT * 8 - 1) gdt_addr) SEL_TSS).
End Segments.

(** ** What the processor reads from a descriptor *)

Record desc := mk_desc {
  d_base : Z; d_limit : Z; d_type : Z; d_class : Z; d_dpl : Z; d_present : Z; d_avl : Z; d_long : Z; d_32 : Z; d_gran : Z
}.

Definition decode_desc (x : Z) : desc :=
  mk_desc (field 16 24 x + 2 ^ 24 * field 56 8 x) (field 0 16 x + 2 ^ 16 * field 48 4 x) (field 40 4 x) (field 44 1 x) (field 45 2 x)
    (field 47 1 x) (field 52 1 x) (field 53 1 x) (field 54 1 x) (field 55 1 x).

(** The descriptor as a sum of its fields. *)
Lemma seg_desc_sum base limit class type dpl gran : is_u32 base -> 0 <= limit <= 0xfffff -> 0 <= type <= 15 -> 0 <= dpl <= 3 ->
  make_seg_desc base limit class type dpl gran = Ret (limit mod 2 ^ 16 + (base mod 2 ^ 16) * 2 ^ 16 +
    (field 16 8 base + type * 2 ^ 8 + class_bit class * 2 ^ 12 + dpl * 2 ^ 13 + 1 * 2 ^ 15 + field 16 4 limit * 2 ^ 16 + 1 * 2 ^ 22 +
     gran_bit gran * 2 ^ 23 + field 24 8 base * 2 ^ 24) * 2 ^ 32).
Proof.
  intros Hb Hl Ht Hd. unfold make_seg_desc, assert_that.
  destruct (Z.leb_spec limit 0xfffff); [|lia]. destruct (Z.leb_spec 0 type), (Z.leb_spec type 15); try lia.
  destruct (Z.leb_spec 0 dpl), (Z.leb_spec dpl 3); try lia. cbn [andb mbind outcome_bind]. f_equal.
  assert (Hc : 0 <= class_bit class <= 1) by (by destruct class). assert (Hg : 0 <= gran_bit gran <= 1) by (by destruct gran).
  assert (F1 : 0 <= field 16 8 base < 2 ^ 8) by (apply Z.mod_pos_bound; lia). assert (F2 : 0 <= field 16 4 limit < 2 ^ 4) by (apply Z.mod_pos_bound; lia).
  assert (F3 : 0 <= field 24 8 base < 2 ^ 8) by (apply Z.mod_pos_bound; lia).
  change 0xffff with (2 ^ 16 - 1). change 0xff with (2 ^ 8 - 1). rewrite !land_ones_low, !Z.shiftl_mul_pow2, Z.shiftr_div_pow2 by lia. fold (field 16 8 base).
  change 0xf0000 with (Z.shiftl (Z.ones 4) 16). change 0xff000000 with (Z.shiftl (Z.ones 8) 24). rewrite !land_field by lia.
  rewrite (lor_above _ type), (lor_above _ (class_bit class)), (lor_above _ dpl), (lor_above _ 1 15), (lor_above _ (field 16 4 limit)), (lor_above _ 1 22),
    (lor_above _ (gran_bit gran)), (lor_above _ (field 24 8 base)) by lia.
  unfold u64. rewrite (Z.mod_small (_ * 2 ^ 32)) by lia.
  replace (u32 (base * 2 ^ 16)) with ((base mod 2 ^ 16) * 2 ^ 16) by (unfold u32; change (2 ^ 32) with (2 ^ 16 * 2 ^ 16); by rewrite Z.mul_mod_distr_r by lia).
  pose proof (Z.mod_pos_bound limit (2 ^ 16)). pose proof (Z.mod_pos_bound base (2 ^ 16)).
  rewrite (lor_above (limit mod 2 ^ 16)) by lia. rewrite lor_above by lia. done.
Qed.

(** What the processor reads back. *)
Lemma seg_desc_ok base limit class type dpl gran : is_u32 base -> 0 <= limit <= 0xfffff -> 0 <= type <= 15 -> 0 <= dpl <= 3 ->
  exists x, make_seg_desc base limit class type dpl gran = Ret x /\ is_u64 x /\
    decode_desc x = mk_desc base limit type (class_bit class) dpl 1 0 0 1 (gran_bit gran).
Proof.
  intros Hb Hl E2 E3. eexists. split; [by apply seg_desc_sum|].
  assert (Hc : 0 <= class_bit class <= 1) by (by destruct class). assert (Hg : 0 <= gran_bit gran <= 1) by (by destruct gran).
  pose proof (field_range 16 8 base ltac:(lia)) as F1. pose proof (field_range 24 8 base ltac:(lia)) as F2. pose proof (field_range 16 4 limit ltac:(lia)) as F3.
  pose proof (Z.mod_pos_bound limit (2 ^ 16) ltac:(lia)) as F4. pose proof (Z.mod_pos_bound base (2 ^ 16) ltac:(lia)) as F5.
  split; [unfold is_u64; lia|]. unfold decode_desc. change (field 16 24) with (field 16 (16 + 8)). rewrite field_split by lia.
  read_fields. f_equal.
  - unfold field, is_u32 in *. Z.to_euclidean_division_equations. lia.
  - unfold field, is_u32 in *. Z.to_euclidean_division_equations. lia.
  - apply field_above. change (52 - 32 - 16) with 4. lia.
  - apply field_above. change (53 - 32 - 16) with 5. lia.
Qed.

(** [make_seg_desc] encodes its arguments as the processor reads them: for
    arguments in range, the base, limit, type, class, privilege level and
    granularity of the descriptor are the given ones, the segment is present
    and 32-bit, and the reserved bits are zero; other arguments stop the
    machine. *)
Theorem seg_desc_roundtrip base limit class type dpl gran : is_u32 base -> is_u32 limit ->
  if (limit <=? 0xfffff) && ((0 <=? type) && (type <=? 15)) && ((0 <=? dpl) && (dpl <=? 3)) then
    exists x, make_seg_desc base limit class type dpl gran = Ret x /\ is_u64 x /\
      decode_desc x = mk_desc base limit type (class_bit class) dpl 1 0 0 1 (gran_bit gran)
  else make_seg_desc base limit class type dpl gran = Panic.
Proof.
  intros Hb Hl. destruct (_ && _) eqn:E.
  - rewrite !andb_true_iff, !Z.leb_le in E. destruct E as [[E1 E2] E3]. apply seg_desc_ok; [done|unfold is_u32 in Hl; lia..].
  - unfold make_seg_desc, assert_that. destruct (limit <=? 0xfffff); [|done]. cbn [mbind outcome_bind andb] in *.
    destruct ((0 <=? type) && (type <=? 15)); [|done]. cbn [mbind outcome_bind andb] in *. by rewrite E.
Qed.

Lemma seg_desc_roundtrip_witness : make_seg_desc 0xc0123456 0x67 CLS_SYSTEM 9 0 GRAN_BYTE = Ret 0xc040891234560067 /\
  exists x, make_seg_desc 0xc0123456 0x67 CLS_SYSTEM 9 0 GRAN_BYTE = Ret x /\ is_u64 x /\ decode_desc x = mk_desc 0xc0123456 0x67 9 0 0 1 0 0 1 0.
Proof.
  split; [vm_compute; reflexivity|].
  apply (seg_desc_roundtrip 0xc0123456 0x67 CLS_SYSTEM 9 0 GRAN_BYTE); unfold is_u32; lia.
Defined.

(** The tables of the machine: kernel and user code and data over the whole
    address space at their privilege levels, and the task-state segment. *)
Definition flat (type dpl : Z) : desc := mk_desc 0 0xfffff type 1 dpl 1 0 0 1 1.

(** The descriptor that a selector names, and the privilege it asks for. *)
Definition selected (l : list Z) (sel : Z) : option desc := decode_desc <$> l !! Z.to_nat (sel / 8).
Definition rpl (sel : Z) : Z := sel mod 4.

Section Init.
Context {P : Type} `{PageAlloc P} (gdt_addr : Z).

Lemma set_desc_run {B} sel (d : Z) (k : unit -> ST (seg P) B) p a t l g r : sel / 8 < length l ->
  (set_desc sel d ≫= k) (mk_seg p a t l g r) = k tt (mk_seg p a t (<[Z.to_nat (sel / 8) := d]> l) g r).
Proof.
  intros Hs. apply bind_run.
  unfold set_desc. rewrite (bind_run (gets id) _ _ (mk_seg p a t l g r) (mk_seg p a t l g r)) by done.
  cbn [gdt]. apply Z.ltb_lt in Hs. by rewrite Hs.
Qed.

Lemma lift_desc_run {B} sel (d : Z) (k : unit -> ST (seg P) B) p a t l g r : sel / 8 < length l ->
  (lift (Ret d) ≫= fun d => set_desc sel d ≫= k) (mk_seg p a t l g r) = k tt (mk_seg p a t (<[Z.to_nat (sel / 8) := d]> l) g r).
Proof. intros Hs. by apply set_desc_run. Qed.

Lemma tss_get_run p a t l g r : a <> 0 -> tss_get (P := P) (mk_seg p a t l g r) = Ret (a, mk_seg p a t l g r).
Proof. intros Ha%Z.eqb_neq. unfold tss_get, mbind, ST_bind, gets. cbn [tss_ptr]. by rewrite Ha. Qed.

(** C33: After [tss_init] and [gdt_init] each selector names the segment it is
    meant for, with a requested privilege equal to that of the segment: code
    and data of the kernel at level 0 and of users at level 3, flat over 4 GB,
    and a task-state segment at the page that [tss_init] got, with a kernel
    stack; the table register covers exactly the six descriptors.  Setting the
    stack later keeps everything else.  If there is no page the machine
    stops. *)
Theorem segments_correct (s : seg P) : pages_ok (seg_pal s) -> length (gdt s) = 6%nat -> is_u32 gdt_addr ->
  (tss_init;; gdt_init gdt_addr) s = Panic \/
  exists s', (tss_init;; gdt_init gdt_addr) s = Ret (tt, s') /\ tss_ptr s' <> 0 /\
    ~ allocated (seg_pal s) (tss_ptr s') /\ allocated (seg_pal s') (tss_ptr s') /\
    selected (gdt s') SEL_KCSEG = Some (flat 10 0) /\ rpl SEL_KCSEG = 0 /\
    selected (gdt s') SEL_KDSEG = Some (flat 2 0) /\ rpl SEL_KDSEG = 0 /\
    selected (gdt s') SEL_UCSEG = Some (flat 10 3) /\ rpl SEL_UCSEG = 3 /\
    selected (gdt s') SEL_UDSEG = Some (flat 2 3) /\ rpl SEL_UDSEG = 3 /\
    selected (gdt s') SEL_TSS = Some (mk_desc (tss_ptr s') 0x67 9 0 0 1 0 0 1 0) /\ tr s' = SEL_TSS /\
    gdt s' !! 0%nat = Some 0 /\ length (gdt s') = 6%nat /\ field 0 16 (gdtr s') = 47 /\ field 16 32 (gdtr s') = gdt_addr /\
    tss_mem s' = mk_tss 0xc0020000 SEL_KDSEG 0xdfff /\
    forall esp, tss_set_esp0 esp s' = Ret (tt, set_tss (mk_tss esp SEL_KDSEG 0xdfff) s').
Proof.
  intros Hp Hlen Hg. unfold tss_init. destruct (get_page_spec (seg_pal s) true Hp) as (a & p' & E & Hp' & [[-> ->]|(Hk & Hna & Hal)]).
  { left. apply bind_panics. by rewrite E. }
  right. assert (Ha : a <> 0 /\ is_u32 a) by (destruct Hk as (? & ? & _); unfold PHYS_BASE, is_u32 in *; rewrite PGSIZE_eq in *; lia).
  set (s1 := mk_seg p' a (mk_tss 0xc0020000 SEL_KDSEG 0xdfff) (gdt s) (gdtr s) (tr s)).
  rewrite (bind_run _ _ _ tt s1) by (rewrite E; destruct (Z.eqb_spec a 0); [tauto|done]).
  destruct (gdt s) as [|g0 [|g1 [|g2 [|g3 [|g4 [|g5 [|]]]]]]] eqn:Egdt; try done.
  destruct (seg_desc_ok 0 0xfffff CLS_CODE_DATA 10 0 GRAN_PAGE) as (kc & Ekc & _ & Dkc); [done|lia..|].
  destruct (seg_desc_ok 0 0xfffff CLS_CODE_DATA 2 0 GRAN_PAGE) as (kd & Ekd & _ & Dkd); [done|lia..|].
  destruct (seg_desc_ok 0 0xfffff CLS_CODE_DATA 10 3 GRAN_PAGE) as (uc & Euc & _ & Duc); [done|lia..|].
  destruct (seg_desc_ok 0 0xfffff CLS_CODE_DATA 2 3 GRAN_PAGE) as (ud & Eud & _ & Dud); [done|lia..|].
  destruct (seg_desc_ok a 0x67 CLS_SYSTEM 9 0 GRAN_BYTE) as (ts & Ets & _ & Dts); [tauto|lia..|].
  exists (mk_seg p' a (mk_tss 0xc0020000 SEL_KDSEG 0xdfff) [0; kc; kd; uc; ud; ts] (make_gdtr_operand 47 gdt_addr) SEL_TSS).
  split.
  { unfold gdt_init, make_code_desc, make_data_desc, s1.
    rewrite Ekc, Ekd, Euc, Eud. rewrite (set_desc_run SEL_NULL), (lift_desc_run SEL_KCSEG), (lift_desc_run SEL_KDSEG), (lift_desc_run SEL_UCSEG),
      (lift_desc_run SEL_UDSEG) by done.
    rewrite (bind_run tss_get _ _ a (mk_seg p' a _ _ _ _)) by (apply tss_get_run; tauto).
    unfold make_tss_desc. rewrite Ets, (lift_desc_run SEL_TSS) by done. done. }
  assert (Hg' : field 0 16 (make_gdtr_operand 47 gdt_addr) = 47 /\ field 16 32 (make_gdtr_operand 47 gdt_addr) = gdt_addr).
  { unfold make_gdtr_operand, u64, is_u32 in *. rewrite Z.shiftl_mul_pow2, Z.mod_small, lor_above by lia. split; read_fields; try lia.
    all: unfold field; Z.to_euclidean_division_equations; lia. }
  cbn [tss_ptr seg_pal gdt tr gdtr tss_mem]. split_and!; try done.
  - tauto.
  - apply Hal. by left.
  - change (Some (decode_desc kc) = Some (flat 10 0)). by rewrite Dkc.
  - change (Some (decode_desc kd) = Some (flat 2 0)). by rewrite Dkd.
  - change (Some (decode_desc uc) = Some (flat 10 3)). by rewrite Duc.
  - change (Some (decode_desc ud) = Some (flat 2 3)). by rewrite Dud.
  - change (Some (decode_desc ts) = Some (mk_desc a 0x67 9 0 0 1 0 0 1 0)). by rewrite Dts.
  - tauto.
  - tauto.
  - intros esp. unfold tss_set_esp0, mbind, ST_bind, gets. cbn [tss_ptr]. destruct (Z.eqb_spec a 0); [tauto|done].
Qed.
End Init.

Definition demo_seg : seg palloc := mk_seg demo_palloc 0 (mk_tss 0 0 0) (replicate 6 0) 0 0.

Lemma segments_correct_witness : exists s', (tss_init;; gdt_init 0xc0028000) demo_seg = Ret (tt, s') /\ tss_ptr s' <> 0 /\
  selected (gdt s') SEL_UCSEG = Some (flat 10 3).
Proof.
  destruct (segments_correct 0xc0028000 demo_seg) as [E|(s' & E & Ht & _ & _ & _ & _ & _ & _ & Hu & _)];
    [apply demo_palloc_ok|reflexivity|unfold is_u32; lia|vm_compute in E; discriminate E|].
  exists s'. split; [exact E|]. split; [exact Ht|exact Hu].
Defined.
