(* ===== verification/Interrupt.v ===== *)
(** * Interrupt dispatch: threads/interrupt.c

    The interrupt descriptor table, the table of handlers, the programming of
    the two interrupt controllers, and the function that every interrupt
    reaches.  Writes to ports are recorded in order; [eflags] and [idtr] are
    registers of the processor.  The entry points of intr-stubs.S are
    addresses that the linker chooses, the argument [intr_stubs].  A handler is
    a value of [intr_handler_func]; what it does is the argument [call] of
    [intr_handler], as is [thread_yield]: they run on the same state, whose
    component [rest] is the state of the other parts of the kernel.

    The second half holds the interrupt controllers as their data sheet
    describes them and the calls that register handlers during boot. *)

From stdpp Require Import strings.
From S2P Require Import Prelude Timer Segments.

Inductive intr_level := INTR_OFF | INTR_ON.
#[export] Instance intr_level_eq_dec : EqDecision intr_level.
Proof. solve_decision. Defined.

Definition INTR_CNT : nat := 256.
Definition FLAG_IF : Z := 0x200.

(** The functions that are registered as handlers: [kill] and [page_fault] of
    exception.c, [syscall_handler] of syscall.c and those of the drivers. *)
Inductive intr_handler_func :=
  | kill | page_fault | syscall_handler | timer_interrupt | keyboard_interrupt | serial_interrupt | interrupt_handler.

(** ** The interrupt frame *)
Record intr_frame := mk_frame {
  edi : Z; esi : Z; ebp : Z; esp_dummy : Z; ebx : Z; edx : Z; ecx : Z; eax : Z;
  gs : Z; fs : Z; es : Z; ds : Z;
  vec_no : Z; error_code : Z; frame_pointer : Z;
  eip : Z; cs : Z; frame_eflags : Z; esp : Z; ss : Z
}.

(** ** The state *)
Record intr (W : Type) := mk_intr {
  idt : list Z;
  intr_handlers : list (option intr_handler_func);
  intr_names : list string;
  in_external_intr : bool;
  yield_on_return : bool;
  eflags : Z;
  idtr : Z;
  outs : list (Z * Z);
  rest : W
}.
Arguments mk_intr {W}.
Arguments idt {W}.
Arguments intr_handlers {W}.
Arguments intr_names {W}.
Arguments in_external_intr {W}.
Arguments yield_on_return {W}.
Arguments eflags {W}.
Arguments idtr {W}.
Arguments outs {W}.
Arguments rest {W}.

Section Setters.
Context {W : Type}.
Implicit Types s : intr W.
Definition set_idt x s : intr W := mk_intr x (intr_handlers s) (intr_names s) (in_external_intr s) (yield_on_return s) (eflags s) (idtr s) (outs s) (rest s).
Definition set_handlers x s : intr W := mk_intr (idt s) x (intr_names s) (in_external_intr s) (yield_on_return s) (eflags s) (idtr s) (outs s) (rest s).
Definition set_names x s : intr W := mk_intr (idt s) (intr_handlers s) x (in_external_intr s) (yield_on_return s) (eflags s) (idtr s) (outs s) (rest s).
Definition set_external x s : intr W := mk_intr (idt s) (intr_handlers s) (intr_names s) x (yield_on_return s) (eflags s) (idtr s) (outs s) (rest s).
Definition set_yield x s : intr W := mk_intr (idt s) (intr_handlers s) (intr_names s) (in_external_intr s) x (eflags s) (idtr s) (outs s) (rest s).
Definition set_eflags x s : intr W := mk_intr (idt s) (intr_handlers s) (intr_names s) (in_external_intr s) (yield_on_return s) x (idtr s) (outs s) (rest s).
Definition set_idtr x s : intr W := mk_intr (idt s) (intr_handlers s) (intr_names s) (in_external_intr s) (yield_on_return s) (eflags s) x (outs s) (rest s).
Definition add_outs x s : intr W := mk_intr (idt s) (intr_handlers s) (intr_names s) (in_external_intr s) (yield_on_return s) (eflags s) (idtr s) (outs s ++ x) (rest s).
End Setters.

(** ** Gates *)
Definition make_gate (function dpl type : Z) : outcome Z :=
  assert_that (negb (function =? 0));;
  assert_that ((0 <=? dpl) && (dpl <=? 3));;
  assert_that ((0 <=? type) && (type <=? 15));;
  let e0 := Z.lor (Z.land function 0xffff) (Z.shiftl SEL_KCSEG 16) in
  let e1 :=
    Z.lor (Z.lor (Z.lor (Z.lor
      (Z.land function 0xffff0000)
      (Z.shiftl 1 15))
      (Z.shiftl dpl 13))
      (Z.shiftl 0 12))
      (Z.shiftl type 8) in
  Ret (Z.lor e0 (u64 (Z.shiftl e1 32))).

Definition make_intr_gate (function dpl : Z) : outcome Z := make_gate function dpl 14.
Definition make_trap_gate (function dpl : Z) : outcome Z := make_gate function dpl 15.
Definition make_idtr_operand (limit base : Z) : Z := Z.lor limit (u64 (Z.shiftl base 16)).

Section Interrupt.
Context {W : Type} (intr_stubs : nat -> Z) (idt_addr : Z).
Implicit Types s : intr W.

Definition outb (port data : Z) : ST (intr W) unit := modify (add_outs [(port, data)]).

(** ** The interrupt level *)
Definition intr_context : ST (intr W) bool := gets in_external_intr.

Definition intr_get_level : ST (intr W) intr_level :=
  flags ← gets eflags;
  mret (if Z.land flags FLAG_IF =? 0 then INTR_OFF else INTR_ON).

Definition intr_enable : ST (intr W) intr_level :=
  old_level ← intr_get_level;
  c ← intr_context; ASSERT (negb c);;
  modify (fun s => set_eflags (Z.lor (eflags s) FLAG_IF) s);;
  mret old_level.

Definition intr_disable : ST (intr W) intr_level :=
  old_level ← intr_get_level;
  modify (fun s => set_eflags (Z.ldiff (eflags s) FLAG_IF) s);;
  mret old_level.

Definition intr_set_level (level : intr_level) : ST (intr W) intr_level :=
  if decide (level = INTR_ON) then intr_enable else intr_disable.

(** ** The interrupt controllers *)
Definition pic_init : ST (intr W) unit :=
  outb 0x21 0xff;; outb 0xa1 0xff;;
  outb 0x20 0x11;; outb 0x21 0x20;; outb 0x21 0x04;; outb 0x21 0x01;;
  outb 0xa0 0x11;; outb 0xa1 0x28;; outb 0xa1 0x02;; outb 0xa1 0x01;;
  outb 0x21 0x00;; outb 0xa1 0x00.

Definition pic_end_of_interrupt (irq : Z) : ST (intr W) unit :=
  ASSERT ((0x20 <=? irq) && (irq <? 0x30));;
  outb 0x20 0x20;;
  when (0x28 <=? irq) (outb 0xa0 0x20).

(** ** Initialisation *)

(** [idt[i] = make_intr_gate (intr_stubs[i], 0)] for [n] entries from [i] on *)
Fixpoint init_gates (n i : nat) : ST (intr W) unit :=
  match n with
  | O => mret tt
  | S n =>
    g ← lift (make_intr_gate (intr_stubs i) 0);
    modify (fun s => set_idt (<[i := g]> (idt s)) s);;
    init_gates n (S i)
  end.

Definition name_table : list (nat * string) := [
  (0%nat, "#DE Divide Error");
  (1%nat, "#DB Debug Exception");
  (2%nat, "NMI Interrupt");
  (3%nat, "#BP Breakpoint Exception");
  (4%nat, "#OF Overflow Exception");
  (5%nat, "#BR BOUND Range Exceeded Exception");
  (6%nat, "#UD Invalid Opcode Exception");
  (7%nat, "#NM Device Not Available Exception");
  (8%nat, "#DF Double Fault Exception");
  (9%nat, "Coprocessor Segment Overrun");
  (10%nat, "#TS Invalid TSS Exception");
  (11%nat, "#NP Segment Not Present");
  (12%nat, "#SS Stack Fault Exception");
  (13%nat, "#GP General Protection Exception");
  (14%nat, "#PF Page-Fault Exception");
  (16%nat, "#MF x87 FPU Floating-Point Error");
  (17%nat, "#AC Alignment Check Exception");
  (18%nat, "#MC Machine-Check Exception");
  (19%nat, "#XF SIMD Floating-Point Exception")]%string.

Definition init_names : list string :=
  foldl (fun l '(i, name) => <[i := name]> l) (replicate INTR_CNT "unknown"%string) name_table.

Definition intr_init : ST (intr W) unit :=
  pic_init;;
  init_gates INTR_CNT 0;;
  modify (set_idtr (make_idtr_operand (8 * Z.of_nat INTR_CNT - 1) idt_addr));;
  modify (set_names init_names).

(** ** Registration *)

(** [vec_no] is a [uint8_t], which is an index of the three tables. *)
Definition register_handler (vec_no : Z) (dpl : Z) (level : intr_level) (handler : intr_handler_func) (name : string) : ST (intr W) unit :=
  let v := Z.to_nat vec_no in
  hs ← gets intr_handlers;
  ASSERT (if hs !! v is Some None then true else false);;
  g ← lift (if decide (level = INTR_ON) then make_trap_gate (intr_stubs v) dpl else make_intr_gate (intr_stubs v) dpl);
  modify (fun s => set_idt (<[v := g]> (idt s)) s);;
  modify (fun s => set_handlers (<[v := Some handler]> (intr_handlers s)) s);;
  modify (fun s => set_names (<[v := name]> (intr_names s)) s).

Definition intr_register_ext (vec_no : Z) (handler : intr_handler_func) (name : string) : ST (intr W) unit :=
  ASSERT ((0x20 <=? vec_no) && (vec_no <=? 0x2f));;
  register_handler vec_no 0 INTR_OFF handler name.

Definition intr_register_int (vec_no dpl : Z) (level : intr_level) (handler : intr_handler_func) (name : string) : ST (intr W) unit :=
  ASSERT ((vec_no <? 0x20) || (0x2f <? vec_no));;
  register_handler vec_no dpl level handler name.

Definition intr_yield_on_return : ST (intr W) unit :=
  c ← intr_context; ASSERT c;;
  modify (set_yield true).

Definition intr_name (vec : Z) : ST (intr W) string :=
  names ← gets intr_names;
  match names !! Z.to_nat vec with Some n => mret n | None => panic end.

(** ** The handler of every interrupt *)
Section Handler.
Context (call : intr_handler_func -> intr_frame -> ST (intr W) intr_frame) (thread_yield : ST (intr W) unit).

(** The result is the frame as the handler leaves it. *)
Definition intr_handler (frame : intr_frame) : ST (intr W) intr_frame :=
  let external := (0x20 <=? vec_no frame) && (vec_no frame <? 0x30) in
  when external (
    l ← intr_get_level; ASSERT (bool_decide (l = INTR_OFF));;
    c ← intr_context; ASSERT (negb c);;
    modify (set_external true);;
    modify (set_yield false));;
  hs ← gets intr_handlers;
  frame ←
    match hs !! Z.to_nat (vec_no frame) with
    | Some (Some handler) => call handler frame
    | Some None => if (vec_no frame =? 0x27) || (vec_no frame =? 0x2f) then mret frame else panic
    | None => panic
    end;
  when external (
    l ← intr_get_level; ASSERT (bool_decide (l = INTR_OFF));;
    c ← intr_context; ASSERT c;;
    modify (set_external false);;
    pic_end_of_interrupt (vec_no frame);;
    y ← gets yield_on_return;
    when y thread_yield);;
  mret frame.
End Handler.

(** ** What is registered during boot *)

Definition timer_init : ST (intr W) unit :=
  let count := u16 ((1193180 + TIMER_FREQ / 2) / TIMER_FREQ) in
  outb 0x43 0x34;;
  outb 0x40 (Z.land count 0xff);;
  outb 0x40 (Z.shiftr count 8);;
  intr_register_ext 0x20 timer_interrupt "8254 Timer".

Definition kbd_init : ST (intr W) unit := intr_register_ext 0x21 keyboard_interrupt "8042 Keyboard".

Definition exception_init : ST (intr W) unit :=
  intr_register_int 3 3 INTR_ON kill "#BP Breakpoint Exception";;
  intr_register_int 4 3 INTR_ON kill "#OF Overflow Exception";;
  intr_register_int 5 3 INTR_ON kill "#BR BOUND Range Exceeded Exception";;
  intr_register_int 0 0 INTR_ON kill "#DE Divide Error";;
  intr_register_int 1 0 INTR_ON kill "#DB Debug Exception";;
  intr_register_int 6 0 INTR_ON kill "#UD Invalid Opcode Exception";;
  intr_register_int 7 0 INTR_ON kill "#NM Device Not Available Exception";;
  intr_register_int 11 0 INTR_ON kill "#NP Segment Not Present";;
  intr_register_int 12 0 INTR_ON kill "#SS Stack Fault Exception";;
  intr_register_int 13 0 INTR_ON kill "#GP General Protection Exception";;
  intr_register_int 16 0 INTR_ON kill "#MF x87 FPU Floating-Point Error";;
  intr_register_int 19 0 INTR_ON kill "#XF SIMD Floating-Point Exception";;
  intr_register_int 14 0 INTR_OFF page_fault "#PF Page-Fault Exception".

(** The call that [syscall_init] makes after its lock is initialised. *)
Definition syscall_register : ST (intr W) unit := intr_register_int 0x30 3 INTR_ON syscall_handler "syscall".

(** The calls of [serial_init_queue] and, for the two channels, of [disk_init]. *)
Definition serial_register : ST (intr W) unit := intr_register_ext (0x20 + 4) serial_interrupt "serial".
Definition disk_register : ST (intr W) unit :=
  intr_register_ext (14 + 0x20) interrupt_handler "hd0";;
  intr_register_ext (15 + 0x20) interrupt_handler "hd1".

(** The order of [main] (threads/init.c). *)
Definition boot_interrupts : ST (intr W) unit :=
  intr_init;; timer_init;; kbd_init;; exception_init;; syscall_register;; serial_register;; disk_register.
End Interrupt.
