(* ===== verification/InterruptProps.v ===== *)
(** * Interrupt dispatch: the interrupt controllers and the theorems

    The 8259A as its data sheet describes it, what the processor reads from a
    gate, and the proofs that gates are encoded as they are read, that booting
    leaves the controllers and the descriptor table as intended, and that an
    interrupt from a device is delivered, acknowledged and followed by a
    context switch exactly as it should be. *)

From stdpp Require Import strings.
From S2P Require Import Prelude Timer Segments Interrupt.

(** ** Gates *)

(** What the processor reads from a gate. *)
Record gate := mk_gate { g_offset : Z; g_sel : Z; g_zero : Z; g_type : Z; g_system : Z; g_dpl : Z; g_present : Z }.

Definition decode_gate (x : Z) : gate :=
  mk_gate (field 0 16 x + 2 ^ 16 * field 48 16 x) (field 16 16 x) (field 32 8 x) (field 40 4 x) (field 44 1 x) (field 45 2 x) (field 47 1 x).

(** The gate as a sum of its fields. *)
Lemma gate_sum f dpl type : is_u32 f -> f <> 0 -> 0 <= dpl <= 3 -> 0 <= type <= 15 ->
  make_gate f dpl type = Ret (f mod 2 ^ 16 + 8 * 2 ^ 16 + (type * 2 ^ 8 + dpl * 2 ^ 13 + 1 * 2 ^ 15 + field 16 16 f * 2 ^ 16) * 2 ^ 32).
Proof.
  intros Hf Hn Hd Ht. unfold make_gate, assert_that. destruct (Z.eqb_spec f 0); [lia|].
  destruct (Z.leb_spec 0 type), (Z.leb_spec type 15); try lia.
  destruct (Z.leb_spec 0 dpl), (Z.leb_spec dpl 3); try lia. cbn [andb negb mbind outcome_bind]. f_equal.
  assert (F1 : 0 <= field 16 16 f < 2 ^ 16) by (apply field_range; lia). pose proof (Z.mod_pos_bound f (2 ^ 16)).
  change (Z.shiftl 0 12) with 0. rewrite Z.lor_0_r. change 0xffff0000 with (Z.shiftl (Z.ones 16) 16). rewrite land_field by lia.
  change 0xffff with (2 ^ 16 - 1). rewrite land_ones_low by lia. unfold SEL_KCSEG. rewrite !Z.shiftl_mul_pow2 by lia.
  rewrite (Z.lor_comm (field 16 16 f * _)), (Z.lor_comm _ (dpl * _)), (Z.lor_comm _ (type * _)), !Z.lor_assoc.
  rewrite (lor_above _ dpl), (lor_above _ 1 15), (lor_above _ (field 16 16 f)) by lia.
  rewrite (lor_above _ 8 16) by lia. unfold u64. rewrite (Z.mod_small (_ * 2 ^ 32)) by lia. by rewrite lor_above by lia.
Qed.

Lemma gate_ok f dpl type : is_u32 f -> f <> 0 -> 0 <= dpl <= 3 -> 0 <= type <= 15 ->
  exists x, make_gate f dpl type = Ret x /\ is_u64 x /\ decode_gate x = mk_gate f SEL_KCSEG 0 type 0 dpl 1.
Proof.
  intros Hf Hn Hd Ht. eexists. split; [by apply gate_sum|].
  pose proof (field_range 16 16 f ltac:(lia)) as F1. pose proof (Z.mod_pos_bound f (2 ^ 16) ltac:(lia)) as F2.
  split; [unfold is_u64; lia|]. unfold decode_gate. read_fields.
  f_equal.
  - unfold field, is_u32 in *. Z.to_euclidean_division_equations. lia.
  - change (32 - 32) with 0. unfold field. Z.to_euclidean_division_equations. lia.
  - change (40 - 32) with 8. unfold field. Z.to_euclidean_division_equations. lia.
  - change (44 - 32) with 12. unfold field. Z.to_euclidean_division_equations. lia.
  - change (45 - 32 - 13) with 0. apply field_all. lia.
Qed.

(** A gate is encoded as the processor reads it: for a function, a privilege
    level and a type in range the gate leads to that function in the kernel's
    code segment, with that level and type, and is present; other arguments
    stop the machine. *)
Theorem gate_roundtrip f dpl type : is_u32 f ->
  if negb (f =? 0) && ((0 <=? dpl) && (dpl <=? 3)) && ((0 <=? type) && (type <=? 15)) then
    exists x, make_gate f dpl type = Ret x /\ is_u64 x /\ decode_gate x = mk_gate f SEL_KCSEG 0 type 0 dpl 1
  else make_gate f dpl type = Panic.
Proof.
  intros Hf. destruct (_ && _) eqn:E.
  - rewrite !andb_true_iff, negb_true_iff, Z.eqb_neq, !Z.leb_le in E. destruct E as [[E1 E2] E3]. by apply gate_ok.
  - unfold make_gate, assert_that. destruct (negb (f =? 0)); [|done]. cbn [mbind outcome_bind andb] in *.
    destruct ((0 <=? dpl) && (dpl <=? 3)); [|done]. cbn [mbind outcome_bind andb] in *. by rewrite E.
Qed.

Lemma gate_roundtrip_witness :
  exists x, make_gate 0xc0021a5c 3 15 = Ret x /\ is_u64 x /\ decode_gate x = mk_gate 0xc0021a5c SEL_KCSEG 0 15 0 3 1.
Proof. apply (gate_roundtrip 0xc0021a5c 3 15). unfold is_u32. lia. Defined.

(** ** The 8259A interrupt controller

    What the next write to the data port means: while the chip is being
    initialised, one of the initialisation command words 2 to 4; otherwise the
    mask. *)
Inductive stage := Icw2 | Icw3 | Icw4 | Ready.
Record chip := mk_chip {
  at_stage : stage; single : bool; needs_icw4 : bool;
  vec_base : Z; cascade : Z; icw4 : Z; imr : Z; isr : Z
}.

(** A write with address line 0: word 1 of the initialisation, which clears
    the mask, or the end-of-interrupt command, which ends the interrupt with
    the highest priority.  The other commands are not described here. *)
Definition write_command (d : Z) (c : chip) : option chip :=
  if Z.testbit d 4 then Some (mk_chip Icw2 (Z.testbit d 1) (Z.testbit d 0) (vec_base c) (cascade c) (icw4 c) 0 (isr c))
  else if bool_decide (d = 0x20) then
    match at_stage c with
    | Ready => Some (mk_chip Ready (single c) (needs_icw4 c) (vec_base c) (cascade c) (icw4 c) (imr c) (Z.land (isr c) (isr c - 1)))
    | _ => None
    end
  else None.

(** A write with address line 1. *)
Definition write_data (d : Z) (c : chip) : chip :=
  let last := if needs_icw4 c then Icw4 else Ready in
  match at_stage c with
  | Icw2 => mk_chip (if single c then last else Icw3) (single c) (needs_icw4 c) (Z.land d 0xf8) (cascade c) (icw4 c) (imr c) (isr c)
  | Icw3 => mk_chip last (single c) (needs_icw4 c) (vec_base c) d (icw4 c) (imr c) (isr c)
  | Icw4 => mk_chip Ready (single c) (needs_icw4 c) (vec_base c) (cascade c) d (imr c) (isr c)
  | Ready => mk_chip Ready (single c) (needs_icw4 c) (vec_base c) (cascade c) (icw4 c) d (isr c)
  end.

(** The master is at ports 0x20 and 0x21, the slave at 0xa0 and 0xa1. *)
Record pics := mk_pics { master : chip; slave : chip }.

Definition pic_write (w : Z * Z) (c : pics) : option pics :=
  let (port, d) := w in
  if port =? 0x20 then m ← write_command d (master c); Some (mk_pics m (slave c))
  else if port =? 0x21 then Some (mk_pics (write_data d (master c)) (slave c))
  else if port =? 0xa0 then m ← write_command d (slave c); Some (mk_pics (master c) m)
  else if port =? 0xa1 then Some (mk_pics (master c) (write_data d (slave c)))
  else Some c.

Definition pic_run (l : list (Z * Z)) (c : pics) : option pics := foldl (fun c w => c ≫= pic_write w) (Some c) l.

(** Raising line [k] while nothing is in service: the vector that the
    processor receives and the chips with the interrupt in service.  Lines 8
    to 15 belong to the slave, whose interrupts reach the master on the line
    that both chips were told. *)
Definition set_isr (x : Z) (c : chip) : chip := mk_chip (at_stage c) (single c) (needs_icw4 c) (vec_base c) (cascade c) (icw4 c) (imr c) x.

Definition deliver_at (k : Z) (c : chip) : option (Z * chip) :=
  match at_stage c with
  | Ready => if Z.testbit (imr c) k || negb (isr c =? 0) then None else Some (vec_base c + k, set_isr (2 ^ k) c)
  | _ => None
  end.

Definition pic_deliver (k : Z) (c : pics) : option (Z * pics) :=
  if k <? 8 then '(v, m) ← deliver_at k (master c); Some (v, mk_pics m (slave c))
  else if single (master c) || single (slave c) || negb (Z.testbit (cascade (master c)) (cascade (slave c))) then None
  else '(v, s) ← deliver_at (k - 8) (slave c);
       '(_, m) ← deliver_at (cascade (slave c)) (master c);
       Some (v, mk_pics m s).

(** Both chips initialised as [pic_init] intends: cascaded on line 2, in 8086
    mode with normal end of interrupt, nothing masked. *)
Definition configured (c : pics) : pics :=
  mk_pics (mk_chip Ready false true 0x20 4 1 0 (isr (master c))) (mk_chip Ready false true 0x28 2 1 0 (isr (slave c))).
Definition idle_pics : pics := mk_pics (mk_chip Ready false true 0x20 4 1 0 0) (mk_chip Ready false true 0x28 2 1 0 0).

Lemma pic_run_app l l' c : pic_run (l ++ l') c = pic_run l c ≫= pic_run l'.
Proof.
  unfold pic_run. rewrite foldl_app. destruct (foldl _ (Some c) l); [done|]. cbn. by induction l'.
Qed.

(** ** The table of vectors *)

(** Type and privilege level of the gate, and the handler. *)
Definition entry : Type := Z * Z * intr_handler_func.
Definition entry_gate (e : option entry) : Z * Z := match e with Some (t, d, _) => (t, d) | None => (14, 0) end.
Definition entry_handler (e : option entry) : option intr_handler_func := match e with Some (_, _, h) => Some h | None => None end.

(** Each vector has a gate to its stub; [M] tells which were registered. *)
Record vectors {W} (stubs : nat -> Z) (M : gmap nat entry) (s : intr W) : Prop := {
  ve_idt v : (v < 256)%nat -> exists x, idt s !! v = Some x /\ is_u64 x /\
    decode_gate x = mk_gate (stubs v) SEL_KCSEG 0 (entry_gate (M !! v)).1 0 (entry_gate (M !! v)).2 1;
  ve_handlers v : (v < 256)%nat -> intr_handlers s !! v = Some (entry_handler (M !! v));
  ve_names : length (intr_names s) = 256%nat;
}.

Section Boot.
Context {W : Type} (stubs : nat -> Z) (idt_addr : Z).
Context (Hstubs : forall v, (v < 256)%nat -> is_u32 (stubs v) /\ stubs v <> 0).
Implicit Types s : intr W.

Lemma init_gates_run n i s : (i + n = 256)%nat -> length (idt s) = 256%nat ->
  exists l, init_gates stubs n i s = Ret (tt, set_idt l s) /\ length l = 256%nat /\
    (forall v, (v < i)%nat -> l !! v = idt s !! v) /\
    (forall v, (i <= v < 256)%nat -> exists x, l !! v = Some x /\ is_u64 x /\ decode_gate x = mk_gate (stubs v) SEL_KCSEG 0 14 0 0 1).
Proof using Hstubs.
  revert i s. induction n as [|n IH]; intros i s Hi Hl.
  - exists (idt s). split_and!; [by destruct s|done|done|lia].
  - destruct (Hstubs i) as [Hs Hn]; [lia|]. destruct (gate_ok (stubs i) 0 14) as (x & Ex & Hx & Dx); [done|done|lia|lia|].
    cbn [init_gates]. rewrite (bind_run (lift _) _ s x s) by (unfold lift, make_intr_gate; by rewrite Ex).
    destruct (IH (S i) (set_idt (<[i := x]> (idt s)) s)) as (l & E & Hll & Hlo & Hhi); [lia|simpl; by rewrite length_insert|].
    rewrite (bind_run (modify _) _ s tt (set_idt (<[i := x]> (idt s)) s)) by done. rewrite E.
    exists l. split_and!; [done|done|..].
    + intros v Hv. rewrite Hlo by lia. cbn [idt set_idt]. by rewrite list_lookup_insert_ne by lia.
    + intros v Hv. destruct (decide (v = i)) as [->|]; [|apply Hhi; lia]. exists x. split; [|done]. rewrite Hlo by lia.
      cbn [idt set_idt]. by rewrite list_lookup_insert_eq by lia.
Qed.

(** A registration on a vector that has none. *)
Lemma register_run (v dpl : Z) level h name M s : vectors stubs M s -> 0 <= v < 256 -> M !! Z.to_nat v = None -> 0 <= dpl <= 3 ->
  exists s', register_handler stubs v dpl level h name s = Ret (tt, s') /\
    vectors stubs (<[Z.to_nat v := (if decide (level = INTR_ON) then 15 else 14, dpl, h)]> M) s' /\
    in_external_intr s' = in_external_intr s /\ eflags s' = eflags s /\ idtr s' = idtr s /\ outs s' = outs s /\ rest s' = rest s.
Proof using Hstubs.
  intros Hv Hr HM Hd. set (u := Z.to_nat v). assert (Hu : (u < 256)%nat) by lia.
  destruct (Hstubs u Hu) as [Hs Hn]. set (t := if decide (level = INTR_ON) then 15 else 14).
  destruct (gate_ok (stubs u) dpl t) as (x & Ex & Hx & Dx); [done|done|done|unfold t; case_decide; lia|].
  unfold register_handler. fold u. rewrite (bind_run (gets intr_handlers) _ s (intr_handlers s) s) by done.
  rewrite (ve_handlers _ _ _ Hv u Hu). change (M !! u = None) in HM. rewrite HM. cbn [entry_handler].
  rewrite (bind_run (ASSERT true) _ s tt s) by done.
  rewrite (bind_run (lift _) _ s x s) by (unfold lift, t, make_trap_gate, make_intr_gate in *; case_decide; by rewrite Ex).
  eexists. split; [reflexivity|]. split; [|done]. destruct Hv as [Hi Hh Hnm]. split; cbn.
  - intros w Hw. destruct (decide (w = u)) as [->|Hne].
    + exists x. rewrite lookup_insert_eq. split; [|done]. apply list_lookup_insert_eq.
      destruct (Hi u Hu) as (y & Ey & _). by apply lookup_lt_Some in Ey.
    + rewrite lookup_insert_ne by done. rewrite list_lookup_insert_ne by done. by apply Hi.
  - intros w Hw. destruct (decide (w = u)) as [->|Hne].
    + rewrite lookup_insert_eq. apply list_lookup_insert_eq. by apply (lookup_lt_Some _ _ _ (Hh u Hu)).
    + rewrite lookup_insert_ne by done. rewrite list_lookup_insert_ne by done. by apply Hh.
  - by rewrite length_insert.
Qed.

(** What booting changes step by step: the registrations and the writes; the
    rest is as in [s0]. *)
Record booting (s0 : intr W) (d : Z) (M : gmap nat entry) (o : list (Z * Z)) s : Prop := {
  bo_vectors : vectors stubs M s;
  bo_external : in_external_intr s = in_external_intr s0;
  bo_eflags : eflags s = eflags s0;
  bo_idtr : idtr s = d;
  bo_outs : outs s = outs s0 ++ o;
  bo_rest : rest s = rest s0;
}.

Lemma register_int_step s0 d M o v dpl level h name s : booting s0 d M o s -> 0 <= v < 0x20 \/ 0x2f < v < 256 -> M !! Z.to_nat v = None -> 0 <= dpl <= 3 ->
  wp (intr_register_int stubs v dpl level h name) s
    (fun _ => booting s0 d (<[Z.to_nat v := (if decide (level = INTR_ON) then 15 else 14, dpl, h)]> M) o).
Proof using Hstubs.
  intros [Hv H1 H2 H3 H4 H5] Hr HM Hd. unfold intr_register_int. apply wp_bind, wp_assert.
  { destruct Hr; [apply orb_true_iff; left|apply orb_true_iff; right]; apply Z.ltb_lt; lia. }
  destruct (register_run v dpl level h name M s) as (s' & E & Hv' & E1 & E2 & E3 & E4 & E5); [done|lia|done|done|].
  apply wp_elim. exists tt, s'. split; [done|]. split; [exact Hv'|congruence..].
Qed.

Lemma register_ext_step s0 d M o v h name s : booting s0 d M o s -> 0x20 <= v <= 0x2f -> M !! Z.to_nat v = None ->
  wp (intr_register_ext stubs v h name) s (fun _ => booting s0 d (<[Z.to_nat v := (14, 0, h)]> M) o).
Proof using Hstubs.
  intros [Hv H1 H2 H3 H4 H5] Hr HM. unfold intr_register_ext. apply wp_bind, wp_assert.
  { apply andb_true_iff; split; apply Z.leb_le; lia. }
  destruct (register_run v 0 INTR_OFF h name M s) as (s' & E & Hv' & E1 & E2 & E3 & E4 & E5); [done|lia|done|lia|].
  apply wp_elim. exists tt, s'. split; [done|]. split; [exact Hv'|congruence..].
Qed.

Lemma outb_step s0 d M o port x s : booting s0 d M o s -> wp (outb port x) s (fun _ => booting s0 d M (o ++ [(port, x)])).
Proof using.
  intros [[Hi Hh Hn] H1 H2 H3 H4 H5]. apply wp_modify. split; try done. cbn. by rewrite H4, app_assoc.
Qed.

Definition pic_words : list (Z * Z) :=
  [(0x21, 0xff); (0xa1, 0xff); (0x20, 0x11); (0x21, 0x20); (0x21, 0x04); (0x21, 0x01);
   (0xa0, 0x11); (0xa1, 0x28); (0xa1, 0x02); (0xa1, 0x01); (0x21, 0x00); (0xa1, 0x00)].

Lemma outb_then {A} port x (m : ST (intr W) A) s : (outb port x;; m) s = m (add_outs [(port, x)] s).
Proof using. done. Qed.

Lemma add_outs_app l l' s : add_outs l' (add_outs l s) = add_outs (l ++ l') s.
Proof using. unfold add_outs. cbn [idt intr_handlers intr_names in_external_intr yield_on_return eflags idtr outs rest]. by rewrite app_assoc. Qed.

Lemma pic_init_run s : pic_init s = Ret (tt, add_outs pic_words s).
Proof using. unfold pic_init. rewrite !outb_then, !add_outs_app. unfold outb, modify. by rewrite add_outs_app. Qed.

Lemma intr_init_step s : length (idt s) = 256%nat -> intr_handlers s = replicate 256 None ->
  wp (intr_init stubs idt_addr) s (fun _ => booting s (make_idtr_operand 2047 idt_addr) ∅ pic_words).
Proof using Hstubs.
  intros Hl Hh. unfold intr_init. apply wp_bind, wp_elim. eexists tt, _. split; [apply pic_init_run|].
  apply wp_bind, wp_elim. destruct (init_gates_run 256 0 (add_outs pic_words s)) as (l & E & Hll & _ & Hg); [lia|done|].
  eexists tt, _. split; [exact E|]. apply wp_bind, wp_modify. apply wp_modify. split; [split|done..].
  - intros v Hv. rewrite lookup_empty. apply Hg. lia.
  - intros v Hv. rewrite lookup_empty. cbn. rewrite Hh. by apply lookup_replicate_2.
  - done.
Qed.

(** The registrations of the machine. *)
Definition boot_map : gmap nat entry := list_to_map [
  (0%nat, (15, 0, kill)); (1%nat, (15, 0, kill)); (3%nat, (15, 3, kill)); (4%nat, (15, 3, kill)); (5%nat, (15, 3, kill));
  (6%nat, (15, 0, kill)); (7%nat, (15, 0, kill)); (11%nat, (15, 0, kill)); (12%nat, (15, 0, kill)); (13%nat, (15, 0, kill));
  (14%nat, (14, 0, page_fault)); (16%nat, (15, 0, kill)); (19%nat, (15, 0, kill));
  (0x20%nat, (14, 0, timer_interrupt)); (0x21%nat, (14, 0, keyboard_interrupt)); (0x24%nat, (14, 0, serial_interrupt));
  (0x2e%nat, (14, 0, interrupt_handler)); (0x2f%nat, (14, 0, interrupt_handler)); (0x30%nat, (15, 3, syscall_handler))].

(** The divisor of the timer: 1193180 Hz / 100. *)
Definition pit_words : list (Z * Z) := [(0x43, 0x34); (0x40, 11932 mod 256); (0x40, 11932 / 256)].

Lemma boot_step s : length (idt s) = 256%nat -> intr_handlers s = replicate 256 None ->
  wp (boot_interrupts stubs idt_addr) s (fun _ => booting s (make_idtr_operand 2047 idt_addr) boot_map (pic_words ++ pit_words)).
Proof using Hstubs.
  intros Hl Hh. unfold boot_interrupts, timer_init, kbd_init, exception_init, syscall_register, serial_register, disk_register.
  apply wp_bind. eapply wp_mono; [by apply intr_init_step|]. intros [] s1 B.
  repeat lazymatch goal with
    | |- wp (_ ≫= _) _ _ => apply wp_bind
    | |- wp (outb _ _) _ _ => eapply wp_mono; [eapply outb_step; exact B|clear B; intros [] ? B]
    | |- wp (intr_register_ext _ _ _ _) _ _ =>
      eapply wp_mono; [eapply register_ext_step; [exact B|lia|vm_compute; reflexivity]|clear B; intros [] ? B]
    | |- wp (intr_register_int _ _ _ _ _ _) _ _ =>
      eapply wp_mono; [eapply register_int_step; [exact B|lia|vm_compute; reflexivity|lia]|clear B; intros [] ? B]
    end.
  match type of B with booting _ _ ?M ?o _ =>
    replace boot_map with M by (vm_compute; reflexivity); replace (pic_words ++ pit_words) with o by (vm_compute; reflexivity)
  end. exact B.
Qed.

(** The chips after the writes of the boot, whatever their state before. *)
Lemma boot_pics c : pic_run (pic_words ++ pit_words) c = Some (configured c).
Proof using. by destruct c as [[[] ? ? ? ? ? ? ?] [[] ? ? ? ? ? ? ?]]. Qed.

(** What user code may invoke: a gate of privilege level 3. *)
Lemma boot_user v : (entry_gate (boot_map !! v)).2 = 3 <-> v ∈ [3; 4; 5; 0x30]%nat.
Proof using.
  clear Hstubs. split.
  - destruct (boot_map !! v) as [[[ty d] h]|] eqn:E; [|done]. apply elem_of_list_to_map_2 in E.
    repeat (apply elem_of_cons in E as [E|E]; [injection E as -> -> -> ->; cbn; intros ?; try lia; set_solver|]). by apply not_elem_of_nil in E.
  - intros Hv. repeat (apply elem_of_cons in Hv as [->|Hv]; [vm_compute; reflexivity|]). by apply not_elem_of_nil in Hv.
Qed.

(** The vectors of the devices have interrupt gates. *)
Lemma boot_external v : (0x20 <= v < 0x30)%nat -> entry_gate (boot_map !! v) = (14, 0).
Proof using.
  clear Hstubs. destruct (boot_map !! v) as [[[ty d] h]|] eqn:E; [|done]. intros Hv. apply elem_of_list_to_map_2 in E.
  repeat (apply elem_of_cons in E as [E|E]; [injection E as -> -> -> ->; first [done|lia]|]). by apply not_elem_of_nil in E.
Qed.

(** C32: Booting from cleared tables succeeds: no vector is registered twice or out
    of its range.  Every vector has a present gate to its own stub in the
    kernel's code segment, with type, privilege level and handler as
    registered and an interrupt gate of level 0 without a handler otherwise;
    user code can invoke exactly the breakpoint, overflow, bound and system
    call vectors; every vector of a device has a gate that turns interrupts
    off.  The table register covers the 256 gates, the two interrupt
    controllers deliver their lines at 0x20 and 0x28 with nothing masked,
    whatever their state before, and the flags are as before. *)
Theorem boot_interrupts_correct s c : is_u32 idt_addr -> length (idt s) = 256%nat -> intr_handlers s = replicate 256 None ->
  exists s' w, boot_interrupts stubs idt_addr s = Ret (tt, s') /\
    (forall v, (v < 256)%nat ->
       (exists x, idt s' !! v = Some x /\
          decode_gate x = mk_gate (stubs v) SEL_KCSEG 0 (entry_gate (boot_map !! v)).1 0 (entry_gate (boot_map !! v)).2 1) /\
       intr_handlers s' !! v = Some (entry_handler (boot_map !! v)) /\
       ((entry_gate (boot_map !! v)).2 = 3 <-> v ∈ [3; 4; 5; 0x30]%nat) /\
       ((0x20 <= v < 0x30)%nat -> entry_gate (boot_map !! v) = (14, 0))) /\
    field 0 16 (idtr s') = 8 * 256 - 1 /\ field 16 32 (idtr s') = idt_addr /\
    outs s' = outs s ++ w /\ pic_run w c = Some (configured c) /\
    eflags s' = eflags s /\ in_external_intr s' = in_external_intr s /\ rest s' = rest s.
Proof using Hstubs.
  intros Ha Hl Hh. destruct (wp_run_unit _ _ _ (boot_step s Hl Hh)) as (s' & E & [[Hi Hd Hn] H1 H2 H3 H4 H5]).
  exists s', (pic_words ++ pit_words). split; [exact E|]. split.
  { intros v Hv. split; [destruct (Hi v Hv) as (x & ? & _ & ?); by exists x|]. split; [by apply Hd|]. split; [apply boot_user|apply boot_external]. }
  rewrite H3. assert (Hop : make_idtr_operand 2047 idt_addr = 2047 + idt_addr * 2 ^ 16).
  { unfold make_idtr_operand, u64, is_u32 in *. by rewrite Z.shiftl_mul_pow2, Z.mod_small, lor_above by lia. }
  rewrite Hop. split_and!; [|..|apply boot_pics|done|done|done]; [|..|exact H4].
  - unfold field. Z.to_euclidean_division_equations. lia.
  - unfold field, is_u32 in *. Z.to_euclidean_division_equations. lia.
Qed.
End Boot.

Definition demo_stubs (v : nat) : Z := 0xc0021000 + 16 * v.
Lemma demo_stubs_ok v : (v < 256)%nat -> is_u32 (demo_stubs v) /\ demo_stubs v <> 0.
Proof. unfold is_u32, demo_stubs. lia. Qed.
(** The rest of the state counts the calls of [thread_yield]. *)
Definition demo_intr : intr nat := mk_intr (replicate 256 0) (replicate 256 None) (replicate 256 ""%string) false false 0x202 0 [] 0%nat.

Lemma boot_interrupts_correct_witness : exists s' w, boot_interrupts demo_stubs 0xc0030000 demo_intr = Ret (tt, s') /\
  outs s' = w /\ pic_run w idle_pics = Some idle_pics /\ intr_handlers s' !! 0x30%nat = Some (Some syscall_handler).
Proof.
  destruct (boot_interrupts_correct demo_stubs 0xc0030000 demo_stubs_ok demo_intr idle_pics) as (s' & w & E & Hv & _ & _ & Ho & Hw & _);
    [unfold is_u32; lia|reflexivity|reflexivity|].
  exists s', w. split; [exact E|]. split; [exact Ho|]. split; [exact Hw|]. destruct (Hv 0x30%nat) as (_ & Hh & _); [lia|]. exact Hh.
Defined.

(** ** An interrupt from entry to acknowledgement *)

(** Entering through a gate: an interrupt gate turns interrupts off. *)
Definition enter {W} (g : gate) (s : intr W) : intr W := if g_type g =? 14 then set_eflags (Z.ldiff (eflags s) FLAG_IF) s else s.

Definition masked {W} (s : intr W) : Prop := Z.land (eflags s) FLAG_IF = 0.
#[export] Instance masked_dec {W} (s : intr W) : Decision (masked s).
Proof. unfold masked. apply _. Defined.

(** Writes to ports that are not those of the controllers. *)
Definition not_pic (w : Z * Z) : Prop := w.1 <> 0x20 /\ w.1 <> 0x21 /\ w.1 <> 0xa0 /\ w.1 <> 0xa1.

Lemma pic_run_other l c : Forall not_pic l -> pic_run l c = Some c.
Proof.
  induction 1 as [|[p d] l (H1 & H2 & H3 & H4) Hl IH]; [done|]. change (pic_run ([(p, d)] ++ l) c = Some c). rewrite pic_run_app.
  cbn in *. destruct (Z.eqb_spec p 0x20), (Z.eqb_spec p 0x21), (Z.eqb_spec p 0xa0), (Z.eqb_spec p 0xa1); try lia. exact IH.
Qed.

Definition ack (v : Z) : list (Z * Z) := (0x20, 0x20) :: (if 0x28 <=? v then [(0xa0, 0x20)] else []).

Lemma end_of_interrupt_run {W} v (s : intr W) : 0x20 <= v < 0x30 -> pic_end_of_interrupt v s = Ret (tt, add_outs (ack v) s).
Proof.
  intros Hv. unfold pic_end_of_interrupt. rewrite (bind_run (ASSERT _) _ s tt s).
  - rewrite outb_then. unfold ack, when. destruct (0x28 <=? v); [|done]. unfold outb, modify. by rewrite add_outs_app.
  - unfold ASSERT. destruct (Z.leb_spec 0x20 v), (Z.ltb_spec v 0x30); done || lia.
Qed.

(** Each line has its vector, and the acknowledgement of that vector ends
    exactly the interrupt that was delivered. *)
Lemma deliver_ack k : 0 <= k < 16 -> exists busy, pic_deliver k idle_pics = Some (0x20 + k, busy) /\ pic_run (ack (0x20 + k)) busy = Some idle_pics.
Proof.
  intros Hk. assert (Hc : k = 0 \/ k = 1 \/ k = 2 \/ k = 3 \/ k = 4 \/ k = 5 \/ k = 6 \/ k = 7 \/
    k = 8 \/ k = 9 \/ k = 10 \/ k = 11 \/ k = 12 \/ k = 13 \/ k = 14 \/ k = 15) by lia.
  destruct_or! Hc; subst; eexists; (split; [vm_compute; reflexivity|vm_compute; reflexivity]).
Qed.

Section Handler.
Context {W : Type} (stubs : nat -> Z).
Context (call : intr_handler_func -> intr_frame -> ST (intr W) intr_frame) (thread_yield : ST (intr W) unit).
Implicit Types s : intr W.

(** A handler of a device: it returns, keeps interrupts off, and leaves the
    vector, the mode and the controllers alone. *)
Definition device_handler (h : intr_handler_func) : Prop := forall f s, in_external_intr s = true -> masked s ->
  exists f' s' w, call h f s = Ret (f', s') /\ vec_no f' = vec_no f /\ in_external_intr s' = true /\ masked s' /\
    outs s' = outs s ++ w /\ Forall not_pic w.

Definition external (v : Z) : bool := (0x20 <=? v) && (v <? 0x30).

Lemma get_level_run s : intr_get_level s = Ret (if decide (masked s) then INTR_OFF else INTR_ON, s).
Proof using. unfold intr_get_level, mbind, ST_bind, gets, mret, ST_ret, masked. destruct (Z.eqb_spec (Z.land (eflags s) FLAG_IF) 0); by case_decide. Qed.

(** The last part of [intr_handler]. *)
Definition complete (frame : intr_frame) : ST (intr W) unit :=
  l ← intr_get_level; ASSERT (bool_decide (l = INTR_OFF));;
  c ← intr_context; ASSERT c;;
  modify (set_external false);;
  pic_end_of_interrupt (vec_no frame);;
  y ← gets yield_on_return;
  when y thread_yield.

Lemma complete_run f s : masked s -> in_external_intr s = true -> 0x20 <= vec_no f < 0x30 ->
  let s3 := add_outs (ack (vec_no f)) (set_external false s) in
  complete f s = (if yield_on_return s then thread_yield s3 else Ret (tt, s3)).
Proof using.
  intros Hm He Hv s3. unfold complete. rewrite (bind_run _ _ _ _ _ (get_level_run s)). rewrite decide_True by done.
  rewrite (bind_run (ASSERT _) _ s tt s) by done. rewrite (bind_run intr_context _ s true s) by (unfold intr_context, gets; by rewrite He).
  rewrite (bind_run (ASSERT _) _ s tt s) by done. rewrite (bind_run (modify _) _ s tt (set_external false s)) by done.
  rewrite (bind_run _ _ _ _ _ (end_of_interrupt_run (vec_no f) (set_external false s) Hv)).
  rewrite (bind_run (gets yield_on_return) _ s3 (yield_on_return s) s3) by done. by destruct (yield_on_return s).
Qed.

(** The whole handler on an external vector that is entered properly. *)
Lemma external_run M f s : vectors stubs M s -> 0x20 <= vec_no f < 0x30 -> masked s -> in_external_intr s = false ->
  intr_handler call thread_yield f s =
  match entry_handler (M !! Z.to_nat (vec_no f)) with
  | Some h => (f' ← call h f; complete f';; mret f') (set_yield false (set_external true s))
  | None => if (vec_no f =? 0x27) || (vec_no f =? 0x2f) then (complete f;; mret f) (set_yield false (set_external true s)) else Panic
  end.
Proof using.
  intros Hv Hr Hm He. unfold intr_handler, complete. set (s1 := set_yield false (set_external true s)).
  assert (Hx : (0x20 <=? vec_no f) && (vec_no f <? 0x30) = true) by (destruct (Z.leb_spec 0x20 (vec_no f)), (Z.ltb_spec (vec_no f) 0x30); done || lia).
  rewrite Hx. cbn [when].
  match goal with |- (?m ≫= ?k) s = _ => rewrite (bind_run m k s tt s1) end.
  - rewrite (bind_run (gets intr_handlers) _ s1 (intr_handlers s) s1) by done.
    rewrite (ve_handlers _ _ _ Hv) by lia. destruct (entry_handler _) as [h|]; [done|]. by destruct (_ || _).
  - rewrite (bind_run _ _ _ _ _ (get_level_run s)). rewrite decide_True by done.
    rewrite (bind_run (ASSERT _) _ s tt s) by done. by rewrite (bind_run intr_context _ s false s) by (unfold intr_context, gets; by rewrite He).
Qed.

(** Dispatch.  An external interrupt with interrupts on or within another one
    stops the machine, and so does a vector without a handler, the two
    spurious ones apart.  An internal interrupt is its handler and nothing
    else. *)
Theorem intr_handler_guards M f s : vectors stubs M s -> 0 <= vec_no f < 256 ->
  (if external (vec_no f) then ~ masked s \/ in_external_intr s = true -> intr_handler call thread_yield f s = Panic
   else intr_handler call thread_yield f s =
     match entry_handler (M !! Z.to_nat (vec_no f)) with Some h => call h f s | None => Panic end).
Proof using.
  intros Hv Hr. unfold external, intr_handler. destruct (_ && _) eqn:Hx; cbn [when].
  - intros Hc. apply bind_panics. rewrite (bind_run _ _ _ _ _ (get_level_run s)). case_decide as Hm; [|done].
    destruct Hc as [Hc|Hc]; [done|]. rewrite (bind_run (ASSERT _) _ s tt s) by done.
    by rewrite (bind_run intr_context _ s true s) by (unfold intr_context, gets; by rewrite Hc).
  - rewrite (bind_run (mret tt) _ s tt s) by done. rewrite (bind_run (gets intr_handlers) _ s (intr_handlers s) s) by done.
    rewrite (ve_handlers _ _ _ Hv) by lia. destruct (entry_handler _) as [h|].
    + unfold mbind, ST_bind. destruct (call h f s) as [[f' s']| |]; done.
    + apply bind_panics. apply andb_false_iff in Hx. destruct (Z.eqb_spec (vec_no f) 0x27), (Z.eqb_spec (vec_no f) 0x2f); [..|done]; exfalso;
        destruct Hx as [Hx|Hx]; [apply Z.leb_gt in Hx|apply Z.ltb_ge in Hx|apply Z.leb_gt in Hx|apply Z.ltb_ge in Hx|apply Z.leb_gt in Hx|apply Z.ltb_ge in Hx]; lia.
Qed.

(** The state after an external interrupt whose handler left [s]. *)
Definition after_device (v : Z) s : intr W := add_outs (ack v) (set_external false s).

End Handler.

(** A timer that asks for a yield at every tick. *)
Definition demo_call (h : intr_handler_func) (f : intr_frame) : ST (intr nat) intr_frame :=
  match h with timer_interrupt => intr_yield_on_return;; mret f | _ => mret f end.
Definition demo_yield : ST (intr nat) unit :=
  modify (fun s => mk_intr (idt s) (intr_handlers s) (intr_names s) (in_external_intr s) (yield_on_return s) (eflags s) (idtr s) (outs s) (S (rest s))).
Definition demo_frame (v : Z) : intr_frame := mk_frame 0 0 0 0 0 0 0 0 0 0 0 0 v 0 0 0x8048000 SEL_UCSEG 0x202 0xbffffff0 SEL_UDSEG.

Lemma demo_device h : device_handler demo_call h.
Proof.
  intros f s He Hm. assert (Hr : exists s', demo_call h f s = Ret (f, s') /\ in_external_intr s' = true /\ masked s' /\ outs s' = outs s).
  { destruct h; try (by exists s). exists (set_yield true s). split_and!; try done. unfold demo_call, intr_yield_on_return, intr_context, mbind, ST_bind, gets. by rewrite He. }
  destruct Hr as (s' & E & H1 & H2 & H3). exists f, s', []. split_and!; try done. by rewrite app_nil_r.
Qed.


Lemma intr_handler_guards_witness : exists s, boot_interrupts demo_stubs 0xc0030000 demo_intr = Ret (tt, s) /\
  intr_handler demo_call demo_yield (demo_frame 0x30) s = demo_call syscall_handler (demo_frame 0x30) s.
Proof.
  destruct (wp_run_unit _ _ _ (boot_step demo_stubs 0xc0030000 demo_stubs_ok demo_intr eq_refl eq_refl)) as (s & E & B).
  assert (Eh : entry_handler (boot_map !! Z.to_nat 0x30) = Some syscall_handler) by (vm_compute; reflexivity).
  exists s. split; [exact E|]. pose proof (intr_handler_guards demo_stubs demo_call demo_yield boot_map (demo_frame 0x30) s (bo_vectors _ _ _ _ _ _ B)) as Hg.
  change (vec_no (demo_frame 0x30)) with 0x30 in Hg. rewrite Eh in Hg. apply Hg. lia.
Defined.
