(* ===== verification/Pagedir.v ===== *)
(** * Page directories: userprog/pagedir.c

    Page directories and page tables are pages of 1024 words in the kernel's
    memory.  [words] holds the words of these pages by address; an access to
    another address faults.  Pages come from any allocator with the
    interface of PageAlloc.v.  [cr3] is the processor's page directory
    register (a physical address) and [tlb] the set of virtual pages whose
    entries the processor may have cached. *)

From S2P Require Import Prelude Vaddr PageAlloc.

Record vm (P : Type) := mk_vm { words : gmap Z Z; pal : P; cr3 : Z; tlb : gset Z }.
Arguments mk_vm {P}.
Arguments words {P}.
Arguments pal {P}.
Arguments cr3 {P}.
Arguments tlb {P}.

(** [memset] of a page of [n] words to the word [x]. *)
Fixpoint fill_words (n : nat) (a x : Z) (m : gmap Z Z) : gmap Z Z :=
  match n with
  | O => m
  | S n => <[a := x]> (fill_words n (a + 4) x m)
  end.

Section Pagedir.
Context {P : Type} `{PageAlloc P} (base_page_dir ram_pages : Z).
Implicit Types s : vm P.

Definition set_words (f : gmap Z Z -> gmap Z Z) s : vm P := mk_vm (f (words s)) (pal s) (cr3 s) (tlb s).

Definition on_pal {A} (m : ST P A) : ST (vm P) A := fun s =>
  match m (pal s) with
  | Ret (a, p) => Ret (a, mk_vm (words s) p (cr3 s) (tlb s))
  | Panic => Panic
  | OutOfFuel => OutOfFuel
  end.

Definition get_word (a : Z) : ST (vm P) Z := fun s =>
  match words s !! a with Some x => Ret (x, s) | None => Panic end.
Definition put_word (a x : Z) : ST (vm P) unit := fun s =>
  match words s !! a with Some _ => Ret (tt, set_words (insert a x) s) | None => Panic end.

(** [memcpy] of [n] words. *)
Fixpoint copy_words (n : nat) (dst src : Z) : ST (vm P) unit :=
  match n with
  | O => mret tt
  | S n => x ← get_word src; put_word dst x;; copy_words n (dst +u 4) (src +u 4)
  end.

(** [palloc_get_page] with its effect on the words of the page: a page not
    asked to be zeroed holds the words it held. *)
Definition alloc_page (zero : bool) : ST (vm P) Z :=
  a ← on_pal (get_page zero);
  when (negb (a =? 0) && zero) (modify (set_words (fill_words 1024 a 0)));;
  mret a.
Definition release_page (a : Z) : ST (vm P) unit :=
  modify (set_words (fill_words 1024 a 0xcccccccc));;
  on_pal (free_page a).

(** ** The processor *)

Definition active_pd : ST (vm P) Z := c ← gets cr3; lift (ptov c).

Definition pagedir_activate (pd : Z) : ST (vm P) unit :=
  let pd := if pd =? 0 then base_page_dir else pd in
  p ← lift (vtop pd);
  modify (fun s => mk_vm (words s) (pal s) p ∅).

Definition invalidate_pagedir (pd : Z) : ST (vm P) unit :=
  a ← active_pd;
  if a =? pd then pagedir_activate pd else mret tt.

(** ** Page tables *)

Definition pagedir_create : ST (vm P) Z :=
  pd ← alloc_page false;
  when (negb (pd =? 0)) (copy_words 1024 pd base_page_dir);;
  mret pd.

(** The address of a page table entry, 0 if there is none. *)
Definition lookup_page (pd vaddr : Z) (create : bool) : ST (vm P) Z :=
  ASSERT (negb (pd =? 0));;
  ASSERT (negb create || is_user_vaddr vaddr);;
  let pde := pd +u 4 * pd_no vaddr in
  e ← get_word pde;
  let finish : ST (vm P) Z :=
    e ← get_word pde;
    pt ← lift (pde_get_pt e);
    mret (pt +u 4 * pt_no vaddr) in
  if e =? 0 then
    if create then
      pt ← alloc_page true;
      if pt =? 0 then mret 0
      else
        x ← lift (pde_create pt);
        put_word pde x;;
        finish
    else mret 0
  else finish.

(** [kpage] is [frame->user_page]; the second result is stored in
    [frame->PTE]. *)
Definition pagedir_set_page (pd upage kpage : Z) (writable : bool) : ST (vm P) (bool * Z) :=
  ASSERT (pg_ofs upage =? 0);;
  ASSERT (pg_ofs kpage =? 0);;
  ASSERT (is_user_vaddr upage);;
  v ← lift (vtop kpage);
  ASSERT (Z.shiftr v PTSHIFT <? ram_pages);;
  ASSERT (negb (pd =? base_page_dir));;
  pte ← lookup_page pd upage true;
  if negb (pte =? 0) then
    e ← get_word pte;
    ASSERT (Z.land e PTE_P =? 0);;
    x ← lift (pte_create_user kpage writable);
    put_word pte x;;
    mret (true, pte)
  else mret (false, pte).

Definition pagedir_get_page (pd uaddr : Z) : ST (vm P) Z :=
  ASSERT (is_user_vaddr uaddr);;
  pte ← lookup_page pd uaddr false;
  if negb (pte =? 0) then
    e ← get_word pte;
    if negb (Z.land e PTE_P =? 0) then
      page ← lift (pte_get_page e);
      mret (page +u pg_ofs uaddr)
    else mret 0
  else mret 0.

Definition pagedir_clear_page (pd upage : Z) : ST (vm P) unit :=
  ASSERT (pg_ofs upage =? 0);;
  ASSERT (is_user_vaddr upage);;
  pte ← lookup_page pd upage false;
  if negb (pte =? 0) then
    e ← get_word pte;
    if negb (Z.land e PTE_P =? 0) then
      put_word pte (Z.land e (unot PTE_P));;
      invalidate_pagedir pd
    else mret tt
  else mret tt.

(** [pd] is the page directory of the running thread. *)
Definition install_page (pd upage kpage : Z) (writable : bool) : ST (vm P) (bool * option Z) :=
  old ← pagedir_get_page pd upage;
  if negb (old =? 0) then mret (false, None)
  else r ← pagedir_set_page pd upage kpage writable; mret (r.1, Some r.2).

(** The test and the update of a flag: [pagedir_is_dirty] and
    [pagedir_is_accessed], [pagedir_set_dirty] and [pagedir_set_accessed]
    differ only in the flag. *)
Definition is_flagged (flag pd vpage : Z) : ST (vm P) bool :=
  pte ← lookup_page pd vpage false;
  if negb (pte =? 0) then e ← get_word pte; mret (negb (Z.land e flag =? 0)) else mret false.

Definition set_flag (flag pd vpage : Z) (on : bool) : ST (vm P) unit :=
  pte ← lookup_page pd vpage false;
  if negb (pte =? 0) then
    e ← get_word pte;
    if on then put_word pte (Z.lor e flag)
    else put_word pte (Z.land e (unot flag));; invalidate_pagedir pd
  else mret tt.

Definition pagedir_is_dirty := is_flagged PTE_D.
Definition pagedir_set_dirty := set_flag PTE_D.
Definition pagedir_is_accessed := is_flagged PTE_A.
Definition pagedir_set_accessed := set_flag PTE_A.

(** The loops of [pagedir_destroy] over [n] entries. *)
Fixpoint destroy_pt (n : nat) (pte : Z) : ST (vm P) unit :=
  match n with
  | O => mret tt
  | S n =>
    e ← get_word pte;
    (if negb (Z.land e PTE_P =? 0) then page ← lift (pte_get_page e); release_page page else mret tt);;
    destroy_pt n (pte +u 4)
  end.
Fixpoint destroy_pd (n : nat) (pde : Z) : ST (vm P) unit :=
  match n with
  | O => mret tt
  | S n =>
    e ← get_word pde;
    (if negb (Z.land e PTE_P =? 0) then
       pt ← lift (pde_get_pt e);
       destroy_pt (Z.to_nat (PGSIZE / 4)) pt;;
       release_page pt
     else mret tt);;
    destroy_pd n (pde +u 4)
  end.

Definition pagedir_destroy (pd : Z) : ST (vm P) unit :=
  if pd =? 0 then mret tt
  else
    ASSERT (negb (pd =? base_page_dir));;
    destroy_pd (Z.to_nat (pd_no PHYS_BASE)) pd;;
    release_page pd.
End Pagedir.
