(* ===== verification/PagedirProps.v ===== *)
(** * Page directories as maps from user pages to entries

    A page directory implements a total function from user pages to 32-bit
    entries, 0 where no page table exists.  Every operation is shown to
    change that function at one page. *)

From S2P Require Import Prelude Vaddr Bitmap Palloc PageAlloc Pagedir.

(** ** Specification *)

(** The 1024 words of the page at [a] are mapped. *)
Definition page_words (m : gmap Z Z) (a : Z) : Prop := forall k, 0 <= k < 1024 -> exists x, m !! (a + 4 * k) = Some x /\ is_u32 x.

(** The page table that the entry [e] of a directory points to. *)
Definition table_of (e : Z) : Z := e - 7 + PHYS_BASE.

(** The word at [a], 0 if unmapped. *)
Definition word_at (m : gmap Z Z) (a : Z) : Z := default 0 (m !! a).

(** The directory entry and the page table entry for a virtual address. *)
Definition dir_entry (m : gmap Z Z) (pd va : Z) : Z := word_at m (pd + 4 * pd_no va).
Definition entry (m : gmap Z Z) (pd va : Z) : Z :=
  if dir_entry m pd va =? 0 then 0 else word_at m (table_of (dir_entry m pd va) + 4 * pt_no va).

Section Props.
Context {P : Type} `{PageAlloc P} (base_page_dir ram_pages : Z).
Implicit Types s : vm P.

(** The tables of the user half of [pd] are distinct allocated pages. *)
Record pd_ok s (pd : Z) : Prop := {
  po_alloc : pages_ok (pal s);
  po_cr3 : 0 <= cr3 s < 2 ^ 30;
  po_mem : forall a, allocated (pal s) a -> page_words (words s) a;
  po_pd : allocated (pal s) pd;
  po_tables : forall k, 0 <= k < 768 -> word_at (words s) (pd + 4 * k) <> 0 ->
    exists pt, word_at (words s) (pd + 4 * k) = pt - PHYS_BASE + 7 /\ allocated (pal s) pt /\ pt <> pd;
  po_distinct : forall j k, 0 <= j < 768 -> 0 <= k < 768 -> word_at (words s) (pd + 4 * j) <> 0 ->
    word_at (words s) (pd + 4 * j) = word_at (words s) (pd + 4 * k) -> j = k;
}.

(** ** Addresses *)

Lemma user_indices va : 0 <= va < PHYS_BASE -> 0 <= pd_no va < 768 /\ 0 <= pt_no va < 1024 /\
  va / 4096 = pd_no va * 1024 + pt_no va.
Proof.
  intros Hv. assert (is_u32 va) by (unfold PHYS_BASE in *; urange; lia).
  rewrite pd_no_eq, pt_no_eq by done. rewrite PGSIZE_eq. unfold PHYS_BASE in *.
  pose proof (Z.div_mod va 4096). pose proof (Z.div_mod (va / 4096) 1024).
  pose proof (Z.mod_pos_bound va 4096). pose proof (Z.mod_pos_bound (va / 4096) 1024). lia.
Qed.

(** Words of different pages, and different words of a page, differ. *)
Lemma word_addr_inj a b j k : kernel_page a -> kernel_page b -> 0 <= j < 1024 -> 0 <= k < 1024 ->
  a + 4 * j = b + 4 * k -> a = b /\ j = k.
Proof.
  intros (_ & _ & Ha) (_ & _ & Hb) Hj Hk E. rewrite PGSIZE_eq in *.
  pose proof (Z.div_mod a 4096). pose proof (Z.div_mod b 4096). lia.
Qed.

Lemma kernel_page_range a : kernel_page a -> is_u32 a /\ 0 <= a - PHYS_BASE < 2 ^ 30 /\
  (a - PHYS_BASE) mod PGSIZE = 0 /\ a - PHYS_BASE + 4096 <= 2 ^ 30.
Proof.
  intros (H1 & H2 & H3). rewrite PGSIZE_eq in *. unfold PHYS_BASE in *. urange.
  rewrite Zminus_mod, H3. split_and!; done || lia.
Qed.

Lemma pde_create_eq pt : kernel_page pt -> pde_create pt = Ret (pt - PHYS_BASE + 7).
Proof.
  intros Hk. pose proof Hk as (H1 & H2 & H3). destruct (kernel_page_range pt Hk) as (Hu & Hr & Hm & _).
  unfold pde_create. rewrite pg_ofs_mod, H3. simpl. rewrite vtop_kernel by done. simpl. f_equal.
  rewrite <- !Z.lor_assoc. by apply (lor_aligned _ _ 12).
Qed.

Lemma pde_get_pt_eq pt : kernel_page pt -> pde_get_pt (pt - PHYS_BASE + 7) = Ret pt.
Proof.
  intros Hk. destruct (kernel_page_range pt Hk) as (Hu & Hr & Hm & Hr').
  destruct (pte_addr_flags (pt - PHYS_BASE) 7) as [Ha _]; [urange; lia|done|done|].
  unfold pde_get_pt. assert (E : Z.land (pt - PHYS_BASE + 7) PTE_P =? 0 = false).
  { apply Z.eqb_neq. change PTE_P with (2 ^ 1 - 1). rewrite land_ones_low by done.
    rewrite PGSIZE_eq in Hm. Z.to_euclidean_division_equations. lia. }
  rewrite E. simpl. rewrite Ha, ptov_phys by done. f_equal. lia.
Qed.

(** A user entry for a kernel page. *)
Definition user_pte (page : Z) (w : bool) : Z := page - PHYS_BASE + (if w then 7 else 5).

Lemma pte_create_user_eq page w : kernel_page page -> pte_create_user page w = Ret (user_pte page w).
Proof.
  intros Hk. pose proof Hk as (H1 & H2 & H3). destruct (kernel_page_range page Hk) as (Hu & Hr & Hm & _).
  unfold pte_create_user, user_pte. rewrite pte_create_kernel_eq by done. simpl. f_equal.
  rewrite <- (lor_aligned _ _ 12), <- Z.lor_assoc by (done || destruct w; done).
  destruct w; by apply (lor_aligned _ _ 12).
Qed.

Lemma user_pte_page page w : kernel_page page ->
  pte_get_page (user_pte page w) = Ret page /\ Z.land (user_pte page w) PTE_P <> 0 /\ is_u32 (user_pte page w).
Proof.
  intros Hk. destruct (kernel_page_range page Hk) as (Hu & Hr & Hm & Hr'). unfold user_pte.
  destruct (pte_addr_flags (page - PHYS_BASE) (if w then 7 else 5)) as [Ha _]; [urange; lia|done|by destruct w|].
  split_and!.
  - unfold pte_get_page. rewrite Ha, ptov_phys by done. f_equal. lia.
  - change PTE_P with (2 ^ 1 - 1). rewrite land_ones_low by done. rewrite PGSIZE_eq in Hm.
    destruct w; Z.to_euclidean_division_equations; lia.
  - destruct w; urange; lia.
Qed.

(** ** Words *)

Lemma fill_words_lookup n a x m b :
  fill_words n a x m !! b = if decide (a <= b < a + 4 * n /\ (b - a) mod 4 = 0) then Some x else m !! b.
Proof.
  revert a. induction n as [|n IH]; intros a; cbn [fill_words].
  - rewrite decide_False by lia. done.
  - rewrite lookup_insert, IH. destruct (decide (a = b)) as [->|Hab].
    + rewrite decide_True; [done|]. rewrite Z.sub_diag. split; [lia|done].
    + replace (b - (a + 4)) with (b - a + (-1) * 4) by lia. rewrite Z.mod_add by lia.
      repeat case_decide; try done; destruct_and!; exfalso; [|].
      * apply H1. split; [lia|done].
      * apply H0. split; [|done]. assert (4 <= b - a \/ b - a < 4) by lia.
        destruct (decide (b - a < 4)); [|lia]. rewrite Z.mod_small in * by lia. lia.
Qed.

#[local] Opaque fill_words.

Lemma word_at_lookup (m : gmap Z Z) a k : page_words m a -> 0 <= k < 1024 ->
  m !! (a + 4 * k) = Some (word_at m (a + 4 * k)) /\ is_u32 (word_at m (a + 4 * k)).
Proof. intros Hm Hk. unfold word_at. by destruct (Hm k Hk) as (x & -> & Hx). Qed.

Lemma wp_get_word a k s Q : page_words (words s) a -> 0 <= k < 1024 ->
  Q (word_at (words s) (a + 4 * k)) s -> wp (get_word (a + 4 * k)) s Q.
Proof. intros Hm Hk HQ. unfold wp, get_word. by rewrite (proj1 (word_at_lookup _ _ _ Hm Hk)). Qed.

Lemma wp_put_word a k x s (Q : unit -> vm P -> Prop) : page_words (words s) a -> 0 <= k < 1024 ->
  Q tt (set_words (insert (a + 4 * k) x) s) -> wp (put_word (a + 4 * k) x) s Q.
Proof. intros Hm Hk HQ. unfold wp, put_word. by rewrite (proj1 (word_at_lookup _ _ _ Hm Hk)). Qed.

Lemma word_at_insert (m : gmap Z Z) a b x : word_at (<[a := x]> m) b = if decide (a = b) then x else word_at m b.
Proof. unfold word_at. rewrite lookup_insert. by case_decide. Qed.

Lemma page_words_insert (m : gmap Z Z) a b x : is_u32 x -> page_words m a -> page_words (<[b := x]> m) a.
Proof.
  intros Hx Hm k Hk. rewrite lookup_insert. case_decide; [by eauto|by apply Hm].
Qed.

(** The address of a word of a kernel page does not wrap. *)
Lemma word_addr_small a k : kernel_page a -> 0 <= k < 1024 -> a +u 4 * k = a + 4 * k.
Proof.
  intros Hk Hr. destruct (kernel_page_range a Hk) as (? & ? & _ & ?). unfold PHYS_BASE in *. apply u32_small. urange. lia.
Qed.

(** The table of a directory entry that is not 0. *)
Lemma table_of_entry s pd k : pd_ok s pd -> 0 <= k < 768 -> word_at (words s) (pd + 4 * k) <> 0 ->
  let pt := table_of (word_at (words s) (pd + 4 * k)) in
  allocated (pal s) pt /\ kernel_page pt /\ page_words (words s) pt /\ pt <> pd /\
  word_at (words s) (pd + 4 * k) = pt - PHYS_BASE + 7.
Proof.
  intros Hok Hk He pt. destruct (po_tables s pd Hok k Hk He) as (pt' & E & Ha & Hne).
  assert (pt = pt') as -> by (unfold pt, table_of; lia).
  split_and!; [done|by eapply allocated_page, Ha; apply Hok|by apply Hok|done|done].
Qed.

Lemma lookup_page_found s pd va create : pd_ok s pd -> 0 <= va < PHYS_BASE -> dir_entry (words s) pd va <> 0 ->
  lookup_page pd va create s = Ret (table_of (dir_entry (words s) pd va) + 4 * pt_no va, s).
Proof.
  intros Hok Hva He. destruct (user_indices va Hva) as (Hd & Ht & _).
  assert (Hpd : kernel_page pd) by (eapply allocated_page, Hok; apply Hok).
  destruct (table_of_entry s pd _ Hok Hd He) as (Ha & Hk & Hw & Hne & E).
  unfold dir_entry in *. set (e := word_at _ _) in *.
  assert (R : wp (lookup_page pd va create) s (fun a s' => a = table_of e + 4 * pt_no va /\ s' = s)).
  { unfold lookup_page. apply wp_bind, wp_assert; [unfold kernel_page, PHYS_BASE in Hpd; zcases; simpl; lia|].
    apply wp_bind, wp_assert; [unfold is_user_vaddr; zcases; destruct create; done || lia|].
    rewrite word_addr_small by (done || lia). apply wp_bind, wp_get_word; [by apply Hok, Hok|lia|].
    fold e. destruct (Z.eqb_spec e 0); [done|].
    apply wp_bind, wp_get_word; [by apply Hok, Hok|lia|]. fold e.
    apply wp_bind. eapply wp_lift; [rewrite E; by apply pde_get_pt_eq|]. apply wp_ret.
    by rewrite word_addr_small. }
  apply wp_elim in R as (a & s' & -> & -> & ->). done.
Qed.

Lemma lookup_page_missing s pd va : pd_ok s pd -> 0 <= va < PHYS_BASE -> dir_entry (words s) pd va = 0 ->
  lookup_page pd va false s = Ret (0, s).
Proof.
  intros Hok Hva He. destruct (user_indices va Hva) as (Hd & Ht & _).
  assert (Hpd : kernel_page pd) by (eapply allocated_page, Hok; apply Hok).
  assert (R : wp (lookup_page pd va false) s (fun a s' => a = 0 /\ s' = s)).
  { unfold lookup_page. apply wp_bind, wp_assert; [unfold kernel_page, PHYS_BASE in Hpd; zcases; simpl; lia|].
    apply wp_bind, wp_assert; [done|].
    rewrite word_addr_small by (done || lia). apply wp_bind, wp_get_word; [by apply Hok, Hok|lia|].
    unfold dir_entry in He. rewrite He. by apply wp_ret. }
  apply wp_elim in R as (a & s' & -> & -> & ->). done.
Qed.

(** Both indices together determine the page. *)
Lemma same_page va vb : 0 <= va < PHYS_BASE -> 0 <= vb < PHYS_BASE ->
  va / 4096 = vb / 4096 <-> pd_no va = pd_no vb /\ pt_no va = pt_no vb.
Proof.
  intros Ha Hb. destruct (user_indices va Ha) as (? & ? & ?), (user_indices vb Hb) as (? & ? & ?). lia.
Qed.

(** A write into a page table entry changes the entry of one page. *)
Lemma pd_ok_put s pd va x : pd_ok s pd -> 0 <= va < PHYS_BASE -> dir_entry (words s) pd va <> 0 -> is_u32 x ->
  let s' := set_words (insert (table_of (dir_entry (words s) pd va) + 4 * pt_no va) x) s in
  pd_ok s' pd /\
  forall vb, 0 <= vb < PHYS_BASE ->
    entry (words s') pd vb = if decide (vb / 4096 = va / 4096) then x else entry (words s) pd vb.
Proof.
  intros Hok Hva He Hx s'. destruct (user_indices va Hva) as (Hd & Ht & _).
  assert (Hpd : kernel_page pd) by (eapply allocated_page, Hok; apply Hok).
  destruct (table_of_entry s pd _ Hok Hd He) as (Ha & Hk & Hw & Hne & E). fold (dir_entry (words s) pd va) in *.
  set (pt := table_of _) in *.
  assert (Hdir : forall k, 0 <= k < 1024 -> word_at (words s') (pd + 4 * k) = word_at (words s) (pd + 4 * k)).
  { intros k Hk'. unfold s'. simpl. rewrite word_at_insert, decide_False; [done|].
    intros Eq. apply word_addr_inj in Eq as [? _]; done. }
  split.
  - constructor; [apply Hok|apply Hok| |apply Hok| |].
    + intros a Ha'. apply page_words_insert; [done|]. by apply Hok.
    + intros k Hk'. rewrite Hdir by lia. by apply Hok.
    + intros j k Hj Hk'. rewrite !Hdir by lia. by apply Hok.
  - intros vb Hvb. destruct (user_indices vb Hvb) as (Hdb & Htb & _). unfold entry.
    assert (Hde : dir_entry (words s') pd vb = dir_entry (words s) pd vb) by (apply Hdir; lia). rewrite !Hde.
    destruct (Z.eqb_spec (dir_entry (words s) pd vb) 0) as [E0|E0].
    + rewrite decide_False; [done|]. intros [Ep _]%same_page; [|done..]. unfold dir_entry in *. congruence.
    + destruct (table_of_entry s pd _ Hok Hdb E0) as (_ & Hkb & _ & _ & Eb).
      fold (dir_entry (words s) pd vb) in *. unfold s'. simpl. rewrite word_at_insert.
      case_decide as Hcase; case_decide as Hpage; try done; exfalso.
      * apply word_addr_inj in Hcase as [Et Ei]; [|done..].
        assert (Ed : dir_entry (words s) pd va = dir_entry (words s) pd vb) by (unfold pt, table_of in Et; lia).
        apply (po_distinct s pd Hok) in Ed; [|done..]. by apply Hpage, same_page.
      * apply same_page in Hpage as [Ed Ei]; [|done..]. apply Hcase. unfold pt, dir_entry. by rewrite Ed, Ei.
Qed.

(** ** Creating a page table *)

Lemma word_at_fill m a b x k : kernel_page a -> kernel_page b -> 0 <= k < 1024 ->
  word_at (fill_words 1024 a x m) (b + 4 * k) = if decide (b = a) then x else word_at m (b + 4 * k).
Proof.
  intros Ha Hb Hk. unfold word_at. rewrite fill_words_lookup. case_decide as Hin; case_decide as Heq; try done.
  - exfalso. destruct Hin as [Hr Hm]. apply Heq. destruct Ha as (_ & _ & Ha), Hb as (_ & _ & Hb).
    rewrite PGSIZE_eq in *. change (4 * 1024%nat) with 4096 in Hr. Z.to_euclidean_division_equations. lia.
  - exfalso. subst. apply Hin. replace (a + 4 * k - a) with (k * 4) by lia. rewrite Z.mod_mul by lia. split; [lia|done].
Qed.

Lemma page_words_fill m a b x : kernel_page a -> kernel_page b -> is_u32 x ->
  (b <> a -> page_words m b) -> page_words (fill_words 1024 a x m) b.
Proof.
  intros Ha Hb Hx Hm k Hk. pose proof (word_at_fill m a b x k Ha Hb Hk) as E. unfold word_at in E.
  rewrite fill_words_lookup in *. case_decide as Hin; [by eauto|].
  case_decide as Heq; [|by apply Hm].
  exfalso. subst. apply Hin. replace (a + 4 * k - a) with (k * 4) by lia. rewrite Z.mod_mul by lia. split; [lia|done].
Qed.

(** A fresh table at [a] entered for [va]. *)
Definition new_table (m : gmap Z Z) (pd va a : Z) : gmap Z Z :=
  <[pd + 4 * pd_no va := a - PHYS_BASE + 7]> (fill_words 1024 a 0 m).

Lemma new_table_dir m pd va a k : kernel_page pd -> kernel_page a -> a <> pd -> 0 <= pd_no va < 768 -> 0 <= k < 1024 ->
  word_at (new_table m pd va a) (pd + 4 * k) = if decide (k = pd_no va) then a - PHYS_BASE + 7 else word_at m (pd + 4 * k).
Proof.
  intros Hpd Ha Hne Hd Hk. unfold new_table. rewrite word_at_insert, word_at_fill by done.
  repeat case_decide; done || lia.
Qed.

Lemma new_table_other m pd va a b k : kernel_page pd -> kernel_page a -> kernel_page b -> b <> pd ->
  0 <= pd_no va < 768 -> 0 <= k < 1024 ->
  word_at (new_table m pd va a) (b + 4 * k) = if decide (b = a) then 0 else word_at m (b + 4 * k).
Proof.
  intros Hpd Ha Hb Hne Hd Hk. unfold new_table. rewrite word_at_insert, decide_False, word_at_fill; [done..|].
  intros E. apply word_addr_inj in E as [? _]; [congruence|done|done|lia|done].
Qed.

Lemma pd_ok_new_table s p' pd va a : pd_ok s pd -> 0 <= va < PHYS_BASE -> dir_entry (words s) pd va = 0 ->
  pages_ok p' -> kernel_page a -> ~ allocated (pal s) a -> (forall b, allocated p' b <-> b = a \/ allocated (pal s) b) ->
  let s' := mk_vm (new_table (words s) pd va a) p' (cr3 s) (tlb s) in
  pd_ok s' pd /\ dir_entry (words s') pd va = a - PHYS_BASE + 7 /\
  forall vb, 0 <= vb < PHYS_BASE -> entry (words s') pd vb = entry (words s) pd vb.
Proof.
  intros Hok Hva He Hp' Ha Hna Hal s'. destruct (user_indices va Hva) as (Hd & Ht & _).
  assert (Hpd : kernel_page pd) by (eapply allocated_page, Hok; apply Hok).
  assert (Hne : a <> pd) by (intros ->; by apply Hna, Hok).
  assert (Ha0 : 0 <= a - PHYS_BASE) by (unfold kernel_page in Ha; lia).
  assert (Hdir : forall k, 0 <= k < 1024 -> word_at (words s') (pd + 4 * k) =
    if decide (k = pd_no va) then a - PHYS_BASE + 7 else word_at (words s) (pd + 4 * k))
    by (intros; by apply new_table_dir).
  assert (Hold : forall k, 0 <= k < 768 -> word_at (words s) (pd + 4 * k) <> 0 ->
     word_at (words s) (pd + 4 * k) <> a - PHYS_BASE + 7).
  { intros k Hk Hne0 E. destruct (table_of_entry s pd k Hok Hk Hne0) as (Hal' & _ & _ & _ & E').
    apply Hna. by replace a with (table_of (word_at (words s) (pd + 4 * k))) by lia. }
  split_and!.
  - constructor; [done|apply Hok| |by apply Hal; right; apply Hok| |].
    + intros b Hb. apply page_words_insert; [destruct (kernel_page_range a Ha) as (? & ? & ? & ?); urange; lia|].
      apply page_words_fill; [done|by eapply allocated_page, Hb|done|]. intros Hba.
      apply Hok. apply Hal in Hb as [?|?]; done.
    + intros k Hk. rewrite Hdir by lia. case_decide.
      * intros _. exists a. split_and!; [done| |done]. apply Hal. by left.
      * intros Hne'. destruct (po_tables s pd Hok k Hk Hne') as (pt & ? & ? & ?).
        exists pt. split_and!; [done| |done]. apply Hal. by right.
    + intros j k Hj Hk. rewrite !Hdir by lia. repeat case_decide; subst; try done.
      * intros _ E. exfalso. apply (Hold k); [done|lia|done].
      * intros Hne' E. exfalso. by apply (Hold j).
      * by apply Hok.
  - unfold dir_entry. rewrite Hdir by lia. by rewrite decide_True.
  - intros vb Hvb. destruct (user_indices vb Hvb) as (Hdb & Htb & _). unfold entry, dir_entry.
    rewrite !Hdir by lia. case_decide as Eb.
    + rewrite Eb. fold (dir_entry (words s) pd va). rewrite He. simpl.
      destruct (Z.eqb_spec (a - PHYS_BASE + 7) 0); [lia|].
      replace (table_of _) with a by (unfold table_of; lia).
      simpl. rewrite new_table_other by (done || lia). by rewrite decide_True.
    + destruct (Z.eqb_spec (word_at (words s) (pd + 4 * pd_no vb)) 0) as [|E0]; [done|].
      destruct (table_of_entry s pd _ Hok Hdb E0) as (Hal' & Hkp & _ & Hnp & _).
      simpl. rewrite new_table_other by (done || lia). rewrite decide_False; [done|]. intros ?; subst; done.
Qed.

(** A page that was free has become the table for [va]. *)
Definition fresh_table s s' (pd va : Z) : Prop := exists a p',
  s' = mk_vm (new_table (words s) pd va a) p' (cr3 s) (tlb s) /\ pages_ok p' /\ kernel_page a /\ ~ allocated (pal s) a /\
  (forall b, allocated p' b <-> b = a \/ allocated (pal s) b) /\ same_pool (pal s) p'.

Lemma lookup_page_create s pd va : pd_ok s pd -> 0 <= va < PHYS_BASE -> dir_entry (words s) pd va = 0 ->
  lookup_page pd va true s = Ret (0, s) \/
  exists s', lookup_page pd va true s = Ret (table_of (dir_entry (words s') pd va) + 4 * pt_no va, s') /\
    pd_ok s' pd /\ dir_entry (words s') pd va <> 0 /\ cr3 s' = cr3 s /\ tlb s' = tlb s /\
    (forall vb, 0 <= vb < PHYS_BASE -> entry (words s') pd vb = entry (words s) pd vb) /\ fresh_table s s' pd va.
Proof.
  intros Hok Hva He. destruct (user_indices va Hva) as (Hd & Ht & _).
  assert (Hpd : kernel_page pd) by (eapply allocated_page, Hok; apply Hok).
  assert (Hpw : page_words (words s) pd) by (by apply Hok, Hok).
  unfold lookup_page.
  rewrite (bind_run _ _ _ tt s) by (unfold ASSERT; destruct (Z.eqb_spec pd 0); [unfold kernel_page, PHYS_BASE in Hpd; lia|done]).
  rewrite (bind_run _ _ _ tt s) by (unfold ASSERT, is_user_vaddr; simpl; destruct (Z.ltb_spec va PHYS_BASE); [done|lia]).
  rewrite word_addr_small by (done || lia).
  rewrite (bind_run _ _ _ 0 s); [simpl|].
  2:{ unfold get_word. rewrite (proj1 (word_at_lookup _ _ (pd_no va) Hpw ltac:(lia))). unfold dir_entry in He. by rewrite He. }
  destruct (get_page_spec (pal s) true (po_alloc s pd Hok)) as (a & p' & Eg & Hp' & [[-> ->]|(Ha & Hna & Hal)]).
  - left. rewrite (bind_run _ _ _ 0 s); [done|].
    unfold alloc_page. rewrite (bind_run _ _ _ 0 s); [done|]. unfold on_pal. rewrite Eg. by destruct s.
  - right. destruct (pd_ok_new_table s p' pd va a Hok Hva He Hp' Ha Hna Hal) as (Hok' & Hde & Hent).
    assert (Ha0 : 0 <= a - PHYS_BASE /\ a <> 0) by (unfold kernel_page, PHYS_BASE in *; lia).
    pose proof (proj2 (get_page_pool _ _ _ _ (po_alloc s pd Hok) Eg)) as Hpool.
    eexists. split; [|split; [exact Hok'|]]; [|split_and!; [lia|done|done|done|by exists a, p']].
    set (s1 := mk_vm (fill_words 1024 a 0 (words s)) p' (cr3 s) (tlb s)).
    rewrite (bind_run _ _ _ a s1).
    2:{ unfold alloc_page. rewrite (bind_run _ _ _ a (mk_vm (words s) p' (cr3 s) (tlb s))) by (unfold on_pal; by rewrite Eg).
        destruct (Z.eqb_spec a 0); [lia|]. done. }
    destruct (Z.eqb_spec a 0); [lia|].
    rewrite (bind_run _ _ _ (a - PHYS_BASE + 7) s1) by (unfold lift; by rewrite pde_create_eq).
    assert (W : page_words (words s1) pd) by (apply page_words_fill; [done|done|done|done]).
    apply word_at_lookup with (k := pd_no va) in W as [W _]; [|lia].
    rewrite (bind_run _ _ _ tt (mk_vm (new_table (words s) pd va a) p' (cr3 s) (tlb s))) by (unfold put_word; by rewrite W).
    rewrite (bind_run _ _ _ (a - PHYS_BASE + 7) (mk_vm (new_table (words s) pd va a) p' (cr3 s) (tlb s))).
    2:{ unfold get_word, new_table. simpl. by rewrite lookup_insert, decide_True. }
    rewrite (bind_run _ _ _ a (mk_vm (new_table (words s) pd va a) p' (cr3 s) (tlb s))) by (unfold lift; by rewrite pde_get_pt_eq).
    rewrite word_addr_small by done. rewrite Hde. replace (table_of _) with a by (unfold table_of; lia). done.
Qed.

(** ** Operations on entries *)

Definition present (e : Z) : bool := negb (Z.land e PTE_P =? 0).

(** The entries after the entry of the page of [va] has become [x]. *)
Definition entry_set (m m' : gmap Z Z) (pd va x : Z) : Prop := forall vb, 0 <= vb < PHYS_BASE ->
  entry m' pd vb = if decide (vb / 4096 = va / 4096) then x else entry m pd vb.

Lemma entry_found m pd va : dir_entry m pd va <> 0 ->
  entry m pd va = word_at m (table_of (dir_entry m pd va) + 4 * pt_no va).
Proof. intros He. unfold entry. by destruct (Z.eqb_spec (dir_entry m pd va) 0). Qed.

Lemma pte_addr_nonzero s pd va : pd_ok s pd -> 0 <= va < PHYS_BASE -> dir_entry (words s) pd va <> 0 ->
  table_of (dir_entry (words s) pd va) + 4 * pt_no va =? 0 = false.
Proof.
  intros Hok Hva He. destruct (user_indices va Hva) as (Hd & Ht & _).
  destruct (table_of_entry s pd _ Hok Hd He) as (_ & Hk & _). fold (dir_entry (words s) pd va) in Hk.
  apply Z.eqb_neq. unfold kernel_page, PHYS_BASE in Hk. lia.
Qed.

Lemma get_pte s pd va : pd_ok s pd -> 0 <= va < PHYS_BASE -> dir_entry (words s) pd va <> 0 ->
  get_word (table_of (dir_entry (words s) pd va) + 4 * pt_no va) s = Ret (entry (words s) pd va, s) /\
  is_u32 (entry (words s) pd va).
Proof.
  intros Hok Hva He. destruct (user_indices va Hva) as (Hd & Ht & _).
  destruct (table_of_entry s pd _ Hok Hd He) as (_ & _ & Hw & _). rewrite (entry_found _ _ _ He).
  destruct (word_at_lookup _ _ (pt_no va) Hw Ht) as [E Hu]. unfold get_word. fold (dir_entry (words s) pd va) in E.
  by rewrite E.
Qed.

Lemma put_pte s pd va x : pd_ok s pd -> 0 <= va < PHYS_BASE -> dir_entry (words s) pd va <> 0 -> is_u32 x ->
  exists s', put_word (table_of (dir_entry (words s) pd va) + 4 * pt_no va) x s = Ret (tt, s') /\
    pd_ok s' pd /\ cr3 s' = cr3 s /\ tlb s' = tlb s /\ entry_set (words s) (words s') pd va x /\
    word_at (words s') (table_of (dir_entry (words s) pd va) + 4 * pt_no va) = x.
Proof.
  intros Hok Hva He Hx. destruct (user_indices va Hva) as (Hd & Ht & _).
  destruct (table_of_entry s pd _ Hok Hd He) as (_ & _ & Hw & _).
  destruct (word_at_lookup _ _ (pt_no va) Hw Ht) as [E _]. fold (dir_entry (words s) pd va) in E.
  destruct (pd_ok_put s pd va x Hok Hva He Hx) as [Hok' Hent].
  eexists. split; [unfold put_word; by rewrite E|]. split_and!; [done..|].
  simpl. by rewrite word_at_insert, decide_True.
Qed.

Lemma pagedir_get_page_run s pd va : pd_ok s pd -> 0 <= va < PHYS_BASE ->
  pagedir_get_page pd va s =
    if present (entry (words s) pd va) then
      match pte_get_page (entry (words s) pd va) with
      | Ret page => Ret (page +u pg_ofs va, s)
      | Panic => Panic
      | OutOfFuel => OutOfFuel
      end
    else Ret (0, s).
Proof.
  intros Hok Hva. unfold pagedir_get_page.
  rewrite (bind_run _ _ _ tt s) by (unfold ASSERT, is_user_vaddr; destruct (Z.ltb_spec va PHYS_BASE); [done|lia]).
  destruct (decide (dir_entry (words s) pd va = 0)) as [E0|E0].
  - rewrite (bind_run _ _ _ 0 s) by (by apply lookup_page_missing). unfold entry. by rewrite E0.
  - rewrite (bind_run _ _ _ _ s) by (by apply lookup_page_found). rewrite (pte_addr_nonzero s) by done. simpl.
    rewrite (bind_run _ _ _ _ s) by (by apply get_pte). unfold present. destruct (negb _); [|done].
    unfold mbind, ST_bind, lift. by destruct (pte_get_page _).
Qed.

Lemma invalidate_run s pd : pd_ok s pd -> kernel_page pd ->
  invalidate_pagedir base_page_dir pd s =
    Ret (tt, if cr3 s =? pd - PHYS_BASE then mk_vm (words s) (pal s) (cr3 s) ∅ else s).
Proof.
  intros Hok Hk. pose proof Hk as (H1 & H2 & _). unfold invalidate_pagedir, active_pd.
  rewrite (bind_run _ _ _ (cr3 s + PHYS_BASE) s).
  2:{ rewrite (bind_run _ _ _ (cr3 s) s) by done. unfold lift. rewrite ptov_phys; [done|apply Hok]. }
  destruct (Z.eqb_spec (cr3 s) (pd - PHYS_BASE)) as [E|E].
  - rewrite E. replace (pd - PHYS_BASE + PHYS_BASE) with pd by lia. rewrite Z.eqb_refl.
    unfold pagedir_activate. destruct (Z.eqb_spec pd 0); [unfold PHYS_BASE in *; lia|].
    rewrite (bind_run _ _ _ (pd - PHYS_BASE) s); [done|]. unfold lift.
    rewrite vtop_kernel; [done|done|]. by apply kernel_page_range.
  - destruct (Z.eqb_spec (cr3 s + PHYS_BASE) pd); [lia|done].
Qed.

Lemma pd_ok_tlb s pd t : pd_ok s pd -> pd_ok (mk_vm (words s) (pal s) (cr3 s) t) pd.
Proof. intros []. by constructor. Qed.

(** [kpage] can be mapped at the user page [upage]. *)
Record mappable (upage kpage : Z) : Prop := {
  ma_user : 0 <= upage < PHYS_BASE;
  ma_aligned : upage mod PGSIZE = 0;
  ma_kernel : kernel_page kpage;
  ma_ram : (kpage - PHYS_BASE) / PGSIZE < ram_pages;
}.

(** The checks of [pagedir_set_page] hold, so it comes to its lookup. *)
Lemma set_page_checks s pd upage kpage w : mappable upage kpage -> pd <> base_page_dir ->
  pagedir_set_page base_page_dir ram_pages pd upage kpage w s =
    (pte ← lookup_page pd upage true;
     if negb (pte =? 0) then
       e ← get_word pte;
       ASSERT (Z.land e PTE_P =? 0);;
       x ← lift (pte_create_user kpage w);
       put_word pte x;;
       mret (true, pte)
     else mret (false, pte)) s.
Proof.
  intros [Hu Hal Hk Hram] Hpd. pose proof Hk as (H1 & _ & H3). unfold pagedir_set_page.
  rewrite (bind_run _ _ _ tt s) by (unfold ASSERT; by rewrite pg_ofs_mod, Hal).
  rewrite (bind_run _ _ _ tt s) by (unfold ASSERT; by rewrite pg_ofs_mod, H3).
  rewrite (bind_run _ _ _ tt s) by (unfold ASSERT, is_user_vaddr; destruct (Z.ltb_spec upage PHYS_BASE); [done|lia]).
  rewrite (bind_run _ _ _ (kpage - PHYS_BASE) s)
    by (unfold lift; by rewrite vtop_kernel; [|done|apply kernel_page_range]).
  rewrite (bind_run _ _ _ tt s).
  2:{ unfold ASSERT, PTSHIFT, PGBITS. rewrite Z.shiftr_div_pow2 by lia. change (2 ^ 12) with PGSIZE.
      destruct (Z.ltb_spec ((kpage - PHYS_BASE) / PGSIZE) ram_pages); [done|lia]. }
  rewrite (bind_run _ _ _ tt s); [done|]. unfold ASSERT. destruct (Z.eqb_spec pd base_page_dir); done.
Qed.

(** From the lookup on. *)
Lemma set_page_write s pd upage kpage w : pd_ok s pd -> mappable upage kpage ->
  dir_entry (words s) pd upage <> 0 ->
  let pte := table_of (dir_entry (words s) pd upage) + 4 * pt_no upage in
  let run :=
    (e ← get_word pte;
     ASSERT (Z.land e PTE_P =? 0);;
     x ← lift (pte_create_user kpage w);
     put_word pte x;;
     mret (true, pte)) s in
  if present (entry (words s) pd upage) then run = Panic
  else exists s', run = Ret ((true, pte), s') /\ pd_ok s' pd /\ cr3 s' = cr3 s /\ tlb s' = tlb s /\
    entry_set (words s) (words s') pd upage (user_pte kpage w) /\ word_at (words s') pte = user_pte kpage w.
Proof.
  intros Hok [Hu Hal Hk Hram] He pte run. unfold run.
  rewrite (bind_run _ _ _ _ s) by (by apply get_pte). unfold present.
  destruct (Z.land (entry _ _ _) PTE_P =? 0) eqn:E; simpl; [|done].
  rewrite (bind_run _ _ _ tt s) by (unfold ASSERT; done).
  rewrite (bind_run _ _ _ (user_pte kpage w) s) by (unfold lift; by rewrite pte_create_user_eq).
  destruct (put_pte s pd upage (user_pte kpage w) Hok Hu He) as (s' & Er & R); [by apply user_pte_page|].
  exists s'. by rewrite (bind_run _ _ _ tt s') by done.
Qed.

Lemma pagedir_set_page_run s pd upage kpage w :
  pd_ok s pd -> mappable upage kpage -> pd <> base_page_dir ->
  let run := pagedir_set_page base_page_dir ram_pages pd upage kpage w s in
  if present (entry (words s) pd upage) then run = Panic
  else
    (run = Ret ((false, 0), s) /\ dir_entry (words s) pd upage = 0) \/
    exists pte s', run = Ret ((true, pte), s') /\ pd_ok s' pd /\ cr3 s' = cr3 s /\ tlb s' = tlb s /\
      entry_set (words s) (words s') pd upage (user_pte kpage w) /\ word_at (words s') pte = user_pte kpage w.
Proof.
  intros Hok Hm Hpd run. unfold run. rewrite set_page_checks by done. pose proof (ma_user _ _ Hm) as Hu.
  destruct (decide (dir_entry (words s) pd upage = 0)) as [E0|E0].
  - assert (En : entry (words s) pd upage = 0) by (unfold entry; by rewrite E0).
    rewrite En. simpl. destruct (lookup_page_create s pd upage Hok Hu E0) as [El|(s1 & El & Hok1 & Hd1 & Hc & Ht & Hent & _)].
    + left. by rewrite (bind_run _ _ _ 0 s).
    + right. rewrite (bind_run _ _ _ _ s1) by done. rewrite (pte_addr_nonzero s1) by done. simpl.
      pose proof (set_page_write s1 pd upage kpage w Hok1 Hm Hd1) as Hw. rewrite Hent, En in Hw by done. simpl in Hw.
      destruct Hw as (s' & Er & Hok' & Hc' & Ht' & Hs & Hx). eexists _, s'. split; [exact Er|].
      split_and!; [done|congruence|congruence| |done]. intros vb Hvb. rewrite Hs, Hent by done. done.
  - rewrite (bind_run _ _ _ _ s) by (by apply lookup_page_found). rewrite (pte_addr_nonzero s) by done. simpl.
    pose proof (set_page_write s pd upage kpage w Hok Hm E0) as Hw. destruct (present _); [done|].
    destruct Hw as (s' & Hw). right. eauto.
Qed.

(** An entry that is present names a page the kernel can reach. *)
Definition entry_reachable (e : Z) : Prop := present e = true -> Z.land e PTE_ADDR < 2 ^ 30 - PGSIZE.

Lemma pte_get_page_reachable e : entry_reachable e -> present e = true ->
  exists page, pte_get_page e = Ret page /\ page = Z.land e PTE_ADDR + PHYS_BASE /\
    (forall va, page +u pg_ofs va = page + va mod PGSIZE) /\ page <> 0.
Proof.
  intros Hr Hp. specialize (Hr Hp). assert (H0 : 0 <= Z.land e PTE_ADDR) by (by apply Z.land_nonneg; right).
  rewrite PGSIZE_eq in *. exists (Z.land e PTE_ADDR + PHYS_BASE). unfold pte_get_page. rewrite ptov_phys by lia.
  split_and!; [done|done| |unfold PHYS_BASE; lia]. intros va. rewrite pg_ofs_mod, PGSIZE_eq. unfold PHYS_BASE.
  pose proof (Z.mod_pos_bound va 4096). apply u32_small. urange. lia.
Qed.

(** [install_page] maps a user page to a kernel page of the running
    process.  If a page is present there, it returns false and changes
    nothing, while [pagedir_set_page] alone would panic.  Otherwise it
    either fails without changing anything (no page table and no memory for
    one) or makes the entry point to the page with the asked permission,
    leaves every other user entry as it was, and reports the address of the
    entry. *)
Theorem install_page_correct s pd upage kpage w :
  pd_ok s pd -> mappable upage kpage -> pd <> base_page_dir -> entry_reachable (entry (words s) pd upage) ->
  let run := install_page base_page_dir ram_pages pd upage kpage w s in
  if present (entry (words s) pd upage) then
    run = Ret ((false, None), s) /\ pagedir_set_page base_page_dir ram_pages pd upage kpage w s = Panic
  else
    (run = Ret ((false, Some 0), s) /\ dir_entry (words s) pd upage = 0) \/
    exists pte s', run = Ret ((true, Some pte), s') /\ pd_ok s' pd /\ cr3 s' = cr3 s /\ tlb s' = tlb s /\
      entry_set (words s) (words s') pd upage (user_pte kpage w) /\ word_at (words s') pte = user_pte kpage w.
Proof.
  intros Hok Hm Hpd Hre run. pose proof (ma_user _ _ Hm) as Hu.
  pose proof (pagedir_get_page_run s pd upage Hok Hu) as Eg.
  pose proof (pagedir_set_page_run s pd upage kpage w Hok Hm Hpd) as Es.
  unfold run, install_page. destruct (present (entry (words s) pd upage)) eqn:Ep.
  - destruct (pte_get_page_reachable _ Hre Ep) as (page & Epg & _ & Ha & H0). rewrite Epg, Ha in Eg.
    rewrite (bind_run _ _ _ _ s) by exact Eg. rewrite (ma_aligned _ _ Hm), Z.add_0_r.
    by destruct (Z.eqb_spec page 0).
  - rewrite (bind_run _ _ _ 0 s) by exact Eg. simpl.
    destruct Es as [[Er Ed]|(pte & s' & Er & R)].
    + left. split; [|done]. by erewrite bind_run by exact Er.
    + right. exists pte, s'. split; [|done]. by erewrite bind_run by exact Er.
Qed.

Lemma user_pte_reachable page w : kernel_page page -> (page - PHYS_BASE) / PGSIZE < 2 ^ 18 - 1 ->
  entry_reachable (user_pte page w) /\ Z.land (user_pte page w) PTE_ADDR = page - PHYS_BASE.
Proof.
  intros Hk Hr. destruct (kernel_page_range page Hk) as (Hu & Hr' & Hm & _). unfold entry_reachable, user_pte.
  destruct (pte_addr_flags (page - PHYS_BASE) (if w then 7 else 5)) as [-> _]; [urange; lia|done|by destruct w|].
  split; [|done]. intros _. rewrite PGSIZE_eq in *. pose proof (Z.div_mod (page - PHYS_BASE) 4096). lia.
Qed.

(** Clearing the present bit. *)
Lemma clear_present e : is_u32 e -> present (Z.land e (unot PTE_P)) = false /\ is_u32 (Z.land e (unot PTE_P)).
Proof.
  intros He. assert (E : Z.land e (unot PTE_P) = e - e mod 2).
  { change 2 with (2 ^ 1). by rewrite <- (land_high e 1) by (done || lia). }
  rewrite E. unfold present. change PTE_P with (2 ^ 1 - 1). rewrite land_ones_low by done.
  pose proof (Z.mod_pos_bound e 2). pose proof (Z.div_mod e 2). split; [|urange; lia].
  replace (e - e mod 2) with (0 + e / 2 * 2) by lia. change (2 ^ 1) with 2. by rewrite Z.mod_add.
Qed.

Lemma pagedir_clear_page_run s pd upage : pd_ok s pd -> 0 <= upage < PHYS_BASE -> upage mod PGSIZE = 0 ->
  exists s', pagedir_clear_page base_page_dir pd upage s = Ret (tt, s') /\ pd_ok s' pd /\ pal s' = pal s /\
    let e := entry (words s) pd upage in
    if present e then
      entry_set (words s) (words s') pd upage (Z.land e (unot PTE_P)) /\ cr3 s' = cr3 s /\
      tlb s' = if cr3 s =? pd - PHYS_BASE then ∅ else tlb s
    else s' = s.
Proof.
  intros Hok Hu Hal. unfold pagedir_clear_page.
  assert (Hpd : kernel_page pd) by (eapply allocated_page, Hok; apply Hok).
  rewrite (bind_run _ _ _ tt s) by (unfold ASSERT; by rewrite pg_ofs_mod, Hal).
  rewrite (bind_run _ _ _ tt s) by (unfold ASSERT, is_user_vaddr; destruct (Z.ltb_spec upage PHYS_BASE); [done|lia]).
  destruct (decide (dir_entry (words s) pd upage = 0)) as [E0|E0].
  { exists s. rewrite (bind_run _ _ _ 0 s) by (by apply lookup_page_missing).
    unfold entry. by rewrite E0. }
  rewrite (bind_run _ _ _ _ s) by (by apply lookup_page_found). rewrite (pte_addr_nonzero s) by done. simpl.
  destruct (get_pte s pd upage Hok Hu E0) as [Eg Hx]. rewrite (bind_run _ _ _ _ s) by exact Eg.
  change (negb (Z.land (entry (words s) pd upage) PTE_P =? 0)) with (present (entry (words s) pd upage)).
  destruct (present (entry (words s) pd upage)); [|by exists s].
  destruct (put_pte s pd upage (Z.land (entry (words s) pd upage) (unot PTE_P)) Hok Hu E0) as (s1 & Ep & Hok1 & Hc & Ht & Hs & _);
    [by apply clear_present|].
  rewrite (bind_run _ _ _ tt s1) by exact Ep. rewrite (invalidate_run s1) by done. eexists. split; [done|].
  assert (Hpal : pal s1 = pal s) by (unfold put_word in Ep; destruct (words s !! _); by simplify_eq).
  rewrite Hc in *. destruct (cr3 s =? pd - PHYS_BASE); simpl; [|by rewrite Hc].
  split_and!; [rewrite <- Hc; by apply pd_ok_tlb|done|done|done|done].
Qed.

(** A mapping lives until it is cleared.  After a successful
    [install_page], [pagedir_get_page] of an address within the page returns
    the same offset within the kernel page, and for every address of another
    page it returns what it returned before.  After a later
    [pagedir_clear_page] it returns null, the other pages are again as they
    were, and if the directory is active the processor has no stale
    translation. *)
Theorem mapping_roundtrip s s1 pd upage kpage w pte :
  pd_ok s pd -> mappable upage kpage -> pd <> base_page_dir -> ram_pages < 2 ^ 18 ->
  entry_reachable (entry (words s) pd upage) ->
  install_page base_page_dir ram_pages pd upage kpage w s = Ret ((true, pte), s1) ->
  let elsewhere s s' := forall va r, 0 <= va < PHYS_BASE -> va / 4096 <> upage / 4096 ->
    pagedir_get_page pd va s = Ret (r, s) -> pagedir_get_page pd va s' = Ret (r, s') in
  (forall va, 0 <= va < PHYS_BASE -> va / 4096 = upage / 4096 ->
     pagedir_get_page pd va s1 = Ret (kpage + va mod PGSIZE, s1)) /\
  elsewhere s s1 /\
  exists s2, pagedir_clear_page base_page_dir pd upage s1 = Ret (tt, s2) /\ pd_ok s2 pd /\
    pagedir_get_page pd upage s2 = Ret (0, s2) /\ elsewhere s1 s2 /\
    (cr3 s2 = pd - PHYS_BASE -> tlb s2 = ∅).
Proof.
  intros Hok Hm Hpd Hram Hre Ei elsewhere. pose proof (ma_user _ _ Hm) as Hu.
  pose proof (ma_ram _ _ Hm) as Hr.
  assert (Helse : forall s s' x, pd_ok s pd -> pd_ok s' pd -> entry_set (words s) (words s') pd upage x -> elsewhere s s').
  { intros t t' x Ht Ht' Hs va r Hva Hne. rewrite !pagedir_get_page_run, (Hs va Hva), decide_False by done.
    destruct (present _); [destruct (pte_get_page _)|]; intros [=]; by subst. }
  pose proof (pagedir_set_page_run s pd upage kpage w Hok Hm Hpd) as Es.
  unfold install_page in Ei. pose proof (pagedir_get_page_run s pd upage Hok Hu) as Eg.
  destruct (present (entry (words s) pd upage)) eqn:Ep.
  { exfalso. destruct (pte_get_page_reachable _ Hre Ep) as (page & Epg & _ & Ha & H0). rewrite Epg, Ha in Eg.
    erewrite bind_run in Ei by exact Eg. rewrite (ma_aligned _ _ Hm), Z.add_0_r in Ei.
    by destruct (Z.eqb_spec page 0). }
  erewrite bind_run in Ei by exact Eg. simpl in Ei.
  destruct Es as [[Er _]|(a & s' & Er & Hok1 & Hc & Ht & Hs & _)]; erewrite bind_run in Ei by exact Er; [done|].
  cbv [mret ST_ret] in Ei. injection Ei as <- ->.
  destruct (user_pte_reachable kpage w (ma_kernel _ _ Hm) ltac:(lia)) as [Hr1 Ha1].
  destruct (user_pte_page kpage w (ma_kernel _ _ Hm)) as (Hg1 & Hp1 & Hu1).
  assert (Hpr : present (user_pte kpage w) = true) by (unfold present; by apply negb_true_iff, Z.eqb_neq).
  assert (He1 : entry (words s1) pd upage = user_pte kpage w) by (rewrite (Hs upage Hu); by rewrite decide_True).
  split_and!.
  - intros va Hva Epg. rewrite pagedir_get_page_run, (Hs va Hva), decide_True, Hpr, Hg1 by done.
    destruct (pte_get_page_reachable _ Hr1 Hpr) as (page & Epg' & _ & Hadd & _). rewrite Hg1 in Epg'.
    injection Epg' as <-. by rewrite Hadd.
  - by apply (Helse s s1 (user_pte kpage w)).
  - destruct (pagedir_clear_page_run s1 pd upage Hok1 Hu (ma_aligned _ _ Hm)) as (s2 & Ec & Hok2 & _ & R).
    exists s2. cbv zeta in R. rewrite He1, Hpr in R. destruct R as (Hs2 & Hc2 & Ht2).
    split_and!; [done|done| |by eapply Helse|].
    2:{ intros Ea. by rewrite Ht2, <- Hc2, Ea, Z.eqb_refl. }
    rewrite pagedir_get_page_run, (Hs2 upage Hu), decide_True by done.
    by rewrite (proj1 (clear_present _ Hu1)).
Qed.

(** ** Destroying a directory *)

(** The page an entry points to. *)
Definition page_of_entry (e : Z) : Z := Z.land e PTE_ADDR + PHYS_BASE.

(** The pages mapped by [n] entries of a table from entry [j] on. *)
Fixpoint table_pages (m : gmap Z Z) (pt : Z) (n : nat) (j : Z) : list Z :=
  match n with
  | O => []
  | S n =>
    let e := word_at m (pt + 4 * j) in
    (if present e then [page_of_entry e] else []) ++ table_pages m pt n (j + 1)
  end.

(** The pages referenced by [n] entries of a directory from entry [j] on:
    for each, the pages its table maps, and the table. *)
Fixpoint owned_pages (m : gmap Z Z) (pd : Z) (n : nat) (j : Z) : list Z :=
  match n with
  | O => []
  | S n =>
    let e := word_at m (pd + 4 * j) in
    (if present e then table_pages m (table_of e) 1024 0 ++ [table_of e] else []) ++ owned_pages m pd n (j + 1)
  end.

Fixpoint release_all (l : list Z) : ST (vm P) unit :=
  match l with
  | [] => mret tt
  | a :: l => release_page a;; release_all l
  end.

(** [m'] has the words of [m] in every page outside [l]. *)
Definition same_outside (l : list Z) (m m' : gmap Z Z) : Prop :=
  forall q k, kernel_page q -> q ∉ l -> 0 <= k < 1024 -> m' !! (q + 4 * k) = m !! (q + 4 * k).

Lemma same_outside_page l m m' q : same_outside l m m' -> kernel_page q -> q ∉ l ->
  (page_words m q -> page_words m' q) /\ forall k, 0 <= k < 1024 -> word_at m' (q + 4 * k) = word_at m (q + 4 * k).
Proof.
  intros Hs Hq Hl. split.
  - intros Hw k Hk. rewrite Hs by done. by apply Hw.
  - intros k Hk. unfold word_at. by rewrite Hs.
Qed.

Lemma release_page_run s a : pages_ok (pal s) -> allocated (pal s) a ->
  exists s', release_page a s = Ret (tt, s') /\ pages_ok (pal s') /\
    (forall b, allocated (pal s') b <-> allocated (pal s) b /\ b <> a) /\ same_outside [a] (words s) (words s').
Proof.
  intros Hp Ha. destruct (free_page_spec (pal s) a Hp Ha) as (p' & Ef & Hp' & Hal).
  assert (Hk : kernel_page a) by exact (allocated_page _ _ Hp Ha).
  exists (mk_vm (fill_words 1024 a 0xcccccccc (words s)) p' (cr3 s) (tlb s)). split_and!; [|done..|].
  - unfold release_page. rewrite (bind_run _ _ _ tt (set_words (fill_words 1024 a 0xcccccccc) s)) by done.
    unfold on_pal. simpl. by rewrite Ef.
  - intros q k Hq Hl Hk'. simpl. rewrite fill_words_lookup, decide_False; [done|].
    intros [Hr _]. apply Hl, list_elem_of_singleton. destruct Hk as (_ & _ & Hk), Hq as (_ & _ & Hq).
    rewrite PGSIZE_eq in *. change (4 * 1024%nat) with 4096 in Hr. Z.to_euclidean_division_equations. lia.
Qed.

Lemma release_all_run l s : pages_ok (pal s) -> NoDup l -> Forall (allocated (pal s)) l ->
  exists s', release_all l s = Ret (tt, s') /\ pages_ok (pal s') /\
    (forall b, allocated (pal s') b <-> allocated (pal s) b /\ b ∉ l) /\ same_outside l (words s) (words s').
Proof.
  revert s. induction l as [|a l IH]; intros s Hp Hnd Hal; cbn [release_all].
  - exists s. split_and!; [done|done| |done]. intros b. split; [|tauto]. intros Hb. split; [done|apply not_elem_of_nil].
  - apply NoDup_cons in Hnd as [Hna Hnd]. apply Forall_cons in Hal as [Ha Hal].
    destruct (release_page_run s a Hp Ha) as (s1 & E1 & Hp1 & Hal1 & Hs1).
    destruct (IH s1 Hp1 Hnd) as (s2 & E2 & Hp2 & Hal2 & Hs2).
    { rewrite Forall_forall in *. intros b Hb. apply Hal1. split; [by apply Hal|]. by intros ->. }
    exists s2. rewrite (bind_run _ _ _ tt s1) by done. split_and!; [done|done| |].
    + intros b. rewrite Hal2, Hal1, not_elem_of_cons. tauto.
    + intros q k Hq [Hqa Hql]%not_elem_of_cons Hk. rewrite Hs2, Hs1; [done|done| |done..].
      by rewrite list_elem_of_singleton.
Qed.

Lemma release_all_app l1 l2 s : release_all (l1 ++ l2) s = (release_all l1;; release_all l2) s.
Proof.
  revert s. induction l1 as [|a l1 IH]; intros s; [done|]. cbn [release_all app].
  unfold mbind, ST_bind in *. destruct (release_page a s) as [[[] s1]| |]; [|done..]. apply IH.
Qed.

Lemma table_pages_same m m' pt (n : nat) j : 0 <= j -> j + n <= 1024 ->
  (forall k, 0 <= k < 1024 -> word_at m' (pt + 4 * k) = word_at m (pt + 4 * k)) ->
  table_pages m' pt n j = table_pages m pt n j.
Proof.
  intros Hj Hn Hw. revert j Hj Hn. induction n as [|n IH]; intros j Hj Hn; [done|].
  cbn [table_pages]. rewrite Hw, IH by lia. done.
Qed.

Lemma word_addr_next a j : (a +u 4 * j) +u 4 = a +u 4 * (j + 1).
Proof. unfold u32. rewrite Zplus_mod_idemp_l. f_equal. lia. Qed.

Lemma page_of_entry_get e : kernel_page (page_of_entry e) -> pte_get_page e = Ret (page_of_entry e).
Proof.
  intros Hk. apply kernel_page_range in Hk as (_ & Hr & _). unfold page_of_entry, pte_get_page in *.
  rewrite ptov_phys; [done|lia].
Qed.

(** The inner loop frees the pages the table maps, in order. *)
Lemma destroy_pt_run (n : nat) j pt s : pages_ok (pal s) -> kernel_page pt -> page_words (words s) pt -> 0 <= j -> j + n <= 1024 ->
  let l := table_pages (words s) pt n j in
  NoDup l -> Forall (allocated (pal s)) l -> pt ∉ l ->
  destroy_pt n (pt +u 4 * j) s = release_all l s.
Proof.
  revert j s. induction n as [|n IH]; intros j s Hp Hk Hw Hj Hn; [done|].
  cbn [destroy_pt table_pages]. rewrite word_addr_next, (word_addr_small pt j) by (done || lia).
  rewrite (bind_run _ _ _ (word_at (words s) (pt + 4 * j)) s).
  2:{ unfold get_word. by rewrite (proj1 (word_at_lookup _ _ j Hw ltac:(lia))). }
  unfold present. set (e := word_at _ _). destruct (Z.land e PTE_P =? 0); cbn [negb app].
  { intros Hnd Hal Hpt. rewrite (bind_run _ _ _ tt s) by done. apply IH; [done..|lia|lia|done|done|done]. }
  intros [Hna Hnd]%NoDup_cons [Ha Hal]%Forall_cons [Hne Hpt]%not_elem_of_cons.
  assert (Hke : kernel_page (page_of_entry e)) by exact (allocated_page _ _ Hp Ha).
  destruct (release_page_run s _ Hp Ha) as (s1 & E1 & Hp1 & Hal1 & Hs1).
  cbn [release_all]. rewrite (bind_run _ _ _ tt s1) by (unfold lift, mbind, ST_bind; by rewrite page_of_entry_get).
  rewrite (bind_run _ _ _ tt s1) by done.
  destruct (same_outside_page _ _ _ pt Hs1 Hk) as [Hw1 Hsame]; [by rewrite list_elem_of_singleton|].
  rewrite <- (table_pages_same (words s) (words s1)) in * by (done || lia).
  apply IH; [done|done|by apply Hw1|lia|lia|done| |done].
  rewrite Forall_forall in *. intros b Hb. apply Hal1. split; [by apply Hal|]. by intros ->.
Qed.

Lemma owned_pages_same l m m' pd (n : nat) j : same_outside l m m' -> kernel_page pd -> pd ∉ l -> 0 <= j -> j + n <= 1024 ->
  Forall kernel_page (owned_pages m pd n j) -> (forall x, x ∈ owned_pages m pd n j -> x ∉ l) ->
  owned_pages m' pd n j = owned_pages m pd n j.
Proof.
  intros Hs Hpd Hl. destruct (same_outside_page _ _ _ pd Hs Hpd Hl) as [_ Hsame].
  revert j. induction n as [|n IH]; intros j Hj Hn; [done|]. cbn [owned_pages].
  rewrite Hsame by lia. intros [Hk1 Hk2]%Forall_app Hx.
  rewrite IH; [|lia|lia|done|intros x Hx'; apply Hx, elem_of_app; by right].
  destruct (present _); [|done]. f_equal. f_equal.
  apply Forall_app in Hk1 as [_ [Hk1 _]%Forall_cons].
  apply table_pages_same; [lia|lia|]. apply (same_outside_page _ _ _ _ Hs Hk1). apply Hx.
  rewrite !elem_of_app, list_elem_of_singleton. tauto.
Qed.

(** The outer loop frees what each table maps and the table, in order. *)
Lemma destroy_pd_run (n : nat) j pd s : pages_ok (pal s) -> kernel_page pd -> page_words (words s) pd -> 0 <= j -> j + n <= 1024 ->
  (forall a, allocated (pal s) a -> page_words (words s) a) ->
  let l := owned_pages (words s) pd n j in
  NoDup l -> Forall (allocated (pal s)) l -> pd ∉ l ->
  destroy_pd n (pd +u 4 * j) s = release_all l s.
Proof.
  revert j s. induction n as [|n IH]; intros j s Hp Hk Hw Hj Hn Hmem; [done|].
  cbn [destroy_pd owned_pages]. rewrite word_addr_next, (word_addr_small pd j) by (done || lia).
  rewrite (bind_run _ _ _ (word_at (words s) (pd + 4 * j)) s).
  2:{ unfold get_word. by rewrite (proj1 (word_at_lookup _ _ j Hw ltac:(lia))). }
  set (e := word_at _ _). change (negb (Z.land e PTE_P =? 0)) with (present e). destruct (present e).
  2:{ intros Hnd Hal Hpt. rewrite (bind_run _ _ _ tt s) by done. by apply IH; [..|lia|lia| | | |]. }
  set (pt := table_of e). set (l1 := table_pages (words s) pt 1024 0). set (l2 := owned_pages (words s) pd n (j + 1)).
  intros (Hnd1 & Hdis & Hnd2)%NoDup_app [Hal1 Hal2]%Forall_app [Hpd1 Hpd2]%not_elem_of_app.
  pose proof Hnd1 as (Hndt & Hpt & _)%NoDup_app. pose proof Hal1 as [Halt [Hap _]%Forall_cons]%Forall_app.
  assert (Hkpt : kernel_page pt) by exact (allocated_page _ _ Hp Hap).
  destruct (release_all_run _ s Hp Hnd1 Hal1) as (s1 & E1 & Hp1 & Ha1 & Hs1).
  rewrite release_all_app. rewrite !(bind_run _ _ _ tt s1); [|by rewrite E1|].
  - destruct (same_outside_page _ _ _ pd Hs1 Hk Hpd1) as [Hw1 _].
    assert (Hkl : Forall kernel_page l2) by (eapply Forall_impl; [exact Hal2|]; intros a; by apply allocated_page).
    assert (El : owned_pages (words s1) pd n (j + 1) = l2).
    { apply (owned_pages_same (l1 ++ [pt])); [done..|lia|lia|done|]. intros x Hx2 Hx1. by apply (Hdis x). }
    rewrite <- El in *. apply IH; [done|done|by apply Hw1|lia|lia| |done| |done].
    + intros a [Ha Hna]%Ha1. apply (same_outside_page _ _ _ a Hs1); [by eapply allocated_page, Ha|done|]. by apply Hmem.
    + rewrite Forall_forall in *. intros b Hb. apply Ha1. split; [by apply Hal2|]. intros Hb'. by apply (Hdis b).
  - rewrite (bind_run _ _ _ pt s).
    2:{ unfold lift. replace e with (pt - PHYS_BASE + 7) by (unfold pt, table_of; lia). by rewrite pde_get_pt_eq. }
    rewrite release_all_app in E1.
    replace (destroy_pt (Z.to_nat (PGSIZE / 4)) pt) with (destroy_pt 1024 (pt +u 4 * 0)).
    2:{ rewrite word_addr_small by (done || lia). by rewrite Z.add_0_r. }
    unfold mbind at 1, ST_bind at 1. rewrite destroy_pt_run by (done || lia || by apply Hmem || (intros ?; by apply (Hpt pt), list_elem_of_singleton)).
    fold l1. unfold mbind, ST_bind in E1. destruct (release_all l1 s) as [[u s']| |]; [|done..]. cbn [release_all] in E1.
    unfold mbind, ST_bind in E1. destruct (release_page pt s') as [[[] ?]| |]; [|done..]. by cbv in E1 |- *.
Qed.

(** C17: [pagedir_destroy] frees every page the directory refers to exactly
    once: the pages mapped in its user half, its page tables and the
    directory itself; every other page stays allocated.  None of the frees
    is a double free, provided the directory's pages are distinct and
    allocated. *)
Theorem pagedir_destroy_correct s pd :
  pd_ok s pd -> pd <> base_page_dir ->
  let l := owned_pages (words s) pd 768 0 ++ [pd] in
  NoDup l -> Forall (allocated (pal s)) l ->
  exists s', pagedir_destroy base_page_dir pd s = Ret (tt, s') /\ pages_ok (pal s') /\
    forall b, allocated (pal s') b <-> allocated (pal s) b /\ b ∉ l.
Proof.
  intros Hok Hpd l Hnd Hal. assert (Hk : kernel_page pd) by (eapply allocated_page, Hok; apply Hok).
  pose proof (po_alloc s pd Hok) as Hp.
  destruct (release_all_run l s Hp Hnd Hal) as (s' & E & Hp' & Ha' & _).
  exists s'. split; [|done]. unfold l in *. rewrite release_all_app in E.
  apply NoDup_app in Hnd as (Hnd & Hpt & _). apply Forall_app in Hal as [Hal _].
  unfold pagedir_destroy. destruct (Z.eqb_spec pd 0); [unfold kernel_page, PHYS_BASE in *; lia|].
  rewrite (bind_run _ _ _ tt s) by (unfold ASSERT; by destruct (Z.eqb_spec pd base_page_dir)).
  change (Z.to_nat (pd_no PHYS_BASE)) with 768%nat.
  replace (destroy_pd 768 pd) with (destroy_pd 768 (pd +u 4 * 0)).
  2:{ rewrite word_addr_small by (done || lia). by rewrite Z.add_0_r. }
  unfold mbind at 1, ST_bind at 1. rewrite destroy_pd_run; [|done|done|by apply Hok, Hok|lia|lia|apply Hok|done|done|].
  2:{ intros ?. by apply (Hpt pd), list_elem_of_singleton. }
  unfold mbind, ST_bind in E. destruct (release_all (owned_pages _ _ _ _) s) as [[u s1]| |]; [|done..].
  cbn [release_all] in E. unfold mbind, ST_bind in E. destruct (release_page pd s1) as [[[] ?]| |]; [|done..]. exact E.
Qed.
End Props.

(** ** An example *)

(** Four kernel pages in use: one for other purposes, a page directory, its
    one page table, and a page mapped at 0x8048000. *)
Definition demo_pool : palloc :=
  mk_palloc (mk_pool (mk_bitmap 8 [0xF]) 0xc0100000) (mk_pool (mk_bitmap 8 [0]) 0xc0200000) ∅.
Definition demo_words : gmap Z Z :=
  <[0xc0101080 := 0x102007]> (<[0xc0102120 := 0x103007]> (fill_words 4096 0xc0100000 0 ∅)).
Definition demo_vm : vm palloc := mk_vm demo_words demo_pool 0x101000 ∅.

#[local] Opaque fill_words owned_pages.

Lemma demo_pool_ok : palloc_ok demo_pool.
Proof. split; [split; [split|done..]|split; [split|done..]|]; simpl; first [done | by repeat constructor]. Qed.

Lemma demo_allocated a : palloc_allocated demo_pool a <-> exists i, 0 <= i < 4 /\ a = 0xc0100000 + 4096 * i.
Proof.
  assert (E : forall i, 0 <= i < 8 -> i = 0 \/ i = 1 \/ i = 2 \/ i = 3 \/ i = 4 \/ i = 5 \/ i = 6 \/ i = 7) by lia.
  split.
  - intros ([] & i & Hi & Hb & ->); simpl in Hi; pose proof (E i Hi); exists i; destruct_or!; subst; simpl in *; done.
  - intros (i & Hi & ->). exists false, i. simpl. split_and!; [lia|lia| |done].
    pose proof (E i ltac:(lia)). destruct_or!; subst; done || lia.
Qed.

Lemma demo_word a k : palloc_allocated demo_pool a -> 0 <= k < 1024 ->
  demo_words !! (a + 4 * k) =
    Some (if decide (a + 4 * k = 0xc0101080) then 0x102007
          else if decide (a + 4 * k = 0xc0102120) then 0x103007 else 0).
Proof.
  intros (i & Hi & ->)%demo_allocated Hk. unfold demo_words. rewrite !lookup_insert, fill_words_lookup.
  repeat case_decide; try lia; try done. exfalso. apply H1. change (4 * 4096%nat) with 16384.
  split; [lia|]. replace (0xc0100000 + 4096 * i + 4 * k - 0xc0100000) with ((1024 * i + k) * 4) by lia. by rewrite Z.mod_mul.
Qed.

#[local] Opaque demo_words.

Lemma demo_vm_ok : pd_ok demo_vm 0xc0101000.
Proof.
  assert (Hpd : palloc_allocated demo_pool 0xc0101000) by (apply demo_allocated; by exists 1).
  assert (Hw : forall k, 0 <= k < 768 -> word_at demo_words (0xc0101000 + 4 * k) = if decide (k = 32) then 0x102007 else 0).
  { intros k Hk. unfold word_at. rewrite demo_word by (done || lia). simpl. repeat case_decide; done || lia. }
  split; [apply demo_pool_ok|done| |done| |].
  - intros a Ha k Hk. simpl. rewrite demo_word by done. eexists. split; [done|]. repeat case_decide; done.
  - intros k Hk. simpl. rewrite Hw by done. case_decide; [|done]. intros _. exists 0xc0102000.
    split_and!; [done| |done]. apply demo_allocated. by exists 2.
  - intros j k Hj Hk. simpl. rewrite !Hw by done. repeat case_decide; lia.
Qed.

Lemma demo_mappable : mappable 0x1000 0x8049000 0xc0200000.
Proof. by constructor. Qed.

Lemma demo_entry_free : present (entry demo_words 0xc0101000 0x8049000) = false /\ dir_entry demo_words 0xc0101000 0x8049000 <> 0.
Proof. by vm_compute. Qed.

Lemma install_page_correct_witness :
  let run := install_page 0xc0000000 0x1000 0xc0101000 0x8049000 0xc0200000 true demo_vm in
  if present (entry demo_words 0xc0101000 0x8049000) then
    run = Ret ((false, None), demo_vm) /\ pagedir_set_page 0xc0000000 0x1000 0xc0101000 0x8049000 0xc0200000 true demo_vm = Panic
  else
    (run = Ret ((false, Some 0), demo_vm) /\ dir_entry demo_words 0xc0101000 0x8049000 = 0) \/
    exists pte s', run = Ret ((true, Some pte), s') /\ pd_ok s' 0xc0101000 /\ cr3 s' = 0x101000 /\ tlb s' = ∅ /\
      entry_set demo_words (words s') 0xc0101000 0x8049000 (user_pte 0xc0200000 true) /\
      word_at (words s') pte = user_pte 0xc0200000 true.
Proof.
  apply (install_page_correct 0xc0000000 0x1000 demo_vm);
    [apply demo_vm_ok|apply demo_mappable|discriminate|].
  intros Hp. change (words demo_vm) with demo_words in Hp. by rewrite (proj1 demo_entry_free) in Hp.
Defined.

Lemma demo_installed : exists pte s1,
  install_page 0xc0000000 0x1000 0xc0101000 0x8049000 0xc0200000 true demo_vm = Ret ((true, Some pte), s1).
Proof.
  destruct demo_entry_free as [Ep Ed]. unfold install_page.
  pose proof (pagedir_set_page_run 0xc0000000 0x1000 demo_vm _ _ _ true demo_vm_ok demo_mappable ltac:(discriminate)) as Hs.
  pose proof (pagedir_get_page_run demo_vm 0xc0101000 0x8049000 demo_vm_ok ltac:(split; [discriminate|reflexivity])) as Hg.
  change (words demo_vm) with demo_words in *. rewrite Ep in *.
  erewrite bind_run by exact Hg. cbv iota. change (negb (0 =? 0)) with false. destruct Hs as [[_ E0]|(pte & s1 & Er & _)]; [elim (Ed E0)|].
  erewrite bind_run by exact Er. exists pte, s1. reflexivity.
Qed.

Lemma mapping_roundtrip_witness : exists pte s1,
  install_page 0xc0000000 0x1000 0xc0101000 0x8049000 0xc0200000 true demo_vm = Ret ((true, pte), s1) /\
  pagedir_get_page 0xc0101000 0x8049abc s1 = Ret (0xc0200abc, s1).
Proof.
  destruct demo_installed as (pte & s1 & E). exists (Some pte), s1. split; [exact E|].
  assert (Hre : entry_reachable (entry (words demo_vm) 0xc0101000 0x8049000)).
  { intros Hp. change (words demo_vm) with demo_words in Hp. by rewrite (proj1 demo_entry_free) in Hp. }
  apply (proj1 (mapping_roundtrip 0xc0000000 0x1000 demo_vm s1 0xc0101000 0x8049000 0xc0200000 true (Some pte)
    demo_vm_ok demo_mappable ltac:(discriminate) ltac:(reflexivity) Hre E) 0x8049abc); [split; [discriminate|reflexivity]|reflexivity].
Defined.

Lemma demo_owned : owned_pages demo_words 0xc0101000 768 0 = [0xc0103000; 0xc0102000].
Proof. vm_compute. reflexivity. Qed.

Lemma pagedir_destroy_correct_witness :
  exists s', pagedir_destroy 0xc0000000 0xc0101000 demo_vm = Ret (tt, s') /\ pages_ok (pal s') /\
    forall b, allocated (pal s') b <-> allocated demo_pool b /\ b ∉ [0xc0103000; 0xc0102000; 0xc0101000].
Proof.
  change [0xc0103000; 0xc0102000; 0xc0101000] with ([0xc0103000; 0xc0102000] ++ [0xc0101000]). rewrite <- demo_owned.
  apply (pagedir_destroy_correct 0xc0000000 demo_vm 0xc0101000 demo_vm_ok); [discriminate| |];
    change (words demo_vm) with demo_words; rewrite demo_owned.
  - apply (bool_decide_unpack _). reflexivity.
  - repeat constructor; apply demo_allocated; [by exists 3|by exists 2|by exists 1].
Defined.
