(* ===== verification/Paging.v ===== *)
(** * The kernel's mapping: paging_init of threads/init.c

    The base page directory, over any page allocator, with the walk of page
    tables by the processor as its meaning; and the directories of processes
    ([pagedir_create] of userprog/pagedir.c), which start as copies of it. *)

From S2P Require Import Prelude Vaddr Bitmap Palloc PageAlloc Pagedir PagedirProps.

Section Paging.
Context {P : Type} `{PageAlloc P} (ram_pages text_start text_end : Z).
Implicit Types s : vm P.

(** [palloc_get_page (PAL_ASSERT | PAL_ZERO)] *)
Definition alloc_assert : ST (vm P) Z := a ← alloc_page true; ASSERT (negb (a =? 0));; mret a.

(** The loop from [page] on, with [n] turns left. *)
Fixpoint map_ram (n : nat) (page pd pt : Z) : ST (vm P) unit :=
  match n with
  | O => mret tt
  | S n =>
    vaddr ← lift (ptov (u32 (page * PGSIZE)));
    let pde_idx := pd_no vaddr in
    let pte_idx := pt_no vaddr in
    let in_kernel_text := (text_start <=? vaddr) && (vaddr <? text_end) in
    e ← get_word (pd +u 4 * pde_idx);
    pt ← (if e =? 0 then
            pt ← alloc_assert;
            x ← lift (pde_create pt);
            put_word (pd +u 4 * pde_idx) x;;
            mret pt
          else mret pt);
    x ← lift (pte_create_kernel vaddr (negb in_kernel_text));
    put_word (pt +u 4 * pte_idx) x;;
    map_ram n (page + 1) pd pt
  end.

(** The result is the new value of [base_page_dir]. *)
Definition paging_init : ST (vm P) Z :=
  pd ← alloc_assert;
  map_ram (Z.to_nat ram_pages) 0 pd 0;;
  p ← lift (vtop pd);
  modify (fun s => mk_vm (words s) (pal s) p ∅);;
  mret pd.
End Paging.

(** ** The walk of the processor

    The physical address, whether the page can be written, and whether user
    code can reach it. *)
Record access := mk_access { a_phys : Z; a_write : bool; a_user : bool }.

Definition translate (m : gmap Z Z) (pd va : Z) : option access :=
  let e := dir_entry m pd va in
  if present e then
    let x := word_at m (Z.land e PTE_ADDR + PHYS_BASE + 4 * pt_no va) in
    if present x then
      Some (mk_access (Z.land x PTE_ADDR + va mod 4096)
        (negb (Z.land e PTE_W =? 0) && negb (Z.land x PTE_W =? 0))
        (negb (Z.land e PTE_U =? 0) && negb (Z.land x PTE_U =? 0)))
    else None
  else None.

Section Proofs.
Context {P : Type} `{PageAlloc P} (ram_pages text_start text_end : Z).
Implicit Types s : vm P.

Definition in_text (va : Z) : bool := (text_start <=? va) && (va <? text_end).
Definition kernel_pte (page : Z) : Z := 4096 * page + (if in_text (PHYS_BASE + 4096 * page) then 1 else 3).

(** The pages below [n] are mapped, through the tables [T q] for the blocks of
    1024 pages that begin below [m]; everything else is empty. *)
Record mapped (T : Z -> Z) (pd n m : Z) s : Prop := {
  ma_alloc : pages_ok (pal s);
  ma_pd : allocated (pal s) pd;
  ma_words a : a = pd \/ (exists q, 0 <= q /\ q * 1024 < m /\ a = T q) -> page_words (words s) a;
  ma_dir k : 0 <= k < 1024 -> word_at (words s) (pd + 4 * k) = if decide (768 <= k /\ (k - 768) * 1024 < m) then T (k - 768) - PHYS_BASE + 7 else 0;
  ma_tables q : 0 <= q -> q * 1024 < m -> allocated (pal s) (T q) /\ T q <> pd;
  ma_inj q q' : 0 <= q -> q * 1024 < m -> 0 <= q' -> q' * 1024 < m -> T q = T q' -> q = q';
  ma_pages q j : 0 <= q -> q * 1024 < m -> 0 <= j < 1024 ->
    word_at (words s) (T q + 4 * j) = if decide (q * 1024 + j < n) then kernel_pte (q * 1024 + j) else 0;
}.

Lemma page_indices n : 0 <= n < 2 ^ 18 -> let va := PHYS_BASE + 4096 * n in
  pd_no va = 768 + n / 1024 /\ pt_no va = n mod 1024 /\ is_u32 va /\ va mod PGSIZE = 0.
Proof.
  intros Hn va. assert (Hu : is_u32 va) by (unfold va, PHYS_BASE; urange; lia).
  rewrite pd_no_eq, pt_no_eq by done. rewrite PGSIZE_eq.
  assert (E : va / 4096 = 786432 + n) by (unfold va, PHYS_BASE; Z.to_euclidean_division_equations; lia).
  rewrite E. split_and!; [|..|done|]; unfold va, PHYS_BASE; Z.to_euclidean_division_equations; lia.
Qed.

(** A fresh page, cleared. *)
Lemma alloc_assert_run s : pages_ok (pal s) -> alloc_assert s = Panic \/
  exists a p', alloc_assert s = Ret (a, mk_vm (fill_words 1024 a 0 (words s)) p' (cr3 s) (tlb s)) /\
    pages_ok p' /\ kernel_page a /\ ~ allocated (pal s) a /\ forall b, allocated p' b <-> b = a \/ allocated (pal s) b.
Proof.
  intros Hp. unfold alloc_assert, alloc_page. destruct (get_page_spec (pal s) true Hp) as (a & p' & E & Hp' & Ha).
  assert (R : (a ← on_pal (get_page true); when (negb (a =? 0) && true) (modify (set_words (fill_words 1024 a 0)));; mret a) s =
    Ret (a, if a =? 0 then mk_vm (words s) p' (cr3 s) (tlb s) else mk_vm (fill_words 1024 a 0 (words s)) p' (cr3 s) (tlb s))).
  { rewrite (bind_run _ _ _ a (mk_vm (words s) p' (cr3 s) (tlb s))) by (unfold on_pal; by rewrite E). by destruct (a =? 0). }
  rewrite (bind_run _ _ _ _ _ R). destruct Ha as [[-> ->]|(Hk & Hn & Hal)]; [by left|right].
  exists a, p'. assert (a <> 0) by (destruct Hk as (? & _); unfold PHYS_BASE in *; lia). destruct (Z.eqb_spec a 0); [done|]. by split_and!.
Qed.

(** A new table. *)
Lemma mapped_new_table T pd n s a p' : mapped T pd n n s -> 0 <= n < 2 ^ 18 -> n mod 1024 = 0 -> pages_ok p' -> kernel_page a -> ~ allocated (pal s) a ->
  (forall b, allocated p' b <-> b = a \/ allocated (pal s) b) ->
  mapped (fun q => if decide (q = n / 1024) then a else T q) pd n (n + 1)
    (mk_vm (<[pd + 4 * (768 + n / 1024) := a - PHYS_BASE + 7]> (fill_words 1024 a 0 (words s))) p' (cr3 s) (tlb s)).
Proof.
  intros [H1 H2 H3 H4 H5 H6 H7] Hn Hm Hp' Ha Hna Hal. assert (Hkpd : kernel_page pd) by (by apply (allocated_page (pal s))).
  assert (Hane : a <> pd) by (by intros ->). assert (Hq : 0 <= n / 1024 < 256 /\ n = n / 1024 * 1024) by (Z.to_euclidean_division_equations; lia).
  assert (Hlt : forall q, q * 1024 < n + 1 -> q = n / 1024 \/ q * 1024 < n) by (intros; lia).
  assert (Htab : forall q, 0 <= q -> q * 1024 < n -> kernel_page (T q) /\ T q <> a).
  { intros q Hq0 Hqn. destruct (H5 q Hq0 Hqn) as [Hal' _]. split; [by apply (allocated_page (pal s))|]. by intros <-. }
  assert (Hw : forall b k, kernel_page b -> b <> pd -> 0 <= k < 1024 ->
    word_at (<[pd + 4 * (768 + n / 1024) := a - PHYS_BASE + 7]> (fill_words 1024 a 0 (words s))) (b + 4 * k) = if decide (b = a) then 0 else word_at (words s) (b + 4 * k)).
  { intros b k Hb Hbp Hk. rewrite word_at_insert, decide_False; [by apply word_at_fill|]. intros E. apply word_addr_inj in E as [E _]; [|done|done|lia|done]. by subst. }
  split; cbn [pal words].
  - done.
  - apply Hal. by right.
  - intros b Hb. assert (Hkb : kernel_page b).
    { destruct Hb as [->|(q & Hq0 & Hqm & ->)]; [done|]. case_decide; [done|]. destruct (Hlt q Hqm); [done|]. by apply Htab. }
    apply page_words_insert; [destruct (kernel_page_range a Ha) as (? & ? & ? & ?); urange; lia|]. apply page_words_fill; [done|done|done|]. intros Hba. apply H3.
    destruct Hb as [->|(q & Hq0 & Hqm & ->)]; [by left|right]. case_decide; [done|]. exists q. split_and!; [done|by destruct (Hlt q Hqm)|done].
  - intros k Hk. rewrite word_at_insert. destruct (decide (k = 768 + n / 1024)) as [->|Hkn].
    + rewrite decide_True by done. rewrite decide_True by lia. by rewrite decide_True by lia.
    + rewrite decide_False by lia. rewrite word_at_fill by done. rewrite decide_False by done. rewrite H4 by done.
      repeat case_decide; try done; try lia.
  - intros q Hq0 Hqm. case_decide; [split; [apply Hal; by left|done]|]. destruct (Hlt q Hqm) as [?|Hqn]; [done|]. destruct (H5 q Hq0 Hqn). split; [apply Hal; by right|done].
  - intros q q' Hq0 Hqm Hq0' Hqm'. repeat case_decide; subst; try done.
    + intros E. destruct (Hlt q' Hqm') as [?|Hx]; [done|]. by destruct (Htab q' Hq0' Hx).
    + intros E. destruct (Hlt q Hqm) as [?|Hx]; [done|]. by destruct (Htab q Hq0 Hx).
    + intros E. destruct (Hlt q Hqm) as [?|Hx]; [done|]. destruct (Hlt q' Hqm') as [?|Hx']; [done|]. by apply H6.
  - intros q j Hq0 Hqm Hj. case_decide as Eq.
    + rewrite Hw by done. rewrite decide_True by done. rewrite decide_False by (subst; lia). done.
    + destruct (Hlt q Hqm) as [?|Hx]; [done|]. destruct (Htab q Hq0 Hx) as [Hk1 Hk2]. destruct (H5 q Hq0 Hx) as [_ Hk3].
      rewrite Hw by done. rewrite decide_False by done. by apply H7.
Qed.

(** A new entry. *)
Lemma mapped_entry T pd n s : mapped T pd n (n + 1) s -> 0 <= n < 2 ^ 18 ->
  mapped T pd (n + 1) (n + 1) (set_words (insert (T (n / 1024) + 4 * (n mod 1024)) (kernel_pte n)) s).
Proof.
  intros [H1 H2 H3 H4 H5 H6 H7] Hn. assert (Hkpd : kernel_page pd) by (by apply (allocated_page (pal s))).
  assert (Hq : 0 <= n / 1024 /\ n / 1024 * 1024 < n + 1 /\ 0 <= n mod 1024 < 1024 /\ n = n / 1024 * 1024 + n mod 1024) by (Z.to_euclidean_division_equations; lia).
  destruct Hq as (Hq0 & Hqm & Hj & En). destruct (H5 _ Hq0 Hqm) as [Ha Hne]. assert (Hkt : kernel_page (T (n / 1024))) by (by apply (allocated_page (pal s))).
  assert (Hu : is_u32 (kernel_pte n)) by (unfold kernel_pte; urange; destruct (in_text _); lia).
  split; cbn [pal words set_words]; [done|done| |..|done|done|].
  - intros a Ha'. by apply page_words_insert, H3.
  - intros k Hk. rewrite word_at_insert, decide_False; [by apply H4|]. intros E. apply word_addr_inj in E as [? _]; done.
  - intros q j Hq' Hqm' Hj'. destruct (H5 q Hq' Hqm') as [Ha' _]. assert (Hkq : kernel_page (T q)) by (by apply (allocated_page (pal s))).
    rewrite word_at_insert. case_decide as E.
    + apply word_addr_inj in E as [E1 E2]; [|done..]. apply H6 in E1; [|done..]. subst q j. rewrite decide_True by lia. by rewrite <- En.
    + rewrite H7 by done. repeat case_decide; try done; try lia.
      exfalso. apply E. assert (q = n / 1024) as -> by (Z.to_euclidean_division_equations; lia). f_equal. f_equal. lia.
Qed.

(** Reading and writing words of tables. *)
Lemma get_word_run a k s : kernel_page a -> page_words (words s) a -> 0 <= k < 1024 -> get_word (a +u 4 * k) s = Ret (word_at (words s) (a + 4 * k), s).
Proof. intros Ha Hw Hk. rewrite word_addr_small by done. unfold get_word. by rewrite (proj1 (word_at_lookup _ _ _ Hw Hk)). Qed.

Lemma put_word_run a k x s : kernel_page a -> page_words (words s) a -> 0 <= k < 1024 -> put_word (a +u 4 * k) x s = Ret (tt, set_words (insert (a + 4 * k) x) s).
Proof. intros Ha Hw Hk. rewrite word_addr_small by done. unfold put_word. by rewrite (proj1 (word_at_lookup _ _ _ Hw Hk)). Qed.

(** The part of a turn that finds or makes the table. *)
Lemma table_step T pd pt n s : mapped T pd n n s -> 0 <= n < 2 ^ 18 -> (n mod 1024 <> 0 -> pt = T (n / 1024)) ->
  let m := (e ← get_word (pd +u 4 * (768 + n / 1024));
    if e =? 0 then pt ← alloc_assert; x ← lift (pde_create pt); put_word (pd +u 4 * (768 + n / 1024)) x;; mret pt else mret pt) : ST (vm P) Z in
  m s = Panic \/ exists T' s', m s = Ret (T' (n / 1024), s') /\ mapped T' pd n (n + 1) s' /\ (forall a, allocated (pal s) a -> allocated (pal s') a).
Proof.
  intros Hm Hn Hpt m. pose proof Hm as [H1 H2 H3 H4 H5 H6 H7]. assert (Hkpd : kernel_page pd) by (by apply (allocated_page (pal s))).
  assert (Hk : 0 <= 768 + n / 1024 < 1024) by (Z.to_euclidean_division_equations; lia).
  unfold m. rewrite (bind_run _ _ _ _ _ (get_word_run pd _ s Hkpd (H3 pd ltac:(by left)) Hk)). rewrite H4 by done.
  replace (768 + n / 1024 - 768) with (n / 1024) by lia. destruct (decide (n mod 1024 = 0)) as [Hz|Hz].
  - rewrite decide_False by (Z.to_euclidean_division_equations; lia). cbn [Z.eqb].
    destruct (alloc_assert_run s H1) as [E|(a & p' & E & Hp' & Ha & Hna & Hal)]; [left; by apply bind_panics|right].
    rewrite (bind_run _ _ _ _ _ E). set (s1 := mk_vm (fill_words 1024 a 0 (words s)) p' (cr3 s) (tlb s)).
    rewrite (bind_run _ _ _ (a - PHYS_BASE + 7) s1) by (unfold lift; by rewrite pde_create_eq).
    assert (W : page_words (words s1) pd) by (apply page_words_fill; [done|done|done|intros _; apply H3; by left]).
    rewrite (bind_run _ _ _ _ _ (put_word_run pd _ (a - PHYS_BASE + 7) s1 Hkpd W Hk)).
    exists (fun q => if decide (q = n / 1024) then a else T q). eexists. split; [by rewrite decide_True|]. split; [exact (mapped_new_table T pd n s a p' Hm Hn Hz Hp' Ha Hna Hal)|].
    intros b Hb. apply Hal. by right.
  - right. rewrite decide_True by (Z.to_euclidean_division_equations; lia).
    assert (Hq : 0 <= n / 1024 /\ n / 1024 * 1024 < n) by (Z.to_euclidean_division_equations; lia).
    destruct (H5 (n / 1024)) as [Ha _]; [tauto|tauto|]. pose proof (allocated_page _ _ H1 Ha) as (Hlo & _).
    destruct (Z.eqb_spec (T (n / 1024) - PHYS_BASE + 7) 0); [lia|]. exists T, s. rewrite Hpt by done. split; [done|]. split; [|done].
    assert (Hlt : forall q, q * 1024 < n + 1 -> q * 1024 < n) by (intros q Hx; Z.to_euclidean_division_equations; lia).
    split; try done.
    + intros a [->|(q & ? & ? & ->)]; apply H3; [by left|right]. exists q. auto.
    + intros k Hk'. rewrite H4 by done. pose proof (Hlt (k - 768)). repeat case_decide; try done; exfalso; lia.
    + intros q Hq0 Hqm. apply H5; auto.
    + intros q q' ? ? ? ?. apply H6; auto.
    + intros q j ? ? ?. apply H7; auto.
Qed.

Lemma map_ram_run (k : nat) n T pd pt s : mapped T pd n n s -> 0 <= n -> n + k <= 2 ^ 18 -> (n mod 1024 <> 0 -> pt = T (n / 1024)) ->
  map_ram text_start text_end k n pd pt s = Panic \/
  exists T' s', map_ram text_start text_end k n pd pt s = Ret (tt, s') /\ mapped T' pd (n + k) (n + k) s' /\ (forall a, allocated (pal s) a -> allocated (pal s') a).
Proof.
  revert n T pt s. induction k as [|k IH]; intros n T pt s Hm Hn Hk Hpt.
  - right. exists T, s. rewrite Z.add_0_r. by split_and!.
  - cbn [map_ram]. destruct (page_indices n ltac:(lia)) as (Ed & Et & Hu & Hal). set (va := PHYS_BASE + 4096 * n) in *.
    assert (Ep : ptov (u32 (n * PGSIZE)) = Ret va).
    { rewrite u32_small by (rewrite PGSIZE_eq; urange; lia). rewrite ptov_phys by (rewrite PGSIZE_eq; lia). f_equal. unfold va. rewrite PGSIZE_eq. lia. }
    rewrite (bind_run _ _ _ va s) by (unfold lift; by rewrite Ep).
    rewrite Ed, Et. destruct (table_step T pd pt n s Hm ltac:(lia) Hpt) as [E|(T' & s1 & E & Hm1 & Hal1)]; cbn zeta in E.
    { left. rewrite <- bind_assoc. by apply bind_panics. }
    rewrite <- bind_assoc. rewrite (bind_run _ _ _ _ _ E).
    assert (Ex : pte_create_kernel va (negb ((text_start <=? va) && (va <? text_end))) = Ret (kernel_pte n)).
    { rewrite pte_create_kernel_eq by (done || (unfold va; lia)). f_equal. unfold kernel_pte, in_text. fold va. destruct (_ && _); cbn [negb]; unfold va; lia. }
    rewrite (bind_run _ _ _ (kernel_pte n) s1) by (unfold lift; by rewrite Ex).
    pose proof Hm1 as [G1 G2 G3 G4 G5 G6 G7]. assert (Hq : 0 <= n / 1024 /\ n / 1024 * 1024 < n + 1 /\ 0 <= n mod 1024 < 1024) by (Z.to_euclidean_division_equations; lia).
    destruct (G5 (n / 1024)) as [Ha _]; [tauto|tauto|]. pose proof (allocated_page _ _ G1 Ha) as Hka.
    assert (Hw : page_words (words s1) (T' (n / 1024))) by (apply G3; right; exists (n / 1024); tauto).
    rewrite (bind_run _ _ _ _ _ (put_word_run (T' (n / 1024)) (n mod 1024) (kernel_pte n) s1 Hka Hw ltac:(tauto))).
    pose proof (mapped_entry T' pd n s1 Hm1 ltac:(lia)) as Hm2. set (s2 := set_words _ s1) in *.
    destruct (IH (n + 1) T' (T' (n / 1024)) s2 Hm2 ltac:(lia) ltac:(lia)) as [E2|(T2 & s3 & E2 & Hm3 & Hal3)].
    { intros Hz. f_equal. Z.to_euclidean_division_equations. lia. }
    { by left. }
    right. exists T2, s3. split; [exact E2|]. replace (n + S k) with (n + 1 + k) by lia. split; [done|]. intros a Ha'. apply Hal3. exact (Hal1 a Ha').
Qed.

(** Flags of an entry. *)
Lemma flag_bits a f b : is_u32 a -> a mod PGSIZE = 0 -> 0 <= f < PGSIZE -> Z.land PTE_FLAGS b = b -> Z.land (a + f) b = Z.land f b.
Proof.
  intros Ha Hm Hf Hb. destruct (pte_addr_flags a f Ha Hm Hf) as [_ E]. destruct (pte_addr_flags 0 f) as [_ E0]; [done|done|done|].
  rewrite <- Hb, !Z.land_assoc, E. by rewrite Z.add_0_l in E0; rewrite E0.
Qed.

(** What the processor does with a directory entry and a table entry. *)
Lemma walk m pd va pt f x g : kernel_page pt -> is_u32 x -> x mod PGSIZE = 0 -> (f = 7 \/ f = 5) -> (g = 1 \/ g = 3) ->
  dir_entry m pd va = pt - PHYS_BASE + f -> word_at m (pt + 4 * pt_no va) = x + g ->
  translate m pd va = Some (mk_access (x + va mod 4096) (bool_decide (f = 7 /\ g = 3)) false).
Proof.
  intros Hk Hx Hm Hf Hg Ed Ew. destruct (kernel_page_range pt Hk) as (Hu & Hr & Hpm & _). unfold translate. rewrite Ed.
  assert (Hu' : is_u32 (pt - PHYS_BASE)) by (urange; lia).
  assert (F : forall b, Z.land PTE_FLAGS b = b -> Z.land (pt - PHYS_BASE + f) b = Z.land f b) by (intros; apply flag_bits; [done|done|rewrite PGSIZE_eq; lia|done]).
  assert (G : forall b, Z.land PTE_FLAGS b = b -> Z.land (x + g) b = Z.land g b) by (intros; apply flag_bits; [done|done|rewrite PGSIZE_eq; lia|done]).
  destruct (pte_addr_flags (pt - PHYS_BASE) f) as [Ea _]; [done|done|rewrite PGSIZE_eq; lia|].
  destruct (pte_addr_flags x g) as [Ex _]; [done|done|rewrite PGSIZE_eq; lia|].
  unfold present. rewrite Ea. replace (pt - PHYS_BASE + PHYS_BASE) with pt by lia. rewrite Ew, Ex, !F, !G by done.
  destruct Hf as [-> | ->], Hg as [-> | ->]; done.
Qed.

Lemma translate_mapped T pd n s va : mapped T pd n n s -> 0 <= n <= 2 ^ 18 -> is_u32 va ->
  translate (words s) pd va =
  if decide (PHYS_BASE <= va < PHYS_BASE + 4096 * n) then Some (mk_access (va - PHYS_BASE) (negb (in_text (va - va mod 4096))) false) else None.
Proof.
  intros [H1 H2 H3 H4 H5 H6 H7] Hn Hu. destruct (decide (va < PHYS_BASE)) as [Hlo|Hhi].
  { rewrite decide_False by lia. destruct (user_indices va) as (Hd & _ & _); [urange; lia|]. unfold translate, dir_entry. rewrite H4 by lia. by rewrite decide_False by lia. }
  set (k := (va - PHYS_BASE) / 4096). assert (Hk : 0 <= k < 2 ^ 18) by (unfold k, PHYS_BASE in *; urange; Z.to_euclidean_division_equations; lia).
  assert (Ed : pd_no va = 768 + k / 1024) by (rewrite pd_no_eq, PGSIZE_eq; unfold k, PHYS_BASE; Z.to_euclidean_division_equations; lia).
  assert (Et : pt_no va = k mod 1024) by (rewrite pt_no_eq, PGSIZE_eq by done; unfold k, PHYS_BASE; Z.to_euclidean_division_equations; lia).
  assert (Hq : 0 <= k / 1024 < 256 /\ 0 <= k mod 1024 < 1024 /\ k = k / 1024 * 1024 + k mod 1024) by (Z.to_euclidean_division_equations; lia).
  assert (Hdir : dir_entry (words s) pd va = if decide (k / 1024 * 1024 < n) then T (k / 1024) - PHYS_BASE + 7 else 0).
  { unfold dir_entry. rewrite Ed, H4 by lia. replace (768 + k / 1024 - 768) with (k / 1024) by lia. repeat case_decide; done || lia. }
  assert (Ha : va - va mod 4096 = PHYS_BASE + 4096 * k /\ va - PHYS_BASE = 4096 * k + va mod 4096) by (unfold k, PHYS_BASE in *; Z.to_euclidean_division_equations; lia).
  destruct Ha as [Ea1 Ea2]. rewrite Ea1, Ea2. destruct (decide (k / 1024 * 1024 < n)) as [Hb|Hb].
  - destruct (H5 (k / 1024)) as [Hal _]; [lia|done|]. pose proof (allocated_page _ _ H1 Hal) as Hkp. pose proof (H7 (k / 1024) (k mod 1024) ltac:(lia) Hb ltac:(lia)) as Hw.
    destruct (decide (k < n)) as [Hkn|Hkn].
    + rewrite decide_True in Hw by lia. rewrite <- (proj2 (proj2 Hq)) in Hw. unfold kernel_pte in Hw. rewrite decide_True by (unfold k in *; Z.to_euclidean_division_equations; lia).
      rewrite (walk _ _ _ (T (k / 1024)) 7 (4096 * k) (if in_text (PHYS_BASE + 4096 * k) then 1 else 3)); [|done|urange; lia|rewrite PGSIZE_eq; Z.to_euclidean_division_equations; lia|by left|destruct (in_text _); tauto|done|by rewrite Et].
      do 2 f_equal. by destruct (in_text _).
    + rewrite decide_False by (unfold k in *; Z.to_euclidean_division_equations; lia). rewrite decide_False in Hw by lia. unfold translate. rewrite Hdir.
      destruct (kernel_page_range _ Hkp) as (Hu' & Hr & Hpm & _). destruct (pte_addr_flags (T (k / 1024) - PHYS_BASE) 7) as [Ea _]; [urange; lia|done|done|].
      rewrite Ea. replace (T (k / 1024) - PHYS_BASE + PHYS_BASE) with (T (k / 1024)) by lia. rewrite Et, Hw. by destruct (present (_ + 7)).
  - rewrite decide_False by (unfold k in *; Z.to_euclidean_division_equations; lia). unfold translate. by rewrite Hdir.
Qed.

Lemma empty_directory s a p' : pages_ok p' -> kernel_page a -> allocated p' a -> mapped (fun _ => 0) a 0 0 (mk_vm (fill_words 1024 a 0 (words s)) p' (cr3 s) (tlb s)).
Proof.
  intros Hp Hk Ha. split; cbn [pal words]; try done; try lia.
  - intros b [->|(q & ? & ? & _)]; [by apply page_words_fill|lia].
  - intros k Hk'. rewrite word_at_fill by done. rewrite decide_True by done. by rewrite decide_False by lia.
Qed.

Lemma paging_init_run s : pages_ok (pal s) -> 0 <= ram_pages <= 2 ^ 18 ->
  paging_init ram_pages text_start text_end s = Panic \/
  exists pd T s2, paging_init ram_pages text_start text_end s = Ret (pd, mk_vm (words s2) (pal s2) (pd - PHYS_BASE) ∅) /\
    mapped T pd ram_pages ram_pages s2 /\ ~ allocated (pal s) pd /\ (forall a, a = pd \/ allocated (pal s) a -> allocated (pal s2) a).
Proof.
  intros Hp Hram. unfold paging_init. destruct (alloc_assert_run s Hp) as [E|(pd & p' & E & Hp' & Hk & Hna & Hal)]; [left; by apply bind_panics|].
  rewrite (bind_run _ _ _ _ _ E). set (s1 := mk_vm _ p' (cr3 s) (tlb s)).
  pose proof (empty_directory s pd p' Hp' Hk ltac:(apply Hal; by left)) as Hm.
  destruct (map_ram_run (Z.to_nat ram_pages) 0 _ pd 0 s1 Hm ltac:(lia) ltac:(lia)) as [E2|(T & s2 & E2 & Hm2 & Hal2)]; [done|left; by apply bind_panics|right].
  rewrite Z.add_0_l, Z2Nat.id in Hm2 by lia. rewrite (bind_run _ _ _ _ _ E2). destruct (kernel_page_range pd Hk) as (Hu & _).
  rewrite (bind_run _ _ _ (pd - PHYS_BASE) s2) by (unfold lift; by rewrite vtop_kernel by (done || apply Hk)).
  exists pd, T, s2. split_and!; [done..|]. intros a Ha. apply Hal2. apply Hal. tauto.
Qed.


(** ** The directory of a process *)

(** Copying a page of words. *)
Lemma copy_words_run (n : nat) j dst src s : kernel_page dst -> kernel_page src -> dst <> src -> page_words (words s) dst -> page_words (words s) src ->
  0 <= j -> j + n = 1024 ->
  exists s', copy_words n (dst +u 4 * j) (src +u 4 * j) s = Ret (tt, s') /\ pal s' = pal s /\ page_words (words s') dst /\
    (forall k, 0 <= k < 1024 -> word_at (words s') (dst + 4 * k) = if decide (j <= k) then word_at (words s) (src + 4 * k) else word_at (words s) (dst + 4 * k)) /\
    (forall b k, kernel_page b -> b <> dst -> 0 <= k < 1024 -> word_at (words s') (b + 4 * k) = word_at (words s) (b + 4 * k)).
Proof.
  intros Hd Hs Hne. revert j s. induction n as [|n IH]; intros j s Wd Ws Hj Hn.
  - exists s. split_and!; try done. intros k Hk. by rewrite decide_False by lia.
  - cbn [copy_words]. rewrite (bind_run _ _ _ _ _ (get_word_run src j s Hs Ws ltac:(lia))).
    set (x := word_at (words s) (src + 4 * j)). rewrite (bind_run _ _ _ _ _ (put_word_run dst j x s Hd Wd ltac:(lia))).
    set (s1 := set_words (insert (dst + 4 * j) x) s). rewrite !word_addr_next.
    assert (Hx : is_u32 x) by (apply (word_at_lookup _ src j Ws); lia).
    destruct (IH (j + 1) s1) as (s' & E & Ep & Wd' & Hk1 & Hk2); [by apply page_words_insert|by apply page_words_insert|lia|lia|].
    assert (Hsrc : forall k, 0 <= k < 1024 -> word_at (words s1) (src + 4 * k) = word_at (words s) (src + 4 * k)).
    { intros k Hk. unfold s1. cbn [words set_words]. rewrite word_at_insert, decide_False; [done|]. intros Ex. apply word_addr_inj in Ex as [? _]; [done|done|done|lia|done]. }
    exists s'. split_and!; [exact E|done|done|..].
    + intros k Hk. rewrite Hk1 by done. destruct (decide (k = j)) as [->|Hkj].
      * rewrite decide_False by lia. rewrite decide_True by lia. unfold s1. cbn [words set_words]. rewrite word_at_insert. by rewrite decide_True.
      * rewrite Hsrc by done. unfold s1. cbn [words set_words]. rewrite word_at_insert, (decide_False (P := _ = _)) by lia. repeat case_decide; done || lia.
    + intros b k Hb Hbd Hk. rewrite Hk2 by done. unfold s1. cbn [words set_words]. rewrite word_at_insert, decide_False; [done|].
      intros Ex. apply word_addr_inj in Ex as [? _]; [by subst|done|done|lia|done].
Qed.

(** A directory whose entries lead to tables in use. *)
Definition dir_ok s (pd : Z) : Prop := forall k, 0 <= k < 1024 ->
  word_at (words s) (pd + 4 * k) = 0 \/ exists pt, word_at (words s) (pd + 4 * k) = pt - PHYS_BASE + 7 /\ kernel_page pt /\ allocated (pal s) pt.

(** Directories with the same entries translate alike while the tables keep
    their words. *)
Lemma translate_copy s m pd pd' va : dir_ok s pd -> is_u32 va ->
  (forall k, 0 <= k < 1024 -> word_at m (pd' + 4 * k) = word_at (words s) (pd + 4 * k)) ->
  (forall b k, kernel_page b -> allocated (pal s) b -> 0 <= k < 1024 -> word_at m (b + 4 * k) = word_at (words s) (b + 4 * k)) ->
  translate m pd' va = translate (words s) pd va.
Proof.
  intros Hd Hva H1 H2. assert (Hi : 0 <= pd_no va < 1024 /\ 0 <= pt_no va < 1024).
  { rewrite pd_no_eq, pt_no_eq, PGSIZE_eq by done. urange. Z.to_euclidean_division_equations. lia. }
  unfold translate, dir_entry. rewrite H1 by lia. destruct (Hd (pd_no va)) as [->|(pt & -> & Hk & Ha)]; [lia|done|].
  destruct (kernel_page_range pt Hk) as (Hu & Hr & Hm & _). destruct (pte_addr_flags (pt - PHYS_BASE) 7) as [Ea _]; [urange; lia|done|done|].
  rewrite Ea. replace (pt - PHYS_BASE + PHYS_BASE) with pt by lia. by rewrite (H2 pt) by (done || lia).
Qed.

Lemma pagedir_create_run base s : pages_ok (pal s) -> allocated (pal s) base -> page_words (words s) base -> dir_ok s base ->
  (forall a p', get_page false (pal s) = Ret (a, p') -> a <> 0 -> page_words (words s) a) ->
  pagedir_create base s = Ret (0, s) \/
  exists pd s', pagedir_create base s = Ret (pd, s') /\ pd <> base /\ ~ allocated (pal s) pd /\ allocated (pal s') pd /\
    forall va, is_u32 va -> translate (words s') pd va = translate (words s) base va /\ translate (words s') base va = translate (words s) base va.
Proof.
  intros Hp Hb Wb Hd Hfree. unfold pagedir_create, alloc_page.
  destruct (get_page_spec (pal s) false Hp) as (a & p' & E & Hp' & Ha). specialize (Hfree a p' E).
  set (s0 := mk_vm (words s) p' (cr3 s) (tlb s)).
  assert (R : (a ← on_pal (get_page false); when (negb (a =? 0) && false) (modify (set_words (fill_words 1024 a 0)));; mret a) s = Ret (a, s0)).
  { rewrite (bind_run _ _ _ a s0) by (unfold on_pal; by rewrite E). by rewrite andb_false_r. }
  rewrite (bind_run _ _ _ _ _ R). destruct Ha as [[-> ->]|(Hk & Hna & Hal)]; [left; by destruct s|right].
  assert (Ha0 : a <> 0) by (destruct Hk as (? & _); unfold PHYS_BASE in *; lia). assert (Hab : a <> base) by (by intros ->).
  assert (Hkb : kernel_page base) by (by apply (allocated_page (pal s))).
  destruct (copy_words_run 1024 0 a base s0 Hk Hkb Hab (Hfree Ha0) Wb ltac:(lia) ltac:(lia)) as (s' & E' & Ep & _ & Hk1 & Hk2).
  rewrite !word_addr_small in E' by (done || lia). rewrite Z.mul_0_r, !Z.add_0_r in E'.
  destruct (Z.eqb_spec a 0); [done|]. cbn [negb when]. rewrite (bind_run _ _ _ _ _ E'). exists a, s'. split; [done|]. split_and!; [done|done|rewrite Ep; apply Hal; by left|].
  intros va Hva. split; (apply translate_copy; [done|done|..]).
  - intros k Hk'. rewrite Hk1 by done. by rewrite decide_True by lia.
  - intros b k Hb' Hb2 Hk'. apply Hk2; [done| |done]. by intros ->.
  - intros k Hk'. by apply Hk2.
  - intros b k Hb' Hb2 Hk'. apply Hk2; [done| |done]. by intros ->.
Qed.

(** C23: A process starts with the kernel's mapping and nothing else: the directory
    that [pagedir_create] makes after [paging_init] is a fresh page (or 0 if
    there is none) that translates every address of the 4 GB as the base
    directory does, and the base directory is as before.  The free pages are
    memory that can be written. *)
Theorem process_space_correct s base s1 : pages_ok (pal s) -> 0 <= ram_pages <= 2 ^ 18 ->
  paging_init ram_pages text_start text_end s = Ret (base, s1) ->
  (forall a p', get_page false (pal s1) = Ret (a, p') -> a <> 0 -> page_words (words s1) a) ->
  pagedir_create base s1 = Ret (0, s1) \/
  exists pd s2, pagedir_create base s1 = Ret (pd, s2) /\ pd <> base /\ ~ allocated (pal s1) pd /\ allocated (pal s2) pd /\
    forall va, is_u32 va -> translate (words s2) pd va = translate (words s1) base va /\ translate (words s2) base va = translate (words s1) base va.
Proof.
  intros Hp Hram E Hfree. destruct (paging_init_run s Hp Hram) as [E'|(pd & T & s2 & E' & Hm & Hna & Hal)]; rewrite E in E'; [done|]. injection E' as -> ->.
  destruct Hm as [H1 H2 H3 H4 H5 H6 H7]. apply pagedir_create_run; cbn [pal words]; [done|done|apply H3; by left| |done].
  intros k Hk. cbn [words pal]. rewrite H4 by done. case_decide as Hc; [right|by left]. destruct (H5 (k - 768)) as [Ha _]; [lia|lia|].
  exists (T (k - 768)). split_and!; [done|by apply (allocated_page (pal s2))|done].
Qed.
End Proofs.

(** ** An example: five pages of memory with one page of code *)
Definition demo_boot : vm palloc := mk_vm (fill_words 1024 0xc0106000 0 ∅) demo_palloc 0 ∅.
Lemma demo_boot_ok : pages_ok (pal demo_boot).
Proof. apply demo_palloc_ok. Qed.
Definition demo_run : outcome (Z * vm palloc) := paging_init 5 0xc0002000 0xc0003000 demo_boot.
Definition demo_base : Z := match demo_run with Ret (pd, _) => pd | _ => 0 end.
Definition demo_after : vm palloc := match demo_run with Ret (_, s) => s | _ => demo_boot end.
Definition all_zero (m : gmap Z Z) (a : Z) : bool := forallb (fun k : nat => bool_decide (m !! (a + 4 * k) = Some 0)) (seq 0 1024).

Lemma all_zero_words m a : all_zero m a = true -> page_words m a.
Proof.
  unfold all_zero. rewrite forallb_forall. intros H k Hk. exists 0. split; [|done]. specialize (H (Z.to_nat k)).
  rewrite Z2Nat.id in H by lia. rewrite bool_decide_eq_true in H. apply H. apply List.in_seq. lia.
Qed.

Lemma demo_run_returns : match demo_run with Ret (pd, s) => (pd =? 0xc0104000) && match get_page false (pal s) with Ret (a, _) => (a =? 0xc0106000) && all_zero (words s) a | _ => false end | _ => false end = true.
Proof. vm_compute. reflexivity. Qed.

Lemma demo_after_run : demo_run = Ret (demo_base, demo_after).
Proof. pose proof demo_run_returns as H. unfold demo_base, demo_after. destruct demo_run as [[pd s]| |]; [done|discriminate H|discriminate H]. Qed.

Lemma demo_init : paging_init 5 0xc0002000 0xc0003000 demo_boot = Ret (demo_base, demo_after).
Proof. pose proof demo_after_run as R. unfold demo_run in R at 1. exact R. Qed.
#[local] Opaque demo_run demo_base demo_after demo_boot.

Lemma demo_boot_free a p' : get_page false (pal demo_after) = Ret (a, p') -> a <> 0 -> page_words (words demo_after) a.
Proof.
  intros E _. pose proof demo_run_returns as H. rewrite demo_after_run, E in H. apply andb_true_iff in H as [_ H]. apply andb_true_iff in H as [_ H]. by apply all_zero_words.
Qed.


Lemma process_space_correct_witness : pagedir_create demo_base demo_after = Ret (0, demo_after) \/
  exists pd s2, pagedir_create demo_base demo_after = Ret (pd, s2) /\ translate (words s2) pd 0x8048000 = translate (words demo_after) demo_base 0x8048000.
Proof.
  destruct (process_space_correct 5 0xc0002000 0xc0003000 demo_boot demo_base demo_after demo_boot_ok ltac:(lia) demo_init demo_boot_free)
    as [E|(pd & s2 & E & _ & _ & _ & H)]; [left; exact E|right].
  exists pd, s2. split; [exact E|]. exact (proj1 (H 0x8048000 ltac:(unfold is_u32; lia))).
Defined.
