(* ===== verification/Spaces.v ===== *)
(** * Address spaces: several page directories at once

    PagedirProps.v describes what each function of userprog/pagedir.c does to
    its own page directory.  Here the directories of all processes are
    considered together: their tables are apart, so that an operation on one
    leaves every entry of the others as it is, and page tables never move, so
    that the address of an entry stays valid. *)

From S2P Require Import Prelude Vaddr PageAlloc Pagedir PagedirProps.

(** Bit operations stay within 32 bits. *)
Lemma bits_u32 x : 0 <= x -> Z.land x (Z.ones 32) = x -> is_u32 x.
Proof. intros H0 E. rewrite Z.land_ones in E by lia. split; [done|]. rewrite <- E. apply Z.mod_pos_bound. lia. Qed.
Lemma u32_bits x : is_u32 x -> Z.land x (Z.ones 32) = x.
Proof. intros Hx. rewrite Z.land_ones by lia. by apply Z.mod_small. Qed.
Lemma lor_u32 x y : is_u32 x -> is_u32 y -> is_u32 (Z.lor x y).
Proof.
  intros Hx Hy. apply bits_u32; [apply Z.lor_nonneg; split; [apply Hx|apply Hy]|]. by rewrite Z.land_lor_distr_l, !u32_bits.
Qed.
Lemma land_u32 x y : is_u32 x -> is_u32 (Z.land x y).
Proof.
  intros Hx. apply bits_u32; [apply Z.land_nonneg; left; apply Hx|]. rewrite <- Z.land_assoc, (Z.land_comm y), Z.land_assoc. by rewrite u32_bits.
Qed.

(** The address of the page table entry of [va]. *)
Definition pte_addr (m : gmap Z Z) (pd va : Z) : Z := table_of (dir_entry m pd va) + 4 * pt_no va.

Section Spaces.
Context {P : Type} `{PageAlloc P} (base_page_dir ram_pages : Z).
Implicit Types (s : vm P) (pds : gset Z).

(** No table of [pd] is [pd'] or a table of it. *)
Definition apart (m : gmap Z Z) (pd pd' : Z) : Prop :=
  forall k, 0 <= k < 768 -> word_at m (pd + 4 * k) <> 0 ->
    word_at m (pd + 4 * k) <> pd' - PHYS_BASE + 7 /\
    forall j, 0 <= j < 768 -> word_at m (pd + 4 * k) <> word_at m (pd' + 4 * j).

Record spaces_ok s pds : Prop := {
  so_dir pd : pd ∈ pds -> pd_ok s pd;
  so_apart pd pd' : pd ∈ pds -> pd' ∈ pds -> pd <> pd' -> apart (words s) pd pd';
  so_words a : adjoining (pal s) a 1 -> kernel_page a -> page_words (words s) a;
}.

(** The entry of the page of [va] in [pd] is now [x]; nothing else changed. *)
Definition entries_set pds (m m' : gmap Z Z) (pd va x : Z) : Prop :=
  forall pd' vb, pd' ∈ pds -> 0 <= vb < PHYS_BASE ->
    entry m' pd' vb = if decide (pd' = pd /\ vb / 4096 = va / 4096) then x else entry m pd' vb.

(** Page tables that exist stay where they are. *)
Definition tables_stay pds (m m' : gmap Z Z) : Prop :=
  forall pd va, pd ∈ pds -> 0 <= va < PHYS_BASE -> dir_entry m pd va <> 0 -> dir_entry m' pd va = dir_entry m pd va.

Lemma spaces_page s pds pd : spaces_ok s pds -> pd ∈ pds -> kernel_page pd.
Proof. intros Hs Hpd. pose proof (so_dir _ _ Hs pd Hpd) as Hok. eapply allocated_page; apply Hok. Qed.

(** The table of one directory, seen from another. *)
Lemma table_apart s pds pd pd' va : spaces_ok s pds -> pd ∈ pds -> pd' ∈ pds -> pd <> pd' -> 0 <= va < PHYS_BASE ->
  dir_entry (words s) pd va <> 0 ->
  let pt := table_of (dir_entry (words s) pd va) in
  kernel_page pt /\ pt <> pd' /\
  forall j, 0 <= j < 768 -> word_at (words s) (pd' + 4 * j) <> 0 -> table_of (word_at (words s) (pd' + 4 * j)) <> pt.
Proof.
  intros Hs Hpd Hpd' Hne Hva He pt. destruct (user_indices va Hva) as (Hd & _ & _).
  destruct (table_of_entry s pd _ (so_dir _ _ Hs pd Hpd) Hd He) as (_ & Hk & _ & _ & E). fold (dir_entry (words s) pd va) in *.
  destruct (so_apart _ _ Hs pd pd' Hpd Hpd' Hne (pd_no va) Hd He) as [H1 H2]. fold (dir_entry (words s) pd va) in *.
  split_and!; [done|unfold pt; intros Ept; apply H1; unfold table_of in Ept; lia|].
  intros j Hj Hw Ept. apply (H2 j Hj). unfold pt, table_of in Ept. lia.
Qed.

(** Writing one entry. *)
Lemma spaces_put s pds pd va x : spaces_ok s pds -> pd ∈ pds -> 0 <= va < PHYS_BASE -> dir_entry (words s) pd va <> 0 -> is_u32 x ->
  let s' := set_words (insert (pte_addr (words s) pd va) x) s in
  spaces_ok s' pds /\ entries_set pds (words s) (words s') pd va x /\
  forall pd' k, pd' ∈ pds -> 0 <= k < 768 -> word_at (words s') (pd' + 4 * k) = word_at (words s) (pd' + 4 * k).
Proof.
  intros Hs Hpd Hva He Hx s'. destruct (user_indices va Hva) as (Hd & Ht & _).
  destruct (table_of_entry s pd _ (so_dir _ _ Hs pd Hpd) Hd He) as (Ha & Hk & _ & Hnp & _). fold (dir_entry (words s) pd va) in *.
  remember (table_of (dir_entry (words s) pd va)) as pt eqn:Ept.
  assert (Hother : forall b k, kernel_page b -> b <> pt -> 0 <= k < 1024 -> word_at (words s') (b + 4 * k) = word_at (words s) (b + 4 * k)).
  { intros b k Hb Hne Hk'. unfold s'. simpl. unfold pte_addr. rewrite <- Ept, word_at_insert, decide_False; [done|].
    intros E. apply word_addr_inj in E as [? _]; [congruence|done|done|lia|lia]. }
  assert (Hdir : forall pd' k, pd' ∈ pds -> 0 <= k < 768 -> word_at (words s') (pd' + 4 * k) = word_at (words s) (pd' + 4 * k)).
  { intros pd' k Hin Hk'. apply Hother; [by eapply spaces_page| |lia]. destruct (decide (pd = pd')) as [<-|Hne]; [congruence|].
    destruct (table_apart s pds pd pd' va) as (_ & Hne' & _); try done. by rewrite Ept. }
  split_and!; [|intros pd' vb Hin Hvb|done].
  - split.
    + intros pd' Hin. destruct (decide (pd' = pd)) as [->|Hne]; [by apply (pd_ok_put s pd va x (so_dir _ _ Hs pd Hpd))|].
      destruct (so_dir _ _ Hs pd' Hin) as [H1 H2 H3 H4 H5 H6]. constructor; [done|done| |done| |].
      * intros a Ha'. apply page_words_insert; [done|]. by apply H3.
      * intros k Hk'. rewrite Hdir by done. by apply H5.
      * intros j k Hj Hk'. rewrite !Hdir by done. by apply H6.
    + intros p p' Hp Hp' Hne k Hk'. rewrite Hdir by done. intros Hw. destruct (so_apart _ _ Hs p p' Hp Hp' Hne k Hk' Hw) as [H1 H2].
      split; [done|]. intros j Hj. rewrite Hdir by done. by apply H2.
    + intros a Hadj Hka. apply page_words_insert; [done|]. by apply (so_words _ _ Hs).
  - destruct (decide (pd' = pd)) as [->|Hne].
    + unfold s', pte_addr. rewrite (proj2 (pd_ok_put s pd va x (so_dir _ _ Hs pd Hpd) Hva He Hx) vb Hvb). repeat case_decide; tauto.
    + rewrite decide_False by tauto. destruct (user_indices vb Hvb) as (Hdb & Htb & _). unfold entry, dir_entry. rewrite !Hdir by done.
      destruct (Z.eqb_spec (word_at (words s) (pd' + 4 * pd_no vb)) 0) as [|E0]; [done|].
      destruct (table_of_entry s pd' _ (so_dir _ _ Hs pd' Hin) Hdb E0) as (_ & Hkb & _). apply Hother; [done| |lia].
      destruct (table_apart s pds pd pd' va) as (_ & _ & Hj); try done. rewrite Ept. by apply Hj.
Qed.

Lemma spaces_tlb s pds t : spaces_ok s pds -> spaces_ok (mk_vm (words s) (pal s) (cr3 s) t) pds.
Proof. intros [H1 H2]. split; [intros pd Hpd; by apply pd_ok_tlb, H1|done..]. Qed.

(** Reading an entry through its address. *)
Lemma read_pte s pds pd va : spaces_ok s pds -> pd ∈ pds -> 0 <= va < PHYS_BASE -> dir_entry (words s) pd va <> 0 ->
  get_word (pte_addr (words s) pd va) s = Ret (entry (words s) pd va, s) /\ is_u32 (entry (words s) pd va).
Proof. intros Hs Hpd Hva He. by apply get_pte; [apply (so_dir _ _ Hs)|..]. Qed.

(** The outcome of an operation that replaces one entry. *)
Record set_entry pds s s' (pd va x : Z) : Prop := {
  se_ok : spaces_ok s' pds;
  se_entries : entries_set pds (words s) (words s') pd va x;
  se_tables : tables_stay pds (words s) (words s');
  se_pal : pal s' = pal s;
  se_cr3 : cr3 s' = cr3 s;
}.

(** ** The operations *)

Lemma put_entry s pds pd va x : spaces_ok s pds -> pd ∈ pds -> 0 <= va < PHYS_BASE -> dir_entry (words s) pd va <> 0 -> is_u32 x ->
  exists s', put_word (pte_addr (words s) pd va) x s = Ret (tt, s') /\ set_entry pds s s' pd va x /\ tlb s' = tlb s.
Proof.
  intros Hs Hpd Hva He Hx. destruct (spaces_put s pds pd va x Hs Hpd Hva He Hx) as (Hs' & Hset & Hdir).
  destruct (read_pte s pds pd va Hs Hpd Hva He) as [Eg _]. unfold get_word in Eg.
  eexists. split; [unfold put_word; destruct (words s !! _); [reflexivity|done]|]. split; [|done]. split; try done.
  intros pd' vb Hin Hvb _. unfold dir_entry. apply Hdir; [done|]. exact (proj1 (user_indices vb Hvb)).
Qed.

Lemma invalidate_entry s pds pd : spaces_ok s pds -> pd ∈ pds ->
  exists t, invalidate_pagedir base_page_dir pd s = Ret (tt, mk_vm (words s) (pal s) (cr3 s) t).
Proof.
  intros Hs Hpd. rewrite (invalidate_run base_page_dir s pd); [|by apply (so_dir _ _ Hs)|by eapply spaces_page].
  destruct (_ =? _); [by exists ∅|]. exists (tlb s). by destruct s.
Qed.

Lemma set_entry_tlb pds s s' pd va x t : set_entry pds s s' pd va x -> set_entry pds s (mk_vm (words s') (pal s') (cr3 s') t) pd va x.
Proof. intros [H1 H2 H3 H4 H5]. split; [by apply spaces_tlb|done..]. Qed.

(** An entry without a table reads as 0. *)
Lemma entry_no_table m pd va : dir_entry m pd va = 0 -> entry m pd va = 0.
Proof. intros E. unfold entry. by rewrite E. Qed.

Lemma set_flag_entry s pds flag pd va (on : bool) : spaces_ok s pds -> pd ∈ pds -> 0 <= va < PHYS_BASE ->
  dir_entry (words s) pd va <> 0 -> is_u32 flag ->
  exists s', set_flag base_page_dir flag pd va on s = Ret (tt, s') /\
    set_entry pds s s' pd va (if on then Z.lor (entry (words s) pd va) flag else Z.land (entry (words s) pd va) (unot flag)).
Proof.
  intros Hs Hpd Hva He Hfl. pose proof (so_dir _ _ Hs pd Hpd) as Hok. unfold set_flag.
  rewrite (bind_run _ _ _ _ s) by (by apply lookup_page_found). rewrite (pte_addr_nonzero s) by done. simpl.
  destruct (read_pte s pds pd va Hs Hpd Hva He) as [Eg Hu]. rewrite (bind_run _ _ _ _ s) by exact Eg.
  destruct on.
  - destruct (put_entry s pds pd va (Z.lor (entry (words s) pd va) flag) Hs Hpd Hva He) as (s' & E & Hset & _); [by apply lor_u32|]. eauto.
  - destruct (put_entry s pds pd va (Z.land (entry (words s) pd va) (unot flag)) Hs Hpd Hva He) as (s' & E & Hset & _).
    { by apply land_u32. }
    rewrite (bind_run _ _ _ tt s') by exact E. destruct (invalidate_entry s' pds pd (se_ok _ _ _ _ _ _ Hset) Hpd) as [t Et].
    eexists. split; [exact Et|]. by apply set_entry_tlb.
Qed.

Lemma clear_page_entry s pds pd va : spaces_ok s pds -> pd ∈ pds -> 0 <= va < PHYS_BASE -> va mod PGSIZE = 0 ->
  present (entry (words s) pd va) = true ->
  exists s', pagedir_clear_page base_page_dir pd va s = Ret (tt, s') /\
    set_entry pds s s' pd va (Z.land (entry (words s) pd va) (unot PTE_P)).
Proof.
  intros Hs Hpd Hva Hal Hp. pose proof (so_dir _ _ Hs pd Hpd) as Hok.
  assert (He : dir_entry (words s) pd va <> 0) by (intros E; rewrite (entry_no_table _ _ _ E) in Hp; done).
  unfold pagedir_clear_page. rewrite (bind_run _ _ _ tt s) by (unfold ASSERT; by rewrite pg_ofs_mod, Hal).
  rewrite (bind_run _ _ _ tt s) by (unfold ASSERT, is_user_vaddr; destruct (Z.ltb_spec va PHYS_BASE); [done|lia]).
  rewrite (bind_run _ _ _ _ s) by (by apply lookup_page_found). rewrite (pte_addr_nonzero s) by done. simpl.
  destruct (read_pte s pds pd va Hs Hpd Hva He) as [Eg Hu]. rewrite (bind_run _ _ _ _ s) by exact Eg.
  change (negb (Z.land (entry (words s) pd va) PTE_P =? 0)) with (present (entry (words s) pd va)). rewrite Hp.
  destruct (put_entry s pds pd va (Z.land (entry (words s) pd va) (unot PTE_P)) Hs Hpd Hva He) as (s' & E & Hset & _); [by apply land_u32|].
  rewrite (bind_run _ _ _ tt s') by exact E. destruct (invalidate_entry s' pds pd (se_ok _ _ _ _ _ _ Hset) Hpd) as [t Et].
  eexists. split; [exact Et|]. by apply set_entry_tlb.
Qed.

(** A new table for one directory does not concern the others. *)
Lemma spaces_fresh s s' pds pd va : spaces_ok s pds -> pd ∈ pds -> 0 <= va < PHYS_BASE -> dir_entry (words s) pd va = 0 ->
  pd_ok s' pd -> (forall vb, 0 <= vb < PHYS_BASE -> entry (words s') pd vb = entry (words s) pd vb) -> fresh_table s s' pd va ->
  spaces_ok s' pds /\ tables_stay pds (words s) (words s') /\
  (forall pd' vb, pd' ∈ pds -> 0 <= vb < PHYS_BASE -> entry (words s') pd' vb = entry (words s) pd' vb) /\
  (forall a, allocated (pal s) a -> allocated (pal s') a) /\ same_pool (pal s) (pal s').
Proof.
  intros Hs Hpd Hva He Hok' Hent (a & p' & -> & Hp' & Ha & Hna & Hal & Hpool). destruct (user_indices va Hva) as (Hd & _ & _).
  pose proof (spaces_page _ _ _ Hs Hpd) as Hk. assert (Hane : forall b, allocated (pal s) b -> b <> a) by (by intros b Hb ->).
  assert (Hpda : a <> pd) by (intros ->; apply Hna, (so_dir _ _ Hs pd Hpd)).
  assert (Hdir : forall pd' k, pd' ∈ pds -> 0 <= k < 768 -> word_at (new_table (words s) pd va a) (pd' + 4 * k) =
    if decide (pd' = pd /\ k = pd_no va) then a - PHYS_BASE + 7 else word_at (words s) (pd' + 4 * k)).
  { intros pd' k Hin Hk'. destruct (decide (pd' = pd)) as [->|Hne].
    - rewrite new_table_dir by (done || lia). repeat case_decide; tauto.
    - rewrite new_table_other by (done || lia || (by eapply spaces_page)). rewrite !decide_False; [done|tauto|].
      apply Hane, (so_dir _ _ Hs pd' Hin). }
  assert (Htab : forall pd' k, pd' ∈ pds -> 0 <= k < 768 -> word_at (words s) (pd' + 4 * k) <> 0 -> word_at (words s) (pd' + 4 * k) <> a - PHYS_BASE + 7).
  { intros pd' k Hin Hk' Hw E. destruct (table_of_entry s pd' k (so_dir _ _ Hs pd' Hin) Hk' Hw) as (Hal' & _). apply (Hane _ Hal').
    rewrite E. unfold table_of. lia. }
  split_and!; simpl.
  - split.
    + intros pd' Hin. destruct (decide (pd' = pd)) as [->|Hne]; [done|].
      destruct (so_dir _ _ Hs pd' Hin) as [H1 H2 H3 H4 H5 H6]. constructor; simpl; [done|done| |apply Hal; by right| |].
      * intros b Hb. apply (po_mem _ _ Hok' b Hb).
      * intros k Hk'. rewrite Hdir, decide_False by (done || tauto). intros Hw. destruct (H5 k Hk' Hw) as (pt & ? & ? & ?).
        exists pt. split_and!; [done|apply Hal; by right|done].
      * intros j k Hj Hk'. rewrite !Hdir, !decide_False by (done || tauto). by apply H6.
    + intros p q Hp Hq Hne k Hk'. simpl. rewrite (Hdir p k Hp Hk'). case_decide as Hc.
      * destruct Hc as [-> ->]. intros _. split.
        -- intros E. apply (Hane q); [apply (so_dir _ _ Hs q Hq)|lia].
        -- intros j Hj. rewrite (Hdir q j Hq Hj), decide_False by (intros [? _]; congruence).
           destruct (decide (word_at (words s) (q + 4 * j) = 0)) as [->|Hw]; [unfold kernel_page in Ha; lia|]. intros E. by apply (Htab q j Hq Hj Hw).
      * intros Hw. destruct (so_apart _ _ Hs p q Hp Hq Hne k Hk' Hw) as [H1 H2]. split; [done|]. intros j Hj.
        rewrite (Hdir q j Hq Hj). case_decide; [|by apply H2]. by apply Htab.
    + intros b Hadj Hb. simpl in Hadj. unfold new_table. apply page_words_insert; [destruct Ha as (? & ? & _); unfold PHYS_BASE in *; rewrite PGSIZE_eq in *; urange; lia|].
      apply page_words_fill; [done..|]. intros _. apply (so_words _ _ Hs); [by apply Hpool|done].
  - intros p vb Hp Hvb. unfold dir_entry. destruct (user_indices vb Hvb) as (Hdb & _). rewrite (Hdir p _ Hp Hdb).
    case_decide as Hc; [|done]. destruct Hc as [-> Hc]. rewrite Hc. by fold (dir_entry (words s) pd va).
  - intros p vb Hp Hvb. destruct (decide (p = pd)) as [->|Hne]; [by apply Hent|].
    destruct (user_indices vb Hvb) as (Hdb & Htb & _). unfold entry, dir_entry. rewrite (Hdir p _ Hp Hdb), decide_False by tauto.
    destruct (Z.eqb_spec (word_at (words s) (p + 4 * pd_no vb)) 0) as [|E0]; [done|].
    destruct (table_of_entry s p _ (so_dir _ _ Hs p Hp) Hdb E0) as (Hal' & Hkb & _).
    destruct (so_apart _ _ Hs p pd Hp Hpd Hne (pd_no vb) Hdb E0) as [H1 _].
    rewrite new_table_other by (done || lia || (intros E; apply H1; unfold table_of in E; lia)). by rewrite decide_False by (by apply Hane).
  - intros b Hb. apply Hal. by right.
  - done.
Qed.

(** Mapping a page that is not present. *)
Lemma set_page_entry s pds pd va kpage w : spaces_ok s pds -> pd ∈ pds -> pd <> base_page_dir -> mappable ram_pages va kpage ->
  present (entry (words s) pd va) = false ->
  (pagedir_set_page base_page_dir ram_pages pd va kpage w s = Ret ((false, 0), s) /\ dir_entry (words s) pd va = 0) \/
  exists s', pagedir_set_page base_page_dir ram_pages pd va kpage w s = Ret ((true, pte_addr (words s') pd va), s') /\
    spaces_ok s' pds /\ entries_set pds (words s) (words s') pd va (user_pte kpage w) /\ tables_stay pds (words s) (words s') /\
    dir_entry (words s') pd va <> 0 /\ cr3 s' = cr3 s /\ (forall a, allocated (pal s) a -> allocated (pal s') a) /\
    same_pool (pal s) (pal s').
Proof.
  intros Hs Hpd Hb Hm Hp. pose proof (so_dir _ _ Hs pd Hpd) as Hok. pose proof (ma_user _ _ _ Hm) as Hu. rewrite set_page_checks by done.
  assert (Hwrite : forall s1, spaces_ok s1 pds -> dir_entry (words s1) pd va <> 0 -> present (entry (words s1) pd va) = false ->
    exists s', (e ← get_word (pte_addr (words s1) pd va); ASSERT (Z.land e PTE_P =? 0);; x ← lift (pte_create_user kpage w);
       put_word (pte_addr (words s1) pd va) x;; mret (true, pte_addr (words s1) pd va)) s1 = Ret ((true, pte_addr (words s1) pd va), s') /\
      set_entry pds s1 s' pd va (user_pte kpage w)).
  { intros s1 Hs1 He1 Hp1. destruct (read_pte s1 pds pd va Hs1 Hpd Hu He1) as [Eg _]. rewrite (bind_run _ _ _ _ s1) by exact Eg.
    rewrite (bind_run _ _ _ tt s1) by (unfold ASSERT; unfold present in Hp1; by apply negb_false_iff in Hp1 as ->).
    rewrite (bind_run _ _ _ (user_pte kpage w) s1) by (unfold lift; by rewrite pte_create_user_eq by apply Hm).
    destruct (put_entry s1 pds pd va (user_pte kpage w) Hs1 Hpd Hu He1) as (s' & E & Hset & _); [apply user_pte_page, Hm|].
    exists s'. by rewrite (bind_run _ _ _ tt s') by exact E. }
  destruct (decide (dir_entry (words s) pd va = 0)) as [E0|E0].
  - destruct (lookup_page_create s pd va Hok Hu E0) as [El|(s1 & El & Hok1 & Hd1 & Hc & Ht & Hent & Hf)].
    + left. split; [|done]. by rewrite (bind_run _ _ _ 0 s) by exact El.
    + right. destruct (spaces_fresh s s1 pds pd va Hs Hpd Hu E0 Hok1 Hent Hf) as (Hs1 & Hst & Hes & Hal & Hpool).
      destruct (Hwrite s1 Hs1 Hd1) as (s' & E & [H1 H2 H3 H4 H5]); [by rewrite Hent|]. exists s'.
      assert (Ed : dir_entry (words s') pd va = dir_entry (words s1) pd va) by (by apply H3).
      assert (Ep : pte_addr (words s') pd va = pte_addr (words s1) pd va) by (unfold pte_addr; by rewrite Ed). rewrite Ep.
      split; [rewrite (bind_run _ _ _ _ s1) by exact El; rewrite (pte_addr_nonzero s1) by done; exact E|].
      split_and!; [done| | |by rewrite Ed|congruence|by rewrite H4|by rewrite H4].
      * intros pd' vb Hin Hvb. rewrite H2 by done. case_decide; [done|]. by apply Hes.
      * intros pd' vb Hin Hvb Hne. specialize (Hst pd' vb Hin Hvb Hne). rewrite H3; [done..|by rewrite Hst].
  - right. destruct (Hwrite s Hs E0 Hp) as (s' & E & [H1 H2 H3 H4 H5]). exists s'.
    assert (Ed : dir_entry (words s') pd va = dir_entry (words s) pd va) by (by apply H3).
    assert (Ep : pte_addr (words s') pd va = pte_addr (words s) pd va) by (unfold pte_addr; by rewrite Ed). rewrite Ep.
    split; [rewrite (bind_run _ _ _ _ s) by (by apply lookup_page_found); rewrite (pte_addr_nonzero s) by done; exact E|].
    split_and!; [done..|by rewrite Ed|done|by rewrite H4|by rewrite H4].
Qed.

(** The page allocator has handed out more pages. *)
Lemma spaces_pal s pds p' : spaces_ok s pds -> pages_ok p' -> (forall b, allocated (pal s) b -> allocated p' b) -> same_pool (pal s) p' ->
  spaces_ok (mk_vm (words s) p' (cr3 s) (tlb s)) pds.
Proof.
  intros [H1 H2 H3] Hp Hal Hpool. split; [|done|].
  - intros pd Hpd. destruct (H1 pd Hpd) as [D1 D2 D3 D4 D5 D6]. split; try done; simpl.
    + intros a Ha. apply H3; [apply (Hpool a 1); by apply adjoining_one|by apply (allocated_page p')].
    + by apply Hal.
    + intros k Hk Hw. destruct (D5 k Hk Hw) as (pt & ? & ? & ?). eauto 6.
  - intros a Ha Hk. apply H3; [by apply Hpool|done].
Qed.
End Spaces.
