(* ===== verification/Malloc.v ===== *)
(** * The kernel heap: threads/malloc.c

    Blocks of a descriptor's size are cut from pages called arenas; a page
    starts with its arena header.  [arenas] holds the headers by the address
    of the page; a page without an entry has no valid header, and the checks
    of [block_to_arena] stop there.  A descriptor's free list is the sequence
    of its block addresses.  [bytes] is the memory in which the blocks lie.
    Pages come from any allocator with the interface of PageAlloc.v.  Each
    operation holds the descriptor's lock and is a single step. *)

From S2P Require Import Prelude Vaddr PageAlloc.

Record desc := mk_desc { block_size : Z; blocks_per_arena : Z; free_list : list Z }.

Definition ARENA_MAGIC : Z := 0x9a548eed.
Definition ARENA_SIZE : Z := 12.

(** [a_desc] is the index of the owning descriptor, or none for a big
    block. *)
Record arena := mk_arena { magic : Z; a_desc : option nat; free_cnt : Z }.

Record heap (P : Type) := mk_heap { descs : list desc; arenas : gmap Z arena; bytes : Z -> Z; pages : P }.
Arguments mk_heap {P}.
Arguments descs {P}.
Arguments arenas {P}.
Arguments bytes {P}.
Arguments pages {P}.

(** [memset] and [memcpy] of [n] bytes. *)
Definition set_bytes (p n v : Z) (m : Z -> Z) : Z -> Z := fun a => if (p <=? a) && (a <? p + n) then v else m a.
Definition copy_bytes (dst src n : Z) (m : Z -> Z) : Z -> Z :=
  fun a => if (dst <=? a) && (a <? dst + n) then m (src + (a - dst)) else m a.

(** The loop of [malloc_init] from [size] on; the array has 10 elements. *)
Fixpoint init_descs (fuel : nat) (size : Z) (ds : list desc) : outcome (list desc) :=
  match fuel with
  | O => OutOfFuel
  | S fuel =>
    if size <? PGSIZE / 2 then
      if length ds <? 10 then
        init_descs fuel (size *u 2) (ds ++ [mk_desc size ((PGSIZE - ARENA_SIZE) / size) []])
      else Panic
    else Ret ds
  end.
Definition malloc_init : outcome (list desc) := init_descs 12 16 [].

Section Malloc.
Context {P : Type} `{PageAlloc P}.
Implicit Types h : heap P.

Definition set_descs (f : list desc -> list desc) h : heap P := mk_heap (f (descs h)) (arenas h) (bytes h) (pages h).
Definition set_arenas (f : gmap Z arena -> gmap Z arena) h : heap P := mk_heap (descs h) (f (arenas h)) (bytes h) (pages h).
Definition set_heap_bytes (f : (Z -> Z) -> Z -> Z) h : heap P := mk_heap (descs h) (arenas h) (f (bytes h)) (pages h).

Definition on_pages {A} (m : ST P A) : ST (heap P) A := fun h =>
  match m (pages h) with
  | Ret (a, p) => Ret (a, mk_heap (descs h) (arenas h) (bytes h) p)
  | Panic => Panic
  | OutOfFuel => OutOfFuel
  end.

Definition get_desc (d : nat) : ST (heap P) desc := fun h =>
  match descs h !! d with Some ds => Ret (ds, h) | None => Panic end.
Definition set_free_list (d : nat) (f : list Z -> list Z) : ST (heap P) unit :=
  ds ← get_desc d;
  modify (set_descs (insert d (mk_desc (block_size ds) (blocks_per_arena ds) (f (free_list ds))))).
Definition get_arena (a : Z) : ST (heap P) arena := fun h =>
  match arenas h !! a with Some ar => Ret (ar, h) | None => Panic end.
Definition put_arena (a : Z) (ar : arena) : ST (heap P) unit := modify (set_arenas (insert a ar)).

Definition block_to_arena (b : Z) : ST (heap P) Z :=
  let a := pg_round_down b in
  ASSERT (negb (a =? 0));;
  ar ← get_arena a;
  ASSERT (magic ar =? ARENA_MAGIC);;
  match a_desc ar with
  | Some d => ds ← get_desc d; ASSERT ((pg_ofs b -u ARENA_SIZE) mod block_size ds =? 0);; mret a
  | None => ASSERT (pg_ofs b =? ARENA_SIZE);; mret a
  end.

Definition arena_to_block (a idx : Z) : ST (heap P) Z :=
  ASSERT (negb (a =? 0));;
  ar ← get_arena a;
  ASSERT (magic ar =? ARENA_MAGIC);;
  match a_desc ar with
  | Some d =>
    ds ← get_desc d;
    ASSERT (idx <? blocks_per_arena ds);;
    mret (a +u ARENA_SIZE +u idx *u block_size ds)
  | None => panic
  end.

(** The first descriptor whose blocks are big enough. *)
Fixpoint find_desc (size : Z) (ds : list desc) (d : nat) : option nat :=
  match ds with
  | [] => None
  | x :: ds => if size <=? block_size x then Some d else find_desc size ds (S d)
  end.

(** The loop that adds the [n] blocks from [i] on to the free list. *)
Fixpoint push_blocks (n : nat) (d : nat) (a i : Z) : ST (heap P) unit :=
  match n with
  | O => mret tt
  | S n =>
    b ← arena_to_block a i;
    set_free_list d (fun l => l ++ [b]);;
    push_blocks n d a (i + 1)
  end.

Definition malloc (size : Z) : ST (heap P) Z :=
  if size =? 0 then mret 0
  else
    ds ← gets descs;
    match find_desc size ds 0 with
    | None =>
      let page_cnt := DIV_ROUND_UP (size +u ARENA_SIZE) PGSIZE in
      a ← on_pages (get_pages false page_cnt);
      if a =? 0 then mret 0
      else put_arena a (mk_arena ARENA_MAGIC None page_cnt);; mret (a +u ARENA_SIZE)
    | Some d =>
      ds ← get_desc d;
      ready ← (if bool_decide (free_list ds = []) then
                 a ← on_pages (get_page false);
                 if a =? 0 then mret false
                 else
                   put_arena a (mk_arena ARENA_MAGIC (Some d) (blocks_per_arena ds));;
                   push_blocks (Z.to_nat (blocks_per_arena ds)) d a 0;;
                   mret true
               else mret true);
      if ready : bool then
        ds ← get_desc d;
        match free_list ds with
        | [] => panic
        | b :: _ =>
          set_free_list d tail;;
          a ← block_to_arena b;
          ar ← get_arena a;
          put_arena a (mk_arena (magic ar) (a_desc ar) (free_cnt ar -u 1));;
          mret b
        end
      else mret 0
    end.

Definition calloc (a b : Z) : ST (heap P) Z :=
  let size := a *u b in
  if (size <? a) || (size <? b) then mret 0
  else
    p ← malloc size;
    when (negb (p =? 0)) (modify (set_heap_bytes (set_bytes p size 0)));;
    mret p.

Definition size_of_block (block : Z) : ST (heap P) Z :=
  a ← block_to_arena block;
  ar ← get_arena a;
  match a_desc ar with
  | Some d => ds ← get_desc d; mret (block_size ds)
  | None => mret (PGSIZE *u free_cnt ar -u pg_ofs block)
  end.

(** The loop that takes the [n] blocks from [i] on off the free list;
    [list_remove] of a block that is not on it is an error. *)
Fixpoint remove_blocks (n : nat) (d : nat) (a i : Z) : ST (heap P) unit :=
  match n with
  | O => mret tt
  | S n =>
    b ← arena_to_block a i;
    ds ← get_desc d;
    ASSERT (bool_decide (b ∈ free_list ds));;
    set_free_list d (remove Z.eq_dec b);;
    remove_blocks n d a (i + 1)
  end.

(** [palloc_free_multiple], after which the pages hold 0xcc and no arena. *)
Definition release_arena (a cnt : Z) : ST (heap P) unit :=
  modify (set_arenas (delete a));;
  modify (set_heap_bytes (set_bytes a (PGSIZE * cnt) 0xcc));;
  on_pages (free_pages a cnt).

Definition free (p : Z) : ST (heap P) unit :=
  if p =? 0 then mret tt
  else
    a ← block_to_arena p;
    ar ← get_arena a;
    match a_desc ar with
    | Some d =>
      ds ← get_desc d;
      modify (set_heap_bytes (set_bytes p (block_size ds) 0xcc));;
      set_free_list d (cons p);;
      let cnt := free_cnt ar +u 1 in
      put_arena a (mk_arena (magic ar) (a_desc ar) cnt);;
      if blocks_per_arena ds <=? cnt then
        ASSERT (cnt =? blocks_per_arena ds);;
        remove_blocks (Z.to_nat (blocks_per_arena ds)) d a 0;;
        release_arena a 1
      else mret tt
    | None => release_arena a (free_cnt ar)
    end.

Definition realloc (old_block new_size : Z) : ST (heap P) Z :=
  if new_size =? 0 then free old_block;; mret 0
  else
    new_block ← malloc new_size;
    (if negb (old_block =? 0) && negb (new_block =? 0) then
       old_size ← size_of_block old_block;
       let min_size := if new_size <? old_size then new_size else old_size in
       modify (set_heap_bytes (copy_bytes new_block old_block min_size));;
       free old_block
     else mret tt);;
    mret new_block.
End Malloc.
