(* ===== verification/MallocInv.v ===== *)
(** * The kernel heap: its invariant

    What a sound heap is, which blocks are live in it, and that the steps of
    malloc.c (taking a block from a free list, giving one back, starting an
    arena, returning one) keep it sound. *)

From S2P Require Import Prelude Vaddr PageAlloc Malloc.

(** ** Blocks *)

Record desc_ok (ds : desc) : Prop := {
  do_size : 0 < block_size ds;
  do_count : 1 <= blocks_per_arena ds;
  do_fits : ARENA_SIZE + blocks_per_arena ds * block_size ds <= PGSIZE;
}.

Definition block (ds : desc) (a idx : Z) : Z := a + ARENA_SIZE + idx * block_size ds.

(** The blocks of arena [a] from index [i] on. *)
Fixpoint blocks (ds : desc) (a : Z) (n : nat) (i : Z) : list Z :=
  match n with
  | O => []
  | S n => block ds a i :: blocks ds a n (i + 1)
  end.

(** The number of free blocks of arena [a]. *)
Definition free_in (a : Z) (l : list Z) : Z := length (filter (fun b => pg_round_down b = a) l).

Lemma elem_of_blocks ds a (n : nat) i b : b ∈ blocks ds a n i <-> exists k, i <= k < i + n /\ b = block ds a k.
Proof.
  revert i. induction n as [|n IH]; intros i; cbn [blocks].
  - split; [by intros ?%elem_of_nil|]. intros (k & Hk & _). lia.
  - rewrite elem_of_cons, IH. split.
    + intros [->|(k & Hk & ->)]; [exists i|exists k]; (split; [lia|done]).
    + intros (k & Hk & ->). destruct (decide (k = i)) as [->|]; [by left|right]. exists k. split; [lia|done].
Qed.

Lemma blocks_length ds a n i : length (blocks ds a n i) = n.
Proof. revert i. induction n as [|n IH]; intros i; cbn [blocks length]; [done|]. by rewrite IH. Qed.

Lemma blocks_nodup ds a (n : nat) i : 0 < block_size ds -> NoDup (blocks ds a n i).
Proof.
  intros Hs. revert i. induction n as [|n IH]; intros i; cbn [blocks]; constructor; [|apply IH].
  rewrite elem_of_blocks. intros (k & Hk & E). unfold block in E. nia.
Qed.

Section Address.
Context (ds : desc) (a idx : Z) (Hds : desc_ok ds) (Ha : kernel_page a) (Hi : 0 <= idx < blocks_per_arena ds).

Lemma block_range : a + ARENA_SIZE <= block ds a idx /\ block ds a idx + block_size ds <= a + PGSIZE.
Proof.
  destruct Hds as [H1 H2 H3]. unfold block. split; [nia|]. nia.
Qed.

Lemma block_page : pg_round_down (block ds a idx) = a /\ pg_ofs (block ds a idx) = block ds a idx - a /\
  is_u32 (block ds a idx) /\ a <> 0 /\ block ds a idx <> 0.
Proof.
  pose proof block_range as [H1 H2]. destruct Ha as (Hl & Hh & Hm). pose proof (do_size _ Hds). unfold ARENA_SIZE, PHYS_BASE in *.
  assert (Hu : is_u32 (block ds a idx)) by (urange; lia).
  assert (Em : block ds a idx mod PGSIZE = block ds a idx - a).
  { rewrite PGSIZE_eq in *. pose proof (Z.div_mod a 4096).
    symmetry. apply (Z.mod_unique_pos _ _ (a / 4096)); lia. }
  rewrite pg_round_down_eq, pg_ofs_mod, Em by done. split_and!; [lia|done|done|lia|lia].
Qed.
End Address.

Lemma free_in_cons a b l : free_in a (b :: l) = (if decide (pg_round_down b = a) then 1 else 0) + free_in a l.
Proof. unfold free_in. rewrite filter_cons. case_decide; cbn [length]; lia. Qed.

Lemma free_in_app a l1 l2 : free_in a (l1 ++ l2) = free_in a l1 + free_in a l2.
Proof. unfold free_in. rewrite filter_app, length_app. lia. Qed.

Lemma free_in_none a l : (forall b, b ∈ l -> pg_round_down b <> a) -> free_in a l = 0.
Proof.
  induction l as [|b l IH]; intros Hl; [done|]. rewrite free_in_cons, decide_False by (apply Hl; left). rewrite IH; [done|].
  intros x Hx. apply Hl. by right.
Qed.

Lemma free_in_all a l : (forall b, b ∈ l -> pg_round_down b = a) -> free_in a l = length l.
Proof.
  induction l as [|b l IH]; intros Hl; [done|]. rewrite free_in_cons, decide_True by (apply Hl; left). rewrite IH; [cbn [length]; lia|].
  intros x Hx. apply Hl. by right.
Qed.

(** ** The invariant *)

Section Heap.
Context {P : Type} `{PageAlloc P}.
Implicit Types h : heap P.

(** The pages of an arena. *)
Definition span (ar : arena) : Z := match a_desc ar with Some _ => 1 | None => free_cnt ar end.

Record heap_ok h : Prop := {
  ho_pages : pages_ok (pages h);
  ho_descs d ds : descs h !! d = Some ds -> desc_ok ds;
  ho_nodup d ds : descs h !! d = Some ds -> NoDup (free_list ds);
  ho_magic a ar : arenas h !! a = Some ar -> magic ar = ARENA_MAGIC /\ 0 < span ar;
  ho_alloc a ar b : arenas h !! a = Some ar -> page_range a (span ar) b -> allocated (pages h) b;
  ho_adjoin a ar : arenas h !! a = Some ar -> adjoining (pages h) a (span ar);
  ho_apart a a' ar ar' b : arenas h !! a = Some ar -> arenas h !! a' = Some ar' ->
    page_range a (span ar) b -> page_range a' (span ar') b -> a = a';
  ho_small a ar d : arenas h !! a = Some ar -> a_desc ar = Some d ->
    exists ds, descs h !! d = Some ds /\ free_cnt ar = free_in a (free_list ds);
  ho_free d ds b : descs h !! d = Some ds -> b ∈ free_list ds ->
    exists a ar idx, arenas h !! a = Some ar /\ a_desc ar = Some d /\ 0 <= idx < blocks_per_arena ds /\ b = block ds a idx;
}.

(** The block at [p] of [n] bytes, in arena [a], is in use. *)
Definition live_at h (a : Z) (ar : arena) (p n : Z) : Prop :=
  arenas h !! a = Some ar /\
  match a_desc ar with
  | Some d => exists ds idx, descs h !! d = Some ds /\ 0 <= idx < blocks_per_arena ds /\
      p = block ds a idx /\ p ∉ free_list ds /\ n = block_size ds
  | None => p = a + ARENA_SIZE /\ n = PGSIZE * free_cnt ar - ARENA_SIZE
  end.
Definition live h (p n : Z) : Prop := exists a ar, live_at h a ar p n.

Lemma arena_page h a ar : heap_ok h -> arenas h !! a = Some ar -> kernel_page a /\ allocated (pages h) a.
Proof.
  intros Hok Ha. destruct (ho_magic h Hok a ar Ha) as [_ Hs].
  assert (Hal : allocated (pages h) a) by (apply (ho_alloc h Hok a ar a Ha); exists 0; split; lia).
  split; [|done]. eapply allocated_page, Hal. apply Hok.
Qed.

(** Distinct arenas lie on distinct pages. *)
Lemma arenas_apart h a a' ar ar' : heap_ok h -> arenas h !! a = Some ar -> arenas h !! a' = Some ar' -> a <> a' ->
  a + PGSIZE * span ar <= a' \/ a' + PGSIZE * span ar' <= a.
Proof.
  intros Hok Ha Ha' Hne. destruct (arena_page h a ar Hok Ha) as [(_ & _ & Hm) _], (arena_page h a' ar' Hok Ha') as [(_ & _ & Hm') _].
  destruct (ho_magic h Hok a ar Ha) as [_ Hs], (ho_magic h Hok a' ar' Ha') as [_ Hs']. rewrite PGSIZE_eq in *.
  pose proof (Z.div_mod a 4096). pose proof (Z.div_mod a' 4096).
  assert (E : a = 4096 * (a / 4096)) by lia. assert (E' : a' = 4096 * (a' / 4096)) by lia.
  set (q := a / 4096) in *. set (q' := a' / 4096) in *.
  destruct (decide (q + span ar <= q')); [left; lia|]. destruct (decide (q' + span ar' <= q)); [right; lia|]. exfalso. apply Hne.
  destruct (decide (q <= q')).
  - apply (ho_apart h Hok a a' ar ar' a' Ha Ha'); [exists (q' - q)|exists 0]; (split; [lia|rewrite PGSIZE_eq; lia]).
  - apply (ho_apart h Hok a a' ar ar' a Ha Ha'); [exists 0|exists (q - q')]; (split; [lia|rewrite PGSIZE_eq; lia]).
Qed.

(** A live block lies within its arena. *)
Lemma live_in_arena h a ar p n : heap_ok h -> live_at h a ar p n ->
  a + ARENA_SIZE <= p /\ p + n <= a + PGSIZE * span ar /\ 0 < n /\ p <> 0.
Proof.
  intros Hok [Ha Hp]. destruct (arena_page h a ar Hok Ha) as [Hk _]. destruct (ho_magic h Hok a ar Ha) as [_ Hs].
  unfold span in *. destruct (a_desc ar) as [d|] eqn:Ed.
  - destruct Hp as (ds & idx & Hds & Hi & -> & _ & ->). pose proof (ho_descs h Hok d ds Hds) as Hd.
    destruct (block_range ds a idx Hd Hi). destruct (block_page ds a idx Hd Hk Hi) as (_ & _ & _ & _ & ?).
    pose proof (do_size ds Hd). rewrite PGSIZE_eq in *. split_and!; [done|lia|done|done].
  - destruct Hp as [-> ->]. unfold kernel_page, PHYS_BASE in Hk. unfold ARENA_SIZE. rewrite PGSIZE_eq in *. lia.
Qed.

Lemma arena_end h a ar : heap_ok h -> arenas h !! a = Some ar -> PHYS_BASE <= a /\ a + PGSIZE * span ar <= 2 ^ 32.
Proof.
  intros Hok Ha. destruct (arena_page h a ar Hok Ha) as [(H1 & _) _]. destruct (ho_magic h Hok a ar Ha) as [_ Hs].
  assert (Hl : allocated (pages h) (a + PGSIZE * (span ar - 1))) by (apply (ho_alloc h Hok a ar); [done|]; exists (span ar - 1); split; [lia|done]).
  apply allocated_page in Hl as (_ & H2 & _); [|apply Hok]. rewrite PGSIZE_eq in *. lia.
Qed.

Lemma live_size h p n : heap_ok h -> live h p n -> n < 2 ^ 32.
Proof.
  intros Hok (a & ar & Hl). destruct (live_in_arena h a ar p n Hok Hl) as (H1 & H2 & _). destruct Hl as [Ha _].
  pose proof (arena_end h a ar Hok Ha) as []. unfold PHYS_BASE, ARENA_SIZE in *. lia.
Qed.

(** Live blocks do not overlap. *)
Lemma live_disjoint h p n q k : heap_ok h -> live h p n -> live h q k -> p <> q -> p + n <= q \/ q + k <= p.
Proof.
  intros Hok (a & ar & Hp) (b & br & Hq) Hne.
  pose proof (live_in_arena h a ar p n Hok Hp). pose proof (live_in_arena h b br q k Hok Hq).
  destruct Hp as [Ha Hpa], Hq as [Hb Hqb]. destruct (decide (a = b)) as [<-|Hab].
  - rewrite Ha in Hb. injection Hb as <-. destruct (a_desc ar) as [d|].
    + destruct Hpa as (ds & i & Hds & Hi & -> & _ & ->), Hqb as (ds' & j & Hds' & Hj & -> & _ & ->).
      rewrite Hds in Hds'. injection Hds' as <-. pose proof (do_size ds (ho_descs h Hok d ds Hds)). unfold block in *.
      destruct (Z.lt_trichotomy i j) as [|[->|]]; [left; nia|done|right; nia].
    + destruct Hpa as [-> _], Hqb as [-> _]. done.
  - unfold ARENA_SIZE in *. destruct (arenas_apart h a b ar br Hok Ha Hb Hab); lia.
Qed.

(** ** Reading headers *)

Lemma get_arena_eq h a ar : arenas h !! a = Some ar -> get_arena a h = Ret (ar, h).
Proof. intros E. unfold get_arena. by rewrite E. Qed.
Lemma get_desc_eq h d ds : descs h !! d = Some ds -> get_desc d h = Ret (ds, h).
Proof. intros E. unfold get_desc. by rewrite E. Qed.

Lemma block_to_arena_small h a ar d ds idx : arenas h !! a = Some ar -> a_desc ar = Some d -> magic ar = ARENA_MAGIC ->
  descs h !! d = Some ds -> desc_ok ds -> kernel_page a -> 0 <= idx < blocks_per_arena ds ->
  block_to_arena (block ds a idx) h = Ret (a, h).
Proof.
  intros Ha Ed Em Hd Hds Hk Hi.
  destruct (block_page ds a idx Hds Hk Hi) as (Er & Eo & Hu & Hne & _). pose proof (block_range ds a idx Hds Hi).
  unfold block_to_arena. rewrite Er, Eo.
  rewrite (bind_run _ _ _ tt h) by (unfold ASSERT; by destruct (Z.eqb_spec a 0)).
  rewrite (bind_run _ _ _ _ _ (get_arena_eq h a ar Ha)). rewrite (bind_run _ _ _ tt h) by (unfold ASSERT; by rewrite Em).
  rewrite Ed, (bind_run _ _ _ _ _ (get_desc_eq h d ds Hd)). rewrite (bind_run _ _ _ tt h); [done|].
  unfold ASSERT. assert (E : (block ds a idx - a -u ARENA_SIZE) mod block_size ds =? 0 = true); [|by rewrite E].
  apply Z.eqb_eq. unfold kernel_page, PHYS_BASE, ARENA_SIZE in *. rewrite u32_small by (urange; rewrite PGSIZE_eq in *; lia).
  unfold block, ARENA_SIZE. replace (_ - _ - _) with (idx * block_size ds) by lia. apply Z.mod_mul.
  pose proof (do_size ds Hds). lia.
Qed.

Lemma block_to_arena_big h a ar : heap_ok h -> arenas h !! a = Some ar -> a_desc ar = None ->
  block_to_arena (a + ARENA_SIZE) h = Ret (a, h).
Proof.
  intros Hok Ha Ed. destruct (arena_page h a ar Hok Ha) as [(H1 & H2 & H3) _]. destruct (ho_magic h Hok a ar Ha) as [Em _].
  unfold PHYS_BASE, ARENA_SIZE in *. rewrite PGSIZE_eq in *.
  assert (Hu : is_u32 (a + 12)) by (urange; lia).
  assert (E12 : (a + 12) mod 4096 = 12) by (rewrite Z.add_mod, H3 by lia; done).
  unfold block_to_arena. rewrite pg_round_down_eq, pg_ofs_mod, PGSIZE_eq, E12 by done. replace (a + 12 - 12) with a by lia.
  rewrite (bind_run _ _ _ tt h) by (unfold ASSERT; by destruct (Z.eqb_spec a 0); [lia|]).
  rewrite (bind_run _ _ _ _ _ (get_arena_eq h a ar Ha)). rewrite (bind_run _ _ _ tt h) by (unfold ASSERT; by rewrite Em).
  by rewrite Ed.
Qed.

Lemma arena_to_block_eq h a ar d ds idx : arenas h !! a = Some ar -> a_desc ar = Some d -> magic ar = ARENA_MAGIC ->
  descs h !! d = Some ds -> desc_ok ds -> kernel_page a -> 0 <= idx < blocks_per_arena ds ->
  arena_to_block a idx h = Ret (block ds a idx, h).
Proof.
  intros Ha Ed Em Hd Hds Hk Hi. destruct (block_page ds a idx Hds Hk Hi) as (_ & _ & Hu & Hne & _).
  pose proof (block_range ds a idx Hds Hi). pose proof (do_size ds Hds).
  unfold arena_to_block. rewrite (bind_run _ _ _ tt h) by (unfold ASSERT; by destruct (Z.eqb_spec a 0)).
  rewrite (bind_run _ _ _ _ _ (get_arena_eq h a ar Ha)). rewrite (bind_run _ _ _ tt h) by (unfold ASSERT; by rewrite Em).
  rewrite Ed, (bind_run _ _ _ _ _ (get_desc_eq h d ds Hd)).
  rewrite (bind_run _ _ _ tt h) by (unfold ASSERT; by destruct (Z.ltb_spec idx (blocks_per_arena ds)); [|lia]).
  cbv [mret ST_ret]. do 2 f_equal. unfold block, kernel_page, PHYS_BASE, ARENA_SIZE in *. rewrite PGSIZE_eq in *.
  rewrite (u32_small (idx * _)) by (urange; nia). rewrite (u32_small (a + 12)) by (urange; lia). apply u32_small. done.
Qed.

(** ** Changing a free list *)

Definition with_list (ds : desc) (l : list Z) : desc := mk_desc (block_size ds) (blocks_per_arena ds) l.

(** Descriptor [d] with free list [l]. *)
Definition upd (d : nat) (ds : desc) (l : list Z) h : heap P := set_descs (insert d (with_list ds l)) h.

Lemma upd_lookup d ds l h d' : (d < length (descs h))%nat ->
  descs (upd d ds l h) !! d' = if decide (d' = d) then Some (with_list ds l) else descs h !! d'.
Proof. intros Hd. simpl. rewrite list_lookup_insert. repeat case_decide; try done; lia. Qed.

Lemma upd_upd d ds l l' h : upd d ds l' (upd d ds l h) = upd d ds l' h.
Proof. unfold upd, set_descs. simpl. f_equal. apply list_insert_insert_eq. Qed.

Lemma set_free_list_eq d f ds l h : (d < length (descs h))%nat ->
  set_free_list d f (upd d ds l h) = Ret (tt, upd d ds (f l) h).
Proof.
  intros Hd. unfold set_free_list. rewrite (bind_run _ _ _ (with_list ds l) (upd d ds l h)).
  - by rewrite <- (upd_upd d ds l (f l) h).
  - apply get_desc_eq. rewrite upd_lookup by done. by rewrite decide_True.
Qed.

Lemma upd_self d ds h : descs h !! d = Some ds -> upd d ds (free_list ds) h = h.
Proof. intros E. unfold upd, set_descs. destruct h. simpl in *. rewrite list_insert_id; [done|]. rewrite E. by destruct ds. Qed.

Lemma with_list_ok ds l : desc_ok ds -> desc_ok (with_list ds l).
Proof. intros [? ? ?]. by constructor. Qed.

Lemma push_blocks_eq (n : nat) h a ar d ds l i : arenas h !! a = Some ar -> a_desc ar = Some d -> magic ar = ARENA_MAGIC ->
  (d < length (descs h))%nat -> desc_ok ds -> kernel_page a -> 0 <= i -> i + n <= blocks_per_arena ds ->
  push_blocks n d a i (upd d ds l h) = Ret (tt, upd d ds (l ++ blocks ds a n i) h).
Proof.
  intros Ha Ed Em Hd Hds Hk. revert l i. induction n as [|n IH]; intros l i Hi Hn; cbn [push_blocks blocks].
  - by rewrite app_nil_r.
  - rewrite (bind_run _ _ _ (block ds a i) (upd d ds l h)).
    2:{ apply (arena_to_block_eq _ a ar d (with_list ds l)); [done..| |by apply with_list_ok|done|simpl; lia].
        rewrite upd_lookup by done. by rewrite decide_True. }
    rewrite (bind_run _ _ _ tt (upd d ds (l ++ [block ds a i]) h)) by (by apply (set_free_list_eq d (fun l => l ++ [_]))).
    rewrite IH by lia. by rewrite <- app_assoc.
Qed.

Definition remove_all (bs l : list Z) : list Z := fold_left (fun l b => remove Z.eq_dec b l) bs l.

Lemma elem_of_remove_one x b l : x ∈ remove Z.eq_dec b l <-> x ∈ l /\ x <> b.
Proof.
  rewrite !list_elem_of_In. split.
  - intros Hx. by apply in_remove in Hx.
  - intros [Hx Hne]. by apply in_in_remove.
Qed.

Lemma elem_of_remove_all x bs l : x ∈ remove_all bs l <-> x ∈ l /\ x ∉ bs.
Proof.
  revert l. induction bs as [|b bs IH]; intros l; cbn [remove_all fold_left].
  - split; [intros Hx; split; [done|apply not_elem_of_nil]|tauto].
  - unfold remove_all in IH. rewrite IH, elem_of_remove_one, not_elem_of_cons. tauto.
Qed.

Lemma remove_one_filter b l : remove Z.eq_dec b l = filter (fun x => x <> b) l.
Proof.
  induction l as [|x l IH]; [done|]. rewrite filter_cons. cbn [remove].
  destruct (Z.eq_dec b x); case_decide; try congruence; by rewrite IH.
Qed.

Lemma remove_all_nodup bs l : NoDup l -> NoDup (remove_all bs l).
Proof.
  revert l. induction bs as [|b bs IH]; intros l Hl; [done|]. apply (IH (remove Z.eq_dec b l)).
  rewrite remove_one_filter. by apply NoDup_filter.
Qed.

Lemma free_in_remove_all a bs l : (forall b, b ∈ bs -> pg_round_down b <> a) -> free_in a (remove_all bs l) = free_in a l.
Proof.
  revert l. induction bs as [|b bs IH]; intros l Hb; [done|].
  change (remove_all (b :: bs) l) with (remove_all bs (remove Z.eq_dec b l)). rewrite IH by (intros x Hx; apply Hb; by right).
  unfold free_in. rewrite remove_one_filter, list_filter_filter. do 2 f_equal. apply list_filter_iff. intros x.
  split; [tauto|]. intros E. split; [done|]. intros ->. by apply (Hb b); [left|].
Qed.

Lemma remove_blocks_eq (n : nat) h a ar d ds l i : arenas h !! a = Some ar -> a_desc ar = Some d -> magic ar = ARENA_MAGIC ->
  (d < length (descs h))%nat -> desc_ok ds -> kernel_page a -> 0 <= i -> i + n <= blocks_per_arena ds ->
  (forall b, b ∈ blocks ds a n i -> b ∈ l) ->
  remove_blocks n d a i (upd d ds l h) = Ret (tt, upd d ds (remove_all (blocks ds a n i) l) h).
Proof.
  intros Ha Ed Em Hd Hds Hk. revert l i. induction n as [|n IH]; intros l i Hi Hn Hin; cbn [remove_blocks blocks]; [done|].
  assert (Hlk : descs (upd d ds l h) !! d = Some (with_list ds l)) by (rewrite upd_lookup by done; by rewrite decide_True).
  rewrite (bind_run _ _ _ (block ds a i) (upd d ds l h)).
  2:{ apply (arena_to_block_eq _ a ar d (with_list ds l)); [done..|by apply with_list_ok|done|simpl; lia]. }
  rewrite (bind_run _ _ _ _ _ (get_desc_eq _ _ _ Hlk)).
  rewrite (bind_run _ _ _ tt (upd d ds l h)) by (unfold ASSERT; rewrite bool_decide_true; [done|apply Hin; left]).
  rewrite (bind_run _ _ _ tt (upd d ds (remove Z.eq_dec (block ds a i) l) h)) by (by apply (set_free_list_eq d (remove _ _))).
  apply IH; [lia|lia|]. intros b Hb. apply elem_of_remove_one. split; [apply Hin; by right|].
  apply elem_of_blocks in Hb as (k & Hk' & ->). pose proof (do_size ds Hds). unfold block. nia.
Qed.

(** ** Preservation of the invariant *)

(** Free blocks of an arena are among its blocks. *)
Lemma free_block_arena h d ds b : heap_ok h -> descs h !! d = Some ds -> b ∈ free_list ds ->
  exists ar idx, arenas h !! pg_round_down b = Some ar /\ a_desc ar = Some d /\ 0 <= idx < blocks_per_arena ds /\
    b = block ds (pg_round_down b) idx.
Proof.
  intros Hok Hd Hb. destruct (ho_free h Hok d ds b Hd Hb) as (a & ar & idx & Ha & Ed & Hi & ->).
  destruct (arena_page h a ar Hok Ha) as [Hk _].
  destruct (block_page ds a idx (ho_descs h Hok d ds Hd) Hk Hi) as (-> & _). by exists ar, idx.
Qed.

Lemma free_in_blocks h a d ds : heap_ok h -> descs h !! d = Some ds ->
  filter (fun b => pg_round_down b = a) (free_list ds) ⊆+ blocks ds a (Z.to_nat (blocks_per_arena ds)) 0.
Proof.
  intros Hok Hd. apply NoDup_submseteq; [apply NoDup_filter; by eapply ho_nodup|].
  intros b [<- Hb]%list_elem_of_filter. destruct (free_block_arena h d ds b Hok Hd Hb) as (ar & idx & _ & _ & Hi & E).
  apply elem_of_blocks. exists idx. split; [lia|done].
Qed.

Lemma free_in_le h a d ds : heap_ok h -> descs h !! d = Some ds -> free_in a (free_list ds) <= blocks_per_arena ds.
Proof.
  intros Hok Hd. pose proof (submseteq_length _ _ (free_in_blocks h a d ds Hok Hd)) as Hl.
  rewrite blocks_length in Hl. pose proof (do_count ds (ho_descs h Hok d ds Hd)). unfold free_in. lia.
Qed.

(** Arena [a] with another number of free blocks, descriptor [d] with
    another list. *)
Definition recount (a : Z) (ar : arena) (c : Z) (d : nat) (ds : desc) (l : list Z) h : heap P :=
  set_arenas (insert a (mk_arena (magic ar) (a_desc ar) c)) (upd d ds l h).

Lemma recount_arena h a ar c d ds l a' ar' : arenas h !! a = Some ar ->
  arenas (recount a ar c d ds l h) !! a' = Some ar' ->
  exists ar0, arenas h !! a' = Some ar0 /\ a_desc ar' = a_desc ar0 /\ magic ar' = magic ar0 /\
    free_cnt ar' = if decide (a' = a) then c else free_cnt ar0.
Proof.
  intros Ha. simpl. rewrite lookup_insert. case_decide as E; [subst; intros [= <-]; exists ar|intros E'; exists ar'].
  - by rewrite decide_True.
  - rewrite decide_False by congruence. done.
Qed.

Lemma heap_ok_recount h a ar c d ds l : heap_ok h -> arenas h !! a = Some ar -> a_desc ar = Some d -> descs h !! d = Some ds ->
  NoDup l -> c = free_in a l -> (forall a', a' <> a -> free_in a' l = free_in a' (free_list ds)) ->
  (forall b, b ∈ l -> b ∈ free_list ds \/ exists idx, 0 <= idx < blocks_per_arena ds /\ b = block ds a idx) ->
  heap_ok (recount a ar c d ds l h).
Proof.
  intros Hok Ha Ed Hd Hnd Hc Hoth Hl. pose proof (lookup_lt_Some _ _ _ Hd) as Hlt.
  assert (Hspan : forall a' ar', arenas (recount a ar c d ds l h) !! a' = Some ar' ->
    exists ar0, arenas h !! a' = Some ar0 /\ a_desc ar' = a_desc ar0 /\ magic ar' = magic ar0 /\ span ar' = span ar0 /\
      free_cnt ar' = if decide (a' = a) then c else free_cnt ar0).
  { intros a' ar' (ar0 & H0 & H1 & H2 & H3)%recount_arena; [|done]. exists ar0. split_and!; [done..| |done].
    unfold span. rewrite H1, H3. case_decide; [|done]. subst. assert (ar0 = ar) as -> by congruence. by rewrite Ed. }
  assert (Hds : forall d' ds', descs (recount a ar c d ds l h) !! d' = Some ds' ->
    d' = d /\ ds' = with_list ds l \/ d' <> d /\ descs h !! d' = Some ds').
  { intros d' ds' E. change (descs (recount a ar c d ds l h)) with (descs (upd d ds l h)) in E.
    rewrite upd_lookup in E by done. case_decide; [left; by simplify_eq|by right]. }
  constructor; [apply Hok|..].
  - intros d' ds' [[-> ->]|[_ E]]%Hds; [apply with_list_ok|]; by eapply ho_descs.
  - intros d' ds' [[-> ->]|[_ E]]%Hds; [done|]; by eapply ho_nodup.
  - intros a' ar' (ar0 & H0 & _ & -> & -> & _)%Hspan. by eapply ho_magic.
  - intros a' ar' b (ar0 & H0 & _ & _ & -> & _)%Hspan. intros Hr. by apply (ho_alloc h Hok a' ar0).
  - intros a' ar' (ar0 & H0 & _ & _ & -> & _)%Hspan. by apply (ho_adjoin h Hok a' ar0).
  - intros a1 a2 ar1 ar2 b (ar3 & H3 & _ & _ & -> & _)%Hspan (ar4 & H4 & _ & _ & -> & _)%Hspan. by apply (ho_apart h Hok).
  - intros a' ar' d' (ar0 & H0 & -> & _ & _ & Hf)%Hspan Ed'. destruct (ho_small h Hok a' ar0 d' H0 Ed') as (ds' & Hd' & Hc').
    exists (if decide (d' = d) then with_list ds l else ds').
    change (descs (recount a ar c d ds l h)) with (descs (upd d ds l h)). rewrite upd_lookup by done.
    rewrite Hf. case_decide as E1; case_decide as E2; subst.
    + done.
    + congruence.
    + rewrite Hc'. split; [done|]. rewrite Hd in Hd'. injection Hd' as <-. simpl. by rewrite Hoth.
    + done.
  - intros d' ds' b Hds' Hb. assert (Harena : forall a0 ar0, arenas h !! a0 = Some ar0 ->
      exists ar1, arenas (recount a ar c d ds l h) !! a0 = Some ar1 /\ a_desc ar1 = a_desc ar0).
    { intros a0 ar0 H0. simpl. rewrite lookup_insert. case_decide; [|by eauto]. subst. eexists. split; [done|]. simpl. congruence. }
    apply Hds in Hds' as [[-> ->]|[_ E]].
    + destruct (Hl b Hb) as [Hb'|(idx & Hi & ->)].
      * destruct (ho_free h Hok d ds b Hd Hb') as (a0 & ar0 & idx & H0 & H1 & Hi & ->).
        destruct (Harena a0 ar0 H0) as (ar1 & H2 & H3). exists a0, ar1, idx. split_and!; [done|congruence|lia|simpl; lia|done].
      * destruct (Harena a ar Ha) as (ar1 & H2 & H3). exists a, ar1, idx. split_and!; [done|congruence|lia|simpl; lia|done].
    + destruct (ho_free h Hok d' ds' b E Hb) as (a0 & ar0 & idx & H0 & H1 & Hi & ->).
      destruct (Harena a0 ar0 H0) as (ar1 & H2 & H3). exists a0, ar1, idx. split_and!; [done|congruence|lia|lia|done].
Qed.

(** [q] is a block of arena [a'], live if [d']'s free list were [l'] of it. *)
Definition candidate h (a' : Z) (ar' : arena) (l : nat -> desc -> list Z) (q n : Z) : Prop :=
  arenas h !! a' = Some ar' /\
  match a_desc ar' with
  | Some d' => exists ds' idx, descs h !! d' = Some ds' /\ 0 <= idx < blocks_per_arena ds' /\
      q = block ds' a' idx /\ q ∉ l d' ds' /\ n = block_size ds'
  | None => q = a' + ARENA_SIZE /\ n = PGSIZE * free_cnt ar' - ARENA_SIZE
  end.

Lemma candidate_page h a' ar' l q n : heap_ok h -> candidate h a' ar' l q n -> pg_round_down q = a'.
Proof.
  intros Hok [Ha Hq]. destruct (arena_page h a' ar' Hok Ha) as [Hk _]. destruct (a_desc ar') as [d'|].
  - destruct Hq as (ds' & idx & Hd & Hi & -> & _). by apply block_page; [eapply ho_descs|..].
  - destruct Hq as [-> _]. destruct Hk as (H1 & H2 & H3). unfold PHYS_BASE, ARENA_SIZE in *. rewrite PGSIZE_eq in *.
    rewrite pg_round_down_eq, PGSIZE_eq by (urange; lia). rewrite Z.add_mod, H3 by lia. change ((0 + 12 mod 4096) mod 4096) with 12. lia.
Qed.

Lemma live_recount h a ar c d ds l q n : arenas h !! a = Some ar -> a_desc ar = Some d -> descs h !! d = Some ds ->
  live (recount a ar c d ds l h) q n <->
  exists a' ar', candidate h a' ar' (fun d' ds' => if decide (d' = d) then l else free_list ds') q n.
Proof.
  intros Ha Ed Hd. pose proof (lookup_lt_Some _ _ _ Hd) as Hlt.
  assert (Hdesc : forall d', descs (recount a ar c d ds l h) !! d' = if decide (d' = d) then Some (with_list ds l) else descs h !! d')
    by (intros; by apply upd_lookup).
  split.
  - intros (a' & ar' & Ha' & Hq). destruct (recount_arena h a ar c d ds l a' ar' Ha Ha') as (ar0 & H0 & H1 & _ & H3).
    exists a', ar0. split; [done|]. rewrite H1 in Hq. destruct (a_desc ar0) as [d'|] eqn:Ed0.
    + destruct Hq as (ds' & idx & E & Hi & -> & Hn & ->). rewrite Hdesc in E. destruct (decide (d' = d)) as [->|].
      * injection E as <-. by exists ds, idx.
      * by exists ds', idx.
    + rewrite H3 in Hq. case_decide; [congruence|done].
  - intros (a' & ar' & Ha' & Hq).
    exists a', (if decide (a' = a) then mk_arena (magic ar) (a_desc ar) c else ar'). split.
    { simpl. rewrite lookup_insert. repeat case_decide; congruence. }
    assert (E : a_desc (if decide (a' = a) then mk_arena (magic ar) (a_desc ar) c else ar') = a_desc ar')
      by (case_decide; [|done]; simpl; congruence).
    rewrite E. destruct (a_desc ar') as [d'|] eqn:Ed0.
    + destruct Hq as (ds' & idx & E' & Hi & -> & Hn & ->). exists (if decide (d' = d) then with_list ds l else ds'), idx.
      rewrite Hdesc. destruct (decide (d' = d)) as [->|]; [|done]. rewrite Hd in E'. injection E' as <-. done.
    + rewrite decide_False by congruence. done.
Qed.

(** Taking the first free block of a descriptor. *)
Lemma pop_block h d ds b t : heap_ok h -> descs h !! d = Some ds -> free_list ds = b :: t ->
  exists a ar, arenas h !! a = Some ar /\ a_desc ar = Some d /\ (exists idx, 0 <= idx < blocks_per_arena ds /\ b = block ds a idx) /\
    let h' := recount a ar (free_cnt ar -u 1) d ds t h in
    heap_ok h' /\ (forall n, ~ live h b n) /\ (forall q n, live h' q n <-> live h q n \/ q = b /\ n = block_size ds).
Proof.
  intros Hok Hd El. assert (Hbl : b ∈ free_list ds) by (rewrite El; left).
  destruct (free_block_arena h d ds b Hok Hd Hbl) as (ar & idx & Ha & Ed & Hi & Eb). set (a := pg_round_down b) in *.
  pose proof (ho_nodup h Hok d ds Hd) as Hnd. rewrite El in Hnd. apply NoDup_cons in Hnd as [Hbt Hnd].
  destruct (ho_small h Hok a ar d Ha Ed) as (ds0 & Hd0 & Hc). rewrite Hd in Hd0. injection Hd0 as <-.
  assert (Hcnt : free_cnt ar = 1 + free_in a t) by (rewrite Hc, El, free_in_cons, decide_True by done; done).
  pose proof (free_in_le h a d ds Hok Hd) as Hle. pose proof (do_fits ds (ho_descs h Hok d ds Hd)) as Hfit.
  pose proof (do_size ds (ho_descs h Hok d ds Hd)). unfold ARENA_SIZE in Hfit. rewrite PGSIZE_eq in Hfit.
  assert (0 <= free_in a t) by (unfold free_in; lia).
  exists a, ar. split_and!; [done|done|by exists idx|]. cbv zeta. split_and!.
  - apply heap_ok_recount; [done..| | |].
    + rewrite Hcnt. rewrite u32_small; [lia|]. urange. nia.
    + intros a' Hne. rewrite El, free_in_cons, decide_False; [lia|]. intros E. apply Hne. by rewrite <- E.
    + intros x Hx. left. rewrite El. by right.
  - intros n (a' & ar' & Hl). pose proof (candidate_page h a' ar' (fun _ ds => free_list ds) b n Hok Hl) as E. fold a in E. subst a'.
    destruct Hl as [Ha' Hl]. rewrite Ha in Ha'. injection Ha' as <-. rewrite Ed in Hl.
    destruct Hl as (ds' & i & Hd' & _ & _ & Hn & _). rewrite Hd in Hd'. injection Hd' as <-. done.
  - intros q n. rewrite live_recount by done. split.
    + intros (a' & ar' & Hcand). destruct (decide (q = b)) as [->|Hqb].
      * pose proof (candidate_page h a' ar' _ b n Hok Hcand) as E. fold a in E. subst a'. destruct Hcand as [Ha' Hq].
        rewrite Ha in Ha'. injection Ha' as <-. rewrite Ed in Hq. destruct Hq as (ds' & i & Hd' & _ & _ & _ & ->).
        rewrite Hd in Hd'. injection Hd' as <-. by right.
      * left. exists a', ar'. destruct Hcand as [Ha' Hq]. split; [done|]. destruct (a_desc ar') as [d'|]; [|done].
        destruct Hq as (ds' & i & Hd' & Hi' & -> & Hn & ->). exists ds', i. split_and!; [done|lia|lia|done| |done].
        case_decide; [|done]. subst d'. rewrite Hd in Hd'. injection Hd' as <-. rewrite El. by apply not_elem_of_cons.
    + intros [(a' & ar' & Ha' & Hq)|[-> ->]].
      * exists a', ar'. split; [done|]. destruct (a_desc ar') as [d'|]; [|done].
        destruct Hq as (ds' & i & Hd' & Hi' & -> & Hn & ->). exists ds', i. split_and!; [done|lia|lia|done| |done].
        case_decide; [|done]. subst d'. rewrite Hd in Hd'. injection Hd' as <-. rewrite El in Hn. by apply not_elem_of_cons in Hn as [_ Hn].
      * exists a, ar. split; [done|]. rewrite Ed. exists ds, idx. rewrite decide_True by done. split_and!; try done; lia.
Qed.

(** Giving a block back to its descriptor. *)
Lemma push_block h a ar d ds idx : heap_ok h -> arenas h !! a = Some ar -> a_desc ar = Some d -> descs h !! d = Some ds ->
  0 <= idx < blocks_per_arena ds -> block ds a idx ∉ free_list ds ->
  let b := block ds a idx in
  let h' := recount a ar (free_cnt ar +u 1) d ds (b :: free_list ds) h in
  heap_ok h' /\ (forall q n, live h' q n <-> live h q n /\ q <> b) /\
  free_cnt ar +u 1 = free_in a (b :: free_list ds) /\ free_cnt ar +u 1 <= blocks_per_arena ds.
Proof.
  intros Hok Ha Ed Hd Hi Hn b h'. destruct (arena_page h a ar Hok Ha) as [Hk _]. pose proof (ho_descs h Hok d ds Hd) as Hds.
  destruct (block_page ds a idx Hds Hk Hi) as (Er & _). fold b in Er, Hn.
  destruct (ho_small h Hok a ar d Ha Ed) as (ds0 & Hd0 & Hc). rewrite Hd in Hd0. injection Hd0 as <-.
  pose proof (do_fits ds Hds) as Hfit. pose proof (do_size ds Hds). unfold ARENA_SIZE in Hfit. rewrite PGSIZE_eq in Hfit.
  pose proof (free_in_le h a d ds Hok Hd) as Hle. assert (0 <= free_in a (free_list ds)) by (unfold free_in; lia).
  assert (Ec : free_cnt ar +u 1 = free_in a (b :: free_list ds)).
  { rewrite Hc, free_in_cons, decide_True by done. rewrite u32_small; [lia|]. urange. nia. }
  assert (Hok' : heap_ok h').
  { apply heap_ok_recount; [done..| |done| |].
    - constructor; [done|by eapply ho_nodup].
    - intros a' Hne. rewrite free_in_cons, decide_False by congruence. lia.
    - intros x [->|Hx]%elem_of_cons; [right; by exists idx|by left]. }
  split_and!; [done| |done|].
  - intros q n. unfold h'. rewrite live_recount by done. split.
    + intros (a' & ar' & Hcand). pose proof (candidate_page h a' ar' _ q n Hok Hcand) as Ep. destruct Hcand as [Ha' Hq].
      destruct (a_desc ar') as [d'|] eqn:Ed'.
      * destruct Hq as (ds' & i & Hd' & Hi' & -> & Hq & ->). destruct (decide (d' = d)) as [->|Hdd].
        -- apply not_elem_of_cons in Hq as [Hqb Hq]. split; [|done]. exists a', ar'. split; [done|]. rewrite Ed'.
           rewrite Hd in Hd'. injection Hd' as <-. exists ds, i. split_and!; done || lia.
        -- split; [exists a', ar'; split; [done|]; rewrite Ed'; exists ds', i; split_and!; done || lia|].
           intros E. rewrite E, Er in Ep. subst a'. congruence.
      * split; [exists a', ar'; split; [done|]; by rewrite Ed'|]. intros E. rewrite E, Er in Ep. subst a'. congruence.
    + intros [(a' & ar' & Ha' & Hq) Hqb]. exists a', ar'. split; [done|]. destruct (a_desc ar') as [d'|]; [|done].
      destruct Hq as (ds' & i & Hd' & Hi' & -> & Hq & ->). exists ds', i. split_and!; [done|lia|lia|done| |done].
      case_decide; [|done]. subst d'. rewrite Hd in Hd'. injection Hd' as <-. by apply not_elem_of_cons.
  - rewrite Ec. pose proof (free_in_le h' a d (with_list ds (b :: free_list ds)) Hok') as Hle'. apply Hle'.
    apply lookup_lt_Some in Hd. change (descs h') with (descs (upd d ds (b :: free_list ds) h)).
    rewrite upd_lookup by done. by rewrite decide_True.
Qed.

(** ** New arenas *)

Section New.
Context (h : heap P) (p' : P) (a : Z) (ar : arena).
Context (Hok : heap_ok h) (Hp' : pages_ok p') (Hspan : 0 < span ar).
Context (Hfresh : forall b, page_range a (span ar) b -> kernel_page b /\ ~ allocated (pages h) b).
Context (Halloc : forall b, allocated p' b <-> page_range a (span ar) b \/ allocated (pages h) b).
Context (Hadj : adjoining p' a (span ar)) (Hadj' : forall b n, adjoining p' b n <-> adjoining (pages h) b n).

Lemma new_not_arena : arenas h !! a = None.
Proof.
  destruct (arenas h !! a) as [ar'|] eqn:E; [|done]. exfalso. destruct (arena_page h a ar' Hok E) as [_ Hal].
  apply (Hfresh a); [|done]. exists 0. split; lia.
Qed.

Lemma new_kernel_page : kernel_page a.
Proof. apply Hfresh. exists 0. split; lia. Qed.

Lemma new_lookup a' ar' : <[a := ar]> (arenas h) !! a' = Some ar' -> a' = a /\ ar' = ar \/ a' <> a /\ arenas h !! a' = Some ar'.
Proof. rewrite lookup_insert. case_decide; intros E; [left; by simplify_eq|by right]. Qed.

(** The parts of the invariant that concern pages. *)
Lemma heap_ok_new ds' b : magic ar = ARENA_MAGIC ->
  (forall d ds, ds' !! d = Some ds -> desc_ok ds /\ NoDup (free_list ds)) ->
  (forall a' ar' d, <[a := ar]> (arenas h) !! a' = Some ar' -> a_desc ar' = Some d ->
     exists ds, ds' !! d = Some ds /\ free_cnt ar' = free_in a' (free_list ds)) ->
  (forall d ds b, ds' !! d = Some ds -> b ∈ free_list ds ->
     exists a' ar' idx, <[a := ar]> (arenas h) !! a' = Some ar' /\ a_desc ar' = Some d /\
       0 <= idx < blocks_per_arena ds /\ b = block ds a' idx) ->
  heap_ok (mk_heap ds' (<[a := ar]> (arenas h)) b p').
Proof.
  intros Hm Hd Hs Hf. constructor; simpl; [done|apply Hd|apply Hd| | | | |done|done].
  - intros a' ar' [[-> ->]|[_ E]]%new_lookup; [done|]. by apply (ho_magic h Hok a').
  - intros a' ar' b' [[-> ->]|[_ E]]%new_lookup Hr; apply Halloc; [by left|right]. by apply (ho_alloc h Hok a' ar').
  - intros a' ar' [[-> ->]|[_ E]]%new_lookup; [done|]. apply Hadj'. by apply (ho_adjoin h Hok).
  - intros a1 a2 ar1 ar2 b' [[-> ->]|[_ E1]]%new_lookup [[-> ->]|[_ E2]]%new_lookup H1 H2; [done|..|by apply (ho_apart h Hok a1 a2 ar1 ar2 b')];
      exfalso; apply (Hfresh b'); try done; [by apply (ho_alloc h Hok a2 ar2)|by apply (ho_alloc h Hok a1 ar1)].
Qed.

Lemma live_new_big cnt b : ar = mk_arena ARENA_MAGIC None cnt ->
  let h' := mk_heap (descs h) (<[a := ar]> (arenas h)) b p' in
  heap_ok h' /\ (forall n, ~ live h (a + ARENA_SIZE) n) /\
  forall q n, live h' q n <-> live h q n \/ q = a + ARENA_SIZE /\ n = PGSIZE * cnt - ARENA_SIZE.
Proof.
  intros Ear h'. pose proof new_not_arena as Hna. split_and!.
  - apply heap_ok_new; [by rewrite Ear|..].
    + intros d ds Hd. split; [by eapply ho_descs|by eapply ho_nodup].
    + intros a' ar' d [[-> ->]|[_ E]]%new_lookup Ed; [by rewrite Ear in Ed|]. by apply (ho_small h Hok a' ar').
    + intros d ds x Hd Hx. destruct (ho_free h Hok d ds x Hd Hx) as (a' & ar' & idx & Ha' & R). exists a', ar', idx.
      split; [|done]. rewrite lookup_insert_ne by congruence. done.
  - intros n (a' & ar' & Hl). pose proof (candidate_page h a' ar' (fun _ ds => free_list ds) _ n Hok Hl) as E.
    pose proof new_kernel_page as (H1 & H2 & H3). destruct Hl as [Ha' _]. assert (E' : pg_round_down (a + ARENA_SIZE) = a).
    { unfold PHYS_BASE, ARENA_SIZE in *. rewrite PGSIZE_eq in *. rewrite pg_round_down_eq, PGSIZE_eq by (urange; lia).
      rewrite Z.add_mod, H3 by lia. change ((0 + 12 mod 4096) mod 4096) with 12. lia. }
    congruence.
  - intros q n. split.
    + intros (a' & ar' & [[-> ->]|[_ E]]%new_lookup & Hq).
      * right. by rewrite Ear in Hq.
      * left. by exists a', ar'.
    + intros [(a' & ar' & Ha' & Hq)|[-> ->]].
      * exists a', ar'. split; [simpl; rewrite lookup_insert_ne by congruence; done|done].
      * exists a, ar. split; [apply lookup_insert_eq|]. by rewrite Ear.
Qed.

Lemma live_new_small d ds b : descs h !! d = Some ds -> free_list ds = [] ->
  ar = mk_arena ARENA_MAGIC (Some d) (blocks_per_arena ds) ->
  let l := blocks ds a (Z.to_nat (blocks_per_arena ds)) 0 in
  let h' := mk_heap (<[d := with_list ds l]> (descs h)) (<[a := ar]> (arenas h)) b p' in
  heap_ok h' /\ forall q n, live h' q n <-> live h q n.
Proof.
  intros Hd El Ear l h'. pose proof new_not_arena as Hna. pose proof new_kernel_page as Hk.
  pose proof (ho_descs h Hok d ds Hd) as Hds. pose proof (lookup_lt_Some _ _ _ Hd) as Hlt. pose proof (do_count ds Hds).
  assert (Hl : forall x, x ∈ l <-> exists idx, 0 <= idx < blocks_per_arena ds /\ x = block ds a idx).
  { intros x. unfold l. rewrite elem_of_blocks. split; intros (k & Hk' & ->); exists k; (split; [lia|done]). }
  assert (Hpg : forall x, x ∈ l -> pg_round_down x = a) by (intros x (idx & Hi & ->)%Hl; by apply block_page).
  assert (Hlk : forall d', <[d := with_list ds l]> (descs h) !! d' = if decide (d' = d) then Some (with_list ds l) else descs h !! d')
    by (intros d'; apply (upd_lookup d ds l h); done).
  split.
  - apply heap_ok_new; [by rewrite Ear|..].
    + intros d' ds'. rewrite Hlk. case_decide as E; [intros [= <-]|intros Hd'].
      * split; [by apply with_list_ok|]. apply blocks_nodup, Hds.
      * split; [by eapply ho_descs|by eapply ho_nodup].
    + intros a' ar' d' [[-> ->]|[Hne E]]%new_lookup Ed'; rewrite Hlk.
      * rewrite Ear in Ed' |- *. injection Ed' as <-. exists (with_list ds l). rewrite decide_True by done. split; [done|].
        simpl. rewrite free_in_all by done. unfold l. rewrite blocks_length. lia.
      * destruct (ho_small h Hok a' ar' d' E Ed') as (ds0 & Hd0 & Hc). case_decide as E1; [|by exists ds0].
        subst d'. rewrite Hd in Hd0. injection Hd0 as <-. exists (with_list ds l). split; [done|]. rewrite Hc, El. simpl.
        rewrite (free_in_none a' l); [done|]. intros x Hx ?. apply Hne. rewrite <- (Hpg x Hx). done.
    + intros d' ds' x. rewrite Hlk. case_decide as E; [intros [= <-]|intros Hd'].
      * intros (idx & Hi & ->)%Hl. subst d'. exists a, ar, idx. rewrite lookup_insert_eq, Ear. done.
      * intros Hx. destruct (ho_free h Hok d' ds' x Hd' Hx) as (a' & ar' & idx & Ha' & R). exists a', ar', idx.
        split; [|done]. rewrite lookup_insert_ne by congruence. done.
  - intros q n. split.
    + intros (a' & ar' & [[-> ->]|[Hne E]]%new_lookup & Hq).
      * rewrite Ear in Hq. simpl in Hq. destruct Hq as (ds' & idx & Hd' & Hi & -> & Hn & _). rewrite Hlk, decide_True in Hd' by done.
        injection Hd' as <-. exfalso. apply Hn. apply Hl. by exists idx.
      * exists a', ar'. split; [done|]. destruct (a_desc ar') as [d'|]; [|done].
        destruct Hq as (ds' & idx & Hd' & Hi & -> & Hn & ->). simpl in Hd'. rewrite Hlk in Hd'. case_decide; [|by exists ds', idx].
        subst d'. injection Hd' as <-. exists ds, idx. rewrite El. split_and!; try done; try (simpl in *; lia). apply not_elem_of_nil.
    + intros (a' & ar' & Ha' & Hq). exists a', ar'. split; [simpl; rewrite lookup_insert_ne by congruence; done|].
      destruct (a_desc ar') as [d'|]; [|done]. destruct Hq as (ds' & idx & Hd' & Hi & -> & Hn & ->). simpl. rewrite Hlk.
      case_decide; [|by exists ds', idx]. subst d'. rewrite Hd in Hd'. injection Hd' as <-. exists (with_list ds l), idx.
      split_and!; [done|simpl; lia|simpl; lia|done| |done]. intros Hx%Hpg. destruct (arena_page h a' ar' Hok Ha') as [Hk' _].
      destruct (block_page ds a' idx Hds Hk' Hi) as (E & _). simpl in Hx. change (block (with_list ds l) a' idx) with (block ds a' idx) in Hx. congruence.
Qed.
End New.

(** ** Returning an arena *)

Lemma heap_ok_release h a ar ds' b p' : heap_ok h -> arenas h !! a = Some ar -> pages_ok p' ->
  (forall x, allocated p' x <-> allocated (pages h) x /\ ~ page_range a (span ar) x) ->
  (forall x n, adjoining p' x n <-> adjoining (pages h) x n) ->
  (forall d ds, ds' !! d = Some ds -> desc_ok ds /\ NoDup (free_list ds)) ->
  (forall a' ar' d, a' <> a -> arenas h !! a' = Some ar' -> a_desc ar' = Some d ->
     exists ds, ds' !! d = Some ds /\ free_cnt ar' = free_in a' (free_list ds)) ->
  (forall d ds x, ds' !! d = Some ds -> x ∈ free_list ds ->
     exists a' ar' idx, a' <> a /\ arenas h !! a' = Some ar' /\ a_desc ar' = Some d /\
       0 <= idx < blocks_per_arena ds /\ x = block ds a' idx) ->
  heap_ok (mk_heap ds' (delete a (arenas h)) b p').
Proof.
  intros Hok Ha Hp' Hal Hadj Hd Hs Hf.
  assert (Hlk : forall a' ar', delete a (arenas h) !! a' = Some ar' -> a' <> a /\ arenas h !! a' = Some ar').
  { intros a' ar' [??]%lookup_delete_Some. done. }
  constructor; simpl; [done|apply Hd|apply Hd|..].
  - intros a' ar' [_ E]%Hlk. by apply (ho_magic h Hok a').
  - intros a' ar' x [Hne E]%Hlk Hr. apply Hal. split; [by apply (ho_alloc h Hok a' ar')|].
    intros Hr'. apply Hne. by apply (ho_apart h Hok a' a ar' ar x).
  - intros a' ar' [_ E]%Hlk. apply Hadj. by apply (ho_adjoin h Hok).
  - intros a1 a2 ar1 ar2 x [_ E1]%Hlk [_ E2]%Hlk. by apply (ho_apart h Hok).
  - intros a' ar' d [Hne E]%Hlk Ed. by apply Hs.
  - intros d ds x Hds Hx. destruct (Hf d ds x Hds Hx) as (a' & ar' & idx & Hne & Ha' & R). exists a', ar', idx.
    by rewrite lookup_delete_ne by congruence.
Qed.

Lemma release_arena_run h a cnt : pages_ok (pages h) -> 0 < cnt -> adjoining (pages h) a cnt ->
  (forall b, page_range a cnt b -> allocated (pages h) b) ->
  exists p', release_arena a cnt h = Ret (tt, mk_heap (descs h) (delete a (arenas h)) (set_bytes a (PGSIZE * cnt) 0xcc (bytes h)) p') /\
    pages_ok p' /\ (forall x, allocated p' x <-> allocated (pages h) x /\ ~ page_range a cnt x) /\
    (forall x n, adjoining p' x n <-> adjoining (pages h) x n).
Proof.
  intros Hp Hc Hadj Hal. destruct (free_pages_spec (pages h) a cnt Hp Hc Hadj Hal) as (p' & E & R).
  exists p'. split; [|done]. unfold release_arena, on_pages, mbind, ST_bind, modify. simpl. by rewrite E.
Qed.

(** A big block. *)
Lemma free_big h a ar : heap_ok h -> arenas h !! a = Some ar -> a_desc ar = None ->
  exists h', release_arena a (free_cnt ar) h = Ret (tt, h') /\ heap_ok h' /\
    (forall q k, live h' q k <-> live h q k /\ q <> a + ARENA_SIZE) /\
    bytes h' = set_bytes a (PGSIZE * free_cnt ar) 0xcc (bytes h) /\ arenas h' = delete a (arenas h).
Proof.
  intros Hok Ha Ed. assert (Es : span ar = free_cnt ar) by (unfold span; by rewrite Ed).
  destruct (ho_magic h Hok a ar Ha) as [_ Hs]. rewrite Es in Hs.
  destruct (release_arena_run h a (free_cnt ar) (ho_pages h Hok) Hs) as (p' & E & Hp' & Hal & Hadj).
  { rewrite <- Es. by apply (ho_adjoin h Hok). }
  { intros b. rewrite <- Es. by apply (ho_alloc h Hok). }
  eexists. split; [exact E|]. split_and!; [| |done|done].
  - apply (heap_ok_release h a ar); rewrite ?Es; [done..| | |].
    + intros d ds Hd. split; [by eapply ho_descs|by eapply ho_nodup].
    + intros a' ar' d _ Ha'. by apply (ho_small h Hok a').
    + intros d ds x Hd Hx. destruct (ho_free h Hok d ds x Hd Hx) as (a' & ar' & idx & Ha' & Ed' & R).
      exists a', ar', idx. split; [intros ->; congruence|done].
  - intros q k. split.
    + intros (a' & ar' & Hdel & Hq). simpl in Hdel. apply lookup_delete_Some in Hdel as [Hne Ha']. assert (Hl : live_at h a' ar' q k) by done.
      split; [by exists a', ar'|]. pose proof (candidate_page h a' ar' (fun _ ds => free_list ds) q k Hok Hl) as Ep.
      assert (Hc : candidate h a ar (fun _ ds => free_list ds) (a + ARENA_SIZE) (PGSIZE * free_cnt ar - ARENA_SIZE)) by (split; [done|by rewrite Ed]).
      apply candidate_page in Hc; [|done]. congruence.
    + intros [(a' & ar' & Ha' & Hq) Hne]. exists a', ar'. split; [|done]. simpl. rewrite lookup_delete_ne; [done|].
      intros <-. rewrite Ha in Ha'. injection Ha' as <-. rewrite Ed in Hq. by destruct Hq.
Qed.

(** An arena all of whose blocks are free. *)
Lemma free_arena h a ar d ds : heap_ok h -> arenas h !! a = Some ar -> a_desc ar = Some d -> descs h !! d = Some ds ->
  free_in a (free_list ds) = blocks_per_arena ds ->
  exists h', (remove_blocks (Z.to_nat (blocks_per_arena ds)) d a 0;; release_arena a 1) h = Ret (tt, h') /\ heap_ok h' /\
    (forall q k, live h' q k <-> live h q k) /\ bytes h' = set_bytes a (PGSIZE * 1) 0xcc (bytes h) /\ arenas h' = delete a (arenas h).
Proof.
  intros Hok Ha Ed Hd Hfull. pose proof (ho_descs h Hok d ds Hd) as Hds. destruct (arena_page h a ar Hok Ha) as [Hk _].
  destruct (ho_magic h Hok a ar Ha) as [Em _]. pose proof (lookup_lt_Some _ _ _ Hd) as Hlt. pose proof (do_count ds Hds).
  set (bs := blocks ds a (Z.to_nat (blocks_per_arena ds)) 0).
  assert (Hall : forall b, b ∈ bs <-> b ∈ free_list ds /\ pg_round_down b = a).
  { intros b. rewrite (and_comm (b ∈ _)), <- (list_elem_of_filter (fun b => pg_round_down b = a)).
    symmetry. assert (Hp : filter (fun b => pg_round_down b = a) (free_list ds) ≡ₚ bs); [|by rewrite Hp].
    apply submseteq_length_Permutation; [by eapply free_in_blocks|]. unfold bs. rewrite blocks_length. unfold free_in in Hfull. lia. }
  set (l := remove_all bs (free_list ds)).
  assert (Hl : forall x, x ∈ l <-> x ∈ free_list ds /\ pg_round_down x <> a).
  { intros x. unfold l. rewrite elem_of_remove_all, Hall. tauto. }
  set (h1 := upd d ds l h).
  assert (E1 : remove_blocks (Z.to_nat (blocks_per_arena ds)) d a 0 h = Ret (tt, h1)).
  { rewrite <- (upd_self d ds h Hd) at 1. apply (remove_blocks_eq _ h a ar); try done; [lia|]. intros b Hb. by apply Hall. }
  rewrite (bind_run _ _ _ _ _ E1).
  destruct (release_arena_run h1 a 1) as (p' & E2 & Hp' & Hal & Hadj); [apply Hok|lia| | |].
  { assert (Es : span ar = 1) by (unfold span; by rewrite Ed). rewrite <- Es. by apply (ho_adjoin h Hok). }
  { intros b. assert (Es : span ar = 1) by (unfold span; by rewrite Ed). rewrite <- Es. by apply (ho_alloc h Hok). }
  eexists. split; [exact E2|].
  assert (Hlk : forall d', descs h1 !! d' = if decide (d' = d) then Some (with_list ds l) else descs h !! d')
    by (intros d'; by apply upd_lookup).
  assert (Es : span ar = 1) by (unfold span; by rewrite Ed).
  split_and!; [| |done|done].
  - apply (heap_ok_release h a ar); rewrite ?Es; [done..| | |].
    + intros d' ds'. rewrite Hlk. case_decide; [intros [= <-]|intros Hd'].
      * split; [by apply with_list_ok|]. apply remove_all_nodup. by eapply ho_nodup.
      * split; [by eapply ho_descs|by eapply ho_nodup].
    + intros a' ar' d' Hne Ha' Ed'. destruct (ho_small h Hok a' ar' d' Ha' Ed') as (ds0 & Hd0 & Hc). rewrite Hlk.
      case_decide; [|by exists ds0]. subst d'. rewrite Hd in Hd0. injection Hd0 as <-. exists (with_list ds l). split; [done|].
      rewrite Hc. simpl. symmetry. apply free_in_remove_all. intros b [_ Hb]%Hall. congruence.
    + intros d' ds' x. rewrite Hlk. case_decide; [intros [= <-]|intros Hd'].
      * intros [Hx Hne]%Hl. subst d'. destruct (free_block_arena h d ds x Hok Hd Hx) as (ar' & idx & Ha' & R).
        exists (pg_round_down x), ar', idx. done.
      * intros Hx. destruct (ho_free h Hok d' ds' x Hd' Hx) as (a' & ar' & idx & Ha' & Ed' & R). exists a', ar', idx.
        split; [intros ->; congruence|done].
  - intros q k. split.
    + intros (a' & ar' & Hdel & Hq). simpl in Hdel. apply lookup_delete_Some in Hdel as [Hne Ha']. exists a', ar'. split; [done|].
      destruct (a_desc ar') as [d'|]; [|done]. destruct Hq as (ds' & idx & Hd' & Hi & -> & Hn & ->). simpl in Hd'. rewrite Hlk in Hd'.
      case_decide; [|by exists ds', idx]. subst d'. injection Hd' as <-. exists ds, idx. split_and!; [done|simpl in *; lia|simpl in *; lia|done| |done].
      intros Hx. apply Hn. apply Hl. split; [done|]. destruct (arena_page h a' ar' Hok Ha') as [Hk' _]. simpl in Hi.
      destruct (block_page ds a' idx Hds Hk' Hi) as (E & _). change (block (with_list ds l) a' idx) with (block ds a' idx). congruence.
    + intros (a' & ar' & Ha' & Hq). assert (Hne : a' <> a).
      { intros ->. rewrite Ha in Ha'. injection Ha' as <-. rewrite Ed in Hq. destruct Hq as (ds' & idx & Hd' & Hi & -> & Hn & _).
        rewrite Hd in Hd'. injection Hd' as <-. apply Hn, Hall, elem_of_blocks. exists idx. split; [lia|done]. }
      exists a', ar'. split; [simpl; by rewrite lookup_delete_ne by congruence|].
      destruct (a_desc ar') as [d'|]; [|done]. destruct Hq as (ds' & idx & Hd' & Hi & -> & Hn & ->). simpl. rewrite Hlk.
      case_decide; [|by exists ds', idx]. subst d'. rewrite Hd in Hd'. injection Hd' as <-. exists (with_list ds l), idx.
      split_and!; [done|simpl; lia|simpl; lia|done| |done]. intros [Hx _]%Hl. done.
Qed.
End Heap.
