(* ===== verification/MallocProps.v ===== *)
(** * The kernel heap: correctness

    The heap is a set of live blocks, disjoint from each other.  [malloc]
    adds a block that is large enough, [free] removes one. *)

From S2P Require Import Prelude Vaddr Bitmap Palloc PageAlloc Malloc MallocInv.

Section Heap.
Context {P : Type} `{PageAlloc P}.
Implicit Types h : heap P.

Lemma heap_ok_bytes h f : heap_ok h -> heap_ok (set_heap_bytes f h).
Proof. intros []. by constructor. Qed.

Lemma find_desc_spec size ds k d : find_desc size ds k = Some d ->
  exists x, (k <= d)%nat /\ ds !! (d - k)%nat = Some x /\ size <= block_size x.
Proof.
  revert k. induction ds as [|x ds IH]; intros k; cbn [find_desc]; [done|].
  destruct (Z.leb_spec size (block_size x)).
  - intros [= <-]. exists x. rewrite Nat.sub_diag. split_and!; [lia|done|done].
  - intros (y & Hk & Hy & Hs)%IH. exists y. replace (d - k)%nat with (S (d - S k)) by lia. split_and!; [lia|done|done].
Qed.

(** What [malloc] returns: null with the same live blocks, or a new block. *)
Definition allocates h (size p : Z) h' : Prop :=
  heap_ok h' /\ bytes h' = bytes h /\
  (p = 0 /\ (forall q k, live h' q k <-> live h q k) \/
   p <> 0 /\ exists n, size <= n /\ (forall k, ~ live h p k) /\ forall q k, live h' q k <-> live h q k \/ q = p /\ k = n).

(** The end of [malloc]: a block from a list that is not empty. *)
Lemma malloc_pop h d ds size : heap_ok h -> descs h !! d = Some ds -> free_list ds <> [] -> size <= block_size ds ->
  exists p h', (ds ← get_desc d;
    match free_list ds with
    | [] => panic
    | b :: _ =>
      set_free_list d tail;;
      a ← block_to_arena b;
      ar ← get_arena a;
      put_arena a (mk_arena (magic ar) (a_desc ar) (free_cnt ar -u 1));;
      mret b
    end) h = Ret (p, h') /\ allocates h size p h'.
Proof.
  intros Hok Hd Hne Hs. rewrite (bind_run _ _ _ _ _ (get_desc_eq h d ds Hd)).
  destruct (free_list ds) as [|b t] eqn:El; [done|]. pose proof (ho_descs h Hok d ds Hd) as Hds.
  pose proof (lookup_lt_Some _ _ _ Hd) as Hlt.
  destruct (pop_block h d ds b t Hok Hd El) as (a & ar & Ha & Ed & (idx & Hi & Eb) & Hok' & Hnl & Hl).
  destruct (arena_page h a ar Hok Ha) as [Hk _]. destruct (ho_magic h Hok a ar Ha) as [Em _].
  exists b, (recount a ar (free_cnt ar -u 1) d ds t h).
  rewrite (bind_run _ _ _ tt (upd d ds t h)).
  2:{ rewrite <- (upd_self d ds h Hd) at 1. rewrite set_free_list_eq by done. by rewrite El. }
  rewrite (bind_run _ _ _ a (upd d ds t h)).
  2:{ rewrite Eb. apply (block_to_arena_small _ a ar d (with_list ds t)); [done..| |by apply with_list_ok|done|done].
      rewrite upd_lookup by done. by rewrite decide_True. }
  rewrite (bind_run _ _ _ ar (upd d ds t h)) by (by apply get_arena_eq).
  split; [done|]. split; [done|]. split; [done|]. right.
  destruct (block_page ds a idx Hds Hk Hi) as (_ & _ & _ & _ & H0). rewrite <- Eb in H0.
  split; [done|]. exists (block_size ds). done.
Qed.

Lemma allocates_none h size : heap_ok h -> allocates h size 0 h.
Proof. intros Hok. split; [done|]. split; [done|by left]. Qed.

(** Filling an empty free list from a new arena. *)
Definition refill (d : nat) (ds : desc) : ST (heap P) bool :=
  if bool_decide (free_list ds = []) then
    a ← on_pages (get_page false);
    if a =? 0 then mret false
    else
      put_arena a (mk_arena ARENA_MAGIC (Some d) (blocks_per_arena ds));;
      push_blocks (Z.to_nat (blocks_per_arena ds)) d a 0;;
      mret true
  else mret true.

Lemma refill_run h d ds : heap_ok h -> descs h !! d = Some ds ->
  refill d ds h = Ret (false, h) \/
  exists h1 l, refill d ds h = Ret (true, h1) /\ heap_ok h1 /\ descs h1 !! d = Some (with_list ds l) /\ l <> [] /\
    bytes h1 = bytes h /\ forall q k, live h1 q k <-> live h q k.
Proof.
  intros Hok Hd. pose proof (lookup_lt_Some _ _ _ Hd) as Hlt. pose proof (ho_descs h Hok d ds Hd) as Hds.
  pose proof (do_count ds Hds) as Hcnt. unfold refill. case_bool_decide as El.
  2:{ right. exists h, (free_list ds). split_and!; try done. rewrite Hd. by destruct ds. }
  destruct (get_pages_spec (pages h) false 1 (ho_pages h Hok) ltac:(lia)) as (a & p' & E & Hp' & [[-> ->]|(_ & Hfresh & Hal & Hadj & Hadj')]).
  { left. rewrite (bind_run _ _ _ 0 h); [done|]. unfold on_pages, get_page. rewrite E. by destruct h. }
  right. set (ar := mk_arena ARENA_MAGIC (Some d) (blocks_per_arena ds)).
  destruct (live_new_small h p' a ar Hok Hp' ltac:(done) Hfresh Hal Hadj Hadj' d ds (bytes h) Hd El eq_refl) as [Hok1 Hl1].
  pose proof (new_kernel_page h a ar ltac:(done) Hfresh) as Hk.
  set (l := blocks ds a (Z.to_nat (blocks_per_arena ds)) 0) in *. set (h1 := mk_heap _ _ _ _) in Hok1, Hl1.
  exists h1, l. split; [|split_and!; [done| | |done|done]].
  - set (h0 := mk_heap (descs h) (arenas h) (bytes h) p').
    rewrite (bind_run _ _ _ a h0) by (unfold on_pages, get_page; by rewrite E).
    destruct (Z.eqb_spec a 0); [unfold kernel_page, PHYS_BASE in Hk; lia|].
    rewrite (bind_run _ _ _ tt (set_arenas (insert a ar) h0)) by done.
    rewrite (bind_run _ _ _ tt h1); [done|].
    rewrite <- (upd_self d ds (set_arenas (insert a ar) h0)) at 1 by done. rewrite El.
    rewrite (push_blocks_eq _ (set_arenas (insert a ar) h0) a ar d ds [] 0); try done; [apply lookup_insert_eq|lia].
  - change (descs h1) with (descs (upd d ds l h)). rewrite upd_lookup by done. by rewrite decide_True.
  - intros E0. apply (f_equal length) in E0. unfold l in E0. rewrite blocks_length in E0. simpl in E0. lia.
Qed.

(** A request that some descriptor can serve. *)
Lemma malloc_small h size d : heap_ok h -> size <> 0 -> find_desc size (descs h) 0 = Some d ->
  exists p h', malloc size h = Ret (p, h') /\ allocates h size p h'.
Proof.
  intros Hok Hne Ef. destruct (find_desc_spec size (descs h) 0 d Ef) as (ds & _ & Hd & Hsz). rewrite Nat.sub_0_r in Hd.
  unfold malloc. destruct (Z.eqb_spec size 0); [done|]. rewrite (bind_run _ _ _ (descs h) h) by done. rewrite Ef.
  rewrite (bind_run _ _ _ _ _ (get_desc_eq h d ds Hd)). change (if bool_decide (free_list ds = []) then _ else _) with (refill d ds).
  destruct (refill_run h d ds Hok Hd) as [E|(h1 & l & E & Hok1 & Hd1 & Hl & Hb & Hl1)].
  - exists 0, h. rewrite (bind_run _ _ _ false h) by done. split; [done|]. by apply allocates_none.
  - rewrite (bind_run _ _ _ true h1) by done.
    destruct (malloc_pop h1 d (with_list ds l) size Hok1 Hd1 Hl Hsz) as (p & h' & E' & Hok' & Hb' & R').
    exists p, h'. split; [exact E'|]. split; [done|]. split; [by rewrite Hb', Hb|].
    destruct R' as [[-> R']|(Hp & sz & Hn & Hnl & R')]; [left|right].
    + split; [done|]. intros q k. by rewrite R', Hl1.
    + split; [done|]. exists sz. split_and!; [done|intros k Hx; by apply (Hnl k), Hl1|]. intros q k. by rewrite R', Hl1.
Qed.

(** A request for whole pages. *)
Lemma malloc_big h size : heap_ok h -> 0 < size -> size + ARENA_SIZE + PGSIZE < 2 ^ 32 -> find_desc size (descs h) 0 = None ->
  exists p h', malloc size h = Ret (p, h') /\ allocates h size p h'.
Proof.
  intros Hok Hs Hmax Ef. unfold malloc. destruct (Z.eqb_spec size 0); [lia|]. rewrite (bind_run _ _ _ (descs h) h) by done. rewrite Ef.
  unfold ARENA_SIZE in Hmax. rewrite PGSIZE_eq in Hmax. set (cnt := DIV_ROUND_UP (size +u ARENA_SIZE) PGSIZE).
  assert (Hcnt : 0 <= cnt /\ size + ARENA_SIZE <= PGSIZE * cnt).
  { unfold cnt, DIV_ROUND_UP, ARENA_SIZE. rewrite PGSIZE_eq.
    rewrite (u32_small (size + 12)), (u32_small (size + 12 + 4096)), u32_small by (urange; lia).
    pose proof (Z.div_mod (size + 12 + 4096 - 1) 4096). pose proof (Z.mod_pos_bound (size + 12 + 4096 - 1) 4096).
    split; [apply Z.div_pos; lia|lia]. }
  destruct (get_pages_spec (pages h) false cnt (ho_pages h Hok) ltac:(lia)) as (a & p' & E & Hp' & [[-> ->]|(Hc & Hfresh & Hal & Hadj & Hadj')]).
  - exists 0, h. rewrite (bind_run _ _ _ 0 h) by (unfold on_pages; rewrite E; by destruct h). split; [done|]. by apply allocates_none.
  - set (ar := mk_arena ARENA_MAGIC None cnt).
    destruct (live_new_big h p' a ar Hok Hp' Hc Hfresh Hal Hadj Hadj' cnt (bytes h) eq_refl) as (Hok1 & Hnl & Hl1).
    pose proof (new_kernel_page h a ar Hc Hfresh) as Hk.
    eexists (a + ARENA_SIZE), _. rewrite (bind_run _ _ _ a (mk_heap (descs h) (arenas h) (bytes h) p')) by (unfold on_pages; by rewrite E).
    unfold kernel_page, PHYS_BASE, ARENA_SIZE in *. rewrite PGSIZE_eq in *.
    destruct (Z.eqb_spec a 0); [lia|]. rewrite (bind_run _ _ _ tt (mk_heap (descs h) (<[a := ar]> (arenas h)) (bytes h) p')) by done.
    split; [by rewrite u32_small by (urange; lia)|]. split; [done|]. split; [done|]. right. split; [lia|].
    exists (4096 * cnt - 12). split_and!; [lia|done|done].
Qed.

Lemma malloc_spec h size : heap_ok h -> 0 <= size -> size + ARENA_SIZE + PGSIZE < 2 ^ 32 ->
  exists p h', malloc size h = Ret (p, h') /\ allocates h size p h'.
Proof.
  intros Hok Hs Hmax. destruct (decide (size = 0)) as [->|]; [exists 0, h; split; [done|]; by apply allocates_none|].
  destruct (find_desc size (descs h) 0) as [d|] eqn:Ef; [by eapply malloc_small|]. apply malloc_big; done || lia.
Qed.

(** C7: [malloc] of any size that does not overflow keeps the heap sound.
    It returns null without changing the set of live blocks, or a new block
    of at least the requested size that is disjoint from every live block;
    the contents of live blocks stay as they are. *)
Theorem malloc_correct h size : heap_ok h -> 0 <= size -> size + ARENA_SIZE + PGSIZE < 2 ^ 32 ->
  exists p h', malloc size h = Ret (p, h') /\ allocates h size p h' /\
    forall q k, p <> 0 -> live h q k -> q <> p /\ (q + k <= p \/ p + size <= q).
Proof.
  intros Hok Hs Hmax. destruct (malloc_spec h size Hok Hs Hmax) as (p & h' & E & Hall).
  exists p, h'. split_and!; [done|done|]. intros q k Hp Hq.
  destruct Hall as (Hok' & _ & [[? _]|(_ & n & Hn & Hnl & Hl)]); [done|].
  assert (Hqp : q <> p) by (intros ->; by apply (Hnl k)). split; [done|].
  destruct (live_disjoint h' q k p n Hok') as [?|?]; [apply Hl; by left|apply Hl; by right|done|by left|right; lia].
Qed.

(** Memory outside a live block is not touched by writes within it. *)
Lemma set_bytes_other p n v m x : ~ p <= x < p + n -> set_bytes p n v m x = m x.
Proof. intros Hx. unfold set_bytes. zcases; simpl; done || lia. Qed.

(** The end of [free] for a block of a descriptor. *)
Lemma free_small h a ar d ds idx : heap_ok h -> arenas h !! a = Some ar -> a_desc ar = Some d -> descs h !! d = Some ds ->
  0 <= idx < blocks_per_arena ds -> block ds a idx ∉ free_list ds ->
  exists h', free (block ds a idx) h = Ret (tt, h') /\ heap_ok h' /\
    (forall q k, live h' q k <-> live h q k /\ q <> block ds a idx) /\
    let m := set_bytes (block ds a idx) (block_size ds) 0xcc (bytes h) in
    (bytes h' = m \/ bytes h' = set_bytes a (PGSIZE * 1) 0xcc m /\ arenas h' = delete a (arenas h)).
Proof.
  intros Hok Ha Ed Hd Hi Hn. destruct (arena_page h a ar Hok Ha) as [Hk _]. pose proof (ho_descs h Hok d ds Hd) as Hds.
  destruct (block_page ds a idx Hds Hk Hi) as (_ & _ & _ & _ & H0). destruct (ho_magic h Hok a ar Ha) as [Em _].
  pose proof (lookup_lt_Some _ _ _ Hd) as Hlt. set (b := block ds a idx) in *.
  set (m := set_bytes b (block_size ds) 0xcc (bytes h)). set (hb := set_heap_bytes (set_bytes b (block_size ds) 0xcc) h).
  assert (Hokb : heap_ok hb) by (by apply heap_ok_bytes).
  destruct (push_block hb a ar d ds idx Hokb Ha Ed Hd Hi Hn) as (Hok1 & Hl1 & Hc & Hle). fold b in Hok1, Hl1, Hc.
  set (h1 := recount a ar (free_cnt ar +u 1) d ds (b :: free_list ds) hb) in *.
  unfold free. destruct (Z.eqb_spec b 0); [done|].
  rewrite (bind_run _ _ _ a h) by (by apply (block_to_arena_small h a ar d ds)).
  rewrite (bind_run _ _ _ _ _ (get_arena_eq h a ar Ha)), Ed, (bind_run _ _ _ _ _ (get_desc_eq h d ds Hd)).
  rewrite (bind_run _ _ _ tt hb) by done.
  rewrite (bind_run _ _ _ tt (upd d ds (b :: free_list ds) hb)).
  2:{ rewrite <- (upd_self d ds hb Hd) at 1. by apply (set_free_list_eq d (cons b)). }
  rewrite <- Ed. rewrite (bind_run _ _ _ tt h1) by done.
  destruct (Z.leb_spec (blocks_per_arena ds) (free_cnt ar +u 1)) as [Hfull|].
  2:{ exists h1. split; [done|]. split_and!; [done|done|]. by left. }
  assert (Ha1 : arenas h1 !! a = Some (mk_arena (magic ar) (a_desc ar) (free_cnt ar +u 1))) by apply lookup_insert_eq.
  assert (Hd1 : descs h1 !! d = Some (with_list ds (b :: free_list ds))).
  { change (descs h1) with (descs (upd d ds (b :: free_list ds) h)). rewrite upd_lookup by done. by rewrite decide_True. }
  rewrite (bind_run _ _ _ tt h1) by (unfold ASSERT; by destruct (Z.eqb_spec (free_cnt ar +u 1) (blocks_per_arena ds)); [|lia]).
  destruct (free_arena h1 a _ d (with_list ds (b :: free_list ds)) Hok1 Ha1 Ed Hd1) as (h2 & E2 & Hok2 & Hl2 & Hb2 & Ha2); [simpl; lia|].
  exists h2. split; [exact E2|]. split_and!; [done|intros q k; by rewrite Hl2, Hl1|]. right. split; [exact Hb2|].
  rewrite Ha2. simpl. by rewrite delete_insert_eq.
Qed.

Lemma free_spec h p n : heap_ok h -> live h p n ->
  exists h', free p h = Ret (tt, h') /\ heap_ok h' /\
    (forall q k, live h' q k <-> live h q k /\ q <> p) /\
    (forall q k x, live h' q k -> q <= x < q + k -> bytes h' x = bytes h x).
Proof.
  intros Hok (a & ar & Hl). pose proof Hl as [Ha Hp]. destruct (a_desc ar) as [d|] eqn:Ed.
  - destruct Hp as (ds & idx & Hd & Hi & -> & Hn & ->).
    destruct (free_small h a ar d ds idx Hok Ha Ed Hd Hi Hn) as (h' & E & Hok' & Hl' & Hb).
    exists h'. split_and!; [done..|]. intros q k x Hq Hx. pose proof Hq as (a' & ar' & Hqa).
    pose proof (proj1 (Hl' q k) Hq) as [Hq0 Hne].
    assert (Hdis : ~ block ds a idx <= x < block ds a idx + block_size ds).
    { destruct (live_disjoint h q k (block ds a idx) (block_size ds) Hok Hq0) as [?|?]; [by exists a, ar|done|lia|lia]. }
    destruct Hb as [->|[-> Ear]]; [by apply set_bytes_other|]. rewrite !set_bytes_other; [done|done|].
    destruct Hqa as [Ha' Hq']. rewrite Ear in Ha'. apply lookup_delete_Some in Ha' as [Hna Ha'].
    pose proof (live_in_arena h' a' ar' q k Hok') as Hr. destruct Hr as (H1 & H2 & _); [by split; [rewrite Ear; apply lookup_delete_Some|]|].
    destruct (arenas_apart h a a' ar ar' Hok Ha Ha' Hna); unfold span, ARENA_SIZE in *; rewrite ?Ed in *; lia.
  - destruct Hp as [-> ->]. destruct (free_big h a ar Hok Ha Ed) as (h' & E & Hok' & Hl' & Hb & Ear).
    destruct (live_in_arena h a ar _ _ Hok Hl) as (_ & _ & _ & H0).
    exists h'. split; [|split_and!; [done..|]].
    + unfold free. destruct (Z.eqb_spec (a + ARENA_SIZE) 0); [done|].
      rewrite (bind_run _ _ _ a h) by (by apply (block_to_arena_big h a ar)).
      by rewrite (bind_run _ _ _ _ _ (get_arena_eq h a ar Ha)), Ed.
    + intros q k x (a' & ar' & Hqa) Hx. pose proof (live_in_arena h' a' ar' q k Hok' Hqa) as (H1 & H2 & _).
      destruct Hqa as [Ha' _]. rewrite Ear in Ha'. apply lookup_delete_Some in Ha' as [Hna Ha'].
      rewrite Hb, set_bytes_other; [done|].
      destruct (arenas_apart h a a' ar ar' Hok Ha Ha' Hna); unfold span, ARENA_SIZE in *; rewrite ?Ed in *; lia.
Qed.

(** [free] of a live block, small or big, succeeds (no assertion fails),
    removes exactly that block from the live ones, keeps the heap sound and
    the contents of all other live blocks. *)
Theorem free_correct h p n : heap_ok h -> live h p n ->
  exists h', free p h = Ret (tt, h') /\ heap_ok h' /\
    (forall q k, live h' q k <-> live h q k /\ q <> p) /\
    (forall q k x, live h' q k -> q <= x < q + k -> bytes h' x = bytes h x).
Proof. intros Hok Hl. destruct (free_spec h p n Hok Hl) as (h' & R). by exists h'. Qed.

Lemma size_of_block_eq h p n : heap_ok h -> live h p n -> n < 2 ^ 32 -> size_of_block p h = Ret (n, h).
Proof.
  intros Hok (a & ar & Hl) Hn. pose proof Hl as [Ha Hp]. destruct (arena_page h a ar Hok Ha) as [Hk _].
  destruct (ho_magic h Hok a ar Ha) as [Em Hs]. unfold size_of_block. destruct (a_desc ar) as [d|] eqn:Ed.
  - destruct Hp as (ds & idx & Hd & Hi & -> & _ & ->). pose proof (ho_descs h Hok d ds Hd).
    rewrite (bind_run _ _ _ a h) by (by apply (block_to_arena_small h a ar d ds)).
    by rewrite (bind_run _ _ _ _ _ (get_arena_eq h a ar Ha)), Ed, (bind_run _ _ _ _ _ (get_desc_eq h d ds Hd)).
  - destruct Hp as [-> ->]. rewrite (bind_run _ _ _ a h) by (by apply (block_to_arena_big h a ar)).
    rewrite (bind_run _ _ _ _ _ (get_arena_eq h a ar Ha)), Ed. cbv [mret ST_ret]. do 2 f_equal.
    unfold span in Hs. rewrite Ed in Hs. destruct Hk as (H1 & H2 & H3). unfold ARENA_SIZE in *. rewrite PGSIZE_eq in *.
    rewrite pg_ofs_mod, PGSIZE_eq, (Z.add_mod a), H3 by lia. change ((0 + 12 mod 4096) mod 4096) with 12.
    unfold u32. rewrite Zminus_mod_idemp_l, Z.mod_small; lia.
Qed.

(** [realloc] of a live block to a nonzero size that does not overflow
    either fails, leaving the block and every other live block as it was, or
    replaces the block by one of at least the new size whose contents start
    with those of the old block, up to the smaller of the two sizes. *)
Theorem realloc_correct h p n size : heap_ok h -> live h p n -> 0 < size -> size + ARENA_SIZE + PGSIZE < 2 ^ 32 ->
  exists r h', realloc p size h = Ret (r, h') /\ heap_ok h' /\
    (r = 0 /\ (forall q k, live h' q k <-> live h q k) /\ bytes h' = bytes h \/
     r <> 0 /\ exists n', size <= n' /\
       (forall q k, live h' q k <-> live h q k /\ q <> p \/ q = r /\ k = n') /\
       (forall i, 0 <= i < Z.min size n -> bytes h' (r + i) = bytes h (p + i))).
Proof.
  intros Hok Hl Hs Hmax. pose proof (live_size h p n Hok Hl) as Hn. unfold realloc. destruct (Z.eqb_spec size 0); [lia|].
  destruct (malloc_spec h size Hok ltac:(lia) Hmax) as (r & h1 & E1 & Hok1 & Hb1 & Hcase).
  rewrite (bind_run _ _ _ _ _ E1). destruct Hl as (a & ar & Hla). destruct (live_in_arena h a ar p n Hok Hla) as (_ & _ & Hnpos & Hp0).
  assert (Hl : live h p n) by (by exists a, ar).
  destruct (Z.eqb_spec p 0); [done|]. destruct Hcase as [[-> Hl1]|(Hr & n' & Hn' & Hnl & Hl1)].
  { exists 0, h1. split; [done|]. split; [done|]. by left. }
  destruct (Z.eqb_spec r 0); [done|]. cbn [negb andb].
  assert (Hp1 : live h1 p n) by (apply Hl1; by left). assert (Hr1 : live h1 r n') by (apply Hl1; by right).
  assert (Hpr : p <> r) by (intros ->; by apply (Hnl n)).
  pose proof (live_disjoint h1 p n r n' Hok1 Hp1 Hr1 Hpr) as Hdis.
  set (sz := Z.min size n). set (h2 := set_heap_bytes (copy_bytes r p sz) h1).
  destruct (free_spec h2 p n (heap_ok_bytes h1 _ Hok1) Hp1) as (h3 & E3 & Hok3 & Hl3 & Hb3).
  exists r, h3. rewrite (bind_run _ _ _ tt h3).
  2:{ rewrite (bind_run _ _ _ n h1) by (by apply size_of_block_eq).
      replace (if size <? n then size else n) with sz by (unfold sz; zcases; lia).
      by rewrite (bind_run _ _ _ tt h2) by done. }
  split; [done|]. split; [done|]. right. split; [done|]. exists n'. split_and!; [done| |].
  - intros q k. rewrite Hl3. change (live h2 q k) with (live h1 q k). rewrite Hl1. split.
    + intros [[?|[-> ->]] ?]; [by left|by right].
    + intros [[? ?]|[-> ->]]; [by split; [left|]|]. split; [by right|congruence].
  - intros i Hi. rewrite (Hb3 r n' (r + i)); [|apply Hl3; split; [exact Hr1|congruence]|unfold sz in *; lia].
    simpl. unfold copy_bytes. destruct (Z.leb_spec r (r + i)), (Z.ltb_spec (r + i) (r + sz)); [|lia..].
    simpl. rewrite Hb1. f_equal. lia.
Qed.
End Heap.

(** ** The initial heap *)

Lemma malloc_init_eq : exists ds, malloc_init = Ret ds /\ Forall desc_ok ds /\ Forall (fun d => free_list d = []) ds.
Proof.
  eexists. split; [reflexivity|]. split.
  - repeat (apply Forall_cons; split; [by constructor|]). by apply Forall_nil.
  - by repeat (apply Forall_cons; split; [done|]).
Qed.

Lemma heap_init_ok {P} `{PageAlloc P} ds (p : P) m : malloc_init = Ret ds -> pages_ok p -> heap_ok (mk_heap ds ∅ m p).
Proof.
  intros E Hp. destruct malloc_init_eq as (ds' & E' & Hok & Hnil). rewrite E in E'. injection E' as <-.
  assert (Hd : forall d x, ds !! d = Some x -> desc_ok x /\ free_list x = []).
  { intros d x Hx. split; [by apply (Forall_lookup_1 _ _ _ _ Hok Hx)|by apply (Forall_lookup_1 _ _ _ _ Hnil Hx)]. }
  constructor; simpl; try done.
  - intros d x Hx. by apply (Hd d).
  - intros d x Hx. destruct (Hd d x Hx) as [_ ->]. constructor.
  - intros d x b Hx Hb. destruct (Hd d x Hx) as [_ E0]. rewrite E0 in Hb. by apply elem_of_nil in Hb.
Qed.

(** ** Examples *)

Definition demo_heap : heap palloc :=
  mk_heap (match malloc_init with Ret ds => ds | _ => [] end) ∅ (fun _ => 0) demo_palloc.

Lemma demo_heap_ok : heap_ok demo_heap.
Proof. apply heap_init_ok; [reflexivity|apply demo_palloc_ok]. Qed.

Lemma malloc_correct_witness :
  exists p h', malloc 20 demo_heap = Ret (p, h') /\ allocates demo_heap 20 p h' /\
    forall q k, p <> 0 -> live demo_heap q k -> q <> p /\ (q + k <= p \/ p + 20 <= q).
Proof. apply (malloc_correct demo_heap 20 demo_heap_ok); done. Defined.

(** A heap with one block. *)
Lemma demo_malloc_succeeds h' : malloc 20 demo_heap = Ret (0, h') -> False.
Proof. intros E. vm_compute in E. discriminate E. Qed.

Lemma demo_live : exists p h n, heap_ok h /\ live h p n.
Proof.
  destruct (malloc_small demo_heap 20 1 demo_heap_ok ltac:(done) ltac:(reflexivity)) as (p & h & E & Hok & _ & [[-> _]|(_ & n & Hn & _ & Hl)]).
  - destruct (demo_malloc_succeeds h E).
  - clear E. exists p, h, n. split; [exact Hok|]. apply Hl. by right.
Qed.

Lemma free_correct_witness : exists p n h h', live h p n /\ free p h = Ret (tt, h') /\ ~ live h' p n.
Proof.
  destruct demo_live as (p & h & n & Hok & Hl). destruct (free_correct h p n Hok Hl) as (h' & E & _ & Hl' & _).
  exists p, n, h, h'. split_and!; [exact Hl|exact E|]. intros Hx. by apply Hl' in Hx as [_ ?].
Defined.

Lemma realloc_correct_witness : exists p n h r h', live h p n /\ realloc p 3000 h = Ret (r, h') /\ heap_ok h'.
Proof.
  destruct demo_live as (p & h & n & Hok & Hl).
  destruct (realloc_correct h p n 3000 Hok Hl ltac:(lia) ltac:(done)) as (r & h' & E & Hok' & _).
  exists p, n, h, r, h'. split_and!; [exact Hl|exact E|exact Hok'].
Defined.

(** The overflow check of [calloc] does not catch every overflow: 65537
    elements of 65537 bytes get a block for 131073 bytes. *)
Lemma calloc_overflow : 65537 *u 65537 = 131073 /\
  forall (h : heap palloc), calloc 65537 65537 h =
    (p ← malloc 131073; when (negb (p =? 0)) (modify (set_heap_bytes (set_bytes p 131073 0)));; mret p) h.
Proof. split; reflexivity. Qed.

(** A request for almost 4 GB gets a block of one page. *)
Lemma malloc_wraps : exists h', malloc (2 ^ 32 - 1) demo_heap = Ret (0xc010400c, h') /\
  arenas h' !! 0xc0104000 = Some (mk_arena ARENA_MAGIC None 1).
Proof. eexists. split; [vm_compute; reflexivity|vm_compute; reflexivity]. Qed.
