(* ===== verification/Inode.v ===== *)
(** * Inodes: filesys/inode.c

    The state of the whole file system and the operations of inode.c that do
    not allocate disk space ([inode_create] and [inode_close], which call the
    free map, are in FreeMap.v).  Structures of the heap that the code shares
    ([struct inode], [struct file]) are kept in maps from addresses, so that
    two openers of an inode see the same counters.  The list [open_inodes]
    is the sequence of its addresses.

    [malloc] is a supply of fresh addresses with a sequence [mallocs] that
    says which of the following calls fail ([false]); calls after its end
    succeed.  Theorems hold for every such sequence. *)

From S2P Require Import Prelude Vaddr Bitmap Bytes Disk.

(** ** Data *)

Definition INODE_MAGIC : Z := 0x494e4f44.

(** [struct inode_disk], with [unused] as bytes. *)
Record inode_disk := mk_inode_disk { start : Z; i_length : Z; magic : Z; unused : list Z }.

(** [struct inode]; [elem] is its place in [open_inodes]. *)
Record struct_inode := mk_inode {
  i_sector : Z; open_cnt : Z; removed : bool; deny_write_cnt : Z; data : inode_disk }.

(** [struct file]. *)
Record file := mk_file { f_inode : Z; pos : Z; deny_write : bool }.

Record fs := mk_fs {
  filesys_disk : disk;
  inodes : gmap Z struct_inode;
  open_inodes : list Z;
  free_map : bitmap;
  files : gmap Z file;
  free_map_file : option Z;
  mallocs : list bool;
  next_addr : Z }.

Definition set_disk (d : disk) (s : fs) : fs :=
  mk_fs d (inodes s) (open_inodes s) (free_map s) (files s) (free_map_file s) (mallocs s) (next_addr s).
Definition set_inodes (m : gmap Z struct_inode) (s : fs) : fs :=
  mk_fs (filesys_disk s) m (open_inodes s) (free_map s) (files s) (free_map_file s) (mallocs s) (next_addr s).
Definition set_open (l : list Z) (s : fs) : fs :=
  mk_fs (filesys_disk s) (inodes s) l (free_map s) (files s) (free_map_file s) (mallocs s) (next_addr s).
Definition set_free_map (b : bitmap) (s : fs) : fs :=
  mk_fs (filesys_disk s) (inodes s) (open_inodes s) b (files s) (free_map_file s) (mallocs s) (next_addr s).
Definition set_files (m : gmap Z file) (s : fs) : fs :=
  mk_fs (filesys_disk s) (inodes s) (open_inodes s) (free_map s) m (free_map_file s) (mallocs s) (next_addr s).
Definition set_free_map_file (f : option Z) (s : fs) : fs :=
  mk_fs (filesys_disk s) (inodes s) (open_inodes s) (free_map s) (files s) f (mallocs s) (next_addr s).
Definition set_heap (m : list bool) (n : Z) (s : fs) : fs :=
  mk_fs (filesys_disk s) (inodes s) (open_inodes s) (free_map s) (files s) (free_map_file s) m n.

(** An operation of the disk. *)
Definition on_disk {A} (m : ST disk A) : ST fs A := fun s =>
  match m (filesys_disk s) with
  | Ret (a, d) => Ret (a, set_disk d s)
  | Panic => Panic
  | OutOfFuel => OutOfFuel
  end.

(** [malloc] and [calloc]: a fresh address, or null. *)
Definition malloc : ST fs (option Z) := fun s =>
  match mallocs s with
  | false :: m => Ret (None, set_heap m (next_addr s) s)
  | m => Ret (Some (next_addr s), set_heap (tail m) (next_addr s + 1) s)
  end.

(** [*inode]; an address that holds no inode faults. *)
Definition get_inode (inode : Z) : ST fs struct_inode := fun s =>
  match inodes s !! inode with Some i => Ret (i, s) | None => Panic end.
Definition put_inode (inode : Z) (i : struct_inode) : ST fs unit :=
  modify (fun s => set_inodes (<[inode := i]> (inodes s)) s).

(** The sector [b] seen as a [struct inode_disk]. *)
Definition inode_disk_of (b : list Z) : inode_disk :=
  mk_inode_disk (of_le (slice 0 4 b)) (s32 (of_le (slice 4 4 b))) (of_le (slice 8 4 b)) (drop 12 b).
Definition sector_of (d : inode_disk) : list Z :=
  to_le 4 (start d) ++ to_le 4 (u32 (i_length d)) ++ to_le 4 (magic d) ++ unused d.

(** [size] is an [int]: [DIV_ROUND_UP] is computed with signed arithmetic. *)
Definition bytes_to_sectors (size : Z) : Z := u32 (Z.quot (s32 (s32 (size + DISK_SECTOR_SIZE) - 1)) DISK_SECTOR_SIZE).

Definition inode_length (inode : Z) : ST fs Z := i ← get_inode inode; mret (i_length (data i)).

Definition byte_to_sector (inode pos : Z) : ST fs Z :=
  i ← get_inode inode;
  mret (if pos <? i_length (data i) then start (data i) +u Z.quot pos DISK_SECTOR_SIZE else u32 (-1)).

(** ** Opening *)

Definition inode_init : ST fs unit := modify (set_open []).

Definition inode_reopen (inode : option Z) : ST fs (option Z) :=
  match inode with
  | Some a => i ← get_inode a;
              put_inode a (mk_inode (i_sector i) (s32 (open_cnt i + 1)) (removed i) (deny_write_cnt i) (data i));;
              mret inode
  | None => mret None
  end.

Definition inode_get_inumber (inode : Z) : ST fs Z := i ← get_inode inode; mret (i_sector i).

(** The loop over [open_inodes]. *)
Fixpoint find_open (sector : Z) (l : list Z) : ST fs (option Z) :=
  match l with
  | [] => mret None
  | a :: l => i ← get_inode a;
              if i_sector i =? sector then mret (Some a) else find_open sector l
  end.

Definition inode_open (sector : Z) : ST fs (option Z) :=
  l ← gets open_inodes;
  found ← find_open sector l;
  match found with
  | Some a => inode_reopen (Some a);; mret (Some a)
  | None =>
    m ← malloc;
    match m with
    | None => mret None
    | Some a =>
      modify (fun s => set_open (a :: open_inodes s) s);;
      b ← on_disk (disk_read sector);
      put_inode a (mk_inode sector 1 false 0 (inode_disk_of b));;
      mret (Some a)
    end
  end.

Definition inode_remove (inode : Z) : ST fs unit :=
  i ← get_inode inode;
  put_inode inode (mk_inode (i_sector i) (open_cnt i) true (deny_write_cnt i) (data i)).

Definition inode_deny_write (inode : Z) : ST fs unit :=
  i ← get_inode inode;
  let n := s32 (deny_write_cnt i + 1) in
  put_inode inode (mk_inode (i_sector i) (open_cnt i) (removed i) n (data i));;
  ASSERT (n <=? open_cnt i).

Definition inode_allow_write (inode : Z) : ST fs unit :=
  i ← get_inode inode;
  ASSERT (0 <? deny_write_cnt i);;
  ASSERT (deny_write_cnt i <=? open_cnt i);;
  put_inode inode (mk_inode (i_sector i) (open_cnt i) (removed i) (s32 (deny_write_cnt i - 1)) (data i)).

(** ** Reading and writing

    The sizes of one turn of the loops: where the chunk is within its sector
    and how long it is. *)
Definition sector_ofs (offset : Z) : Z := Z.rem offset DISK_SECTOR_SIZE.
Definition sector_left (offset : Z) : Z := s32 (DISK_SECTOR_SIZE - sector_ofs offset).
Definition chunk_size (len size offset : Z) : Z :=
  let inode_left := s32 (len - offset) in
  let min_left := if inode_left <? sector_left offset then inode_left else sector_left offset in
  if size <? min_left then size else min_left.

(** The bounce buffer is allocated at its first use. *)
Definition need_bounce (bounce : bool) : ST fs bool :=
  if bounce then mret true else m ← malloc; mret (match m with Some _ => true | None => false end).

(** The number of bytes read and the buffer after the call. *)
Fixpoint inode_read_at_loop (fuel : nat) (inode : Z) (buffer : list Z) (size offset bytes_read : Z) (bounce : bool)
    : ST fs (Z * list Z) :=
  match fuel with
  | O => no_fuel
  | S fuel =>
    if size <=? 0 then mret (bytes_read, buffer)
    else
      sector_idx ← byte_to_sector inode offset;
      len ← inode_length inode;
      let chunk := chunk_size len size offset in
      if chunk <=? 0 then mret (bytes_read, buffer)
      else if (sector_ofs offset =? 0) && (chunk =? DISK_SECTOR_SIZE) then
        b ← on_disk (disk_read sector_idx);
        buffer ← put_bytes buffer bytes_read b;
        inode_read_at_loop fuel inode buffer (s32 (size - chunk)) (s32 (offset + chunk)) (s32 (bytes_read + chunk)) bounce
      else
        have ← need_bounce bounce;
        if (have : bool) then
          b ← on_disk (disk_read sector_idx);
          c ← get_bytes b (sector_ofs offset) chunk;
          buffer ← put_bytes buffer bytes_read c;
          inode_read_at_loop fuel inode buffer (s32 (size - chunk)) (s32 (offset + chunk)) (s32 (bytes_read + chunk)) true
        else mret (bytes_read, buffer)
  end.

(** A turn reads at least one byte: [size] turns and the last test. *)
Definition inode_read_at (inode : Z) (buffer : list Z) (size offset : Z) : ST fs (Z * list Z) :=
  inode_read_at_loop (S (Z.to_nat size)) inode buffer size offset 0 false.

Fixpoint inode_write_at_loop (fuel : nat) (inode : Z) (buffer : list Z) (size offset bytes_written : Z) (bounce : bool)
    : ST fs Z :=
  match fuel with
  | O => no_fuel
  | S fuel =>
    if size <=? 0 then mret bytes_written
    else
      sector_idx ← byte_to_sector inode offset;
      len ← inode_length inode;
      let chunk := chunk_size len size offset in
      if chunk <=? 0 then mret bytes_written
      else if (sector_ofs offset =? 0) && (chunk =? DISK_SECTOR_SIZE) then
        c ← get_bytes buffer bytes_written DISK_SECTOR_SIZE;
        on_disk (disk_write sector_idx c);;
        inode_write_at_loop fuel inode buffer (s32 (size - chunk)) (s32 (offset + chunk)) (s32 (bytes_written + chunk)) bounce
      else
        have ← need_bounce bounce;
        if (have : bool) then
          b ← (if (0 <? sector_ofs offset) || (chunk <? sector_left offset)
               then on_disk (disk_read sector_idx) else mret zero_sector);
          c ← get_bytes buffer bytes_written chunk;
          b ← put_bytes b (sector_ofs offset) c;
          on_disk (disk_write sector_idx b);;
          inode_write_at_loop fuel inode buffer (s32 (size - chunk)) (s32 (offset + chunk)) (s32 (bytes_written + chunk)) true
        else mret bytes_written
  end.

Definition inode_write_at (inode : Z) (buffer : list Z) (size offset : Z) : ST fs Z :=
  i ← get_inode inode;
  if negb (deny_write_cnt i =? 0) then mret 0
  else inode_write_at_loop (S (Z.to_nat size)) inode buffer size offset 0 false.
