(* ===== verification/InodeProps.v ===== *)
(** * Inodes: files as byte ranges of the disk

    The data of an inode is a contiguous range of the bytes of the disk.
    [inode_read_at] and [inode_write_at] are shown to read and write exactly
    the bytes of that range that lie within the file. *)

From S2P Require Import Prelude Vaddr Bitmap Bytes Disk Inode.

(** ** Specification *)

(** The disk as one sequence of bytes. *)
Definition byte_at (d : disk) (a : Z) : Z := byte (sector d (a / 512)) (a mod 512).

(** The contents of the file with header [i]. *)
Definition base_of (i : inode_disk) : Z := 512 * start i.
Definition contents (d : disk) (i : inode_disk) : list Z :=
  (fun p => byte_at d (base_of i + p)) <$> seqZ 0 (i_length i).

(** A header whose data lies within the disk. *)
Record inode_wf (d : disk) (i : inode_disk) : Prop := {
  iw_len : 0 <= i_length i < 2 ^ 31;
  iw_start : 0 <= start i;
  iw_fits : base_of i + i_length i <= 512 * capacity d;
}.

(** How many of [size] bytes at [offset] are in the file. *)
Definition avail (i : inode_disk) (size offset : Z) : Z := Z.max 0 (Z.min size (i_length i - offset)).

(** Only the allocator has run between [s] and [s']. *)
Definition heap_only (s s' : fs) : Prop :=
  exists m n, s' = set_heap m n s /\ next_addr s <= n /\ m `suffix_of` mallocs s.

(** The next allocation succeeds. *)
Definition mem_ok (s : fs) : Prop := head (mallocs s) <> Some false.

(** ** The disk as bytes *)

Lemma sector_addr a k : 0 <= k -> (512 * a + k) / 512 = a + k / 512 /\ (512 * a + k) mod 512 = k mod 512.
Proof.
  intros Hk. replace (512 * a + k) with (k + a * 512) by lia.
  rewrite Z.div_add, Z.mod_add by lia. lia.
Qed.

Lemma byte_at_put d x b a : byte_at (disk_put x b d) a = if a / 512 =? x then byte b (a mod 512) else byte_at d a.
Proof. unfold byte_at. rewrite sector_put. case_decide; zcases; done. Qed.

(** The bytes of a chunk that stays within its sector. *)
Lemma byte_at_chunk d i offset k : 0 <= offset -> 0 <= k -> offset mod 512 + k < 512 ->
  byte_at d (base_of i + offset + k) = byte (sector d (start i + offset / 512)) (offset mod 512 + k).
Proof.
  intros Ho Hk Hs. unfold byte_at, base_of. rewrite <- Z.add_assoc.
  destruct (sector_addr (start i) (offset + k)) as [-> ->]; [lia|].
  assert (offset + k = (offset mod 512 + k) + offset / 512 * 512) as -> by (pose proof (Z.div_mod offset 512); lia).
  pose proof (Z.mod_pos_bound offset 512).
  rewrite Z.div_add, Z.mod_add, (Z.div_small (_ + k)), (Z.mod_small (_ + k)) by lia.
  done.
Qed.

Lemma contents_length d i : 0 <= i_length i -> length (contents d i) = Z.to_nat (i_length i).
Proof. intros. unfold contents. by rewrite length_fmap, length_seqZ. Qed.

Lemma byte_contents d i k : 0 <= k < i_length i -> byte (contents d i) k = byte_at d (base_of i + k).
Proof.
  intros Hk. unfold contents, byte. rewrite nth_lookup, list_lookup_fmap, lookup_seqZ_lt by lia.
  simpl. f_equal. lia.
Qed.

(** ** One turn of the loops *)

Lemma heap_only_refl s : heap_only s s.
Proof. exists (mallocs s), (next_addr s). by destruct s. Qed.

Lemma heap_only_trans s1 s2 s3 : heap_only s1 s2 -> heap_only s2 s3 -> heap_only s1 s3.
Proof.
  intros (m & n & -> & ? & ?) (m' & n' & -> & ? & ?). exists m', n'. split_and!; [done|simpl in *; lia|].
  simpl in *. by etrans.
Qed.

Lemma wp_on_disk {A} (m : ST disk A) s Q :
  wp m (filesys_disk s) (fun a d => Q a (set_disk d s)) -> wp (on_disk m) s Q.
Proof. unfold wp, on_disk. by destruct (m _) as [[a d]| |]. Qed.

Lemma set_disk_same s : set_disk (filesys_disk s) s = s.
Proof. by destruct s. Qed.

Lemma wp_read_disk s x Q : disk_ok (filesys_disk s) -> x < capacity (filesys_disk s) ->
  Q (sector (filesys_disk s) x) s -> wp (on_disk (disk_read x)) s Q.
Proof. intros Hd Hx HQ. apply wp_on_disk, wp_disk_read; [done..|]. by rewrite set_disk_same. Qed.

Lemma wp_write_disk s x b Q : disk_ok (filesys_disk s) -> x < capacity (filesys_disk s) ->
  Q tt (set_disk (disk_put x b (filesys_disk s)) s) -> wp (on_disk (disk_write x b)) s Q.
Proof. intros Hd Hx HQ. by apply wp_on_disk, wp_disk_write. Qed.

Lemma wp_malloc s (Q : option Z -> fs -> Prop) :
  (mem_ok s -> Q (Some (next_addr s)) (set_heap (tail (mallocs s)) (next_addr s + 1) s)) ->
  (~ mem_ok s -> Q None (set_heap (tail (mallocs s)) (next_addr s) s)) -> wp malloc s Q.
Proof.
  intros H1 H2. unfold wp, malloc, mem_ok in *. destruct (mallocs s) as [|[] m]; simpl in *.
  - by apply H1.
  - by apply H1.
  - apply H2. naive_solver.
Qed.

Lemma wp_get_inode s a i Q : inodes s !! a = Some i -> Q i s -> wp (get_inode a) s Q.
Proof. intros H HQ. unfold wp, get_inode. by rewrite H. Qed.

Lemma wp_inode_length s a i Q : inodes s !! a = Some i -> Q (i_length (data i)) s -> wp (inode_length a) s Q.
Proof. intros H HQ. eapply wp_bind, wp_get_inode; [done|]. by apply wp_ret. Qed.

Lemma wp_byte_to_sector s a i p Q : inodes s !! a = Some i ->
  Q (if p <? i_length (data i) then start (data i) +u Z.quot p DISK_SECTOR_SIZE else u32 (-1)) s ->
  wp (byte_to_sector a p) s Q.
Proof. intros H HQ. eapply wp_bind, wp_get_inode; [done|]. by apply wp_ret. Qed.

Lemma wp_need_bounce s bounce (Q : bool -> fs -> Prop) :
  (forall s', heap_only s s' -> Q true s') ->
  (bounce = false -> ~ mem_ok s -> forall s', heap_only s s' -> Q false s') ->
  wp (need_bounce bounce) s Q.
Proof.
  intros H1 H2. destruct bounce; [apply wp_ret, H1, heap_only_refl|].
  assert (Hsuf : tail (mallocs s) `suffix_of` mallocs s)
    by (destruct (mallocs s); [done|apply suffix_cons_r; done]).
  apply wp_bind, wp_malloc; intros Hm; apply wp_ret.
  - apply H1. eexists _, _. split_and!; [done|lia|done].
  - apply H2; [done..|]. eexists _, _. split_and!; [done|lia|done].
Qed.

(** The arithmetic of a turn, without its wrap-around. *)
Lemma chunk_facts d i size offset : inode_wf d i -> 0 <= offset < 2 ^ 31 -> 0 < size < 2 ^ 31 ->
  let c := Z.min size (Z.min (i_length i - offset) (512 - offset mod 512)) in
  sector_ofs offset = offset mod 512 /\ sector_left offset = 512 - offset mod 512 /\
  chunk_size (i_length i) size offset = c /\
  (0 < c -> offset < i_length i /\ 0 <= start i + offset / 512 < capacity d /\ Z.quot offset 512 = offset / 512 /\
   (capacity d <= 2 ^ 28 -> start i +u offset / 512 = start i + offset / 512)).
Proof.
  intros Hi Ho Hs c. unfold sector_ofs, sector_left, chunk_size, sector_left, sector_ofs, DISK_SECTOR_SIZE.
  rewrite Z.rem_mod_nonneg, Z.quot_div_nonneg by lia.
  pose proof (Z.mod_pos_bound offset 512). pose proof (iw_len d i Hi).
  rewrite !s32_small by (urange; lia). split_and!; [done..| |].
  - subst c. zcases; lia.
  - intros Hc. pose proof (iw_fits d i Hi). pose proof (iw_start d i Hi). unfold base_of in *.
    pose proof (Z.div_mod offset 512). pose proof (Z.div_pos offset 512).
    split_and!; [lia..|]. intros. apply u32_small. urange. lia.
Qed.

(** ** Reading *)

(** [n] bytes of the file from [offset] arrive in [buffer] at [at]. *)
Definition filled (d : disk) (i : inode_disk) (offset at_ n : Z) (buffer buffer' : list Z) : Prop :=
  length buffer' = length buffer /\
  forall k, 0 <= k -> byte buffer' k =
    if (at_ <=? k) && (k <? at_ + n) then byte_at d (base_of i + offset + (k - at_)) else byte buffer k.

Lemma filled_none d i offset at_ buffer : filled d i offset at_ 0 buffer buffer.
Proof. split; [done|]. intros k Hk. zcases; simpl; done || lia. Qed.

(** The chunk copied by one turn. *)
Lemma filled_chunk d i offset at_ c buffer : disk_ok d -> 0 <= offset -> 0 <= at_ -> 0 < c ->
  offset mod 512 + c <= 512 -> at_ + c <= length buffer ->
  filled d i offset at_ c buffer (splice at_ (slice (offset mod 512) c (sector d (start i + offset / 512))) buffer).
Proof.
  intros Hd Ho Ha Hc H5 Hl. pose proof (Z.mod_pos_bound offset 512).
  assert (Hs : length (slice (offset mod 512) c (sector d (start i + offset / 512))) = Z.to_nat c).
  { apply slice_length; [lia..|]. rewrite sector_length by done. lia. }
  split; [apply splice_length; lia|]. intros k Hk. rewrite byte_splice by lia. rewrite Hs.
  replace (at_ + Z.to_nat c) with (at_ + c) by lia.
  destruct (Z.leb_spec at_ k), (Z.ltb_spec k (at_ + c)); simpl; try done.
  rewrite byte_slice by lia. by rewrite byte_at_chunk by lia.
Qed.

Lemma filled_trans d i offset at_ c n b1 b2 b3 : 0 <= c -> 0 <= n -> 
  filled d i offset at_ c b1 b2 -> filled d i (offset + c) (at_ + c) n b2 b3 ->
  filled d i offset at_ (c + n) b1 b3.
Proof.
  intros Hc Hn [L1 F1] [L2 F2]. split; [congruence|]. intros k Hk. rewrite F2, F1 by lia.
  zcases; simpl; try lia; try done. all: f_equal; lia.
Qed.

Lemma wp_inode_read_at_loop a i fuel buffer size offset n bounce s :
  inodes s !! a = Some i -> disk_ok (filesys_disk s) -> inode_wf (filesys_disk s) (data i) ->
  0 <= offset < 2 ^ 31 -> 0 <= n -> 0 <= size -> n + size < 2 ^ 31 -> n + size <= length buffer ->
  (Z.to_nat size < fuel)%nat ->
  wp (inode_read_at_loop fuel a buffer size offset n bounce) s (fun r s' => exists m,
    heap_only s s' /\ r.1 = n + m /\ 0 <= m <= avail (data i) size offset /\
    filled (filesys_disk s) (data i) offset n m buffer r.2 /\
    (bounce = true \/ mem_ok s -> m = avail (data i) size offset)).
Proof.
  revert buffer size offset n bounce s.
  induction fuel as [|fuel IH]; intros buffer size offset n bounce s Hi Hd Hw Ho Hn Hs Hb Hl Hf; [lia|].
  cbn [inode_read_at_loop]. unfold avail.
  destruct (Z.leb_spec size 0) as [Hz|Hz].
  { apply wp_ret. exists 0. simpl. split_and!; [apply heap_only_refl|lia..|apply filled_none|lia]. }
  eapply wp_bind, wp_byte_to_sector; [done|]. eapply wp_bind, wp_inode_length; [done|].
  destruct (chunk_facts _ _ size offset Hw Ho ltac:(lia)) as (Eo & El & Ec & Hc). cbv zeta in *.
  pose proof (Z.mod_pos_bound offset 512). rewrite Ec, Eo. unfold DISK_SECTOR_SIZE.
  set (c := Z.min size _) in *.
  destruct (Z.leb_spec c 0) as [Hc0|Hc0].
  { apply wp_ret. exists 0. simpl. split_and!; [apply heap_only_refl|lia..|apply filled_none|lia]. }
  destruct (Hc Hc0) as (Hlt & Hcap & Eq & Eu). specialize (Eu (proj2 (dk_cap _ Hd))).
  destruct (Z.ltb_spec offset (i_length (data i))); [|lia]. rewrite Eq, Eu.
  rewrite !s32_small by (pose proof (iw_len _ _ Hw); urange; lia).
  (* what both branches do after the copy *)
  assert (Hgo : forall s1 bn, heap_only s s1 -> (bounce = true \/ mem_ok s -> bn = true \/ mem_ok s1) ->
    wp (inode_read_at_loop fuel a (splice n (slice (offset mod 512) c
          (sector (filesys_disk s) (start (data i) + offset / 512))) buffer) (size - c) (offset + c) (n + c) bn) s1
      (fun r s' => exists m, heap_only s s' /\ r.1 = n + m /\
        0 <= m <= Z.max 0 (Z.min size (i_length (data i) - offset)) /\
        filled (filesys_disk s) (data i) offset n m buffer r.2 /\
        (bounce = true \/ mem_ok s -> m = Z.max 0 (Z.min size (i_length (data i) - offset))))).
  { intros s1 bn Hh Hbn. pose proof (iw_len _ _ Hw).
    assert (Hfc := filled_chunk (filesys_disk s) (data i) offset n c buffer Hd
       ltac:(lia) ltac:(lia) ltac:(lia) ltac:(lia) ltac:(lia)).
    assert (E1 : filesys_disk s1 = filesys_disk s /\ inodes s1 = inodes s) by (by destruct Hh as (? & ? & -> & _)).
    destruct E1 as [E1 E2].
    eapply wp_mono; [apply IH; rewrite ?E1, ?E2; try done; try lia|].
    { rewrite (proj1 Hfc). lia. }
    intros r s' (m & Hh' & Hr & Hm & Hfm & Hfull). exists (c + m). unfold avail in *. rewrite E1 in Hfm.
    split_and!; [by eapply heap_only_trans|lia..|eapply filled_trans; eauto; lia|].
    intros Hx. rewrite Hfull by auto. lia. }
  destruct (_ && _) eqn:Efull.
  - apply andb_true_iff in Efull as [E0%Z.eqb_eq E512%Z.eqb_eq].
    eapply wp_bind, wp_read_disk; [done|lia|]. apply wp_bind, wp_put_bytes; [lia|rewrite sector_length by done; lia|].
    specialize (Hgo s bounce (heap_only_refl s) ltac:(done)). rewrite E0, E512 in Hgo.
    rewrite (slice_all (sector _ _)) in Hgo by (by rewrite sector_length). by rewrite E512.
  - apply wp_bind, wp_need_bounce.
    + intros s1 Hh.
      assert (E1 : filesys_disk s1 = filesys_disk s) by (by destruct Hh as (? & ? & -> & _)).
      eapply wp_bind, wp_read_disk; [by rewrite E1|rewrite E1; lia|]. rewrite E1.
      apply wp_bind, wp_get_bytes; [lia|rewrite sector_length by done; lia|].
      apply wp_bind, wp_put_bytes; [lia|rewrite slice_length by (rewrite ?sector_length by done; lia); lia|].
      apply Hgo; auto.
    + intros -> Hnm s1 Hh. apply wp_ret. exists 0. simpl.
      split_and!; [done|lia..|apply filled_none|]. intros [?|?]; done.
Qed.

(** ** Writing *)

(** [n] bytes of [buffer] from [at_] are stored in the file from [offset];
    every other byte of the disk stays. *)
Definition stored (d : disk) (i : inode_disk) (offset at_ n : Z) (buffer : list Z) (d' : disk) : Prop :=
  disk_ok d' /\ capacity d' = capacity d /\
  forall a, byte_at d' a =
    if (base_of i + offset <=? a) && (a <? base_of i + offset + n)
    then byte buffer (at_ + (a - (base_of i + offset))) else byte_at d a.

Lemma stored_none d i offset at_ buffer : disk_ok d -> stored d i offset at_ 0 buffer d.
Proof. intros H. split_and!; [done..|]. intros a. zcases; simpl; done || lia. Qed.

Lemma stored_chunk d i offset at_ c buffer : disk_ok d -> 0 <= offset -> 0 <= at_ -> 0 < c ->
  offset mod 512 + c <= 512 -> at_ + c <= length buffer ->
  stored d i offset at_ c buffer
    (disk_put (start i + offset / 512)
       (splice (offset mod 512) (slice at_ c buffer) (sector d (start i + offset / 512))) d).
Proof.
  intros Hd Ho Ha Hc H5 Hl. pose proof (Z.mod_pos_bound offset 512). pose proof (Z.div_mod offset 512).
  assert (Hs : length (slice at_ c buffer) = Z.to_nat c) by (apply slice_length; lia).
  assert (Hlen := sector_length d (start i + offset / 512) Hd).
  split_and!; [apply disk_put_ok; [done|]; rewrite splice_length; lia|done|].
  intros a. rewrite byte_at_put. pose proof (Z.div_mod a 512). pose proof (Z.mod_pos_bound a 512). unfold base_of.
  destruct (Z.eqb_spec (a / 512) (start i + offset / 512)) as [E|E].
  - rewrite byte_splice by lia. rewrite Hs.
    destruct (Z.leb_spec (offset mod 512) (a mod 512)), (Z.ltb_spec (a mod 512) (offset mod 512 + Z.to_nat c)),
      (Z.leb_spec (512 * start i + offset) a), (Z.ltb_spec a (512 * start i + offset + c)); simpl; try lia.
    all: try (unfold byte_at; by rewrite E).
    rewrite byte_slice by lia. f_equal. lia.
  - destruct (Z.leb_spec (512 * start i + offset) a), (Z.ltb_spec a (512 * start i + offset + c)); simpl; try done.
    lia.
Qed.

Lemma stored_trans d i offset at_ c n buffer d1 d2 : 0 <= c -> 0 <= n ->
  stored d i offset at_ c buffer d1 -> stored d1 i (offset + c) (at_ + c) n buffer d2 ->
  stored d i offset at_ (c + n) buffer d2.
Proof.
  intros Hc Hn (O1 & C1 & F1) (O2 & C2 & F2). split_and!; [done|congruence|]. intros a. rewrite F2, F1.
  zcases; simpl; try lia; try done. all: f_equal; lia.
Qed.

Lemma inode_wf_capacity d d' i : capacity d' = capacity d -> inode_wf d i -> inode_wf d' i.
Proof. intros E H. split; [apply H..|]. rewrite E. apply H. Qed.

Lemma heap_only_disk s s' d : heap_only s s' -> heap_only (set_disk d s) (set_disk d s').
Proof. intros (m & n & -> & ? & ?). by exists m, n. Qed.

(** What a write leaves: the bytes stored, and only the allocator run. *)
Definition written (s : fs) (i : inode_disk) (offset at_ n : Z) (buffer : list Z) (s' : fs) : Prop :=
  exists d', stored (filesys_disk s) i offset at_ n buffer d' /\ heap_only (set_disk d' s) s'.

Lemma written_none s s' i offset at_ buffer : disk_ok (filesys_disk s) -> heap_only s s' ->
  written s i offset at_ 0 buffer s'.
Proof. intros Hd Hh. exists (filesys_disk s). split; [by apply stored_none|]. by rewrite set_disk_same. Qed.

Lemma written_trans s s1 s2 i offset at_ c n buffer : 0 <= c -> 0 <= n ->
  written s i offset at_ c buffer s1 -> written s1 i (offset + c) (at_ + c) n buffer s2 ->
  written s i offset at_ (c + n) buffer s2.
Proof.
  intros Hc Hn (d1 & H1 & Hh1) (d2 & H2 & Hh2).
  assert (E : filesys_disk s1 = d1) by (by destruct Hh1 as (? & ? & -> & _)).
  rewrite E in H2. exists d2. split; [by eapply stored_trans|].
  eapply heap_only_trans; [|done]. apply (heap_only_disk _ _ d2) in Hh1. exact Hh1.
Qed.

Lemma wp_inode_write_at_loop a i fuel buffer size offset n bounce s :
  inodes s !! a = Some i -> disk_ok (filesys_disk s) -> inode_wf (filesys_disk s) (data i) ->
  0 <= offset < 2 ^ 31 -> 0 <= n -> 0 <= size -> n + size < 2 ^ 31 -> n + size <= length buffer ->
  (Z.to_nat size < fuel)%nat ->
  wp (inode_write_at_loop fuel a buffer size offset n bounce) s (fun r s' => exists m,
    r = n + m /\ 0 <= m <= avail (data i) size offset /\ written s (data i) offset n m buffer s' /\
    (bounce = true \/ mem_ok s -> m = avail (data i) size offset)).
Proof.
  revert size offset n bounce s.
  induction fuel as [|fuel IH]; intros size offset n bounce s Hi Hd Hw Ho Hn Hs Hb Hl Hf; [lia|].
  cbn [inode_write_at_loop]. unfold avail.
  destruct (Z.leb_spec size 0) as [Hz|Hz].
  { apply wp_ret. exists 0. split_and!; [lia..|apply written_none; [done|apply heap_only_refl]|lia]. }
  eapply wp_bind, wp_byte_to_sector; [done|]. eapply wp_bind, wp_inode_length; [done|].
  destruct (chunk_facts _ _ size offset Hw Ho ltac:(lia)) as (Eo & El & Ec & Hc). cbv zeta in *.
  pose proof (Z.mod_pos_bound offset 512). rewrite Ec, Eo, El. unfold DISK_SECTOR_SIZE.
  set (c := Z.min size _) in *.
  destruct (Z.leb_spec c 0) as [Hc0|Hc0].
  { apply wp_ret. exists 0. split_and!; [lia..|apply written_none; [done|apply heap_only_refl]|lia]. }
  destruct (Hc Hc0) as (Hlt & Hcap & Eq & Eu). specialize (Eu (proj2 (dk_cap _ Hd))).
  destruct (Z.ltb_spec offset (i_length (data i))); [|lia]. rewrite Eq, Eu.
  rewrite !s32_small by (pose proof (iw_len _ _ Hw); urange; lia).
  set (x := start (data i) + offset / 512) in *.
  set (b := splice (offset mod 512) (slice n c buffer) (sector (filesys_disk s) x)).
  assert (Hsc : stored (filesys_disk s) (data i) offset n c buffer (disk_put x b (filesys_disk s)))
    by (apply stored_chunk; done || lia).
  (* what both branches do after the write *)
  assert (Hgo : forall s1 bn, heap_only s s1 -> (bounce = true \/ mem_ok s -> bn = true \/ mem_ok s1) ->
    wp (inode_write_at_loop fuel a buffer (size - c) (offset + c) (n + c) bn)
       (set_disk (disk_put x b (filesys_disk s)) s1)
      (fun r s' => exists m, r = n + m /\ 0 <= m <= Z.max 0 (Z.min size (i_length (data i) - offset)) /\
        written s (data i) offset n m buffer s' /\
        (bounce = true \/ mem_ok s -> m = Z.max 0 (Z.min size (i_length (data i) - offset))))).
  { intros s1 bn Hh Hbn. pose proof (iw_len _ _ Hw).
    assert (E2 : inodes s1 = inodes s) by (by destruct Hh as (? & ? & -> & _)).
    eapply wp_mono; [apply IH; simpl; rewrite ?E2; try done; try lia|].
    { apply Hsc. }
    { eapply inode_wf_capacity, Hw. done. }
    intros r s' (m & Hr & Hm & Hwm & Hfull). exists (c + m). unfold avail in *.
    split_and!; [lia..| |intros Hx; rewrite Hfull by auto; lia].
    eapply written_trans; [lia..| |exact Hwm]. eexists. split; [exact Hsc|]. by apply heap_only_disk. }
  destruct (_ && _) eqn:Efull.
  - apply andb_true_iff in Efull as [E0%Z.eqb_eq E512%Z.eqb_eq].
    apply wp_bind, wp_get_bytes; [lia|lia|]. eapply wp_bind, wp_write_disk; [done|lia|].
    specialize (Hgo s bounce (heap_only_refl s) ltac:(done)).
    subst b. rewrite E0, splice_all in Hgo; [by rewrite E512 in *|]. rewrite slice_length, sector_length by (done || lia). lia.
  - apply wp_bind, wp_need_bounce.
    + intros s1 Hh.
      assert (E1 : filesys_disk s1 = filesys_disk s) by (by destruct Hh as (? & ? & -> & _)).
      assert (Epart : (0 <? offset mod 512) || (c <? 512 - offset mod 512) = true).
      { destruct (Z.ltb_spec 0 (offset mod 512)), (Z.ltb_spec c (512 - offset mod 512)); try done.
        destruct (Z.eqb_spec (offset mod 512) 0), (Z.eqb_spec c 512); simpl in Efull; lia || done. }
      rewrite Epart. eapply wp_bind, wp_read_disk; [by rewrite E1|rewrite E1; lia|]. rewrite E1.
      apply wp_bind, wp_get_bytes; [lia..|].
      apply wp_bind, wp_put_bytes; [lia|rewrite slice_length, sector_length by (done || lia); lia|].
      eapply wp_bind, wp_write_disk; [by rewrite E1|rewrite E1; lia|]. rewrite E1. fold b. apply Hgo; auto.
    + intros -> Hnm s1 Hh. apply wp_ret. exists 0.
      split_and!; [lia..|by apply written_none|]. intros [?|?]; done.
Qed.

(** ** The calls *)

(** An open inode [a] with header [i], on a good disk. *)
Definition opened (s : fs) (a : Z) (i : struct_inode) : Prop :=
  inodes s !! a = Some i /\ disk_ok (filesys_disk s) /\ inode_wf (filesys_disk s) (data i).

Lemma avail_range i size offset : 0 <= size -> 0 <= avail i size offset <= size.
Proof. unfold avail. lia. Qed.

Lemma wp_inode_read_at s a i buffer size offset Q : opened s a i ->
  0 <= offset < 2 ^ 31 -> 0 <= size < 2 ^ 31 -> size <= length buffer ->
  (forall n buffer' s', heap_only s s' -> 0 <= n <= avail (data i) size offset ->
     (mem_ok s -> n = avail (data i) size offset) ->
     filled (filesys_disk s) (data i) offset 0 n buffer buffer' -> Q (n, buffer') s') ->
  wp (inode_read_at a buffer size offset) s Q.
Proof.
  intros (Hi & Hd & Hw) Ho Hs Hb HQ. unfold inode_read_at.
  eapply wp_mono; [apply (wp_inode_read_at_loop a i); try done; lia|].
  intros [n b'] s' (m & Hh & Hr & Hm & Hf & Hfull). cbn [fst snd] in *. rewrite Z.add_0_l in Hr. subst n. apply HQ; auto.
Qed.

Lemma wp_inode_write_at s a i buffer size offset Q : opened s a i ->
  0 <= offset < 2 ^ 31 -> 0 <= size < 2 ^ 31 -> size <= length buffer ->
  (deny_write_cnt i <> 0 -> Q 0 s) ->
  (forall n s', deny_write_cnt i = 0 -> 0 <= n <= avail (data i) size offset ->
     (mem_ok s -> n = avail (data i) size offset) ->
     written s (data i) offset 0 n buffer s' -> Q n s') ->
  wp (inode_write_at a buffer size offset) s Q.
Proof.
  intros (Hi & Hd & Hw) Ho Hs Hb HQ0 HQ. unfold inode_write_at. eapply wp_bind, wp_get_inode; [done|].
  destruct (Z.eqb_spec (deny_write_cnt i) 0) as [Hz|Hz]; cbn [negb]; [|by apply wp_ret, HQ0].
  eapply wp_mono; [apply (wp_inode_write_at_loop a i); try done; lia|].
  intros n s' (m & -> & Hm & Hf & Hfull). rewrite Z.add_0_l. apply HQ; auto.
Qed.

(** The buffer after a read and the file after a write, as lists. *)
Lemma filled_contents d i offset n buffer buffer' : 0 <= offset -> 0 <= i_length i -> 0 <= n <= length buffer ->
  (n = 0 \/ offset + n <= i_length i) -> filled d i offset 0 n buffer buffer' ->
  buffer' = slice offset n (contents d i) ++ drop (Z.to_nat n) buffer.
Proof.
  intros Ho Hi Hn Hfit [Hl Hf].
  assert (Hs : length (slice offset n (contents d i)) = Z.to_nat n).
  { destruct Hfit as [->|?]; [done|]. apply slice_length; [lia..|]. rewrite contents_length by done. lia. }
  apply bytes_eq; [rewrite length_app, length_drop; lia|]. intros k Hk. rewrite Hf, byte_app, Hs by lia.
  destruct (Z.leb_spec 0 k); [|lia].
  destruct (Z.ltb_spec k (0 + n)), (Z.ltb_spec k (Z.to_nat n)); simpl; try lia.
  - rewrite byte_slice, byte_contents by lia. f_equal. lia.
  - rewrite byte_drop by lia. f_equal. lia.
Qed.

Lemma stored_contents d i offset n buffer d' : 0 <= offset -> 0 <= i_length i -> 0 <= n <= length buffer ->
  (n = 0 \/ offset + n <= i_length i) -> stored d i offset 0 n buffer d' ->
  contents d' i = if n =? 0 then contents d i else splice offset (take (Z.to_nat n) buffer) (contents d i).
Proof.
  intros Ho Hi Hn Hfit (_ & _ & Hf). pose proof (contents_length d i Hi). pose proof (contents_length d' i Hi).
  assert (Hs : length (take (Z.to_nat n) buffer) = Z.to_nat n) by (rewrite length_take; lia).
  destruct (Z.eqb_spec n 0) as [->|Hn0].
  - apply bytes_eq; [lia|]. intros k Hk. rewrite !byte_contents, Hf by lia. zcases; simpl; done || lia.
  - apply bytes_eq; [rewrite splice_length; lia|]. intros k Hk. rewrite byte_splice, !byte_contents, Hf by lia.
    rewrite Hs. destruct (Z.leb_spec offset k), (Z.ltb_spec k (offset + Z.to_nat n)),
      (Z.leb_spec (base_of i + offset) (base_of i + k)), (Z.ltb_spec (base_of i + k) (base_of i + offset + n));
      simpl; try lia; try done; [|rewrite byte_contents by lia; done..].
    rewrite byte_take. destruct (Z.ltb_spec (Z.to_nat (k - offset)) (Z.to_nat n)); [f_equal; lia|lia].
Qed.

(** Files on disjoint parts of the disk. *)
Definition disjoint_files (i j : inode_disk) : Prop :=
  base_of i + i_length i <= base_of j \/ base_of j + i_length j <= base_of i.

Lemma stored_other d i j offset n buffer d' : 0 <= offset -> 0 <= i_length j -> offset + n <= i_length i \/ n = 0 ->
  disjoint_files i j -> stored d i offset 0 n buffer d' -> contents d' j = contents d j.
Proof.
  intros Ho Hj Hfit Hdis (_ & _ & Hf). pose proof (contents_length d j Hj). pose proof (contents_length d' j Hj).
  apply bytes_eq; [lia|]. intros k Hk. rewrite !byte_contents, Hf by lia. unfold disjoint_files in *.
  zcases; simpl; done || lia.
Qed.

(** ** Properties *)

(** [inode_read_at] puts into the front of the buffer the bytes of the
    file from the offset on, cut at the end of the file, and leaves the rest
    of the buffer, the disk and every open inode as they were; it is short of
    that only when the bounce buffer cannot be allocated. *)
Theorem inode_read_at_correct (s : fs) (a : Z) (i : struct_inode) (buffer : list Z) (size offset : Z) :
  opened s a i -> 0 <= offset < 2 ^ 31 -> 0 <= size < 2 ^ 31 -> size <= length buffer ->
  exists n s', inode_read_at a buffer size offset s =
      Ret ((n, slice offset n (contents (filesys_disk s) (data i)) ++ drop (Z.to_nat n) buffer), s') /\
    heap_only s s' /\ 0 <= n <= avail (data i) size offset /\ (mem_ok s -> n = avail (data i) size offset).
Proof.
  intros H Ho Hs Hb. pose proof (iw_len _ _ (proj2 (proj2 H))).
  assert (Hw := wp_inode_read_at s a i buffer size offset (fun r s' =>
    r.2 = slice offset r.1 (contents (filesys_disk s) (data i)) ++ drop (Z.to_nat r.1) buffer /\
    heap_only s s' /\ 0 <= r.1 <= avail (data i) size offset /\ (mem_ok s -> r.1 = avail (data i) size offset))
    H Ho Hs Hb).
  apply wp_elim in Hw as ([n b'] & s' & E & Hb' & ?); [simpl in *; subst; eauto 10|].
  intros n b' s' Hh Hn Hfull Hf. unfold avail in *. simpl. split_and!; [|done|lia..|done].
  eapply filled_contents; eauto; lia.
Qed.

(** C5: [inode_write_at] to a file that is not write-protected replaces
    exactly the bytes from the offset on, as far as the file reaches, keeps
    the contents of every file elsewhere on the disk, and what was written
    is what a following [inode_read_at] of the same range returns. *)
Theorem inode_write_at_roundtrip (s : fs) (a : Z) (i : struct_inode) (buffer : list Z) (size offset : Z) :
  opened s a i -> deny_write_cnt i = 0 -> 0 <= offset < 2 ^ 31 -> 0 <= size < 2 ^ 31 -> size <= length buffer ->
  exists n s', inode_write_at a buffer size offset s = Ret (n, s') /\ opened s' a i /\
    0 <= n <= avail (data i) size offset /\ (mem_ok s -> n = avail (data i) size offset) /\
    contents (filesys_disk s') (data i) =
      (if n =? 0 then contents (filesys_disk s) (data i)
       else splice offset (take (Z.to_nat n) buffer) (contents (filesys_disk s) (data i))) /\
    (forall j, 0 <= i_length j -> disjoint_files (data i) j -> contents (filesys_disk s') j = contents (filesys_disk s) j) /\
    (mem_ok s' -> forall buffer', n <= length buffer' -> exists s'',
       inode_read_at a buffer' n offset s' = Ret ((n, take (Z.to_nat n) buffer ++ drop (Z.to_nat n) buffer'), s'')).
Proof.
  intros H Hdw Ho Hs Hb. pose proof (iw_len _ _ (proj2 (proj2 H))).
  assert (Hw := wp_inode_write_at s a i buffer size offset (fun n s' => 
    0 <= n <= avail (data i) size offset /\ (mem_ok s -> n = avail (data i) size offset) /\
    written s (data i) offset 0 n buffer s')
    H Ho Hs Hb ltac:(done) (fun n s' _ H1 H2 H3 => conj H1 (conj H2 H3))).
  apply wp_elim in Hw as (n & s' & E & Hn & Hfull & d' & Hst & Hh).
  pose proof (avail_range (data i) size offset ltac:(lia)).
  assert (Hfit : n = 0 \/ offset + n <= i_length (data i)) by (unfold avail in *; lia).
  assert (Hs' : filesys_disk s' = d' /\ inodes s' = inodes s) by (by destruct Hh as (? & ? & -> & _)).
  destruct Hs' as [Ed Ei].
  assert (Hop : opened s' a i).
  { destruct H as (HA & HB & HC). split_and!; [by rewrite Ei|rewrite Ed; apply Hst|].
    rewrite Ed. eapply inode_wf_capacity; [apply Hst|done]. }
  pose proof Hst as Hc. apply stored_contents in Hc; [|lia..|done].
  exists n, s'. rewrite Ed. split_and!; [done|done|lia..|done|exact Hc| |].
  - intros j Hj Hdis. eapply stored_other; [..|exact Hst]; try done; lia.
  - intros Hm buffer' Hb'.
    assert (Hr := wp_inode_read_at s' a i buffer' n offset (fun r _ =>
      r = (n, take (Z.to_nat n) buffer ++ drop (Z.to_nat n) buffer')) Hop Ho ltac:(lia) Hb').
    apply wp_elim in Hr as (? & s'' & -> & ->); [eauto|].
    intros m b' s2 _ Hm2 Hfull2 Hf. specialize (Hfull2 Hm). assert (m = n) as -> by (unfold avail in *; lia).
    apply filled_contents in Hf; [|lia..|done]. f_equal. rewrite Hf, Ed, Hc. f_equal.
    destruct (Z.eqb_spec n 0) as [->|?]; [done|].
    assert (Hl : length (take (Z.to_nat n) buffer) = Z.to_nat n) by (rewrite length_take; lia).
    pose proof (contents_length (filesys_disk s) (data i) ltac:(lia)).
    apply bytes_eq; [rewrite slice_length; rewrite ?splice_length; lia|].
    intros k Hk. rewrite slice_length in Hk by (rewrite ?splice_length; lia).
    rewrite byte_slice, byte_splice by lia.
    destruct (Z.leb_spec offset (offset + k)), (Z.ltb_spec (offset + k) (offset + length (take (Z.to_nat n) buffer)));
      simpl; try lia. f_equal. lia.
Qed.

(** A disk with one file of 700 bytes in sectors 3 and 4, open at address 1. *)
Definition demo_header : inode_disk := mk_inode_disk 3 700 INODE_MAGIC (replicate 500 0).
Definition demo_inode : struct_inode := mk_inode 2 1 false 0 demo_header.
Definition demo_fs : fs :=
  mk_fs (mk_disk 16 {[ 2 := sector_of demo_header; 4 := replicate 512 5 ]}) {[ 1 := demo_inode ]} [1]
    (mk_bitmap 16 [0x1F]) ∅ None [] 2.

Lemma demo_opened : opened demo_fs 1 demo_inode.
Proof.
  split_and!; [done| |split; done].
  split; [done|]. simpl. intros x b. rewrite lookup_insert. case_decide; [by intros [= <-]|].
  rewrite lookup_singleton. case_decide; [by intros [= <-]|done].
Qed.

Lemma inode_read_at_correct_witness :
  exists n s', inode_read_at 1 [9; 9; 9] 3 510 demo_fs =
      Ret ((n, slice 510 n (contents (filesys_disk demo_fs) demo_header) ++ drop (Z.to_nat n) [9; 9; 9]), s') /\
    heap_only demo_fs s' /\ 0 <= n <= avail demo_header 3 510 /\ (mem_ok demo_fs -> n = avail demo_header 3 510).
Proof. apply (inode_read_at_correct demo_fs 1 demo_inode); [apply demo_opened|done..]. Defined.

Lemma inode_write_at_roundtrip_witness :
  exists n s', inode_write_at 1 [7; 8; 9] 3 510 demo_fs = Ret (n, s') /\ n = 3 /\
    contents (filesys_disk s') demo_header = splice 510 [7; 8; 9] (contents (filesys_disk demo_fs) demo_header).
Proof.
  destruct (inode_write_at_roundtrip demo_fs 1 demo_inode [7; 8; 9] 3 510) as (n & s' & E & _ & _ & Hn & Hc & _);
    [apply demo_opened|done..|].
  assert (n = 3) as -> by (apply Hn; discriminate). exists 3, s'. split_and!; [exact E|reflexivity|exact Hc].
Defined.
