(* ===== verification/File.v ===== *)
(** * Open files and the free map: filesys/file.c, filesys/free-map.c, the
    file functions of lib/kernel/bitmap.c, and [inode_create] and
    [inode_close] of filesys/inode.c

    These functions call each other: closing a removed inode releases its
    sectors, releasing sectors writes the bitmap to the free-map file, and
    that is a write to an inode. *)

From S2P Require Import Prelude Vaddr Bitmap Bytes Disk Inode.

Definition FREE_MAP_SECTOR : Z := 0.
Definition ROOT_DIR_SECTOR : Z := 1.

(** ** Reading, writing and positions of open files *)

(** [*file]; an address that holds no file faults. *)
Definition get_file (file : Z) : ST fs Inode.file := fun s =>
  match files s !! file with Some f => Ret (f, s) | None => Panic end.
Definition put_file (file : Z) (f : Inode.file) : ST fs unit :=
  modify (fun s => set_files (<[file := f]> (files s)) s).

Definition file_get_inode (file : Z) : ST fs Z := f ← get_file file; mret (f_inode f).

Definition file_read_at (file : Z) (buffer : list Z) (size file_ofs : Z) : ST fs (Z * list Z) :=
  f ← get_file file; inode_read_at (f_inode f) buffer size file_ofs.

Definition file_read (file : Z) (buffer : list Z) (size : Z) : ST fs (Z * list Z) :=
  f ← get_file file;
  r ← inode_read_at (f_inode f) buffer size (pos f);
  put_file file (mk_file (f_inode f) (s32 (pos f + r.1)) (deny_write f));;
  mret r.

Definition file_write_at (file : Z) (buffer : list Z) (size file_ofs : Z) : ST fs Z :=
  f ← get_file file; inode_write_at (f_inode f) buffer size file_ofs.

Definition file_write (file : Z) (buffer : list Z) (size : Z) : ST fs Z :=
  f ← get_file file;
  bytes_written ← inode_write_at (f_inode f) buffer size (pos f);
  put_file file (mk_file (f_inode f) (s32 (pos f + bytes_written)) (deny_write f));;
  mret bytes_written.

Definition file_deny_write (file : Z) : ST fs unit :=
  f ← get_file file;
  if deny_write f then mret tt
  else put_file file (mk_file (f_inode f) (pos f) true);; inode_deny_write (f_inode f).

Definition file_allow_write (file : Z) : ST fs unit :=
  f ← get_file file;
  if deny_write f then put_file file (mk_file (f_inode f) (pos f) false);; inode_allow_write (f_inode f)
  else mret tt.

Definition file_length (file : Z) : ST fs Z := f ← get_file file; inode_length (f_inode f).

Definition file_seek (file new_pos : Z) : ST fs unit :=
  ASSERT (0 <=? new_pos);;
  f ← get_file file;
  put_file file (mk_file (f_inode f) new_pos (deny_write f)).

Definition file_tell (file : Z) : ST fs Z := f ← get_file file; mret (pos f).

(** ** Bitmaps in files *)

(** The elements of a bitmap as bytes, and back. *)
Definition bytes_of_words (l : list Z) : list Z := flat_map (to_le 4) l.
Fixpoint words_of_bytes (n : nat) (b : list Z) : list Z :=
  match n with
  | O => []
  | S n => of_le (take 4 b) :: words_of_bytes n (drop 4 b)
  end.

Definition on_free_map {A} (m : ST bitmap A) : ST fs A := fun s =>
  match m (free_map s) with
  | Ret (a, b) => Ret (a, set_free_map b s)
  | Panic => Panic
  | OutOfFuel => OutOfFuel
  end.

Definition bitmap_file_size (b : bitmap) : Z := byte_cnt (bit_cnt b).

(** [bitmap_read] and [bitmap_write] of the free map; [size] is an [off_t]. *)
Definition bitmap_read (file : Z) : ST fs bool :=
  b ← gets free_map;
  if 0 <? bit_cnt b then
    let size := s32 (byte_cnt (bit_cnt b)) in
    r ← file_read_at file (bytes_of_words (bits b)) size 0;
    modify (set_free_map (mk_bitmap (bit_cnt b) (words_of_bytes (length (bits b)) r.2)));;
    let last := elem_cnt (bit_cnt b) -u 1 in
    x ← on_free_map (get_elem last);
    on_free_map (set_elem last (Z.land x (last_mask b)));;
    mret (r.1 =? size)
  else mret true.

Definition bitmap_write (file : Z) : ST fs bool :=
  b ← gets free_map;
  let size := s32 (byte_cnt (bit_cnt b)) in
  n ← file_write_at file (bytes_of_words (bits b)) size 0;
  mret (n =? size).

(** ** The free map *)

(** [have_struct] and [block] are the two allocations of [bitmap_create]. *)
Definition free_map_init (have_struct : bool) (block : option (list Z)) : ST fs unit :=
  n ← gets (fun s => disk_size (filesys_disk s));
  match bitmap_create have_struct block n with
  | Ret (Some b) =>
    modify (set_free_map b);;
    on_free_map (bitmap_mark FREE_MAP_SECTOR);;
    on_free_map (bitmap_mark ROOT_DIR_SECTOR)
  | _ => panic
  end.

(** [Some sector] for a result of [true] with [*sectorp = sector]. *)
Definition free_map_allocate (cnt : Z) : ST fs (option Z) :=
  sector ← on_free_map (bitmap_scan_and_flip 0 cnt false);
  if sector =? BITMAP_ERROR then mret None
  else
    file ← gets free_map_file;
    ok ← match file with None => mret true | Some f => bitmap_write f end;
    if (ok : bool) then mret (Some sector)
    else on_free_map (bitmap_set_multiple sector cnt false);; mret None.

Definition free_map_release (sector cnt : Z) : ST fs unit :=
  a ← on_free_map (bitmap_all sector cnt);
  ASSERT a;;
  on_free_map (bitmap_set_multiple sector cnt false);;
  file ← gets free_map_file;
  match file with None => panic | Some f => bitmap_write f;; mret tt end.

(** ** Creating and closing inodes *)

(** The loop that writes [zeros] to [cnt] sectors from [i] on. *)
Fixpoint write_zeros (fuel : nat) (start sectors i : Z) : ST fs unit :=
  match fuel with
  | O => no_fuel
  | S fuel =>
    if i <? sectors then
      on_disk (disk_write (start +u i) zero_sector);;
      write_zeros fuel start sectors (i +u 1)
    else mret tt
  end.

Definition inode_create (sector length : Z) : ST fs bool :=
  ASSERT (0 <=? length);;
  m ← malloc;
  match m with
  | None => mret false
  | Some _ =>
    let sectors := bytes_to_sectors length in
    r ← free_map_allocate sectors;
    match r with
    | None => mret false
    | Some start =>
      on_disk (disk_write sector (sector_of (mk_inode_disk start length INODE_MAGIC (replicate 500 0))));;
      when (0 <? sectors) (write_zeros (S (Z.to_nat sectors)) start sectors 0);;
      mret true
    end
  end.

(** [list_remove] of the element at address [a]. *)
Fixpoint unlink (a : Z) (l : list Z) : list Z :=
  match l with
  | [] => []
  | x :: l => if x =? a then l else x :: unlink a l
  end.

Definition inode_close (inode : option Z) : ST fs unit :=
  match inode with
  | None => mret tt
  | Some a =>
    i ← get_inode a;
    let n := s32 (open_cnt i - 1) in
    put_inode a (mk_inode (i_sector i) n (removed i) (deny_write_cnt i) (data i));;
    if n =? 0 then
      modify (fun s => set_open (unlink a (open_inodes s)) s);;
      when (removed i)
        (free_map_release (i_sector i) 1;;
         free_map_release (start (data i)) (bytes_to_sectors (i_length (data i))));;
      modify (fun s => set_inodes (delete a (inodes s)) s)
    else mret tt
  end.

(** ** Opening and closing files *)

Definition file_open (inode : option Z) : ST fs (option Z) :=
  file ← malloc;
  match inode, file with
  | Some a, Some f => put_file f (mk_file a 0 false);; mret (Some f)
  | _, _ => inode_close inode;; mret None
  end.

Definition file_reopen (file : Z) : ST fs (option Z) :=
  f ← get_file file;
  i ← inode_reopen (Some (f_inode f));
  file_open i.

Definition file_close (file : option Z) : ST fs unit :=
  match file with
  | None => mret tt
  | Some f =>
    file_allow_write f;;
    x ← get_file f;
    inode_close (Some (f_inode x));;
    modify (fun s => set_files (delete f (files s)) s)
  end.

(** ** The free-map file *)

Definition free_map_open : ST fs unit :=
  i ← inode_open FREE_MAP_SECTOR;
  f ← file_open i;
  modify (set_free_map_file f);;
  match f with
  | None => panic
  | Some f => ok ← bitmap_read f; ASSERT ok
  end.

(** The static pointer keeps its value. *)
Definition free_map_close : ST fs unit := f ← gets free_map_file; file_close f.

Definition free_map_create : ST fs unit :=
  b ← gets free_map;
  created ← inode_create FREE_MAP_SECTOR (s32 (bitmap_file_size b));
  ASSERT created;;
  i ← inode_open FREE_MAP_SECTOR;
  f ← file_open i;
  modify (set_free_map_file f);;
  match f with
  | None => panic
  | Some f => ok ← bitmap_write f; ASSERT ok
  end.
