(* ===== verification/FileProps.v ===== *)
(** * Open files: sharing of inodes and write protection

    Every opener of a sector gets the same [struct inode], its counters say
    how many openers and how many write-protecting files it has, and a file
    that denies writes stops every other writer of its inode. *)

From S2P Require Import Prelude Vaddr Bitmap Bytes Disk Inode InodeProps File.

(** ** Counting files *)

Definition one (b : bool) : Z := if b then 1 else 0.
Definition count_files (P : file -> bool) (m : gmap Z file) : Z := map_fold (fun _ f n => one (P f) + n) 0 m.

Definition on_inode (a : Z) (f : file) : bool := f_inode f =? a.
Definition denies (a : Z) (f : file) : bool := (f_inode f =? a) && deny_write f.

Lemma count_new P m k f : m !! k = None -> count_files P (<[k := f]> m) = one (P f) + count_files P m.
Proof.
  intros H. unfold count_files. rewrite map_fold_insert_L; [done| |done]. intros. lia.
Qed.

Lemma count_split P m k f : m !! k = Some f -> count_files P m = one (P f) + count_files P (delete k m).
Proof. intros H. rewrite <- (count_new P (delete k m) k f); [by rewrite insert_delete_id|]. apply lookup_delete_eq. Qed.

Lemma count_update P m k f f' : m !! k = Some f ->
  count_files P (<[k := f']> m) = count_files P m - one (P f) + one (P f').
Proof.
  intros H. rewrite <- insert_delete_eq, count_new by apply lookup_delete_eq. rewrite (count_split P m k f H). lia.
Qed.

Lemma count_nonneg P m : 0 <= count_files P m.
Proof.
  induction m as [|k f m Hk IH] using map_ind; [done|].
  rewrite count_new by done. unfold one. destruct (P f); lia.
Qed.

Lemma count_pos P m k f : m !! k = Some f -> P f = true -> 0 < count_files P m.
Proof. intros H HP. rewrite (count_split P m k f H), HP. pose proof (count_nonneg P (delete k m)). simpl. lia. Qed.

Lemma count_le P Q m : (forall f, P f = true -> Q f = true) -> count_files P m <= count_files Q m.
Proof.
  intros H. induction m as [|k f m Hk IH] using map_ind; [done|].
  rewrite !count_new by done. specialize (H f). unfold one. destruct (P f), (Q f); lia.
Qed.

(** ** Invariant *)

Record opens_ok (s : fs) : Prop := {
  oo_nodup : NoDup (open_inodes s);
  oo_dom a : a ∈ open_inodes s <-> is_Some (inodes s !! a);
  oo_inj a b i j : inodes s !! a = Some i -> inodes s !! b = Some j -> i_sector i = i_sector j -> a = b;
  oo_cnt a i : inodes s !! a = Some i -> 0 < open_cnt i < 2 ^ 31;
  oo_users a i : inodes s !! a = Some i -> count_files (on_inode a) (files s) <= open_cnt i;
  oo_deny a i : inodes s !! a = Some i -> deny_write_cnt i = count_files (denies a) (files s);
  oo_files f x : files s !! f = Some x -> is_Some (inodes s !! f_inode x);
  oo_fresh a : is_Some (inodes s !! a) \/ is_Some (files s !! a) -> a < next_addr s;
}.

(** Opener references of [a] that no file owns. *)
Definition spare (s : fs) (a : Z) : Prop :=
  exists i, inodes s !! a = Some i /\ count_files (on_inode a) (files s) < open_cnt i.

(** The parts of the state the invariant is about. *)
Definition same_opens (s s' : fs) : Prop :=
  inodes s' = inodes s /\ open_inodes s' = open_inodes s /\ files s' = files s /\ next_addr s <= next_addr s'.

Lemma same_opens_ok s s' : same_opens s s' -> opens_ok s -> opens_ok s'.
Proof.
  intros (E1 & E2 & E3 & E4) H. split; rewrite ?E1, ?E2, ?E3; try apply H.
  intros a Ha. pose proof (oo_fresh s H a Ha). lia.
Qed.

Lemma same_opens_refl s : same_opens s s.
Proof. split_and!; done || lia. Qed.

Lemma same_opens_trans s1 s2 s3 : same_opens s1 s2 -> same_opens s2 s3 -> same_opens s1 s3.
Proof. intros (? & ? & ? & ?) (? & ? & ? & ?). split_and!; [congruence..|lia]. Qed.

Lemma same_opens_spare s s' a : same_opens s s' -> spare s a -> spare s' a.
Proof. intros (E1 & E2 & E3 & E4) (i & Hi & Hc). exists i. by rewrite E1, E3. Qed.

(** No file refers to an inode that is not open. *)
Lemma no_users s a : opens_ok s -> inodes s !! a = None -> count_files (on_inode a) (files s) = 0.
Proof.
  intros H Ha. assert (Hf : forall f x, files s !! f = Some x -> f_inode x <> a).
  { intros f x Hx E. destruct (oo_files s H f x Hx) as [? ?]. congruence. }
  clear H. induction (files s) as [|k f m Hk IH] using map_ind; [done|]. rewrite count_new, IH by
    (done || (intros f' x Hx; apply (Hf f'); rewrite lookup_insert_ne by congruence; done)).
  unfold on_inode. specialize (Hf k f). rewrite lookup_insert_eq in Hf.
  destruct (Z.eqb_spec (f_inode f) a); [by destruct Hf|done].
Qed.

(** Writing an open inode's record back with its sector and data kept. *)
Lemma opens_ok_put s a i i' : opens_ok s -> inodes s !! a = Some i -> i_sector i' = i_sector i ->
  0 < open_cnt i' < 2 ^ 31 -> count_files (on_inode a) (files s) <= open_cnt i' ->
  deny_write_cnt i' = count_files (denies a) (files s) ->
  opens_ok (set_inodes (<[a := i']> (inodes s)) s).
Proof.
  intros H Hi Hs Hc Hu Hd.
  assert (Hsome : forall b, is_Some (<[a := i']> (inodes s) !! b) <-> is_Some (inodes s !! b)).
  { intros b. rewrite lookup_insert. case_decide; [subst; naive_solver|done]. }
  split; simpl.
  - apply H.
  - intros b. rewrite Hsome. apply H.
  - intros b c j k Hb Hc' E.
    assert (Hsec : forall d l, <[a := i']> (inodes s) !! d = Some l ->
      exists l', inodes s !! d = Some l' /\ i_sector l' = i_sector l).
    { intros d l. rewrite lookup_insert. case_decide; [intros [= <-]; subst; eauto|eauto]. }
    apply Hsec in Hb as (j' & Hj & ?). apply Hsec in Hc' as (k' & Hk & ?).
    apply (oo_inj s H _ _ j' k' Hj Hk). congruence.
  - intros b j. rewrite lookup_insert. case_decide; intros; simplify_eq; [done|by eapply (oo_cnt s H)].
  - intros b j. rewrite lookup_insert. case_decide; intros; simplify_eq; [done|by eapply (oo_users s H)].
  - intros b j. rewrite lookup_insert. case_decide; intros; simplify_eq; [done|by eapply (oo_deny s H)].
  - intros f x Hx. rewrite Hsome. by eapply (oo_files s H).
  - intros b. rewrite Hsome. apply H.
Qed.

(** ** Operations that leave the open inodes and files alone *)

Definition retains {A} (m : ST fs A) : Prop := forall s, wlp m s (fun _ s' => same_opens s s').

Lemma retains_bind {A B} (m : ST fs A) (k : A -> ST fs B) : retains m -> (forall a, retains (k a)) -> retains (m ≫= k).
Proof.
  intros Hm Hk s. apply wlp_bind. eapply wlp_mono; [apply Hm|]. intros a s1 H1.
  eapply wlp_mono; [apply Hk|]. intros b s2 H2. exact (same_opens_trans _ _ _ H1 H2).
Qed.
Lemma retains_ret {A} (a : A) : retains (mret a).
Proof. intros s. apply same_opens_refl. Qed.
Lemma retains_panic {A} : retains (A := A) panic.
Proof. done. Qed.
Lemma retains_no_fuel {A} : retains (A := A) no_fuel.
Proof. done. Qed.
Lemma retains_assert b : retains (ASSERT b).
Proof. intros s. apply wlp_assert. intros _. apply same_opens_refl. Qed.
Lemma retains_gets {A} (f : fs -> A) : retains (gets f).
Proof. intros s. apply same_opens_refl. Qed.
Lemma retains_when b m : retains m -> retains (when b m).
Proof. intros H. destruct b; [done|apply retains_ret]. Qed.
Lemma retains_disk {A} (m : ST disk A) : retains (on_disk m).
Proof. intros s. unfold wlp, on_disk. destruct (m _) as [[a d]| |]; [by split_and!|done..]. Qed.
Lemma retains_map {A} (m : ST bitmap A) : retains (on_free_map m).
Proof. intros s. unfold wlp, on_free_map. destruct (m _) as [[a d]| |]; [by split_and!|done..]. Qed.
Lemma retains_get_inode a : retains (get_inode a).
Proof. intros s. unfold wlp, get_inode. destruct (_ !! _); [apply same_opens_refl|done]. Qed.
Lemma retains_get_file a : retains (get_file a).
Proof. intros s. unfold wlp, get_file. destruct (_ !! _); [apply same_opens_refl|done]. Qed.
Lemma retains_malloc : retains malloc.
Proof.
  intros s. unfold wlp, malloc, same_opens. destruct (mallocs s) as [|[] ?]; simpl; split_and!; done || lia.
Qed.

Create HintDb retains.
#[export] Hint Resolve retains_ret retains_panic retains_no_fuel retains_assert retains_gets retains_disk retains_map
  retains_get_inode retains_get_file retains_malloc : retains.

(** Follow the structure of a program. *)
Ltac retains :=
  repeat match goal with
  | |- retains (_ ≫= _) => apply retains_bind; [|intros ?]
  | |- retains (when _ _) => apply retains_when
  | |- retains (if ?b then _ else _) => destruct b
  | |- retains (match ?x with _ => _ end) => destruct x
  | |- retains _ => solve [auto with retains]
  end.

Lemma retains_need_bounce b : retains (need_bounce b).
Proof. unfold need_bounce. retains. Qed.
Lemma retains_get_bytes b o n : retains (get_bytes b o n).
Proof. unfold get_bytes. retains. Qed.
Lemma retains_put_bytes b o l : retains (put_bytes b o l).
Proof. unfold put_bytes. retains. Qed.
Lemma retains_byte_to_sector a p : retains (byte_to_sector a p).
Proof. unfold byte_to_sector. retains. Qed.
Lemma retains_inode_length a : retains (inode_length a).
Proof. unfold inode_length. retains. Qed.
#[export] Hint Resolve retains_need_bounce retains_get_bytes retains_put_bytes retains_byte_to_sector retains_inode_length : retains.

Lemma retains_inode_read_at a buffer size offset : retains (inode_read_at a buffer size offset).
Proof.
  unfold inode_read_at. generalize (S (Z.to_nat size)) as fuel, 0 as n, false as bounce. intros fuel.
  revert buffer size offset. induction fuel as [|fuel IH]; intros; cbn [inode_read_at_loop]; retains; apply IH.
Qed.
Lemma retains_inode_write_at a buffer size offset : retains (inode_write_at a buffer size offset).
Proof.
  unfold inode_write_at. retains. generalize (S (Z.to_nat size)) as fuel, 0 as n, false as bounce. intros fuel.
  revert size offset. induction fuel as [|fuel IH]; intros; cbn [inode_write_at_loop]; retains; apply IH.
Qed.
#[export] Hint Resolve retains_inode_read_at retains_inode_write_at : retains.

Lemma retains_bitmap_write f : retains (bitmap_write f).
Proof. unfold bitmap_write, file_write_at. retains. Qed.
#[export] Hint Resolve retains_bitmap_write : retains.
Lemma retains_free_map_release x n : retains (free_map_release x n).
Proof. unfold free_map_release. retains. Qed.
Lemma retains_free_map_allocate n : retains (free_map_allocate n).
Proof. unfold free_map_allocate. retains. Qed.
#[export] Hint Resolve retains_free_map_release retains_free_map_allocate : retains.

(** ** Opening *)

Lemma find_open_eq s sector l : (forall a, a ∈ l -> is_Some (inodes s !! a)) ->
  (exists a i, find_open sector l s = Ret (Some a, s) /\ a ∈ l /\ inodes s !! a = Some i /\ i_sector i = sector) \/
  (find_open sector l s = Ret (None, s) /\ forall a i, a ∈ l -> inodes s !! a = Some i -> i_sector i <> sector).
Proof.
  induction l as [|b l IH]; intros Hl; [right; split; [done|]; intros ? ? Hx; by apply elem_of_nil in Hx|].
  destruct (Hl b) as [j Hj]; [left|].
  assert (E : find_open sector (b :: l) s = if i_sector j =? sector then Ret (Some b, s) else find_open sector l s).
  { simpl. unfold mbind, ST_bind, get_inode. rewrite Hj. by destruct (_ =? _). }
  rewrite E. destruct (Z.eqb_spec (i_sector j) sector) as [Hs|Hs].
  - left. exists b, j. split_and!; [done|left|done|done].
  - destruct IH as [(a & i & Ha & Hin & Hi & Hsec)|[Ha Hno]]; [intros a Ha; apply Hl; by right| |].
    + left. exists a, i. split_and!; [done|by right|done|done].
    + right. split; [done|]. intros a i [->|Hin]%elem_of_cons; [congruence|by eapply Hno].
Qed.

Definition bump (n : Z) (i : struct_inode) : struct_inode :=
  mk_inode (i_sector i) (s32 (open_cnt i + n)) (removed i) (deny_write_cnt i) (data i).

(** The state after opening an inode for the first time, with header [b]. *)
Definition open_new (sector : Z) (b : list Z) (s : fs) : fs :=
  set_inodes (<[next_addr s := mk_inode sector 1 false 0 (inode_disk_of b)]> (inodes s))
    (set_open (next_addr s :: open_inodes s) (set_heap (tail (mallocs s)) (next_addr s + 1) s)).

Lemma inode_reopen_eq s a i : inodes s !! a = Some i ->
  inode_reopen (Some a) s = Ret (Some a, set_inodes (<[a := bump 1 i]> (inodes s)) s).
Proof. intros Hi. unfold inode_reopen, mbind, ST_bind, get_inode. by rewrite Hi. Qed.

(** An open inode is shared. *)
Lemma inode_open_shared s a i : opens_ok s -> inodes s !! a = Some i ->
  inode_open (i_sector i) s = Ret (Some a, set_inodes (<[a := bump 1 i]> (inodes s)) s).
Proof.
  intros H Hi. unfold inode_open. rewrite (bind_run _ _ s (open_inodes s) s) by done.
  destruct (find_open_eq s (i_sector i) (open_inodes s)) as [(b & j & E & Hb & Hj & Hs)|[_ Hno]].
  { intros b. apply H. }
  - rewrite (bind_run _ _ _ _ _ E). assert (b = a) as -> by (eapply (oo_inj s H); eauto).
    by rewrite (bind_run _ _ _ _ _ (inode_reopen_eq s a i Hi)).
  - destruct (Hno a i); [apply (oo_dom s H); by eexists|done|done].
Qed.

(** Otherwise its header is read from the disk into a new structure. *)
Lemma inode_open_fresh s sector : opens_ok s -> (forall a i, inodes s !! a = Some i -> i_sector i <> sector) ->
  inode_open sector s =
    (m ← malloc;
     match m with
     | None => mret None
     | Some a => modify (fun s => set_open (a :: open_inodes s) s);;
                 b ← on_disk (disk_read sector);
                 put_inode a (mk_inode sector 1 false 0 (inode_disk_of b));;
                 mret (Some a)
     end) s.
Proof.
  intros H Hno. unfold inode_open. rewrite (bind_run _ _ s (open_inodes s) s) by done.
  destruct (find_open_eq s sector (open_inodes s)) as [(b & j & _ & Hb & Hj & Hs)|[E _]].
  { intros b. apply H. }
  - by destruct (Hno b j).
  - by rewrite (bind_run _ _ _ _ _ E).
Qed.

Lemma wlp_malloc s (Q : option Z -> fs -> Prop) :
  Q (Some (next_addr s)) (set_heap (tail (mallocs s)) (next_addr s + 1) s) ->
  Q None (set_heap (tail (mallocs s)) (next_addr s) s) -> wlp malloc s Q.
Proof. intros H1 H2. unfold wlp, malloc. by destruct (mallocs s) as [|[] m]. Qed.

Lemma wlp_disk_read s x (Q : list Z -> fs -> Prop) :
  Q (sector (filesys_disk s) x) s -> wlp (on_disk (disk_read x)) s Q.
Proof.
  intros H. unfold wlp, on_disk, disk_read, mbind, ST_bind, gets, ASSERT. simpl.
  destruct (x <? capacity _); simpl; [|done]. destruct (x <? _); simpl; [|done]. by rewrite set_disk_same.
Qed.

Lemma bump_ok s a i : opens_ok s -> inodes s !! a = Some i -> open_cnt i < 2 ^ 31 - 1 ->
  let s' := set_inodes (<[a := bump 1 i]> (inodes s)) s in opens_ok s' /\ spare s' a.
Proof.
  intros H Hi Hc s'. pose proof (oo_cnt s H a i Hi). pose proof (oo_users s H a i Hi).
  assert (E : s32 (open_cnt i + 1) = open_cnt i + 1) by (apply s32_small; urange; lia). split.
  - eapply opens_ok_put; try done; simpl; rewrite ?E; try lia. apply (oo_deny s H a i Hi).
  - exists (bump 1 i). simpl. rewrite lookup_insert_eq, E. split; [done|lia].
Qed.

Lemma open_new_ok s sector b : opens_ok s -> (forall a i, inodes s !! a = Some i -> i_sector i <> sector) ->
  opens_ok (open_new sector b s) /\ spare (open_new sector b s) (next_addr s).
Proof.
  intros H Hno. set (n := next_addr s).
  assert (Hn : inodes s !! n = None).
  { destruct (inodes s !! n) eqn:E; [|done].
    assert (n < next_addr s) by (apply (oo_fresh s H); left; rewrite E; eauto). lia. }
  pose proof (no_users s n H Hn) as Hu. assert (Hd : count_files (denies n) (files s) = 0).
  { pose proof (count_nonneg (denies n) (files s)).
    assert (count_files (denies n) (files s) <= count_files (on_inode n) (files s)); [|lia].
    apply count_le. unfold denies, on_inode. intros f. by destruct (_ =? _). }
  split; [|exists (mk_inode sector 1 false 0 (inode_disk_of b)); unfold open_new; fold n; simpl;
    rewrite lookup_insert_eq; split; [done|simpl; lia]].
  unfold open_new. fold n. split; simpl.
  - constructor; [|apply H]. rewrite (oo_dom s H), Hn. by intros [? ?].
  - intros a. rewrite elem_of_cons, (oo_dom s H), lookup_insert. case_decide; [subst; naive_solver|naive_solver].
  - intros a c i j. rewrite !lookup_insert. repeat case_decide; intros; simplify_eq; try done.
    + by edestruct Hno.
    + by edestruct Hno.
    + by eapply (oo_inj s H).
  - intros a i. rewrite lookup_insert. case_decide; intros; simplify_eq; [done|by eapply (oo_cnt s H)].
  - intros a i. rewrite lookup_insert. case_decide; intros; simplify_eq; [simpl; lia|by eapply (oo_users s H)].
  - intros a i. rewrite lookup_insert. case_decide; intros; simplify_eq; [simpl; lia|by eapply (oo_deny s H)].
  - intros f x Hx. rewrite lookup_insert. case_decide; [by eexists|by eapply (oo_files s H)].
  - intros a Ha. assert (a = n \/ a < n) as [->|?]; [|lia..].
    rewrite lookup_insert in Ha. case_decide as Ea; [by left|right; by apply (oo_fresh s H)].
Qed.

(** ** Changing the files *)

Lemma opens_ok_files s m : opens_ok s ->
  (forall a i, inodes s !! a = Some i ->
     count_files (on_inode a) m <= open_cnt i /\ deny_write_cnt i = count_files (denies a) m) ->
  (forall f x, m !! f = Some x -> is_Some (inodes s !! f_inode x) /\ f < next_addr s) ->
  opens_ok (set_files m s).
Proof.
  intros H Hc Hf. split; simpl; try apply H.
  - intros a i Hi. by apply Hc.
  - intros a i Hi. by apply Hc.
  - intros f x Hx. by eapply Hf.
  - intros a [Ha|[x Hx]]; [apply (oo_fresh s H); by left|by eapply Hf].
Qed.

(** A file whose inode and protection stay. *)
Lemma file_update_ok s f x x' : opens_ok s -> files s !! f = Some x -> f_inode x' = f_inode x ->
  deny_write x' = deny_write x -> opens_ok (set_files (<[f := x']> (files s)) s).
Proof.
  intros H Hx Ei Ed. apply opens_ok_files; [done| |].
  - intros a i Hi. rewrite !(count_update _ _ _ _ _ Hx). unfold on_inode, denies. rewrite Ei, Ed.
    pose proof (oo_users s H a i Hi). pose proof (oo_deny s H a i Hi). unfold on_inode, denies in *. lia.
  - intros g y. rewrite lookup_insert. case_decide as E.
    + intros [= <-]. subst g. rewrite Ei. split; [by eapply (oo_files s H)|]. apply (oo_fresh s H). right. by eexists.
    + intros Hy. split; [by eapply (oo_files s H)|]. apply (oo_fresh s H). right. by eexists.
Qed.

(** A new file takes a spare reference; closing gives it back. *)
Lemma file_new_ok s f a : opens_ok s -> spare s a -> files s !! f = None -> f < next_addr s ->
  opens_ok (set_files (<[f := mk_file a 0 false]> (files s)) s).
Proof.
  intros H (i0 & Hi0 & Hsp) Hf Hn. apply opens_ok_files; [done| |].
  - intros b i Hi. rewrite !count_new by done. unfold on_inode at 1, denies at 1. simpl. rewrite andb_false_r.
    pose proof (oo_users s H b i Hi). pose proof (oo_deny s H b i Hi). cbn [one].
    destruct (Z.eqb_spec a b) as [->|]; simpl; [|lia]. simplify_eq. lia.
  - intros g y. rewrite lookup_insert. case_decide as E.
    + intros [= <-]. subst g. simpl. split; [by eexists|done].
    + intros Hy. split; [by eapply (oo_files s H)|]. apply (oo_fresh s H). right. by eexists.
Qed.

Lemma file_drop_ok s f x : opens_ok s -> files s !! f = Some x -> deny_write x = false ->
  opens_ok (set_files (delete f (files s)) s) /\ spare (set_files (delete f (files s)) s) (f_inode x).
Proof.
  intros H Hx Hd. split.
  - apply opens_ok_files; [done| |].
    + intros a i Hi. pose proof (oo_users s H a i Hi) as Hu. pose proof (oo_deny s H a i Hi) as Hn.
      rewrite (count_split _ _ _ _ Hx) in Hu. rewrite (count_split _ _ _ _ Hx) in Hn. unfold denies at 1 in Hn. rewrite Hd, andb_false_r in Hn.
      cbn [one] in Hn. unfold one in Hu. destruct (on_inode a x); lia.
    + intros g y. rewrite lookup_delete. case_decide; [done|]. intros Hy.
      split; [by eapply (oo_files s H)|]. apply (oo_fresh s H). right. by eexists.
  - destruct (oo_files s H f x Hx) as [i Hi]. exists i. simpl. split; [done|].
    pose proof (oo_users s H _ i Hi) as Hu. rewrite (count_split _ _ _ _ Hx) in Hu.
    unfold on_inode at 1 in Hu. rewrite Z.eqb_refl in Hu. cbn [one] in Hu. lia.
Qed.

(** A file turns its protection on or off and its inode counts it. *)
Lemma file_deny_ok s f x i b : opens_ok s -> files s !! f = Some x -> inodes s !! f_inode x = Some i ->
  deny_write x = negb b ->
  opens_ok (set_inodes (<[f_inode x := mk_inode (i_sector i) (open_cnt i) (removed i)
                            (deny_write_cnt i + (if b then 1 else -1)) (data i)]> (inodes s))
              (set_files (<[f := mk_file (f_inode x) (pos x) b]> (files s)) s)).
Proof.
  intros H Hx Hi Hd. set (a := f_inode x) in *. set (i' := mk_inode _ _ _ _ _).
  assert (Hsome : forall c, is_Some (<[a := i']> (inodes s) !! c) <-> is_Some (inodes s !! c)).
  { intros c. rewrite lookup_insert. case_decide; [subst c; naive_solver|done]. }
  assert (Hcnt : forall c, count_files (on_inode c) (<[f := mk_file a (pos x) b]> (files s)) =
    count_files (on_inode c) (files s)).
  { intros c. rewrite (count_update _ _ _ _ _ Hx). unfold on_inode. simpl. fold a. lia. }
  assert (Hden : forall c, count_files (denies c) (<[f := mk_file a (pos x) b]> (files s)) =
    count_files (denies c) (files s) + (if decide (c = a) then (if b then 1 else -1) else 0)).
  { intros c. rewrite (count_update _ _ _ _ _ Hx). unfold denies. cbn [f_inode deny_write]. fold a. rewrite Hd.
    case_decide as Ec; [subst c; rewrite Z.eqb_refl; destruct b; simpl; lia|].
    destruct (Z.eqb_spec a c); [congruence|]. simpl. lia. }
  pose proof (oo_cnt s H a i Hi). split; simpl.
  - apply H.
  - intros c. rewrite Hsome. apply H.
  - intros c d j k Hj Hk.
    assert (Hsec : forall e l, <[a := i']> (inodes s) !! e = Some l ->
      exists l', inodes s !! e = Some l' /\ i_sector l' = i_sector l).
    { intros e l. rewrite lookup_insert. case_decide as E; [|by eauto]. intros [= <-]. subst e. by exists i. }
    apply Hsec in Hj as (j' & Hj & ?). apply Hsec in Hk as (k' & Hk & ?). intros E.
    apply (oo_inj s H _ _ j' k' Hj Hk). congruence.
  - intros c j. rewrite lookup_insert. case_decide; intros [= <-] || intros ?; [done|by eapply (oo_cnt s H)].
  - intros c j. rewrite lookup_insert, Hcnt. case_decide as E.
    + intros [= <-]. subst c. simpl. apply (oo_users s H a i Hi).
    + apply (oo_users s H).
  - intros c j. rewrite lookup_insert, Hden. case_decide as E.
    + intros [= <-]. subst c. simpl. rewrite decide_True by done. rewrite (oo_deny s H a i Hi). done.
    + intros Hj. rewrite decide_False by congruence. rewrite (oo_deny s H c j Hj). lia.
  - intros g y. rewrite lookup_insert. case_decide as E.
    + intros [= <-]. simpl. rewrite Hsome. by eexists.
    + intros Hy. rewrite Hsome. by eapply (oo_files s H).
  - intros c Hc. apply (oo_fresh s H). rewrite Hsome in Hc. destruct Hc as [?|Hc]; [by left|right].
    rewrite lookup_insert in Hc. case_decide as E; [subst c; by eexists|done].
Qed.

(** ** Closing *)

Lemma elem_of_unlink a l x : NoDup l -> x ∈ unlink a l <-> x ∈ l /\ x <> a.
Proof.
  induction 1 as [|y l Hy Hl IH]; simpl.
  - split; [intros Hx; by apply elem_of_nil in Hx|by intros [Hx _]].
  - destruct (Z.eqb_spec y a) as [->|Hya].
    + rewrite elem_of_cons. split; [intros Hx; split; [by right|congruence]|by intros [[->|?] ?]].
    + rewrite !elem_of_cons, IH. naive_solver.
Qed.

Lemma unlink_nodup a l : NoDup l -> NoDup (unlink a l).
Proof.
  induction 1 as [|y l Hy Hl IH]; simpl; [constructor|].
  destruct (y =? a); [done|]. constructor; [|done]. rewrite elem_of_unlink by done. naive_solver.
Qed.

Lemma inode_drop_ok s a i : opens_ok s -> inodes s !! a = Some i -> count_files (on_inode a) (files s) = 0 ->
  opens_ok (set_inodes (delete a (inodes s)) (set_open (unlink a (open_inodes s)) s)).
Proof.
  intros H Hi Hu. split; simpl.
  - apply unlink_nodup, H.
  - intros b. rewrite elem_of_unlink by apply H. rewrite (oo_dom s H), lookup_delete.
    case_decide as E; [subst; split; [by intros [_ ?]|by intros [? ?]]|]. naive_solver.
  - intros b c j k. rewrite !lookup_delete. repeat case_decide; try done. by apply (oo_inj s H).
  - intros b j. rewrite lookup_delete. case_decide; [done|]. apply (oo_cnt s H).
  - intros b j. rewrite lookup_delete. case_decide; [done|]. apply (oo_users s H).
  - intros b j. rewrite lookup_delete. case_decide; [done|]. apply (oo_deny s H).
  - intros f x Hx. rewrite lookup_delete. case_decide as E; [|by eapply (oo_files s H)].
    assert (0 < count_files (on_inode a) (files s)); [|lia].
    eapply count_pos; [exact Hx|]. unfold on_inode. apply Z.eqb_eq. congruence.
  - intros b [Hb|Hb]; apply (oo_fresh s H); [left|by right].
    rewrite lookup_delete in Hb. case_decide; [by destruct Hb|done].
Qed.

Lemma wlp_get_inode s a (Q : struct_inode -> fs -> Prop) :
  (forall i, inodes s !! a = Some i -> Q i s) -> wlp (get_inode a) s Q.
Proof. intros H. unfold wlp, get_inode. destruct (_ !! _) eqn:E; [by apply H|done]. Qed.

Lemma wlp_get_file s f (Q : file -> fs -> Prop) :
  (forall x, files s !! f = Some x -> Q x s) -> wlp (get_file f) s Q.
Proof. intros H. unfold wlp, get_file. destruct (_ !! _) eqn:E; [by apply H|done]. Qed.

Lemma wlp_keeps {A} (m : ST fs A) s (Q : A -> fs -> Prop) :
  retains m -> (forall a s', same_opens s s' -> Q a s') -> wlp m s Q.
Proof. intros Hm HQ. eapply wlp_mono; [apply Hm|]. auto. Qed.

(** Closing, with [m] the files that still own references. *)
Lemma wlp_inode_close_files s a m : opens_ok (set_files m s) -> spare (set_files m s) a ->
  wlp (inode_close (Some a)) s (fun _ s' => opens_ok (set_files m s') /\ files s' = files s).
Proof.
  intros H (i & Hi & Hsp). pose proof (oo_cnt _ H a i Hi). pose proof (count_nonneg (on_inode a) m). simpl in *.
  apply wlp_bind, wlp_get_inode. intros j Hj. simplify_eq.
  assert (E : s32 (open_cnt i - 1) = open_cnt i - 1) by (apply s32_small; urange; lia). rewrite E.
  apply wlp_bind, wlp_modify. destruct (Z.eqb_spec (open_cnt i - 1) 0) as [Hz|Hz].
  - apply wlp_bind, wlp_modify, wlp_bind, wlp_keeps; [retains|]. intros _ s' (E1 & E2 & E3 & E4).
    apply wlp_modify. simpl in *. split; [|done].
    eapply same_opens_ok, (inode_drop_ok (set_files m s) a i); [|done..|simpl; lia].
    split_and!; simpl; [by rewrite E1, delete_insert_eq|done..].
  - apply wlp_ret. split; [|done]. eapply (opens_ok_put (set_files m s)); try done; simpl; try lia.
    apply (oo_deny _ H a i Hi).
Qed.

Lemma set_files_same s : set_files (files s) s = s.
Proof. by destruct s. Qed.

Lemma wlp_inode_close s a : opens_ok s -> spare s a -> wlp (inode_close (Some a)) s (fun _ s' => opens_ok s' /\ files s' = files s).
Proof.
  intros H Hsp. eapply wlp_mono; [apply (wlp_inode_close_files s a (files s)); by rewrite set_files_same|].
  intros _ s' [H' E]. rewrite <- E in H'. rewrite set_files_same in H'. done.
Qed.

Lemma wlp_file_open s a : opens_ok s -> spare s a -> wlp (file_open (Some a)) s
  (fun _ s' => opens_ok s' /\ forall f x, files s !! f = Some x -> files s' !! f = Some x).
Proof.
  intros H Hsp. unfold file_open.
  assert (Hfresh : files s !! next_addr s = None).
  { destruct (files s !! next_addr s) eqn:E; [|done].
    pose proof (oo_fresh s H (next_addr s) ltac:(right; rewrite E; eauto)). lia. }
  apply wlp_bind, wlp_malloc.
  - set (s1 := set_heap _ _ s). assert (Hs : same_opens s s1) by (split_and!; done || (simpl; lia)).
    apply wlp_bind, wlp_modify, wlp_ret. split.
    + apply (file_new_ok s1); [by eapply same_opens_ok|by eapply same_opens_spare|done|simpl; lia].
    + intros f x Hx. simpl. rewrite lookup_insert_ne by congruence. done.
  - set (s1 := set_heap _ _ s). assert (Hs : same_opens s s1) by (split_and!; done || (simpl; lia)).
    apply wlp_bind. eapply wlp_mono; [apply wlp_inode_close; [by eapply same_opens_ok|by eapply same_opens_spare]|].
    intros u s' [? E]. apply wlp_ret. rewrite E. done.
Qed.

(** Openers are few enough for the counters. *)
Definition few_openers (s : fs) : Prop := forall a i, inodes s !! a = Some i -> open_cnt i < 2 ^ 31 - 1.

Lemma wlp_inode_open s sector : opens_ok s -> few_openers s ->
  wlp (inode_open sector) s (fun r s' => opens_ok s' /\ files s' = files s /\ forall a, r = Some a -> spare s' a).
Proof.
  intros H Hfew.
  destruct (find_open_eq s sector (open_inodes s)) as [(a & i & _ & Ha & Hi & Hs)|[_ Hno]].
  { intros a. apply H. }
  - subst sector. unfold wlp. rewrite (inode_open_shared s a i H Hi).
    destruct (bump_ok s a i H Hi (Hfew a i Hi)). split_and!; [done|done|]. by intros ? [= <-].
  - assert (Hno' : forall a i, inodes s !! a = Some i -> i_sector i <> sector).
    { intros a i Hi. apply (Hno a i); [apply (oo_dom s H); by eexists|done]. }
    unfold wlp. rewrite (inode_open_fresh s sector H Hno').
    match goal with |- context [(?m s)] => change (wlp m s (fun r s' => opens_ok s' /\ files s' = files s /\ forall a, r = Some a -> spare s' a)) end.
    apply wlp_bind, wlp_malloc.
    + apply wlp_bind, wlp_modify, wlp_bind, wlp_disk_read. simpl. apply wlp_bind, wlp_modify, wlp_ret.
      destruct (open_new_ok s sector (Disk.sector (filesys_disk s) sector) H Hno'). split_and!; [done|done|]. by intros ? [= <-].
    + apply wlp_ret. split; [|done]. eapply same_opens_ok, H. split_and!; done || (simpl; lia).
Qed.

(** ** Protection *)

Lemma denied_range s f x i : opens_ok s -> files s !! f = Some x -> inodes s !! f_inode x = Some i ->
  0 <= deny_write_cnt i <= open_cnt i /\ (deny_write x = true -> 0 < deny_write_cnt i) /\
  (deny_write x = false -> deny_write_cnt i < open_cnt i) /\ open_cnt i < 2 ^ 31.
Proof.
  intros H Hx Hi. pose proof (oo_users s H _ i Hi) as Hu. rewrite (oo_deny s H _ i Hi).
  pose proof (count_nonneg (denies (f_inode x)) (files s)).
  assert (Hle : count_files (denies (f_inode x)) (delete f (files s)) <= count_files (on_inode (f_inode x)) (delete f (files s))).
  { apply count_le. unfold denies, on_inode. intros y. by destruct (_ =? _). }
  assert (Eo : on_inode (f_inode x) x = true) by (unfold on_inode; by rewrite Z.eqb_refl).
  assert (Ed : denies (f_inode x) x = deny_write x) by (unfold denies; by rewrite Z.eqb_refl).
  rewrite (count_split _ _ _ _ Hx), Eo in Hu. rewrite (count_split _ _ _ _ Hx), Ed. unfold one in *.
  pose proof (count_nonneg (denies (f_inode x)) (delete f (files s))). pose proof (oo_cnt s H _ i Hi).
  split_and!; destruct (deny_write x); intros; done || lia.
Qed.

(** Protecting a file of a good state always succeeds. *)
Lemma wp_file_deny_write s f x : opens_ok s -> files s !! f = Some x ->
  wp (file_deny_write f) s (fun _ s' => opens_ok s' /\ exists x',
    files s' = <[f := x']> (files s) /\ deny_write x' = true /\ f_inode x' = f_inode x).
Proof.
  intros H Hx. destruct (oo_files s H f x Hx) as [i Hi]. destruct (denied_range s f x i H Hx Hi) as (? & _ & Hlt & ?).
  unfold file_deny_write. apply wp_bind. unfold wp, get_file at 1. rewrite Hx.
  destruct (deny_write x) eqn:Ed; [split; [done|]; exists x; by rewrite insert_id|]. specialize (Hlt eq_refl).
  unfold inode_deny_write. rewrite (bind_run _ _ s tt (set_files (<[f := mk_file (f_inode x) (pos x) true]> (files s)) s)) by done.
  unfold mbind, ST_bind, get_inode at 1. simpl. rewrite Hi. simpl.
  rewrite s32_small by (urange; lia). unfold ASSERT. destruct (Z.leb_spec (deny_write_cnt i + 1) (open_cnt i)); [|lia].
  split; [by apply (file_deny_ok s f x i true)|]. by eexists.
Qed.

Lemma wp_file_allow_write s f x : opens_ok s -> files s !! f = Some x ->
  wp (file_allow_write f) s (fun _ s' => opens_ok s' /\ exists x',
    files s' = <[f := x']> (files s) /\ deny_write x' = false /\ f_inode x' = f_inode x).
Proof.
  intros H Hx. destruct (oo_files s H f x Hx) as [i Hi]. destruct (denied_range s f x i H Hx Hi) as (Hr & Hlt & _ & ?).
  unfold file_allow_write. apply wp_bind. unfold wp, get_file at 1. rewrite Hx.
  destruct (deny_write x) eqn:Ed; [|split; [done|]; exists x; by rewrite insert_id]. specialize (Hlt eq_refl).
  unfold inode_allow_write. rewrite (bind_run _ _ s tt (set_files (<[f := mk_file (f_inode x) (pos x) false]> (files s)) s)) by done.
  unfold mbind, ST_bind, get_inode at 1, ASSERT. simpl. rewrite Hi. simpl.
  destruct (Z.ltb_spec 0 (deny_write_cnt i)); [|lia]. destruct (Z.leb_spec (deny_write_cnt i) (open_cnt i)); [|lia].
  rewrite s32_small by (urange; lia).
  split; [by apply (file_deny_ok s f x i false)|]. by eexists.
Qed.

Lemma wp_wlp {S A} (m : ST S A) s Q : wp m s Q -> wlp m s Q.
Proof. unfold wp, wlp. by destruct (m s) as [[a s']| |]. Qed.

Lemma wlp_file_close s f : opens_ok s -> wlp (file_close (Some f)) s (fun _ s' => opens_ok s' /\ files s' = delete f (files s)).
Proof.
  intros H. unfold file_close. destruct (files s !! f) as [x|] eqn:Hx.
  - apply wlp_bind. eapply wlp_mono; [apply wp_wlp; by eapply wp_file_allow_write|].
    intros _ s1 (H1 & x1 & E1 & Hd & _).
    assert (Hx1 : files s1 !! f = Some x1) by (by rewrite E1, lookup_insert_eq). apply wlp_bind, wlp_get_file. intros y Hy. assert (y = x1) as -> by congruence.
    destruct (file_drop_ok s1 f x1 H1 Hx1 Hd) as [H2 Hsp].
    apply wlp_bind. eapply wlp_mono; [by apply (wlp_inode_close_files s1 _ (delete f (files s1)))|].
    intros _ s2 [H3 E]. apply wlp_modify. simpl. rewrite E, E1, delete_insert_eq. split; [|done].
    by rewrite E1, delete_insert_eq in H3.
  - unfold wlp, mbind, ST_bind, file_allow_write, mbind, ST_bind, get_file. by rewrite Hx.
Qed.

(** ** Sequences of calls *)

Inductive file_call : Type :=
| OpenFile (sector : Z) | Reopen (f : Z) | Close (f : Z)
| Read (f : Z) (buffer : list Z) (size : Z) | Write (f : Z) (buffer : list Z) (size : Z) | Seek (f pos : Z)
| DenyWrite (f : Z) | AllowWrite (f : Z)
| OpenInode (sector : Z) | CloseInode (a : Z) | RemoveInode (a : Z).

Definition run_call (c : file_call) : ST fs unit :=
  match c with
  | OpenFile x => i ← inode_open x; file_open i;; mret tt
  | Reopen f => file_reopen f;; mret tt
  | Close f => file_close (Some f)
  | Read f b n => file_read f b n;; mret tt
  | Write f b n => file_write f b n;; mret tt
  | Seek f p => file_seek f p
  | DenyWrite f => file_deny_write f
  | AllowWrite f => file_allow_write f
  | OpenInode x => inode_open x;; mret tt
  | CloseInode a => inode_close (Some a)
  | RemoveInode a => inode_remove a
  end.

(** Only references that no file owns are closed directly. *)
Definition legal (s : fs) (c : file_call) : Prop :=
  few_openers s /\ match c with CloseInode a => spare s a | _ => True end.

Definition ends_protection (f : Z) (c : file_call) : Prop := c = AllowWrite f \/ c = Close f.

(** A call that returns, with [excl] a class of calls that are not made. *)
Definition file_step (excl : file_call -> Prop) (s s' : fs) : Prop :=
  exists c, legal s c /\ ~ excl c /\ run_call c s = Ret (tt, s').

(** What a call does to the other files. *)
Definition files_stay (c : file_call) (s s' : fs) : Prop :=
  forall f x, ~ ends_protection f c -> files s !! f = Some x ->
    exists x', files s' !! f = Some x' /\ f_inode x' = f_inode x /\ (deny_write x = true -> deny_write x' = true).

Lemma files_stay_same c s s' : files s' = files s -> files_stay c s s'.
Proof. intros E f x _ Hx. exists x. by rewrite E. Qed.

Lemma files_stay_update c s s' f x x' : files s' = <[f := x']> (files s) -> files s !! f = Some x ->
  f_inode x' = f_inode x -> (deny_write x = true -> deny_write x' = true) -> files_stay c s s'.
Proof.
  intros E Hx Hi Hd g y _ Hy. rewrite E, lookup_insert. case_decide as Ef; [|by exists y].
  subst g. simplify_eq. by exists x'.
Qed.

Lemma wlp_move s f n (Q : unit -> fs -> Prop) x x' : opens_ok s -> files s !! f = Some x ->
  x' = mk_file (f_inode x) n (deny_write x) ->
  (forall s', opens_ok s' -> files s' = <[f := x']> (files s) -> Q tt s') -> wlp (put_file f x') s Q.
Proof. intros H Hx -> HQ. apply wlp_modify, HQ; [|done]. by eapply file_update_ok. Qed.

(** After an inode was obtained, the file is opened on it. *)
Lemma wlp_file_open_result c s0 s r : opens_ok s -> (forall a, r = Some a -> spare s a) -> files s = files s0 ->
  wlp (file_open r;; mret tt) s (fun _ s' => opens_ok s' /\ files_stay c s0 s').
Proof.
  intros H Hsp E. destruct r as [a|].
  - apply wlp_bind. eapply wlp_mono; [apply wlp_file_open; [done|by apply Hsp]|].
    intros _ s' [H' Hf]. apply wlp_ret. split; [done|]. intros f x _ Hx. exists x. rewrite <- E in Hx. auto.
  - apply wlp_bind, wlp_keeps; [unfold file_open, inode_close; retains|]. intros u s' Hs. apply wlp_ret.
    split; [by eapply same_opens_ok|]. apply files_stay_same. destruct Hs as (_ & _ & -> & _). done.
Qed.

(** Reading and writing move the position and nothing else. *)
Lemma wlp_transfer {A} c s f (m : Z -> Z -> ST fs A) (n : A -> Z) : opens_ok s ->
  (forall a p, retains (m a p)) ->
  wlp (x ← get_file f; r ← m (f_inode x) (pos x);
       put_file f (mk_file (f_inode x) (s32 (pos x + n r)) (deny_write x));; mret r) s
    (fun _ s' => opens_ok s' /\ files_stay c s s').
Proof.
  intros H Hm. apply wlp_bind, wlp_get_file. intros x Hx. apply wlp_bind, wlp_keeps; [apply Hm|].
  intros r s1 Hs. pose proof (same_opens_ok _ _ Hs H) as H1. destruct Hs as (_ & _ & E & _).
  apply wlp_bind. eapply wlp_move; [done|by rewrite E|done|]. intros s' H' E'. apply wlp_ret.
  split; [done|]. rewrite E in E'. by eapply files_stay_update.
Qed.

Lemma run_call_ok c s : opens_ok s -> legal s c -> wlp (run_call c) s (fun _ s' => opens_ok s' /\ files_stay c s s').
Proof.
  intros H [Hfew Hleg]. destruct c as [x|f|f|f b n|f b n|f p|f|f|x|a|a]; unfold run_call.
  - apply wlp_bind. eapply wlp_mono; [by apply wlp_inode_open|]. intros r s1 (H1 & E & Hsp).
    by apply wlp_file_open_result.
  - unfold file_reopen. apply wlp_bind, wlp_bind, wlp_get_file. intros x Hx.
    destruct (oo_files s H f x Hx) as [i Hi]. apply wlp_bind. unfold wlp at 1. rewrite (inode_reopen_eq s _ i Hi).
    destruct (bump_ok s _ i H Hi (Hfew _ _ Hi)) as [H1 Hsp].
    eapply wlp_mono; [apply wlp_file_open; done|]. intros r s' [H' Hf]. apply wlp_ret. split; [done|].
    intros g y _ Hy. exists y. split; [by apply Hf|done].
  - eapply wlp_mono; [by apply wlp_file_close|]. intros _ s' [H' E]. split; [done|].
    intros g y Hne Hy. exists y. split; [|done]. rewrite E, lookup_delete_ne; [done|].
    unfold ends_protection in Hne. naive_solver.
  - apply wlp_bind. eapply wlp_mono; [apply (wlp_transfer (Read f b n) s f (fun a p => inode_read_at a b n p) fst H)|].
    { intros. apply retains_inode_read_at. }
    intros r s' Hs. by apply wlp_ret.
  - apply wlp_bind. eapply wlp_mono; [apply (wlp_transfer (Write f b n) s f (fun a p => inode_write_at a b n p) id H)|].
    { intros. apply retains_inode_write_at. }
    intros r s' Hs. by apply wlp_ret.
  - unfold file_seek. apply wlp_bind, wlp_assert. intros _. apply wlp_bind, wlp_get_file. intros x Hx.
    eapply wlp_move; [done..|]. intros s' H' E. split; [done|]. by eapply files_stay_update.
  - destruct (files s !! f) as [x|] eqn:Hx; [|unfold wlp, file_deny_write, mbind, ST_bind, get_file; by rewrite Hx].
    eapply wlp_mono; [apply wp_wlp; by eapply wp_file_deny_write|]. intros _ s' (H' & x' & E & Hd & Hi).
    split; [done|]. by eapply files_stay_update.
  - destruct (files s !! f) as [x|] eqn:Hx; [|unfold wlp, file_allow_write, mbind, ST_bind, get_file; by rewrite Hx].
    eapply wlp_mono; [apply wp_wlp; by eapply wp_file_allow_write|]. intros _ s' (H' & x' & E & Hd & Hi).
    split; [done|]. intros g y Hne Hy. exists y. split; [|done]. rewrite E, lookup_insert_ne; [done|].
    unfold ends_protection in Hne. naive_solver.
  - apply wlp_bind. eapply wlp_mono; [by apply wlp_inode_open|]. intros r s1 (H1 & E & Hsp).
    apply wlp_ret. split; [done|by apply files_stay_same].
  - eapply wlp_mono; [by apply wlp_inode_close|]. intros u s' [H' E]. split; [done|by apply files_stay_same].
  - apply wlp_bind, wlp_get_inode. intros i Hi. apply wlp_modify. split; [|by apply files_stay_same].
    eapply opens_ok_put; try done; simpl; [apply (oo_cnt s H a i Hi)|apply (oo_users s H a i Hi)|apply (oo_deny s H a i Hi)].
Qed.

(** ** Properties *)

(** [inode_open] of a sector that is open returns the inode it is open
    as and counts one more opener; of any other sector of the disk it
    returns a new inode with the header stored in that sector, or null when
    memory is short.  In each case the open inodes stay consistent: one
    structure per sector, with its counts of openers and protections. *)
Theorem inode_open_correct (s : fs) (sector : Z) :
  opens_ok s -> few_openers s -> disk_ok (filesys_disk s) -> sector < capacity (filesys_disk s) ->
  (forall a i, inodes s !! a = Some i -> i_sector i = sector ->
     exists s', inode_open sector s = Ret (Some a, s') /\ opens_ok s' /\
       inodes s' = <[a := mk_inode sector (open_cnt i + 1) (removed i) (deny_write_cnt i) (data i)]> (inodes s) /\
       filesys_disk s' = filesys_disk s) /\
  ((forall a i, inodes s !! a = Some i -> i_sector i <> sector) ->
   exists r s', inode_open sector s = Ret (r, s') /\ opens_ok s' /\ filesys_disk s' = filesys_disk s /\
     (mem_ok s -> exists a, r = Some a /\ inodes s !! a = None /\
        inodes s' = <[a := mk_inode sector 1 false 0 (inode_disk_of (Disk.sector (filesys_disk s) sector))]> (inodes s)) /\
     (~ mem_ok s -> r = None /\ inodes s' = inodes s)).
Proof.
  intros H Hfew Hd Hc. split.
  - intros a i Hi <-. destruct (bump_ok s a i H Hi (Hfew a i Hi)) as [H' _]. pose proof (oo_cnt s H a i Hi).
    eexists. split; [by apply inode_open_shared|]. split; [done|]. split; [|done].
    simpl. unfold bump. rewrite s32_small; [done|]. specialize (Hfew a i Hi). urange. lia.
  - intros Hno. rewrite (inode_open_fresh s sector H Hno).
    match goal with |- context [(?m s)] => assert (Hw : wp m s (fun r s' => opens_ok s' /\ filesys_disk s' = filesys_disk s /\
     (mem_ok s -> exists a, r = Some a /\ inodes s !! a = None /\
        inodes s' = <[a := mk_inode sector 1 false 0 (inode_disk_of (Disk.sector (filesys_disk s) sector))]> (inodes s)) /\
     (~ mem_ok s -> r = None /\ inodes s' = inodes s))) end; [|by apply wp_elim in Hw].
    apply wp_bind, wp_malloc; intros Hm.
    + apply wp_bind, wp_modify, wp_bind, wp_read_disk; [done..|]. simpl. apply wp_bind, wp_modify, wp_ret.
      split; [apply (open_new_ok s sector (Disk.sector (filesys_disk s) sector) H Hno)|]. split; [done|]. split; [|done]. intros _. exists (next_addr s). split_and!; [done| |done].
      destruct (inodes s !! next_addr s) eqn:E; [|done].
      pose proof (oo_fresh s H (next_addr s) ltac:(left; rewrite E; eauto)). lia.
    + apply wp_ret. split; [|done]. eapply same_opens_ok, H. split_and!; done || (simpl; lia).
Qed.

(** C8: from a consistent state, every sequence of file operations retains
    the open inodes consistent, and a file that denies writes protects its
    inode until it is itself allowed to be written or closed: in between, a
    write through any file of that inode writes nothing and changes
    nothing. *)
Theorem deny_write_lasts (s s' : fs) (f : Z) (x : file) :
  opens_ok s -> files s !! f = Some x -> deny_write x = true ->
  reach (file_step (ends_protection f)) s s' ->
  opens_ok s' /\
  forall g y buffer size file_ofs, files s' !! g = Some y -> f_inode y = f_inode x ->
    file_write_at g buffer size file_ofs s' = Ret (0, s').
Proof.
  intros H Hx Hd Hr.
  assert (Hinv : opens_ok s' /\ exists x', files s' !! f = Some x' /\ f_inode x' = f_inode x /\ deny_write x' = true).
  { eapply (reach_invariant _ (fun t => opens_ok t /\
      exists x', files t !! f = Some x' /\ f_inode x' = f_inode x /\ deny_write x' = true)); [by eauto| |exact Hr].
    intros t t' (Ht & x1 & Hx1 & Ei & Ed) (c & Hl & Hne & E).
    destruct (wlp_elim _ _ _ _ _ (run_call_ok c t Ht Hl) E) as [Ht' Hst]. split; [done|].
    destruct (Hst f x1 Hne Hx1) as (x2 & Hx2 & Ei2 & Ed2). exists x2. split_and!; [done|congruence|auto]. }
  destruct Hinv as (H' & x' & Hx' & Ei & Ed). split; [done|]. intros g y buffer size ofs Hy Eg.
  destruct (oo_files s' H' f x' Hx') as [i Hi]. rewrite Ei in Hi.
  assert (Hpos : 0 < deny_write_cnt i).
  { rewrite (oo_deny s' H' _ i Hi). eapply count_pos; [exact Hx'|]. unfold denies. by rewrite Ei, Z.eqb_refl, Ed. }
  unfold file_write_at. rewrite (bind_run _ _ s' y s') by (unfold get_file; by rewrite Hy). rewrite Eg.
  unfold inode_write_at. rewrite (bind_run _ _ s' i s') by (unfold get_inode; by rewrite Hi).
  destruct (Z.eqb_spec (deny_write_cnt i) 0); [lia|done].
Qed.

(** The file of InodeProps.v, open twice, protected by the first file. *)
Definition demo_open : fs :=
  mk_fs (filesys_disk demo_fs) {[ 1 := mk_inode 2 2 false 1 demo_header ]} [1] (free_map demo_fs)
    {[ 10 := mk_file 1 0 true; 11 := mk_file 1 5 false ]} None [] 20.

Lemma demo_open_ok : opens_ok demo_open.
Proof.
  split; simpl.
  - apply NoDup_singleton.
  - intros a. rewrite list_elem_of_singleton, lookup_singleton. case_decide; [subst; naive_solver|].
    split; [congruence|by intros [? ?]].
  - intros a b i j. rewrite !lookup_singleton. repeat case_decide; congruence.
  - intros a i. rewrite lookup_singleton. case_decide; [|done]. by intros [= <-].
  - intros a i. rewrite lookup_singleton. case_decide; [|done]. intros [= <-]. subst. vm_compute. discriminate.
  - intros a i. rewrite lookup_singleton. case_decide; [|done]. intros [= <-]. subst. by vm_compute.
  - intros f x. rewrite lookup_insert. case_decide; [intros [= <-]; by eexists|].
    rewrite lookup_singleton. case_decide; [intros [= <-]; by eexists|done].
  - intros a. rewrite lookup_insert, !lookup_singleton. repeat case_decide; subst; try lia. by intros [[? ?]|[? ?]].
Qed.

Lemma inode_open_correct_witness :
  exists s', inode_open 2 demo_open = Ret (Some 1, s') /\ opens_ok s' /\
    inodes s' = {[ 1 := mk_inode 2 3 false 1 demo_header ]} /\ filesys_disk s' = filesys_disk demo_open.
Proof.
  apply (proj1 (inode_open_correct demo_open 2 demo_open_ok
    ltac:(intros a i; simpl; rewrite lookup_singleton; case_decide; [intros [= <-]; reflexivity|discriminate])
    (proj1 (proj2 demo_opened)) ltac:(reflexivity)) 1 (mk_inode 2 2 false 1 demo_header)); reflexivity.
Defined.

(** The second file is moved, then tries to write. *)
Lemma deny_write_lasts_witness :
  exists s', run_call (Seek 11 100) demo_open = Ret (tt, s') /\ file_write_at 11 [1; 2; 3] 3 100 s' = Ret (0, s').
Proof.
  eexists. split; [reflexivity|].
  eapply (deny_write_lasts demo_open _ 10 (mk_file 1 0 true));
    [apply demo_open_ok|reflexivity|reflexivity| |reflexivity|reflexivity].
  eapply reach_step; [apply reach_refl|]. exists (Seek 11 100). split_and!; [|by intros [?|?]|reflexivity].
  split; [|done]. intros a i. simpl. rewrite lookup_singleton. case_decide; [intros [= <-]; reflexivity|discriminate].
Defined.
