(* ===== verification/FreeMapProps.v ===== *)
(** * The free map: allocation of disk sectors and new inodes

    The free map is kept twice, as a bitmap in memory and as the contents of
    the free-map file.  The theorems relate the two through the bytes on the
    disk and show what a new inode looks like there. *)

From S2P Require Import Prelude Vaddr Bitmap Bytes Disk Inode InodeProps File.

(** ** Elements as bytes *)

Lemma bytes_of_words_length l : length (bytes_of_words l) = (4 * length l)%nat.
Proof.
  induction l as [|x l IH]; [done|]. cbn [bytes_of_words flat_map].
  rewrite length_app, to_le_length. fold (bytes_of_words l). rewrite IH. simpl. lia.
Qed.

Lemma words_of_bytes_words l : Forall is_u32 l -> words_of_bytes (length l) (bytes_of_words l) = l.
Proof.
  induction 1 as [|x l Hx Hl IH]; [done|]. cbn [length words_of_bytes bytes_of_words flat_map].
  rewrite take_app_length', drop_app_length' by (by rewrite to_le_length).
  f_equal; [|exact IH]. apply of_to_le. exact Hx.
Qed.

(** The elements of a bitmap are exactly as many as its bits need. *)
Definition exact (b : bitmap) : Prop := bitmap_ok b /\ 0 < bit_cnt b <= 2 ^ 28 /\ Z.of_nat (length (bits b)) = elem_cnt (bit_cnt b).

Lemma exact_size b : exact b ->
  byte_cnt (bit_cnt b) = 4 * length (bits b) /\ 0 < byte_cnt (bit_cnt b) < 2 ^ 27 /\
  s32 (byte_cnt (bit_cnt b)) = byte_cnt (bit_cnt b).
Proof.
  intros (Hok & Hc & Hl). unfold byte_cnt, ELEM_SIZE. rewrite <- Hl.
  unfold elem_cnt, DIV_ROUND_UP, ELEM_BITS in Hl.
  rewrite (u32_small (bit_cnt b + 32)) in Hl by (urange; lia). rewrite u32_small in Hl by (urange; lia).
  assert (0 < Z.of_nat (length (bits b)) <= 2 ^ 24).
  { rewrite Hl. split; [apply Z.div_str_pos; lia|]. apply Z.div_le_upper_bound; lia. }
  rewrite u32_small by (urange; lia). split_and!; [done|lia|lia|]. apply s32_small. urange. lia.
Qed.

Lemma exact_set b b' P v : exact b -> bits_set b b' P v -> exact b'.
Proof. intros (H1 & H2 & H3) (Hb & Hc & Hl & _). split_and!; [done|lia|lia|congruence]. Qed.

(** ** The free-map file *)

(** [f] is an open file of the size of the map that nothing protects. *)
Record map_file (s : fs) (f a : Z) (i : struct_inode) : Prop := {
  mf_map : exact (free_map s);
  mf_file : exists x, files s !! f = Some x /\ f_inode x = a;
  mf_open : opened s a i;
  mf_free : deny_write_cnt i = 0;
  mf_size : i_length (data i) = byte_cnt (bit_cnt (free_map s));
}.

(** What the file holds. *)
Definition saved (s : fs) (i : struct_inode) : Prop :=
  contents (filesys_disk s) (data i) = bytes_of_words (bits (free_map s)).

Lemma wp_on_free_map {A} (m : ST bitmap A) s Q :
  wp m (free_map s) (fun a b => Q a (set_free_map b s)) -> wp (on_free_map m) s Q.
Proof. unfold wp, on_free_map. by destruct (m _) as [[a b]| |]. Qed.

Lemma wp_get_file s f x Q : files s !! f = Some x -> Q x s -> wp (get_file f) s Q.
Proof. intros H HQ. unfold wp, get_file. by rewrite H. Qed.

(** The bytes outside the range of a file. *)
Definition outside (i : inode_disk) (d d' : disk) : Prop :=
  forall a, a < base_of i \/ base_of i + i_length i <= a -> byte_at d' a = byte_at d a.

Lemma wp_bitmap_write s f a i Q : map_file s f a i ->
  (forall r s' d', heap_only (set_disk d' s) s' -> disk_ok d' -> capacity d' = capacity (filesys_disk s) ->
     outside (data i) (filesys_disk s) d' -> (r = true -> saved s' i) -> (mem_ok s -> r = true) -> Q r s') ->
  wp (bitmap_write f) s Q.
Proof.
  intros H HQ. destruct (exact_size _ (mf_map _ _ _ _ H)) as (Eb & Hr & Es).
  destruct (mf_file _ _ _ _ H) as (x & Hx & Hxa). pose proof (mf_open _ _ _ _ H) as Hop.
  pose proof (mf_size _ _ _ _ H) as Hsz. pose proof (bytes_of_words_length (bits (free_map s))) as Hbl.
  apply wp_bind, wp_gets, wp_bind. rewrite Es. unfold file_write_at. eapply wp_bind, wp_get_file; [done|]. rewrite Hxa.
  apply (wp_inode_write_at s a i); [done|lia|lia|rewrite Eb; lia|intros; by destruct H|].
  intros n s' _ Hn Hfull (d' & Hst & Hh). apply wp_ret. unfold avail in *.
  assert (Hs : filesys_disk s' = d' /\ free_map s' = free_map s) by (by destruct Hh as (? & ? & -> & _)).
  destruct Hs as [Ed Em].
  apply (HQ _ s' d'); [done|apply Hst|apply Hst| | |].
  - intros p Hp. destruct Hst as (_ & _ & Hb). rewrite Hb. zcases; simpl; done || lia.
  - intros ->%Z.eqb_eq. unfold saved. rewrite Ed, Em. apply stored_contents in Hst; [|lia..].
    rewrite Hst. destruct (Z.eqb_spec (byte_cnt (bit_cnt (free_map s))) 0); [lia|].
    rewrite take_ge by lia. apply splice_all. rewrite contents_length by lia. lia.
  - intros Hm. rewrite Hfull by done. apply Z.eqb_eq. lia.
Qed.

Lemma wp_bitmap_read s f a i Q : map_file s f a i ->
  (forall r s', heap_only (set_free_map (free_map s') s) s' -> bit_cnt (free_map s') = bit_cnt (free_map s) ->
     (forall words, Forall is_u32 words -> length words = length (bits (free_map s)) ->
        contents (filesys_disk s) (data i) = bytes_of_words words -> mem_ok s ->
        r = true /\ bits (free_map s') =
          <[Nat.pred (length words) := Z.land (nth (Nat.pred (length words)) words 0) (last_mask (free_map s))]> words) ->
     Q r s') ->
  wp (bitmap_read f) s Q.
Proof.
  intros H HQ. pose proof (mf_map _ _ _ _ H) as Hex. destruct (exact_size _ Hex) as (Eb & Hr & Es).
  destruct (mf_file _ _ _ _ H) as (x & Hx & Hxa). pose proof (mf_open _ _ _ _ H) as Hop.
  pose proof (mf_size _ _ _ _ H) as Hsz. pose proof (bytes_of_words_length (bits (free_map s))) as Hbl.
  destruct Hex as (Hok & Hc & Hl).
  apply wp_bind, wp_gets. destruct (Z.ltb_spec 0 (bit_cnt (free_map s))); [|lia]. apply wp_bind. rewrite Es.
  unfold file_read_at. eapply wp_bind, wp_get_file; [done|]. rewrite Hxa.
  apply (wp_inode_read_at s a i); [done|lia|lia|rewrite Eb; lia|].
  intros n buf s' Hh Hn Hfull Hfil. apply wp_bind, wp_modify. cbn [fst snd].
  set (ws := words_of_bytes (length (bits (free_map s))) buf).
  assert (Hws : length ws = length (bits (free_map s))).
  { subst ws. clear. generalize (length (bits (free_map s))) as m. intros m. revert buf. induction m; intros; simpl; auto. }
  assert (Hlast : u32 (elem_cnt (bit_cnt (free_map s)) - 1) = Nat.pred (length ws)).
  { rewrite <- Hl, Hws. rewrite u32_small by (urange; lia). lia. }
  destruct (lookup_lt_is_Some_2 ws (Nat.pred (length ws))) as [y Hy]; [lia|].
  rewrite Hlast. apply wp_bind, wp_on_free_map. unfold wp, get_elem. simpl. rewrite Nat2Z.id, Hy.
  apply wp_bind, wp_on_free_map. unfold wp, set_elem. simpl. rewrite Nat2Z.id, Hy. apply wp_ret.
  apply HQ; simpl; [|done|].
  - destruct Hh as (m & k & -> & ? & ?). by exists m, k.
  - intros words Hu Hwl Hcon Hm. unfold avail in *. specialize (Hfull Hm).
    split; [apply Z.eqb_eq; lia|].
    apply filled_contents in Hfil; [|lia..]. assert (ws = words) as ->.
    { subst ws. rewrite <- Hwl, Hfil, Hcon. rewrite drop_ge, app_nil_r by lia.
      rewrite slice_all by (rewrite bytes_of_words_length; lia). by apply words_of_bytes_words. }
    f_equal. f_equal. rewrite nth_lookup, Hy. done.
Qed.

(** The mask of the last element keeps the bits of the map. *)
Lemma last_mask_bit b j : bitmap_ok b -> 0 <= j < bit_cnt b -> j / 32 = (bit_cnt b - 1) / 32 ->
  Z.testbit (last_mask b) (j mod 32) = true.
Proof.
  intros H Hj E. unfold last_mask, ELEM_BITS. pose proof (Z.mod_pos_bound j 32).
  pose proof (Z.mod_pos_bound (bit_cnt b) 32). destruct (Z.eqb_spec (bit_cnt b mod 32) 0) as [Hz|Hz].
  - change (u32 (-1)) with (Z.ones 32). apply Z.ones_spec_low. lia.
  - rewrite Z.shiftl_1_l.
    assert (2 ^ (bit_cnt b mod 32) <= 2 ^ 31) by (apply Z.pow_le_mono_r; lia).
    assert (0 < 2 ^ (bit_cnt b mod 32)) by (apply Z.pow_pos_nonneg; lia).
    rewrite (u32_small (2 ^ _)) by (urange; lia). rewrite u32_small by (urange; lia).
    rewrite Z.sub_1_r, <- Z.ones_equiv. apply Z.ones_spec_low.
    pose proof (Z.div_mod j 32). pose proof (Z.div_mod (bit_cnt b) 32).
    assert ((bit_cnt b - 1) / 32 = bit_cnt b / 32).
    { symmetry. apply (Z.div_unique _ 32 _ (bit_cnt b mod 32 - 1)); lia. }
    lia.
Qed.

Lemma bit_masked b b' j : exact b -> bit_cnt b' = bit_cnt b ->
  bits b' = <[Nat.pred (length (bits b)) :=
               Z.land (nth (Nat.pred (length (bits b))) (bits b) 0) (last_mask b)]> (bits b) ->
  0 <= j < bit_cnt b -> bit b' j = bit b j.
Proof.
  intros (Hok & Hc & Hl) Ec E Hj. unfold bit. rewrite E. unfold ELEM_BITS.
  rewrite !nth_lookup, list_lookup_insert.
  case_decide as Ek; [|done]. destruct Ek as [Ek1 Ek2]. simpl.
  rewrite <- Ek1, Z.land_spec, last_mask_bit; [by rewrite andb_true_r|done|done|].
  unfold elem_cnt, DIV_ROUND_UP, ELEM_BITS in Hl.
  rewrite (u32_small (bit_cnt b + 32)) in Hl by (urange; lia). rewrite u32_small in Hl by (urange; lia).
  pose proof (Z.div_pos j 32).
  replace (bit_cnt b + 32 - 1) with (bit_cnt b - 1 + 1 * 32) in Hl by lia. rewrite Z.div_add in Hl by lia. lia.
Qed.

(** ** Allocation *)

Lemma map_file_bits s s' f a i P v : map_file s f a i -> bits_set (free_map s) (free_map s') P v ->
  files s' = files s -> inodes s' = inodes s -> disk_ok (filesys_disk s') ->
  capacity (filesys_disk s') = capacity (filesys_disk s) -> map_file s' f a i.
Proof.
  intros H Hb Ef Ei Hd Hc. destruct H as [H1 H2 (Ho1 & Ho2 & Ho3) H4 H5]. split.
  - by eapply exact_set.
  - by rewrite Ef.
  - split_and!; [by rewrite Ei|done|by eapply inode_wf_capacity].
  - done.
  - destruct Hb as (_ & -> & _). done.
Qed.

(** What allocation leaves alone: all but the map, the bytes of the
    free-map file and the heap. *)
Definition map_only (i : inode_disk) (s s' : fs) : Prop :=
  inodes s' = inodes s /\ open_inodes s' = open_inodes s /\ files s' = files s /\
  free_map_file s' = free_map_file s /\ next_addr s <= next_addr s' /\ mallocs s' `suffix_of` mallocs s /\
  disk_ok (filesys_disk s') /\ capacity (filesys_disk s') = capacity (filesys_disk s) /\
  outside i (filesys_disk s) (filesys_disk s').

Definition same_bits (b b' : bitmap) : Prop := bits_set b b' (fun _ => false) (fun _ => false).

Lemma wp_free_map_allocate s f a i cnt Q : map_file s f a i -> free_map_file s = Some f -> 0 <= cnt ->
  (forall x s', map_only (data i) s s' -> 0 <= x -> x + cnt <= bit_cnt (free_map s) -> group (free_map s) x cnt false ->
     (forall k, 0 <= k < x -> ~ group (free_map s) k cnt false) ->
     bits_set (free_map s) (free_map s') (in_group x cnt) (fun _ => true) -> saved s' i -> Q (Some x) s') ->
  (forall s', map_only (data i) s s' -> same_bits (free_map s) (free_map s') ->
     (mem_ok s -> forall k, 0 <= k -> k + cnt <= bit_cnt (free_map s) -> ~ group (free_map s) k cnt false) ->
     Q None s') ->
  wp (free_map_allocate cnt) s Q.
Proof.
  intros H Hf Hc HQ1 HQ2. pose proof (mf_map _ _ _ _ H) as Hex. pose proof Hex as (Hok & Hcnt & _).
  pose proof (mf_open _ _ _ _ H) as (_ & Hd & _).
  unfold free_map_allocate. apply wp_bind, wp_on_free_map, wp_bitmap_scan_and_flip; [done|lia|done|].
  intros x b' Hr [[-> ->]|[Hne Hb]].
  - rewrite Z.eqb_refl. apply wp_ret. destruct Hr as [(? & ? & _)|[_ Hno]]; [unfold BITMAP_ERROR in *; lia|].
    apply HQ2; [|by apply bits_set_refl|done]. split_and!; try done; simpl; lia || done.
  - destruct Hr as [(Hx & Hxc & Hg & Hmin)|[? _]]; [|done].
    destruct (Z.eqb_spec x BITMAP_ERROR); [done|]. apply wp_bind, wp_gets. simpl. rewrite Hf.
    set (s1 := set_free_map b' s).
    assert (H1 : map_file s1 f a i) by (eapply map_file_bits; [exact H|exact Hb|done..]).
    apply wp_bind, (wp_bitmap_write s1 f a i); [done|].
    intros r s2 d' Hh Hd' Hcap Hout Hsave Hmem.
    assert (Hmo : map_only (data i) s s2 /\ free_map s2 = b').
    { destruct Hh as (m & k & -> & ? & ?). done. }
    destruct Hmo as [Hmo E2]. destruct r.
    + apply wp_ret, (HQ1 x); [done|lia|lia|done|done|by rewrite E2|by apply Hsave].
    + assert (Hb2 : bitmap_ok (free_map s2)) by (rewrite E2; apply Hb).
      assert (Ec2 : bit_cnt (free_map s2) = bit_cnt (free_map s)) by (rewrite E2; apply Hb).
      apply wp_bind, wp_on_free_map, wp_bitmap_set_multiple; [done|lia|lia|lia|]. intros b3 Hb3. apply wp_ret.
      apply HQ2.
      * destruct Hmo as (? & ? & ? & ? & ? & ? & ? & ? & ?). done.
      * destruct Hb3 as (Hk & Hc3 & Hl3 & Hb3). destruct Hb as (_ & Hc1 & Hl1 & Hb).
        split_and!; simpl; [done|congruence|rewrite Hl3, E2; done|]. intros j Hj. rewrite Hb3 by lia.
        destruct (in_group x cnt j) eqn:Ej.
        -- symmetry. apply Hg. unfold in_group in Ej. lia.
        -- rewrite E2, Hb by lia. by rewrite Ej.
      * intros Hm. discriminate (Hmem Hm).
Qed.

(** ** Properties *)

(** a free map written with [bitmap_write] is the one that
    [bitmap_read] restores later, through any open file with the same data
    on a disk with the same contents: every bit comes back. *)
Theorem bitmap_file_roundtrip (s : fs) (f a : Z) (i : struct_inode) :
  map_file s f a i -> mem_ok s ->
  exists s', bitmap_write f s = Ret (true, s') /\
    forall t g a' i', map_file t g a' i' -> data i' = data i -> mem_ok t ->
      filesys_disk t = filesys_disk s' -> bit_cnt (free_map t) = bit_cnt (free_map s) ->
      exists t', bitmap_read g t = Ret (true, t') /\ bit_cnt (free_map t') = bit_cnt (free_map s) /\
        forall j, 0 <= j < bit_cnt (free_map s) -> bit (free_map t') j = bit (free_map s) j.
Proof.
  intros H Hm.
  assert (Hw := wp_bitmap_write s f a i (fun r s' => r = true /\ saved s' i /\ free_map s' = free_map s) H).
  apply wp_elim in Hw as (r & s' & E & -> & Hsave & Em).
  2: { intros r s' d' Hh _ _ _ Hs Hr. specialize (Hr Hm). split_and!; [done|by apply Hs|].
       by destruct Hh as (? & ? & -> & _). }
  exists s'. split; [done|]. intros t g a' i' Ht Edata Hmt Ed Ec.
  pose proof (mf_map _ _ _ _ H) as Hex. pose proof (mf_map _ _ _ _ Ht) as Hext.
  pose proof (proj1 (exact_size _ Hex)) as E1. pose proof (proj1 (exact_size _ Hext)) as E2. rewrite Ec in E2.
  assert (Hlen : length (bits (free_map s)) = length (bits (free_map t))) by lia.
  assert (Hr := wp_bitmap_read t g a' i' (fun r t' => r = true /\ bit_cnt (free_map t') = bit_cnt (free_map s) /\
    forall j, 0 <= j < bit_cnt (free_map s) -> bit (free_map t') j = bit (free_map s) j) Ht).
  apply wp_elim in Hr as (r & t' & E' & -> & Hrest); [by exists t'|].
  intros r t' _ Hcnt Hwords. unfold saved in Hsave. rewrite Em in Hsave.
  destruct (Hwords (bits (free_map s))) as [-> Hbits]; [apply Hex|done|by rewrite Edata, Ed|done|].
  split_and!; [done|congruence|]. intros j Hj. apply bit_masked; [done|congruence| |done].
  rewrite Hbits. do 2 f_equal. unfold last_mask. by rewrite Ec.
Qed.

(** A disk of 16 sectors: the header of the free map in sector 0, the root
    directory's in sector 1, the map itself in sector 2. *)
Definition demo_map_inode : struct_inode := mk_inode 0 1 false 0 (mk_inode_disk 2 4 INODE_MAGIC (replicate 500 0)).
Definition demo_map : fs :=
  mk_fs (mk_disk 16 ∅) {[ 1 := demo_map_inode ]} [1] (mk_bitmap 16 [7]) {[ 5 := mk_file 1 0 false ]} (Some 5) [] 20.

Lemma demo_map_ok : map_file demo_map 5 1 demo_map_inode.
Proof.
  split; [|by eexists| |done|done].
  - split_and!; [|done..]. split; simpl; [done|done|]. repeat constructor; done.
  - split_and!; [done|split; [done|]; simpl; intros ? ?; by rewrite lookup_empty|split; done].
Qed.

Lemma bitmap_file_roundtrip_witness :
  exists s', bitmap_write 5 demo_map = Ret (true, s') /\
    forall t g a' i', map_file t g a' i' -> data i' = data demo_map_inode -> mem_ok t ->
      filesys_disk t = filesys_disk s' -> bit_cnt (free_map t) = 16 ->
      exists t', bitmap_read g t = Ret (true, t') /\ bit_cnt (free_map t') = 16 /\
        forall j, 0 <= j < 16 -> bit (free_map t') j = bit (mk_bitmap 16 [7]) j.
Proof. apply (bitmap_file_roundtrip demo_map 5 1 demo_map_inode); [apply demo_map_ok|discriminate]. Defined.
