(* ===== verification/InodeCreate.v ===== *)
(** * New inodes: [inode_create] of filesys/inode.c *)

From S2P Require Import Prelude Vaddr Bitmap Bytes Disk Inode InodeProps File FileProps FreeMapProps.

(** ** The header on disk *)

Definition header (start length : Z) : inode_disk := mk_inode_disk start length INODE_MAGIC (replicate 500 0).

Lemma sector_of_length h : length (unused h) = 500%nat -> length (sector_of h) = 512%nat.
Proof. intros H. unfold sector_of. rewrite !length_app, !to_le_length, H. done. Qed.

Lemma header_roundtrip x n : is_u32 x -> is_s32 n -> inode_disk_of (sector_of (header x n)) = header x n.
Proof.
  intros Hx Hn. unfold inode_disk_of, sector_of, header. cbn [start i_length magic unused].
  change (slice 0 4 ?l) with (take 4 l). change (slice 4 4 ?l) with (take 4 (drop 4 l)).
  change (slice 8 4 ?l) with (take 4 (drop 8 l)).
  set (z := replicate 500 0). clearbody z. cbn [to_le app take drop of_le].
  f_equal; [exact (of_to_le 4 x Hx)|].
  transitivity (s32 (u32 n)); [f_equal; exact (of_to_le 4 (u32 n) (u32_range n))|].
  urange. rewrite Zplus_mod_idemp_l, Z.mod_small; lia.
Qed.

(** Sectors of a file of [n] bytes. *)
Lemma bytes_to_sectors_eq n : 0 <= n < 2 ^ 31 - 512 ->
  let k := bytes_to_sectors n in k = (n + 511) / 512 /\ 0 <= k /\ n <= 512 * k < n + 512.
Proof.
  intros Hn k. subst k. unfold bytes_to_sectors, DISK_SECTOR_SIZE.
  rewrite (s32_small (n + 512)) by (urange; lia). rewrite s32_small by (urange; lia).
  rewrite Z.quot_div_nonneg by lia. replace (n + 512 - 1) with (n + 511) by lia.
  pose proof (Z.div_mod (n + 511) 512). pose proof (Z.mod_pos_bound (n + 511) 512).
  rewrite u32_small by (urange; lia). lia.
Qed.

(** ** Clearing the data *)

(** [d'] is [d] with zeros in the bytes from [lo] to [hi]. *)
Definition zeroed (d : disk) (lo hi : Z) (d' : disk) : Prop :=
  disk_ok d' /\ capacity d' = capacity d /\
  forall a, byte_at d' a = if (lo <=? a) && (a <? hi) then 0 else byte_at d a.

Lemma zeroed_sector d x : disk_ok d -> zeroed d (512 * x) (512 * (x + 1)) (disk_put x zero_sector d).
Proof.
  intros Hd. split_and!; [by apply disk_put_ok|done|]. intros a. rewrite byte_at_put.
  pose proof (Z.div_mod a 512). pose proof (Z.mod_pos_bound a 512).
  destruct (Z.eqb_spec (a / 512) x).
  - destruct (Z.leb_spec (512 * x) a), (Z.ltb_spec a (512 * (x + 1))); simpl; try lia. apply byte_replicate. lia.
  - destruct (Z.leb_spec (512 * x) a), (Z.ltb_spec a (512 * (x + 1))); simpl; try done. lia.
Qed.

Lemma wp_write_zeros fuel x n i s Q : disk_ok (filesys_disk s) -> 0 <= x -> 0 <= i <= n ->
  x + n <= capacity (filesys_disk s) -> (Z.to_nat (n - i) < fuel)%nat ->
  (forall d', zeroed (filesys_disk s) (512 * (x + i)) (512 * (x + n)) d' -> Q tt (set_disk d' s)) ->
  wp (write_zeros fuel x n i) s Q.
Proof.
  revert i s Q. induction fuel as [|fuel IH]; intros i s Q Hd Hx Hi Hc Hf HQ; [lia|]. cbn [write_zeros].
  pose proof (dk_cap _ Hd). destruct (Z.ltb_spec i n).
  - rewrite !u32_small by (urange; lia). eapply wp_bind, wp_write_disk; [done|lia|].
    pose proof (zeroed_sector (filesys_disk s) (x + i) Hd) as (Hd1 & Hc1 & Hb1).
    apply IH; [done|lia|lia|simpl; lia|lia|]. simpl. intros d' (Hd2 & Hc2 & Hb2).
    apply (HQ d'). split_and!; [done|congruence|]. intros a. rewrite Hb2, Hb1. zcases; simpl; done || lia.
  - apply wp_ret. rewrite <- (set_disk_same s) at 1. apply HQ. split_and!; [done..|].
    intros a. zcases; simpl; done || lia.
Qed.

(** ** The whole call *)

(** The free map covers the disk and marks the sector [sector] and those of
    the free-map file. *)
Record create_pre (s : fs) (f a : Z) (i : struct_inode) (sector : Z) : Prop := {
  cp_file : map_file s f a i;
  cp_static : free_map_file s = Some f;
  cp_cover : bit_cnt (free_map s) = capacity (filesys_disk s);
  cp_sector : 0 <= sector < capacity (filesys_disk s) /\ bit (free_map s) sector = true;
  cp_map : forall p, base_of (data i) <= p < base_of (data i) + i_length (data i) -> bit (free_map s) (p / 512) = true;
  cp_apart : forall p, base_of (data i) <= p < base_of (data i) + i_length (data i) -> p / 512 <> sector;
}.

(** The new file: header in place, data cleared and in sectors that were
    free, every other byte of the disk as before except the free-map file,
    which holds the new map. *)
Definition created (s : fs) (i : struct_inode) (sector length x : Z) (s' : fs) : Prop :=
  let h := header x length in
  let n := bytes_to_sectors length in
  Disk.sector (filesys_disk s') sector = sector_of h /\
  inode_disk_of (Disk.sector (filesys_disk s') sector) = h /\
  inode_wf (filesys_disk s') h /\
  contents (filesys_disk s') h = replicate (Z.to_nat length) 0 /\
  group (free_map s) x n false /\ bits_set (free_map s) (free_map s') (in_group x n) (fun _ => true) /\
  saved s' i /\
  forall p, p / 512 <> sector -> ~ base_of h <= p < base_of h + 512 * n ->
    ~ base_of (data i) <= p < base_of (data i) + i_length (data i) ->
    byte_at (filesys_disk s') p = byte_at (filesys_disk s) p.

(** The disk after the header and the zeros, byte by byte. *)
Lemma created_disk s i sector length x s1 d2 f a : create_pre s f a i sector -> 0 <= length < 2 ^ 31 - 512 ->
  let n := bytes_to_sectors length in
  map_only (data i) s s1 -> 0 <= x -> x + n <= bit_cnt (free_map s) -> group (free_map s) x n false ->
  bits_set (free_map s) (free_map s1) (in_group x n) (fun _ => true) -> saved s1 i ->
  zeroed (disk_put sector (sector_of (header x length)) (filesys_disk s1)) (512 * x) (512 * (x + n)) d2 ->
  created s i sector length x (set_disk d2 s1).
Proof.
  intros H Hlen n Hmo Hx Hxn Hg Hb Hs (Hd2 & Hc2 & Hb2).
  destruct (bytes_to_sectors_eq length Hlen) as (_ & Hk & Hk2). fold n in Hk, Hk2. cbv zeta in *.
  destruct (cp_sector _ _ _ _ _ H) as [Hsec Hbit]. pose proof (cp_cover _ _ _ _ _ H) as Hcov.
  destruct Hmo as (_ & _ & _ & _ & _ & _ & Hd1 & Hc1 & Hout).
  pose proof (mf_open _ _ _ _ (cp_file _ _ _ _ _ H)) as (_ & Hd0 & Hwf).
  pose proof (dk_cap _ Hd0). pose proof (iw_len _ _ Hwf).
  (* the new sectors were free, the header and the free-map file were not *)
  assert (Hns : ~ x <= sector < x + n) by (intros Hin; rewrite Hg in Hbit by lia; done).
  assert (Hnm : forall p, base_of (data i) <= p < base_of (data i) + i_length (data i) -> ~ x <= p / 512 < x + n).
  { intros p Hp Hin. pose proof (cp_map _ _ _ _ _ H p Hp) as Hbp. rewrite Hg in Hbp by lia. done. }
  assert (Hbytes : forall p, byte_at d2 p = if (512 * x <=? p) && (p <? 512 * (x + n)) then 0
      else if p / 512 =? sector then byte (sector_of (header x length)) (p mod 512) else byte_at (filesys_disk s1) p).
  { intros p. by rewrite Hb2, byte_at_put. }
  assert (Esec : Disk.sector d2 sector = sector_of (header x length)).
  { apply bytes_eq; [by rewrite sector_length, sector_of_length|]. rewrite sector_length by done. intros k Hk'.
    specialize (Hbytes (512 * sector + k)). unfold byte_at at 1 in Hbytes.
    destruct (sector_addr sector k) as [E1 E2]; [lia|]. rewrite E1, E2, Z.div_small, Z.mod_small, Z.add_0_r in Hbytes by lia.
    rewrite Hbytes, Z.eqb_refl. zcases; simpl; lia || done. }
  assert (Hwf' : inode_wf d2 (header x length)).
  { split; simpl; [lia|done|]. unfold base_of. simpl. simpl in Hc2. lia. }
  unfold created. cbv zeta. fold n. simpl. split_and!; try done.
  - rewrite Esec. apply header_roundtrip; urange; lia.
  - apply bytes_eq; [rewrite contents_length, length_replicate by (simpl; lia); done|].
    rewrite contents_length by (simpl; lia). simpl. intros k Hk'. rewrite byte_contents by (simpl; lia).
    rewrite Hbytes, byte_replicate by lia. unfold base_of. simpl. zcases; simpl; lia || done.
  - unfold saved in *. simpl. rewrite <- Hs. apply bytes_eq; [rewrite !contents_length by lia; done|].
    rewrite contents_length by lia. intros k Hk'. rewrite !byte_contents by lia. rewrite Hbytes.
    assert (Hp : base_of (data i) <= base_of (data i) + k < base_of (data i) + i_length (data i)) by lia.
    pose proof (Hnm _ Hp). pose proof (cp_apart _ _ _ _ _ H _ Hp).
    pose proof (Z.div_mod (base_of (data i) + k) 512). pose proof (Z.mod_pos_bound (base_of (data i) + k) 512).
    zcases; simpl; lia || done.
  - intros p Hp1 Hp2 Hp3. rewrite Hbytes. unfold base_of in Hp2. simpl in Hp2.
    rewrite <- (Hout p) by lia. zcases; simpl; lia || done.
Qed.

(** What creation leaves alone besides. *)
Definition creates (s s' : fs) : Prop :=
  same_opens s s' /\ free_map_file s' = free_map_file s /\ mallocs s' `suffix_of` mallocs s /\
  disk_ok (filesys_disk s') /\ capacity (filesys_disk s') = capacity (filesys_disk s).

Lemma map_only_creates i s s' : map_only i s s' -> creates s s'.
Proof. intros (? & ? & ? & ? & ? & ? & ? & ? & ?). by split_and!. Qed.

Lemma map_file_heap s m n f a i : map_file s f a i -> map_file (set_heap m n s) f a i.
Proof. intros [H1 H2 H3 H4 H5]. by split. Qed.

Lemma map_only_heap i s m n s' : map_only i (set_heap m n s) s' -> next_addr s <= n -> m `suffix_of` mallocs s -> map_only i s s'.
Proof. intros (? & ? & ? & ? & ? & ? & ? & ? & ?) Hn Hm. split_and!; try done; [simpl in *; lia|by etrans]. Qed.

Lemma wp_inode_create s f a i sector length Q : create_pre s f a i sector -> 0 <= length < 2 ^ 31 - 512 ->
  let n := bytes_to_sectors length in
  (forall x s', created s i sector length x s' -> creates s s' -> 0 <= x -> x + n <= bit_cnt (free_map s) -> Q true s') ->
  (forall s', map_only (data i) s s' -> same_bits (free_map s) (free_map s') ->
     (mallocs s = [] -> forall k, 0 <= k -> k + n <= bit_cnt (free_map s) -> ~ group (free_map s) k n false) -> Q false s') ->
  wp (inode_create sector length) s Q.
Proof.
  intros H Hlen n HQ1 HQ2. pose proof (cp_file _ _ _ _ _ H) as Hmf.
  destruct (bytes_to_sectors_eq length Hlen) as (_ & Hk & Hk2). fold n in Hk, Hk2.
  apply wp_bind, wp_assert; [apply Z.leb_le; lia|]. apply wp_bind, wp_malloc; intros Hm.
  - fold n. apply wp_bind, (wp_free_map_allocate _ f a i n); [by apply map_file_heap|by destruct H|done| |].
    + intros x s1 Hmo Hx Hxn Hg _ Hb Hs. pose proof (cp_cover _ _ _ _ _ H).
      apply map_only_heap in Hmo; [|lia|destruct (mallocs s); [done|by apply suffix_cons_r]].
      pose proof Hmo as (_ & _ & _ & _ & _ & _ & Hd1 & Hc1 & _). destruct (cp_sector _ _ _ _ _ H). simpl in Hxn.
      eapply wp_bind, wp_write_disk; [done|lia|]. fold (header x length).
      assert (Hdone : forall d2, zeroed (disk_put sector (sector_of (header x length)) (filesys_disk s1)) (512 * x) (512 * (x + n)) d2 ->
        wp (mret true) (set_disk d2 s1) Q).
      { intros d2 Hz. apply wp_ret, (HQ1 x); [by eapply (created_disk s i sector length x s1 d2 f a)| |done|done].
        destruct (map_only_creates _ _ _ Hmo) as (? & ? & ? & _ & _). destruct Hz as (? & Hc2 & _). simpl in Hc2.
        split_and!; try done. simpl. lia. }
      unfold when. destruct (Z.ltb_spec 0 n).
      * apply wp_bind, wp_write_zeros; simpl in *; [apply disk_put_ok; [done|by apply sector_of_length]|lia..|].
        rewrite Z.add_0_r. exact Hdone.
      * apply wp_bind, wp_ret, (Hdone (disk_put sector (sector_of (header x length)) (filesys_disk s1))).
        split_and!; [apply disk_put_ok; [done|by apply sector_of_length]|done|]. intros p. zcases; simpl; done || lia.
    + intros s1 Hmo Hb Hno. apply wp_ret, HQ2; [eapply map_only_heap; [done|simpl; lia|destruct (mallocs s); [done|by apply suffix_cons_r]]|done|].
      intros Em. apply Hno. unfold mem_ok. simpl. by rewrite Em.
  - apply wp_ret, HQ2; [|apply bits_set_refl, Hmf|intros E; destruct Hm; unfold mem_ok; by rewrite E].
    pose proof (mf_open _ _ _ _ Hmf) as (_ & Hd & _).
    assert (tail (mallocs s) `suffix_of` mallocs s) by (destruct (mallocs s); [done|by apply suffix_cons_r]).
    split_and!; try done; simpl; lia || done.
Qed.

(** C18: [inode_create] either makes a file of the given length, all zeros,
    in disk sectors that the free map had free, with its header in the given
    sector and the new map saved, or reports failure with the free map as it
    was; with memory and a free run of sectors it succeeds. *)
Theorem inode_create_correct (s : fs) (f a : Z) (i : struct_inode) (sector length : Z) :
  create_pre s f a i sector -> 0 <= length < 2 ^ 31 - 512 ->
  exists r s', inode_create sector length s = Ret (r, s') /\
    (r = true -> exists x, created s i sector length x s') /\
    (r = false -> same_bits (free_map s) (free_map s')) /\
    (mallocs s = [] -> (exists k, 0 <= k /\ k + bytes_to_sectors length <= bit_cnt (free_map s) /\
       group (free_map s) k (bytes_to_sectors length) false) -> r = true).
Proof.
  intros H Hlen. apply wp_run, (wp_inode_create s f a i); [done..| |].
  - intros x s' Hc _ _ _. split_and!; [by exists x|done|done].
  - intros s' _ Hb Hno. split_and!; [done|done|]. intros Em (k & Hk0 & Hk1 & Hk2). by destruct (Hno Em k).
Qed.

Lemma inode_create_correct_witness :
  exists r s', inode_create 1 1000 demo_map = Ret (r, s') /\
    (r = true -> exists x, created demo_map demo_map_inode 1 1000 x s') /\
    (r = false -> same_bits (free_map demo_map) (free_map s')) /\
    (mallocs demo_map = [] -> (exists k, 0 <= k /\ k + bytes_to_sectors 1000 <= bit_cnt (free_map demo_map) /\
       group (free_map demo_map) k (bytes_to_sectors 1000) false) -> r = true).
Proof.
  apply (inode_create_correct demo_map 5 1 demo_map_inode 1 1000); [|done].
  assert (Hp : forall p, base_of (data demo_map_inode) <= p < base_of (data demo_map_inode) + i_length (data demo_map_inode) -> p / 512 = 2).
  { intros p Hp. change (1024 <= p < 1028) in Hp. symmetry. apply (Z.div_unique p 512 2 (p - 1024)); lia. }
  split; [apply demo_map_ok|done|done|done| |]; intros p ->%Hp; done.
Defined.
