(* ===== verification/Directory.v ===== *)
(** * Directories and the file system: filesys/directory.c, filesys/filesys.c

    A directory is a file of 20-byte entries.  A [struct dir] has one owner
    at a time and is passed by value.  The local [struct dir_entry] of a
    function is the list of its 20 bytes, given with the values the stack
    happens to hold; a file name is the list of its characters.  Comparing
    with an entry's name reads on to the null byte and stops the model when
    that leads out of the entry. *)

From S2P Require Import Prelude Vaddr Bitmap Bytes Disk Inode File.

Definition NAME_MAX : Z := 14.
Definition SIZEOF_DIR_ENTRY : Z := 20.

(** [struct dir]. *)
Record dir := mk_dir { d_inode : Z; d_pos : Z }.

(** Fields of a [struct dir_entry]. *)
Definition e_inode_sector (e : list Z) : Z := of_le (slice 0 4 e).
Definition e_name (e : list Z) : list Z := drop 4 e.
Definition e_in_use (e : list Z) : bool := negb (byte e 19 =? 0).

(** [!strcmp (a, b)] with [b] inside an object; [None] past its end. *)
Fixpoint same_name (a b : list Z) : option bool :=
  match a, b with
  | _, [] => None
  | [], y :: _ => Some (y =? 0)
  | x :: a, y :: b => if x =? y then same_name a b else Some false
  end.

(** The characters up to the null byte. *)
Fixpoint cstring (b : list Z) : option (list Z) :=
  match b with
  | [] => None
  | x :: b => if x =? 0 then Some [] else option_map (cons x) (cstring b)
  end.

Definition get_opt {S A} (o : option A) : ST S A := match o with Some a => mret a | None => panic end.

(** ** Opening *)

Definition dir_create (sector entry_cnt : Z) : ST fs bool :=
  inode_create sector (s32 (entry_cnt *u SIZEOF_DIR_ENTRY)).

Definition dir_open (inode : option Z) : ST fs (option dir) :=
  m ← malloc;
  match inode, m with
  | Some a, Some _ => mret (Some (mk_dir a 0))
  | _, _ => inode_close inode;; mret None
  end.

Definition dir_open_root : ST fs (option dir) := i ← inode_open ROOT_DIR_SECTOR; dir_open i.

Definition dir_reopen (d : dir) : ST fs (option dir) := i ← inode_reopen (Some (d_inode d)); dir_open i.

Definition dir_close (d : option dir) : ST fs unit :=
  match d with
  | Some d => inode_close (Some (d_inode d))
  | None => mret tt
  end.

Definition dir_get_inode (d : dir) : Z := d_inode d.

(** ** Entries *)

(** Enough turns for every entry of the directory and the last test. *)
Definition dir_fuel (d : dir) (s : fs) : nat :=
  match inodes s !! d_inode d with
  | Some i => S (Z.to_nat (i_length (data i) / SIZEOF_DIR_ENTRY))
  | None => 1
  end.

(** The entry found and its offset. *)
Fixpoint lookup_loop (fuel : nat) (d : dir) (name e : list Z) (ofs : Z) : ST fs (option (list Z * Z)) :=
  match fuel with
  | O => no_fuel
  | S fuel =>
    r ← inode_read_at (d_inode d) e SIZEOF_DIR_ENTRY (s32 ofs);
    let '(n, e) := (r : Z * list Z) in
    if n =? SIZEOF_DIR_ENTRY then
      hit ← (if e_in_use e then get_opt (same_name name (e_name e)) else mret false);
      if (hit : bool) then mret (Some (e, ofs))
      else lookup_loop fuel d name e (ofs +u SIZEOF_DIR_ENTRY)
    else mret None
  end.

Definition lookup (stack : list Z) (d : dir) (name : list Z) : ST fs (option (list Z * Z)) :=
  fuel ← gets (dir_fuel d);
  lookup_loop fuel d name stack 0.

Definition dir_lookup (stack : list Z) (d : dir) (name : list Z) : ST fs (option Z) :=
  r ← lookup stack d name;
  match r with
  | Some (e, _) => inode_open (e_inode_sector e)
  | None => mret None
  end.

(** The offset of a free slot, or of the end, and the entry last read. *)
Fixpoint free_slot_loop (fuel : nat) (d : dir) (e : list Z) (ofs : Z) : ST fs (Z * list Z) :=
  match fuel with
  | O => no_fuel
  | S fuel =>
    r ← inode_read_at (d_inode d) e SIZEOF_DIR_ENTRY ofs;
    let '(n, e) := (r : Z * list Z) in
    if n =? SIZEOF_DIR_ENTRY then
      if e_in_use e then free_slot_loop fuel d e (s32 (ofs + SIZEOF_DIR_ENTRY)) else mret (ofs, e)
    else mret (ofs, e)
  end.

(** [stack] is the entry of [lookup], [e] that of [dir_add]. *)
Definition dir_add (stack e : list Z) (d : dir) (name : list Z) (inode_sector : Z) : ST fs bool :=
  if (length name =? 0) || (NAME_MAX <? length name) then mret false
  else
    found ← lookup stack d name;
    match found with
    | Some _ => mret false
    | None =>
      fuel ← gets (dir_fuel d);
      r ← free_slot_loop fuel d e 0;
      let '(ofs, e) := (r : Z * list Z) in
      e ← put_bytes e 19 [1];
      e ← put_bytes e 4 (take 14 name ++ [0]);
      e ← put_bytes e 0 (to_le 4 inode_sector);
      n ← inode_write_at (d_inode d) e SIZEOF_DIR_ENTRY ofs;
      mret (n =? SIZEOF_DIR_ENTRY)
    end.

Definition dir_remove (stack : list Z) (d : dir) (name : list Z) : ST fs bool :=
  found ← lookup stack d name;
  match found with
  | None => mret false
  | Some (e, ofs) =>
    inode ← inode_open (e_inode_sector e);
    match inode with
    | None => mret false
    | Some a =>
      e ← put_bytes e 19 [0];
      n ← inode_write_at (d_inode d) e SIZEOF_DIR_ENTRY (s32 ofs);
      if n =? SIZEOF_DIR_ENTRY then
        inode_remove a;; inode_close (Some a);; mret true
      else inode_close (Some a);; mret false
    end
  end.

(** The directory moved on, and the name read. *)
Fixpoint dir_readdir_loop (fuel : nat) (d : dir) (e : list Z) : ST fs (dir * option (list Z)) :=
  match fuel with
  | O => no_fuel
  | S fuel =>
    r ← inode_read_at (d_inode d) e SIZEOF_DIR_ENTRY (d_pos d);
    let '(n, e) := (r : Z * list Z) in
    if n =? SIZEOF_DIR_ENTRY then
      let d := mk_dir (d_inode d) (s32 (d_pos d + SIZEOF_DIR_ENTRY)) in
      if e_in_use e then
        name ← get_opt (cstring (e_name e));
        mret (d, Some (take (Z.to_nat NAME_MAX) name))
      else dir_readdir_loop fuel d e
    else mret (d, None)
  end.

Definition dir_readdir (stack : list Z) (d : dir) : ST fs (dir * option (list Z)) :=
  fuel ← gets (dir_fuel d);
  dir_readdir_loop fuel d stack.

(** ** The file system *)

(** [disk]: what [disk_get (0, 1)] returns; the other arguments are the
    allocations of [bitmap_create]. *)
Definition do_format : ST fs unit :=
  free_map_create;;
  ok ← dir_create ROOT_DIR_SECTOR 16;
  ASSERT ok;;
  free_map_close.

Definition filesys_init (disk : option disk) (have_struct : bool) (block : option (list Z)) (format : bool) : ST fs unit :=
  match disk with
  | None => panic
  | Some dk =>
    modify (set_disk dk);;
    inode_init;;
    free_map_init have_struct block;;
    when format do_format;;
    free_map_open
  end.

Definition filesys_done : ST fs unit := free_map_close.

(** [inode_sector] keeps its initial 0 when the allocation fails; a sector
    number that was allocated is not 0, which holds the free map. *)
Definition filesys_create (stack e : list Z) (name : list Z) (initial_size : Z) : ST fs bool :=
  d ← dir_open_root;
  r ← match d with
      | None => mret (false, 0)
      | Some d =>
        sector ← free_map_allocate 1;
        match sector with
        | None => mret (false, 0)
        | Some x =>
          created ← inode_create x initial_size;
          if (created : bool) then added ← dir_add stack e d name x; mret (added, x)
          else mret (false, x)
        end
      end;
  let '(success, inode_sector) := (r : bool * Z) in
  when (negb success && negb (inode_sector =? 0)) (free_map_release inode_sector 1);;
  dir_close d;;
  mret success.

Definition filesys_open (stack : list Z) (name : list Z) : ST fs (option Z) :=
  d ← dir_open_root;
  inode ← match d with None => mret None | Some d => dir_lookup stack d name end;
  dir_close d;;
  file_open inode.

Definition filesys_remove (stack : list Z) (name : list Z) : ST fs bool :=
  d ← dir_open_root;
  success ← match d with None => mret false | Some d => dir_remove stack d name end;
  dir_close d;;
  mret success.
