(* ===== verification/DirectoryProps.v ===== *)
(** * Directories as dictionaries from names to inode sectors *)

From S2P Require Import Prelude Vaddr Bitmap Bytes Disk Inode InodeProps File Directory.

(** ** Specification *)

(** Entry [k] of the directory with header [h], and what it says. *)
Definition slot (d : disk) (h : inode_disk) (k : Z) : list Z := slice (20 * k) 20 (contents d h).
Definition entry_of (e : list Z) : option (list Z * Z) :=
  if e_in_use e then Some (default [] (cstring (e_name e)), e_inode_sector e) else None.
Definition slot_cnt (h : inode_disk) : Z := i_length h / 20.
Definition entries (d : disk) (h : inode_disk) : list (option (list Z * Z)) :=
  (fun k => entry_of (slot d h k)) <$> seqZ 0 (slot_cnt h).

(** A name is a nonempty string; every name in use ends within its field. *)
Definition good_name (name : list Z) : Prop := Forall (fun c => is_u8 c /\ c <> 0) name.
Definition slots_ok (d : disk) (h : inode_disk) : Prop :=
  forall k, 0 <= k < slot_cnt h -> e_in_use (slot d h k) = true ->
    exists name, cstring (e_name (slot d h k)) = Some name /\ (length name <= 14)%nat.

(** The dictionary: the first entry with the name; the first free entry. *)
Fixpoint find_entry (name : list Z) (l : list (option (list Z * Z))) (k : Z) : option Z :=
  match l with
  | [] => None
  | Some (n, _) :: l => if decide (n = name) then Some k else find_entry name l (k + 1)
  | None :: l => find_entry name l (k + 1)
  end.
Fixpoint first_free (l : list (option (list Z * Z))) (k : Z) : Z :=
  match l with
  | [] => k
  | Some _ :: l => first_free l (k + 1)
  | None :: _ => k
  end.
Fixpoint sector_in (l : list (option (list Z * Z))) (name : list Z) : option Z :=
  match l with
  | [] => None
  | Some (n, x) :: l => if decide (n = name) then Some x else sector_in l name
  | None :: l => sector_in l name
  end.

(** ** Names *)

Lemma same_name_eq a b n : good_name a -> cstring b = Some n -> same_name a b = Some (bool_decide (a = n)).
Proof.
  intros Ha. revert b n. induction Ha as [|x a [Hx Hx0] Ha IH]; intros [|y b] n; cbn [same_name cstring]; try done.
  - destruct (Z.eqb_spec y 0); [by intros [= <-]|]. destruct (cstring b); [|done]. by intros [= <-].
  - destruct (Z.eqb_spec y 0) as [->|Hy].
    + intros [= <-]. destruct (Z.eqb_spec x 0); done.
    + destruct (cstring b) as [n'|] eqn:E; [|done]. intros [= <-].
      destruct (Z.eqb_spec x y) as [->|Hxy].
      * rewrite (IH b n' E). f_equal. apply bool_decide_ext. naive_solver.
      * rewrite bool_decide_eq_false_2 by congruence. done.
Qed.

Lemma cstring_app name b : good_name name -> cstring (name ++ 0 :: b) = Some name.
Proof.
  induction 1 as [|x a [Hx Hx0] Ha IH]; [done|]. cbn [app cstring]. destruct (Z.eqb_spec x 0); [done|]. by rewrite IH.
Qed.

(** ** Slots *)

Lemma slot_cnt_range h : 0 <= i_length h -> 0 <= slot_cnt h /\ 20 * slot_cnt h <= i_length h < 20 * slot_cnt h + 20.
Proof.
  intros H. unfold slot_cnt. pose proof (Z.div_mod (i_length h) 20). pose proof (Z.mod_pos_bound (i_length h) 20).
  pose proof (Z.div_pos (i_length h) 20). lia.
Qed.

Lemma slot_length d h k : 0 <= i_length h -> 0 <= k < slot_cnt h -> length (slot d h k) = 20%nat.
Proof.
  intros Hh Hk. pose proof (slot_cnt_range h Hh). unfold slot. rewrite slice_length; [done|lia..|].
  rewrite contents_length by done. lia.
Qed.

Lemma entries_length d h : 0 <= i_length h -> length (entries d h) = Z.to_nat (slot_cnt h).
Proof. intros. unfold entries. by rewrite length_fmap, length_seqZ. Qed.

Lemma entries_lookup d h k : 0 <= k < slot_cnt h -> entries d h !! Z.to_nat k = Some (entry_of (slot d h k)).
Proof.
  intros Hk. unfold entries. rewrite list_lookup_fmap, lookup_seqZ_lt by lia. simpl. do 3 f_equal. lia.
Qed.

Lemma entries_drop d h k : 0 <= k < slot_cnt h ->
  drop (Z.to_nat k) (entries d h) = entry_of (slot d h k) :: drop (Z.to_nat (k + 1)) (entries d h).
Proof.
  intros Hk. replace (Z.to_nat (k + 1)) with (S (Z.to_nat k)) by lia. apply drop_S. by apply entries_lookup.
Qed.

Definition no_oom (s : fs) : Prop := mallocs s = [].

Lemma heap_only_facts s s' : heap_only s s' -> filesys_disk s' = filesys_disk s /\ inodes s' = inodes s /\
  (no_oom s -> no_oom s').
Proof.
  intros (m & n & -> & _ & Hs). split_and!; [done..|]. unfold no_oom. simpl. intros E. rewrite E in Hs.
  by apply suffix_nil_inv in Hs.
Qed.

Lemma opened_heap s s' a i : heap_only s s' -> opened s a i -> opened s' a i.
Proof. intros (m & n & -> & _) H. exact H. Qed.

(** Reading entry [k], or past the last one. *)
Lemma wp_read_entry s a i e k Q : opened s a i -> no_oom s -> 0 <= k <= slot_cnt (data i) -> length e = 20%nat ->
  (forall s', heap_only s s' -> k < slot_cnt (data i) -> Q (20, slot (filesys_disk s) (data i) k) s') ->
  (forall n e' s', heap_only s s' -> k = slot_cnt (data i) -> n <> 20 -> length e' = 20%nat -> Q (n, e') s') ->
  wp (inode_read_at a e 20 (20 * k)) s Q.
Proof.
  intros Hop Hm Hk He HQ1 HQ2. pose proof Hop as (_ & _ & Hw). pose proof (iw_len _ _ Hw).
  pose proof (slot_cnt_range (data i) ltac:(lia)).
  apply (wp_inode_read_at s a i); [done|lia|lia|lia|]. intros n b s' Hh Hn Hfull Hf.
  assert (En : n = avail (data i) 20 (20 * k)) by (apply Hfull; unfold mem_ok; by rewrite Hm). unfold avail in *.
  destruct (decide (k < slot_cnt (data i))) as [Hlt|Hge].
  - assert (n = 20) as -> by lia. apply filled_contents in Hf; [|lia..].
    rewrite drop_ge, app_nil_r in Hf by lia. rewrite Hf. by apply HQ1.
  - apply HQ2; [done|lia|lia|]. destruct Hf as [-> _]. done.
Qed.

(** The hit test of [lookup]. *)
Lemma entry_hit d h k name : good_name name -> slots_ok d h -> 0 <= k < slot_cnt h ->
  (e_in_use (slot d h k) = true -> exists n, same_name name (e_name (slot d h k)) = Some (bool_decide (n = name)) /\
     entry_of (slot d h k) = Some (n, e_inode_sector (slot d h k))) /\
  (e_in_use (slot d h k) = false -> entry_of (slot d h k) = None).
Proof.
  intros Hn Hok Hk. unfold entry_of. split; intros E; rewrite E; [|done].
  destruct (Hok k Hk E) as (n & Hc & _). exists n. rewrite Hc. split; [|done].
  rewrite (same_name_eq name _ n Hn Hc). f_equal. apply bool_decide_ext. naive_solver.
Qed.

(** ** Searching *)

Section Search.
Context (dr : dir) (i : struct_inode).

Lemma wp_lookup_loop fuel s name e k Q : opened s (d_inode dr) i -> no_oom s ->
  slots_ok (filesys_disk s) (data i) -> good_name name -> length e = 20%nat ->
  0 <= k <= slot_cnt (data i) -> (Z.to_nat (slot_cnt (data i) - k) < fuel)%nat ->
  (forall s', heap_only s s' ->
     Q (match find_entry name (drop (Z.to_nat k) (entries (filesys_disk s) (data i))) k with
        | Some j => Some (slot (filesys_disk s) (data i) j, 20 * j) | None => None end) s') ->
  wp (lookup_loop fuel dr name e (20 * k)) s Q.
Proof.
  revert s e k Q. induction fuel as [|fuel IH]; intros s e k Q Hop Hm Hok Hn He Hk Hf HQ; [lia|].
  pose proof Hop as (_ & _ & Hw). pose proof (iw_len _ _ Hw). pose proof (slot_cnt_range (data i) ltac:(lia)).
  cbn [lookup_loop]. rewrite s32_small by (urange; lia).
  apply wp_bind, (wp_read_entry s (d_inode dr) i); [done..| |].
  - intros s' Hh Hlt. rewrite (entries_drop (filesys_disk s) (data i) k ltac:(lia)) in HQ. cbn [Z.eqb].
    destruct (heap_only_facts s s' Hh) as (Ed & Ei & Hm'). specialize (Hm' Hm).
    destruct (entry_hit (filesys_disk s) (data i) k name Hn Hok ltac:(lia)) as [Hhit Hfree].
    assert (Hnext : forall w, w = find_entry name (drop (Z.to_nat (k + 1)) (entries (filesys_disk s) (data i))) (k + 1) ->
      (forall s', heap_only s s' -> Q (match w with
        | Some j => Some (slot (filesys_disk s) (data i) j, 20 * j) | None => None end) s') ->
      wp (lookup_loop fuel dr name (slot (filesys_disk s) (data i) k) (20 * k +u SIZEOF_DIR_ENTRY)) s' Q).
    { intros w Ew HQ'. unfold SIZEOF_DIR_ENTRY. rewrite u32_small by (urange; lia).
      replace (20 * k + 20) with (20 * (k + 1)) by lia. apply IH; rewrite ?Ed; try done; try lia.
      - by eapply opened_heap.
      - by apply slot_length; lia.
      - intros s2 Hh2. rewrite <- Ew. apply HQ'. by eapply heap_only_trans. }
    destruct (e_in_use (slot (filesys_disk s) (data i) k)) eqn:Eu.
    + destruct (Hhit eq_refl) as (n & Esn & Een). rewrite Esn. apply wp_bind, wp_ret.
      rewrite Een in HQ. cbn [find_entry] in HQ. case_decide as Hnm.
      * rewrite bool_decide_eq_true_2 by done. apply wp_ret, HQ, Hh.
      * rewrite bool_decide_eq_false_2 by done. by eapply Hnext.
    + apply wp_bind, wp_ret. rewrite (Hfree eq_refl) in HQ. cbn [find_entry] in HQ. by eapply Hnext.
  - intros n e' s' Hh -> Hne He'. unfold SIZEOF_DIR_ENTRY. destruct (Z.eqb_spec n 20); [done|]. apply wp_ret.
    rewrite drop_ge in HQ by (rewrite entries_length; lia). by apply HQ.
Qed.

Lemma dir_fuel_eq s : opened s (d_inode dr) i -> dir_fuel dr s = S (Z.to_nat (slot_cnt (data i))).
Proof. intros (H & _). unfold dir_fuel. by rewrite H. Qed.

Lemma wp_lookup s stack name Q : opened s (d_inode dr) i -> no_oom s ->
  slots_ok (filesys_disk s) (data i) -> good_name name -> length stack = 20%nat ->
  (forall s', heap_only s s' ->
     Q (match find_entry name (entries (filesys_disk s) (data i)) 0 with
        | Some j => Some (slot (filesys_disk s) (data i) j, 20 * j) | None => None end) s') ->
  wp (lookup stack dr name) s Q.
Proof.
  intros Hop Hm Hok Hn He HQ. pose proof Hop as (_ & _ & Hw). pose proof (iw_len _ _ Hw).
  pose proof (slot_cnt_range (data i) ltac:(lia)).
  apply wp_bind, wp_gets. rewrite dir_fuel_eq by done.
  apply (wp_lookup_loop _ s name stack 0); [done..|lia|lia|]. done.
Qed.

Lemma wp_free_slot_loop fuel s e k Q : opened s (d_inode dr) i -> no_oom s -> length e = 20%nat ->
  0 <= k <= slot_cnt (data i) -> (Z.to_nat (slot_cnt (data i) - k) < fuel)%nat ->
  (forall e' s', heap_only s s' -> length e' = 20%nat ->
     Q (20 * first_free (drop (Z.to_nat k) (entries (filesys_disk s) (data i))) k, e') s') ->
  wp (free_slot_loop fuel dr e (20 * k)) s Q.
Proof.
  revert s e k Q. induction fuel as [|fuel IH]; intros s e k Q Hop Hm He Hk Hf HQ; [lia|].
  pose proof Hop as (_ & _ & Hw). pose proof (iw_len _ _ Hw). pose proof (slot_cnt_range (data i) ltac:(lia)).
  cbn [free_slot_loop]. apply wp_bind, (wp_read_entry s (d_inode dr) i); [done..| |].
  - intros s' Hh Hlt. rewrite (entries_drop (filesys_disk s) (data i) k ltac:(lia)) in HQ. cbn [Z.eqb].
    destruct (heap_only_facts s s' Hh) as (Ed & Ei & Hm'). specialize (Hm' Hm). unfold entry_of in HQ.
    assert (Hlen : length (slot (filesys_disk s) (data i) k) = 20%nat) by (apply slot_length; lia).
    destruct (e_in_use (slot (filesys_disk s) (data i) k)); cbn [first_free] in HQ.
    + unfold SIZEOF_DIR_ENTRY. rewrite s32_small by (urange; lia).
      replace (20 * k + 20) with (20 * (k + 1)) by lia. apply IH; rewrite ?Ed; try done; try lia.
      * by eapply opened_heap.
      * intros e' s2 Hh2 He'. apply HQ; [by eapply heap_only_trans|done].
    + by apply wp_ret, HQ.
  - intros n e' s' Hh -> Hne He'. unfold SIZEOF_DIR_ENTRY. destruct (Z.eqb_spec n 20); [done|]. apply wp_ret.
    rewrite drop_ge in HQ by (rewrite entries_length; lia). by apply HQ.
Qed.
End Search.

(** ** Adding *)

Lemma sector_in_find l name k : sector_in l name = None <-> find_entry name l k = None.
Proof.
  revert k. induction l as [|[[n x]|] l IH]; intros k; cbn [sector_in find_entry]; [done| |apply IH].
  case_decide; [done|apply IH].
Qed.

Lemma first_free_range l k : k <= first_free l k <= k + length l.
Proof. revert k. induction l as [|[]l IH]; intros k; cbn [first_free length]; [lia|specialize (IH (k + 1)); lia|lia]. Qed.

(** Filling the first free entry of a directory that lacks the name. *)
Lemma sector_in_add l k name x nm : sector_in l name = None -> first_free l k < k + length l ->
  sector_in (<[Z.to_nat (first_free l k - k) := Some (name, x)]> l) nm =
    if decide (nm = name) then Some x else sector_in l nm.
Proof.
  revert k. induction l as [|[[n y]|] l IH]; intros k Hno Hlt; cbn [first_free sector_in length] in *; [lia| |].
  - case_decide as Hn; [done|]. pose proof (first_free_range l (k + 1)).
    replace (Z.to_nat (first_free l (k + 1) - k)) with (S (Z.to_nat (first_free l (k + 1) - (k + 1)))) by lia.
    cbn [insert list_insert sector_in]. rewrite IH by (done || lia). repeat case_decide; congruence.
  - rewrite Z.sub_diag. change (<[Z.to_nat 0 := Some (name, x)]> (None :: l)) with (Some (name, x) :: l).
    cbn [sector_in]. repeat case_decide; congruence.
Qed.

Definition new_entry (e name : list Z) (x : Z) : list Z :=
  splice 0 (to_le 4 x) (splice 4 (take 14 name ++ [0]) (splice 19 [1] e)).

Lemma new_entry_of e name x : length e = 20%nat -> good_name name -> (length name <= 14)%nat -> is_u32 x ->
  length (new_entry e name x) = 20%nat /\ entry_of (new_entry e name x) = Some (name, x) /\
  cstring (e_name (new_entry e name x)) = Some name.
Proof.
  intros He Hn Hl Hx. unfold new_entry. rewrite take_ge by lia.
  set (e1 := splice 19 [1] e). set (e2 := splice 4 (name ++ [0]) e1).
  assert (L1 : length e1 = 20%nat) by (subst e1; rewrite splice_length; simpl; lia).
  assert (Ln : length (name ++ [0]) = S (length name)) by (rewrite length_app; simpl; lia).
  assert (L2 : length e2 = 20%nat) by (subst e2; rewrite splice_length; lia).
  assert (E0 : splice 0 (to_le 4 x) e2 = to_le 4 x ++ drop 4 e2) by done.
  assert (E2 : drop 4 e2 = name ++ 0 :: drop (4 + length (name ++ [0])) e1).
  { subst e2. unfold splice. rewrite drop_app_length' by (rewrite length_take; lia). by rewrite <- app_assoc. }
  assert (En : e_name (splice 0 (to_le 4 x) e2) = name ++ 0 :: drop (4 + length (name ++ [0])) e1).
  { unfold e_name. rewrite E0, drop_app_length' by done. done. }
  assert (Eu : byte (splice 0 (to_le 4 x) e2) 19 = 1).
  { rewrite byte_splice by (rewrite ?to_le_length; lia). cbn [andb Z.leb]. rewrite to_le_length.
    change (0 <=? 19) with true. change (19 <? 0 + 4%nat) with false. cbn [andb]. subst e2.
    rewrite byte_splice by lia. rewrite Ln. destruct (Z.leb_spec 4 19); [|lia].
    destruct (Z.ltb_spec 19 (4 + S (length name))); [lia|]. cbn [andb]. subst e1. rewrite byte_splice by (simpl; lia).
    done. }
  split_and!.
  - rewrite splice_length; rewrite ?to_le_length; lia.
  - unfold entry_of, e_in_use. rewrite Eu, En, cstring_app by done. cbn [Z.eqb negb default]. do 2 f_equal.
    unfold e_inode_sector. rewrite E0. change (slice 0 4 ?l) with (take 4 l).
    rewrite take_app_length' by done. apply of_to_le. exact Hx.
  - rewrite En. by apply cstring_app.
Qed.

(** Entries that a write does not reach. *)
Lemma slot_kept d h d' j n b k : 0 <= i_length h -> stored d h (20 * j) 0 n b d' -> 0 <= k < slot_cnt h ->
  k <> j -> n <= 20 -> slot d' h k = slot d h k.
Proof.
  intros Hh (_ & _ & Hb) Hk Hne Hn. pose proof (slot_cnt_range h Hh).
  apply bytes_eq; [by rewrite !slot_length|]. rewrite slot_length by done. intros p Hp. unfold slot.
  rewrite !byte_slice, !byte_contents, Hb by lia. zcases; simpl; lia || done.
Qed.

Lemma slot_written d h d' j b : 0 <= i_length h -> 0 <= j < slot_cnt h -> length b = 20%nat ->
  stored d h (20 * j) 0 20 b d' -> slot d' h j = b.
Proof.
  intros Hh Hj Hl (_ & _ & Hb). pose proof (slot_cnt_range h Hh).
  apply bytes_eq; [by rewrite slot_length|]. rewrite slot_length by done. intros p Hp. unfold slot.
  rewrite byte_slice, byte_contents, Hb by lia. zcases; simpl; try lia. f_equal. lia.
Qed.

(** The directory after entry [j] was written, or nothing was. *)
Lemma entries_written d h d' j b : 0 <= i_length h -> 0 <= j < slot_cnt h -> length b = 20%nat ->
  stored d h (20 * j) 0 20 b d' -> entries d' h = <[Z.to_nat j := entry_of b]> (entries d h).
Proof.
  intros Hh Hj Hl Hst. apply list_eq. intros q. destruct (decide (q < Z.to_nat (slot_cnt h))%nat) as [Hq|Hq].
  - replace q with (Z.to_nat q) by lia. rewrite entries_lookup by lia.
    destruct (decide (Z.to_nat j = Z.to_nat q)) as [Ej|Ej].
    + rewrite Ej, list_lookup_insert_eq by (rewrite entries_length; lia).
      replace (Z.of_nat q) with j by lia. by rewrite (slot_written d h d' j b).
    + rewrite list_lookup_insert_ne, entries_lookup by (done || lia). do 2 f_equal.
      eapply slot_kept; [done|exact Hst|lia..].
  - rewrite !lookup_ge_None_2; [done|..]; rewrite ?length_insert, entries_length; lia.
Qed.

Lemma entries_kept d h d' n b : 0 <= i_length h -> stored d h (20 * slot_cnt h) 0 n b d' -> n <= 20 ->
  entries d' h = entries d h.
Proof.
  intros Hh Hst Hn. unfold entries. apply list_fmap_ext. intros q k Hk. apply lookup_seqZ in Hk as [-> Hk].
  f_equal. eapply slot_kept; [done|exact Hst|lia..].
Qed.

Lemma first_free_None l k : None ∈ l <-> first_free l k < k + length l.
Proof.
  revert k. induction l as [|[y|] l IH]; intros k; cbn [first_free length].
  - split; [intros Hin; by apply elem_of_nil in Hin|lia].
  - rewrite elem_of_cons, (IH (k + 1)). split; [intros [?|?]; [done|lia]|intros; right; lia].
  - split; [lia|left].
Qed.

(** The effect on the dictionary of writing [b], an entry for [name], to the
    first free slot, or past the last slot when none is free. *)
Lemma add_entry d h d' n b name x :
  let l := entries d h in
  let j := first_free l 0 in
  0 <= i_length h -> slots_ok d h -> length b = 20%nat -> entry_of b = Some (name, x) ->
  cstring (e_name b) = Some name -> (length name <= 14)%nat -> sector_in l name = None ->
  n = avail h 20 (20 * j) -> stored d h (20 * j) 0 n b d' ->
  (n = 20 <-> None ∈ l) /\ slots_ok d' h /\
  forall nm, sector_in (entries d' h) nm = if (n =? 20) && bool_decide (nm = name) then Some x else sector_in l nm.
Proof.
  intros l j Hh Hok Lb Eb Cb Hl Hno En Hst. unfold avail in En. pose proof (slot_cnt_range h Hh).
  pose proof (first_free_range l 0) as Hj. fold j in Hj.
  assert (Ll : Z.of_nat (length l) = slot_cnt h) by (unfold l; rewrite entries_length by lia; lia).
  rewrite (first_free_None l 0). fold j. destruct (decide (j < slot_cnt h)) as [Hlt|Hge].
  - assert (n = 20) as E20 by lia. rewrite E20 in *. clear E20. split_and!; [lia| |].
    + intros k Hk Hu. destruct (decide (k = j)) as [->|Hkj].
      * rewrite (slot_written d h d' j b) in * by (done || lia). exists name. done.
      * rewrite (slot_kept d h d' j 20 b k) in * by (done || lia). by apply Hok.
    + intros nm. rewrite (entries_written d h d' j b) by (done || lia). rewrite Eb. fold l.
      change (20 =? 20) with true. cbn [andb]. pose proof (sector_in_add l 0 name x nm Hno ltac:(fold j; lia)) as Hadd.
      fold j in Hadd. rewrite Z.sub_0_r in Hadd. rewrite Hadd. repeat case_decide; repeat case_bool_decide; done.
  - assert (j = slot_cnt h) as Ej by lia. rewrite Ej in Hst.
    destruct (Z.eqb_spec n 20); [lia|]. cbn [andb].
    rewrite (entries_kept d h d' n b) by (done || lia). split_and!; [lia| |done].
    intros k Hk Hu. rewrite (slot_kept d h d' (slot_cnt h) n b k) in * by (done || lia). by apply Hok.
Qed.

(** Storing the three fields of the new entry. *)
Lemma wp_fill_entry (e name : list Z) x s (k : list Z -> ST fs bool) Q : length e = 20%nat -> (length name <= 14)%nat ->
  wp (k (new_entry e name x)) s Q ->
  wp (e ← put_bytes e 19 [1]; e ← put_bytes e 4 (take 14 name ++ [0]); e ← put_bytes e 0 (to_le 4 x); k e) s Q.
Proof.
  intros He Hn HQ. assert (L1 : length (splice 19 [1] e) = 20%nat) by (rewrite splice_length; simpl; lia).
  assert (Ln : Z.of_nat (length (take 14 name ++ [0])) <= 15) by (rewrite length_app, length_take; cbn [length]; lia).
  assert (L2 : length (splice 4 (take 14 name ++ [0]) (splice 19 [1] e)) = 20%nat) by (rewrite splice_length; lia).
  apply wp_bind, wp_put_bytes; [lia|simpl; lia|]. apply wp_bind, wp_put_bytes; [lia|lia|].
  apply wp_bind, wp_put_bytes; [lia|rewrite to_le_length; lia|]. exact HQ.
Qed.

(** ** Properties *)

(** What [dir_add] promises about the state [s'] it leaves. *)
Definition add_post (s : fs) (dr : dir) (i : struct_inode) (name : list Z) (x : Z) (r : bool) (s' : fs) : Prop :=
  let l := entries (filesys_disk s) (data i) in
  opened s' (d_inode dr) i /\
  (r = true <-> (0 < length name <= 14)%nat /\ sector_in l name = None /\ None ∈ l) /\
  slots_ok (filesys_disk s') (data i) /\
  (forall nm, sector_in (entries (filesys_disk s') (data i)) nm =
     if r && bool_decide (nm = name) then Some x else sector_in l nm) /\
  (forall j, 0 <= i_length j -> disjoint_files (data i) j -> contents (filesys_disk s') j = contents (filesys_disk s) j).

Lemma add_refused s dr i name x s' : opened s (d_inode dr) i -> slots_ok (filesys_disk s) (data i) -> heap_only s s' ->
  ~ ((0 < length name <= 14)%nat /\ sector_in (entries (filesys_disk s) (data i)) name = None) ->
  add_post s dr i name x false s'.
Proof.
  intros Hop Hok Hh Hno. destruct (heap_only_facts s s' Hh) as (Ed & _ & _). unfold add_post. rewrite Ed.
  split_and!; [by eapply opened_heap| |done..]. split; [done|]. intros (? & ? & _). by destruct Hno.
Qed.

(** The two ways [dir_add] ends: the name is refused, or an entry for it is
    written to the first free slot, as far as the directory reaches. *)
Lemma wp_dir_add s dr i stack e name x Q :
  opened s (d_inode dr) i -> no_oom s -> slots_ok (filesys_disk s) (data i) -> deny_write_cnt i = 0 ->
  good_name name -> is_u32 x -> length stack = 20%nat -> length e = 20%nat ->
  let l := entries (filesys_disk s) (data i) in
  let j := first_free l 0 in
  (forall s', heap_only s s' -> ~ ((0 < length name <= 14)%nat /\ sector_in l name = None) -> Q false s') ->
  (forall b d' s', (0 < length name <= 14)%nat -> sector_in l name = None -> length b = 20%nat ->
     entry_of b = Some (name, x) -> cstring (e_name b) = Some name ->
     stored (filesys_disk s) (data i) (20 * j) 0 (avail (data i) 20 (20 * j)) b d' ->
     heap_only (set_disk d' s) s' -> Q (avail (data i) 20 (20 * j) =? 20) s') ->
  wp (dir_add stack e dr name x) s Q.
Proof.
  intros Hop Hm Hok Hdw Hn Hx Hst He l j HQ1 HQ2. pose proof Hop as (Hi & Hd & Hw). pose proof (iw_len _ _ Hw) as Hlen.
  pose proof (slot_cnt_range (data i) ltac:(lia)) as Hsc.
  assert (Hvalid : (length name =? 0) || (14 <? length name) = false <-> (0 < length name <= 14)%nat).
  { destruct (Z.eqb_spec (length name) 0), (Z.ltb_spec 14 (length name)); simpl; split; done || lia. }
  unfold dir_add, NAME_MAX. destruct (_ || _).
  { apply wp_ret, HQ1; [apply heap_only_refl|]. intros [Hx1 _]. by apply Hvalid in Hx1. }
  assert (Hl14 : (0 < length name <= 14)%nat) by by apply Hvalid.
  apply wp_bind, (wp_lookup dr i); [done..|]. intros s1 Hh1. fold l. pose proof (sector_in_find l name 0) as Hsf.
  destruct (find_entry name l 0) as [k|].
  { apply wp_ret, HQ1; [done..|]. intros [_ Hno%Hsf]. done. }
  destruct (heap_only_facts s s1 Hh1) as (Ed1 & _ & Hm1). specialize (Hm1 Hm).
  apply wp_bind, wp_gets, wp_bind. pose proof (opened_heap _ _ _ _ Hh1 Hop) as Hop1. rewrite (dir_fuel_eq dr i) by done.
  apply (wp_free_slot_loop dr i _ s1 e 0); [done..|lia|lia|]. rewrite Ed1. fold l. change (drop (Z.to_nat 0) l) with l.
  intros e' s2 Hh2 He'. pose proof (heap_only_trans _ _ _ Hh1 Hh2) as Hh.
  destruct (heap_only_facts s s2 Hh) as (Ed & _ & Hm2). specialize (Hm2 Hm). pose proof (opened_heap _ _ _ _ Hh Hop) as Hop2.
  apply wp_fill_entry; [done|lia|]. pose proof (first_free_range l 0) as Hj.
  assert (Ll : Z.of_nat (length l) = slot_cnt (data i)) by (unfold l; rewrite entries_length by lia; lia).
  destruct (new_entry_of e' name x He' Hn ltac:(lia) Hx) as (Lb & Eb & Cb).
  apply wp_bind, (wp_inode_write_at s2 (d_inode dr) i); [done|lia|done|unfold SIZEOF_DIR_ENTRY; lia|done|].
  intros n s' _ Hna Hfull (d' & Hstd & Hh'). rewrite Ed in Hstd. apply wp_ret.
  rewrite (Hfull ltac:(unfold mem_ok; by rewrite Hm2)) in *. fold j in Hstd |- *.
  apply (HQ2 (new_entry e' name x) d'); [done|by apply Hsf|done..|].
  destruct Hh as (m & k & -> & Hk & Hs). destruct Hh' as (m' & k' & -> & Hk' & Hs'). exists m', k'. simpl in *.
  split_and!; [done|lia|by etrans].
Qed.

(** C19: with memory available, [dir_add] refuses a name that is empty, too
    long or present, or when no entry is free, and leaves the dictionary as
    it was; otherwise it adds exactly the given binding.  It writes to no
    other file, and the entries stay well formed. *)
Theorem dir_add_correct (s : fs) (dr : dir) (i : struct_inode) (stack e name : list Z) (x : Z) :
  opened s (d_inode dr) i -> no_oom s -> slots_ok (filesys_disk s) (data i) -> deny_write_cnt i = 0 ->
  good_name name -> is_u32 x -> length stack = 20%nat -> length e = 20%nat ->
  exists r s', dir_add stack e dr name x s = Ret (r, s') /\ add_post s dr i name x r s'.
Proof.
  intros Hop Hm Hok Hdw Hn Hx Hst He. pose proof Hop as (Hi & Hd & Hw). pose proof (iw_len _ _ Hw) as Hlen.
  set (l := entries (filesys_disk s) (data i)). pose proof (first_free_range l 0) as Hj.
  apply (wp_elim _ _ (add_post s dr i name x)), (wp_dir_add s dr i); [done..| |].
  { intros s' Hh Hno. by apply add_refused. }
  fold l. intros b d' s' Hl Hno Lb Eb Cb Hstd Hh'. set (n := avail _ _ _) in *.
  assert (Ed' : filesys_disk s' = d' /\ inodes s' = inodes s) by (by destruct Hh' as (? & ? & -> & _)). destruct Ed' as [Ed' Ei'].
  destruct (add_entry (filesys_disk s) (data i) d' n b name x) as (Hiff & Hok' & Hdict); [lia|done..|lia|done|done|done|].
  unfold add_post. rewrite Ed'. fold l. fold l in Hiff, Hdict. split_and!; [| |done|exact Hdict|].
  - split_and!; [by rewrite Ei'|rewrite Ed'; apply Hstd|]. rewrite Ed'. eapply inode_wf_capacity; [apply Hstd|done].
  - rewrite Z.eqb_eq, Hiff. split; [by intros Hin|by intros (_ & _ & ?)].
  - intros h Hh0 Hdis. unfold n, avail in *. eapply stored_other; [..|exact Hstd]; try done; lia.
Qed.

Lemma find_entry_sector l name k : 
  match find_entry name l k with
  | Some j => k <= j < k + length l /\ exists x, l !! Z.to_nat (j - k) = Some (Some (name, x)) /\ sector_in l name = Some x
  | None => sector_in l name = None
  end.
Proof.
  revert k. induction l as [|[[n y]|] l IH]; intros k; cbn [find_entry sector_in length]; [done| |].
  - case_decide as Hn; [subst n; split; [lia|]; exists y; by rewrite Z.sub_diag|].
    specialize (IH (k + 1)). destruct (find_entry name l (k + 1)) as [j|]; [|done].
    destruct IH as (Hj & x & Hx & Es). split; [lia|]. exists x. split; [|done].
    by replace (Z.to_nat (j - k)) with (S (Z.to_nat (j - (k + 1)))) by lia.
  - specialize (IH (k + 1)). destruct (find_entry name l (k + 1)) as [j|]; [|done].
    destruct IH as (Hj & x & Hx & Es). split; [lia|]. exists x. split; [|done].
    by replace (Z.to_nat (j - k)) with (S (Z.to_nat (j - (k + 1)))) by lia.
Qed.

(** [lookup] by the dictionary. *)
Lemma wp_lookup_dict s dr i stack name Q : opened s (d_inode dr) i -> no_oom s -> slots_ok (filesys_disk s) (data i) ->
  good_name name -> length stack = 20%nat ->
  (forall r s', heap_only s s' ->
    match r with
    | Some (e, ofs) => sector_in (entries (filesys_disk s) (data i)) name = Some (e_inode_sector e) /\
        e = slice ofs 20 (contents (filesys_disk s) (data i)) /\ e_in_use e = true /\ cstring (e_name e) = Some name
    | None => sector_in (entries (filesys_disk s) (data i)) name = None
    end -> Q r s') ->
  wp (lookup stack dr name) s Q.
Proof.
  intros Hop Hm Hok Hn Hst HQ. pose proof (iw_len _ _ (proj2 (proj2 Hop))) as Hlen.
  pose proof (slot_cnt_range (data i) ltac:(lia)) as Hsc.
  apply (wp_lookup dr i); [done..|]. intros s' Hh. apply HQ; [done|]. set (l := entries (filesys_disk s) (data i)).
  pose proof (find_entry_sector l name 0) as Hf. destruct (find_entry name l 0) as [j|]; [|done].
  destruct Hf as (Hj & x & Hx & Es). rewrite Z.sub_0_r in Hx.
  assert (Hjr : 0 <= j < slot_cnt (data i)) by (unfold l in Hj; rewrite entries_length in Hj; lia).
  unfold l in Hx. rewrite entries_lookup in Hx by lia. injection Hx as Hx. unfold entry_of in Hx.
  destruct (e_in_use (slot (filesys_disk s) (data i) j)) eqn:Eu; [|done]. destruct (Hok j Hjr Eu) as (n & Hc & _).
  rewrite Hc in Hx. injection Hx as -> Hsec. split_and!; [by rewrite Es, Hsec|done|done|done].
Qed.

(** C35: with memory available, [lookup] finds a name exactly when the
    directory binds it, and then returns the entry that binds it, with the
    sector the dictionary gives and the offset the entry is stored at. *)
Theorem lookup_correct (s : fs) (dr : dir) (i : struct_inode) (stack name : list Z) :
  opened s (d_inode dr) i -> no_oom s -> slots_ok (filesys_disk s) (data i) -> good_name name -> length stack = 20%nat ->
  exists r s', lookup stack dr name s = Ret (r, s') /\ heap_only s s' /\
    match r with
    | Some (e, ofs) => sector_in (entries (filesys_disk s) (data i)) name = Some (e_inode_sector e) /\
        e = slice ofs 20 (contents (filesys_disk s) (data i)) /\ e_in_use e = true /\ cstring (e_name e) = Some name
    | None => sector_in (entries (filesys_disk s) (data i)) name = None
    end.
Proof.
  intros Hop Hm Hok Hn Hst. apply wp_run, (wp_lookup_dict s dr i); [done..|]. intros r s' Hh Hr. by split.
Qed.

(** A directory of three entries: a file "ab" at sector 9, then free ones. *)
Definition demo_dir_header : inode_disk := mk_inode_disk 3 60 INODE_MAGIC (replicate 500 0).
Definition demo_dir_inode : struct_inode := mk_inode 1 1 false 0 demo_dir_header.
Definition demo_dir_fs (m : list bool) : fs :=
  mk_fs (mk_disk 16 {[ 3 := [9; 0; 0; 0; 97; 98] ++ replicate 13 0 ++ [1] ++ replicate 492 0 ]})
    {[ 1 := demo_dir_inode ]} [1] (mk_bitmap 16 [15]) ∅ None m 20.

Lemma demo_dir_ok : opened (demo_dir_fs []) 1 demo_dir_inode /\ slots_ok (filesys_disk (demo_dir_fs [])) demo_dir_header.
Proof.
  split; [split_and!; [done| |split; done]; split; [done|]; simpl; intros x b;
    rewrite lookup_singleton; case_decide; [by intros [= <-]|done]|].
  intros k Hk Hu. change (slot_cnt demo_dir_header) with 3 in Hk.
  assert (k = 0 \/ k = 1 \/ k = 2) as [-> | [-> | -> ] ] by lia; [|by vm_compute in Hu..].
  exists [97; 98]. split; [by vm_compute|simpl; lia].
Qed.

Lemma dir_add_correct_witness :
  exists r s', dir_add (replicate 20 7) (replicate 20 7) (mk_dir 1 0) [99] 10 (demo_dir_fs []) = Ret (r, s') /\
    add_post (demo_dir_fs []) (mk_dir 1 0) demo_dir_inode [99] 10 r s'.
Proof.
  apply (dir_add_correct (demo_dir_fs []) (mk_dir 1 0) demo_dir_inode); try reflexivity; try apply demo_dir_ok.
  - repeat constructor; done.
Defined.

Lemma lookup_correct_witness :
  exists r s', lookup (replicate 20 7) (mk_dir 1 0) [97; 98] (demo_dir_fs []) = Ret (r, s') /\ heap_only (demo_dir_fs []) s' /\
    match r with
    | Some (e, ofs) => sector_in (entries (filesys_disk (demo_dir_fs [])) demo_dir_header) [97; 98] = Some (e_inode_sector e) /\
        e = slice ofs 20 (contents (filesys_disk (demo_dir_fs [])) demo_dir_header) /\
        e_in_use e = true /\ cstring (e_name e) = Some [97; 98]
    | None => sector_in (entries (filesys_disk (demo_dir_fs [])) demo_dir_header) [97; 98] = None
    end.
Proof.
  apply (lookup_correct (demo_dir_fs []) (mk_dir 1 0) demo_dir_inode); try reflexivity; try apply demo_dir_ok.
  repeat constructor; done.
Defined.

(** A read of an entry when the bounce buffer cannot be allocated. *)
Lemma read_entry_oom s a i e m : opened s a i -> 20 <= i_length (data i) -> mallocs s = false :: m ->
  inode_read_at a e 20 0 s = Ret ((0, e), set_heap m (next_addr s) s).
Proof.
  intros (Hi & Hd & Hw) Hl Em. unfold inode_read_at. generalize (Z.to_nat 20) as k. intros k.
  cbn [inode_read_at_loop]. change (20 <=? 0) with false. cbv iota.
  assert (Eb : exists x, byte_to_sector a 0 s = Ret (x, s)).
  { unfold byte_to_sector. rewrite (bind_run _ _ s i s) by (unfold get_inode; by rewrite Hi). by eexists. }
  destruct Eb as [x Eb]. rewrite (bind_run _ _ _ _ _ Eb).
  rewrite (bind_run _ _ s (i_length (data i)) s)
    by (unfold inode_length; rewrite (bind_run _ _ s i s) by (unfold get_inode; by rewrite Hi); done).
  destruct (chunk_facts _ _ 20 0 Hw ltac:(lia) ltac:(lia)) as (_ & _ & Ec & _). cbv zeta in *.
  replace (Z.min 20 _) with 20 in Ec by (change (0 mod 512) with 0; lia). rewrite Ec.
  change (20 <=? 0) with false. change ((sector_ofs 0 =? 0) && (20 =? DISK_SECTOR_SIZE)) with false. cbv iota.
  rewrite (bind_run _ _ s false (set_heap m (next_addr s) s)); [done|].
  unfold need_bounce. rewrite (bind_run _ _ s None (set_heap m (next_addr s) s)); [done|].
  unfold malloc. by rewrite Em.
Qed.

(** short reads from low memory are taken for the end of the
    directory, both by the test for the name and by the search for a free
    slot: when the first two allocations fail and the third succeeds,
    [dir_add] reports success and stores the new name in the first entry of
    the directory, whatever that entry held. *)
Theorem dir_add_low_memory (s : fs) (dr : dir) (i : struct_inode) (stack e name : list Z) (x : Z) (m : list bool) :
  opened s (d_inode dr) i -> deny_write_cnt i = 0 -> 20 <= i_length (data i) -> mallocs s = false :: false :: true :: m ->
  good_name name -> (0 < length name <= 14)%nat -> is_u32 x -> length e = 20%nat ->
  exists s', dir_add stack e dr name x s = Ret (true, s') /\
    entry_of (slot (filesys_disk s') (data i) 0) = Some (name, x).
Proof.
  intros Hop Hdw Hl Em Hn Hnl Hx He. pose proof (iw_len _ _ (proj2 (proj2 Hop))) as Hlen.
  pose proof (slot_cnt_range (data i) ltac:(lia)) as Hsc. unfold dir_add, NAME_MAX.
  destruct (Z.eqb_spec (length name) 0); [lia|]. destruct (Z.ltb_spec 14 (length name)); [lia|]. cbn [orb].
  set (s1 := set_heap (false :: true :: m) (next_addr s) s). set (s2 := set_heap (true :: m) (next_addr s) s).
  assert (E1 : lookup stack dr name s = Ret (None, s1)).
  { unfold lookup. rewrite (bind_run _ _ s (dir_fuel dr s) s), (dir_fuel_eq dr i) by done. cbn [lookup_loop].
    by rewrite (bind_run _ _ _ _ _ (read_entry_oom s _ i stack _ Hop Hl Em)). }
  rewrite (bind_run _ _ _ _ _ E1).
  assert (E2 : free_slot_loop (dir_fuel dr s1) dr e 0 s1 = Ret ((0, e), s2)).
  { rewrite (dir_fuel_eq dr i) by done. cbn [free_slot_loop].
    by rewrite (bind_run _ _ _ _ _ (read_entry_oom s1 _ i e (true :: m) Hop Hl eq_refl)). }
  rewrite (bind_run _ _ s1 (dir_fuel dr s1) s1), (bind_run _ _ _ _ _ E2) by done.
  destruct (new_entry_of e name x He Hn ltac:(lia) Hx) as (Lb & Eb & _).
  match goal with |- exists s', ?p s2 = _ /\ _ => assert (Hwp : wp p s2 (fun r s' => r = true /\
    entry_of (slot (filesys_disk s') (data i) 0) = Some (name, x))) end.
  2: { apply wp_elim in Hwp as (r & s' & E & -> & Hent). by exists s'. }
  apply wp_fill_entry; [done|lia|].
  apply wp_bind, (wp_inode_write_at s2 (d_inode dr) i); [done|done|done|unfold SIZEOF_DIR_ENTRY; lia|done|].
  intros nw s' _ Hna Hfull (d' & Hst & Hh). apply wp_ret.
  assert (nw = 20) as -> by (rewrite Hfull by done; unfold avail, SIZEOF_DIR_ENTRY; lia).
  split; [done|]. assert (filesys_disk s' = d') as -> by (by destruct Hh as (? & ? & -> & _)).
  rewrite (slot_written (filesys_disk s) (data i) d' 0 (new_entry e name x)) by (done || lia). done.
Qed.

Lemma dir_add_low_memory_witness :
  sector_in (entries (filesys_disk (demo_dir_fs [])) demo_dir_header) [97; 98] = Some 9 /\
  exists s', dir_add (replicate 20 7) (replicate 20 7) (mk_dir 1 0) [99] 10 (demo_dir_fs [false; false; true]) = Ret (true, s') /\
    entry_of (slot (filesys_disk s') demo_dir_header 0) = Some ([99], 10).
Proof.
  split; [vm_compute; reflexivity|].
  apply (dir_add_low_memory (demo_dir_fs [false; false; true]) (mk_dir 1 0) demo_dir_inode _ _ [99] 10 []);
    try reflexivity; try apply demo_dir_ok; try discriminate.
  - repeat constructor; done.
  - simpl. lia.
Defined.

(** Creating a name that exists leaves the sectors of the new file's data
    allocated: only its header sector is released. *)
Lemma filesys_create_leak :
  let stack := replicate 20 0 in
  let fs0 := mk_fs (mk_disk 0 ∅) ∅ [] (mk_bitmap 0 []) ∅ None [] 1 in
  exists s1 s2, (filesys_init (Some (mk_disk 64 ∅)) true (Some [0; 0]) true;;
                 filesys_create stack stack [97] 1000) fs0 = Ret (true, s1) /\
    filesys_create stack stack [97] 1000 s1 = Ret (false, s2) /\
    count_bits (free_map s2) 0 64 true = count_bits (free_map s1) 0 64 true + 2.
Proof. cbv zeta. do 2 eexists. split_and!; [vm_compute; reflexivity|vm_compute; reflexivity|vm_compute; reflexivity]. Qed.
