(* ===== verification/FilesysOpens.v ===== *)
(** * What the operations of the file system do to open files

    [filesys_create], [filesys_open] and [filesys_remove] open and close
    inodes for their own use.  [held s l] says that the open counts cover the
    open files and, beyond them, one reference for every element of [l]. *)

From S2P Require Import Prelude Vaddr Bitmap Bytes Disk Inode File FileProps Directory.

Definition occ (a : Z) (l : list Z) : Z := Z.of_nat (count_occ Z.eq_dec l a).

Record held (s : fs) (l : list Z) : Prop := {
  he_ok : opens_ok s;
  he_cnt a i : inodes s !! a = Some i -> count_files (on_inode a) (files s) + occ a l <= open_cnt i;
  he_in a : a ∈ l -> is_Some (inodes s !! a);
}.

(** Room for [k] more openers. *)
Definition few (k : Z) (s : fs) : Prop := forall a i, inodes s !! a = Some i -> open_cnt i < 2 ^ 31 - k.

Lemma occ_cons a b l : occ a (b :: l) = occ a l + (if decide (a = b) then 1 else 0).
Proof. unfold occ. simpl. destruct (Z.eq_dec b a), (decide (a = b)); subst; lia || done. Qed.

Lemma occ_nonneg a l : 0 <= occ a l.
Proof. unfold occ. lia. Qed.

Lemma occ_none a l : a ∉ l -> occ a l = 0.
Proof. intros H. unfold occ. rewrite (proj1 (count_occ_not_In Z.eq_dec l a)); [done|]. by rewrite <- list_elem_of_In. Qed.

Lemma held_nil s : held s [] <-> opens_ok s.
Proof.
  split; [by intros []|]. intros H. split; [done| |]; [|intros a Ha; by apply not_elem_of_nil in Ha].
  intros a i Hi. pose proof (oo_users s H a i Hi). unfold occ. simpl. lia.
Qed.

Lemma held_same s s' l : same_opens s s' -> held s l -> held s' l.
Proof.
  intros Hs [H1 H2 H3]. pose proof Hs as (E1 & E2 & E3 & _). split; [by eapply same_opens_ok|..].
  - intros a i. rewrite E1, E3. apply H2.
  - intros a. rewrite E1. apply H3.
Qed.

Lemma few_same k s s' : same_opens s s' -> few k s -> few k s'.
Proof. intros (E & _) H a i. rewrite E. apply H. Qed.

Lemma few_weaken k j s : few k s -> j <= k -> few j s.
Proof. intros H Hj a i Hi. pose proof (H a i Hi). lia. Qed.

Lemma held_spare s a l : held s (a :: l) -> spare s a.
Proof.
  intros [H1 H2 H3]. destruct (H3 a ltac:(left)) as [i Hi]. exists i. split; [done|].
  pose proof (H2 a i Hi) as Hc. rewrite occ_cons, decide_True in Hc by done. pose proof (occ_nonneg a l). lia.
Qed.

(** ** Opening and closing *)

Lemma held_retains {A} (m : ST fs A) s l k (Q : A -> fs -> Prop) : retains m -> held s l -> few k s ->
  (forall a s', held s' l -> few k s' -> files s' = files s -> Q a s') -> wlp m s Q.
Proof.
  intros Hm Hh Hf HQ. apply wlp_keeps; [done|]. intros a s' Hs.
  apply HQ; [by eapply held_same|by eapply few_same|apply Hs].
Qed.

(** The inode at [a] gains [n] openers. *)
Lemma held_bump s a i n l l' : held s l -> inodes s !! a = Some i -> 0 < open_cnt i + n < 2 ^ 31 ->
  (forall b, occ b l' = occ b l + (if decide (b = a) then n else 0)) -> (forall b, b ∈ l' -> b = a \/ b ∈ l) ->
  held (set_inodes (<[a := bump n i]> (inodes s)) s) l'.
Proof.
  intros [H1 H2 H3] Hi Hr Hocc Hin. pose proof (H2 a i Hi) as Hc. pose proof (occ_nonneg a l'). rewrite (Hocc a), decide_True in * by done.
  assert (E : s32 (open_cnt i + n) = open_cnt i + n) by (apply s32_small; urange; lia). split.
  - eapply opens_ok_put; try done; simpl; rewrite ?E; try lia. apply (oo_deny s H1 a i Hi).
  - intros b j. simpl. rewrite lookup_insert. case_decide as Eb.
    + intros [= <-]. subst b. rewrite (Hocc a), decide_True by done. simpl. rewrite E. lia.
    + intros Hj. rewrite (Hocc b), decide_False by congruence. pose proof (H2 b j Hj). lia.
  - intros b Hb. simpl. rewrite lookup_insert. case_decide; [by eexists|]. apply Hin in Hb as [->|Hb]; [done|by apply H3].
Qed.

Lemma held_inode_open s sector l k : held s l -> few k s -> 1 <= k <= 2 ^ 30 ->
  wlp (inode_open sector) s (fun r s' => held s' (option_list r ++ l) /\ few (k - 1) s' /\ files s' = files s).
Proof.
  intros Hh Hf Hk. pose proof (he_ok s l Hh) as H.
  destruct (find_open_eq s sector (open_inodes s)) as [(a & i & _ & Ha & Hi & Hs)|[_ Hno]].
  { intros a. apply H. }
  - subst sector. unfold wlp. rewrite (inode_open_shared s a i H Hi). pose proof (oo_cnt s H a i Hi). pose proof (Hf a i Hi).
    split_and!; [|intros b j; simpl; rewrite lookup_insert; case_decide|done].
    + apply (held_bump s a i 1 l); [done|done|lia|intros b; simpl; apply occ_cons|intros b; simpl; by rewrite elem_of_cons].
    + intros [= <-]. simpl. rewrite s32_small by (urange; lia). lia.
    + intros Hj. pose proof (Hf b j Hj). lia.
  - assert (Hno' : forall a i, inodes s !! a = Some i -> i_sector i <> sector).
    { intros a i Hi. apply (Hno a i); [apply (oo_dom s H); by eexists|done]. }
    unfold wlp. rewrite (inode_open_fresh s sector H Hno').
    match goal with |- context [(?m s)] =>
      change (wlp m s (fun r s' => held s' (option_list r ++ l) /\ few (k - 1) s' /\ files s' = files s)) end.
    apply wlp_bind, wlp_malloc.
    + apply wlp_bind, wlp_modify, wlp_bind, wlp_disk_read. simpl. apply wlp_bind, wlp_modify, wlp_ret.
      set (b := Disk.sector _ _). destruct (open_new_ok s sector b H Hno') as [Hnew _].
      change (set_inodes _ _) with (open_new sector b s). set (n := next_addr s) in *.
      assert (Hn : inodes s !! n = None).
      { destruct (inodes s !! n) eqn:E; [|done]. assert (n < next_addr s) by (apply (oo_fresh s H); left; rewrite E; eauto). lia. }
      assert (Hnl : n ∉ l) by (intros Hin; apply (he_in s l Hh) in Hin; rewrite Hn in Hin; by destruct Hin).
      split_and!; [split; [done|..]| |done].
      * intros a i. unfold open_new. fold n. simpl. rewrite lookup_insert, occ_cons. case_decide as Ea.
        -- subst a. intros [= <-]. rewrite decide_True, (occ_none n l), (no_users s n H Hn) by done. simpl. lia.
        -- intros Hi. rewrite decide_False by congruence. pose proof (he_cnt s l Hh a i Hi). lia.
      * intros a. unfold open_new. fold n. simpl. rewrite elem_of_cons, lookup_insert. intros Ha. case_decide; [by eexists|].
        destruct Ha as [->|Ha]; [done|by apply (he_in s l Hh)].
      * intros a i. unfold open_new. fold n. simpl. rewrite lookup_insert. case_decide; [intros [= <-]; simpl; lia|intros Hi; pose proof (Hf a i Hi); lia].
    + apply wlp_ret. set (s1 := set_heap _ _ s). assert (Hs : same_opens s s1) by (split_and!; done || (simpl; lia)).
      split_and!; [by eapply held_same|eapply few_weaken; [by eapply few_same|lia]|done].
Qed.

Lemma held_inode_close s a l k : held s (a :: l) -> few k s ->
  wlp (inode_close (Some a)) s (fun _ s' => held s' l /\ few k s' /\ files s' = files s).
Proof.
  intros Hh Hf. pose proof (he_ok _ _ Hh) as H. pose proof (held_spare s a l Hh) as (i & Hi & Hsp).
  pose proof (oo_cnt _ H a i Hi). pose proof (count_nonneg (on_inode a) (files s)). pose proof (occ_nonneg a l) as Hocc.
  pose proof (he_cnt _ _ Hh a i Hi) as Hc. rewrite occ_cons, decide_True in Hc by done.
  apply wlp_bind, wlp_get_inode. intros j Hj. simplify_eq.
  assert (E : s32 (open_cnt i - 1) = open_cnt i - 1) by (apply s32_small; urange; lia).
  apply wlp_bind, wlp_modify. rewrite E. destruct (Z.eqb_spec (open_cnt i - 1) 0) as [Hz|Hz].
  - assert (Hal : a ∉ l).
    { intros Ha%list_elem_of_In%(count_occ_In Z.eq_dec). unfold occ in *. lia. }
    apply wlp_bind, wlp_modify, wlp_bind, wlp_keeps; [retains|]. intros _ s' (E1 & E2 & E3 & E4). simpl in *.
    apply wlp_modify. simpl. rewrite E1, delete_insert_eq, E3. split_and!; [split; simpl|intros b j; simpl|done].
    + eapply same_opens_ok, (inode_drop_ok s a i H Hi); [|lia].
      by split_and!.
    + intros b j. rewrite lookup_delete. case_decide as Eb; [done|]. intros Hb. pose proof (he_cnt _ _ Hh b j Hb) as Hb'.
      rewrite occ_cons, decide_False in Hb' by congruence. rewrite E3. lia.
    + intros b Hb. rewrite lookup_delete. case_decide as Eb; [subst; done|]. apply (he_in _ _ Hh). by right.
    + rewrite lookup_delete. case_decide; [done|]. apply Hf.
  - apply wlp_ret. pose proof (Hf a i Hi). replace (mk_inode _ _ _ _ _) with (bump (-1) i) by (unfold bump; by rewrite <- E).
    split_and!; [|intros b j; simpl; rewrite lookup_insert; case_decide|done].
    + apply (held_bump s a i (-1) (a :: l)); [done|done|lia| |].
      * intros b. rewrite occ_cons. repeat case_decide; lia || congruence.
      * intros b Hb. right. by right.
    + intros [= <-]. simpl. replace (open_cnt i + -1) with (open_cnt i - 1) by lia. rewrite E. lia.
    + apply Hf.
Qed.

(** The files that were open stay as they are. *)
Definition grows (s s' : fs) : Prop := forall f x, files s !! f = Some x -> files s' !! f = Some x.

Lemma held_file_open s r l k : held s (option_list r ++ l) -> few k s ->
  wlp (file_open r) s (fun f s' => held s' l /\ few k s' /\ grows s s' /\
    forall g, f = Some g -> exists a, r = Some a /\ files s !! g = None /\ files s' !! g = Some (mk_file a 0 false)).
Proof.
  intros Hh Hf. pose proof (he_ok _ _ Hh) as H. unfold file_open.
  assert (Hfresh : files s !! next_addr s = None).
  { destruct (files s !! next_addr s) eqn:E; [|done].
    pose proof (oo_fresh s H (next_addr s) ltac:(right; rewrite E; eauto)). lia. }
  assert (Hclose : forall s1, same_opens s s1 -> wlp (inode_close r;; mret None) s1 (fun f s' => held s' l /\ few k s' /\ grows s s' /\
    forall g, f = Some g -> exists a, r = Some a /\ files s !! g = None /\ files s' !! g = Some (mk_file a 0 false))).
  { intros s1 Hs. assert (Hh1 := held_same _ _ _ Hs Hh). assert (Hf1 := few_same k _ _ Hs Hf). destruct Hs as (_ & _ & E3 & _).
    apply wlp_bind. destruct r as [a|]; [eapply wlp_mono; [by apply (held_inode_close s1 a l k)|]|].
    - intros _ s' (? & ? & E). apply wlp_ret. split_and!; [done..|intros f x Hx; congruence|done].
    - apply wlp_ret, wlp_ret. split_and!; [done..|intros f x Hx; congruence|done]. }
  apply wlp_bind, wlp_malloc.
  - set (s1 := set_heap _ _ s). assert (Hs : same_opens s s1) by (split_and!; done || (simpl; lia)).
    destruct r as [a|]; [|by apply Hclose]. apply wlp_bind, wlp_modify, wlp_ret. change (option_list (Some a) ++ l) with (a :: l) in Hh. split_and!; [split| | |].
    + apply (file_new_ok s1); [by eapply same_opens_ok|apply (same_opens_spare s s1 a Hs), (held_spare s a l Hh)|done|simpl; lia].
    + intros b i Hi. simpl in Hi |- *. rewrite count_new by done. pose proof (he_cnt _ _ Hh b i Hi) as Hc. rewrite occ_cons in Hc.
      unfold on_inode at 1. simpl. destruct (Z.eqb_spec a b) as [->|]; [rewrite decide_True in Hc by done|rewrite decide_False in Hc by congruence]; simpl; lia.
    + intros b Hb. simpl. apply (he_in _ _ Hh). by right.
    + done.
    + intros f x Hx. simpl. rewrite lookup_insert_ne by congruence. done.
    + intros g [= <-]. exists a. split_and!; [done|done|]. simpl. apply lookup_insert_eq.
  - set (s1 := set_heap _ _ s). assert (Hs : same_opens s s1) by (split_and!; done || (simpl; lia)).
    destruct r as [a|]; by apply Hclose.
Qed.

(** ** Directories *)

Lemma retains_get_opt {A} (o : option A) : retains (get_opt o).
Proof. destruct o; simpl; retains. Qed.
#[export] Hint Resolve retains_get_opt : retains.

Lemma retains_lookup stack d name : retains (lookup stack d name).
Proof.
  unfold lookup. apply retains_bind; [retains|]. intros fuel. generalize 0 as ofs. revert stack.
  induction fuel as [|fuel IH]; intros stack ofs; cbn [lookup_loop]; retains.
Qed.
#[export] Hint Resolve retains_lookup : retains.

Lemma retains_dir_add stack e d name sector : retains (dir_add stack e d name sector).
Proof.
  unfold dir_add. assert (Hfree : forall fuel e ofs, retains (free_slot_loop fuel d e ofs)).
  { induction fuel as [|fuel IH]; intros e0 ofs; cbn [free_slot_loop]; retains. }
  retains.
Qed.

Lemma retains_inode_create sector len : retains (inode_create sector len).
Proof.
  unfold inode_create. assert (Hz : forall fuel a b i, retains (write_zeros fuel a b i)).
  { induction fuel as [|fuel IH]; intros a b i; cbn [write_zeros]; retains. }
  retains.
Qed.
#[export] Hint Resolve retains_dir_add retains_inode_create : retains.

Lemma held_remove s a l k : held s l -> few k s ->
  wlp (inode_remove a) s (fun _ s' => held s' l /\ few k s' /\ files s' = files s).
Proof.
  intros Hh Hf. pose proof (he_ok _ _ Hh) as H. apply wlp_bind, wlp_get_inode. intros i Hi. apply wlp_modify. split_and!; [split|..].
  - eapply opens_ok_put; try done; simpl; [by eapply (oo_cnt s H)|by apply (oo_users s H)|by apply (oo_deny s H)].
  - intros b j. simpl. rewrite lookup_insert. case_decide; [intros [= <-]; subst; by apply (he_cnt _ _ Hh b i)|apply (he_cnt _ _ Hh)].
  - intros b Hb. simpl. rewrite lookup_insert. case_decide; [by eexists|by apply (he_in _ _ Hh)].
  - intros b j. simpl. rewrite lookup_insert. case_decide; [intros [= <-]; subst; by apply (Hf b i)|apply Hf].
  - done.
Qed.

(** The inode a directory holds. *)
Definition dir_ref (d : option dir) : list Z := match d with Some d => [d_inode d] | None => [] end.

Lemma held_dir_open_root s l k : held s l -> few k s -> 1 <= k <= 2 ^ 30 ->
  wlp dir_open_root s (fun d s' => held s' (dir_ref d ++ l) /\ few (k - 1) s' /\ files s' = files s).
Proof.
  intros Hh Hf Hk. unfold dir_open_root. apply wlp_bind. eapply wlp_mono; [by apply (held_inode_open s _ l k)|].
  intros r s1 (H1 & F1 & E1). unfold dir_open. apply wlp_bind.
  assert (Hclose : forall s2, held s2 (option_list r ++ l) -> few (k - 1) s2 -> files s2 = files s1 ->
    wlp (inode_close r;; mret None) s2 (fun d s' => held s' (dir_ref d ++ l) /\ few (k - 1) s' /\ files s' = files s)).
  { intros s2 H2 F2 E2. apply wlp_bind. destruct r as [a|].
    - eapply wlp_mono; [by apply (held_inode_close s2 a l (k - 1))|]. intros _ s3 (? & ? & ?). apply wlp_ret. split_and!; [done..|congruence].
    - apply wlp_ret, wlp_ret. split_and!; [done..|congruence]. }
  eapply (held_retains _ _ _ (k - 1)); [retains|done..|]. intros m s2 H2 F2 E2.
  destruct r as [a|], m; [|by apply Hclose..]. apply wlp_ret. split_and!; [done..|congruence].
Qed.

Lemma held_dir_close s d l k : held s (dir_ref d ++ l) -> few k s ->
  wlp (dir_close d) s (fun _ s' => held s' l /\ few k s' /\ files s' = files s).
Proof. intros Hh Hf. destruct d as [d|]; [by apply held_inode_close|by apply wlp_ret]. Qed.

(** ** The file system *)

Lemma wlp_filesys_open stack name s : opens_ok s -> few 2 s ->
  wlp (filesys_open stack name) s (fun f s' => opens_ok s' /\ grows s s' /\
    forall g, f = Some g -> exists a, files s !! g = None /\ files s' !! g = Some (mk_file a 0 false)).
Proof.
  intros H Hf. apply held_nil in H. unfold filesys_open. apply wlp_bind. eapply wlp_mono; [apply (held_dir_open_root s [] 2); [done..|lia]|].
  intros d s1 (H1 & F1 & E1). rewrite app_nil_r in H1. apply wlp_bind.
  apply (wlp_mono _ _ (fun r s' => held s' (dir_ref d ++ option_list r) /\ few 0 s' /\ files s' = files s)).
  - destruct d as [d|]; [|apply wlp_ret; split_and!; [done|by eapply few_weaken|done]].
    unfold dir_lookup. apply wlp_bind. eapply (held_retains _ _ _ _ _ (retains_lookup _ _ _)); [done..|]. intros r s2 H2 F2 E2.
    destruct r as [[e ofs]|]; [|apply wlp_ret; split_and!; [done|by eapply few_weaken|congruence]].
    eapply wlp_mono; [eapply (held_inode_open s2 _ _ 1); [done..|lia]|]. intros r s3 (H3 & F3 & E3). split_and!; [|done|congruence].
    destruct r as [a|]; [|done]. split; [apply H3| |].
    + intros b i Hi. pose proof (he_cnt _ _ H3 b i Hi) as Hc. simpl in *. rewrite !occ_cons in *. lia.
    + intros b Hb. apply (he_in _ _ H3). simpl in *. set_solver.
  - intros r s2 (H2 & F2 & E2). apply wlp_bind. eapply wlp_mono; [by eapply (held_dir_close s2 d)|]. intros _ s3 (H3 & F3 & E3).
    eapply wlp_mono; [apply (held_file_open s3 r [] 0); [by rewrite app_nil_r|done]|]. intros f s4 (H4 & _ & G4 & N4).
    split_and!; [exact (he_ok _ _ H4)|intros g x Hx; apply G4; congruence|]. intros g Hg. destruct (N4 g Hg) as (a & _ & Hn & Hs).
    exists a. split; [congruence|done].
Qed.

Lemma wlp_filesys_create stack e name size s : opens_ok s -> few 2 s ->
  wlp (filesys_create stack e name size) s (fun _ s' => opens_ok s' /\ files s' = files s).
Proof.
  intros H Hf. apply held_nil in H. unfold filesys_create. apply wlp_bind. eapply wlp_mono; [apply (held_dir_open_root s [] 2); [done..|lia]|].
  intros d s1 (H1 & F1 & E1). apply wlp_bind. eapply (held_retains _ _ _ 1); [|done..|].
  { destruct d; retains. }
  intros [success x] s2 H2 F2 E2. apply wlp_bind. eapply (held_retains _ _ _ 1); [retains|done..|]. intros _ s3 H3 F3 E3.
  apply wlp_bind. eapply wlp_mono; [by apply (held_dir_close s3 d [] 1)|]. intros _ s4 (H4 & _ & E4). apply wlp_ret.
  split; [by eapply he_ok|congruence].
Qed.

Lemma wlp_filesys_remove stack name s : opens_ok s -> few 2 s ->
  wlp (filesys_remove stack name) s (fun _ s' => opens_ok s' /\ files s' = files s).
Proof.
  intros H Hf. apply held_nil in H. unfold filesys_remove. apply wlp_bind. eapply wlp_mono; [apply (held_dir_open_root s [] 2); [done..|lia]|].
  intros d s1 (H1 & F1 & E1). apply wlp_bind.
  apply (wlp_mono _ _ (fun _ s' => held s' (dir_ref d ++ []) /\ few 0 s' /\ files s' = files s)).
  - destruct d as [d|]; [|apply wlp_ret; split_and!; [done|by eapply few_weaken|done]].
    unfold dir_remove. apply wlp_bind. eapply (held_retains _ _ _ _ _ (retains_lookup _ _ _)); [done..|]. intros r s2 H2 F2 E2.
    destruct r as [[x ofs]|]; [|apply wlp_ret; split_and!; [done|by eapply few_weaken|congruence]].
    apply wlp_bind. eapply wlp_mono; [eapply (held_inode_open s2 _ _ 1); [done..|lia]|]. intros r s3 (H3 & F3 & E3).
    destruct r as [a|]; [|apply wlp_ret; split_and!; [done|done|congruence]].
    apply wlp_bind. eapply (held_retains _ _ _ 0); [retains|done..|]. intros x' s4 H4 F4 E4.
    apply wlp_bind. eapply (held_retains _ _ _ 0); [retains|done..|]. intros n s5 H5 F5 E5. destruct (n =? SIZEOF_DIR_ENTRY).
    + apply wlp_bind. eapply wlp_mono; [by eapply (held_remove s5 a _ 0)|]. intros _ s6 (H6 & F6 & E6).
      apply wlp_bind. eapply wlp_mono; [exact (held_inode_close s6 a (dir_ref (Some d) ++ []) 0 H6 F6)|]. intros _ s7 (H7 & F7 & E7). apply wlp_ret.
      split_and!; [done..|congruence].
    + apply wlp_bind. eapply wlp_mono; [exact (held_inode_close s5 a (dir_ref (Some d) ++ []) 0 H5 F5)|]. intros _ s7 (H7 & F7 & E7). apply wlp_ret.
      split_and!; [done..|congruence].
  - intros ok s2 (H2 & F2 & E2). apply wlp_bind. eapply wlp_mono; [by apply (held_dir_close s2 d [] 0)|]. intros _ s3 (H3 & _ & E3).
    apply wlp_ret. split; [by eapply he_ok|congruence].
Qed.

(** ** Files *)

Lemma wlp_file_reopen f s : opens_ok s -> few 1 s ->
  wlp (file_reopen f) s (fun r s' => opens_ok s' /\ grows s s' /\ forall g, r = Some g -> is_Some (files s' !! g) /\ files s !! g = None).
Proof.
  intros H Hf. unfold file_reopen. apply wlp_bind, wlp_get_file. intros x Hx. destruct (oo_files s H f x Hx) as [i Hi].
  pose proof (oo_cnt s H _ i Hi). pose proof (Hf _ i Hi). apply wlp_bind.
  unfold wlp at 1. rewrite (inode_reopen_eq s (f_inode x) i Hi). set (s1 := set_inodes _ s).
  assert (Hh1 : held s1 (option_list (Some (f_inode x)) ++ [])).
  { apply (held_bump s _ i 1 []); [by apply held_nil|done|lia|intros b; apply (occ_cons b (f_inode x) [])|]. intros b. simpl. set_solver. }
  assert (F1 : few 0 s1).
  { intros b j. simpl. rewrite lookup_insert. case_decide; [intros [= <-]; simpl; rewrite s32_small by (urange; lia); lia|].
    intros Hj. pose proof (Hf b j Hj). lia. }
  eapply wlp_mono; [exact (held_file_open s1 _ [] 0 Hh1 F1)|]. intros r s2 (H2 & _ & G2 & N2).
  split_and!; [exact (he_ok _ _ H2)|exact G2|]. intros g Hg. destruct (N2 g Hg) as (a & _ & Hn & Hs). split; [by eexists|exact Hn].
Qed.

(** Reading and writing move the position of one file. *)
Lemma wlp_file_moved {A} s f (m : Z -> Z -> ST fs A) (n : A -> Z) : opens_ok s -> (forall a p, retains (m a p)) ->
  wlp (x ← get_file f; r ← m (f_inode x) (pos x);
       put_file f (mk_file (f_inode x) (s32 (pos x + n r)) (deny_write x));; mret r) s
    (fun _ s' => opens_ok s' /\ exists x', files s' = <[f := x']> (files s)).
Proof.
  intros H Hm. apply wlp_bind, wlp_get_file. intros x Hx. apply wlp_bind, wlp_keeps; [apply Hm|]. intros r s1 Hs.
  pose proof Hs as (_ & _ & E3 & _). apply wlp_bind. eapply (wlp_move s1 f _ _ x); [by eapply same_opens_ok|congruence|done|].
  intros s2 H2 E2. apply wlp_ret. split; [done|]. eexists. by rewrite E2, E3.
Qed.

Lemma wlp_file_read f b n s : opens_ok s -> wlp (file_read f b n) s (fun _ s' => opens_ok s' /\ exists x', files s' = <[f := x']> (files s)).
Proof. intros H. apply (wlp_file_moved s f (fun a p => inode_read_at a b n p) (fun r => r.1) H). intros. apply retains_inode_read_at. Qed.

Lemma wlp_file_write f b n s : opens_ok s -> wlp (file_write f b n) s (fun _ s' => opens_ok s' /\ exists x', files s' = <[f := x']> (files s)).
Proof. intros H. apply (wlp_file_moved s f (fun a p => inode_write_at a b n p) (fun r => r) H). intros. apply retains_inode_write_at. Qed.

Lemma wlp_file_seek f n s : opens_ok s -> wlp (file_seek f n) s (fun _ s' => opens_ok s' /\ exists x', files s' = <[f := x']> (files s)).
Proof.
  intros H. apply wlp_bind, wlp_assert. intros _. apply wlp_bind, wlp_get_file. intros x Hx.
  eapply (wlp_move s f _ _ x); [done..|]. intros s' H' E. split; [done|by eexists].
Qed.
