(* ===== verification/Volume.v ===== *)
(** * The file system as a dictionary from names to contents

    The directory of the disk binds names to header sectors and the headers
    say where the data is.  [volume_ok] says that the files, the free-map
    file and the directory share no sector, that the free map marks all of
    them, and that the structures in memory agree with the disk.  Creating
    and opening files by name keep this and are operations of a dictionary,
    whatever the other files hold and whichever files are open. *)

From S2P Require Import Prelude Vaddr Bitmap Bytes Disk Inode InodeProps File FileProps FreeMapProps InodeCreate Directory DirectoryProps FilesysOpens.

(** ** The files on a disk *)

(** The header in sector [x], the sectors of its data, and all sectors of
    the file. *)
Definition header_at (d : disk) (x : Z) : inode_disk := inode_disk_of (sector d x).
Definition span (h : inode_disk) : list Z := seqZ (start h) (bytes_to_sectors (i_length h)).
Definition file_sectors (d : disk) (x : Z) : list Z := x :: span (header_at d x).

(** The root directory and the contents it gives to names. *)
Definition table (d : disk) : list (option (list Z * Z)) := entries d (header_at d ROOT_DIR_SECTOR).
Definition volume (d : disk) (name : list Z) : option (list Z) :=
  (fun x => contents d (header_at d x)) <$> sector_in (table d) name.

(** The sectors that hold headers: those of the system and of the files of
    the directory, and those of open inodes, whose files may have been
    removed. *)
Definition bound (d : disk) (x : Z) : Prop :=
  x = FREE_MAP_SECTOR \/ x = ROOT_DIR_SECTOR \/ exists name, Some (name, x) ∈ table d.
Definition is_header (s : fs) (x : Z) : Prop :=
  bound (filesys_disk s) x \/ exists a i, inodes s !! a = Some i /\ i_sector i = x.

(** The sectors in use. *)
Definition live (s : fs) (y : Z) : Prop := exists x, is_header s x /\ y ∈ file_sectors (filesys_disk s) x.

Definition header_ok (d : disk) (h : inode_disk) : Prop := i_length h < 2 ^ 31 - 512 /\ inode_wf d h.

(** No two entries have the same name or the same file, and none is for the
    files of the system. *)
Record entries_ok (l : list (option (list Z * Z))) : Prop := {
  en_name j k nm x y : l !! j = Some (Some (nm, x)) -> l !! k = Some (Some (nm, y)) -> j = k;
  en_sector j k nm nm' x : l !! j = Some (Some (nm, x)) -> l !! k = Some (Some (nm', x)) -> j = k;
  en_file nm x : Some (nm, x) ∈ l -> x <> FREE_MAP_SECTOR /\ x <> ROOT_DIR_SECTOR;
}.

Record volume_ok (s : fs) : Prop := {
  vo_disk : disk_ok (filesys_disk s);
  vo_apart x y z : is_header s x -> is_header s y -> z ∈ file_sectors (filesys_disk s) x -> z ∈ file_sectors (filesys_disk s) y -> x = y;
  vo_nodup x : is_header s x -> x ∉ span (header_at (filesys_disk s) x);
  vo_live x : live s x -> 0 <= x < capacity (filesys_disk s) /\ bit (free_map s) x = true;
  vo_header x : is_header s x -> header_ok (filesys_disk s) (header_at (filesys_disk s) x);
  vo_entries : entries_ok (table (filesys_disk s));
  vo_slots : slots_ok (filesys_disk s) (header_at (filesys_disk s) ROOT_DIR_SECTOR);
  vo_cover : bit_cnt (free_map s) = capacity (filesys_disk s);
  vo_map : exists f a i, map_file s f a i /\ free_map_file s = Some f /\ i_sector i = FREE_MAP_SECTOR;
  vo_core a i : inodes s !! a = Some i -> data i = header_at (filesys_disk s) (i_sector i);
  vo_removed a i : inodes s !! a = Some i -> removed i = true -> ~ bound (filesys_disk s) (i_sector i);
  vo_root a i : inodes s !! a = Some i -> i_sector i = ROOT_DIR_SECTOR -> deny_write_cnt i = 0;
}.

(** ** Sectors and bytes *)

Lemma sector_eq d d' x : disk_ok d -> disk_ok d' ->
  (forall k, 0 <= k < 512 -> byte_at d' (512 * x + k) = byte_at d (512 * x + k)) -> sector d' x = sector d x.
Proof.
  intros Hd Hd' H. apply bytes_eq; [by rewrite !sector_length|]. rewrite sector_length by done. intros k Hk.
  specialize (H k ltac:(lia)). unfold byte_at in H. destruct (sector_addr x k) as [E1 E2]; [lia|].
  rewrite E1, E2, Z.div_small, Z.mod_small, Z.add_0_r in H by lia. done.
Qed.

Lemma span_byte h p : 0 <= p < i_length h -> i_length h < 2 ^ 31 - 512 -> (base_of h + p) / 512 ∈ span h.
Proof.
  intros Hp Hl. destruct (bytes_to_sectors_eq (i_length h)) as (_ & ? & ?); [lia|]. cbv zeta in *. unfold span, base_of.
  destruct (sector_addr (start h) p) as [-> _]; [lia|]. apply elem_of_seqZ.
  pose proof (Z.div_mod p 512). pose proof (Z.mod_pos_bound p 512). pose proof (Z.div_pos p 512). lia.
Qed.

Lemma span_outside h x k : 0 <= i_length h < 2 ^ 31 - 512 -> x ∉ span h -> 0 <= k < 512 ->
  512 * x + k < base_of h \/ base_of h + i_length h <= 512 * x + k.
Proof.
  intros Hl Hx Hk. destruct (bytes_to_sectors_eq (i_length h)) as (_ & ? & ?); [lia|]. cbv zeta in *.
  unfold span in Hx. rewrite elem_of_seqZ in Hx. unfold base_of. lia.
Qed.

Lemma outside_sector h d d' x : 0 <= i_length h < 2 ^ 31 - 512 -> disk_ok d -> disk_ok d' -> outside h d d' ->
  x ∉ span h -> sector d' x = sector d x.
Proof. intros Hl Hd Hd' Ho Hx. apply sector_eq; [done..|]. intros k Hk. apply Ho. by apply span_outside. Qed.

Lemma contents_same d d' h : i_length h < 2 ^ 31 - 512 -> (forall x, x ∈ span h -> sector d' x = sector d x) ->
  contents d' h = contents d h.
Proof.
  intros Hl H. unfold contents. apply list_fmap_ext. intros q p Hp. apply lookup_seqZ in Hp as [-> Hp].
  unfold byte_at. f_equal. apply H. apply span_byte; lia.
Qed.

Lemma header_same d d' x : sector d' x = sector d x -> header_at d' x = header_at d x.
Proof. unfold header_at. by intros ->. Qed.

Lemma file_sectors_same d d' x : sector d' x = sector d x -> file_sectors d' x = file_sectors d x.
Proof. intros E. unfold file_sectors. by rewrite (header_same d d'). Qed.

(** ** What is in use *)

Lemma free_map_header s : is_header s FREE_MAP_SECTOR.
Proof. left. by left. Qed.
Lemma root_header s : is_header s ROOT_DIR_SECTOR.
Proof. left. right. by left. Qed.
Lemma bound_header s x : bound (filesys_disk s) x -> is_header s x.
Proof. by left. Qed.
Lemma inode_header s a i : inodes s !! a = Some i -> is_header s (i_sector i).
Proof. intros Hi. right. by exists a, i. Qed.
Lemma header_live s x : is_header s x -> live s x.
Proof. intros Hx. exists x. split; [done|left]. Qed.
Lemma span_live s x y : is_header s x -> y ∈ span (header_at (filesys_disk s) x) -> live s y.
Proof. intros Hx Hy. exists x. split; [done|by right]. Qed.

Create HintDb volume.
#[export] Hint Resolve free_map_header root_header bound_header inode_header header_live span_live : volume.

Lemma sector_in_elem l nm x : sector_in l nm = Some x -> Some (nm, x) ∈ l.
Proof.
  induction l as [|[[n y]|] l IH]; cbn [sector_in]; [done| |]; [case_decide; [intros [= ->]; subst; left|]|]; intros; right; auto.
Qed.

Lemma entry_bound d nm x : Some (nm, x) ∈ table d -> bound d x.
Proof. intros H. right. right. by exists nm. Qed.
Lemma sector_in_bound d nm x : sector_in (table d) nm = Some x -> bound d x.
Proof. intros H%sector_in_elem. by eapply entry_bound. Qed.
#[export] Hint Resolve entry_bound sector_in_bound : volume.

(** The files of [s], bound or open, are the same in [s']. *)
Definition kept (s s' : fs) : Prop := forall x, is_header s x -> x <> FREE_MAP_SECTOR -> x <> ROOT_DIR_SECTOR ->
  header_at (filesys_disk s') x = header_at (filesys_disk s) x /\
  contents (filesys_disk s') (header_at (filesys_disk s) x) = contents (filesys_disk s) (header_at (filesys_disk s) x).

Section Step.
Context (s : fs) (H : volume_ok s).
Local Notation d := (filesys_disk s).

Lemma header_length x : is_header s x -> 0 <= i_length (header_at d x) < 2 ^ 31 - 512.
Proof. intros Hx. destruct (vo_header s H x Hx) as [? Hw]. pose proof (iw_len _ _ Hw). lia. Qed.

(** Headers hold no data, and different files share no data. *)
Lemma header_off x y : is_header s x -> is_header s y -> x ∉ span (header_at d y).
Proof.
  intros Hx Hy Hin. destruct (decide (x = y)) as [->|Hne]; [by eapply (vo_nodup s H)|].
  apply Hne, (vo_apart s H x y x); [done|done|left|by right].
Qed.

Lemma span_off x y z : is_header s x -> is_header s y -> x <> y -> z ∈ span (header_at d x) -> z ∉ span (header_at d y).
Proof. intros Hx Hy Hne Hz Hin. apply Hne, (vo_apart s H x y z); [done|done|by right|by right]. Qed.

(** A step that writes only to the data of the system and to sectors not in
    use, and keeps the directory. *)
Record quiet_step (z : Z) (s' : fs) : Prop := {
  qs_at : is_header s z;
  qs_opens : same_opens s s';
  qs_file : free_map_file s' = free_map_file s;
  qs_disk : disk_ok (filesys_disk s');
  qs_cap : capacity (filesys_disk s') = capacity d;
  qs_kept x : live s x -> x ∉ span (header_at d FREE_MAP_SECTOR) -> x ∉ span (header_at d ROOT_DIR_SECTOR) ->
    x ∉ span (header_at d z) ->
    sector (filesys_disk s') x = sector d x;
  qs_exact : exact (free_map s');
  qs_cnt : bit_cnt (free_map s') = bit_cnt (free_map s);
  qs_bits x : live s x -> bit (free_map s') x = true;
}.

Lemma header_kept {z} s' x : quiet_step z s' -> is_header s x -> sector (filesys_disk s') x = sector d x.
Proof. intros Hq Hx. apply (qs_kept _ s' Hq); [by apply header_live|apply header_off; auto with volume..]. apply Hq. Qed.

(** The data of every file but [z] and those of the system is kept. *)
Lemma data_kept {z} s' x : quiet_step z s' -> is_header s x -> x <> FREE_MAP_SECTOR -> x <> ROOT_DIR_SECTOR -> x <> z ->
  header_at (filesys_disk s') x = header_at d x /\ contents (filesys_disk s') (header_at d x) = contents d (header_at d x).
Proof.
  intros Hq Hx H0 H1 Hz. pose proof (qs_at _ s' Hq). rewrite (header_same d (filesys_disk s') x) by (by apply (header_kept s' x Hq)). split; [done|].
  apply contents_same; [by apply header_length|]. intros y Hy.
  apply (qs_kept _ s' Hq); [eauto with volume|apply (span_off x); auto with volume..].
Qed.

Lemma quiet_kept s' : quiet_step FREE_MAP_SECTOR s' -> kept s s'.
Proof. intros Hq x Hx H0 H1. by apply (data_kept s' x Hq). Qed.

Lemma wf_same h : inode_wf d h -> forall z s', quiet_step z s' -> inode_wf (filesys_disk s') h.
Proof. intros Hw z s' Hq. eapply inode_wf_capacity; [apply (qs_cap _ s' Hq)|done]. Qed.

(** The part of the invariant about memory and the free map. *)
Lemma map_kept {z} s' : quiet_step z s' -> exists f a i, map_file s' f a i /\ free_map_file s' = Some f /\ i_sector i = FREE_MAP_SECTOR.
Proof.
  intros Hq. destruct (vo_map s H) as (f & a & i & [M1 M2 (O1 & O2 & O3) M4 M5] & Hf & Hi).
  destruct (qs_opens _ s' Hq) as (E1 & E2 & E3 & E4). exists f, a, i. split_and!; [|by rewrite (qs_file _ s' Hq)|done]. split.
  - apply Hq.
  - by rewrite E3.
  - split_and!; [by rewrite E1|apply Hq|by eapply wf_same].
  - done.
  - by rewrite (qs_cnt _ s' Hq).
Qed.

(** The directory may lose entries. *)
Lemma headers_shrink {z} s' x : quiet_step z s' -> (forall nm y, Some (nm, y) ∈ table (filesys_disk s') -> Some (nm, y) ∈ table d) ->
  is_header s' x -> is_header s x.
Proof.
  intros Hq Hsub [[->|[->|(nm & Hx)]]|(a & i & Hi & <-)]; [auto with volume|auto with volume|eauto with volume|].
  destruct (qs_opens _ s' Hq) as (E1 & _). rewrite E1 in Hi. eauto with volume.
Qed.

Lemma core_kept {z} s' a i : quiet_step z s' -> inodes s' !! a = Some i -> data i = header_at (filesys_disk s') (i_sector i).
Proof.
  intros Hq Hi. destruct (qs_opens _ s' Hq) as (E1 & _). rewrite E1 in Hi.
  rewrite (header_same d (filesys_disk s')) by (apply (header_kept s' _ Hq); eauto with volume). by apply (vo_core s H a).
Qed.

Lemma quiet_shrink {z} s' : quiet_step z s' -> (forall nm y, Some (nm, y) ∈ table (filesys_disk s') -> Some (nm, y) ∈ table d) ->
  entries_ok (table (filesys_disk s')) -> slots_ok (filesys_disk s') (header_at (filesys_disk s') ROOT_DIR_SECTOR) ->
  volume_ok s' /\ (forall x, live s' x -> live s x).
Proof.
  intros Hq Hsub Hent Hok. pose proof (qs_opens _ s' Hq) as Hso. pose proof (fun x => headers_shrink s' x Hq Hsub) as Hh.
  assert (Eh : forall x, is_header s' x -> file_sectors (filesys_disk s') x = file_sectors d x /\ header_at (filesys_disk s') x = header_at d x).
  { intros x Hx%Hh. pose proof (header_kept s' x Hq Hx). split; [by apply file_sectors_same|by apply header_same]. }
  assert (Hlive : forall x, live s' x -> live s x).
  { intros y (x & Hx & Hy). exists x. rewrite (proj1 (Eh x Hx)) in Hy. by apply Hh in Hx. }
  split; [split|done].
  - apply Hq.
  - intros x y w Hx Hy. rewrite (proj1 (Eh x Hx)), (proj1 (Eh y Hy)). apply (vo_apart s H); by apply Hh.
  - intros x Hx. rewrite (proj2 (Eh x Hx)). by apply (vo_nodup s H), Hh.
  - intros x Hx%Hlive. rewrite (qs_cap _ s' Hq). split; [by apply (vo_live s H)|by apply (qs_bits _ s' Hq)].
  - intros x Hx. rewrite (proj2 (Eh x Hx)). apply Hh in Hx. destruct (vo_header s H x Hx). split; [done|by eapply wf_same].
  - done.
  - done.
  - rewrite (qs_cap _ s' Hq), (qs_cnt _ s' Hq). apply H.
  - by apply (map_kept s' Hq).
  - intros a i. by apply (core_kept s' a i Hq).
  - destruct Hso as (E1 & _). rewrite E1. intros a i Hi Hr Hb. apply (vo_removed s H a i Hi Hr).
    destruct Hb as [?|[?|(nm & Hb)]]; [by left|right; by left|]. right. right. exists nm. by apply Hsub.
  - destruct Hso as (E1 & _). rewrite E1. apply H.
Qed.

(** The contents of the files that stay. *)
Lemma quiet_volume s' nm : quiet_step FREE_MAP_SECTOR s' ->
  (forall x, sector_in (table (filesys_disk s')) nm = Some x -> sector_in (table d) nm = Some x) ->
  volume (filesys_disk s') nm = match sector_in (table (filesys_disk s')) nm with Some _ => volume d nm | None => None end.
Proof.
  intros Hq Hs. unfold volume. destruct (sector_in (table (filesys_disk s')) nm) as [x|]; [|done]. rewrite (Hs x eq_refl). simpl. f_equal.
  specialize (Hs x eq_refl). apply sector_in_elem in Hs. destruct (en_file _ (vo_entries s H) nm x Hs).
  destruct (data_kept s' x Hq) as [-> ->]; eauto with volume.
Qed.

Lemma quiet_ok s' : quiet_step FREE_MAP_SECTOR s' -> table (filesys_disk s') = table d ->
  slots_ok (filesys_disk s') (header_at (filesys_disk s') ROOT_DIR_SECTOR) ->
  volume_ok s' /\ (forall nm, volume (filesys_disk s') nm = volume d nm) /\ (forall x, live s' x -> live s x).
Proof.
  intros Hq Et Hok. destruct (quiet_shrink s' Hq) as [? ?]; [by rewrite Et|rewrite Et; apply H|done|].
  split_and!; [done| |done]. intros nm. rewrite (quiet_volume s' nm) by (done || by rewrite Et). rewrite Et.
  unfold volume. by destruct (sector_in (table d) nm).
Qed.
End Step.

(** The directory is kept when its data is. *)
Lemma table_same d d' : sector d' ROOT_DIR_SECTOR = sector d ROOT_DIR_SECTOR ->
  contents d' (header_at d ROOT_DIR_SECTOR) = contents d (header_at d ROOT_DIR_SECTOR) ->
  table d' = table d /\ (slots_ok d (header_at d ROOT_DIR_SECTOR) -> slots_ok d' (header_at d' ROOT_DIR_SECTOR)).
Proof.
  intros Eh Ec. unfold table. rewrite (header_same d d') by done. unfold entries, slots_ok, slot. rewrite Ec. done.
Qed.

(** ** Steps of the file system *)

(** What a step that changes no file keeps. *)
Record advance (s s' : fs) : Prop := {
  ad_ok : volume_ok s';
  ad_oom : no_oom s';
  ad_opens : same_opens s s';
  ad_volume nm : volume (filesys_disk s') nm = volume (filesys_disk s) nm;
  ad_table : table (filesys_disk s') = table (filesys_disk s);
  ad_live x : live s' x -> live s x;
  ad_kept : kept s s';
}.

Lemma advance_refl s : volume_ok s -> no_oom s -> advance s s.
Proof. intros. split; try done. Qed.

Lemma advance_header s s' x : advance s s' -> is_header s x -> is_header s' x.
Proof. intros Ha. unfold is_header, bound. rewrite (ad_table s s' Ha). by destruct (ad_opens s s' Ha) as (-> & _). Qed.

Lemma advance_trans s1 s2 s3 : advance s1 s2 -> advance s2 s3 -> advance s1 s3.
Proof.
  intros A1 A2. pose proof (fun x => advance_header s1 s2 x A1) as Hh. destruct A1 as [? ? ? ? ? ? K1], A2 as [? ? ? ? ? ? K2].
  split; [done|done|by eapply same_opens_trans|congruence|congruence|auto|].
  intros x Hx H0 H1. destruct (K1 x Hx H0 H1) as [E1 E2]. destruct (K2 x (Hh x Hx) H0 H1) as [E3 E4]. rewrite E1 in *. split; congruence.
Qed.

Lemma quiet_advance s s' : volume_ok s -> no_oom s' -> quiet_step s FREE_MAP_SECTOR s' ->
  (forall x, x ∈ span (header_at (filesys_disk s) ROOT_DIR_SECTOR) -> sector (filesys_disk s') x = sector (filesys_disk s) x) ->
  advance s s'.
Proof.
  intros H Hm Hq Hk.
  destruct (table_same (filesys_disk s) (filesys_disk s')) as [Et Hs].
  { apply (header_kept s H s' _ Hq); auto with volume. }
  { apply contents_same; [|done]. apply (header_length s H); auto with volume. }
  destruct (quiet_ok s H s' Hq Et) as (? & ? & ?); [apply Hs, H|]. split; [..|by apply (quiet_kept s H)]; try done. apply Hq.
Qed.

Lemma no_oom_suffix s s' : mallocs s' `suffix_of` mallocs s -> no_oom s -> no_oom s'.
Proof. unfold no_oom. intros Hs E. rewrite E in Hs. by apply suffix_nil_inv in Hs. Qed.

(** The sectors of a free group are in nobody's use. *)
Lemma free_not_live s x n y : volume_ok s -> group (free_map s) x n false -> x <= y < x + n -> ~ live s y.
Proof. intros H Hg Hy Hl. destruct (vo_live s H y Hl) as [_ Hb]. rewrite Hg in Hb by done. done. Qed.

Lemma map_step s s' h : volume_ok s -> no_oom s -> h = header_at (filesys_disk s) FREE_MAP_SECTOR -> map_only h s s' ->
  exact (free_map s') -> bit_cnt (free_map s') = bit_cnt (free_map s) -> (forall x, live s x -> bit (free_map s') x = true) ->
  advance s s'.
Proof.
  intros H Hm Eh (E1 & E2 & E3 & E4 & E5 & E6 & E7 & E8 & E9) He Hc Hb. subst h.
  assert (Hk : forall x, x ∉ span (header_at (filesys_disk s) FREE_MAP_SECTOR) -> sector (filesys_disk s') x = sector (filesys_disk s) x).
  { intros x. apply outside_sector; [apply (header_length s H); auto with volume|apply H|done|done]. }
  apply quiet_advance; [done|by eapply no_oom_suffix| |].
  - split; try done; [auto with volume|]. intros x _ Hx _ _. by apply Hk.
  - intros x Hx. apply Hk. eapply (span_off s H); eauto with volume.
Qed.

(** Allocating sectors of the disk. *)
Lemma wp_volume_alloc s cnt Q : volume_ok s -> no_oom s -> 0 <= cnt ->
  (forall x s', advance s s' -> 0 <= x -> x + cnt <= bit_cnt (free_map s) -> group (free_map s) x cnt false ->
     (forall k, 0 <= k < x -> ~ group (free_map s) k cnt false) ->
     bits_set (free_map s) (free_map s') (in_group x cnt) (fun _ => true) -> Q (Some x) s') ->
  (forall s', advance s s' -> (forall k, 0 <= k -> k + cnt <= bit_cnt (free_map s) -> ~ group (free_map s) k cnt false) -> Q None s') ->
  wp (free_map_allocate cnt) s Q.
Proof.
  intros H Hm Hc HQ1 HQ2. destruct (vo_map s H) as (f & a & i & Hmf & Hf & Hi).
  pose proof (mf_open _ _ _ _ Hmf) as (Hin & _). pose proof (vo_core s H a i Hin) as Ed. rewrite Hi in Ed.
  pose proof (mf_map _ _ _ _ Hmf) as Hex.
  apply (wp_free_map_allocate s f a i); [done..| |].
  - intros x s' Hmo Hx Hxc Hg Hmin Hb _. apply HQ1; try done.
    eapply map_step; [done..|by eapply exact_set|apply Hb|]. intros y Hy.
    destruct (vo_live s H y Hy) as [? Hby]. destruct Hb as (_ & _ & _ & Hb). rewrite Hb by (rewrite (vo_cover s H); done).
    by destruct (in_group x cnt y).
  - intros s' Hmo Hb Hno. apply HQ2; [|apply Hno; unfold mem_ok; by rewrite Hm].
    eapply map_step; [done..|by eapply exact_set|apply Hb|]. intros y Hy.
    destruct (vo_live s H y Hy) as [? Hby]. destruct Hb as (_ & _ & _ & Hb). by rewrite Hb by (rewrite (vo_cover s H); done).
Qed.

(** ** Releasing and creating *)

Lemma wp_free_map_release s f a i x cnt Q : map_file s f a i -> free_map_file s = Some f -> 0 <= x -> 0 <= cnt ->
  x + cnt <= bit_cnt (free_map s) -> group (free_map s) x cnt true ->
  (forall s', map_only (data i) s s' -> bits_set (free_map s) (free_map s') (in_group x cnt) (fun _ => false) -> Q tt s') ->
  wp (free_map_release x cnt) s Q.
Proof.
  intros H Hf Hx Hc Hxc Hg HQ. pose proof (mf_map _ _ _ _ H) as Hex. pose proof Hex as (Hok & Hcnt & _).
  pose proof (mf_open _ _ _ _ H) as (_ & Hd & _).
  unfold free_map_release. apply wp_bind, wp_on_free_map. unfold bitmap_all.
  apply wp_bind, wp_bitmap_contains; [done..|]. intros r Hr. apply wp_ret.
  apply wp_bind, wp_assert; [by rewrite (proj2 Hr)|]. apply wp_bind, wp_on_free_map, wp_bitmap_set_multiple; [done..|]. intros b' Hb.
  apply wp_bind, wp_gets. simpl. rewrite Hf. set (s1 := set_free_map b' (set_free_map (free_map s) s)).
  assert (H1 : map_file s1 f a i) by (eapply map_file_bits; [exact H|exact Hb|done..]).
  apply wp_bind, (wp_bitmap_write s1 f a i); [done|]. intros r' s2 d' Hh Hd' Hcap Hout _ _. apply wp_ret, HQ.
  - destruct Hh as (m & k & -> & ? & ?). by split_and!.
  - by destruct Hh as (m & k & -> & ? & ?).
Qed.

Lemma wp_volume_release s x cnt Q : volume_ok s -> no_oom s -> 0 <= x -> 0 <= cnt -> x + cnt <= bit_cnt (free_map s) ->
  group (free_map s) x cnt true -> (forall y, x <= y < x + cnt -> ~ live s y) ->
  (forall s', advance s s' -> bits_set (free_map s) (free_map s') (in_group x cnt) (fun _ => false) -> Q tt s') ->
  wp (free_map_release x cnt) s Q.
Proof.
  intros H Hm Hx Hc Hxc Hg Hl HQ. destruct (vo_map s H) as (f & a & i & Hmf & Hf & Hi).
  pose proof (mf_open _ _ _ _ Hmf) as (Hin & _). pose proof (vo_core s H a i Hin) as Ed. rewrite Hi in Ed.
  pose proof (mf_map _ _ _ _ Hmf) as Hex.
  apply (wp_free_map_release s f a i); [done..|]. intros s' Hmo Hb. apply HQ; [|done].
  eapply map_step; [done..|by eapply exact_set|apply Hb|]. intros y Hy.
  destruct (vo_live s H y Hy) as [? Hby]. destruct Hb as (_ & _ & _ & Hb). rewrite Hb by (rewrite (vo_cover s H); done).
  unfold in_group. destruct (Z.leb_spec x y), (Z.ltb_spec y (x + cnt)); simpl; try done. destruct (Hl y); [lia|done].
Qed.

(** Creating an inode in a sector that nobody uses. *)
Lemma wp_volume_create s x len Q : volume_ok s -> no_oom s -> 0 <= x < capacity (filesys_disk s) -> bit (free_map s) x = true ->
  ~ live s x -> 0 <= len < 2 ^ 31 - 512 ->
  let n := bytes_to_sectors len in
  (forall y s', advance s s' -> header_at (filesys_disk s') x = header y len -> header_ok (filesys_disk s') (header y len) ->
     contents (filesys_disk s') (header y len) = replicate (Z.to_nat len) 0 ->
     0 <= y -> y + n <= bit_cnt (free_map s) -> ~ y <= x < y + n -> (forall z, y <= z < y + n -> ~ live s z) ->
     bits_set (free_map s) (free_map s') (in_group y n) (fun _ => true) -> Q true s') ->
  (forall s', advance s s' -> same_bits (free_map s) (free_map s') ->
     (forall k, 0 <= k -> k + n <= bit_cnt (free_map s) -> ~ group (free_map s) k n false) -> Q false s') ->
  wp (inode_create x len) s Q.
Proof.
  intros H Hm Hx Hbx Hlx Hlen n HQ1 HQ2. destruct (vo_map s H) as (f & a & i & Hmf & Hf & Hi).
  pose proof (mf_open _ _ _ _ Hmf) as (Hin & _). pose proof (vo_core s H a i Hin) as Ed. rewrite Hi in Ed.
  pose proof (mf_map _ _ _ _ Hmf) as Hex. pose proof (header_length s H _ (free_map_header s)) as Hfl.
  assert (Hspan : forall p, base_of (data i) <= p < base_of (data i) + i_length (data i) -> live s (p / 512)).
  { intros p Hp. eapply span_live; [apply free_map_header|]. rewrite <- Ed in *.
    replace p with (base_of (data i) + (p - base_of (data i))) by lia. apply span_byte; lia. }
  destruct (bytes_to_sectors_eq len Hlen) as (_ & Hn0 & Hn). fold n in Hn0, Hn.
  apply (wp_inode_create s f a i); [split; try done|done| |].
  - apply H.
  - intros p Hp. apply (vo_live s H), Hspan, Hp.
  - intros p Hp E. apply Hlx. rewrite <- E. by apply Hspan.
  - intros y s' (C1 & C2 & C3 & C4 & C5 & C6 & C7 & C8) (R1 & R2 & R3 & R4 & R5) Hy Hyn. fold n in C5, C6, C8, Hyn.
    assert (Hfree : forall z, y <= z < y + n -> ~ live s z) by (intros z Hz; eapply free_not_live; done).
    assert (Hk : forall z, live s z -> z ∉ span (header_at (filesys_disk s) FREE_MAP_SECTOR) -> sector (filesys_disk s') z = sector (filesys_disk s) z).
    { intros z Hz Hnf. apply sector_eq; [apply H|done|]. intros k Hk. assert (Ez : (512 * z + k) / 512 = z).
      { destruct (sector_addr z k) as [-> _]; [lia|]. rewrite Z.div_small by lia. lia. }
      apply C8; [rewrite Ez; intros ->; done| |].
      - unfold base_of. simpl. intros Hr. apply (Hfree z); [lia|done].
      - rewrite Ed. destruct (span_outside (header_at (filesys_disk s) FREE_MAP_SECTOR) z k); [done..|lia|lia]. }
    apply (HQ1 y); try done.
    + apply quiet_advance; [done|by eapply no_oom_suffix| |].
      * split; try done; [auto with volume|intros; by apply Hk|by eapply exact_set|apply C6|]. intros z Hz.
        destruct (vo_live s H z Hz) as [? Hbz]. destruct C6 as (_ & _ & _ & C6). rewrite C6 by (rewrite (vo_cover s H); done).
        by destruct (in_group y n z).
      * intros z Hz. apply Hk; [eauto with volume|]. eapply (span_off s H); eauto with volume.
    + split; [simpl; lia|done].
    + intros Hin'. rewrite C5 in Hbx by lia. done.
  - intros s' Hmo Hb Hno. apply HQ2; [|done|by apply Hno].
    eapply map_step; [done..|by eapply exact_set|apply Hb|]. intros y Hy.
    destruct (vo_live s H y Hy) as [? Hby]. destruct Hb as (_ & _ & _ & Hb). by rewrite Hb by (rewrite (vo_cover s H); done).
Qed.

(** ** Adding a name *)

Lemma volume_heap s m n : volume_ok s -> volume_ok (set_heap m n s).
Proof.
  intros []. split; try done.
  destruct vo_map0 as (f & a & i & ? & ? & ?). exists f, a, i. split_and!; [by apply map_file_heap|done..].
Qed.

Lemma heap_advance s s' : volume_ok s -> no_oom s -> heap_only s s' -> advance s s'.
Proof.
  intros H Hm (m & n & -> & Hn & Hs). split; try done; [by apply volume_heap|by eapply no_oom_suffix; [|exact Hm]].
Qed.

Lemma stored_outside d h offset n b d' : 0 <= offset -> n = 0 \/ offset + n <= i_length h -> stored d h offset 0 n b d' -> outside h d d'.
Proof. intros Ho Hn (_ & _ & Hb) p Hp. rewrite Hb. zcases; simpl; done || lia. Qed.

Lemma first_free_lookup l k : first_free l k < k + length l -> l !! Z.to_nat (first_free l k - k) = Some None.
Proof.
  revert k. induction l as [|[e|] l IH]; intros k; cbn [first_free length]; [lia| |rewrite Z.sub_diag; done].
  intros Hl. pose proof (first_free_range l (k + 1)).
  replace (Z.to_nat (first_free l (k + 1) - k)) with (S (Z.to_nat (first_free l (k + 1) - (k + 1)))) by lia. apply IH. lia.
Qed.

(** [x] heads a complete file that nobody uses. *)
Record new_file (s : fs) (x : Z) : Prop := {
  nf_header : header_ok (filesys_disk s) (header_at (filesys_disk s) x);
  nf_nodup : x ∉ span (header_at (filesys_disk s) x);
  nf_sectors y : y ∈ file_sectors (filesys_disk s) x ->
    0 <= y < capacity (filesys_disk s) /\ bit (free_map s) y = true /\ ~ live s y;
}.

Section Add.
Context (s : fs) (H : volume_ok s) (name : list Z) (x : Z) (Hx : new_file s x) (s' : fs) (Hq : quiet_step s FREE_MAP_SECTOR s').
Context (Hroot : forall y, y ∉ span (header_at (filesys_disk s) ROOT_DIR_SECTOR) -> sector (filesys_disk s') y = sector (filesys_disk s) y).
Context (Hbits : free_map s' = free_map s).
Context (j : nat) (Hj : table (filesys_disk s) !! j = Some None).
Context (Et : table (filesys_disk s') = <[j := Some (name, x)]> (table (filesys_disk s))).

Lemma new_off_root y : y ∈ file_sectors (filesys_disk s) x -> sector (filesys_disk s') y = sector (filesys_disk s) y.
Proof using Hx Hroot.
  intros Hy. apply Hroot. intros Hr. destruct (nf_sectors s x Hx y Hy) as (_ & _ & Hl). apply Hl. eauto with volume.
Qed.

Lemma new_header : header_at (filesys_disk s') x = header_at (filesys_disk s) x.
Proof using Hx Hroot. apply header_same, new_off_root. left. Qed.

Lemma added_entry nm y : Some (nm, y) ∈ table (filesys_disk s') -> y = x \/ Some (nm, y) ∈ table (filesys_disk s).
Proof using Et.
  rewrite Et. intros (k & Hk)%list_elem_of_lookup. apply list_lookup_insert_Some in Hk as [(_ & E & _)|(_ & Hk)].
  - injection E as _ <-. by left.
  - right. by eapply list_elem_of_lookup_2.
Qed.

Lemma added_header y : is_header s' y -> y = x \/ is_header s y.
Proof using Et Hq.
  intros [[->|[->|(nm & Hb)]]|(a & i & Hi & <-)]; [auto with volume|auto with volume| |].
  - destruct (added_entry nm y Hb); [by left|right]. eauto with volume.
  - right. destruct (qs_opens s _ s' Hq) as (E1 & _). rewrite E1 in Hi. eauto with volume.
Qed.

Lemma added_sectors y : y = x \/ is_header s y -> file_sectors (filesys_disk s') y = file_sectors (filesys_disk s) y /\
  header_at (filesys_disk s') y = header_at (filesys_disk s) y.
Proof using H Hx Hq Hroot.
  intros Hy. assert (E : sector (filesys_disk s') y = sector (filesys_disk s) y).
  { destruct Hy as [->|Hy]; [apply new_off_root; left|by apply (header_kept s H s' _ Hq)]. }
  split; [by apply file_sectors_same|by apply header_same].
Qed.

Lemma added_live y : live s' y -> live s y \/ y ∈ file_sectors (filesys_disk s) x.
Proof using H Hx Hq Hroot Et.
  intros (h & Hh%added_header & Hy). rewrite (proj1 (added_sectors h Hh)) in Hy.
  destruct Hh as [->|Hh]; [by right|]. left. by exists h.
Qed.

Lemma added_apart y1 y2 z : y1 = x \/ is_header s y1 -> y2 = x \/ is_header s y2 ->
  z ∈ file_sectors (filesys_disk s) y1 -> z ∈ file_sectors (filesys_disk s) y2 -> y1 = y2.
Proof using H Hx.
  intros [->|H1] [->|H2] Hz1 Hz2; [done|..].
  - destruct (nf_sectors s x Hx z Hz1) as (_ & _ & []). by exists y2.
  - destruct (nf_sectors s x Hx z Hz2) as (_ & _ & []). by exists y1.
  - by apply (vo_apart s H y1 y2 z).
Qed.

Lemma added_entries : sector_in (table (filesys_disk s)) name = None -> entries_ok (table (filesys_disk s')).
Proof using H Hx Et.
  intros Hno. assert (Hname : forall k y, table (filesys_disk s) !! k <> Some (Some (name, y))).
  { intros k y Hk%list_elem_of_lookup_2. revert Hno Hk. generalize (table (filesys_disk s)) as l. clear. intros l.
    induction l as [|[[n z]|] l IH]; cbn [sector_in]; [by intros _ ?%not_elem_of_nil| |].
    - case_decide; [done|]. intros Hno [Hk|Hk]%elem_of_cons; [congruence|by apply IH].
    - intros Hno [Hk|Hk]%elem_of_cons; [done|by apply IH]. }
  assert (Hsec : forall k nm, table (filesys_disk s) !! k <> Some (Some (nm, x))).
  { intros k nm Hk%list_elem_of_lookup_2. destruct (nf_sectors s x Hx x ltac:(left)) as (_ & _ & []). eauto with volume. }
  destruct (vo_entries s H) as [E1 E2 E3]. split; rewrite Et.
  - intros k l nm y z [(<- & [= <- <-] & _)|(? & Hk)]%list_lookup_insert_Some [(<- & [= <-] & _)|(? & Hl)]%list_lookup_insert_Some;
      [done|by destruct (Hname l z)|subst; by destruct (Hname k y)|by eapply E1].
  - intros k l nm nm' y [(<- & [= <- <-] & _)|(? & Hk)]%list_lookup_insert_Some [(<- & [= <-] & _)|(? & Hl)]%list_lookup_insert_Some;
      [done|by destruct (Hsec l nm')|subst; by destruct (Hsec k nm)|by eapply E2].
  - intros nm y Hy. rewrite <- Et in Hy. destruct (added_entry nm y Hy) as [->|?]; [|by eapply E3].
    destruct (nf_sectors s x Hx x ltac:(left)) as (_ & _ & Hl). split; intros ->; apply Hl; auto with volume.
Qed.

Lemma added_ok : sector_in (table (filesys_disk s)) name = None ->
  slots_ok (filesys_disk s') (header_at (filesys_disk s') ROOT_DIR_SECTOR) -> volume_ok s'.
Proof using All.
  intros Hno Hok. pose proof (qs_opens s _ s' Hq) as Hso. split.
  - apply Hq.
  - intros y1 y2 z H1%added_header H2%added_header. rewrite (proj1 (added_sectors y1 H1)), (proj1 (added_sectors y2 H2)).
    by apply added_apart.
  - intros y Hy%added_header. rewrite (proj2 (added_sectors y Hy)). destruct Hy as [->|Hy]; [apply Hx|by apply (vo_nodup s H)].
  - intros y Hy. rewrite (qs_cap s _ s' Hq), Hbits. destruct (added_live y Hy) as [Hl|Hn]; [by apply (vo_live s H)|].
    destruct (nf_sectors s x Hx y Hn) as (? & ? & _). done.
  - intros y Hy%added_header. rewrite (proj2 (added_sectors y Hy)).
    assert (Hh : header_ok (filesys_disk s) (header_at (filesys_disk s) y)) by (destruct Hy as [->|Hy]; [apply Hx|by apply (vo_header s H)]).
    destruct Hh. split; [done|by eapply wf_same].
  - by apply added_entries.
  - done.
  - rewrite (qs_cap s _ s' Hq), Hbits. apply H.
  - by apply (map_kept s H s' Hq).
  - intros a i. by apply (core_kept s H s' a i Hq).
  - intros a i Hi Hr Hb. destruct Hso as (E1 & _). rewrite E1 in Hi. destruct Hb as [Hb|[Hb|(nm & Hb)]].
    1, 2: apply (vo_removed s H a i Hi Hr); rewrite Hb; unfold bound; tauto.
    destruct (added_entry nm _ Hb) as [E|?]; [|by apply (vo_removed s H a i Hi Hr), (entry_bound _ nm)].
    destruct (nf_sectors s x Hx x ltac:(left)) as (_ & _ & Hl). apply Hl. rewrite <- E. eauto with volume.
  - destruct Hso as (E1 & _). rewrite E1. apply H.
Qed.

Lemma added_volume nm : (forall m, sector_in (table (filesys_disk s')) m = if decide (m = name) then Some x else sector_in (table (filesys_disk s)) m) ->
  volume (filesys_disk s') nm = if decide (nm = name) then Some (contents (filesys_disk s) (header_at (filesys_disk s) x)) else volume (filesys_disk s) nm.
Proof using All.
  intros Hd. unfold volume. rewrite Hd. case_decide.
  - simpl. f_equal. rewrite new_header. apply contents_same; [apply (nf_header s x Hx)|]. intros y Hy. apply new_off_root. by right.
  - destruct (sector_in (table (filesys_disk s)) nm) as [y|] eqn:E; [|done]. simpl. f_equal.
    apply sector_in_elem in E. destruct (en_file _ (vo_entries s H) nm y E). destruct (data_kept s H s' y Hq) as [-> ->]; eauto with volume.
Qed.
End Add.

(** A write to the data of the root directory. *)
Lemma root_stored s s' d' offset n b : let h := header_at (filesys_disk s) ROOT_DIR_SECTOR in
  volume_ok s -> no_oom s -> 0 <= offset -> n = 0 \/ offset + n <= i_length h ->
  stored (filesys_disk s) h offset 0 n b d' -> heap_only (set_disk d' s) s' ->
  quiet_step s FREE_MAP_SECTOR s' /\ no_oom s' /\ filesys_disk s' = d' /\ free_map s' = free_map s /\ header_at d' ROOT_DIR_SECTOR = h /\
  forall y, y ∉ span h -> sector (filesys_disk s') y = sector (filesys_disk s) y.
Proof.
  intros h H Hm Ho Hn Hst (m & k & -> & Hk & Hs). assert (Hout := stored_outside _ _ _ _ _ _ Ho Hn Hst). destruct Hst as (Hd' & Hc' & _).
  destruct (vo_map s H) as (mf & ma & mi & Hmf & _).
  assert (Hr : forall y, y ∉ span h -> sector d' y = sector (filesys_disk s) y).
  { intros y. apply outside_sector; [apply (header_length s H); auto with volume|apply H|done..]. }
  split_and!; try done; [|by eapply no_oom_suffix; [|exact Hm]|apply header_same, Hr, (header_off s H); auto with volume].
  split; try done; [auto with volume|intros; by apply Hr|apply Hmf|intros; by apply (vo_live s H)].
Qed.

(** [dir_add] through an open inode of the root directory. *)
Lemma wp_volume_add s dr i stack e name x Q : volume_ok s -> no_oom s -> inodes s !! d_inode dr = Some i ->
  i_sector i = ROOT_DIR_SECTOR -> good_name name -> length stack = 20%nat -> length e = 20%nat -> new_file s x ->
  let fits := (0 < length name <= 14)%nat /\ sector_in (table (filesys_disk s)) name = None /\ None ∈ table (filesys_disk s) in
  (forall s', advance s s' -> free_map s' = free_map s -> ~ fits -> Q false s') ->
  (forall s', volume_ok s' -> no_oom s' -> same_opens s s' -> kept s s' -> fits ->
     (forall nm, volume (filesys_disk s') nm =
        if decide (nm = name) then Some (contents (filesys_disk s) (header_at (filesys_disk s) x)) else volume (filesys_disk s) nm) ->
     Q true s') ->
  wp (dir_add stack e dr name x) s Q.
Proof.
  intros H Hm Hi Hir Hn Hst He Hx fits HQ1 HQ2. pose proof (vo_core s H _ _ Hi) as Ed. rewrite Hir in Ed.
  pose proof (root_header s) as Hb. destruct (vo_header s H _ Hb) as [_ Hw]. pose proof (header_length s H _ Hb) as Hlen.
  pose proof (vo_root s H _ _ Hi Hir) as Hdw. destruct (vo_map s H) as (mf & ma & mi & Hmf & _).
  destruct (nf_sectors s x Hx x ltac:(left)) as (Hxr & _ & _). pose proof (dk_cap _ (vo_disk s H)).
  set (h := header_at (filesys_disk s) ROOT_DIR_SECTOR) in *. pose proof (slot_cnt_range h ltac:(lia)) as Hsc.
  assert (Hop : opened s (d_inode dr) i) by (split_and!; [done|apply H|by rewrite Ed]).
  pose proof (vo_slots s H) as Hsl. assert (Hxu : is_u32 x) by (urange; lia).
  apply (wp_dir_add s dr i); rewrite ?Ed; try done;
    change (entries (filesys_disk s) h) with (table (filesys_disk s)); set (l := table (filesys_disk s)) in *.
  { intros s' Hh Hno. apply HQ1; [by apply heap_advance|by destruct Hh as (? & ? & -> & _)|]. intros (? & ? & _). by apply Hno. }
  intros b d' s' Hl Hno Lb Eb Cb Hst' Hh. pose proof (first_free_range l 0) as Hj. set (j := first_free l 0) in *.
  assert (Ll : Z.of_nat (length l) = slot_cnt h) by (change l with (entries (filesys_disk s) h); rewrite entries_length by lia; lia).
  destruct (root_stored s s' d' (20 * j) (avail h 20 (20 * j)) b) as (Hq & Hm' & Es & Em & Eh & Hr'); try done; [lia|fold h; unfold avail; lia|].
  fold h in Eh, Hr'.
  destruct (add_entry (filesys_disk s) h d' (avail h 20 (20 * j)) b name x) as (Hiff & Hok' & Hdict);
    change (entries (filesys_disk s) h) with l; try done; [lia|lia|].
  change (entries (filesys_disk s) h) with l in Hiff, Hdict.
  destruct (Z.eqb_spec (avail h 20 (20 * j)) 20) as [E20|E20].
  - assert (Hjl : j < slot_cnt h) by (unfold avail in E20; lia).
    assert (Et : table (filesys_disk s') = <[Z.to_nat j := Some (name, x)]> l).
    { unfold table. rewrite Es, Eh, <- Eb. apply (entries_written _ h); [lia|lia|done|]. by rewrite E20 in Hst'. }
    assert (Hjn : l !! Z.to_nat j = Some None).
    { pose proof (first_free_lookup l 0) as Hf. fold j in Hf. rewrite Z.sub_0_r in Hf. apply Hf. lia. }
    assert (Hdict' : forall m, sector_in (table (filesys_disk s')) m = if decide (m = name) then Some x else sector_in l m).
    { intros m. unfold table. rewrite Es, Eh, Hdict. cbn [andb]. repeat case_decide; repeat case_bool_decide; done. }
    apply HQ2; [|done|apply Hq|by apply (quiet_kept s H)|exact (conj Hl (conj Hno (proj1 Hiff E20)))|].
    + apply (added_ok s H name x Hx s' Hq Hr' Em _ Hjn Et Hno). by rewrite Es, Eh.
    + intros nm. exact (added_volume s H name x Hx s' Hq Hr' Em _ Hjn Et nm Hdict').
  - apply HQ1; [|done|intros (_ & _ & Hin); by apply Hiff in Hin].
    assert (Et : table (filesys_disk s') = l).
    { unfold table. rewrite Es, Eh. apply (entries_kept _ h d' (avail h 20 (20 * j)) b); [lia| |unfold avail; lia].
      replace (slot_cnt h) with j by (unfold avail in E20; lia). done. }
    destruct (quiet_ok s H s' Hq Et) as (? & ? & ?); [by rewrite Es, Eh|]. split; [..|by apply (quiet_kept s H)]; try done. apply Hq.
Qed.
