(* ===== verification/VolumeProps.v ===== *)
(** * Files by name: [filesys_create] and [filesys_open]

    With memory available, both keep the file system consistent and act on
    the dictionary of names and contents as they should, for every
    consistent state: whatever is open, and whatever the disk holds. *)

From S2P Require Import Prelude Vaddr Bitmap Bytes Disk Inode InodeProps File FileProps FreeMapProps InodeCreate Directory DirectoryProps FilesysOpens Volume.

(** ** Changing the open inodes *)

Definition same_file (i j : struct_inode) : Prop :=
  i_sector i = i_sector j /\ data i = data j /\ deny_write_cnt i = deny_write_cnt j /\ removed i = removed j.

(** Inodes may come, if they are files of the directory, and go. *)
Record core_le (s s' : fs) : Prop := {
  cs_disk : filesys_disk s' = filesys_disk s;
  cs_map : free_map s' = free_map s;
  cs_map_file : free_map_file s' = free_map_file s;
  cs_files f x : files s !! f = Some x -> files s' !! f = Some x;
  cs_new a i : inodes s' !! a = Some i -> (exists j, inodes s !! a = Some j /\ same_file i j) \/
    (bound (filesys_disk s) (i_sector i) /\ data i = header_at (filesys_disk s) (i_sector i) /\ deny_write_cnt i = 0 /\ removed i = false);
  cs_kept a j : inodes s !! a = Some j -> i_sector j = FREE_MAP_SECTOR -> exists i, inodes s' !! a = Some i /\ same_file i j;
}.

Lemma core_le_header s s' x : core_le s s' -> is_header s' x -> is_header s x.
Proof.
  intros H [Hb|(a & i & Hi & <-)]; [rewrite (cs_disk s s' H) in Hb; by left|].
  destruct (cs_new s s' H a i Hi) as [(j & Hj & -> & _)|(Hb & _)]; eauto with volume.
Qed.

Lemma core_le_ok s s' : volume_ok s -> core_le s s' -> volume_ok s'.
Proof.
  intros H Hc. pose proof (cs_disk s s' Hc) as Ed. pose proof (cs_map s s' Hc) as Em.
  pose proof (fun x => core_le_header s s' x Hc) as Hh. split; rewrite ?Ed, ?Em; try apply H; try done.
  - intros x y z Hx%Hh Hy%Hh. by apply (vo_apart s H).
  - intros x Hx%Hh. by apply (vo_nodup s H).
  - intros y (x & Hx%Hh & Hy). rewrite Ed in Hy. apply (vo_live s H). by exists x.
  - intros x Hx%Hh. by apply (vo_header s H).
  - destruct (vo_map s H) as (f & a & i & [M1 (x & M2 & M2') (O1 & O2 & O3) M4 M5] & Hf & Hi).
    destruct (cs_kept s s' Hc a i O1 Hi) as (j & Hj & E1 & E2 & E3 & E4). exists f, a, j.
    split_and!; [|by rewrite (cs_map_file s s' Hc)|congruence]. split; rewrite ?Em, ?E2, ?E3; try done.
    + exists x. split; [by apply Hc|done].
    + split_and!; rewrite ?Ed, ?E2; done.
  - intros a i Hi. destruct (cs_new s s' Hc a i Hi) as [(j & Hj & E1 & E2 & _)|(Hb & E & _)]; [|done].
    rewrite E1, E2. by apply (vo_core s H a).
  - intros a i Hi Hr. destruct (cs_new s s' Hc a i Hi) as [(j & Hj & E1 & _ & _ & E4)|(_ & _ & _ & ?)]; [|congruence].
    rewrite E1. apply (vo_removed s H a j Hj). congruence.
  - intros a i Hi Hr. destruct (cs_new s s' Hc a i Hi) as [(j & Hj & E1 & _ & E3 & _)|(_ & _ & ? & _)]; [|done].
    rewrite E3. apply (vo_root s H a j Hj). congruence.
Qed.

Lemma bump_same n i : same_file (bump n i) i.
Proof. done. Qed.

(** What [inode_open] of sector [x] leaves: a new opener of an open inode,
    or a new inode with the header of the disk. *)
Definition reopened (s : fs) (x a : Z) (s' : fs) : Prop :=
  (exists j, inodes s !! a = Some j /\ i_sector j = x /\ s' = set_inodes (<[a := bump 1 j]> (inodes s)) s) \/
  (a = next_addr s /\ inodes s !! a = None /\ (forall b j, inodes s !! b = Some j -> i_sector j <> x) /\
   s' = open_new x (sector (filesys_disk s) x) s).

Lemma wp_inode_open s x Q : opens_ok s -> disk_ok (filesys_disk s) -> no_oom s -> x < capacity (filesys_disk s) ->
  (forall a s', reopened s x a s' -> Q (Some a) s') -> wp (inode_open x) s Q.
Proof.
  intros H Hd Hm Hx HQ. destruct (find_open_eq s x (open_inodes s)) as [(a & i & _ & Ha & Hi & Hs)|[_ Hno]].
  { intros a. apply H. }
  - subst x. unfold wp. rewrite (inode_open_shared s a i H Hi). apply HQ. left. by exists i.
  - assert (Hno' : forall a i, inodes s !! a = Some i -> i_sector i <> x).
    { intros a i Hi. apply (Hno a i); [apply (oo_dom s H); by eexists|done]. }
    unfold wp. rewrite (inode_open_fresh s x H Hno').
    match goal with |- context [(?m s)] => change (wp m s Q) end.
    apply wp_bind, wp_malloc; intros Hmem; [|destruct Hmem; unfold mem_ok; by rewrite Hm].
    apply wp_bind, wp_modify, wp_bind, wp_read_disk; [done..|]. simpl. apply wp_bind, wp_modify, wp_ret, HQ. right.
    split_and!; [done| |done|done]. destruct (inodes s !! next_addr s) eqn:E; [|done].
    assert (next_addr s < next_addr s) by (apply (oo_fresh s H); left; rewrite E; eauto). lia.
Qed.

Lemma core_le_refl s : core_le s s.
Proof. split; try done; intros a i Hi; [left|intros _]; by exists i. Qed.

Lemma core_le_trans s1 s2 s3 : core_le s1 s2 -> core_le s2 s3 -> core_le s1 s3.
Proof.
  intros H1 H2. pose proof (cs_disk _ _ H1) as Ed. split.
  - by rewrite (cs_disk _ _ H2).
  - by rewrite (cs_map _ _ H2), (cs_map _ _ H1).
  - by rewrite (cs_map_file _ _ H2), (cs_map_file _ _ H1).
  - intros f x Hx. apply H2. by apply H1.
  - intros a i Hi. destruct (cs_new _ _ H2 a i Hi) as [(j & Hj & E1 & E2 & E3 & E4)|Hb]; [|rewrite Ed in Hb; by right].
    rewrite E1, E2, E3, E4. destruct (cs_new _ _ H1 a j Hj) as [(k & Hk & F1 & F2 & F3 & F4)|Hb]; [left|by right].
    exists k. split; [done|]. split_and!; congruence.
  - intros a i Hi Hs. destruct (cs_kept _ _ H1 a i Hi Hs) as (j & Hj & E1 & E2 & E3 & E4).
    destruct (cs_kept _ _ H2 a j Hj) as (k & Hk & F1 & F2 & F3 & F4); [congruence|]. exists k. split; [done|]. split_and!; congruence.
Qed.

Lemma core_le_heap s m n : core_le s (set_heap m n s).
Proof. split; try done; intros a i Hi; [left|intros _]; by exists i. Qed.

Lemma reopened_opens s x a s' : opens_ok s -> few 1 s -> reopened s x a s' -> opens_ok s'.
Proof.
  intros H Hf [(j & Hj & Ej & ->)|(-> & Hn & Hno & ->)]; [eapply bump_ok; [done..|by apply (Hf a j)]|by apply open_new_ok].
Qed.

Lemma reopened_le s x a s' : bound (filesys_disk s) x -> reopened s x a s' -> core_le s s'.
Proof.
  intros Hx [(j & Hj & Ej & ->)|(-> & Hn & Hno & ->)].
  - split; try done.
    + intros b i. simpl. rewrite lookup_insert. case_decide; [intros [= <-]; subst b; left; by exists j|]. intros Hi. left. by exists i.
    + intros b i Hi Hs. simpl. rewrite lookup_insert. case_decide; [subst b; simplify_eq; by eexists|by exists i].
  - split; try done.
    + intros b i. simpl. rewrite lookup_insert. case_decide; [intros [= <-]; by right|]. intros Hi. left. by exists i.
    + intros b i Hi Hs. simpl. rewrite lookup_insert. case_decide; [subst b; congruence|by exists i].
Qed.

Lemma reopened_inode s x a s' : reopened s x a s' -> exists i, inodes s' !! a = Some i /\ i_sector i = x.
Proof.
  intros [(j & Hj & Ej & ->)|(-> & Hn & Hno & ->)]; simpl; rewrite lookup_insert_eq; eexists; split; done.
Qed.

(** ** The root directory *)

(** The state after [dir_open_root]. *)
Definition root_opened (s : fs) (a : Z) (s' : fs) : Prop :=
  exists s0 n, reopened s ROOT_DIR_SECTOR a s0 /\ next_addr s0 <= n /\ s' = set_heap [] n s0.

Lemma reopened_rest s x a s' : reopened s x a s' -> filesys_disk s' = filesys_disk s /\ free_map s' = free_map s /\ files s' = files s /\
  next_addr s <= next_addr s' /\ (no_oom s -> no_oom s').
Proof.
  intros [(j & Hj & Ej & ->)|(-> & Hn & Hno & ->)]; split_and!; try done; simpl; try lia.
  unfold no_oom. simpl. by intros ->.
Qed.

Lemma wp_dir_open_root s Q : volume_ok s -> opens_ok s -> no_oom s ->
  (forall a s', root_opened s a s' -> Q (Some (mk_dir a 0)) s') -> wp dir_open_root s Q.
Proof.
  intros H Hop Hm HQ. destruct (vo_live s H ROOT_DIR_SECTOR) as [Hr _]; [auto with volume|].
  apply wp_bind, wp_inode_open; [done|apply H|done|lia|]. intros a s0 Ho.
  destruct (reopened_rest _ _ _ _ Ho) as (_ & _ & _ & _ & Hm0). specialize (Hm0 Hm).
  apply wp_bind, wp_malloc; intros Hmem; [|destruct Hmem; unfold mem_ok; by rewrite Hm0].
  apply wp_ret, HQ. exists s0, (next_addr s0 + 1). split_and!; [done|lia|]. by rewrite Hm0.
Qed.

Lemma root_opened_ok s a s' : volume_ok s -> opens_ok s -> few 1 s -> root_opened s a s' ->
  volume_ok s' /\ opens_ok s' /\ no_oom s' /\ core_le s s' /\ filesys_disk s' = filesys_disk s /\ free_map s' = free_map s /\ files s' = files s /\
  exists i, inodes s' !! a = Some i /\ i_sector i = ROOT_DIR_SECTOR.
Proof.
  intros H Hop Hf (s0 & n & Ho & Hn & ->). destruct (reopened_rest _ _ _ _ Ho) as (Ed & Em & Ef & _).
  assert (Hle : core_le s s0) by (eapply reopened_le, Ho; unfold bound; tauto).
  split_and!; try done; [| |by eapply core_le_trans, core_le_heap|by apply (reopened_inode s _ a s0 Ho)].
  - apply volume_heap. by apply (core_le_ok s).
  - eapply (same_opens_ok s0); [done|]. by eapply reopened_opens.
Qed.

(** [inode_close], unless it releases the sectors of a removed file. *)
Definition closed (s : fs) (a : Z) (i : struct_inode) : fs :=
  if open_cnt i =? 1 then set_inodes (delete a (inodes s)) (set_open (unlink a (open_inodes s)) s)
  else set_inodes (<[a := bump (-1) i]> (inodes s)) s.

Lemma wp_inode_close s a i Q : inodes s !! a = Some i -> 0 < open_cnt i < 2 ^ 31 -> (open_cnt i = 1 -> removed i = false) ->
  Q tt (closed s a i) -> wp (inode_close (Some a)) s Q.
Proof.
  intros Hi Hc Hr HQ. eapply wp_bind, wp_get_inode; [done|]. apply wp_bind, wp_modify.
  rewrite s32_small by (urange; lia). unfold closed in HQ. destruct (Z.eqb_spec (open_cnt i) 1) as [E|E].
  - rewrite E. cbn [Z.eqb Z.sub Z.opp Z.add Z.pos_sub]. apply wp_bind, wp_modify. rewrite Hr by done. apply wp_bind, wp_ret, wp_modify.
    simpl in *. by rewrite delete_insert_eq.
  - destruct (Z.eqb_spec (open_cnt i - 1) 0); [lia|]. apply wp_ret. unfold bump in HQ.
    by rewrite s32_small in HQ by (urange; lia).
Qed.

Lemma closed_le s a i : inodes s !! a = Some i -> i_sector i <> FREE_MAP_SECTOR -> core_le s (closed s a i).
Proof.
  intros Hi Hs. unfold closed. destruct (_ =? 1); split; try done; simpl; intros b j.
  - rewrite lookup_delete. case_decide; [done|]. intros Hj. left. by exists j.
  - intros Hj Hz. rewrite lookup_delete. case_decide; [congruence|by exists j].
  - rewrite lookup_insert. case_decide; [intros [= <-]; subst b; left; by exists i|]. intros Hj. left. by exists j.
  - intros Hj Hz. rewrite lookup_insert. case_decide; [congruence|by exists j].
Qed.

(** Opening and closing the root directory is no change. *)
Lemma root_closed s a s1 s2 i : opens_ok s -> few 1 s -> root_opened s a s1 -> same_opens s1 s2 -> inodes s1 !! a = Some i ->
  closed s2 a i = set_inodes (inodes s) (set_open (open_inodes s) s2).
Proof.
  intros H Hf (s0 & n & Ho & Hn & ->) (E1 & E2 & _) Hi. unfold closed. rewrite E1, E2. simpl in *.
  destruct Ho as [(j & Hj & Ej & ->)|(-> & Hno & _ & ->)]; simpl in *; rewrite lookup_insert_eq in Hi; injection Hi as <-; simpl.
  - pose proof (oo_cnt s H a j Hj). pose proof (Hf a j Hj). rewrite s32_small by (urange; lia).
    destruct (Z.eqb_spec (open_cnt j + 1) 1); [lia|]. rewrite insert_insert_eq.
    assert (bump (-1) (bump 1 j) = j) as ->.
    { unfold bump. simpl. rewrite (s32_small (open_cnt j + 1)) by (urange; lia). rewrite s32_small by (urange; lia).
      destruct j; simpl. f_equal. lia. }
    rewrite insert_id by done. destruct s2. simpl in *. by subst.
  - rewrite delete_insert_id by done. rewrite Z.eqb_refl. done.
Qed.

Lemma root_close_ok s a s1 s2 : volume_ok s -> opens_ok s -> few 1 s -> root_opened s a s1 -> same_opens s1 s2 -> volume_ok s2 ->
  volume_ok (set_inodes (inodes s) (set_open (open_inodes s) s2)).
Proof.
  intros H Hop Hf Ho Hs H2. destruct (root_opened_ok s a s1 H Hop Hf Ho) as (_ & _ & _ & _ & _ & _ & Ef & i & Hi & Hir).
  rewrite <- (root_closed s a s1 s2 i) by done. pose proof Hs as (E1 & _).
  apply (core_le_ok s2); [done|apply closed_le; [by rewrite E1|by rewrite Hir]].
Qed.

Lemma root_close_opens s a s1 s2 : opens_ok s -> root_opened s a s1 -> same_opens s1 s2 ->
  same_opens s (set_inodes (inodes s) (set_open (open_inodes s) s2)).
Proof.
  intros Hop (s0 & n & Ho & Hn & ->) (_ & _ & E3 & E4). destruct (reopened_rest _ _ _ _ Ho) as (_ & _ & Ef & ? & _).
  simpl in *. split_and!; [done|done|simpl; congruence|simpl; lia].
Qed.

Lemma root_bound s i : i_sector i = ROOT_DIR_SECTOR -> bound (filesys_disk s) (i_sector i).
Proof. unfold bound. tauto. Qed.

Lemma bound_not_removed s : volume_ok s -> forall a i, inodes s !! a = Some i -> bound (filesys_disk s) (i_sector i) -> removed i = false.
Proof. intros H a i Hi Hb. destruct (removed i) eqn:E; [|done]. by destruct (vo_removed s H a i Hi E). Qed.

Lemma wp_close_root s a s1 s2 Q : volume_ok s -> opens_ok s -> few 1 s -> root_opened s a s1 -> same_opens s1 s2 -> volume_ok s2 ->
  Q tt (set_inodes (inodes s) (set_open (open_inodes s) s2)) -> wp (dir_close (Some (mk_dir a 0))) s2 Q.
Proof.
  intros H Hop Hf Ho Hs H2 HQ. destruct (root_opened_ok s a s1 H Hop Hf Ho) as (_ & Hop1 & _ & _ & _ & _ & Ef & i & Hi & Hir).
  assert (Hi2 : inodes s2 !! a = Some i) by (destruct Hs as (-> & _); done).
  apply (wp_inode_close s2 a i); [done|apply (oo_cnt s2 (same_opens_ok _ _ Hs Hop1) a i Hi2)|intros _; by apply (bound_not_removed s2 H2 a i Hi2 (root_bound s2 i Hir))|].
  by rewrite (root_closed s a s1 s2 i).
Qed.

(** ** Creating *)

Lemma volume_none d nm : volume d nm = None <-> sector_in (table d) nm = None.
Proof. unfold volume. by destruct (sector_in _ nm). Qed.

(** When a name can be added to the directory. *)
Definition addable (d : disk) (name : list Z) : Prop :=
  (0 < length name <= 14)%nat /\ volume d name = None /\ None ∈ table d.

Lemma addable_eq d d' name : table d' = table d -> addable d' name <-> addable d name.
Proof. intros E. unfold addable. by rewrite !volume_none, E. Qed.

(** A free run of [n] sectors. *)
Definition has_run (b : bitmap) (n : Z) : Prop := exists k, 0 <= k /\ k + n <= bit_cnt b /\ group b k n false.

(** Taking the first free sector leaves all but one sector of a run. *)
Lemma run_left b b' x n : 0 <= n -> has_run b (n + 1) -> 0 <= x -> (forall k, 0 <= k < x -> ~ group b k 1 false) ->
  bits_set b b' (in_group x 1) (fun _ => true) -> has_run b' n.
Proof.
  intros Hn (k & Hk & Hkn & Hg) Hx Hmin (_ & Hc & _ & Hb).
  assert (Hxk : x <= k).
  { destruct (decide (x <= k)); [done|]. destruct (Hmin k); [lia|]. intros j Hj. apply Hg. lia. }
  exists (if decide (x = k) then k + 1 else k). rewrite Hc.
  case_decide; (split_and!; [lia|lia|]); intros j Hj; rewrite Hb by lia; unfold in_group; zcases; simpl; try lia; apply Hg; lia.
Qed.

(** What the body of [filesys_create] promises between opening and closing
    the directory. *)
Record create_post (s : fs) (name : list Z) (size : Z) (r : bool) (s' : fs) : Prop := {
  cr_ok : volume_ok s';
  cr_oom : no_oom s';
  cr_opens : same_opens s s';
  cr_kept : kept s s';
  cr_volume nm : volume (filesys_disk s') nm =
    if r && bool_decide (nm = name) then Some (replicate (Z.to_nat size) 0) else volume (filesys_disk s) nm;
  cr_only : r = true -> addable (filesys_disk s) name;
  cr_succeeds : addable (filesys_disk s) name -> has_run (free_map s) (bytes_to_sectors size + 1) -> r = true;
}.

Lemma create_fails s s' name size : advance s s' ->
  (addable (filesys_disk s) name -> has_run (free_map s) (bytes_to_sectors size + 1) -> False) -> create_post s name size false s'.
Proof. intros [] Hno. split; try done. intros. by destruct Hno. Qed.

(** The new file is complete once [inode_create] has returned. *)
Lemma created_new s s' x y len : let n := bytes_to_sectors len in
  volume_ok s -> advance s s' -> 0 <= len < 2 ^ 31 - 512 -> 0 <= x < capacity (filesys_disk s) -> bit (free_map s) x = true -> ~ live s x ->
  header_at (filesys_disk s') x = header y len -> header_ok (filesys_disk s') (header y len) ->
  0 <= y -> y + n <= bit_cnt (free_map s) -> ~ y <= x < y + n -> (forall z, y <= z < y + n -> ~ live s z) ->
  bits_set (free_map s) (free_map s') (in_group y n) (fun _ => true) -> new_file s' x.
Proof.
  intros n H Ha Hlen Hx Hbx Hlx Eh Hh Hy Hyn Hxy Hfree Hb. pose proof (vo_cover s H) as Hcov. pose proof (vo_cover s' (ad_ok s s' Ha)) as Hcov'.
  destruct Hb as (_ & Hc & _ & Hb). rewrite Hc in Hcov'.
  assert (Es : file_sectors (filesys_disk s') x = x :: seqZ y n) by (unfold file_sectors, span; rewrite Eh; done).
  split; rewrite ?Eh, ?Es; [done| |].
  - unfold span. simpl. fold n. rewrite elem_of_seqZ. lia.
  - intros z [->|Hz]%elem_of_cons; [|apply elem_of_seqZ in Hz].
    + split_and!; [lia|lia| |intros Hl; by apply Hlx, (ad_live s s' Ha)]. rewrite Hb by lia. by destruct (in_group y n x).
    + split_and!; [lia|lia| |intros Hl; by apply (Hfree z Hz), (ad_live s s' Ha)]. rewrite Hb by lia. unfold in_group. zcases; simpl; lia || done.
Qed.

Lemma kept_trans s1 s2 s3 : advance s1 s2 -> kept s2 s3 -> kept s1 s3.
Proof.
  intros Ha K2 x Hx H0 H1. destruct (ad_kept s1 s2 Ha x Hx H0 H1) as [E1 E2].
  destruct (K2 x (advance_header s1 s2 x Ha Hx) H0 H1) as [E3 E4]. rewrite E1 in *. split; congruence.
Qed.

(** The release at the end of [filesys_create], after a failure. *)
Lemma wp_undo s s' name size x (k : bool -> ST fs bool) Q : advance s s' -> 0 < x < capacity (filesys_disk s') -> ~ live s' x ->
  bit (free_map s') x = true ->
  (addable (filesys_disk s) name -> has_run (free_map s) (bytes_to_sectors size + 1) -> False) ->
  (forall r t, create_post s name size r t -> wp (k r) t Q) ->
  wp (when (negb false && negb (x =? 0)) (free_map_release x 1);; k false) s' Q.
Proof.
  intros Ha Hx Hl Hb Hno Hk. destruct (Z.eqb_spec x 0); [lia|]. cbn [negb andb]. apply wp_bind, wp_when; [intros _|done].
  apply wp_volume_release; [apply Ha|apply Ha|lia|lia|rewrite (vo_cover s' (ad_ok s s' Ha)); lia| | |].
  - intros y Hy. by replace y with x by lia.
  - intros y Hy. by replace y with x by lia.
  - intros t Ht _. apply Hk, create_fails; [by eapply advance_trans|done].
Qed.

Lemma wp_create_body s dr i stack e name size (k : bool -> ST fs bool) Q : volume_ok s -> no_oom s ->
  inodes s !! d_inode dr = Some i -> i_sector i = ROOT_DIR_SECTOR -> good_name name -> 0 <= size < 2 ^ 31 - 512 ->
  length stack = 20%nat -> length e = 20%nat ->
  (forall r t, create_post s name size r t -> wp (k r) t Q) ->
  wp (r ← (sector ← free_map_allocate 1;
           match sector with
           | None => mret (false, 0)
           | Some x =>
             created ← inode_create x size;
             if (created : bool) then added ← dir_add stack e dr name x; mret (added, x) else mret (false, x)
           end);
      let '(success, inode_sector) := (r : bool * Z) in
      when (negb success && negb (inode_sector =? 0)) (free_map_release inode_sector 1);; k success) s Q.
Proof.
  intros H Hm Hi Hir Hn Hsz Hst He Hk. destruct (bytes_to_sectors_eq size Hsz) as (_ & Hn0 & _). set (n := bytes_to_sectors size) in *.
  apply wp_bind, wp_bind, wp_volume_alloc; [done|done|done| |].
  2: { intros s1 Ha Hno. apply wp_ret. cbn [negb andb Z.eqb]. apply wp_bind, wp_ret, Hk, create_fails; [done|].
       intros _ (j & Hj & Hjn & Hg). apply (Hno j); [done|fold n in Hjn; lia|]. intros y Hy. apply Hg. fold n. lia. }
  intros x s1 Ha Hx0 Hxc Hg Hmin Hb. pose proof (ad_ok s s1 Ha) as H1. pose proof (vo_cover s H) as Hcov. pose proof (vo_cover s1 H1) as Hcov1.
  assert (Hlx : ~ live s1 x) by (intros Hl%(ad_live s s1 Ha); revert Hl; eapply free_not_live; [done..|lia]).
  assert (Hbx : bit (free_map s1) x = true).
  { destruct Hb as (_ & _ & _ & Hb). rewrite Hb by lia. unfold in_group. zcases; simpl; lia || done. }
  assert (Hc1 : bit_cnt (free_map s1) = bit_cnt (free_map s)) by apply Hb.
  assert (Hxr : 0 < x < capacity (filesys_disk s1)).
  { destruct (decide (x = 0)) as [->|]; [|lia]. destruct Hlx. exact (header_live s1 0 (free_map_header s1)). }
  assert (Hrun : has_run (free_map s) (n + 1) -> has_run (free_map s1) n) by (intros Hr; eapply run_left; done).
  apply wp_bind, wp_volume_create; [done|apply Ha|lia|done|done|done| |]; fold n.
  2: { intros s2 Ha2 Hsb Hno. apply wp_ret. pose proof (advance_trans _ _ _ Ha Ha2) as Ha'.
       destruct (ad_opens s1 s2 Ha2) as (_ & _ & _ & _). destruct Hsb as (_ & Hc2 & _ & Hsb).
       pose proof (vo_cover s2 (ad_ok _ _ Ha2)) as Hcov2.
       apply (wp_undo s s2 name size); [done|lia|intros Hl; by apply Hlx, (ad_live _ _ Ha2)|by rewrite Hsb by lia| |done].
       fold n. intros _ (j & Hj & Hjn & Hgj)%Hrun. by apply (Hno j). }
  intros y s2 Ha2 Eh Hh Hz Hy Hyn Hxy Hfree Hb2. pose proof (advance_trans _ _ _ Ha Ha2) as Ha'. pose proof (ad_ok s1 s2 Ha2) as H2.
  assert (Hnew : new_file s2 x) by (eapply (created_new s1 s2 x y size); try done; lia).
  destruct (ad_opens s s2 Ha') as (E1 & _). pose proof (ad_table s s2 Ha') as Et.
  assert (Hfit : (0 < length name <= 14)%nat /\ sector_in (table (filesys_disk s2)) name = None /\ None ∈ table (filesys_disk s2) <->
    addable (filesys_disk s) name) by (unfold addable; by rewrite volume_none, Et).
  apply wp_bind, (wp_volume_add s2 dr i); [done|apply Ha2|by rewrite E1|done..| |].
  - intros s3 Ha3 Em Hno. apply wp_ret. destruct (nf_sectors s2 x Hnew x ltac:(left)) as (Hr2 & Hb2x & Hl2).
    pose proof (vo_cover s3 (ad_ok _ _ Ha3)) as Hcov3. rewrite Em, (vo_cover s2 H2) in Hcov3.
    apply (wp_undo s s3 name size); [by eapply advance_trans|lia|intros Hl; by apply Hl2, (ad_live _ _ Ha3)|by rewrite Em| |done].
    intros Hadd%Hfit _. by apply Hno.
  - intros s3 H3 Hm3 Ho3 Hk3 Hfits%Hfit Hv. apply wp_ret. cbn [negb andb]. apply wp_bind, wp_ret, Hk. split; try done.
    + eapply same_opens_trans, Ho3. apply Ha'.
    + by eapply kept_trans.
    + intros nm. rewrite Hv, Eh, Hz, (ad_volume s s2 Ha'). cbn [andb]. case_decide; case_bool_decide; done.
Qed.

(** ** Opening *)

Lemma few_reopened k s x a s' : few (k + 1) s -> 1 <= k <= 2 ^ 30 -> opens_ok s -> reopened s x a s' -> few k s'.
Proof.
  intros Hf Hk Ho [(j & Hj & Ej & ->)|(-> & Hn & Hno & ->)] b i; simpl; rewrite lookup_insert; case_decide; intros Hi; simplify_eq.
  - simpl. pose proof (Hf b j Hj). pose proof (oo_cnt s Ho b j Hj). rewrite s32_small by (urange; lia). lia.
  - pose proof (Hf b i Hi). lia.
  - simpl. lia.
  - pose proof (Hf b i Hi). lia.
Qed.

Lemma reopened_keeps s x b s' a i : reopened s x b s' -> inodes s !! a = Some i -> exists j, inodes s' !! a = Some j /\ same_file j i.
Proof.
  intros [(j & Hj & Ej & ->)|(-> & Hn & Hno & ->)] Hi; simpl; rewrite lookup_insert; case_decide; simplify_eq; by eexists.
Qed.

Lemma closed_other s a i b : b <> a -> inodes (closed s a i) !! b = inodes s !! b.
Proof. intros Hb. unfold closed. destruct (_ =? 1); simpl; [by rewrite lookup_delete_ne|by rewrite lookup_insert_ne]. Qed.

Lemma closed_rest s a i : filesys_disk (closed s a i) = filesys_disk s /\ free_map (closed s a i) = free_map s /\ files (closed s a i) = files s /\
  next_addr (closed s a i) = next_addr s /\ mallocs (closed s a i) = mallocs s.
Proof. unfold closed. by destruct (_ =? 1). Qed.

(** A handle for an open inode. *)
Lemma core_le_file s f x : files s !! f = None -> core_le s (set_files (<[f := x]> (files s)) s).
Proof.
  intros Hf. split; try done; simpl; [|intros a i Hi; left; by exists i|intros a i Hi _; by exists i].
  intros g y Hg. rewrite lookup_insert_ne by congruence. done.
Qed.

Lemma wp_and_wlp {A} (m : ST fs A) s (P Q R : A -> fs -> Prop) : wlp m s P -> wp m s Q -> (forall a s', P a s' -> Q a s' -> R a s') -> wp m s R.
Proof. unfold wp, wlp. destruct (m s) as [[a s']| |]; auto. Qed.

(** What [filesys_open] does apart from the counts of openers. *)
Definition open_post (s : fs) (name : list Z) (r : option Z) (s' : fs) : Prop :=
  core_le s s' /\ no_oom s' /\
  match volume (filesys_disk s) name with
  | None => r = None /\ files s' = files s
  | Some c => exists f a i, r = Some f /\ files s !! f = None /\ files s' = <[f := mk_file a 0 false]> (files s) /\
      inodes s' !! a = Some i /\ opened s' a i /\ contents (filesys_disk s) (data i) = c
  end.

Lemma wp_file_open_none s Q : no_oom s -> (forall n, Q None (set_heap [] n s)) -> wp (file_open None) s Q.
Proof.
  intros Hm HQ. apply wp_bind, wp_malloc; intros _; apply wp_bind, wp_ret, wp_ret; rewrite Hm; apply HQ.
Qed.

(** The inode of a name, opened while the directory is. *)
Record entry_open (s : fs) (a x b : Z) (s' : fs) : Prop := {
  eo_ok : volume_ok s';
  eo_opens : opens_ok s';
  eo_oom : no_oom s';
  eo_disk : filesys_disk s' = filesys_disk s;
  eo_files : files s' = files s;
  eo_addr : next_addr s <= next_addr s';
  eo_le : core_le s s';
  eo_root : exists i, inodes s' !! a = Some i /\ i_sector i = ROOT_DIR_SECTOR /\ 0 < open_cnt i < 2 ^ 31 /\ removed i = false;
  eo_inode : exists j, inodes s' !! b = Some j /\ i_sector j = x /\ data j = header_at (filesys_disk s) x;
  eo_ne : b <> a;
  eo_spare : spare s' b;
  eo_keeps c i : inodes s !! c = Some i -> exists j, inodes s' !! c = Some j /\ same_file j i;
}.

Lemma reopened_spare s x a s' : opens_ok s -> few 1 s -> reopened s x a s' -> spare s' a.
Proof.
  intros H Hf [(j & Hj & Ej & ->)|(-> & Hn & Hno & ->)]; [apply bump_ok; [done..|by apply (Hf a j)]|by apply open_new_ok].
Qed.

Lemma wp_open_entry s a s1 s2 name x Q : volume_ok s -> opens_ok s -> few 2 s -> root_opened s a s1 -> heap_only s1 s2 ->
  sector_in (table (filesys_disk s)) name = Some x -> (forall b s', entry_open s a x b s' -> Q (Some b) s') -> wp (inode_open x) s2 Q.
Proof.
  intros H Hop Hf Ho Hh Hx HQ. assert (Hf1 : few 1 s) by (eapply few_weaken; [exact Hf|lia]).
  destruct (root_opened_ok s a s1 H Hop Hf1 Ho) as (H1 & Hop1 & Hm1 & Hle1 & Ed1 & _ & Ef1 & i1 & Hi1 & Hir1).
  destruct (heap_advance s1 s2 H1 Hm1 Hh) as [H2 Hm2 Hso2 _ _ _ _]. pose proof (same_opens_ok _ _ Hso2 Hop1) as Hop2.
  assert (Hs2 : core_le s1 s2 /\ filesys_disk s2 = filesys_disk s1 /\ inodes s2 = inodes s1 /\ files s2 = files s1 /\ next_addr s1 <= next_addr s2).
  { destruct Hh as (m & n & -> & ? & ?). split_and!; try done. apply core_le_heap. }
  destruct Hs2 as (Hle2 & Ed2 & Ei2 & Ef2 & Hn2). assert (Ed : filesys_disk s2 = filesys_disk s) by congruence.
  assert (Hb : bound (filesys_disk s2) x) by (rewrite Ed; by eapply sector_in_bound).
  assert (Hn1 : next_addr s <= next_addr s1 /\ few 1 s1).
  { destruct Ho as (s0 & n & Ho & Hn & ->). destruct (reopened_rest _ _ _ _ Ho) as (_ & _ & _ & ? & _). split; [simpl in *; lia|].
    exact (few_reopened 1 s _ a s0 Hf ltac:(lia) Hop Ho). }
  destruct Hn1 as [Hn1 Hfs1]. assert (Hfs2 : few 1 s2) by (intros b j; rewrite Ei2; apply Hfs1).
  destruct (vo_live s2 H2 x) as [Hxr _]; [eauto with volume|].
  apply wp_inode_open; [done|apply H2|done|lia|]. intros b s3 Hr. apply HQ.
  destruct (reopened_rest _ _ _ _ Hr) as (Ed3 & _ & Ef3 & Hn3 & Hm3). specialize (Hm3 Hm2).
  pose proof (reopened_le _ _ _ _ Hb Hr) as Hle3. pose proof (core_le_ok s2 s3 H2 Hle3) as H3.
  pose proof (reopened_opens _ _ _ _ Hop2 Hfs2 Hr) as Hop3.
  destruct (reopened_keeps _ _ _ _ a i1 Hr) as (i3 & Hi3 & Hs3 & _); [by rewrite Ei2|]. rewrite Hir1 in Hs3.
  destruct (reopened_inode _ _ _ _ Hr) as (j & Hj & Hjx).
  split; [done|done|done|congruence|congruence|lia| | | | | |].
  - eapply core_le_trans, Hle3. by eapply core_le_trans.
  - exists i3. exact (conj Hi3 (conj Hs3 (conj (oo_cnt s3 Hop3 a i3 Hi3) (bound_not_removed s3 H3 a i3 Hi3 (root_bound s3 i3 Hs3))))).
  - exists j. split_and!; [done..|]. rewrite <- Ed, <- Ed3, <- Hjx. by apply (vo_core s3 H3 b).
  - intros ->. simplify_eq. assert (Hin : Some (name, i_sector i3) ∈ table (filesys_disk s2)) by (apply sector_in_elem; by rewrite Ed).
    by destruct (en_file _ (vo_entries s2 H2) _ _ Hin).
  - exact (reopened_spare _ _ _ _ Hop2 Hfs2 Hr).
  - intros c i Hi. destruct Ho as (s0 & n & Ho & _ & ->). destruct (reopened_keeps _ _ _ _ c i Ho Hi) as (i' & Hi' & E1 & E2 & E3 & E4).
    destruct (reopened_keeps _ _ _ _ c i' Hr) as (i'' & Hi'' & F1 & F2 & F3 & F4); [by rewrite Ei2|]. exists i''.
    split; [done|]. split_and!; congruence.
Qed.

(** The rest of [filesys_open] once the name is found. *)
Lemma wp_open_found s a s1 s2 name x : volume_ok s -> opens_ok s -> few 2 s -> root_opened s a s1 -> heap_only s1 s2 ->
  sector_in (table (filesys_disk s)) name = Some x ->
  wp (inode ← inode_open x; dir_close (Some (mk_dir a 0));; file_open inode) s2 (open_post s name).
Proof.
  intros H Hop Hf Ho Hh Hx. apply wp_bind. eapply wp_open_entry; [done..|].
  intros b s3 [H3 Hop3 Hm3 Ed3 Ef3 Hn3 Hle3 (i3 & Hi3 & Hs3 & Hc3 & Hr3) (j & Hj & Hjx & Ejd) Hba _ _].
  apply wp_bind, (wp_inode_close s3 a i3); [done|done|done|].
  destruct (closed_rest s3 a i3) as (Ed4 & _ & Ef4 & En4 & Em4). set (s4 := closed s3 a i3) in *.
  assert (Hle4 : core_le s3 s4) by (apply closed_le; [done|by rewrite Hs3]).
  apply wp_bind, wp_malloc; intros Hmem; [|destruct Hmem; unfold mem_ok; rewrite Em4, Hm3; done].
  set (s5 := set_heap _ _ s4). apply wp_bind, wp_modify, wp_ret.
  assert (Hfresh : files s !! next_addr s4 = None).
  { destruct (files s !! next_addr s4) eqn:E; [|done]. assert (next_addr s4 < next_addr s); [|lia].
    apply (oo_fresh s Hop). right. by rewrite E. }
  assert (Ef : files s4 = files s) by congruence.
  assert (Hj4 : inodes s4 !! b = Some j) by (unfold s4; by rewrite closed_other).
  split_and!; [|unfold no_oom, s5; simpl; by rewrite Em4, Hm3|].
  - eapply core_le_trans, core_le_file; [|simpl; by rewrite Ef]. eapply core_le_trans, core_le_heap. by eapply core_le_trans.
  - unfold volume. rewrite Hx. simpl. exists (next_addr s4), b, j. rewrite Ef, Ejd. split_and!; try done; simpl.
    unfold opened. simpl. rewrite Ed4, Ed3. split_and!; [done|apply H|]. rewrite Ejd. apply (vo_header s H). eauto with volume.
Qed.

Lemma wp_filesys_open s stack name : volume_ok s -> opens_ok s -> no_oom s -> few 2 s -> good_name name -> length stack = 20%nat ->
  wp (filesys_open stack name) s (open_post s name).
Proof.
  intros H Hops Hm Hf Hn Hst. assert (Hf1 : few 1 s) by (eapply few_weaken; [exact Hf|lia]).
  apply wp_bind, wp_dir_open_root; [done..|]. intros a s1 Ho.
  destruct (root_opened_ok s a s1 H Hops Hf1 Ho) as (H1 & _ & Hm1 & Hle1 & Ed1 & _ & Ef1 & i & Hi & Hir).
  pose proof (vo_core s1 H1 a i Hi) as Ed. rewrite Hir in Ed.
  assert (Hop : opened s1 a i) by (split_and!; [done|apply H1|rewrite Ed; apply (vo_header s1 H1); auto with volume]).
  apply wp_bind, wp_bind, (wp_lookup_dict s1 (mk_dir a 0) i); [done..|rewrite Ed; apply H1|done|done|].
  rewrite Ed. fold (table (filesys_disk s1)). rewrite Ed1. intros [[e ofs]|] s2 Hh.
  - intros (Hx & _). pose proof (wp_open_found s a s1 s2 name _ H Hops Hf Ho Hh Hx) as Hw. revert Hw. unfold wp, mbind, ST_bind.
    destruct (inode_open (e_inode_sector e) s2) as [[r s3]| |]; done.
  - intros Hx. apply wp_ret. destruct (heap_advance s1 s2 H1 Hm1 Hh) as [H2 Hm2 Hs2 _ _ _ _].
    apply wp_bind, (wp_close_root s a s1 s2); [done..|]. set (s3 := set_inodes _ _).
    apply wp_file_open_none; [done|]. intros n. unfold open_post, volume. rewrite Hx. simpl. split_and!; [|done|done|destruct Hs2 as (_ & _ & -> & _); done].
    destruct Hh as (m & k & -> & _). split; simpl; [exact Ed1|apply Hle1|apply Hle1|apply Hle1|..].
    + intros b j Hj. left. by exists j.
    + intros b j Hj _. by exists j.
Qed.
