(* ===== verification/VolumeRemove.v ===== *)
(** * Removing files: [filesys_remove], and closing removed files

    A removed name leaves the dictionary at once; the sectors of its file are
    released with the last of its openers. *)

From S2P Require Import Prelude Vaddr Bitmap Bytes Disk Inode InodeProps File FileProps FreeMapProps InodeCreate Directory DirectoryProps FilesysOpens Volume VolumeProps.

(** ** Erasing an entry *)

Lemma sector_in_none l nm x : sector_in l nm = None -> Some (nm, x) ∉ l.
Proof.
  induction l as [|[[n z]|] l IH]; cbn [sector_in]; [by intros _ ?%not_elem_of_nil| |].
  - case_decide; [done|]. intros Hno [Hk|Hk]%elem_of_cons; [congruence|by apply IH].
  - intros Hno [Hk|Hk]%elem_of_cons; [done|by apply IH].
Qed.

Lemma sector_in_spec l nm x : (forall j k y z, l !! j = Some (Some (nm, y)) -> l !! k = Some (Some (nm, z)) -> j = k) ->
  sector_in l nm = Some x <-> Some (nm, x) ∈ l.
Proof.
  intros Hu. split; [apply sector_in_elem|]. intros Hin. destruct (sector_in l nm) as [y|] eqn:E; [|by apply sector_in_none with (x := x) in E].
  apply sector_in_elem, list_elem_of_lookup in E as [j Hj]. apply list_elem_of_lookup in Hin as [k Hk].
  assert (j = k) as -> by (by eapply Hu). congruence.
Qed.

Lemma erase_lookup (l : list (option (list Z * Z))) j k nm x :
  <[j := None]> l !! k = Some (Some (nm, x)) -> k <> j /\ l !! k = Some (Some (nm, x)).
Proof. intros [(_ & ? & _)|(? & ?)]%list_lookup_insert_Some; done. Qed.

Lemma erase_ok l j : entries_ok l -> entries_ok (<[j := None]> l).
Proof.
  intros [E1 E2 E3]. split.
  - intros a b nm x y [_ Ha]%erase_lookup [_ Hb]%erase_lookup. by eapply E1.
  - intros a b nm nm' x [_ Ha]%erase_lookup [_ Hb]%erase_lookup. by eapply E2.
  - intros nm x (k & [_ Hk]%erase_lookup)%list_elem_of_lookup. eapply E3, list_elem_of_lookup_2, Hk.
Qed.

Lemma erase_dict l j name x nm : entries_ok l -> l !! j = Some (Some (name, x)) ->
  sector_in (<[j := None]> l) nm = if decide (nm = name) then None else sector_in l nm.
Proof.
  intros He Hj. pose proof (erase_ok l j He) as He'. apply option_eq. intros y.
  rewrite sector_in_spec by (intros a b; by apply (en_name _ He')). rewrite list_elem_of_lookup. split.
  - intros (k & [Hkj Hk]%erase_lookup).
    case_decide as En; [subst nm; destruct Hkj; by eapply (en_name _ He)|].
    apply sector_in_spec; [intros a b; by apply (en_name _ He)|]. by eapply list_elem_of_lookup_2.
  - case_decide as En; [done|]. intros Hs%sector_in_elem. apply list_elem_of_lookup in Hs as [k Hk]. exists k.
    rewrite list_lookup_insert_ne; [done|]. intros ->. congruence.
Qed.

(** [e->in_use = false] *)
Definition erased (e : list Z) : list Z := splice 19 [0] e.

Lemma erased_entry e : length e = 20%nat -> length (erased e) = 20%nat /\ entry_of (erased e) = None /\ e_in_use (erased e) = false.
Proof.
  intros He. assert (Hu : e_in_use (erased e) = false).
  { unfold e_in_use, erased. rewrite byte_splice by (simpl; lia). done. }
  split_and!; [unfold erased; rewrite splice_length; simpl; lia| |done]. unfold entry_of. by rewrite Hu.
Qed.

Lemma wp_volume_erase s dr i j name x Q : volume_ok s -> no_oom s -> inodes s !! d_inode dr = Some i ->
  i_sector i = ROOT_DIR_SECTOR -> 0 <= j -> table (filesys_disk s) !! Z.to_nat j = Some (Some (name, x)) ->
  let h := header_at (filesys_disk s) ROOT_DIR_SECTOR in
  (forall s', volume_ok s' -> no_oom s' -> same_opens s s' ->
     table (filesys_disk s') = <[Z.to_nat j := None]> (table (filesys_disk s)) ->
     (forall nm, volume (filesys_disk s') nm = if decide (nm = name) then None else volume (filesys_disk s) nm) ->
     kept s s' -> Q 20 s') ->
  wp (inode_write_at (d_inode dr) (erased (slot (filesys_disk s) h j)) 20 (20 * j)) s Q.
Proof.
  intros H Hm Hi Hir Hj Hx h HQ. pose proof (vo_core s H _ _ Hi) as Ed. rewrite Hir in Ed. fold h in Ed.
  pose proof (header_length s H _ (root_header s)) as Hlen. fold h in Hlen. pose proof (slot_cnt_range h ltac:(lia)) as Hsc.
  assert (Hjr : 0 <= j < slot_cnt h).
  { apply lookup_lt_Some in Hx. unfold table in Hx. fold h in Hx. rewrite entries_length in Hx by lia. lia. }
  destruct (erased_entry (slot (filesys_disk s) h j)) as (Lb & Eb & Ub); [apply slot_length; lia|]. set (b := erased _) in *.
  apply (wp_inode_write_at s (d_inode dr) i); rewrite ?Ed; [|lia|lia|lia| |].
  { split_and!; [done|apply H|rewrite Ed; apply (vo_header s H); auto with volume]. }
  { intros Hd. by destruct Hd, (vo_root s H _ _ Hi Hir). }
  intros n s' _ Hna Hfull (d' & Hst & Hh). rewrite (Hfull ltac:(unfold mem_ok; by rewrite Hm)) in *.
  assert (En : avail h 20 (20 * j) = 20) by (unfold avail; lia). rewrite En in *.
  destruct (root_stored s s' d' (20 * j) 20 b) as (Hq & Hm' & Es & Em & Eh & Hr); try done; [lia|fold h; lia|]. fold h in Eh, Hr.
  assert (Et : table (filesys_disk s') = <[Z.to_nat j := None]> (table (filesys_disk s))).
  { unfold table. rewrite Es, Eh, <- Eb. apply (entries_written _ h); done || lia. }
  pose proof (vo_entries s H) as Hent.
  destruct (quiet_shrink s H s' Hq) as [H' _]; [|by rewrite Et; apply erase_ok| |].
  { intros nm y. rewrite Et. intros (k & [_ Hk]%erase_lookup)%list_elem_of_lookup. by eapply list_elem_of_lookup_2. }
  { rewrite Es, Eh. intros k Hk Hu. destruct (decide (k = j)) as [->|Hkj].
    - rewrite (slot_written (filesys_disk s) h d' j b) in Hu by (done || lia). congruence.
    - rewrite (slot_kept (filesys_disk s) h d' j 20 b k) in * by (done || lia). by apply (vo_slots s H). }
  apply HQ; [done|done|apply Hq|done| |].
  - intros nm. rewrite (quiet_volume s H s' nm Hq), Et, (erase_dict _ _ name x) by (done ||
      (intros y; rewrite Et, (erase_dict _ _ name x) by done; by case_decide)).
    case_decide; [done|]. unfold volume. by destruct (sector_in _ nm).
  - by apply (quiet_kept s H).
Qed.

(** ** Removing an open inode *)

Definition set_removed (i : struct_inode) : struct_inode := mk_inode (i_sector i) (open_cnt i) true (deny_write_cnt i) (data i).

Lemma wp_inode_remove s b i Q : inodes s !! b = Some i -> Q tt (set_inodes (<[b := set_removed i]> (inodes s)) s) -> wp (inode_remove b) s Q.
Proof. intros Hi HQ. eapply wp_bind, wp_get_inode; [done|]. by apply wp_modify. Qed.

(** Changing the flags and counters of an open inode. *)
Lemma update_ok s b i i' : volume_ok s -> inodes s !! b = Some i -> i_sector i' = i_sector i -> data i' = data i ->
  (removed i' = true -> ~ bound (filesys_disk s) (i_sector i)) ->
  (deny_write_cnt i' = deny_write_cnt i \/ i_sector i <> FREE_MAP_SECTOR /\ i_sector i <> ROOT_DIR_SECTOR) ->
  volume_ok (set_inodes (<[b := i']> (inodes s)) s).
Proof.
  intros H Hi Es Ed Hb Hw. set (s' := set_inodes _ s).
  assert (Hin : forall a j, inodes s' !! a = Some j -> exists k, inodes s !! a = Some k /\ i_sector k = i_sector j /\ data k = data j /\
    (i_sector j = ROOT_DIR_SECTOR -> deny_write_cnt k = deny_write_cnt j) /\ (removed j = true -> ~ bound (filesys_disk s) (i_sector j))).
  { intros a j. simpl. rewrite lookup_insert. case_decide.
    - intros [= <-]. subst a. exists i. rewrite Es. split_and!; try done. intros Er. by destruct Hw as [?|[_ ?]].
    - intros Hj. exists j. split_and!; try done. by apply (vo_removed s H a). }
  assert (Hh : forall x, is_header s' x -> is_header s x).
  { intros x [Hx|(a & j & (k & Hk & <- & _)%Hin & <-)]; [by left|eauto with volume]. }
  destruct H. split; try done.
  - intros x y z Hx%Hh Hy%Hh. by apply vo_apart.
  - intros x Hx%Hh. by apply vo_nodup.
  - intros y (x & Hx%Hh & Hy). apply vo_live. by exists x.
  - intros x Hx%Hh. by apply vo_header.
  - destruct vo_map as (f & a & j & [M1 M2 (O1 & O2 & O3) M4 M5] & Hf & Hj). exists f, a, (if decide (a = b) then i' else j).
    case_decide as Hab; (split_and!; [|done|congruence]).
    + subst a. simplify_eq. split; try done; rewrite ?Ed; try done; [|by destruct Hw as [->|[? _]]].
      split_and!; [simpl; by rewrite lookup_insert_eq|done|by rewrite Ed].
    + split; try done. split_and!; try done. simpl. by rewrite lookup_insert_ne.
  - intros a j (k & Hk & <- & <- & _)%Hin. by apply (vo_core a).
  - intros a j (k & Hk & _ & _ & _ & Hr)%Hin. done.
  - intros a j (k & Hk & E & _ & Hd & _)%Hin Hj. rewrite <- Hd by done. apply (vo_root a k Hk). congruence.
Qed.

Lemma removed_ok s b i : volume_ok s -> inodes s !! b = Some i -> ~ bound (filesys_disk s) (i_sector i) ->
  volume_ok (set_inodes (<[b := set_removed i]> (inodes s)) s).
Proof. intros H Hi Hb. by eapply update_ok; [..|left]. Qed.

(** ** The last opener of a removed file *)

Lemma map_only_trans h s1 s2 s3 : map_only h s1 s2 -> map_only h s2 s3 -> map_only h s1 s3.
Proof.
  intros (? & ? & ? & ? & ? & ? & ? & ? & O1) (? & ? & ? & ? & ? & ? & ? & ? & O2). split_and!; try congruence; try lia; [by etrans|].
  intros p Hp. by rewrite O2, O1.
Qed.

(** The state without the inode, before its sectors are released. *)
Definition dropped (s : fs) (b : Z) : fs := set_inodes (delete b (inodes s)) (set_open (unlink b (open_inodes s)) s).

Section Drop.
Context (s : fs) (H : volume_ok s) (Hop : opens_ok s) (b : Z) (i : struct_inode) (Hi : inodes s !! b = Some i) (Hr : removed i = true).
Local Notation x := (i_sector i).
Local Notation h := (header_at (filesys_disk s) (i_sector i)).

Lemma removed_unbound : ~ bound (filesys_disk s) x.
Proof using All. by apply (vo_removed s H b). Qed.

Lemma dropped_ok : volume_ok (dropped s b).
Proof using All.
  assert (Hx : x <> FREE_MAP_SECTOR) by (intros E; apply removed_unbound; by left).
  apply (core_le_ok s); [done|]. split; try done; simpl; intros a j.
  - rewrite lookup_delete. case_decide; [done|]. intros Hj. left. by exists j.
  - intros Hj Hz. rewrite lookup_delete. case_decide; [congruence|by exists j].
Qed.

(** Nobody else uses the sectors of the file. *)
Lemma dropped_live y : y ∈ file_sectors (filesys_disk s) x -> ~ live (dropped s b) y.
Proof using All.
  intros Hy (z & Hz & Hyz). change (filesys_disk (dropped s b)) with (filesys_disk s) in Hyz.
  assert (Hne : z = x).
  { apply (vo_apart s H z x y); [|eauto with volume|done|done]. destruct Hz as [Hz|(a & j & Hj & <-)]; [by left|].
    simpl in Hj. apply lookup_delete_Some in Hj as [_ Hj]. eauto with volume. }
  subst z. destruct Hz as [Hz|(a & j & Hj & Ej)]; [by apply removed_unbound|].
  simpl in Hj. apply lookup_delete_Some in Hj as [Hab Hj]. apply Hab. symmetry. by eapply (oo_inj s Hop).
Qed.

Lemma dropped_sectors y : y ∈ file_sectors (filesys_disk s) x -> 0 <= y < bit_cnt (free_map s) /\ bit (free_map s) y = true.
Proof using H Hi. intros Hy. rewrite (vo_cover s H). apply (vo_live s H). exists x. eauto with volume. Qed.

(** The range of the data is one of the free map. *)
Lemma dropped_range : 0 <= start h /\ 0 <= bytes_to_sectors (i_length h) /\ start h + bytes_to_sectors (i_length h) <= bit_cnt (free_map s).
Proof using H Hi.
  assert (Hh : is_header s x) by eauto with volume. destruct (vo_header s H x Hh) as [_ Hw]. pose proof (iw_start _ _ Hw).
  pose proof (iw_fits _ _ Hw) as Hf. unfold base_of in Hf. pose proof (header_length s H x Hh) as Hl.
  destruct (bytes_to_sectors_eq _ Hl) as (_ & Hn & _). cbv zeta in *. split_and!; [done|done|]. set (n := bytes_to_sectors _) in *.
  destruct (decide (n = 0)) as [E|E]; [rewrite E, (vo_cover s H); lia|].
  destruct (dropped_sectors (start h + n - 1)); [right; unfold span; fold n; apply elem_of_seqZ; lia|lia].
Qed.

Lemma wp_inode_drop Q : no_oom s -> open_cnt i = 1 ->
  (forall s', advance (dropped s b) s' -> Q tt s') -> wp (inode_close (Some b)) s Q.
Proof using All.
  intros Hm Hc HQ. pose proof dropped_ok as Hd. pose proof dropped_range as (Hs0 & Hn0 & Hsn). set (n := bytes_to_sectors (i_length h)) in *.
  assert (Edata : data i = h) by by apply (vo_core s H b).
  destruct (vo_map s H) as (f & a & im & Hmf & Hf & Him). pose proof (mf_open _ _ _ _ Hmf) as (Hina & _ & _).
  assert (Hab : a <> b) by (intros ->; simplify_eq; apply removed_unbound; by left).
  eapply wp_bind, wp_get_inode; [done|]. apply wp_bind, wp_modify. rewrite Hc. cbn [Z.sub Z.opp Z.add Z.pos_sub]. change (s32 0) with 0.
  change (0 =? 0) with true. cbv iota. apply wp_bind, wp_modify. set (sm := set_open _ _). rewrite Hr. apply wp_bind, wp_when; [intros _|done].
  assert (Hmm : map_file sm f a im).
  { destruct Hmf as [M1 M2 (O1 & O2 & O3) M4 M5]. split; try done. split_and!; try done. simpl. by rewrite lookup_insert_ne. }
  destruct (dropped_sectors x ltac:(left)) as [Hxr Hxb].
  apply wp_bind, (wp_free_map_release sm f a im); [done|done|lia|lia|simpl; lia|intros y Hy; by replace y with x by lia|].
  intros s1 Hmo1 Hb1. assert (Hm1 : map_file s1 f a im).
  { pose proof Hmo1 as (E1 & E2 & E3 & E4 & E5 & E6 & E7 & E8 & E9). by eapply map_file_bits. }
  rewrite Edata. fold n. pose proof Hb1 as (_ & Hc1 & _ & Hbb1). simpl in Hc1, Hbb1.
  assert (Hx : x ∉ span h) by (apply (vo_nodup s H); eauto with volume).
  apply (wp_free_map_release s1 f a im); [done|destruct Hmo1 as (_ & _ & _ & -> & _); done|lia|lia|lia| |].
  { intros y Hy. assert (Hys : y ∈ span h) by (apply elem_of_seqZ; fold n; lia). rewrite Hbb1 by lia.
    assert (in_group x 1 y = false) as ->; [|apply dropped_sectors; by right].
    unfold in_group. zcases; simpl; try done. assert (x = y) by lia. subst. done. }
  intros s2 Hmo2 Hb2. apply wp_modify, HQ. pose proof (map_only_trans _ _ _ _ Hmo1 Hmo2) as Hmo.
  pose proof Hmo as (E1 & E2 & E3 & E4 & E5 & E6 & E7 & E8 & E9). pose proof Hb2 as (_ & Hc2 & _ & Hbb2).
  apply (map_step (dropped s b) _ (data im)); [done|done|rewrite <- Him; by apply (vo_core s H a)| |..].
  - split_and!; try done. simpl. rewrite E1. simpl. by rewrite delete_insert_eq.
  - eapply exact_set, Hb2. eapply exact_set, Hb1. apply Hmm.
  - simpl. lia.
  - intros y Hy. destruct (vo_live _ Hd y Hy) as [Hyr Hyb]. simpl in Hyr, Hyb. rewrite <- (vo_cover s H) in Hyr. simpl.
    rewrite Hbb2, Hbb1 by lia.
    assert (in_group (start h) n y = false) as ->.
    { unfold in_group. zcases; simpl; try done. exfalso. apply (dropped_live y); [right; apply elem_of_seqZ; fold n; lia|done]. }
    assert (in_group x 1 y = false) as ->; [|done].
    unfold in_group. zcases; simpl; try done. exfalso. apply (dropped_live y); [|done]. assert (y = x) as -> by lia. left.
Qed.
End Drop.

(** ** Closing an inode *)

Lemma wp_volume_close s b i Q : volume_ok s -> opens_ok s -> no_oom s -> inodes s !! b = Some i -> i_sector i <> FREE_MAP_SECTOR ->
  (forall s', advance (closed s b i) s' -> Q tt s') -> wp (inode_close (Some b)) s Q.
Proof.
  intros H Hop Hm Hi H0 HQ. destruct (decide (removed i = true /\ open_cnt i = 1)) as [[Hr Hc]|Hn].
  - apply (wp_inode_drop s H Hop b i Hi Hr); [done|done|]. intros s' Ha. apply HQ. unfold closed. by rewrite Hc.
  - apply (wp_inode_close s b i); [done|by apply (oo_cnt s Hop b)|intros Hc; destruct (removed i); [by destruct Hn|done]|].
    apply HQ, advance_refl; [apply (core_le_ok s), closed_le; done|].
    destruct (closed_rest s b i) as (_ & _ & _ & _ & Em). unfold no_oom. by rewrite Em.
Qed.

(** ** Removing a name *)

Record remove_post (s : fs) (name : list Z) (r : bool) (s' : fs) : Prop := {
  re_ok : volume_ok s';
  re_oom : no_oom s';
  re_files : files s' = files s;
  re_found : r = true <-> is_Some (volume (filesys_disk s) name);
  re_volume nm : volume (filesys_disk s') nm = if decide (nm = name) then None else volume (filesys_disk s) nm;
  re_data f y i : files s !! f = Some y -> inodes s !! f_inode y = Some i -> i_sector i <> FREE_MAP_SECTOR -> i_sector i <> ROOT_DIR_SECTOR ->
    contents (filesys_disk s') (data i) = contents (filesys_disk s) (data i);
}.

Lemma wp_lookup_entry s dr i stack name Q : opened s (d_inode dr) i -> no_oom s -> slots_ok (filesys_disk s) (data i) ->
  good_name name -> length stack = 20%nat ->
  (forall s', heap_only s s' -> sector_in (entries (filesys_disk s) (data i)) name = None -> Q None s') ->
  (forall j x s', heap_only s s' -> 0 <= j < slot_cnt (data i) -> entries (filesys_disk s) (data i) !! Z.to_nat j = Some (Some (name, x)) ->
     sector_in (entries (filesys_disk s) (data i)) name = Some x -> e_inode_sector (slot (filesys_disk s) (data i) j) = x ->
     Q (Some (slot (filesys_disk s) (data i) j, 20 * j)) s') ->
  wp (lookup stack dr name) s Q.
Proof.
  intros Hop Hm Hok Hn Hst HQ1 HQ2. pose proof (iw_len _ _ (proj2 (proj2 Hop))) as Hlen.
  apply (wp_lookup dr i); [done..|]. intros s' Hh. set (l := entries (filesys_disk s) (data i)) in *.
  pose proof (find_entry_sector l name 0) as Hf. destruct (find_entry name l 0) as [j|]; [|by apply HQ1].
  destruct Hf as (Hj & x & Hx & Es). rewrite Z.sub_0_r in Hx.
  assert (Hjr : 0 <= j < slot_cnt (data i)) by (unfold l in Hj; rewrite entries_length in Hj; pose proof (slot_cnt_range (data i)); lia).
  apply (HQ2 j x); [done|done|done|done|]. unfold l in Hx. rewrite entries_lookup in Hx by lia. injection Hx as Hx. unfold entry_of in Hx.
  destruct (e_in_use _); [|done]. by injection Hx.
Qed.

(** The handles on a closed inode keep it open. *)
Lemma closed_users s b j f y : spare s b -> inodes s !! b = Some j -> files s !! f = Some y -> f_inode y = b ->
  open_cnt j <> 1.
Proof.
  intros (k & Hk & Hc) Hj Hf Hy. simplify_eq.
  pose proof (count_pos (on_inode (f_inode y)) (files s) f y Hf ltac:(unfold on_inode; apply Z.eqb_refl)). lia.
Qed.

Lemma wp_remove_found s a s1 s2 name j x : volume_ok s -> opens_ok s -> few 2 s -> root_opened s a s1 -> heap_only s1 s2 ->
  let h := header_at (filesys_disk s) ROOT_DIR_SECTOR in
  0 <= j < slot_cnt h -> table (filesys_disk s) !! Z.to_nat j = Some (Some (name, x)) -> sector_in (table (filesys_disk s)) name = Some x ->
  wp (inode ← inode_open x;
      match inode with
      | None => mret false
      | Some b =>
        e ← put_bytes (slot (filesys_disk s) h j) 19 [0];
        n ← inode_write_at a e SIZEOF_DIR_ENTRY (s32 (20 * j));
        if n =? SIZEOF_DIR_ENTRY then inode_remove b;; inode_close (Some b);; mret true
        else inode_close (Some b);; mret false
      end) s2 (fun r s' => r = true /\ remove_post s name r s' /\
        exists i, inodes s' !! a = Some i /\ i_sector i = ROOT_DIR_SECTOR /\ 0 < open_cnt i < 2 ^ 31 /\ removed i = false).
Proof.
  intros H Hop Hf Ho Hh h Hj Hjx Hx. pose proof (header_length s H _ (root_header s)) as Hlen. fold h in Hlen.
  pose proof (slot_cnt_range h ltac:(lia)) as Hsc. apply wp_bind. eapply wp_open_entry; [done..|].
  intros b s3 [H3 Hop3 Hm3 Ed3 Ef3 Hn3 Hle3 (i3 & Hi3 & Hs3 & Hc3 & Hr3) (k & Hk & Hkx & Ekd) Hba Hsp Hkeep].
  assert (Lsl : length (slot (filesys_disk s) h j) = 20%nat) by (apply slot_length; lia).
  apply wp_bind, wp_put_bytes; [lia|rewrite Lsl; simpl; lia|]. fold (erased (slot (filesys_disk s) h j)).
  rewrite s32_small by (urange; lia). unfold SIZEOF_DIR_ENTRY. unfold h. rewrite <- Ed3.
  apply wp_bind, (wp_volume_erase s3 (mk_dir a 0) i3 j name x); [done|done|done|done|lia|by rewrite Ed3|].
  intros s4 H4 Hm4 Hso4 Et Hv4 Hk4. cbn [Z.eqb Pos.eqb]. pose proof Hso4 as (E1 & E2 & E3 & E4).
  assert (Hk4' : inodes s4 !! b = Some k) by (by rewrite E1). pose proof (same_opens_ok _ _ Hso4 Hop3) as Hop4.
  assert (Hnb : ~ bound (filesys_disk s4) (i_sector k)).
  { rewrite Hkx. intros Hb. rewrite Ed3 in Et.
    assert (Hin : Some (name, x) ∈ table (filesys_disk s)) by (by eapply list_elem_of_lookup_2).
    destruct (en_file _ (vo_entries s H) _ _ Hin) as [Hx0 Hx1]. destruct Hb as [?|[?|(nm & Hb)]]; [done..|].
    rewrite Et in Hb. apply list_elem_of_lookup in Hb as [l [Hl Hlx]%erase_lookup]. apply Hl. by eapply (en_sector _ (vo_entries s H)). }
  apply wp_bind, (wp_inode_remove s4 b k); [done|]. set (s5 := set_inodes _ s4).
  assert (H5 : volume_ok s5) by (by apply removed_ok).
  assert (Hop5 : opens_ok s5).
  { eapply opens_ok_put; [done|exact Hk4'|done|apply (oo_cnt s4 Hop4 b k Hk4')|apply (oo_users s4 Hop4 b k Hk4')|apply (oo_deny s4 Hop4 b k Hk4')]. }
  assert (H50 : i_sector k <> FREE_MAP_SECTOR) by (intros E; apply Hnb; by left).
  apply wp_bind, (wp_volume_close s5 b (set_removed k)); [done|done|done|simpl; by rewrite lookup_insert_eq|done|]. intros s6 Ha.
  destruct (closed_rest s5 b (set_removed k)) as (Ed5 & _ & Ef5 & _ & _). pose proof (ad_opens _ _ Ha) as (F1 & _ & F3 & _).
  apply wp_ret. split; [done|]. split; [split|].
  - apply Ha.
  - apply Ha.
  - rewrite F3, Ef5. simpl. congruence.
  - split; [|done]. intros _. unfold volume. rewrite Hx. by eexists.
  - intros nm. rewrite (ad_volume _ _ Ha), Ed5. simpl. by rewrite Hv4, Ed3.
  - intros f y i Hfy Hi Hi0 Hi1.    destruct (Hkeep _ i Hi) as (i' & Hi' & Es' & Ed' & _). set (c := f_inode y) in *.
    rewrite (vo_core s H c i Hi). set (z := i_sector i) in *. rewrite <- Ed3.
    destruct (Hk4 z) as [G1 G2]; [rewrite <- Es'; eauto with volume|done|done|]. rewrite <- G2, <- G1.
    assert (Hz : is_header (closed s5 b (set_removed k)) z).
    { rewrite <- Es'. destruct (decide (c = b)) as [Ecb|Ecb].
      - assert (i' = k) as -> by congruence. unfold closed, set_removed. cbn [open_cnt].
        pose proof (closed_users s3 b k f y Hsp Hk ltac:(by rewrite Ef3) Ecb). destruct (Z.eqb_spec (open_cnt k) 1); [done|].
        right. exists b, (bump (-1) (set_removed k)). simpl. by rewrite lookup_insert_eq.
      - right. exists c, i'. rewrite closed_other by done. simpl. by rewrite lookup_insert_ne, E1 by done. }
    destruct (ad_kept _ _ Ha z Hz) as [_ G4]; [done|done|]. by rewrite Ed5 in G4.
  - exists i3. split; [|done]. rewrite F1, closed_other by done. simpl. rewrite lookup_insert_ne, E1 by done. done.
Qed.

Lemma wp_filesys_remove s stack name : volume_ok s -> opens_ok s -> no_oom s -> few 2 s -> good_name name -> length stack = 20%nat ->
  wp (filesys_remove stack name) s (remove_post s name).
Proof.
  intros H Hops Hm Hf Hn Hst. assert (Hf1 : few 1 s) by (eapply few_weaken; [exact Hf|lia]).
  apply wp_bind, wp_dir_open_root; [done..|]. intros a s1 Ho.
  destruct (root_opened_ok s a s1 H Hops Hf1 Ho) as (H1 & _ & Hm1 & Hle1 & Ed1 & _ & Ef1 & i & Hi & Hir).
  pose proof (vo_core s1 H1 a i Hi) as Ed. rewrite Hir in Ed.
  assert (Hop : opened s1 a i) by (split_and!; [done|apply H1|rewrite Ed; apply (vo_header s1 H1); auto with volume]).
  apply wp_bind, wp_bind, (wp_lookup_entry s1 (mk_dir a 0) i); [done..|rewrite Ed; apply H1|done|done| |];
    rewrite Ed; fold (table (filesys_disk s1)); rewrite Ed1.
  - intros s2 Hh Hx. apply wp_ret. destruct (heap_advance s1 s2 H1 Hm1 Hh) as [H2 Hm2 Hs2 Hv2 _ _ _].
    apply wp_bind, (wp_close_root s a s1 s2); [done..|]. apply wp_ret.
    assert (Ed2 : filesys_disk s2 = filesys_disk s) by (destruct Hh as (? & ? & -> & _); done).
    assert (Hv : volume (filesys_disk s) name = None) by by apply volume_none.
    split; simpl; rewrite ?Ed2; [by apply (root_close_ok s a s1 s2)|done|destruct Hs2 as (_ & _ & -> & _); done| | |done].
    + rewrite Hv. split; [done|by intros [? ?]].
    + intros nm. case_decide; congruence.
  - intros j x s2 Hh Hj Hjx Hx Hex. rewrite Hex. pose proof (wp_remove_found s a s1 s2 name j x H Hops Hf Ho Hh Hj Hjx Hx) as Hw.
    eapply wp_mono; [exact Hw|]. intros r s6 (-> & [P1 P2 P3 P4 P5 P6] & i6 & Hi6 & Hs6 & Hc6 & Hr6).
    apply wp_bind, (wp_inode_close s6 a i6); [done..|]. apply wp_ret.
    destruct (closed_rest s6 a i6) as (G1 & _ & G3 & _ & G5). split; rewrite ?G1; [|unfold no_oom; by rewrite G5|congruence|done|done|done].
    apply (core_le_ok s6), closed_le; [done|done|by rewrite Hs6].
Qed.
