(* ===== verification/VolumeFiles.v ===== *)
(** * Files of the volume: handles, and sequences of calls

    Reading, writing and closing through a handle, and the theorems about
    the file system as a whole. *)

From S2P Require Import Prelude Vaddr Bitmap Bytes Disk Inode InodeProps File FileProps FreeMapProps InodeCreate Directory DirectoryProps FilesysOpens Volume VolumeProps VolumeRemove.

(** ** Handles *)

(** [f] is a handle of a file that is not one of the system's. *)
Definition user_file (s : fs) (f : Z) (y : file) (i : struct_inode) : Prop :=
  files s !! f = Some y /\ inodes s !! f_inode y = Some i /\ i_sector i <> FREE_MAP_SECTOR /\ i_sector i <> ROOT_DIR_SECTOR.

(** Handles may change as long as that of the free map stays. *)
Lemma files_ok s F : volume_ok s ->
  (forall f y i, files s !! f = Some y -> inodes s !! f_inode y = Some i -> i_sector i = FREE_MAP_SECTOR ->
     exists y', F !! f = Some y' /\ f_inode y' = f_inode y) -> volume_ok (set_files F s).
Proof.
  intros [] HF. split; try done. destruct vo_map as (f & a & i & [M1 (y & M2 & <-) (O1 & O2 & O3) M4 M5] & Hf & Hi).
  exists f, (f_inode y), i. split_and!; [|done|done]. split; try done. destruct (HF f y i M2 O1 Hi) as (y' & ? & ?). by exists y'.
Qed.

Lemma user_update_ok s f y i y' : volume_ok s -> user_file s f y i -> f_inode y' = f_inode y -> volume_ok (set_files (<[f := y']> (files s)) s).
Proof.
  intros H (Hy & Hi & H0 & _) E. apply files_ok; [done|]. intros g z j Hz Hj Hs. rewrite lookup_insert. case_decide; [|by exists z].
  subst g. exists y'. split; [done|]. congruence.
Qed.

Lemma user_delete_ok s f y i : volume_ok s -> user_file s f y i -> volume_ok (set_files (delete f (files s)) s).
Proof.
  intros H (Hy & Hi & H0 & _). apply files_ok; [done|]. intros g z j Hz Hj Hs. exists z. split; [|done].
  rewrite lookup_delete_ne; [done|]. intros ->. congruence.
Qed.

(** ** Writing *)

(** What a write of [n] bytes through [f] does. *)
Record write_post (s : fs) (f : Z) (y : file) (i : struct_inode) (buffer : list Z) (n : Z) (s' : fs) : Prop := {
  wr_ok : volume_ok s';
  wr_oom : no_oom s';
  wr_inodes : inodes s' = inodes s;
  wr_files : files s' = <[f := mk_file (f_inode y) (pos y + n) (deny_write y)]> (files s);
  wr_data : contents (filesys_disk s') (data i) =
    if n =? 0 then contents (filesys_disk s) (data i)
    else splice (pos y) (take (Z.to_nat n) buffer) (contents (filesys_disk s) (data i));
  wr_volume nm : volume (filesys_disk s') nm =
    if decide (sector_in (table (filesys_disk s)) nm = Some (i_sector i)) then Some (contents (filesys_disk s') (data i))
    else volume (filesys_disk s) nm;
  wr_kept x : is_header s x -> x <> FREE_MAP_SECTOR -> x <> ROOT_DIR_SECTOR -> x <> i_sector i ->
    contents (filesys_disk s') (header_at (filesys_disk s) x) = contents (filesys_disk s) (header_at (filesys_disk s) x);
}.

(** The write to the disk, before the handle moves. *)
Lemma stored_step s s' a i offset n b d' : volume_ok s -> no_oom s -> inodes s !! a = Some i ->
  i_sector i <> FREE_MAP_SECTOR -> i_sector i <> ROOT_DIR_SECTOR ->
  0 <= offset -> n = 0 \/ offset + n <= i_length (data i) -> stored (filesys_disk s) (data i) offset 0 n b d' -> heap_only (set_disk d' s) s' ->
  volume_ok s' /\ no_oom s' /\ quiet_step s (i_sector i) s' /\ table (filesys_disk s') = table (filesys_disk s).
Proof.
  intros H Hm Hi H0 H1 Ho Hn Hst Hh. assert (Hz : is_header s (i_sector i)) by eauto with volume.
  assert (Ed := vo_core s H a i Hi). rewrite Ed in *. set (h := header_at (filesys_disk s) (i_sector i)) in *.
  assert (Hout := stored_outside _ _ _ _ _ _ Ho Hn Hst). destruct Hst as (Hd' & Hc' & _).
  destruct (vo_map s H) as (mf & ma & mi & Hmf & _).
  assert (Hr : forall x, x ∉ span h -> sector d' x = sector (filesys_disk s) x).
  { intros x. apply outside_sector; [apply (header_length s H); done|apply H|done..]. }
  assert (Es : filesys_disk s' = d') by (destruct Hh as (? & ? & -> & _); done).
  assert (Hq : quiet_step s (i_sector i) s').
  { destruct Hh as (m & k & -> & Hk & Hs). split; try done; [intros x _ _ _ Hx; by apply Hr|apply Hmf|intros; by apply (vo_live s H)]. }
  destruct (table_same (filesys_disk s) (filesys_disk s')) as [Et Hsl].
  { by apply (header_kept s H s' _ Hq), root_header. }
  { apply contents_same; [apply (header_length s H), root_header|]. intros x Hx. rewrite Es. apply Hr.
    eapply (span_off s H ROOT_DIR_SECTOR); [apply root_header|done|done|done]. }
  destruct (quiet_shrink s H s' Hq) as [H' _]; [by rewrite Et|rewrite Et; apply H|apply Hsl, H|].
  split_and!; [done| |done|done]. destruct Hh as (m & k & -> & Hk & Hs). by eapply no_oom_suffix; [|exact Hm].
Qed.

Lemma write_volume s s' i nm : volume_ok s -> quiet_step s (i_sector i) s' -> table (filesys_disk s') = table (filesys_disk s) ->
  data i = header_at (filesys_disk s) (i_sector i) ->
  volume (filesys_disk s') nm =
    if decide (sector_in (table (filesys_disk s)) nm = Some (i_sector i)) then Some (contents (filesys_disk s') (data i))
    else volume (filesys_disk s) nm.
Proof.
  intros H Hq Et Ed. unfold volume. rewrite Et. destruct (sector_in (table (filesys_disk s)) nm) as [x|] eqn:E; [|by case_decide].
  simpl. case_decide as Ex.
  - injection Ex as ->. rewrite Ed. do 2 f_equal. apply header_same, (header_kept s H s' _ Hq). apply Hq.
  - f_equal. apply sector_in_elem in E. destruct (en_file _ (vo_entries s H) nm x E).
    destruct (data_kept s H s' x Hq) as [-> ->]; eauto with volume. congruence.
Qed.

Lemma wp_volume_write s f y i buffer size Q : volume_ok s -> no_oom s -> user_file s f y i -> 0 <= pos y < 2 ^ 31 ->
  0 <= size < 2 ^ 31 -> size <= length buffer ->
  let n := if deny_write_cnt i =? 0 then avail (data i) size (pos y) else 0 in
  (forall s', write_post s f y i buffer n s' -> Q n s') -> wp (file_write f buffer size) s Q.
Proof.
  intros H Hm Hu Hp Hs Hb n HQ. pose proof Hu as (Hy & Hi & H0 & H1). assert (Hz : is_header s (i_sector i)) by eauto with volume.
  pose proof (vo_core s H _ i Hi) as Ed. destruct (vo_header s H _ Hz) as [_ Hw]. rewrite <- Ed in Hw. pose proof (iw_len _ _ Hw) as Hl.
  eapply wp_bind, wp_get_file; [done|]. apply wp_bind, (wp_inode_write_at s (f_inode y) i); [split_and!; [done|apply H|done]|done|done|done| |].
  - intros Hd. assert (En : n = 0) by (unfold n; destruct (Z.eqb_spec (deny_write_cnt i) 0); done). rewrite En in HQ. apply wp_bind, wp_modify, wp_ret, HQ.
    rewrite Z.add_0_r, s32_small by (urange; lia).
    split; simpl; rewrite ?Z.add_0_r; try done; [by eapply user_update_ok|]. intros nm. rewrite Ed. case_decide as E; [|done]. unfold volume. by rewrite E.
  - intros k s1 Hd Hk Hfull (d' & Hst & Hh). assert (En : k = n).
    { unfold n. rewrite Hd. apply Hfull. unfold mem_ok. by rewrite Hm. }
    subst k. assert (Hav : 0 <= n <= avail (data i) size (pos y)) by done. unfold avail in Hav. apply wp_bind, wp_modify, wp_ret, HQ.
    destruct (stored_step s s1 (f_inode y) i (pos y) n buffer d') as (H' & Hm' & Hq & Et); [done..|lia|lia|done|done|].
    assert (Es : filesys_disk s1 = d' /\ files s1 = files s /\ inodes s1 = inodes s) by (destruct Hh as (? & ? & -> & _); done).
    destruct Es as (Es & Ef & Ei). rewrite s32_small by (urange; lia). split; simpl.
    + apply (user_update_ok s1 f y i); [done| |done]. unfold user_file. by rewrite Ef, Ei.
    + done.
    + done.
    + by rewrite Ef.
    + rewrite Es. eapply stored_contents in Hst; [exact Hst|lia..].
    + intros nm. by apply write_volume.
    + intros x Hx Hx0 Hx1 Hxz. by destruct (data_kept s H s1 x Hq).
Qed.

(** ** Reading *)

Lemma wp_volume_read s f y i buffer size Q : volume_ok s -> no_oom s -> user_file s f y i -> 0 <= pos y < 2 ^ 31 ->
  0 <= size < 2 ^ 31 -> size <= length buffer ->
  let n := avail (data i) size (pos y) in
  (forall s', volume_ok s' -> no_oom s' -> filesys_disk s' = filesys_disk s -> inodes s' = inodes s ->
     files s' = <[f := mk_file (f_inode y) (pos y + n) (deny_write y)]> (files s) ->
     Q (n, slice (pos y) n (contents (filesys_disk s) (data i)) ++ drop (Z.to_nat n) buffer) s') ->
  wp (file_read f buffer size) s Q.
Proof.
  intros H Hm Hu Hp Hs Hb n HQ. pose proof Hu as (Hy & Hi & H0 & H1). assert (Hz : is_header s (i_sector i)) by eauto with volume.
  pose proof (vo_core s H _ i Hi) as Ed. destruct (vo_header s H _ Hz) as [_ Hw]. rewrite <- Ed in Hw. pose proof (iw_len _ _ Hw) as Hl.
  eapply wp_bind, wp_get_file; [done|]. apply wp_bind, (wp_inode_read_at s (f_inode y) i); [split_and!; [done|apply H|done]|done|done|done|].
  intros k b' s1 Hh Hk Hfull Hf. assert (k = n) as -> by (apply Hfull; unfold mem_ok; by rewrite Hm).
  apply filled_contents in Hf; [|unfold n, avail in *; lia..]. subst b'.
  destruct (heap_advance s s1 H Hm Hh) as [H' Hm' _ _ _ _ _]. destruct Hh as (m & c & -> & _).
  apply wp_bind, wp_modify, wp_ret. cbn [fst]. rewrite s32_small by (unfold n, avail in *; urange; lia).
  apply HQ; try done. by apply (user_update_ok _ f y i).
Qed.

(** ** Closing *)

Record close_post (s : fs) (f : Z) (s' : fs) : Prop := {
  cl_ok : volume_ok s';
  cl_oom : no_oom s';
  cl_files : files s' = delete f (files s);
  cl_volume nm : volume (filesys_disk s') nm = volume (filesys_disk s) nm;
}.

Lemma wp_volume_allow s f y i Q : volume_ok s -> opens_ok s -> user_file s f y i ->
  (forall s' y' i', volume_ok s' -> opens_ok s' -> filesys_disk s' = filesys_disk s -> mallocs s' = mallocs s ->
     user_file s' f y' i' -> files s' = <[f := y']> (files s) -> Q tt s') -> wp (file_allow_write f) s Q.
Proof.
  intros H Hop Hu HQ. pose proof Hu as (Hy & Hi & H0 & H1). destruct (denied_range s f y i Hop Hy Hi) as (Hr & Hlt & _ & Hc).
  eapply wp_bind, wp_get_file; [done|]. destruct (deny_write y) eqn:Ed; [|apply wp_ret, (HQ s y i); [done..|by rewrite insert_id]].
  specialize (Hlt eq_refl). apply wp_bind, wp_modify. eapply wp_bind, wp_get_inode; [done|].
  apply wp_bind, wp_assert; [apply Z.ltb_lt; lia|]. apply wp_bind, wp_assert; [apply Z.leb_le; lia|]. apply wp_modify. simpl.
  rewrite s32_small by (urange; lia). set (y' := mk_file _ _ _). set (i' := mk_inode _ _ _ _ _).
  eapply (HQ _ y' i'); try done.
  - apply (update_ok (set_files (<[f := y']> (files s)) s) (f_inode y) i i'); try done; [by apply (user_update_ok s f y i)| |by right].
    exact (vo_removed s H (f_inode y) i Hi).
  - by apply (file_deny_ok s f y i false).
  - split_and!; simpl; [by rewrite lookup_insert_eq|by rewrite lookup_insert_eq|done|done].
Qed.

Lemma wp_volume_file_close s f y i : volume_ok s -> opens_ok s -> no_oom s -> user_file s f y i -> wp (file_close (Some f)) s (fun _ => close_post s f).
Proof.
  intros H Hop Hm Hu. apply wp_bind, (wp_volume_allow s f y i); [done..|]. intros s1 y1 i1 H1 Hop1 Ed1 Em1 Hu1 Ef1.
  pose proof Hu1 as (Hy1 & Hi1 & H10 & H11). eapply wp_bind, wp_get_file; [done|].
  apply wp_bind, (wp_volume_close s1 (f_inode y1) i1); [done|done|unfold no_oom; by rewrite Em1|done|done|]. intros s2 Ha.
  apply wp_modify. destruct (closed_rest s1 (f_inode y1) i1) as (G1 & _ & G3 & _). pose proof (ad_opens _ _ Ha) as (F1 & _ & F3 & _).
  rewrite G3, Ef1 in F3. split; simpl.
  - apply files_ok; [apply Ha|]. intros g z j Hz Hj Hs. exists z. split; [|done]. rewrite lookup_delete_ne; [done|]. intros ->.
    rewrite F3, lookup_insert_eq in Hz. injection Hz as <-. rewrite F1 in Hj. unfold closed in Hj. destruct (_ =? 1); simpl in Hj.
    + by rewrite lookup_delete_eq in Hj.
    + rewrite lookup_insert_eq in Hj. by injection Hj as <-.
  - apply Ha.
  - by rewrite F3, delete_insert_eq.
  - intros nm. rewrite (ad_volume _ _ Ha), G1. by rewrite Ed1.
Qed.
