(* ===== verification/Frame.v ===== *)
(** * Frames and page faults: vm/frame.c, userprog/exception.c

    The frame table is the list of the user pages in memory, in the order of
    their allocation, with a clock hand for replacement.  A frame structure
    lives at an address of the heap; the hand is the head or the tail of the
    list or the element of a frame, which may have been freed: an access
    through such a hand faults.

    The state is that of the whole virtual memory: the frame table, the page
    directories and page allocator (Pagedir.v), the bytes of the user pages,
    the processes with their supplemental page tables (Page.v), swap (Swap.v)
    and the file system (File.v).  [frame_lock] and [page_sema] are held for
    the whole of each operation; a call is one step.  [frame_heap] says which
    of the following calls of [malloc] fail, as in Inode.v. *)

From S2P Require Import Prelude Vaddr PageAlloc Segments Pagedir Hash Page Swap Inode File.

(** [struct frame]. *)
Record frame := mk_frame { f_t : Z; user_page : Z; PTE : Z; virtual_address : Z; loaded : bool }.

(** A pointer to an element of the frame list. *)
Inductive position := Head | Tail | At (a : Z).
#[export] Instance position_eq_dec : EqDecision position.
Proof. solve_decision. Defined.

(** The part of [struct thread] used here. *)
Record process := mk_process { pagedir : Z; sup : lazy }.

Record mach (P : Type) := mk_mach {
  frame_list : list Z; frames : gmap Z frame; hand : position;
  frame_heap : list bool; next_frame : Z;
  vms : vm P; umem : gmap Z (list Z); procs : gmap Z process; swp : swap; fsys : fs
}.
Arguments mk_mach {P}.
Arguments frame_list {P}.
Arguments frames {P}.
Arguments hand {P}.
Arguments frame_heap {P}.
Arguments next_frame {P}.
Arguments vms {P}.
Arguments umem {P}.
Arguments procs {P}.
Arguments swp {P}.
Arguments fsys {P}.

(** The element behind that of frame [a]. *)
Fixpoint after (a : Z) (l : list Z) : option position :=
  match l with
  | [] => None
  | x :: l => if x =? a then Some (match l with [] => Tail | y :: _ => At y end) else after a l
  end.
Definition first (l : list Z) : position := match l with [] => Tail | y :: _ => At y end.

(** The bytes of a page that is in use. *)
Definition zero_bytes : list Z := replicate 4096 0.
Definition page_bytes (m : gmap Z (list Z)) (kpage : Z) : list Z := default [] (m !! kpage).

Section Frame.
Context {P : Type} `{UserPages P} (base_page_dir ram_pages : Z).
(** The outcomes of the allocations in [rehash] and in swap.c, what a new
    frame structure holds, and what a page that was free holds. *)
Context (hmem smem : bool) (junk : Z) (stale : Z -> list Z).
Implicit Types m : mach P.

Definition set_table (l : list Z) (f : gmap Z frame) (h : position) m : mach P :=
  mk_mach l f h (frame_heap m) (next_frame m) (vms m) (umem m) (procs m) (swp m) (fsys m).
Definition set_hand (h : position) m : mach P := set_table (frame_list m) (frames m) h m.
Definition set_vms (v : vm P) m : mach P :=
  mk_mach (frame_list m) (frames m) (hand m) (frame_heap m) (next_frame m) v (umem m) (procs m) (swp m) (fsys m).
Definition set_umem (u : gmap Z (list Z)) m : mach P :=
  mk_mach (frame_list m) (frames m) (hand m) (frame_heap m) (next_frame m) (vms m) u (procs m) (swp m) (fsys m).
Definition set_procs (p : gmap Z process) m : mach P :=
  mk_mach (frame_list m) (frames m) (hand m) (frame_heap m) (next_frame m) (vms m) (umem m) p (swp m) (fsys m).
Definition set_swp (s : swap) m : mach P :=
  mk_mach (frame_list m) (frames m) (hand m) (frame_heap m) (next_frame m) (vms m) (umem m) (procs m) s (fsys m).
Definition set_fsys (s : fs) m : mach P :=
  mk_mach (frame_list m) (frames m) (hand m) (frame_heap m) (next_frame m) (vms m) (umem m) (procs m) (swp m) s.

(** Running an operation of another component. *)
Definition zoom {S A} (get : mach P -> S) (set : S -> mach P -> mach P) (c : ST S A) : ST (mach P) A := fun m =>
  match c (get m) with
  | Ret (a, s) => Ret (a, set s m)
  | Panic => Panic
  | OutOfFuel => OutOfFuel
  end.
Definition on_vm {A} : ST (vm P) A -> ST (mach P) A := zoom vms set_vms.
Definition on_swap {A} : ST swap A -> ST (mach P) A := zoom swp set_swp.
Definition on_files {A} : ST fs A -> ST (mach P) A := zoom fsys set_fsys.

Definition get_frame (a : Z) : ST (mach P) frame := fun m =>
  match frames m !! a with Some f => Ret (f, m) | None => Panic end.
Definition put_frame (a : Z) (f : frame) : ST (mach P) unit :=
  modify (fun m => set_table (frame_list m) (<[a := f]> (frames m)) (hand m) m).
Definition get_process (t : Z) : ST (mach P) process := fun m =>
  match procs m !! t with Some p => Ret (p, m) | None => Panic end.
Definition on_sup {A} (t : Z) (c : ST lazy A) : ST (mach P) A :=
  p ← get_process t;
  zoom (fun _ => sup p) (fun l m => set_procs (<[t := mk_process (pagedir p) l]> (procs m)) m) c.

(** ** vm/frame.c *)

Definition ft_init : ST (mach P) unit := modify (fun m => set_table [] (frames m) Head m).

(** [list_next]; the tail has no successor, a freed element faults. *)
Definition list_next (h : position) : ST (mach P) position :=
  m ← gets id;
  match h with
  | Head => mret (first (frame_list m))
  | At a => match after a (frame_list m) with Some p => mret p | None => panic end
  | Tail => panic
  end.

Definition check_and_set_hand : ST (mach P) unit :=
  m ← gets id;
  (if decide (hand m = Head) then h ← list_next Head; modify (set_hand h) else mret tt);;
  m ← gets id;
  if decide (hand m = Tail) then modify (set_hand (first (frame_list m))) else mret tt.

(** [hand = list_next (hand); check_and_set_hand ();] *)
Definition advance_hand : ST (mach P) unit :=
  m ← gets id;
  h ← list_next (hand m);
  modify (set_hand h);;
  check_and_set_hand.

(** [list_entry (hand, struct frame, ft_elem)]: the address of the frame. *)
Definition hand_frame : ST (mach P) Z :=
  m ← gets id;
  match hand m with At a => mret a | _ => panic end.

Definition is_frame (f : frame) : bool :=
  negb (Z.land (virtual_address f) 0xfffff000 =? 0xccccc000) && negb (Z.land (PTE f) 0xfffff000 =? 0xccccc000).

(** The condition of the loop of [get_frame_for_replacement]. *)
Definition second_chance (f : frame) : ST (mach P) bool :=
  if loaded f then e ← on_vm (get_word (PTE f)); mret (negb (Z.land e PTE_A =? 0)) else mret true.

Fixpoint replacement_loop (fuel : nat) : ST (mach P) Z :=
  match fuel with
  | O => no_fuel
  | S fuel =>
    a ← hand_frame;
    f ← get_frame a;
    c ← second_chance f;
    if c : bool then
      when (loaded f) (
        p ← get_process (f_t f);
        on_vm (pagedir_set_accessed base_page_dir (pagedir p) (virtual_address f) false));;
      advance_hand;;
      replacement_loop fuel
    else mret a
  end.

(** Two rounds are enough if a frame is loaded. *)
Definition get_frame_for_replacement : ST (mach P) Z :=
  check_and_set_hand;;
  m ← gets id;
  replacement_loop (S (2 * length (frame_list m))).

(** [if (hand == &f->ft_elem) { hand = list_next (hand); check_and_set_hand (); }] *)
Definition move_hand_off (a : Z) : ST (mach P) unit :=
  m ← gets id;
  if decide (hand m = At a) then advance_hand else mret tt.

(** [list_remove (&f->ft_elem); free (f);] *)
Definition drop_frame (a : Z) : ST (mach P) unit :=
  modify (fun m => set_table (filter (fun x => x <> a) (frame_list m)) (delete a (frames m)) (hand m) m).

(** Saving the victim: a dirty page goes to its file or to swap. *)
Definition save_page (f : frame) (dirty : bool) (evicted_page : option special_page_elem) : ST (mach P) unit :=
  m ← gets id;
  let bytes := page_bytes (umem m) (user_page f) in
  if dirty then
    match evicted_page with
    | Some (file_page _ source_file offset zero_after) =>
      on_files (file_write_at source_file bytes zero_after (s32 offset));; mret tt
    | _ =>
      ss ← on_swap (swap_slot_write smem (Some bytes));
      match ss with
      | None => panic
      | Some ss =>
        match evicted_page with
        | Some e => on_sup (f_t f) (delete_lazy_page hmem e);; mret tt
        | None => mret tt
        end;;
        on_sup (f_t f) (e ← new_swap_page (virtual_address f) ss dirty evicted_page; add_lazy_page hmem e);;
        mret tt
      end
    end
  else mret tt.

Definition ft_replacement : ST (mach P) Z :=
  m ← gets id;
  ASSERT (bool_decide (frame_list m <> []));;
  a ← get_frame_for_replacement;
  f ← get_frame a;
  ASSERT (is_frame f);;
  e ← on_vm (get_word (PTE f));
  let dirty := negb (Z.land e PTE_D =? 0) in
  evicted_page ← on_sup (f_t f) (find_lazy_page (virtual_address f));
  p ← get_process (f_t f);
  on_vm (pagedir_clear_page base_page_dir (pagedir p) (virtual_address f));;
  save_page f dirty evicted_page;;
  move_hand_off a;;
  drop_frame a;;
  advance_hand;;
  mret (user_page f).

(** [malloc (sizeof (struct frame))], written through without a check. *)
Definition new_frame (f : frame) : ST (mach P) Z :=
  m ← gets id;
  match frame_heap m with
  | false :: _ => panic
  | _ =>
    let a := next_frame m in
    modify (fun m => mk_mach (frame_list m ++ [a]) (<[a := f]> (frames m)) (hand m) (tail (frame_heap m)) (a + 1)
      (vms m) (umem m) (procs m) (swp m) (fsys m));;
    mret a
  end.

(** [palloc_get_page (PAL_USER)], with [PAL_ZERO] or without. *)
Definition get_page_user (zero : bool) : ST (mach P) Z :=
  a ← on_vm (on_pal (get_user_page zero));
  when (negb (a =? 0)) (modify (fun m => set_umem (<[a := if zero then zero_bytes else stale a]> (umem m)) m));;
  mret a.

(** The result is the address of the new frame, [None] for null; [cur] is the
    running thread. *)
Definition ft_get_page (cur : Z) (zero : bool) : ST (mach P) (option Z) :=
  page ← get_page_user zero;
  page ← (if page =? 0 then ft_replacement else mret page);
  if page =? 0 then mret None
  else a ← new_frame (mk_frame cur page junk junk false); mret (Some a).

(** The loop over the list: the first frame of the thread with the page. *)
Fixpoint free_frame_loop (cur page : Z) (l : list Z) : ST (mach P) unit :=
  match l with
  | [] => mret tt
  | a :: l =>
    f ← get_frame a;
    if (user_page f =? page) && (f_t f =? cur) then move_hand_off a;; drop_frame a
    else free_frame_loop cur page l
  end.

Definition ft_free_page (cur page : Z) : ST (mach P) unit :=
  m ← gets id;
  free_frame_loop cur page (frame_list m);;
  modify (fun m => set_umem (delete page (umem m)) m);;
  on_vm (on_pal (free_page page)).

(** [elem = list_next (elem)] after [list_remove (elem)] goes to what followed
    it, so the loop visits the elements the list had at the start. *)
Fixpoint destroy_loop (t : Z) (l : list Z) : ST (mach P) unit :=
  match l with
  | [] => mret tt
  | a :: l =>
    f ← get_frame a;
    (if f_t f =? t then move_hand_off a;; drop_frame a else mret tt);;
    destroy_loop t l
  end.

Definition ft_destroy (t : Z) : ST (mach P) unit := m ← gets id; destroy_loop t (frame_list m).

(** ** userprog/exception.c *)

Definition is_stack_access (address esp : Z) : bool :=
  (address <? PHYS_BASE) && (STACK_BOTTOM <? address) && (esp <=? address +u 32).

(** How a fault ends: the access is tried again, the process ends with
    status -1, or a system call that touched user memory goes on at the
    address in [eax] with -1 in [eax]. *)
Inductive fault_result := Resumed | Killed | SyscallFailed.

(** The bytes of a page read from a file; [None] when the file is too short. *)
Definition read_page (kpage file offset zero_after : Z) : ST (mach P) bool :=
  on_files (file_seek file (s32 offset));;
  m ← gets id;
  r ← on_files (file_read file (page_bytes (umem m) kpage) (s32 zero_after));
  if r.1 =? s32 zero_after then
    modify (fun m => set_umem (<[kpage := take (Z.to_nat zero_after) r.2 ++ replicate (Z.to_nat (PGSIZE - zero_after)) 0]> (umem m)) m);;
    mret true
  else modify (fun m => set_umem (<[kpage := r.2]> (umem m)) m);; mret false.

(** Filling the new frame: [None] if that failed, else whether the page is
    writable and whether it is dirty. *)
Definition load_page (cur kpage : Z) (gen_page : option special_page_elem) : ST (mach P) (option (bool * bool)) :=
  match gen_page with
  | Some (exec_page _ file offset zero_after writable) =>
    r ← read_page kpage file offset zero_after;
    mret (if r : bool then Some (writable, false) else None)
  | Some (file_page _ file offset zero_after) =>
    r ← read_page kpage file offset zero_after;
    mret (if r : bool then Some (true, false) else None)
  | Some (swap_page v slot dirty evicted_page) =>
    b ← on_swap (swap_slot_read smem true slot);
    modify (fun m => set_umem (<[kpage := default [] b]> (umem m)) m);;
    on_sup cur (delete_lazy_page hmem (swap_page v slot dirty evicted_page));;
    match evicted_page with
    | Some e => on_sup cur (add_lazy_page hmem e);; mret tt
    | None => mret tt
    end;;
    mret (Some (true, dirty))
  | Some (zero_page _) =>
    modify (fun m => set_umem (<[kpage := zero_bytes]> (umem m)) m);;
    mret (Some (true, false))
  | None => mret (Some (true, false))
  end.

(** [install_page] for the frame at [a], and what follows it in [page_fault]
    and [setup_stack]. *)
Definition install_frame (cur upage a : Z) (writable dirty : bool) : ST (mach P) bool :=
  f ← get_frame a;
  p ← get_process cur;
  r ← on_vm (install_page base_page_dir ram_pages (pagedir p) upage (user_page f) writable);
  match r.2 with Some pte => put_frame a (mk_frame (f_t f) (user_page f) pte (virtual_address f) (loaded f)) | None => mret tt end;;
  if r.1 : bool then
    when dirty (on_vm (pagedir_set_dirty base_page_dir (pagedir p) upage true));;
    f ← get_frame a;
    put_frame a (mk_frame (f_t f) (user_page f) (PTE f) upage true);;
    mret true
  else
    ft_free_page cur (user_page f);;
    mret false.

(** [cr2] is the faulting address, [cs] and [esp] come from the interrupt
    frame, [t_esp] and [in_syscall] from the thread. *)
Definition page_fault (cur cr2 cs f_esp t_esp : Z) (in_syscall : bool) : ST (mach P) fault_result :=
  let fault_page := Z.land 0xfffff000 cr2 in
  let esp := if cs =? SEL_KCSEG then t_esp else f_esp in
  gen_page ← on_sup cur (find_lazy_page fault_page);
  let stack_access := is_stack_access cr2 esp in
  if bool_decide (gen_page = None) && negb stack_access then
    if cs =? SEL_KCSEG then ASSERT in_syscall;; mret SyscallFailed else mret Killed
  else
    frame ← ft_get_page cur false;
    match frame with
    | None => mret Killed
    | Some a =>
      f ← get_frame a;
      r ← load_page cur (user_page f) gen_page;
      match r with
      | None => ft_free_page cur (user_page f);; mret Killed
      | Some (writable, dirty) =>
        ok ← install_frame cur fault_page a writable dirty;
        mret (if ok : bool then Resumed else Killed)
      end
    end.

(** [kill]: exceptions other than page faults. *)
Definition kill (cs : Z) : ST (mach P) fault_result :=
  if cs =? SEL_UCSEG then mret Killed else if cs =? SEL_KCSEG then panic else mret Killed.

(** ** userprog/process.c *)

(** [setup_stack]: the initial stack pointer, [None] on failure. *)
Definition setup_stack (cur : Z) : ST (mach P) (option Z) :=
  frame ← ft_get_page cur true;
  match frame with
  | None => mret None
  | Some a =>
    ok ← install_frame cur (PHYS_BASE - PGSIZE) a true false;
    mret (if ok : bool then Some PHYS_BASE else None)
  end.

(** [process_exit]: the thread has no page directory afterwards. *)
Definition process_exit (cur : Z) : ST (mach P) unit :=
  p ← get_process cur;
  if pagedir p =? 0 then mret tt
  else
    ft_destroy cur;;
    modify (fun m => set_procs (<[cur := mk_process 0 (sup p)]> (procs m)) m);;
    on_vm (pagedir_activate base_page_dir 0);;
    on_vm (pagedir_destroy base_page_dir (pagedir p)).
End Frame.
