(* ===== verification/FrameProps.v ===== *)
(** * Correctness of the clock

    The frame table and the page tables agree; the second-chance loop of
    vm/frame.c ends and chooses the victim that the clock algorithm defines. *)

From S2P Require Import Prelude Vaddr PageAlloc Pagedir PagedirProps Spaces Hash HashProps Page PageProps Swap Inode File Frame.

(** ** Flags of an entry *)

Definition clear (flag e : Z) : Z := Z.land e (unot flag).
Definition accessed (e : Z) : bool := negb (Z.land e PTE_A =? 0).
Definition dirty (e : Z) : bool := negb (Z.land e PTE_D =? 0).

Lemma clear_other flag bits e : Z.land (unot flag) bits = bits -> Z.land (clear flag e) bits = Z.land e bits.
Proof. intros E. unfold clear. by rewrite <- Z.land_assoc, E. Qed.

Lemma clear_accessed e :
  accessed (clear PTE_A e) = false /\ dirty (clear PTE_A e) = dirty e /\ present (clear PTE_A e) = present e /\
  page_of_entry (clear PTE_A e) = page_of_entry e /\ clear PTE_A (clear PTE_A e) = clear PTE_A e.
Proof.
  unfold accessed, dirty, present, page_of_entry. rewrite (clear_other PTE_A PTE_D), (clear_other PTE_A PTE_P), (clear_other PTE_A PTE_ADDR) by (vm_compute; reflexivity).
  split_and!; try done; unfold clear; rewrite <- Z.land_assoc; [|by change (Z.land (unot PTE_A) (unot PTE_A)) with (unot PTE_A)].
  change (Z.land (unot PTE_A) PTE_A) with 0. by rewrite Z.land_0_r.
Qed.

Section Clock.
Context {P : Type} `{UserPages P} (base_page_dir : Z).
Implicit Types (m : mach P) (pds : gset Z).

Lemma zoom_run {S A} (get : mach P -> S) set (c : ST S A) m a s : c (get m) = Ret (a, s) -> zoom get set c m = Ret (a, set s m).
Proof. intros E. unfold zoom. by rewrite E. Qed.

Lemma wp_zoom {S A} (get : mach P -> S) set (c : ST S A) m Q : wp c (get m) (fun a s => Q a (set s m)) -> wp (zoom get set c) m Q.
Proof. unfold wp, zoom. by destruct (c (get m)) as [[]| |]. Qed.

(** ** The frame table and the page tables *)

(** The page table entry of a frame's page. *)
Definition frame_entry m (f : frame) : Z :=
  match procs m !! f_t f with
  | Some p => entry (words (vms m)) (pagedir p) (virtual_address f)
  | None => 0
  end.

(** A loaded frame is mapped where it says, and knows its entry. *)
Definition mapped m pds (f : frame) : Prop := exists p,
  procs m !! f_t f = Some p /\ pagedir p ∈ pds /\ 0 <= virtual_address f < PHYS_BASE /\ virtual_address f mod PGSIZE = 0 /\
  present (frame_entry m f) = true /\ page_of_entry (frame_entry m f) = user_page f /\
  PTE f = pte_addr (words (vms m)) (pagedir p) (virtual_address f).

Record frames_ok m pds : Prop := {
  fo_nodup : NoDup (frame_list m);
  fo_dom a : a ∈ frame_list m <-> is_Some (frames m !! a);
  fo_hand a : hand m = At a -> a ∈ frame_list m;
  fo_spaces : spaces_ok (vms m) pds;
  fo_loaded a f : frames m !! a = Some f -> loaded f = true -> mapped m pds f;
  fo_distinct a b f g : frames m !! a = Some f -> frames m !! b = Some g -> loaded f = true -> loaded g = true ->
    f_t f = f_t g -> virtual_address f = virtual_address g -> a = b;
  fo_dirs t t' p p' : procs m !! t = Some p -> procs m !! t' = Some p' -> pagedir p = pagedir p' -> pagedir p <> 0 -> t = t';
}.

(** Whether the clock passes over a frame. *)
Definition skips m (a : Z) : bool :=
  match frames m !! a with
  | Some f => negb (loaded f) || accessed (frame_entry m f)
  | None => true
  end.

Lemma mapped_table m pds f p : mapped m pds f -> procs m !! f_t f = Some p -> dir_entry (words (vms m)) (pagedir p) (virtual_address f) <> 0.
Proof.
  intros (p' & Ep & _ & _ & _ & Hp & _) Ep' E. rewrite Ep in Ep'. injection Ep' as ->. unfold frame_entry in Hp. rewrite Ep in Hp.
  by rewrite entry_no_table in Hp.
Qed.

Lemma read_frame_pte m pds f : frames_ok m pds -> mapped m pds f ->
  on_vm (get_word (PTE f)) m = Ret (frame_entry m f, m) /\ is_u32 (frame_entry m f).
Proof.
  intros Hok Hm. pose proof Hm as (p & Ep & Hpd & Hva & _ & _ & _ & HP).
  destruct (read_pte _ pds (pagedir p) (virtual_address f) (fo_spaces _ _ Hok) Hpd Hva (mapped_table _ _ _ _ Hm Ep)) as [Eg Hu].
  unfold frame_entry. rewrite Ep. split; [|done]. unfold on_vm. rewrite HP.
  erewrite zoom_run by exact Eg. by destruct m.
Qed.

Lemma second_chance_run m pds a f : frames_ok m pds -> frames m !! a = Some f -> second_chance f m = Ret (skips m a, m).
Proof.
  intros Hok Ef. unfold second_chance, skips. rewrite Ef. destruct (loaded f) eqn:El; [|done].
  destruct (read_frame_pte m pds f Hok) as [E _]; [by eapply fo_loaded|]. by rewrite (bind_run _ _ _ _ m) by exact E.
Qed.

(** ** Ageing: accessed bits are cleared *)

Record aged pds (ys : list Z) m m' : Prop := {
  ag_state : exists h v, m' = set_hand h (set_vms v m);
  ag_spaces : spaces_ok (vms m') pds;
  ag_tables : tables_stay pds (words (vms m)) (words (vms m'));
  ag_pal : pal (vms m') = pal (vms m);
  ag_entries pd va : pd ∈ pds -> 0 <= va < PHYS_BASE -> let e := entry (words (vms m)) pd va in
    entry (words (vms m')) pd va = e \/ entry (words (vms m')) pd va = clear PTE_A e;
  ag_frames a f : frames m !! a = Some f -> loaded f = true ->
    frame_entry m' f = if decide (a ∈ ys) then clear PTE_A (frame_entry m f) else frame_entry m f;
}.

Lemma aged_none pds m h : spaces_ok (vms m) pds -> aged pds [] m (set_hand h m).
Proof. intros Hs. split; try done; [exists h, (vms m); by destruct m|by left]. Qed.

Lemma aged_fields pds ys m m' : aged pds ys m m' ->
  frame_list m' = frame_list m /\ frames m' = frames m /\ procs m' = procs m /\ umem m' = umem m /\ swp m' = swp m /\ fsys m' = fsys m /\
  frame_heap m' = frame_heap m /\ next_frame m' = next_frame m.
Proof. intros [(h & v & ->) _ _ _ _ _]. by destruct m. Qed.

Lemma aged_trans pds ys zs m1 m2 m3 : aged pds ys m1 m2 -> aged pds zs m2 m3 -> aged pds (ys ++ zs) m1 m3.
Proof.
  intros H1 H2. pose proof (aged_fields _ _ _ _ H1) as (_ & Ef & _). destruct H1 as [(h & v & E1) S1 T1 P1 N1 F1], H2 as [(h' & v' & E2) S2 T2 P2 N2 F2].
  split; [|done| |congruence| |].
  - exists h', v'. rewrite E2, E1. by destruct m1.
  - intros pd va Hpd Hva Hd. rewrite T2; [by apply T1|done|done|]. by rewrite T1.
  - intros pd va Hpd Hva. simpl. destruct (clear_accessed (entry (words (vms m1)) pd va)) as (_ & _ & _ & _ & Ei).
    destruct (N1 pd va Hpd Hva) as [N1'|N1'], (N2 pd va Hpd Hva) as [N2'|N2']; rewrite N2', N1'; auto.
  - intros a f Ha Hl. rewrite (F2 a f), (F1 a f) by (done || by rewrite Ef).
    destruct (clear_accessed (frame_entry m1 f)) as (_ & _ & _ & _ & Ei).
    repeat case_decide; rewrite ?elem_of_app in *; try done; try tauto.
Qed.

Lemma aged_mapped pds ys m m' a f : aged pds ys m m' -> frames m !! a = Some f -> loaded f = true -> mapped m pds f -> mapped m' pds f.
Proof.
  intros Ha Ef El Hm. pose proof Hm as (p & Ep & Hpd & Hva & Hal & Hpr & Hpg & HP). pose proof (aged_fields _ _ _ _ Ha) as (_ & _ & Epr & _).
  exists p. rewrite Epr. destruct (clear_accessed (frame_entry m f)) as (_ & _ & E1 & E2 & _).
  split_and!; [done|done|lia|lia|done| | |].
  - rewrite (ag_frames _ _ _ _ Ha a f Ef El). case_decide; [by rewrite E1|done].
  - rewrite (ag_frames _ _ _ _ Ha a f Ef El). case_decide; [by rewrite E2|done].
  - rewrite HP. unfold pte_addr. by rewrite (ag_tables _ _ _ _ Ha) by (done || by eapply mapped_table).
Qed.

Lemma aged_ok pds ys m m' : frames_ok m pds -> aged pds ys m m' -> (forall a, hand m' = At a -> a ∈ frame_list m) -> frames_ok m' pds.
Proof.
  intros Hok Ha Hh. pose proof (aged_fields _ _ _ _ Ha) as (El & Ef & Ep & _). destruct Hok as [H1 H2 H3 H4 H5 H6 H7].
  split; rewrite ?El, ?Ef, ?Ep; try done; [apply Ha|]. intros a f Hf Hl. eapply aged_mapped; eauto.
Qed.

Lemma aged_skips pds ys m m' a : aged pds ys m m' -> a ∉ ys -> skips m' a = skips m a.
Proof.
  intros Ha Hn. pose proof (aged_fields _ _ _ _ Ha) as (_ & Ef & _). unfold skips. rewrite Ef.
  destruct (frames m !! a) as [f|] eqn:E; [|done]. destruct (loaded f) eqn:El; [|done].
  by rewrite (ag_frames _ _ _ _ Ha a f E El), decide_False.
Qed.

Lemma aged_loaded pds ys m m' a f : aged pds ys m m' -> a ∈ ys -> frames m !! a = Some f -> skips m' a = negb (loaded f).
Proof.
  intros Ha Hin Ef. pose proof (aged_fields _ _ _ _ Ha) as (_ & E & _). unfold skips. rewrite E, Ef.
  destruct (loaded f) eqn:El; [|done]. rewrite (ag_frames _ _ _ _ Ha a f Ef El), decide_True by done.
  by destruct (clear_accessed (frame_entry m f)) as (-> & _).
Qed.

(** ** The order of the clock *)

(** The frames in the order in which the hand, at the first one, meets them. *)
Definition clock m (rot : list Z) : Prop := exists pre x post,
  frame_list m = pre ++ x :: post /\ hand m = At x /\ rot = x :: post ++ pre.

Lemma after_split a pre post : a ∉ pre -> after a (pre ++ a :: post) = Some (first post).
Proof.
  induction pre as [|y pre IH]; simpl; intros Hn; [by rewrite Z.eqb_refl|].
  destruct (Z.eqb_spec y a); [set_solver|]. apply IH. set_solver.
Qed.

Lemma clock_perm m rot : clock m rot -> rot ≡ₚ frame_list m.
Proof. intros (pre & x & post & -> & _ & ->). by rewrite (Permutation_app_comm pre). Qed.

Lemma advance_run m x r : NoDup (frame_list m) -> clock m (x :: r) ->
  exists h, advance_hand m = Ret (tt, set_hand h m) /\ clock (set_hand h m) (r ++ [x]).
Proof.
  intros Hnd (pre & x' & post & El & Eh & [= <- ->]). rewrite El in Hnd. apply NoDup_app in Hnd as (_ & Hnd & _).
  assert (Hx : x ∉ pre) by (intros Hin; by apply (Hnd x Hin); left).
  assert (Enext : list_next (hand m) m = Ret (first post, m)).
  { unfold list_next. rewrite (bind_run _ _ _ m m) by done. rewrite Eh, El, after_split by done. done. }
  unfold advance_hand. rewrite (bind_run _ _ _ m m) by done. rewrite (bind_run _ _ _ _ m) by exact Enext.
  rewrite (bind_run _ _ _ tt (set_hand (first post) m)) by done. unfold check_and_set_hand.
  rewrite (bind_run _ _ _ (set_hand (first post) m) (set_hand (first post) m)) by done.
  rewrite (bind_run _ _ _ tt (set_hand (first post) m)) by (by destruct post).
  rewrite (bind_run _ _ _ (set_hand (first post) m) (set_hand (first post) m)) by done.
  destruct post as [|y post].
  - exists (first (frame_list m)). split; [done|]. simpl. destruct pre as [|z pre].
    + exists [], x, []. split_and!; [exact El|simpl; by rewrite El|done].
    + exists [], z, (pre ++ [x]). split_and!; [exact El|simpl; by rewrite El|by rewrite app_nil_r].
  - exists (At y). split; [done|]. exists (pre ++ [x]), y, post. split_and!; [simpl; by rewrite El, <- app_assoc|done|by rewrite <- app_assoc].
Qed.

(** Clearing the accessed bit of a loaded frame. *)
Lemma clear_bit_run m pds a f : frames_ok m pds -> frames m !! a = Some f -> loaded f = true ->
  exists m1, (p ← get_process (f_t f); on_vm (pagedir_set_accessed base_page_dir (pagedir p) (virtual_address f) false)) m = Ret (tt, m1) /\
    aged pds [a] m m1 /\ hand m1 = hand m.
Proof.
  intros Hok Ef El. pose proof (fo_loaded _ _ Hok a f Ef El) as Hm. pose proof Hm as (p & Ep & Hpd & Hva & Hal & _).
  destruct (set_flag_entry base_page_dir (vms m) pds PTE_A (pagedir p) (virtual_address f) false (fo_spaces _ _ Hok) Hpd Hva
    (mapped_table _ _ _ _ Hm Ep)) as (v & E & [S1 S2 S3 S4 S5]); [done|].
  exists (set_vms v m). split; [|split; [|done]].
  - rewrite (bind_run _ _ _ p m) by (unfold get_process; by rewrite Ep). apply zoom_run, E.
  - split; simpl; try done.
    + exists (hand m), v. by destruct m.
    + intros pd va Hin Hr. rewrite (S2 pd va Hin Hr). case_decide as Hc; [|by left]. right. destruct Hc as [-> Hc].
      unfold clear. f_equal. unfold entry, dir_entry. apply same_page in Hc as [-> ->]; done.
    + intros b g Hg Hlg. pose proof (fo_loaded _ _ Hok b g Hg Hlg) as (q & Eq & Hqd & Hvg & Halg & _).
      unfold frame_entry. simpl. rewrite Eq. rewrite (S2 (pagedir q) (virtual_address g) Hqd Hvg).
      destruct (decide (b = a)) as [->|Hne].
      * rewrite Hg in Ef. injection Ef as ->. rewrite Ep in Eq. injection Eq as ->. by rewrite !decide_True by (done || set_solver).
      * rewrite decide_False, decide_False; [done|set_solver|]. intros [Ed Ev]. apply Hne.
        eapply (fo_distinct _ _ Hok b a g f); [done..| |].
        -- apply (fo_dirs _ _ Hok _ _ q p Eq Ep Ed). pose proof (spaces_page _ _ _ (fo_spaces _ _ Hok) Hqd) as [Hk _]. unfold PHYS_BASE in Hk. lia.
        -- rewrite PGSIZE_eq in *. Z.to_euclidean_division_equations. lia.
Qed.

(** The loop passes over frames that are not loaded or were accessed. *)
Lemma loop_skip pds ys m zs fuel : frames_ok m pds -> clock m (ys ++ zs) -> Forall (fun a => skips m a = true) ys ->
  exists m', replacement_loop base_page_dir (length ys + fuel) m = replacement_loop base_page_dir fuel m' /\
    clock m' (zs ++ ys) /\ aged pds ys m m' /\ frames_ok m' pds.
Proof.
  revert m zs. induction ys as [|x ys IH]; intros m zs Hok Hc Hall.
  { exists m. rewrite app_nil_r. split_and!; [done|done| |done]. destruct (aged_none pds m (hand m) (fo_spaces _ _ Hok)).
    split; try done. exists (hand m), (vms m). by destruct m. }
  apply Forall_cons in Hall as [Hx Hall]. pose proof (fo_nodup _ _ Hok) as Hnd.
  assert (Hin : x ∈ frame_list m) by (rewrite <- (clock_perm _ _ Hc); left).
  pose proof Hc as (pre & x' & post & El & Eh & [= <- Erest]). apply (fo_dom _ _ Hok) in Hin as [f Ef].
  assert (Hstep : exists m1, (when (loaded f) (p ← get_process (f_t f); on_vm (pagedir_set_accessed base_page_dir (pagedir p) (virtual_address f) false))) m = Ret (tt, m1) /\
    aged pds [x] m m1 /\ hand m1 = hand m).
  { destruct (loaded f) eqn:Elf; [by eapply clear_bit_run|]. exists m. split_and!; [done| |done]. destruct (aged_none pds m (hand m) (fo_spaces _ _ Hok)).
    split; try done; [exists (hand m), (vms m); by destruct m|]. intros a g Hg Hlg. rewrite decide_False; [done|].
    intros ->%list_elem_of_singleton. congruence. }
  destruct Hstep as (m1 & E1 & Ha1 & Eh1). pose proof (aged_fields _ _ _ _ Ha1) as (El1 & _).
  destruct (advance_run m1 x (ys ++ zs)) as (h & E2 & Hc2); [by rewrite El1|exists pre, x, post; rewrite El1, Eh1; by rewrite Erest|].
  assert (Ha2 : aged pds [x] m (set_hand h m1)).
  { rewrite <- (app_nil_r [x]). eapply aged_trans; [exact Ha1|]. apply aged_none, Ha1. }
  assert (Hok2 : frames_ok (set_hand h m1) pds).
  { eapply aged_ok; [exact Hok|exact Ha2|]. intros a Ea. destruct Hc2 as (pre2 & y & post2 & El2 & Eh2 & _). simpl in Ea, El2, Eh2.
    rewrite Ea in Eh2. injection Eh2 as ->. rewrite <- El1, El2. set_solver. }
  destruct (IH (set_hand h m1) (zs ++ [x]) Hok2) as (m' & E & Hc' & Ha' & Hok').
  - by rewrite app_assoc.
  - apply Forall_forall. intros a Ha. rewrite Forall_forall in Hall. rewrite (aged_skips _ _ _ _ _ Ha2); [by apply Hall|].
    intros ->%list_elem_of_singleton. rewrite <- (clock_perm _ _ Hc) in Hnd. apply NoDup_cons in Hnd as [Hn _]. apply Hn. set_solver.
  - exists m'. split_and!; [|by rewrite <- app_assoc in Hc'| |done].
    + rewrite <- E. cbn [length Nat.add replacement_loop]. rewrite (bind_run _ _ _ x m).
      2:{ unfold hand_frame. rewrite (bind_run _ _ _ m m) by done. by rewrite Eh. }
      rewrite (bind_run _ _ _ f m) by (unfold get_frame; by rewrite Ef).
      rewrite (bind_run _ _ _ true m) by (rewrite <- Hx; by apply (second_chance_run m pds)).
      rewrite (bind_run _ _ _ tt m1) by exact E1. by rewrite (bind_run _ _ _ tt (set_hand h m1)) by exact E2.
    + change (x :: ys) with ([x] ++ ys). by eapply aged_trans.
Qed.

(** ... and stops at the first other one. *)
Lemma loop_stop pds m z zs fuel : frames_ok m pds -> clock m (z :: zs) -> skips m z = false -> replacement_loop base_page_dir (S fuel) m = Ret (z, m).
Proof.
  intros Hok Hc Hz. pose proof Hc as (pre & x' & post & El & Eh & [= <- Erest]).
  assert (Hin : z ∈ frame_list m) by (rewrite El; set_solver). apply (fo_dom _ _ Hok) in Hin as [f Ef]. cbn [replacement_loop].
  rewrite (bind_run _ _ _ z m) by (unfold hand_frame; rewrite (bind_run _ _ _ m m) by done; by rewrite Eh).
  rewrite (bind_run _ _ _ f m) by (unfold get_frame; by rewrite Ef).
  by rewrite (bind_run _ _ _ false m) by (rewrite <- Hz; by apply (second_chance_run m pds)).
Qed.

(** ** The victim *)

(** The frames from the hand on; a hand at an end of the list is at its first
    frame. *)
Definition order m : list Z :=
  match hand m with
  | At x => match list_find (fun y => y = x) (frame_list m) with
            | Some (i, _) => drop i (frame_list m) ++ take i (frame_list m)
            | None => frame_list m
            end
  | _ => frame_list m
  end.

Definition is_loaded m (a : Z) : bool := match frames m !! a with Some f => loaded f | None => false end.

(** The second-chance rule: the first loaded frame that was not accessed since
    the hand last passed, or the first loaded frame if all were. *)
Definition victim m : option Z :=
  match List.find (fun a => negb (skips m a)) (order m) with
  | Some a => Some a
  | None => List.find (is_loaded m) (order m)
  end.

(** The frames whose accessed bit is cleared before the victim is found. *)
Definition passed m : list Z :=
  match List.find (fun a => negb (skips m a)) (order m) with
  | Some a => match list_find (fun y => y = a) (order m) with Some (i, _) => take i (order m) | None => [] end
  | None => order m
  end.

Lemma find_split {A} (p : A -> bool) l a : List.find p l = Some a -> exists ys zs, l = ys ++ a :: zs /\ Forall (fun x => p x = false) ys /\ p a = true.
Proof.
  induction l as [|x l IH]; simpl; [done|]. destruct (p x) eqn:E; [intros [= ->]; by exists [], l|].
  intros (ys & zs & -> & Hy & Ha)%IH. exists (x :: ys), zs. auto.
Qed.

Lemma find_first (l : list Z) a ys zs : l = ys ++ a :: zs -> a ∉ ys -> list_find (fun y => y = a) l = Some (length ys, a).
Proof.
  intros -> Hn. apply list_find_Some. split_and!; [apply list_lookup_middle; lia|done|].
  intros j y Hj Hlt ->. apply Hn. rewrite lookup_app_l in Hj by done. by apply list_elem_of_lookup_2 in Hj.
Qed.

Lemma check_hand_clock m pds : frames_ok m pds -> frame_list m <> [] ->
  exists h, check_and_set_hand m = Ret (tt, set_hand h m) /\ clock (set_hand h m) (order m).
Proof.
  intros Hok Hne. unfold check_and_set_hand. rewrite (bind_run _ _ _ m m) by done. unfold order.
  destruct (frame_list m) as [|y l] eqn:El; [done|]. destruct (hand m) as [| |x] eqn:Eh.
  - rewrite decide_True by done. rewrite (bind_run _ _ _ tt (set_hand (At y) m)).
    2:{ unfold list_next. rewrite (bind_run _ _ _ (At y) m); [done|]. rewrite (bind_run _ _ _ m m) by done. by rewrite El. }
    rewrite (bind_run _ _ _ (set_hand (At y) m) (set_hand (At y) m)) by done. exists (At y). split; [done|].
    exists [], y, l. split_and!; [done|done|by rewrite app_nil_r].
  - rewrite decide_False by done. rewrite (bind_run _ _ _ tt m) by done. rewrite (bind_run _ _ _ m m) by done. rewrite Eh, decide_True, El by done. exists (At y). split; [done|].
    exists [], y, l. split_and!; [done|done|by rewrite app_nil_r].
  - rewrite decide_False by done. rewrite (bind_run _ _ _ tt m) by done. rewrite (bind_run _ _ _ m m) by done. rewrite Eh, decide_False by done. exists (At x). split; [by destruct m; simpl in *; subst|].
    assert (Hin : x ∈ frame_list m) by (by apply (fo_hand _ _ Hok)). pose proof (fo_nodup _ _ Hok) as Hnd. rewrite El in Hin, Hnd.
    apply list_elem_of_split in Hin as (pre & post & Es). rewrite Es in Hnd |- *.
    apply NoDup_app in Hnd as (_ & Hd & _). rewrite (find_first _ x pre post eq_refl) by (intros Hx; by apply (Hd x Hx); left).
    exists pre, x, post. split_and!; [simpl; by rewrite El|done|]. by rewrite drop_app_length, take_app_length.
Qed.

Lemma order_perm m pds : frames_ok m pds -> order m ≡ₚ frame_list m.
Proof.
  intros Hok. destruct (decide (frame_list m = [])) as [E|E].
  - unfold order. rewrite E. by destruct (hand m).
  - destruct (check_hand_clock m pds Hok E) as (h & _ & Hc). by apply clock_perm in Hc.
Qed.

Lemma victim_loaded m pds a : frames_ok m pds -> frames m !! a <> None -> is_loaded m a = true -> is_Some (victim m).
Proof.
  intros Hok Ha Hl. unfold victim. destruct (List.find _ (order m)) as [b|]; [done|].
  destruct (List.find (is_loaded m) (order m)) as [b|] eqn:E; [done|]. exfalso.
  assert (Hin : a ∈ order m) by (rewrite (order_perm m pds Hok), (fo_dom _ _ Hok); by destruct (frames m !! a)).
  apply list_elem_of_In in Hin. eapply List.find_none in E; [|exact Hin]. congruence.
Qed.

Lemma victim_frame m pds a : frames_ok m pds -> victim m = Some a -> a ∈ frame_list m /\ exists f, frames m !! a = Some f /\ loaded f = true.
Proof.
  intros Hok Hv. assert (Hin : a ∈ order m /\ is_loaded m a = true).
  { unfold victim in Hv. destruct (List.find (fun a => negb (skips m a)) (order m)) as [b|] eqn:E.
    - injection Hv as ->. apply List.find_some in E as [Hin Hs]. split; [by apply list_elem_of_In|]. unfold skips in Hs. unfold is_loaded.
      destruct (frames m !! a) as [f|]; [|done]. by destruct (loaded f).
    - apply List.find_some in Hv as [Hin Hs]. split; [by apply list_elem_of_In|done]. }
  destruct Hin as [Hin Hl]. split; [by rewrite <- (order_perm m pds Hok)|]. unfold is_loaded in Hl. destruct (frames m !! a) as [f|]; eauto. done.
Qed.

(** The run of the clock. *)
Lemma clock_run m pds a : frames_ok m pds -> victim m = Some a ->
  exists m', get_frame_for_replacement base_page_dir m = Ret (a, m') /\ hand m' = At a /\ frames_ok m' pds /\ aged pds (passed m) m m'.
Proof.
  intros Hok Hv. destruct (victim_frame m pds a Hok Hv) as [Hin (f & Ef & Elf)].
  assert (Hne : frame_list m <> []) by (intros E; rewrite E in Hin; by apply elem_of_nil in Hin).
  destruct (check_hand_clock m pds Hok Hne) as (h & Ec & Hc). set (m0 := set_hand h m) in *.
  assert (Ha0 : aged pds [] m m0) by apply aged_none, Hok.
  assert (Hok0 : frames_ok m0 pds).
  { eapply aged_ok; [exact Hok|exact Ha0|]. intros x Ex. destruct Hc as (pre & y & post & El & Eh & _). rewrite Ex in Eh. injection Eh as ->.
    change (frame_list m) with (frame_list m0). rewrite El. set_solver. }
  assert (Hnd : NoDup (order m)) by (rewrite (order_perm m pds Hok); apply Hok).
  assert (Hlen : length (order m) = length (frame_list m)) by (by rewrite (order_perm m pds Hok)).
  assert (Hs0 : forall x, skips m0 x = skips m x) by (intros x; apply (aged_skips _ _ _ _ x Ha0); set_solver).
  unfold get_frame_for_replacement. rewrite (bind_run _ _ _ tt m0) by exact Ec. rewrite (bind_run _ _ _ m0 m0) by done.
  change (frame_list m0) with (frame_list m). unfold victim in Hv. unfold passed.
  destruct (List.find (fun a => negb (skips m a)) (order m)) as [b|] eqn:E.
  - injection Hv as ->. destruct (find_split _ _ _ E) as (ys & zs & El & Hy & Hz). apply negb_true_iff in Hz.
    assert (Hny : a ∉ ys) by (rewrite El in Hnd; apply NoDup_app in Hnd as (_ & Hd & _); intros Hx; by apply (Hd a Hx); left).
    rewrite (find_first _ a ys zs El Hny), El, take_app_length. rewrite El in Hc.
    replace (S (2 * length (frame_list m))) with (length ys + S (2 * length (frame_list m) - length ys))%nat by (rewrite <- Hlen, El, length_app; simpl; lia).
    destruct (loop_skip pds ys m0 (a :: zs) (S (2 * length (frame_list m) - length ys)) Hok0 Hc) as (m' & Er & Hc' & Ha' & Hok').
    { eapply Forall_impl; [exact Hy|]. intros x Hx. rewrite Hs0. by apply negb_false_iff. }
    exists m'. split_and!; [|by destruct Hc' as (? & ? & ? & _ & Eh & [= <- _])|done|by apply (aged_trans _ [] ys _ m0)].
    rewrite Er. eapply (loop_stop pds); [done|exact Hc'|]. by rewrite (aged_skips _ _ _ _ _ Ha'), Hs0.
  - destruct (find_split _ _ _ Hv) as (ys & zs & El & Hy & Hz).
    replace (S (2 * length (frame_list m))) with (length (order m) + (length ys + S (length (frame_list m) - length ys)))%nat by (rewrite Hlen, <- Hlen, El, length_app; simpl; lia).
    destruct (loop_skip pds (order m) m0 [] (length ys + S (length (frame_list m) - length ys)) Hok0) as (m1 & Er & Hc1 & Ha1 & Hok1).
    { by rewrite app_nil_r. }
    { apply Forall_forall. intros x Hx. rewrite Hs0. apply list_elem_of_In in Hx. eapply List.find_none in E; [|exact Hx]. by apply negb_false_iff. }
    rewrite Er. simpl in Hc1. pose proof (aged_fields _ _ _ _ Ha1) as (_ & Ef1 & _).
    assert (Hs1 : forall x, x ∈ order m -> skips m1 x = negb (is_loaded m x)).
    { intros x Hx. assert (Hd : is_Some (frames m0 !! x)) by (apply (fo_dom _ _ Hok0); change (frame_list m0) with (frame_list m); by rewrite <- (order_perm m pds Hok)).
      destruct Hd as [g Eg]. rewrite (aged_loaded _ _ _ _ _ _ Ha1 Hx Eg). unfold is_loaded. change (frames m0) with (frames m) in Eg. by rewrite Eg. }
    rewrite El in Hc1. destruct (loop_skip pds ys m1 (a :: zs) (S (length (frame_list m) - length ys)) Hok1 Hc1) as (m2 & Er2 & Hc2 & Ha2 & Hok2).
    { apply Forall_forall. intros x Hx. rewrite Forall_forall in Hy. rewrite Hs1, (Hy x Hx) by (rewrite El; set_solver). done. }
    exists m2. split_and!; [|by destruct Hc2 as (? & ? & ? & _ & Eh & [= <- _])|done|].
    + rewrite Er2. eapply (loop_stop pds); [done|exact Hc2|]. rewrite (aged_skips _ _ _ _ _ Ha2).
      * rewrite Hs1, Hz by (rewrite El; set_solver). done.
      * rewrite El in Hnd. apply NoDup_app in Hnd as (_ & Hd & _). intros Hx. by apply (Hd a Hx); left.
    + pose proof (aged_trans _ _ _ _ _ _ Ha0 (aged_trans _ _ _ _ _ _ Ha1 Ha2)) as [A1 A2 A3 A4 A5 A6]. split; try done.
      intros b g Hg Hlg. rewrite (A6 b g Hg Hlg). simpl. assert (Hb : b ∈ order m) by (rewrite (order_perm m pds Hok), (fo_dom _ _ Hok); eauto).
      rewrite !decide_True; [done|done|]. set_solver.
Qed.

(** Without a loaded frame the loop never ends. *)
Lemma clock_diverges m pds rot fuel : frames_ok m pds -> clock m rot -> (forall a f, frames m !! a = Some f -> loaded f = false) ->
  replacement_loop base_page_dir fuel m = OutOfFuel.
Proof.
  revert m rot. induction fuel as [|fuel IH]; intros m rot Hok Hc Hno; [done|].
  pose proof Hc as (pre & x & post & El & Eh & ->). change (x :: post ++ pre) with ([x] ++ (post ++ pre)) in Hc.
  destruct (loop_skip pds [x] m (post ++ pre) fuel Hok Hc) as (m' & Er & Hc' & Ha' & Hok').
  - constructor; [|done]. unfold skips. destruct (frames m !! x) as [f|] eqn:Ef; [|done]. by rewrite (Hno x f Ef).
  - change (S fuel) with (length [x] + fuel)%nat. rewrite Er. eapply IH; [done|exact Hc'|].
    pose proof (aged_fields _ _ _ _ Ha') as (_ & Ef & _). by rewrite Ef.
Qed.
End Clock.
