(* ===== verification/FrameEvict.v ===== *)
(** * Correctness of page replacement

    What a page holds, for its process, is in a frame, in swap, in a file, or
    is all zeros.  Replacement (vm/frame.c) takes a frame away without
    changing what any page of any process holds. *)

From S2P Require Import Prelude Vaddr Bitmap Palloc PageAlloc Pagedir PagedirProps Spaces Hash HashProps Page PageProps Disk Swap Inode InodeProps File Frame FrameProps.

(** The bytes of a page whose first [zero_after] bytes come from a file. *)
Definition file_bytes (s : fs) (file offset zero_after : Z) : option (list Z) :=
  match files s !! file with
  | Some x =>
    match inodes s !! f_inode x with
    | Some i =>
      let c := contents (filesys_disk s) (data i) in
      if decide (0 <= offset /\ 0 <= zero_after <= 4096 /\ offset + zero_after <= length c)
      then Some (take (Z.to_nat zero_after) (drop (Z.to_nat offset) c) ++ replicate (Z.to_nat (4096 - zero_after)) 0)
      else None
    | None => None
    end
  | None => None
  end.

(** A page of a user process. *)
Definition user_addr (v : Z) : Prop := 0 <= v < PHYS_BASE /\ v mod PGSIZE = 0.

(** The entries of pages in swap. *)
Definition is_swap_page (e : special_page_elem) : bool := match e with swap_page _ _ _ _ => true | _ => false end.

Section Evict.
Context {P : Type} `{UserPages P} (base_page_dir ram_pages : Z) (hmem : bool).
Implicit Types (m : mach P) (pds : gset Z) (live : gmap Z (list Z)).

(** What an entry of a supplemental page table stands for. *)
Definition source m (e : special_page_elem) : option (list Z) :=
  match e with
  | exec_page _ file offset zero_after _ | file_page _ file offset zero_after => file_bytes (fsys m) file offset zero_after
  | swap_page _ slot _ _ => Some (page_at (swap_disk (swp m)) slot)
  | zero_page _ => Some zero_bytes
  end.

(** What page [v] of thread [t] holds, [None] if it has no contents yet. *)
Definition holds m (t v : Z) : option (list Z) :=
  match procs m !! t with
  | Some p =>
    if pagedir p =? 0 then None
    else
      let e := entry (words (vms m)) (pagedir p) v in
      if present e then umem m !! page_of_entry e
      else match entry_at (sup p) v with Some s => source m s | None => None end
  | None => None
  end.

(** ** The invariant of virtual memory

    [pds] are the page directories, [live] the swap slots in use with what
    they hold. *)
Record vm_ok m pds live : Prop := {
  vo_frames : frames_ok m pds;
  vo_fresh a : a ∈ frame_list m -> a < next_frame m;
  vo_procs t p : procs m !! t = Some p -> pagedir p <> 0 -> pagedir p ∈ pds;
  vo_mapped t p v : procs m !! t = Some p -> pagedir p ∈ pds -> user_addr v ->
    present (entry (words (vms m)) (pagedir p) v) = true ->
    exists a f, frames m !! a = Some f /\ loaded f = true /\ f_t f = t /\ virtual_address f = v;
  vo_pages a f : frames m !! a = Some f -> allocated (pal (vms m)) (user_page f) /\
    exists bytes, umem m !! user_page f = Some bytes /\ length bytes = 4096%nat;
  vo_apart a b f g : frames m !! a = Some f -> frames m !! b = Some g -> user_page f = user_page g -> a = b;
  vo_sup t p : procs m !! t = Some p -> sup_ok (sup p);
  vo_swap : swap_ok (swp m) live;
  vo_slots t p v v' slot d ev : procs m !! t = Some p -> entry_at (sup p) v = Some (swap_page v' slot d ev) -> is_Some (live !! slot);
  vo_one_slot t t' p p' v v' u u' slot d d' ev ev' : procs m !! t = Some p -> procs m !! t' = Some p' ->
    entry_at (sup p) v = Some (swap_page u slot d ev) -> entry_at (sup p') v' = Some (swap_page u' slot d' ev') -> t = t' /\ v = v';
  vo_out t p v v' slot d ev : procs m !! t = Some p -> pagedir p ∈ pds -> user_addr v ->
    entry_at (sup p) v = Some (swap_page v' slot d ev) -> present (entry (words (vms m)) (pagedir p) v) = false;
  vo_saved t p v v' slot d ev : procs m !! t = Some p -> entry_at (sup p) v = Some (swap_page v' slot d ev) ->
    d = true /\ forall e, ev = Some e -> is_swap_page e = false /\ virtual_page e = v;
  vo_ram a : adjoining (pal (vms m)) a 1 -> a <> 0xccccc000 /\ (a - PHYS_BASE) / PGSIZE < ram_pages;
}.

(** The dirty bits tell the truth: a page that is not dirty holds what its
    entry in the supplemental page table stands for. *)
Definition clean_ok m : Prop := forall a f p e, frames m !! a = Some f -> loaded f = true -> procs m !! f_t f = Some p ->
  dirty (frame_entry m f) = false -> entry_at (sup p) (virtual_address f) = Some e -> umem m !! user_page f = source m e.

(** ** Runs *)

Lemma on_sup_run {A} t (c : ST lazy A) m p r l : procs m !! t = Some p -> c (sup p) = Ret (r, l) ->
  on_sup t c m = Ret (r, set_procs (<[t := mk_process (pagedir p) l]> (procs m)) m).
Proof.
  intros Ep E. unfold on_sup. rewrite (bind_run _ _ _ p m) by (unfold get_process; by rewrite Ep). unfold zoom. by rewrite E.
Qed.

Lemma on_sup_read {A} t (c : ST lazy A) m p r : procs m !! t = Some p -> c (sup p) = Ret (r, sup p) -> on_sup t c m = Ret (r, m).
Proof.
  intros Ep E. rewrite (on_sup_run t c m p r (sup p) Ep E). do 2 f_equal. rewrite insert_id; [by destruct m|]. rewrite Ep. by destruct p.
Qed.

(** Flags of an entry that is no longer present. *)
Lemma clear_present_entry e : present (clear PTE_P e) = false.
Proof. unfold present, clear. rewrite <- Z.land_assoc. change (Z.land (unot PTE_P) PTE_P) with 0. by rewrite Z.land_0_r. Qed.

(** Taking a frame out of the list, from the hand's point of view. *)
Lemma clock_drop m y r a : NoDup (y :: r ++ [a]) -> clock m (y :: r ++ [a]) ->
  clock (set_table (filter (fun x => x <> a) (frame_list m)) (delete a (frames m)) (hand m) m) (y :: r).
Proof.
  intros Hnd (pre & x & post & El & Eh & Er). injection Er as <- Er. simpl.
  assert (Hfil : forall l : list Z, a ∉ l -> filter (fun x => x <> a) l = l).
  { induction l as [|z l IH]; intros Hn; [done|]. rewrite filter_cons_True, IH by set_solver. done. }
  assert (Hya : y <> a) by (apply NoDup_cons in Hnd as [Hn _]; set_solver).
  assert (Hra : a ∉ r) by (apply NoDup_cons in Hnd as [_ Hnd]; apply NoDup_app in Hnd as (_ & Hd & _); intros Hx; by apply (Hd a Hx); left).
  destruct pre as [|z pre] using rev_ind.
  - rewrite app_nil_r in Er. exists [], y, r. rewrite El. simpl. split_and!; [|done|by rewrite app_nil_r].
    rewrite filter_cons_True by done. f_equal. rewrite <- Er, filter_app, Hfil by done. simpl. rewrite filter_cons_False by auto. by rewrite app_nil_r.
  - rewrite app_assoc in Er. apply app_inj_tail in Er as [-> <-]. exists pre, y, post. rewrite El. split_and!; [|done|done].
    rewrite !filter_app, (Hfil pre), (Hfil (y :: post)) by set_solver.
    rewrite filter_cons_False by auto. by rewrite app_nil_r.
Qed.

(** The end of [ft_replacement]: the hand leaves the victim, the victim leaves
    the table, the hand goes on. *)
Definition remove_victim (a page : Z) : ST (mach P) Z := move_hand_off a;; drop_frame a;; advance_hand;; mret page.

Lemma remove_run m a page y r : NoDup (frame_list m) -> clock m (a :: y :: r) ->
  exists h, remove_victim a page m = Ret (page, set_table (filter (fun x => x <> a) (frame_list m)) (delete a (frames m)) h m) /\
    clock (set_table (filter (fun x => x <> a) (frame_list m)) (delete a (frames m)) h m) (r ++ [y]).
Proof.
  intros Hnd Hc. pose proof Hc as (pre & x & post & _ & Eh & [= <- _]). destruct (advance_run m a (y :: r) Hnd Hc) as (h1 & E1 & Hc1).
  assert (Hnd1 : NoDup (y :: r ++ [a])) by (change (NoDup ((y :: r) ++ [a])); rewrite Permutation_app_comm; simpl; by rewrite (clock_perm _ _ Hc)).
  pose proof (clock_drop _ y r a Hnd1 Hc1) as Hc2. simpl in Hc2. set (m2 := set_table _ _ _ _) in Hc2.
  assert (Hnd2 : NoDup (frame_list m2)) by (simpl; by apply NoDup_filter).
  destruct (advance_run m2 y r Hnd2 Hc2) as (h2 & E2 & Hc3). exists h2. split; [|exact Hc3].
  unfold remove_victim. rewrite (bind_run _ _ _ tt (set_hand h1 m)).
  2:{ unfold move_hand_off. rewrite (bind_run _ _ _ m m) by done. by rewrite Eh, decide_True by done. }
  rewrite (bind_run _ _ _ tt m2) by done. by rewrite (bind_run _ _ _ _ _ E2).
Qed.

(** The only frame: the hand stays on it, and is followed after it was freed. *)
Lemma remove_only m a page : frame_list m = [a] -> hand m = At a -> remove_victim a page m = Panic.
Proof.
  intros El Eh. assert (Hc : clock m [a]) by (exists [], a, []; done).
  destruct (advance_run m a []) as (h1 & E1 & (pre & x & post & El1 & Eh1 & [= <- Ep])); [rewrite El; apply NoDup_singleton|done|].
  simpl in Eh1. subst h1. unfold remove_victim. rewrite (bind_run _ _ _ tt (set_hand (At a) m)).
  2:{ unfold move_hand_off. rewrite (bind_run _ _ _ m m) by done. by rewrite Eh, decide_True by done. }
  set (m2 := set_table (filter (fun x => x <> a) (frame_list m)) (delete a (frames m)) (At a) m).
  rewrite (bind_run _ _ _ tt m2) by done. apply bind_panics. unfold advance_hand. rewrite (bind_run _ _ _ m2 m2) by done. apply bind_panics.
  unfold list_next. rewrite (bind_run _ _ _ m2 m2) by done. simpl. rewrite El. rewrite filter_cons_False by auto. done.
Qed.

(** ** Saving to swap *)

Definition is_file_page (e : option special_page_elem) : bool := match e with Some (file_page _ _ _ _) => true | _ => false end.

Lemma save_swap_run m f p bytes live (n : nat) : procs m !! f_t f = Some p -> sup_ok (sup p) -> entry_mem (sup p) = S n ->
  is_page (virtual_address f) -> is_file_page (entry_at (sup p) (virtual_address f)) = false ->
  umem m !! user_page f = Some bytes -> length bytes = 4096%nat -> swap_ok (swp m) live ->
  (exists r, r ∈ free_swap_list (swp m) /\ 8 <= fs_size r) ->
  exists ss s' l', save_page hmem true f true (entry_at (sup p) (virtual_address f)) m =
      Ret (tt, set_procs (<[f_t f := mk_process (pagedir p) l']> (procs m)) (set_swp s' m)) /\
    live !! ss = None /\ swap_ok s' (<[ss := bytes]> live) /\ sup_ok l' /\
    forall v, entry_at l' v = if decide (v = virtual_address f) then Some (swap_page (virtual_address f) ss true (entry_at (sup p) (virtual_address f))) else entry_at (sup p) v.
Proof.
  intros Ep Hsup Hmem Hpage Hnf Eb Hlen Hsw (fr & Hfr & H8).
  destruct (wp_run _ _ _ (wp_swap_slot_write (swp m) live bytes (fun r st' => exists ss, r = Some ss /\ live !! ss = None /\ swap_ok st' (<[ss := bytes]> live)) Hsw Hlen
    ltac:(intros [ss|] st' Hr; [by eauto|exfalso; destruct Hr as [_ Hr]; rewrite Forall_forall in Hr; specialize (Hr fr Hfr); lia])))
    as (r & s' & Er & ss & -> & Hnone & Hsw').
  exists ss, s'. set (ev := entry_at (sup p) (virtual_address f)) in *. set (m1 := set_swp s' m).
  assert (Hadd : forall l, sup_ok l -> entry_mem l = S n -> entry_at l (virtual_address f) = None -> exists l', (e ← new_swap_page (virtual_address f) ss true ev; add_lazy_page hmem e) l = Ret (None, l') /\
    sup_ok l' /\ forall v, entry_at l' v = if decide (v = virtual_address f) then Some (swap_page (virtual_address f) ss true ev) else entry_at l v).
  { intros l Hl Hm He. unfold new_swap_page. rewrite (bind_run _ _ _ _ _ (new_entry_run _ l n Hm)).
    assert (Hl1 : sup_ok (mk_lazy (sup_pagetable l) n)) by (by destruct Hl).
    destruct (add_lazy_page_run hmem (swap_page (virtual_address f) ss true ev) _ Hl1 Hpage) as (l' & E & Hl' & _ & Hent). simpl in E, Hent.
    change (entry_at (mk_lazy (sup_pagetable l) n)) with (entry_at l) in *. rewrite He in E. exists l'. split_and!; [done|done|].
    intros v. rewrite Hent. case_decide as Ev; [|done]. subst v. by rewrite He. }
  assert (Hrun : exists l', (match ev with Some e => on_sup (f_t f) (delete_lazy_page hmem e);; mret tt | None => mret tt end;;
      on_sup (f_t f) (e ← new_swap_page (virtual_address f) ss true ev; add_lazy_page hmem e);; mret tt) m1 =
      Ret (tt, set_procs (<[f_t f := mk_process (pagedir p) l']> (procs m)) m1) /\ sup_ok l' /\
    forall v, entry_at l' v = if decide (v = virtual_address f) then Some (swap_page (virtual_address f) ss true ev) else entry_at (sup p) v).
  { destruct ev as [e|] eqn:Eev.
    - pose proof (entry_at_page _ _ _ Eev) as Hve. destruct (delete_lazy_page_run hmem e (sup p) Hsup) as (l1 & E1 & Hl1 & Hm1 & Hent1). rewrite Hve in Hent1.
      destruct (Hadd l1 Hl1 ltac:(congruence)) as (l' & E2 & Hl' & Hent); [by rewrite Hent1, decide_True|]. exists l'. split_and!; [|done|].
      + rewrite (bind_run _ _ _ tt (set_procs (<[f_t f := mk_process (pagedir p) l1]> (procs m)) m1)).
        2:{ erewrite bind_run by (by apply (on_sup_run _ _ m1 p)). done. }
        erewrite bind_run by (apply (on_sup_run _ _ _ (mk_process (pagedir p) l1)); [simpl; by rewrite lookup_insert_eq|exact E2]).
        simpl. by rewrite insert_insert_eq.
      + intros v. rewrite Hent. case_decide; [done|]. by rewrite Hent1, decide_False.
    - destruct (Hadd (sup p) Hsup Hmem Eev) as (l' & E2 & Hl' & Hent). exists l'. split_and!; [|done|done].
      rewrite (bind_run _ _ _ tt m1) by done. by erewrite bind_run by (by apply (on_sup_run _ _ m1 p)). }
  destruct Hrun as (l' & E & Hl' & Hent). exists l'. split_and!; [|done..].
  unfold save_page. rewrite (bind_run _ _ _ m m) by done. unfold page_bytes. rewrite Eb. simpl.
  destruct ev as [[]|]; try done;
    (erewrite bind_run by (unfold on_swap; by apply zoom_run)); exact E.
Qed.

(** ** The state after a replacement *)

(** The same entry up to its accessed bit. *)
Definition same_entry (e e' : Z) : Prop := present e' = present e /\ page_of_entry e' = page_of_entry e /\ dirty e' = dirty e.

Lemma same_entry_refl e : same_entry e e.
Proof. done. Qed.
Lemma same_entry_clear e : same_entry e (clear PTE_A e).
Proof. destruct (clear_accessed e) as (_ & ? & ? & ? & _). by split_and!. Qed.

(** Frame [a], with contents [f] and of the process [p], has been taken away;
    [live'] are the swap slots then. *)
Record evicted pds live live' m a f p m' : Prop := {
  ev_list : frame_list m' = filter (fun x => x <> a) (frame_list m);
  ev_frames : frames m' = delete a (frames m);
  ev_hand x : hand m' = At x -> x ∈ frame_list m';
  ev_same : umem m' = umem m /\ fsys m' = fsys m /\ next_frame m' = next_frame m /\ frame_heap m' = frame_heap m;
  ev_spaces : spaces_ok (vms m') pds;
  ev_tables : tables_stay pds (words (vms m)) (words (vms m'));
  ev_pal : pal (vms m') = pal (vms m);
  ev_entries pd v : pd ∈ pds -> user_addr v -> let e' := entry (words (vms m')) pd v in
    if decide (pd = pagedir p /\ v = virtual_address f) then present e' = false else same_entry (entry (words (vms m)) pd v) e';
  ev_swap : swap_ok (swp m') live' /\ (forall slot b, live !! slot = Some b -> live' !! slot = Some b);
  ev_procs : exists l, procs m' = <[f_t f := mk_process (pagedir p) l]> (procs m) /\ sup_ok l /\
    (forall v, v <> virtual_address f -> entry_at l v = entry_at (sup p) v) /\
    match entry_at l (virtual_address f) with
    | Some (swap_page u slot d ev) => umem m !! user_page f = live' !! slot /\ is_Some (live' !! slot) /\ live !! slot = None /\
        d = true /\ forall e, ev = Some e -> is_swap_page e = false /\ virtual_page e = virtual_address f
    | Some e => source m' e = umem m !! user_page f
    | None => dirty (frame_entry m f) = false /\ entry_at (sup p) (virtual_address f) = None
    end;
}.

Section Evicted.
Context pds live live' m a f p m' (Hok : vm_ok m pds live) (Hf : frames m !! a = Some f) (Hl : loaded f = true)
  (Hp : procs m !! f_t f = Some p) (Hev : evicted pds live live' m a f p m').

Lemma victim_addr : user_addr (virtual_address f) /\ pagedir p ∈ pds /\ pagedir p <> 0.
Proof using Hok Hf Hl Hp.
  destruct (fo_loaded _ _ (vo_frames _ _ _ Hok) a f Hf Hl) as (q & Eq & Hpd & Hva & Hal & _). rewrite Hp in Eq. injection Eq as <-.
  split_and!; [by split|done|]. pose proof (spaces_page _ _ _ (fo_spaces _ _ (vo_frames _ _ _ Hok)) Hpd) as [Hk _]. unfold PHYS_BASE in Hk. lia.
Qed.

Lemma victim_addr_of b g q : frames m !! b = Some g -> loaded g = true -> procs m !! f_t g = Some q -> user_addr (virtual_address g) /\ pagedir q ∈ pds.
Proof using Hok.
  intros Hg Hlg Hq. destruct (fo_loaded _ _ (vo_frames _ _ _ Hok) b g Hg Hlg) as (q' & Eq & Hpd & Hva & Hal & _). rewrite Hq in Eq. injection Eq as <-.
  done.
Qed.

(** The processes afterwards. *)
Lemma evicted_proc t q' : procs m' !! t = Some q' -> exists q, procs m !! t = Some q /\ pagedir q' = pagedir q /\
  (t <> f_t f -> q' = q) /\ (forall v, t <> f_t f \/ v <> virtual_address f -> entry_at (sup q') v = entry_at (sup q) v).
Proof using Hp Hev.
  destruct (ev_procs _ _ _ _ _ _ _ _ Hev) as (l & -> & _ & Hent & _). rewrite lookup_insert. case_decide as E.
  - subst t. intros [= <-]. exists p. split_and!; [done|done|done|]. intros v [?|Hv]; [done|]. by apply Hent.
  - intros Hq. exists q'. by split_and!.
Qed.

Lemma evicted_entry t q v : procs m !! t = Some q -> pagedir q ∈ pds -> user_addr v -> t <> f_t f \/ v <> virtual_address f ->
  same_entry (entry (words (vms m)) (pagedir q) v) (entry (words (vms m')) (pagedir q) v).
Proof using Hok Hf Hl Hp Hev.
  intros Hq Hpd Hv Hne. pose proof (ev_entries _ _ _ _ _ _ _ _ Hev (pagedir q) v Hpd Hv) as He. cbv zeta in He.
  rewrite decide_False in He; [done|]. intros [E1 E2]. destruct Hne as [Hne|Hne]; [|done]. apply Hne.
  eapply (fo_dirs _ _ (vo_frames _ _ _ Hok) t (f_t f) q p); [done..|]. rewrite E1. apply victim_addr.
Qed.

Lemma evicted_other b g : frames m' !! b = Some g -> frames m !! b = Some g /\ b <> a.
Proof using Hev. rewrite (ev_frames _ _ _ _ _ _ _ _ Hev). intros [Hn Hg]%lookup_delete_Some. split; [done|congruence]. Qed.

Lemma evicted_apart b g : frames m' !! b = Some g -> loaded g = true -> f_t g <> f_t f \/ virtual_address g <> virtual_address f.
Proof using Hok Hf Hl Hev.
  intros [Hg Hne]%evicted_other Hlg. destruct (decide (f_t g = f_t f)) as [E1|]; [|by left]. right. intros E2. apply Hne.
  by eapply (fo_distinct _ _ (vo_frames _ _ _ Hok)).
Qed.

Lemma evicted_frames_ok : frames_ok m' pds.
Proof using Hok Hf Hl Hp Hev.
  pose proof (vo_frames _ _ _ Hok) as Hfo. destruct (ev_procs _ _ _ _ _ _ _ _ Hev) as (l & Epr & _). split.
  - rewrite (ev_list _ _ _ _ _ _ _ _ Hev). apply NoDup_filter, Hfo.
  - intros b. rewrite (ev_list _ _ _ _ _ _ _ _ Hev), (ev_frames _ _ _ _ _ _ _ _ Hev), list_elem_of_filter, (fo_dom _ _ Hfo), lookup_delete.
    case_decide as E; [subst; split; [tauto|by intros []]|]. split; [tauto|]. by split; [congruence|].
  - apply Hev.
  - apply Hev.
  - intros b g Hg Hlg. pose proof (evicted_apart b g Hg Hlg) as Hne. destruct (evicted_other b g Hg) as [Hg0 _].
    destruct (fo_loaded _ _ Hfo b g Hg0 Hlg) as (q & Eq & Hpd & Hva & Hal & Hpr & Hpg & HP).
    assert (Eq' : exists q', procs m' !! f_t g = Some q' /\ pagedir q' = pagedir q).
    { rewrite Epr, lookup_insert. case_decide as E; [|by eauto]. rewrite <- E, Hp in Eq. injection Eq as <-. by eexists. }
    destruct Eq' as (q' & Eq' & Ed). pose proof (evicted_entry (f_t g) q (virtual_address g) Eq Hpd (conj Hva Hal) Hne) as (S1 & S2 & S3).
    unfold frame_entry in Hpr, Hpg. rewrite Eq in Hpr, Hpg.
    exists q'. unfold frame_entry. rewrite Eq', Ed. split_and!; [done|done|lia|lia|done|by rewrite S1|by rewrite S2|].
    rewrite HP. unfold pte_addr. rewrite (ev_tables _ _ _ _ _ _ _ _ Hev) by (done || (intros E; by rewrite entry_no_table in Hpr)). done.
  - intros b c g k Hg Hk. destruct (evicted_other b g Hg), (evicted_other c k Hk). by apply Hfo.
  - intros t t' q q' Hq Hq' E Hne. destruct (evicted_proc t q Hq) as (q0 & ? & E1 & _), (evicted_proc t' q' Hq') as (q1 & ? & E2 & _).
    eapply (fo_dirs _ _ Hfo t t' q0 q1); congruence.
Qed.

(** A swapped page of the new state: the victim's, or one that was swapped. *)
Lemma evicted_slot t q' v u slot d ev : procs m' !! t = Some q' -> entry_at (sup q') v = Some (swap_page u slot d ev) ->
  (t = f_t f /\ v = virtual_address f /\ live !! slot = None /\ is_Some (live' !! slot) /\
    d = true /\ forall e, ev = Some e -> is_swap_page e = false /\ virtual_page e = v) \/
  (t <> f_t f \/ v <> virtual_address f) /\ is_Some (live !! slot) /\ exists q, procs m !! t = Some q /\ pagedir q' = pagedir q /\ entry_at (sup q) v = Some (swap_page u slot d ev).
Proof using Hok Hp Hev.
  intros Hq He. destruct (evicted_proc t q' Hq) as (q & Eq & Ed & _ & Hent).
  destruct (decide (t = f_t f /\ v = virtual_address f)) as [[-> ->]|Hne].
  - left. destruct (ev_procs _ _ _ _ _ _ _ _ Hev) as (l & Epr & _ & _ & Hcase). rewrite Epr, lookup_insert_eq in Hq. injection Hq as <-.
    simpl in He. rewrite He in Hcase. by destruct Hcase as (_ & ? & ? & ?).
  - right. assert (Hor : t <> f_t f \/ v <> virtual_address f) by (destruct (decide (t = f_t f)); [right; intros ->; tauto|by left]).
    rewrite Hent in He by done. split; [done|]. split; [by eapply (vo_slots _ _ _ Hok)|]. by exists q.
Qed.

Lemma evicted_ok : vm_ok m' pds live'.
Proof using Hok Hf Hl Hp Hev.
  destruct (ev_same _ _ _ _ _ _ _ _ Hev) as (Eu & Efs & En & _). destruct (ev_procs _ _ _ _ _ _ _ _ Hev) as (l & Epr & Hsl & _).
  split.
  - apply evicted_frames_ok.
  - intros b. rewrite En, (ev_list _ _ _ _ _ _ _ _ Hev). intros [_ Hb]%list_elem_of_filter. by apply (vo_fresh _ _ _ Hok).
  - intros t q' Hq Hne. destruct (evicted_proc t q' Hq) as (q & Eq & Ed & _). rewrite Ed in *. by eapply (vo_procs _ _ _ Hok).
  - intros t q' v Hq Hpd Hv Hpr. destruct (evicted_proc t q' Hq) as (q & Eq & Ed & _). rewrite Ed in *.
    destruct (decide (t = f_t f /\ v = virtual_address f)) as [[-> ->]|Hne].
    + exfalso. rewrite Hp in Eq. injection Eq as <-. pose proof (ev_entries _ _ _ _ _ _ _ _ Hev (pagedir p) (virtual_address f) Hpd Hv) as He.
      cbv zeta in He. rewrite decide_True in He by done. congruence.
    + assert (Hor : t <> f_t f \/ v <> virtual_address f) by (destruct (decide (t = f_t f)); [right; intros ->; tauto|by left]).
      destruct (evicted_entry t q v Eq Hpd Hv Hor) as (S1 & _). rewrite S1 in Hpr.
      destruct (vo_mapped _ _ _ Hok t q v Eq Hpd Hv Hpr) as (b & g & Hg & Hlg & Et & Ev). exists b, g. split; [|done].
      rewrite (ev_frames _ _ _ _ _ _ _ _ Hev), lookup_delete_ne; [done|]. intros <-. rewrite Hf in Hg. injection Hg as <-. subst. by destruct Hor.
  - intros b g [Hg _]%evicted_other. rewrite (ev_pal _ _ _ _ _ _ _ _ Hev), Eu. by apply (vo_pages _ _ _ Hok b).
  - intros b c g k [Hg _]%evicted_other [Hk _]%evicted_other. by apply (vo_apart _ _ _ Hok).
  - intros t q'. rewrite Epr, lookup_insert. case_decide; [by intros [= <-]|]. apply (vo_sup _ _ _ Hok).
  - apply Hev.
  - intros t q' v u slot d ev Hq He. destruct (evicted_slot t q' v u slot d ev Hq He) as [(_ & _ & _ & ? & _)|(_ & [b Hb] & _)]; [done|].
    destruct (ev_swap _ _ _ _ _ _ _ _ Hev) as [_ Hmono]. rewrite (Hmono _ _ Hb). by eexists.
  - intros t t' q q' v v' u u' slot d d' ev ev' Hq Hq' He He'.
    destruct (evicted_slot _ _ _ _ _ _ _ Hq He) as [(-> & -> & Hn & _)|(_ & Hs & q0 & Eq0 & _ & He0)],
      (evicted_slot _ _ _ _ _ _ _ Hq' He') as [(-> & -> & Hn' & _)|(_ & Hs' & q1 & Eq1 & _ & He1)]; [done| | |].
    + rewrite Hn in Hs'. by destruct Hs'.
    + rewrite Hn' in Hs. by destruct Hs.
    + by eapply (vo_one_slot _ _ _ Hok t t' q0 q1).
  - intros t q' v u slot d ev Hq Hqd Hva He. destruct (evicted_slot _ _ _ _ _ _ _ Hq He) as [(-> & -> & _)|(Hor & _ & q & Eq & Ed & He0)].
    + pose proof victim_addr as (Hv & Hpd & _). pose proof (ev_entries _ _ _ _ _ _ _ _ Hev (pagedir p) (virtual_address f) Hpd Hv) as Hne.
      cbv zeta in Hne. rewrite decide_True in Hne by done. rewrite Epr, lookup_insert_eq in Hq. by injection Hq as <-.
    + rewrite Ed in *. destruct (evicted_entry t q v Eq Hqd Hva Hor) as (-> & _). by eapply (vo_out _ _ _ Hok).
  - intros t q' v u slot d ev Hq He. destruct (evicted_slot _ _ _ _ _ _ _ Hq He) as [(-> & -> & _ & _ & ?)|(_ & _ & q & Eq & _ & He0)]; [done|].
    by eapply (vo_saved _ _ _ Hok).
  - intros b. rewrite (ev_pal _ _ _ _ _ _ _ _ Hev). apply (vo_ram _ _ _ Hok).
Qed.

(** The slots of the pages that were swapped are as they were. *)
Lemma evicted_source t q v e : procs m !! t = Some q -> entry_at (sup q) v = Some e -> source m' e = source m e.
Proof using Hok Hev.
  intros Hq He. destruct (ev_same _ _ _ _ _ _ _ _ Hev) as (_ & Efs & _). destruct (ev_swap _ _ _ _ _ _ _ _ Hev) as [Hsw Hmono].
  destruct e; simpl; rewrite ?Efs; try done. destruct (vo_slots _ _ _ Hok _ _ _ _ _ _ _ Hq He) as [b Hb].
  destruct (sw_live _ _ (vo_swap _ _ _ Hok) _ _ Hb) as (_ & _ & -> & _). by destruct (sw_live _ _ Hsw _ _ (Hmono _ _ Hb)) as (_ & _ & -> & _).
Qed.

(** What the victim's page held. *)
Lemma victim_holds : holds m (f_t f) (virtual_address f) = umem m !! user_page f.
Proof using Hok Hf Hl Hp.
  unfold holds. rewrite Hp. destruct victim_addr as (_ & _ & Hn). destruct (Z.eqb_spec (pagedir p) 0); [done|].
  destruct (fo_loaded _ _ (vo_frames _ _ _ Hok) a f Hf Hl) as (q & Eq & _ & _ & _ & Hpr & Hpg & _). rewrite Hp in Eq. injection Eq as <-.
  unfold frame_entry in Hpr, Hpg. rewrite Hp in Hpr, Hpg. by rewrite Hpr, Hpg.
Qed.

Lemma evicted_holds t v : user_addr v -> holds m' t v = holds m t v \/
  t = f_t f /\ v = virtual_address f /\ dirty (frame_entry m f) = false /\ entry_at (sup p) v = None /\ holds m' t v = None.
Proof using Hok Hf Hl Hp Hev.
  intros Hv. destruct (ev_procs _ _ _ _ _ _ _ _ Hev) as (l & Epr & _ & _ & Hcase). destruct (ev_same _ _ _ _ _ _ _ _ Hev) as (Eu & _ & _).
  destruct (decide (t = f_t f /\ v = virtual_address f)) as [[-> ->]|Hne].
  - destruct victim_addr as (_ & Hpd & Hn). rewrite victim_holds. unfold holds. rewrite Epr, lookup_insert_eq. simpl.
    destruct (Z.eqb_spec (pagedir p) 0); [done|]. pose proof (ev_entries _ _ _ _ _ _ _ _ Hev (pagedir p) (virtual_address f) Hpd Hv) as He.
    cbv zeta in He. rewrite decide_True in He by done. rewrite He. destruct (entry_at l (virtual_address f)) as [e|]; [|right; by destruct Hcase].
    left. destruct e; try done. destruct Hcase as (-> & [b Hb] & _). rewrite Hb. simpl. f_equal.
    destruct (ev_swap _ _ _ _ _ _ _ _ Hev) as [Hsw _]. by destruct (sw_live _ _ Hsw _ _ Hb) as (_ & _ & ? & _).
  - left. assert (Hor : t <> f_t f \/ v <> virtual_address f) by (destruct (decide (t = f_t f)); [right; intros ->; tauto|by left]).
    unfold holds. destruct (procs m !! t) as [q|] eqn:Eq.
    + assert (Eq' : exists q', procs m' !! t = Some q') by (rewrite Epr, lookup_insert; case_decide; eauto). destruct Eq' as [q' Eq'].
      destruct (evicted_proc t q' Eq') as (q0 & Eq0 & Ed & _ & Hent). rewrite Eq in Eq0. injection Eq0 as <-. rewrite Eq', Ed, Hent by done.
      destruct (Z.eqb_spec (pagedir q) 0) as [|Hn]; [done|]. pose proof (vo_procs _ _ _ Hok t q Eq Hn) as Hpd.
      destruct (evicted_entry t q v Eq Hpd Hv Hor) as (-> & -> & _). rewrite Eu. destruct (present _); [done|].
      destruct (entry_at (sup q) v) as [e|] eqn:Ee; [|done]. by eapply evicted_source.
    + rewrite Epr, lookup_insert_ne by (intros <-; congruence). by rewrite Eq.
Qed.

Lemma evicted_clean : clean_ok m -> clean_ok m'.
Proof using Hok Hf Hl Hp Hev.
  intros Hcl b g q' e Hg Hlg Hq Hd He. pose proof (evicted_apart b g Hg Hlg) as Hne. destruct (evicted_other b g Hg) as [Hg0 _].
  destruct (evicted_proc _ _ Hq) as (q & Eq & Ed & _ & Hent). rewrite Hent in He by done. rewrite (evicted_source _ _ _ _ Eq He).
  destruct (ev_same _ _ _ _ _ _ _ _ Hev) as (-> & _). eapply Hcl; [done..| |done].
  destruct (victim_addr_of b g q Hg0 Hlg Eq) as [Hv Hpd]. unfold frame_entry in *. rewrite Hq in Hd. rewrite Eq. rewrite Ed in Hd.
  by destruct (evicted_entry _ _ _ Eq Hpd Hv Hne) as (_ & _ & <-).
Qed.
End Evicted.

(** ** The run of [ft_replacement] *)

(** The sanity check on the victim. *)
Lemma mapped_is_frame m pds live a f : vm_ok m pds live -> frames m !! a = Some f -> loaded f = true -> is_frame f = true.
Proof.
  intros Hok Hf Hl. pose proof (fo_loaded _ _ (vo_frames _ _ _ Hok) a f Hf Hl) as Hm. pose proof Hm as (p & Ep & Hpd & Hva & Hal & _ & _ & HP).
  pose proof (mapped_table _ _ _ _ Hm Ep) as Hd. destruct (user_indices _ Hva) as (Hi & Ht & _).
  destruct (table_of_entry _ _ _ (so_dir _ _ (fo_spaces _ _ (vo_frames _ _ _ Hok)) _ Hpd) Hi Hd) as (Ha & (Hk1 & Hk2 & Hk3) & _).
  fold (dir_entry (words (vms m)) (pagedir p) (virtual_address f)) in *. destruct (vo_ram _ _ _ Hok _ (adjoining_one _ _ (po_alloc _ _ (so_dir _ _ (fo_spaces _ _ (vo_frames _ _ _ Hok)) _ Hpd)) Ha)) as [Hne _].
  assert (Hland : forall x, is_u32 x -> Z.land x 0xfffff000 = x - x mod PGSIZE) by (intros x Hx; by rewrite <- pg_round_down_eq).
  unfold PHYS_BASE in *. rewrite PGSIZE_eq in *. unfold is_frame. rewrite !Hland; unfold pte_addr in HP; rewrite ?HP; [|unfold is_u32; lia..].
  apply andb_true_iff. split; apply negb_true_iff, Z.eqb_neq; Z.to_euclidean_division_equations; lia.
Qed.

Lemma aged_vm_ok m m' pds live ys : vm_ok m pds live -> aged pds ys m m' -> (forall a, hand m' = At a -> a ∈ frame_list m) -> vm_ok m' pds live.
Proof.
  intros Hok Ha Hh. pose proof (aged_ok _ _ _ _ (vo_frames _ _ _ Hok) Ha Hh) as Hfo. pose proof (aged_fields _ _ _ _ Ha) as (El & Ef & Ep & Eu & Es & Efs & _ & En).
  assert (Hsame : forall pd v, pd ∈ pds -> user_addr v -> present (entry (words (vms m')) pd v) = present (entry (words (vms m)) pd v)).
  { intros pd v Hpd [Hv _]. destruct (ag_entries _ _ _ _ Ha pd v Hpd Hv) as [->| ->]; [done|]. by destruct (clear_accessed (entry (words (vms m)) pd v)) as (_ & _ & ? & _). }
  destruct Hok. split; rewrite ?El, ?Ef, ?Ep, ?Eu, ?Es, ?En, ?(ag_pal _ _ _ _ Ha); try done.
  - intros t p v Hq Hpd Hv. rewrite Hsame by done. by apply vo_mapped0.
  - intros t p v v' slot d ev Hq Hpd Hv He. rewrite Hsame by done. by eapply vo_out0.
Qed.

(** What is needed to save a dirty page to swap. *)
Definition can_swap m (f : frame) : Prop := exists p n r, procs m !! f_t f = Some p /\ entry_mem (sup p) = S n /\
  is_file_page (entry_at (sup p) (virtual_address f)) = false /\ r ∈ free_swap_list (swp m) /\ 8 <= fs_size r.

(** The page of a loaded frame is not in swap. *)
Lemma loaded_not_swapped m pds live a f p : vm_ok m pds live -> frames m !! a = Some f -> loaded f = true -> procs m !! f_t f = Some p ->
  forall u slot d ev, entry_at (sup p) (virtual_address f) <> Some (swap_page u slot d ev).
Proof.
  intros Hok Hf Hl Hp u slot d ev Ee. destruct (victim_addr _ _ _ _ _ _ Hok Hf Hl Hp) as (Hv & Hpd & _).
  destruct (fo_loaded _ _ (vo_frames _ _ _ Hok) a f Hf Hl) as (q & Eq & _ & _ & _ & Hpr & _). rewrite Hp in Eq. injection Eq as <-.
  unfold frame_entry in Hpr. by rewrite Hp, (vo_out _ _ _ Hok _ _ _ _ _ _ _ Hp Hpd Hv Ee) in Hpr.
Qed.

(** Saving the victim, in a state where its page is no longer present. *)
Lemma save_run m pds live a f p v1 : vm_ok m pds live -> clean_ok m -> frames m !! a = Some f -> loaded f = true -> procs m !! f_t f = Some p ->
  (dirty (frame_entry m f) = true -> can_swap m f) ->
  exists s' l live', save_page hmem true f (dirty (frame_entry m f)) (entry_at (sup p) (virtual_address f)) (set_vms v1 m) =
      Ret (tt, set_procs (<[f_t f := mk_process (pagedir p) l]> (procs m)) (set_swp s' (set_vms v1 m))) /\
    swap_ok s' live' /\ (forall slot b, live !! slot = Some b -> live' !! slot = Some b) /\ sup_ok l /\
    (forall v, v <> virtual_address f -> entry_at l v = entry_at (sup p) v) /\
    forall m', swp m' = s' -> fsys m' = fsys m -> match entry_at l (virtual_address f) with
    | Some (swap_page u slot d ev) => umem m !! user_page f = live' !! slot /\ is_Some (live' !! slot) /\ live !! slot = None /\
        d = true /\ forall e, ev = Some e -> is_swap_page e = false /\ virtual_page e = virtual_address f
    | Some e => source m' e = umem m !! user_page f
    | None => dirty (frame_entry m f) = false /\ entry_at (sup p) (virtual_address f) = None
    end.
Proof.
  intros Hok Hcl Hf Hl Hp Hdirty. destruct (victim_addr _ _ _ _ _ _ Hok Hf Hl Hp) as (Hv & _ & _).
  destruct (vo_pages _ _ _ Hok a f Hf) as (_ & bytes & Eb & Hlen). pose proof (vo_sup _ _ _ Hok (f_t f) p Hp) as Hsup.
  destruct (dirty (frame_entry m f)) eqn:Ed.
  - destruct (Hdirty eq_refl) as (q & n & r & Eq & Hn & Hnf & Hr). rewrite Hp in Eq. injection Eq as <-.
    destruct (save_swap_run (set_vms v1 m) f p bytes live n) as (ss & s' & l & E & Hnone & Hsw & Hl' & Hent); try done.
    + destruct Hv as [Hv ?]. split; [unfold PHYS_BASE in Hv; lia|done].
    + apply (vo_swap _ _ _ Hok).
    + by exists r.
    + exists s', l, (<[ss := bytes]> live). split_and!; [exact E|done| |done| |].
      * intros slot b Hb. rewrite lookup_insert_ne; [done|congruence].
      * intros v Hne. by rewrite Hent, decide_False.
      * intros m' _ _. rewrite Hent, decide_True by done. rewrite lookup_insert_eq. split_and!; [done|by eexists|done|done|].
        intros e He. split; [|by eapply entry_at_page]. destruct e; try done. exfalso.
        by apply (loaded_not_swapped m pds live a f p Hok Hf Hl Hp _ _ _ _ He).
  - exists (swp m), (sup p), live. split_and!; [|apply (vo_swap _ _ _ Hok)|done|done|done|].
    + unfold save_page. rewrite (bind_run _ _ _ (set_vms v1 m) (set_vms v1 m)) by done. unfold mret, ST_ret. do 2 f_equal.
      rewrite insert_id by (rewrite Hp; by destruct p). by destruct m.
    + intros m' Es Efs. destruct (entry_at (sup p) (virtual_address f)) as [s|] eqn:Ee; [|done].
      pose proof (Hcl a f p s Hf Hl Hp Ed Ee) as Hc. destruct s; simpl in *; rewrite ?Efs; try done.
      by apply (loaded_not_swapped m pds live a f p Hok Hf Hl Hp) in Ee.
Qed.

Lemma aged_clean m m' pds live ys : vm_ok m pds live -> clean_ok m -> aged pds ys m m' -> clean_ok m'.
Proof.
  intros Hok Hcl Ha. pose proof (aged_fields _ _ _ _ Ha) as (El & Ef & Ep & Eu & Es & Efs & _ & En).
  assert (Hsrc : forall e, source m' e = source m e) by (intros []; simpl; by rewrite ?Efs, ?Es).
  intros a f p e. rewrite Ef, Ep, Eu. intros Hf Hl Hp Hd He. rewrite Hsrc. eapply Hcl; [done..| |done].
  rewrite (ag_frames _ _ _ _ Ha a f Hf Hl) in Hd. destruct (clear_accessed (frame_entry m f)) as (_ & E & _). case_decide; congruence.
Qed.

(** The part of [ft_replacement] after the choice of the victim. *)
Definition evict (a : Z) : ST (mach P) Z :=
  f ← get_frame a;
  ASSERT (is_frame f);;
  e ← on_vm (get_word (PTE f));
  evicted_page ← on_sup (f_t f) (find_lazy_page (virtual_address f));
  p ← get_process (f_t f);
  on_vm (pagedir_clear_page base_page_dir (pagedir p) (virtual_address f));;
  save_page hmem true f (dirty e) evicted_page;;
  remove_victim a (user_page f).

Lemma evict_run m pds live a b f p : vm_ok m pds live -> clean_ok m -> hand m = At a -> b ∈ frame_list m -> b <> a ->
  frames m !! a = Some f -> loaded f = true -> procs m !! f_t f = Some p -> (dirty (frame_entry m f) = true -> can_swap m f) ->
  exists m' live', evict a m = Ret (user_page f, m') /\ evicted pds live live' m a f p m'.
Proof.
  intros Hok Hcl Hh Hb Hne Hf Hl Hp Hdirty. pose proof (vo_frames _ _ _ Hok) as Hfo. destruct (victim_addr _ _ _ _ _ _ Hok Hf Hl Hp) as (Hv & Hpd & Hp0).
  pose proof (fo_loaded _ _ Hfo a f Hf Hl) as Hm. pose proof Hm as (q & Eq & _ & _ & _ & Hpr & Hpg & HP). rewrite Hp in Eq. injection Eq as <-.
  destruct (read_frame_pte m pds f Hfo Hm) as [Eg _].
  assert (Hpr' : present (entry (words (vms m)) (pagedir p) (virtual_address f)) = true) by (unfold frame_entry in Hpr; by rewrite Hp in Hpr).
  destruct (clear_page_entry base_page_dir (vms m) pds (pagedir p) (virtual_address f) (fo_spaces _ _ Hfo) Hpd (proj1 Hv) (proj2 Hv) Hpr') as (v1 & E1 & [S1 S2 S3 S4 S5]).
  destruct (save_run m pds live a f p v1 Hok Hcl Hf Hl Hp Hdirty) as (s' & l & live' & E2 & Hsw & Hmono & Hsl & Hent & Hcase).
  set (m2 := set_procs _ _) in E2. assert (Hc : exists y r, clock m2 (a :: y :: r)).
  { pose proof (fo_hand _ _ Hfo a Hh) as Hin. apply list_elem_of_split in Hin as (pre & post & El).
    assert (Hb' : b ∈ post ++ pre) by (rewrite El in Hb; set_solver). destruct (post ++ pre) as [|y r] eqn:E; [by apply elem_of_nil in Hb'|].
    exists y, r. exists pre, a, post. by rewrite E. }
  destruct Hc as (y & r & Hc). destruct (remove_run m2 a (user_page f) y r (fo_nodup _ _ Hfo) Hc) as (h & E3 & Hc3). set (m3 := set_table _ _ _ _) in E3, Hc3.
  exists m3, live'. split.
  - unfold evict. rewrite (bind_run _ _ _ f m) by (unfold get_frame; by rewrite Hf).
    rewrite (bind_run _ _ _ tt m) by (unfold ASSERT; by rewrite (mapped_is_frame m pds live a f)).
    rewrite (bind_run _ _ _ _ m) by exact Eg. rewrite (bind_run _ _ _ (entry_at (sup p) (virtual_address f)) m).
    2:{ apply (on_sup_read _ _ _ p); [done|]. destruct Hv as [Hv Hal]. unfold PHYS_BASE in Hv.
        rewrite find_lazy_page_run; [by rewrite Hal, Z.sub_0_r|by apply (vo_sup _ _ _ Hok (f_t f))|unfold is_u32; lia|lia]. }
    rewrite (bind_run _ _ _ p m) by (unfold get_process; by rewrite Hp). rewrite (bind_run _ _ _ tt (set_vms v1 m)) by (by apply zoom_run).
    by rewrite (bind_run _ _ _ tt m2) by exact E2.
  - split; try done.
    + intros x Hx. destruct Hc3 as (pre & x' & post & El & Eh & _). rewrite Eh in Hx. injection Hx as ->. rewrite El. set_solver.
    + intros pd v Hd Hu. cbv zeta. change (words (vms m3)) with (words v1). rewrite (S2 pd v Hd (proj1 Hu)).
      destruct (decide (pd = pagedir p /\ v / 4096 = virtual_address f / 4096)) as [[-> Ev]|Hn].
      * rewrite decide_True; [apply clear_present_entry|]. split; [done|]. destruct Hv as [_ Hal], Hu as [_ Hal']. rewrite PGSIZE_eq in *.
        Z.to_euclidean_division_equations. lia.
      * rewrite decide_False; [done|]. intros [-> ->]. by apply Hn.
    + exists l. split_and!; [done|done|done|]. by apply Hcase.
Qed.

Lemma replacement_run m pds live a b f p : vm_ok m pds live -> clean_ok m -> victim m = Some a -> b ∈ frame_list m -> b <> a ->
  frames m !! a = Some f -> procs m !! f_t f = Some p -> (dirty (frame_entry m f) = true -> can_swap m f) ->
  exists m' live', ft_replacement base_page_dir hmem true m = Ret (user_page f, m') /\ evicted pds live live' m a f p m'.
Proof.
  intros Hok Hcl Hvic Hb Hne Hf Hp Hdirty. pose proof (vo_frames _ _ _ Hok) as Hfo.
  destruct (victim_frame m pds a Hfo Hvic) as (Hin & f' & Ef' & Hl). rewrite Hf in Ef'. injection Ef' as <-.
  destruct (clock_run base_page_dir m pds a Hfo Hvic) as (m1 & E1 & Hh & Hfo1 & Hag). pose proof (aged_fields _ _ _ _ Hag) as (El & Ef & Ep & Eu & Es & Efs & Ehp & En).
  assert (Hd : dirty (frame_entry m1 f) = dirty (frame_entry m f)).
  { rewrite (ag_frames _ _ _ _ Hag a f Hf Hl). case_decide; [|done]. by destruct (clear_accessed (frame_entry m f)) as (_ & ? & _). }
  destruct (evict_run m1 pds live a b f p) as (m' & live' & E & Hev).
  - eapply aged_vm_ok; [done|exact Hag|]. intros x Hx. rewrite Hh in Hx. by injection Hx as <-.
  - by eapply aged_clean.
  - done.
  - by rewrite El.
  - done.
  - by rewrite Ef.
  - done.
  - by rewrite Ep.
  - rewrite Hd. unfold can_swap. by rewrite Ep, Es.
  - exists m', live'. split.
    + unfold ft_replacement. rewrite (bind_run _ _ _ m m) by done. rewrite (bind_run _ _ _ tt m).
      2:{ unfold ASSERT. rewrite bool_decide_true; [done|]. intros En0. rewrite En0 in Hin. by apply elem_of_nil in Hin. }
      rewrite (bind_run _ _ _ a m1) by exact E1. exact E.
    + destruct Hev as [V1 V2 V3 (V4 & V5 & V6 & V6') V7 V8 V9 V10 V11 V12]. split; try (congruence || done).
      * split_and!; congruence.
      * intros pd v Hpd Hv Hd0. rewrite <- (ag_tables _ _ _ _ Hag pd v Hpd Hv Hd0). apply V8; [done|done|]. by rewrite (ag_tables _ _ _ _ Hag).
      * rewrite V9. apply Hag.
      * intros pd v Hpd Hv. pose proof (V10 pd v Hpd Hv) as V. cbv zeta in V |- *. case_decide; [done|].
        destruct V as (W1 & W2 & W3). unfold same_entry. rewrite W1, W2, W3.
        destruct (ag_entries _ _ _ _ Hag pd v Hpd (proj1 Hv)) as [->| ->]; [done|]. apply same_entry_clear.
      * rewrite Ep, Eu, Hd in V12. exact V12.
Qed.
End Evict.

(** ** Properties *)

Section Claims.
Context {P : Type} `{UserPages P} (base_page_dir ram_pages : Z) (hmem : bool).
Implicit Types (m : mach P) (pds : gset Z) (live : gmap Z (list Z)).

(** C26: The second-chance clock ends and finds the frame the algorithm defines:
    the first loaded frame from the hand on that was not accessed since the
    hand passed, or the first loaded one if all were.  On the way it clears the
    accessed bits of exactly the frames it passed, keeps every other part of
    every page table entry, and leaves the hand on the victim.  If no frame
    is loaded there is no victim and the loop never ends. *)
Theorem clock_correct m pds : frames_ok m pds -> frame_list m <> [] ->
  match victim m with
  | Some a => exists m', get_frame_for_replacement base_page_dir m = Ret (a, m') /\ hand m' = At a /\ is_loaded m a = true /\
      frames_ok m' pds /\
      (forall b f, frames m !! b = Some f -> loaded f = true ->
         frame_entry m' f = if decide (b ∈ passed m) then clear PTE_A (frame_entry m f) else frame_entry m f) /\
      (exists h v, m' = set_hand h (set_vms v m))
  | None => exists m1, check_and_set_hand m = Ret (tt, m1) /\ forall fuel, replacement_loop base_page_dir fuel m1 = OutOfFuel
  end.
Proof.
  intros Hok Hne. destruct (victim m) as [a|] eqn:Hv.
  - destruct (clock_run base_page_dir m pds a Hok Hv) as (m' & E & Hh & Hok' & Hag). exists m'. split_and!; [done|done| |done|apply Hag|apply Hag].
    destruct (victim_frame m pds a Hok Hv) as (_ & f & Ef & Hl). unfold is_loaded. by rewrite Ef.
  - destruct (check_hand_clock m pds Hok Hne) as (h & E & Hc). exists (set_hand h m). split; [done|]. intros fuel.
    eapply (clock_diverges _ _ pds); [|exact Hc|].
    + eapply aged_ok; [done|apply aged_none, Hok|]. intros x Hx. destruct Hc as (pre & y & post & El & Eh & _). rewrite Hx in Eh. injection Eh as ->.
      change (frame_list m) with (frame_list (set_hand h m)). rewrite El. set_solver.
    + intros a f Hf. change (frames (set_hand h m)) with (frames m) in Hf. destruct (loaded f) eqn:Hl; [|done]. exfalso.
      destruct (victim_loaded m pds a Hok) as [b Hb]; [by rewrite Hf| |congruence].
      unfold is_loaded. by rewrite Hf.
Qed.

End Claims.

(** ** An example

    Seven pages of memory: a page directory at 0xc0101000 with its page table
    at 0xc0102000, two pages for other purposes, and three user pages.  One
    process has a dirty page at 0x8048000 in the first user page, the second
    user page belongs to a frame that is not loaded yet, the third is free. *)
Definition vm_pool : palloc :=
  mk_palloc (mk_pool (mk_bitmap 4 [0xF]) 0xc0100000) (mk_pool (mk_bitmap 3 [3]) 0xc0104000) ∅.
Definition vm_words : gmap Z Z :=
  <[0xc0101080 := 0x102007]> (<[0xc0102120 := 0x104067]> (fill_words (7 * 1024) 0xc0100000 0 ∅)).
Definition demo_space : vm palloc := mk_vm vm_words vm_pool 0x101000 ∅.
Definition demo_with (l : lazy) : mach palloc :=
  mk_mach [1; 2] (<[1 := mk_frame 7 0xc0104000 0xc0102120 0x8048000 true]> (<[2 := mk_frame 7 0xc0105000 0 0 false]> ∅)) Head [] 3
    demo_space (<[0xc0104000 := demo_frame]> (<[0xc0105000 := zero_bytes]> ∅)) {[ 7 := mk_process 0xc0101000 l ]} demo_swap0 demo_fs.
Definition demo_mach : mach palloc := demo_with demo_table.

#[local] Opaque fill_words.

Lemma vm_pool_ok : palloc_ok vm_pool.
Proof. split; [split; [split|done..]|split; [split|done..]|]; simpl; first [done | by repeat constructor]. Qed.

Lemma vm_allocated a : palloc_allocated vm_pool a <-> exists i, 0 <= i < 6 /\ a = 0xc0100000 + 4096 * i.
Proof.
  split.
  - intros ([] & i & Hi & Hb & ->); simpl in Hi.
    + assert (E : i = 0 \/ i = 1 \/ i = 2) by lia. exists (i + 4). destruct_or!; subst; simpl in *; done.
    + assert (E : i = 0 \/ i = 1 \/ i = 2 \/ i = 3) by lia. exists i. destruct_or!; subst; simpl in *; done.
  - intros (i & Hi & ->). assert (E : i = 0 \/ i = 1 \/ i = 2 \/ i = 3 \/ i = 4 \/ i = 5) by lia.
    destruct (decide (i < 4)); [exists false, i|exists true, (i - 4)]; destruct_or!; subst; done || lia.
Qed.

Lemma vm_adjoining a : palloc_adjoining vm_pool a 1 -> exists i, 0 <= i < 7 /\ a = 0xc0100000 + 4096 * i.
Proof. intros ([] & i & H0 & H1 & ->); simpl in H1; unfold page_of; rewrite PGSIZE_eq; simpl; [exists (i + 4)|exists i]; lia. Qed.

Lemma vm_word i k : 0 <= i < 7 -> 0 <= k < 1024 ->
  vm_words !! (0xc0100000 + 4096 * i + 4 * k) =
    Some (if decide (i = 1 /\ k = 32) then 0x102007 else if decide (i = 2 /\ k = 72) then 0x104067 else 0).
Proof.
  intros Hi Hk. unfold vm_words. rewrite !lookup_insert, fill_words_lookup.
  destruct (decide (i = 1 /\ k = 32)) as [[-> ->]|H1]; [by rewrite decide_True|]. rewrite decide_False by lia.
  destruct (decide (i = 2 /\ k = 72)) as [[-> ->]|H2]; [by rewrite decide_True|]. rewrite decide_False by lia.
  rewrite decide_True; [done|]. change (4 * (7 * 1024)%nat) with 28672.
  split; [lia|]. replace (0xc0100000 + 4096 * i + 4 * k - 0xc0100000) with ((1024 * i + k) * 4) by lia. by rewrite Z.mod_mul.
Qed.
#[local] Opaque vm_words.

Lemma vm_page_words i : 0 <= i < 7 -> page_words vm_words (0xc0100000 + 4096 * i).
Proof. intros Hi k Hk. rewrite vm_word by done. eexists. split; [done|]. repeat case_decide; done. Qed.

Lemma vm_dir k : 0 <= k < 768 -> word_at vm_words (0xc0101000 + 4 * k) = if decide (k = 32) then 0x102007 else 0.
Proof.
  intros Hk. unfold word_at. change 0xc0101000 with (0xc0100000 + 4096 * 1). rewrite vm_word by lia. cbn [default from_option].
  repeat case_decide; done || lia.
Qed.

Lemma demo_spaces : spaces_ok demo_space {[ 0xc0101000 ]}.
Proof.
  split.
  - intros pd ->%elem_of_singleton. split; [apply vm_pool_ok|done| | | |].
    + intros a (i & Hi & ->)%vm_allocated. apply vm_page_words. lia.
    + apply vm_allocated. by exists 1.
    + intros k Hk. simpl. rewrite vm_dir by done. case_decide; [|done]. intros _. exists 0xc0102000.
      split_and!; [done| |done]. apply vm_allocated. by exists 2.
    + intros j k Hj Hk. simpl. rewrite !vm_dir by done. repeat case_decide; lia.
  - by intros pd pd' ->%elem_of_singleton ->%elem_of_singleton.
  - intros a (i & Hi & ->)%vm_adjoining _. by apply vm_page_words.
Qed.

Lemma demo_present va : user_addr va -> entry vm_words 0xc0101000 va = if decide (va = 0x8048000) then 0x104067 else 0.
Proof.
  intros [Hva Hal]. destruct (user_indices va Hva) as (Hd & Ht & E). rewrite PGSIZE_eq in Hal. unfold entry, dir_entry. rewrite vm_dir by done.
  destruct (decide (pd_no va = 32)) as [E32|Hne].
  - change (0x102007 =? 0) with false. cbn [negb]. change (table_of 0x102007) with (0xc0100000 + 4096 * 2). unfold word_at.
    rewrite vm_word by lia. cbn [default from_option]. rewrite decide_False by lia.
    destruct (decide (va = 0x8048000)) as [->|Hne]; [by rewrite decide_True by (split; [done|by vm_compute])|].
    rewrite decide_False; [done|]. intros [_ E72]. apply Hne. Z.to_euclidean_division_equations. lia.
  - change (0 =? 0) with true. cbn [negb]. rewrite decide_False; [done|]. intros ->. by apply Hne.
Qed.

Lemma demo_frame_at l a f : frames (demo_with l) !! a = Some f ->
  a = 1 /\ f = mk_frame 7 0xc0104000 0xc0102120 0x8048000 true \/ a = 2 /\ f = mk_frame 7 0xc0105000 0 0 false.
Proof. simpl. rewrite !lookup_insert, lookup_empty. repeat case_decide; try done; intros [= <-]; auto. Qed.

Lemma demo_procs l t p : procs (demo_with l) !! t = Some p -> t = 7 /\ p = mk_process 0xc0101000 l.
Proof. simpl. intros [<- <-]%lookup_singleton_Some. done. Qed.

Lemma demo_frame_entry l f : f_t f = 7 -> user_addr (virtual_address f) -> frame_entry (demo_with l) f = if decide (virtual_address f = 0x8048000) then 0x104067 else 0.
Proof. intros Et Hv. unfold frame_entry. simpl. rewrite Et, lookup_singleton_eq. by apply demo_present. Qed.

Lemma demo_frames_ok l : frames_ok (demo_with l) {[ 0xc0101000 ]}.
Proof.
  split.
  - simpl. repeat constructor; set_solver.
  - intros a. simpl. rewrite !lookup_insert, lookup_empty. split.
    + intros Ha. repeat case_decide; eauto. set_solver.
    + intros [f Hf]. repeat case_decide; [set_solver..|done].
  - done.
  - apply demo_spaces.
  - intros a f [[-> ->]|[-> ->]]%demo_frame_at; [|intros Hx; discriminate Hx]. intros _.
    exists (mk_process 0xc0101000 l). rewrite demo_frame_entry by (done || (split; done)). rewrite decide_True by done.
    split_and!; done.
  - intros a b f g [[-> ->]|[-> ->]]%demo_frame_at [[-> ->]|[-> ->]]%demo_frame_at; try done; intros Hx Hy; discriminate Hx || discriminate Hy.
  - by intros t t' p p' [-> ->]%demo_procs [-> ->]%demo_procs.
Qed.

Lemma demo_with_ok l : sup_ok l -> (forall v u slot d ev, entry_at l v <> Some (swap_page u slot d ev)) -> vm_ok 0x1000 (demo_with l) {[ 0xc0101000 ]} ∅.
Proof.
  intros Hl Hno. split.
  - apply demo_frames_ok.
  - simpl. set_solver by lia.
  - intros t p [-> ->]%demo_procs _. simpl. set_solver.
  - intros t p v [-> ->]%demo_procs _ Hv. simpl. rewrite demo_present by done. case_decide; [|done]. subst v. intros _.
    by exists 1, (mk_frame 7 0xc0104000 0xc0102120 0x8048000 true).
  - intros a f [[-> ->]|[-> ->]]%demo_frame_at; simpl.
    + split; [apply vm_allocated; by exists 4|]. exists demo_frame. split; [done|by vm_compute].
    + split; [apply vm_allocated; by exists 5|]. exists zero_bytes. split; [done|by vm_compute].
  - intros a b f g [[-> ->]|[-> ->]]%demo_frame_at [[-> ->]|[-> ->]]%demo_frame_at; done.
  - by intros t p [-> ->]%demo_procs.
  - apply swap_ok_init; [apply demo_disk_ok|done].
  - intros t p v v' slot d ev [-> ->]%demo_procs. intros E; by apply Hno in E.
  - intros t t' p p' v v' u u' slot d d' ev ev' [-> ->]%demo_procs _. intros E; by apply Hno in E.
  - intros t p v v' slot d ev [-> ->]%demo_procs. intros _ _ E; by apply Hno in E.
  - intros t p v v' slot d ev [-> ->]%demo_procs. intros E; by apply Hno in E.
  - intros a (i & Hi & ->)%vm_adjoining. rewrite PGSIZE_eq. unfold PHYS_BASE. split; [lia|]. Z.to_euclidean_division_equations. lia.
Qed.

Lemma demo_victim : victim demo_mach = Some 1 /\ passed demo_mach = [1; 2].
Proof. by vm_compute. Qed.

Lemma demo_mach_ok : vm_ok 0x1000 demo_mach {[ 0xc0101000 ]} ∅.
Proof. apply demo_with_ok; [apply demo_table_ok|]. by intros v u slot d ev. Qed.

Lemma demo_user : user_addr 0x8048000.
Proof. by split. Qed.

Lemma demo_clean l : clean_ok (demo_with l).
Proof.
  intros a f p e [[-> ->]|[-> ->]]%demo_frame_at; [|intros Hx; discriminate Hx]. intros _ _ Hd _. exfalso. revert Hd.
  rewrite demo_frame_entry by (reflexivity || apply demo_user). discriminate.
Qed.

Lemma clock_correct_witness : exists m', get_frame_for_replacement 0xc0000000 demo_mach = Ret (1, m') /\ hand m' = At 1.
Proof.
  pose proof (clock_correct 0xc0000000 demo_mach {[ 0xc0101000 ]} (demo_frames_ok demo_table) ltac:(discriminate)) as Hc.
  rewrite (proj1 demo_victim) in Hc. destruct Hc as (m' & E & Hh & _). exists m'. exact (conj E Hh).
Defined.

