(* ===== verification/FrameFault.v ===== *)
(** * Correctness of page faults

    A page fault on a page that a process may use brings the page into memory
    with the bytes it holds (userprog/exception.c), and changes what no other
    page holds. *)

From S2P Require Import Prelude Vaddr Bytes Bitmap Palloc PageAlloc Segments Pagedir PagedirProps Spaces Hash HashProps Page PageProps Disk Swap Inode InodeProps File Frame FrameProps FrameEvict.

Section Fault.
Context {P : Type} `{UserPages P} (base_page_dir ram_pages : Z) (hmem : bool) (junk : Z) (stale : Z -> list Z).
Context (Hstale : forall a, length (stale a) = 4096%nat) (Hram : ram_pages < 2 ^ 18).
Implicit Types (m : mach P) (pds : gset Z) (live : gmap Z (list Z)).

(** ** Getting a page *)

(** A page that is allocated and belongs to no frame. *)
Record spare m (k : Z) : Prop := {
  sp_alloc : allocated (pal (vms m)) k;
  sp_free a f : frames m !! a = Some f -> user_page f <> k;
  sp_bytes : exists b, umem m !! k = Some b /\ length b = 4096%nat;
}.

(** A page that is present is that of a frame. *)
Lemma present_frame m pds live t p v : vm_ok ram_pages m pds live -> procs m !! t = Some p -> pagedir p ∈ pds -> user_addr v ->
  present (entry (words (vms m)) (pagedir p) v) = true ->
  exists a f, frames m !! a = Some f /\ user_page f = page_of_entry (entry (words (vms m)) (pagedir p) v).
Proof.
  intros Hok Hp Hpd Hv Hpr. destruct (vo_mapped _ _ _ _ Hok t p v Hp Hpd Hv Hpr) as (a & f & Hf & Hl & Et & Ev).
  destruct (fo_loaded _ _ (vo_frames _ _ _ _ Hok) a f Hf Hl) as (q & Eq & _ & _ & _ & _ & Hpg & _).
  exists a, f. split; [done|]. rewrite <- Hpg. unfold frame_entry. by rewrite Et, Hp, Ev.
Qed.

(** The state after the allocator gave page [k]. *)
Definition with_page m (k : Z) (p' : P) (bytes : list Z) : mach P :=
  set_umem (<[k := bytes]> (umem m)) (set_vms (mk_vm (words (vms m)) p' (cr3 (vms m)) (tlb (vms m))) m).

Section Pool.
Context m pds live (k : Z) (p' : P) (bytes : list Z) (Hok : vm_ok ram_pages m pds live) (Hp' : pages_ok p') (Hk : kernel_page k) (Hna : ~ allocated (pal (vms m)) k)
  (Hal : forall b, allocated p' b <-> b = k \/ allocated (pal (vms m)) b) (Hpool : same_pool (pal (vms m)) p') (Hlen : length bytes = 4096%nat).

Lemma pool_not_frame a f : frames m !! a = Some f -> user_page f <> k.
Proof using Hok Hna. intros Hf E. apply Hna. rewrite <- E. by apply (vo_pages _ _ _ _ Hok a f). Qed.

Lemma pool_ok : vm_ok ram_pages (with_page m k p' bytes) pds live.
Proof using Hok Hp' Hna Hal Hpool Hlen.
  assert (Hmono : forall b, allocated (pal (vms m)) b -> allocated p' b) by (intros b Hb; apply Hal; by right).
  pose proof pool_not_frame as Hnf. destruct Hok as [[F1 F2 F3 F4 F5 F6 F7] V2 V3 V4 V5 V6 V7 V8 V9 V10 V11 V12 V13].
  split; try done.
  - split; try done. by apply spaces_pal.
  - intros a f Hf. destruct (V5 a f Hf) as (Ha & b & Eb & Hb). split; [by apply Hmono|]. exists b. simpl. by rewrite lookup_insert_ne by (intros E; by apply (Hnf a f)).
  - intros a Ha. apply V13. by apply Hpool.
Qed.

Lemma pool_clean : clean_ok m -> clean_ok (with_page m k p' bytes).
Proof using Hok Hna.
  intros Hcl a f p e Hf Hl Hp Hd He. simpl. rewrite lookup_insert_ne by (intros E; by apply (pool_not_frame a f)).
  rewrite (Hcl a f p e Hf Hl Hp Hd He). by destruct e.
Qed.

Lemma pool_spare : spare (with_page m k p' bytes) k.
Proof using Hok Hna Hal Hlen.
  split; [apply Hal; by left|apply pool_not_frame|]. exists bytes. simpl. by rewrite lookup_insert_eq.
Qed.

Lemma pool_holds t v : user_addr v -> holds (with_page m k p' bytes) t v = holds m t v.
Proof using Hok Hna.
  intros Hv. unfold holds. simpl. destruct (procs m !! t) as [p|] eqn:Ep; [|done]. destruct (Z.eqb_spec (pagedir p) 0) as [|Hn]; [done|].
  destruct (present _) eqn:Hpr; [|by destruct (entry_at _ _) as [[]|]].
  destruct (present_frame m pds live t p v Hok Ep (vo_procs _ _ _ _ Hok t p Ep Hn) Hv Hpr) as (a & f & Hf & <-).
  by rewrite lookup_insert_ne by (intros E; by apply (pool_not_frame a f)).
Qed.
End Pool.

(** A frame can be taken away. *)
Definition can_evict m : Prop := exists a b f, victim m = Some a /\ frames m !! a = Some f /\ b ∈ frame_list m /\ b <> a /\
  (dirty (frame_entry m f) = true -> can_swap m f).

(** A page without an entry that was never written: its bytes may be lost. *)
Definition unwritten m (t v : Z) : Prop := exists p, procs m !! t = Some p /\ entry_at (sup p) v = None /\
  dirty (entry (words (vms m)) (pagedir p) v) = false.

(** What getting a page keeps, for a process [cur] that faulted at [v]. *)
Record acquired pds m (cur : Z) p (v : Z) m1 p1 : Prop := {
  aq_proc : procs m1 !! cur = Some p1;
  aq_dir : pagedir p1 = pagedir p;
  aq_entry : entry_at (sup p1) v = entry_at (sup p) v;
  aq_absent : present (entry (words (vms m1)) (pagedir p) v) = false;
  aq_same : fsys m1 = fsys m /\ frame_heap m1 = frame_heap m;
  aq_tables : tables_stay pds (words (vms m)) (words (vms m1));
  aq_fault : holds m1 cur v = holds m cur v;
  aq_holds t u : user_addr u -> holds m1 t u = holds m t u \/ unwritten m t u /\ holds m1 t u = None;
}.

Lemma acquire_run m pds live cur p v : vm_ok ram_pages m pds live -> clean_ok m -> procs m !! cur = Some p -> pagedir p ∈ pds -> user_addr v ->
  present (entry (words (vms m)) (pagedir p) v) = false ->
  (forall p', get_user_page false (pal (vms m)) = Ret (0, p') -> can_evict m) ->
  exists page m0 k m1 live1 p1, get_page_user stale false m = Ret (page, m0) /\
    (if page =? 0 then ft_replacement base_page_dir hmem true else mret page) m0 = Ret (k, m1) /\
    vm_ok ram_pages m1 pds live1 /\ clean_ok m1 /\ spare m1 k /\ acquired pds m cur p v m1 p1.
Proof.
  intros Hok Hcl Hp Hpd Hv Hpr Hev. pose proof (po_alloc _ _ (so_dir _ _ (fo_spaces _ _ (vo_frames _ _ _ _ Hok)) _ Hpd)) as Hpo.
  destruct (get_user_page_spec (pal (vms m)) false Hpo) as (k & p' & Eg & Hp' & Hcase).
  assert (Ep : on_vm (on_pal (get_user_page false)) m = Ret (k, set_vms (mk_vm (words (vms m)) p' (cr3 (vms m)) (tlb (vms m))) m)).
  { apply zoom_run. unfold on_pal. by rewrite Eg. }
  exists k. destruct Hcase as [[-> ->]|(Hk & Hna & Hal & Hpool)].
  - destruct (Hev _ Eg) as (a & b & f & Hvic & Hf & Hb & Hne & Hd). pose proof (vo_frames _ _ _ _ Hok) as Hfo.
    destruct (victim_frame m pds a Hfo Hvic) as (_ & f' & Ef' & Hl). rewrite Hf in Ef'. injection Ef' as <-.
    destruct (fo_loaded _ _ Hfo a f Hf Hl) as (q & Hq & Hqd & Hva & Hal & Hprq & Hpg & HP).
    destruct (replacement_run base_page_dir ram_pages hmem m pds live a b f q Hok Hcl Hvic Hb Hne Hf Hq Hd) as (m1 & live1 & E & He).
    assert (Hor : cur <> f_t f \/ v <> virtual_address f).
    { destruct (decide (cur = f_t f)) as [->|]; [|by left]. right. intros ->. rewrite Hp in Hq. injection Hq as <-.
      unfold frame_entry in Hprq. rewrite Hp in Hprq. congruence. }
    destruct (ev_same _ _ _ _ _ _ _ _ He) as (Eu & Efs & _ & Eh). destruct (ev_procs _ _ _ _ _ _ _ _ He) as (l & Epr & _).
    assert (Hp1 : exists p1, procs m1 !! cur = Some p1) by (rewrite Epr, lookup_insert; case_decide; eauto). destruct Hp1 as [p1 Hp1].
    destruct (evicted_proc _ _ _ _ _ _ _ _ Hq He cur p1 Hp1) as (p0 & Ep0 & Ed & _ & Hent). rewrite Hp in Ep0. injection Ep0 as <-.
    destruct (evicted_entry _ _ _ _ _ _ _ _ _ Hok Hf Hl Hq He cur p v Hp Hpd Hv Hor) as (S1 & _).
    exists m, (user_page f), m1, live1, p1. split_and!.
    + unfold get_page_user. rewrite (bind_run _ _ _ _ _ Ep). cbn [Z.eqb negb when]. rewrite (bind_run _ _ _ tt m); [done|].
      unfold mret, ST_ret. by destruct m, vms.
    + exact E.
    + by eapply (evicted_ok ram_pages).
    + by eapply (evicted_clean ram_pages).
    + destruct (vo_pages _ _ _ _ Hok a f Hf) as (Hall & bb & Ebb & Hlb). split.
      * by rewrite (ev_pal _ _ _ _ _ _ _ _ He).
      * intros c g Hg Epg. destruct (evicted_other _ _ _ _ _ _ _ _ He c g Hg) as [Hg0 Hca]. apply Hca. by eapply (vo_apart _ _ _ _ Hok).
      * exists bb. by rewrite Eu.
    + split; try done.
      * by apply Hent.
      * by rewrite S1.
      * apply He.
      * destruct (evicted_holds _ _ _ _ _ _ _ _ _ Hok Hf Hl Hq He cur v Hv) as [?|(-> & -> & _)]; [done|by destruct Hor].
      * intros t u Hu. destruct (evicted_holds _ _ _ _ _ _ _ _ _ Hok Hf Hl Hq He t u Hu) as [?|(-> & -> & Hdf & Hnone & Hh)]; [by left|right].
        split; [|done]. exists q. unfold frame_entry in Hdf. by rewrite Hq in Hdf.
  - assert (Hk0 : k <> 0) by (unfold kernel_page, PHYS_BASE in Hk; lia). set (m1 := with_page m k p' (stale k)).
    exists m1, k, m1, live, p. split_and!.
    + unfold get_page_user. rewrite (bind_run _ _ _ _ _ Ep). rewrite (bind_run _ _ _ tt m1); [done|]. destruct (Z.eqb_spec k 0); [done|]. done.
    + by destruct (Z.eqb_spec k 0).
    + by apply pool_ok.
    + by eapply pool_clean.
    + by eapply pool_spare.
    + split; try done; [by eapply pool_holds|]. intros t u Hu. left. by eapply pool_holds.
Qed.

(** ** The state after a fault *)

(** The entry of a page once it is in memory. *)
Definition restored (e : option special_page_elem) : option special_page_elem :=
  match e with Some (swap_page _ _ _ ev) => ev | _ => e end.

(** Page [k], with [bytes], has been given to the process [p] of [cur] at [v];
    [live'] are the swap slots then. *)
Record resumed pds live live' m (cur v : Z) p (k : Z) (bytes : list Z) m' : Prop := {
  rs_list : frame_list m' = frame_list m ++ [next_frame m] /\ hand m' = hand m /\ next_frame m' = next_frame m + 1;
  rs_frames : frames m' = <[next_frame m := mk_frame cur k (pte_addr (words (vms m')) (pagedir p) v) v true]> (frames m);
  rs_umem : umem m' = <[k := bytes]> (umem m) /\ length bytes = 4096%nat;
  rs_spaces : spaces_ok (vms m') pds;
  rs_tables : tables_stay pds (words (vms m)) (words (vms m'));
  rs_pal : (forall b, allocated (pal (vms m)) b -> allocated (pal (vms m')) b) /\ same_pool (pal (vms m)) (pal (vms m'));
  rs_entries pd u : pd ∈ pds -> user_addr u -> let e' := entry (words (vms m')) pd u in
    if decide (pd = pagedir p /\ u = v) then present e' = true /\ page_of_entry e' = k else e' = entry (words (vms m)) pd u;
  rs_swap : swap_ok (swp m') live';
  rs_live slot : live !! slot = live' !! slot \/ exists u d ev, entry_at (sup p) v = Some (swap_page u slot d ev);
  rs_files e : is_swap_page e = false -> source m' e = source m e;
  rs_procs : exists l, procs m' = <[cur := mk_process (pagedir p) l]> (procs m) /\ sup_ok l /\
    (forall u, u <> v -> entry_at l u = entry_at (sup p) u) /\ entry_at l v = restored (entry_at (sup p) v);
  rs_clean e : restored (entry_at (sup p) v) = Some e -> dirty (entry (words (vms m')) (pagedir p) v) = false -> source m e = Some bytes;
}.

Section Resumed.
Context pds live live' m (cur v : Z) (p : process) (k : Z) (bytes : list Z) m' (Hok : vm_ok ram_pages m pds live) (Hp : procs m !! cur = Some p) (Hpd : pagedir p ∈ pds)
  (Hv : user_addr v) (Habs : present (entry (words (vms m)) (pagedir p) v) = false) (Hsp : spare m k)
  (Hrs : resumed pds live live' m cur v p k bytes m').

Lemma resumed_proc t q' : procs m' !! t = Some q' -> exists q, procs m !! t = Some q /\ pagedir q' = pagedir q /\
  (forall u, t <> cur \/ u <> v -> entry_at (sup q') u = entry_at (sup q) u) /\
  (t = cur -> entry_at (sup q') v = restored (entry_at (sup q) v)).
Proof using Hp Hrs.
  destruct (rs_procs _ _ _ _ _ _ _ _ _ _ Hrs) as (l & -> & _ & Hent & He). rewrite lookup_insert. case_decide as E.
  - subst t. intros [= <-]. exists p. split_and!; [done|done| |done]. intros u [?|Hu]; [done|]. by apply Hent.
  - intros Hq. exists q'. by split_and!.
Qed.

Lemma dirs_apart t q : procs m !! t = Some q -> pagedir q = pagedir p -> t = cur.
Proof using Hok Hp Hpd.
  intros Hq E. eapply (fo_dirs _ _ (vo_frames _ _ _ _ Hok) t cur q p); [done..|]. rewrite E.
  pose proof (spaces_page _ _ _ (fo_spaces _ _ (vo_frames _ _ _ _ Hok)) Hpd) as [Hk _]. unfold PHYS_BASE in Hk. lia.
Qed.

Lemma resumed_entry t q u : procs m !! t = Some q -> pagedir q ∈ pds -> user_addr u -> t <> cur \/ u <> v ->
  entry (words (vms m')) (pagedir q) u = entry (words (vms m)) (pagedir q) u.
Proof using Hok Hp Hpd Hrs.
  intros Hq Hqd Hu Hor. pose proof (rs_entries _ _ _ _ _ _ _ _ _ _ Hrs (pagedir q) u Hqd Hu) as He. cbv zeta in He.
  rewrite decide_False in He; [done|]. intros [E1 E2]. destruct Hor as [Hor|Hor]; [|done]. by apply Hor, (dirs_apart t q).
Qed.

Lemma resumed_new : present (entry (words (vms m')) (pagedir p) v) = true /\ page_of_entry (entry (words (vms m')) (pagedir p) v) = k.
Proof using Hpd Hv Hrs. pose proof (rs_entries _ _ _ _ _ _ _ _ _ _ Hrs (pagedir p) v Hpd Hv) as He. cbv zeta in He. by rewrite decide_True in He. Qed.

Lemma next_fresh : frames m !! next_frame m = None.
Proof using Hok.
  destruct (frames m !! next_frame m) as [f|] eqn:E; [|done]. assert (Hin : next_frame m ∈ frame_list m) by (apply (fo_dom _ _ (vo_frames _ _ _ _ Hok)); by eexists).
  apply (vo_fresh _ _ _ _ Hok) in Hin. lia.
Qed.

(** The frames: the new one and the others, which are elsewhere. *)
Lemma resumed_frame b g : frames m' !! b = Some g ->
  b = next_frame m /\ g = mk_frame cur k (pte_addr (words (vms m')) (pagedir p) v) v true \/
  b <> next_frame m /\ frames m !! b = Some g /\ user_page g <> k /\ (loaded g = true -> f_t g <> cur \/ virtual_address g <> v).
Proof using Hok Hp Habs Hsp Hrs.
  rewrite (rs_frames _ _ _ _ _ _ _ _ _ _ Hrs), lookup_insert. case_decide as E; [intros [= <-]; by left|]. intros Hg. right.
  split_and!; [done|done|by apply (sp_free _ _ Hsp b)|]. intros Hl. destruct (decide (f_t g = cur)) as [Et|]; [|by left]. right. intros Ev.
  destruct (fo_loaded _ _ (vo_frames _ _ _ _ Hok) b g Hg Hl) as (q & Eq & _ & _ & _ & Hpr & _). unfold frame_entry in Hpr. rewrite Et, Hp, Ev in Hpr. congruence.
Qed.

Lemma resumed_frames_ok : frames_ok m' pds.
Proof using Hok Hp Hpd Hv Habs Hsp Hrs.
  pose proof (vo_frames _ _ _ _ Hok) as Hfo. destruct (rs_list _ _ _ _ _ _ _ _ _ _ Hrs) as (El & Eh & _). split.
  - rewrite El. apply NoDup_app. split_and!; [apply Hfo| |apply NoDup_singleton]. intros x Hx ->%list_elem_of_singleton.
    apply (vo_fresh _ _ _ _ Hok) in Hx. lia.
  - intros x. rewrite El, (rs_frames _ _ _ _ _ _ _ _ _ _ Hrs), elem_of_app, list_elem_of_singleton, (fo_dom _ _ Hfo), lookup_insert.
    case_decide as E; [subst; split; eauto|]. split; [by intros [?|?]|by left].
  - intros x. rewrite Eh, El. intros Hx. apply elem_of_app. left. by apply (fo_hand _ _ Hfo).
  - apply Hrs.
  - intros b g Hg Hl. destruct (resumed_frame b g Hg) as [[-> ->]|(_ & Hg0 & _ & Hor)].
    + destruct (rs_procs _ _ _ _ _ _ _ _ _ _ Hrs) as (l & Epr & _). eexists. unfold frame_entry. simpl. rewrite Epr, lookup_insert_eq.
      split; [done|]. simpl. destruct resumed_new as [Hn1 Hn2]. destruct Hv as [Hv1 Hv2]. split_and!; done || lia.
    + specialize (Hor Hl). destruct (fo_loaded _ _ Hfo b g Hg0 Hl) as (q & Eq & Hqd & Hva & Hal & Hpr & Hpg & HP).
      assert (Eq' : exists q', procs m' !! f_t g = Some q' /\ pagedir q' = pagedir q).
      { destruct (rs_procs _ _ _ _ _ _ _ _ _ _ Hrs) as (l & Epr & _). rewrite Epr, lookup_insert. case_decide as E; [|by eauto].
        rewrite <- E, Hp in Eq. injection Eq as <-. by eexists. }
      destruct Eq' as (q' & Eq' & Ed). pose proof (resumed_entry (f_t g) q (virtual_address g) Eq Hqd (conj Hva Hal) Hor) as Ee.
      unfold frame_entry in Hpr, Hpg. rewrite Eq in Hpr, Hpg. exists q'. unfold frame_entry. rewrite Eq', Ed, Ee.
      split_and!; [done|done|lia|lia|done|done|done|]. rewrite HP. unfold pte_addr.
      rewrite (rs_tables _ _ _ _ _ _ _ _ _ _ Hrs) by (done || (intros E; by rewrite entry_no_table in Hpr)). done.
  - intros b c g h Hg Hh Hlg Hlh Et Ev. destruct (resumed_frame b g Hg) as [[-> ->]|(_ & Hg0 & _ & Hor)], (resumed_frame c h Hh) as [[-> ->]|(_ & Hh0 & _ & Hor')].
    + done.
    + simpl in Et, Ev. by destruct (Hor' Hlh).
    + simpl in Et, Ev. by destruct (Hor Hlg).
    + by eapply (fo_distinct _ _ Hfo).
  - intros t t' q q' Hq Hq' E Hne. destruct (resumed_proc t q Hq) as (q0 & ? & E1 & _), (resumed_proc t' q' Hq') as (q1 & ? & E2 & _).
    eapply (fo_dirs _ _ Hfo t t' q0 q1); congruence.
Qed.

(** A page of the new state that is in swap was there before, elsewhere. *)
Lemma resumed_slot t q' u u' slot d ev : procs m' !! t = Some q' -> entry_at (sup q') u = Some (swap_page u' slot d ev) ->
  (t <> cur \/ u <> v) /\ live' !! slot = live !! slot /\ exists q, procs m !! t = Some q /\ pagedir q' = pagedir q /\ entry_at (sup q) u = Some (swap_page u' slot d ev).
Proof using Hok Hp Habs Hrs.
  intros Hq He. destruct (resumed_proc t q' Hq) as (q & Eq & Ed & Hent & Hcur).
  assert (Hor : t <> cur \/ u <> v).
  { destruct (decide (t = cur)) as [->|]; [|by left]. right. intros ->. rewrite (Hcur eq_refl) in He. rewrite Hp in Eq. injection Eq as <-.
    destruct (entry_at (sup p) v) as [[]|] eqn:Ee; simpl in He; try done. subst evicted_page.
    destruct (vo_saved _ _ _ _ Hok cur p v _ _ _ _ Hp Ee) as [_ Hs]. by destruct (Hs _ eq_refl). }
  rewrite Hent in He by done. split_and!; [done| |by exists q].
  destruct (rs_live _ _ _ _ _ _ _ _ _ _ Hrs slot) as [->|(w & d' & ev' & Ee)]; [done|]. exfalso.
  destruct (vo_one_slot _ _ _ _ Hok t cur q p u v _ _ _ _ _ _ _ Eq Hp He Ee) as [-> ->]. by destruct Hor.
Qed.

Lemma resumed_ok : vm_ok ram_pages m' pds live'.
Proof using Hok Hp Hpd Hv Habs Hsp Hrs.
  destruct (rs_list _ _ _ _ _ _ _ _ _ _ Hrs) as (El & _ & En). destruct (rs_umem _ _ _ _ _ _ _ _ _ _ Hrs) as [Eu Hlen].
  destruct (rs_pal _ _ _ _ _ _ _ _ _ _ Hrs) as [Hmono Hpool]. destruct (rs_procs _ _ _ _ _ _ _ _ _ _ Hrs) as (l & Epr & Hsl & _).
  split.
  - apply resumed_frames_ok.
  - intros b. rewrite El, En. intros [Hb| ->%list_elem_of_singleton]%elem_of_app; [|lia]. apply (vo_fresh _ _ _ _ Hok) in Hb. lia.
  - intros t q' Hq Hne. destruct (resumed_proc t q' Hq) as (q & Eq & Ed & _). rewrite Ed in *. by eapply (vo_procs _ _ _ _ Hok).
  - intros t q' u Hq Hqd Hu Hpr. destruct (resumed_proc t q' Hq) as (q & Eq & Ed & _). rewrite Ed in *.
    destruct (decide (t = cur /\ u = v)) as [[-> ->]|Hne].
    + eexists (next_frame m), _. rewrite (rs_frames _ _ _ _ _ _ _ _ _ _ Hrs), lookup_insert_eq. by split_and!.
    + assert (Hor : t <> cur \/ u <> v) by (destruct (decide (t = cur)); [right; intros ->; tauto|by left]).
      rewrite (resumed_entry t q u Eq Hqd Hu Hor) in Hpr. destruct (vo_mapped _ _ _ _ Hok t q u Eq Hqd Hu Hpr) as (b & g & Hg & Hr).
      exists b, g. rewrite (rs_frames _ _ _ _ _ _ _ _ _ _ Hrs), lookup_insert_ne; [done|]. intros <-. by rewrite next_fresh in Hg.
  - intros b g Hg. destruct (resumed_frame b g Hg) as [[-> ->]|(_ & Hg0 & Hnk & _)]; simpl; rewrite Eu.
    + split; [apply Hmono, Hsp|]. exists bytes. by rewrite lookup_insert_eq.
    + destruct (vo_pages _ _ _ _ Hok b g Hg0) as (Ha & bb & Ebb & Hb). split; [by apply Hmono|]. exists bb. by rewrite lookup_insert_ne.
  - intros b c g h Hg Hh E. destruct (resumed_frame b g Hg) as [[-> ->]|(_ & Hg0 & Hnk & _)], (resumed_frame c h Hh) as [[-> ->]|(_ & Hh0 & Hnk' & _)]; simpl in E.
    + done.
    + congruence.
    + congruence.
    + by eapply (vo_apart _ _ _ _ Hok).
  - intros t q'. rewrite Epr, lookup_insert. case_decide; [by intros [= <-]|]. apply (vo_sup _ _ _ _ Hok).
  - apply Hrs.
  - intros t q' u u' slot d ev Hq He. destruct (resumed_slot _ _ _ _ _ _ _ Hq He) as (_ & -> & q & Eq & _ & He0). by eapply (vo_slots _ _ _ _ Hok).
  - intros t t' q q' u u' w w' slot d d' ev ev' Hq Hq' He He'. destruct (resumed_slot _ _ _ _ _ _ _ Hq He) as (_ & _ & q0 & Eq0 & _ & He0),
      (resumed_slot _ _ _ _ _ _ _ Hq' He') as (_ & _ & q1 & Eq1 & _ & He1). by eapply (vo_one_slot _ _ _ _ Hok t t' q0 q1).
  - intros t q' u u' slot d ev Hq Hqd Hu He. destruct (resumed_slot _ _ _ _ _ _ _ Hq He) as (Hor & _ & q & Eq & Ed & He0). rewrite Ed in *.
    rewrite (resumed_entry t q u Eq Hqd Hu Hor). by eapply (vo_out _ _ _ _ Hok).
  - intros t q' u u' slot d ev Hq He. destruct (resumed_slot _ _ _ _ _ _ _ Hq He) as (_ & _ & q & Eq & _ & He0). by eapply (vo_saved _ _ _ _ Hok).
  - intros b Hb. apply (vo_ram _ _ _ _ Hok). by apply Hpool.
Qed.

Lemma restored_not_swap e : restored (entry_at (sup p) v) = Some e -> is_swap_page e = false.
Proof using Hok Hp.
  destruct (entry_at (sup p) v) as [[]|] eqn:Ee; simpl; intros Hr; try (by injection Hr as <-); try done. subst evicted_page.
  destruct (vo_saved _ _ _ _ Hok cur p v _ _ _ _ Hp Ee) as [_ Hs]. by destruct (Hs _ eq_refl).
Qed.

Lemma resumed_source t q u e : procs m !! t = Some q -> t <> cur \/ u <> v -> entry_at (sup q) u = Some e -> source m' e = source m e.
Proof using Hok Hp Hrs.
  intros Hq Hor He. destruct (is_swap_page e) eqn:Es; [|by apply (rs_files _ _ _ _ _ _ _ _ _ _ Hrs)]. destruct e; try done. simpl.
  destruct (vo_slots _ _ _ _ Hok _ _ _ _ _ _ _ Hq He) as [b Hb]. destruct (sw_live _ _ (vo_swap _ _ _ _ Hok) _ _ Hb) as (_ & _ & -> & _).
  destruct (rs_live _ _ _ _ _ _ _ _ _ _ Hrs slot) as [El|(w & d' & ev' & Ee)].
  - rewrite El in Hb. by destruct (sw_live _ _ (rs_swap _ _ _ _ _ _ _ _ _ _ Hrs) _ _ Hb) as (_ & _ & -> & _).
  - exfalso. destruct (vo_one_slot _ _ _ _ Hok t cur q p u v _ _ _ _ _ _ _ Hq Hp He Ee) as [-> ->]. by destruct Hor.
Qed.

Lemma resumed_clean : clean_ok m -> clean_ok m'.
Proof using Hok Hp Hpd Hv Habs Hsp Hrs.
  intros Hcl b g q' e Hg Hl Hq Hd He. destruct (rs_umem _ _ _ _ _ _ _ _ _ _ Hrs) as [-> _]. destruct (resumed_proc _ _ Hq) as (q & Eq & Ed & Hent & Hcur).
  unfold frame_entry in Hd. rewrite Hq, Ed in Hd. destruct (resumed_frame b g Hg) as [[-> ->]|(_ & Hg0 & Hnk & Hor)]; simpl in *.
  - rewrite (Hcur eq_refl) in He. rewrite Hp in Eq. injection Eq as <-. rewrite lookup_insert_eq.
    rewrite (rs_files _ _ _ _ _ _ _ _ _ _ Hrs e) by (by apply restored_not_swap). by rewrite (rs_clean _ _ _ _ _ _ _ _ _ _ Hrs e He Hd).
  - specialize (Hor Hl). rewrite Hent in He by done. rewrite (resumed_source _ _ _ _ Eq Hor He), lookup_insert_ne by done.
    destruct (victim_addr_of ram_pages pds live m Hok b g q Hg0 Hl Eq) as [Hu Hqd]. eapply Hcl; [done..| |done].
    unfold frame_entry. rewrite Eq. by rewrite <- (resumed_entry _ _ _ Eq Hqd Hu Hor).
Qed.

Lemma resumed_holds t u : user_addr u -> t <> cur \/ u <> v -> holds m' t u = holds m t u.
Proof using Hok Hp Hpd Hsp Hrs.
  intros Hu Hor. unfold holds. destruct (rs_procs _ _ _ _ _ _ _ _ _ _ Hrs) as (l & Epr & _). destruct (procs m !! t) as [q|] eqn:Eq.
  - assert (Eq' : exists q', procs m' !! t = Some q') by (rewrite Epr, lookup_insert; case_decide; eauto). destruct Eq' as [q' Eq'].
    destruct (resumed_proc t q' Eq') as (q0 & Eq0 & Ed & Hent & _). rewrite Eq in Eq0. injection Eq0 as <-. rewrite Eq', Ed, Hent by done.
    destruct (Z.eqb_spec (pagedir q) 0) as [|Hn]; [done|]. pose proof (vo_procs _ _ _ _ Hok t q Eq Hn) as Hqd.
    rewrite (resumed_entry t q u Eq Hqd Hu Hor). destruct (present (entry (words (vms m)) (pagedir q) u)) eqn:Hpr.
    + destruct (present_frame m pds live t q u Hok Eq Hqd Hu Hpr) as (a & f & Hf & <-). destruct (rs_umem _ _ _ _ _ _ _ _ _ _ Hrs) as [-> _].
      rewrite lookup_insert_ne; [done|]. intros E. by apply (sp_free _ _ Hsp a f Hf).
    + destruct (entry_at (sup q) u) as [e|] eqn:Ee; [|done]. by eapply resumed_source.
  - rewrite Epr, lookup_insert_ne by (intros <-; congruence). by rewrite Eq.
Qed.

Lemma resumed_fault : holds m' cur v = Some bytes.
Proof using Hok Hpd Hv Hrs.
  destruct (rs_procs _ _ _ _ _ _ _ _ _ _ Hrs) as (l & Epr & _). unfold holds. rewrite Epr, lookup_insert_eq. simpl.
  pose proof (spaces_page _ _ _ (fo_spaces _ _ (vo_frames _ _ _ _ Hok)) Hpd) as [Hk _]. unfold PHYS_BASE in Hk.
  destruct (Z.eqb_spec (pagedir p) 0); [lia|]. destruct resumed_new as [-> ->]. destruct (rs_umem _ _ _ _ _ _ _ _ _ _ Hrs) as [-> _].
  by rewrite lookup_insert_eq.
Qed.
End Resumed.

(** ** Loading *)

Lemma file_bytes_same (s s' : fs) file offset zero_after : (forall f, f_inode <$> files s' !! f = f_inode <$> files s !! f) ->
  inodes s' = inodes s -> filesys_disk s' = filesys_disk s -> file_bytes s' file offset zero_after = file_bytes s file offset zero_after.
Proof.
  intros Hf Hi Hd. unfold file_bytes. specialize (Hf file). rewrite Hi, Hd.
  destruct (files s' !! file) as [x'|], (files s !! file) as [x|]; simpl in Hf; try done. injection Hf as Hf. by rewrite Hf.
Qed.

(** What the file system must provide for a page that comes from a file. *)
Definition readable (s : fs) (file offset zero_after : Z) : Prop := exists x i, files s !! file = Some x /\ opened s (f_inode x) i /\ mem_ok s /\
  0 <= offset < 2 ^ 31 /\ 0 <= zero_after <= 4096 /\ offset + zero_after <= i_length (data i).

Definition loadable (s : fs) (e : option special_page_elem) : Prop :=
  match e with
  | Some (exec_page _ file offset zero_after _) | Some (file_page _ file offset zero_after) => readable s file offset zero_after
  | _ => True
  end.

(** [file_seek] and [file_read] of the bytes of a page. *)
Lemma read_file_run (s : fs) (buffer : list Z) file offset zero_after : readable s file offset zero_after -> length buffer = 4096%nat ->
  exists s1 s2 b2, file_seek file (s32 offset) s = Ret (tt, s1) /\ file_read file buffer (s32 zero_after) s1 = Ret ((zero_after, b2), s2) /\
    file_bytes s file offset zero_after = Some (take (Z.to_nat zero_after) b2 ++ replicate (Z.to_nat (4096 - zero_after)) 0) /\
    length (take (Z.to_nat zero_after) b2) = Z.to_nat zero_after /\
    (forall f o z, file_bytes s2 f o z = file_bytes s f o z).
Proof.
  intros (x & i & Hx & Hop & Hmem & Ho & Hz & Hlen) Hb. rewrite !s32_small by (urange; lia). pose proof Hop as (Hi & Hd & Hw).
  pose proof (iw_len _ _ Hw) as Hil. set (f1 := mk_file (f_inode x) offset (deny_write x)). set (s1 := set_files (<[file := f1]> (files s)) s).
  assert (Hop1 : opened s1 (f_inode f1) i) by done.
  destruct (wp_run _ _ _ (wp_inode_read_at s1 (f_inode f1) i buffer zero_after offset (fun r s' => heap_only s1 s' /\ r.1 = zero_after /\
    r.2 = slice offset zero_after (contents (filesys_disk s) (data i)) ++ drop (Z.to_nat zero_after) buffer) Hop1 Ho ltac:(lia) ltac:(lia)
    ltac:(intros n b' s' Hh Hn Hfull Hf; specialize (Hfull Hmem); unfold avail in *; assert (n = zero_after) as -> by lia; split_and!; [done|done|];
      eapply filled_contents; eauto; lia))) as ([n b2] & s2 & E & Hh & Hn & Hb2). simpl in Hn, Hb2. subst n.
  destruct Hh as (mm & nn & -> & _). set (f2 := mk_file (f_inode x) (s32 (offset + zero_after)) (deny_write x)).
  exists s1, (set_files (<[file := f2]> (files (set_heap mm nn s1))) (set_heap mm nn s1)), b2.
  assert (Hsl : length (slice offset zero_after (contents (filesys_disk s) (data i))) = Z.to_nat zero_after).
  { apply slice_length; [lia..|]. pose proof (contents_length (filesys_disk s) (data i) ltac:(lia)). lia. }
  assert (Ht : take (Z.to_nat zero_after) b2 = slice offset zero_after (contents (filesys_disk s) (data i))).
  { rewrite Hb2. by apply take_app_length'. }
  split_and!.
  - unfold file_seek. rewrite (bind_run _ _ _ tt s) by (unfold ASSERT; destruct (Z.leb_spec 0 offset); [done|lia]).
    by rewrite (bind_run _ _ _ x s) by (unfold get_file; by rewrite Hx).
  - unfold file_read. rewrite (bind_run _ _ _ f1 s1) by (unfold get_file, s1; simpl; by rewrite lookup_insert_eq).
    rewrite (bind_run _ _ _ (zero_after, b2) (set_heap mm nn s1)) by exact E. done.
  - rewrite Ht. unfold file_bytes. rewrite Hx, Hi. rewrite decide_True; [done|].
    pose proof (contents_length (filesys_disk s) (data i) ltac:(lia)). lia.
  - by rewrite Ht.
  - intros f o z. apply file_bytes_same; [|done|done]. intros g. simpl. rewrite !lookup_insert. case_decide as Eg; [|done].
    subst g. by rewrite Hx.
Qed.

Lemma page_at_length d x : disk_ok d -> length (page_at d x) = 4096%nat.
Proof.
  intros Hd. unfold page_at. rewrite (seqZ_cons x 8), (seqZ_cons _ _), (seqZ_cons _ _), (seqZ_cons _ _), (seqZ_cons _ _), (seqZ_cons _ _), (seqZ_cons _ _), (seqZ_cons _ _) by lia.
  cbn [fmap list_fmap concat]. rewrite seqZ_nil by lia. rewrite !length_app, !sector_length by done. done.
Qed.

(** The state after the bytes of a page are in its new place. *)
Definition loaded_into m (cur : Z) (p : process) (k : Z) (bytes : list Z) (l : lazy) (s' : swap) (f' : fs) : mach P :=
  set_procs (<[cur := mk_process (pagedir p) l]> (procs m)) (set_umem (<[k := bytes]> (umem m)) (set_swp s' (set_fsys f' m))).

Record load_done m live live' p (v : Z) (bytes : list Z) (l : lazy) (s' : swap) (f' : fs) (d : bool) : Prop := {
  ld_length : length bytes = 4096%nat;
  ld_swap : swap_ok s' live';
  ld_live slot : live !! slot = live' !! slot \/ exists u d ev, entry_at (sup p) v = Some (swap_page u slot d ev);
  ld_files f o z : file_bytes f' f o z = file_bytes (fsys m) f o z;
  ld_sup : sup_ok l;
  ld_others u : u <> v -> entry_at l u = entry_at (sup p) u;
  ld_entry : entry_at l v = restored (entry_at (sup p) v);
  ld_bytes e : entry_at (sup p) v = Some e -> source m e = Some bytes;
  ld_clean e : restored (entry_at (sup p) v) = Some e -> d = false -> source m e = Some bytes;
}.

Section Load.
Context m live (cur : Z) (p : process) (v k : Z) (b : list Z) (Hp : procs m !! cur = Some p) (Hsup : sup_ok (sup p)) (Hsw : swap_ok (swp m) live)
  (Hb : umem m !! k = Some b) (Hlb : length b = 4096%nat).

Lemma loaded_same bytes f' : loaded_into m cur p k bytes (sup p) (swp m) f' = set_umem (<[k := bytes]> (umem m)) (set_fsys f' m).
Proof using Hp. clear -Hp. unfold loaded_into. rewrite insert_id by (rewrite Hp; by destruct p). by destruct m. Qed.

(** Pages that leave the supplemental page table as it is. *)
Lemma load_same bytes f' d e : entry_at (sup p) v = e -> is_Some e -> (forall s, e = Some s -> is_swap_page s = false /\ source m s = Some bytes) -> length bytes = 4096%nat ->
  (forall f o z, file_bytes f' f o z = file_bytes (fsys m) f o z) -> load_done m live live p v bytes (sup p) (swp m) f' d.
Proof using Hsup Hsw.
  intros <- [s He] Hs Hlen Hf. destruct (Hs s He) as [Hns Hsrc]. assert (Hr : restored (entry_at (sup p) v) = Some s) by (rewrite He; by destruct s).
  split; try done; [by left|by rewrite Hr|intros e; rewrite He; by intros [= <-]|intros e; rewrite Hr; by intros [= <-]].
Qed.

Lemma read_page_run file offset zero_after : readable (fsys m) file offset zero_after ->
  exists bytes f', read_page k file offset zero_after m = Ret (true, set_umem (<[k := bytes]> (umem m)) (set_fsys f' m)) /\
    file_bytes (fsys m) file offset zero_after = Some bytes /\ length bytes = 4096%nat /\ (forall f o z, file_bytes f' f o z = file_bytes (fsys m) f o z).
Proof using Hb Hlb.
  intros Hr. destruct (read_file_run (fsys m) b file offset zero_after Hr Hlb) as (s1 & s2 & b2 & E1 & E2 & Hfb & Htl & Hsame).
  destruct Hr as (x & i & _ & _ & _ & _ & Hz & _). eexists _, s2. split_and!; [|exact Hfb| |exact Hsame].
  - unfold read_page. rewrite (bind_run _ _ _ tt (set_fsys s1 m)) by (by apply zoom_run).
    rewrite (bind_run _ _ _ (set_fsys s1 m) (set_fsys s1 m)) by done.
    rewrite (bind_run _ _ _ (zero_after, b2) (set_fsys s2 m)).
    2:{ unfold page_bytes. simpl. rewrite Hb. simpl. unfold on_files. erewrite (zoom_run fsys set_fsys _ (set_fsys s1 m)) by exact E2. done. }
    simpl. rewrite s32_small by (urange; lia). rewrite Z.eqb_refl. rewrite PGSIZE_eq. done.
  - rewrite length_app, Htl, length_replicate. lia.
Qed.

Lemma load_run : user_addr v -> loadable (fsys m) (entry_at (sup p) v) ->
  (forall u slot d ev, entry_at (sup p) v = Some (swap_page u slot d ev) -> is_Some (live !! slot) /\ d = true /\ forall e, ev = Some e -> virtual_page e = v) ->
  exists w d bytes l s' f' live', load_page hmem true cur k (entry_at (sup p) v) m = Ret (Some (w, d), loaded_into m cur p k bytes l s' f') /\
    load_done m live live' p v bytes l s' f' d.
Proof using Hp Hsup Hsw Hb Hlb.
  intros Hv Hload Hswap. destruct (entry_at (sup p) v) as [[u file offset za w|u file offset za|u slot d ev|u]|] eqn:Ee; simpl in Hload.
  - destruct (read_page_run file offset za Hload) as (bytes & f' & E & Hfb & Hlen & Hsame). exists w, false, bytes, (sup p), (swp m), f', live.
    split; [rewrite loaded_same; unfold load_page; by rewrite (bind_run _ _ _ _ _ E)|]. eapply load_same; [done|done| |done|done]. by intros s [= <-].
  - destruct (read_page_run file offset za Hload) as (bytes & f' & E & Hfb & Hlen & Hsame). exists true, false, bytes, (sup p), (swp m), f', live.
    split; [rewrite loaded_same; unfold load_page; by rewrite (bind_run _ _ _ _ _ E)|]. eapply load_same; [done|done| |done|done]. by intros s [= <-].
  - destruct (Hswap u slot d ev eq_refl) as ([bytes Hbytes] & -> & Hev). destruct (sw_live _ _ Hsw _ _ Hbytes) as (_ & _ & Hpage & _).
    destruct (wp_run _ _ _ (wp_swap_slot_read (swp m) live slot bytes (fun r s' => r = Some bytes /\ swap_ok s' (delete slot live)) Hsw Hbytes ltac:(done)))
      as (r & s' & Er & -> & Hsw'). set (m1 := set_umem (<[k := bytes]> (umem m)) (set_swp s' m)).
    pose proof (entry_at_page _ _ _ Ee) as Hu. simpl in Hu. subst u.
    destruct (delete_lazy_page_run hmem (swap_page v slot true ev) (sup p) Hsup) as (l1 & E1 & Hl1 & _ & Hent1). simpl in Hent1.
    assert (Hrest : exists l, (match ev with Some e => on_sup cur (add_lazy_page hmem e);; mret tt | None => mret tt end)
        (set_procs (<[cur := mk_process (pagedir p) l1]> (procs m1)) m1) = Ret (tt, set_procs (<[cur := mk_process (pagedir p) l]> (procs m1)) m1) /\ sup_ok l /\
      (forall x, x <> v -> entry_at l x = entry_at (sup p) x) /\ entry_at l v = ev).
    { destruct ev as [e|].
      - pose proof (Hev e eq_refl) as Hpg. destruct (add_lazy_page_run hmem e l1 Hl1) as (l & E & Hl & _ & Hent).
        { rewrite Hpg. destruct Hv as [Hv ?]. split; [unfold PHYS_BASE in Hv; lia|done]. }
        exists l. split_and!; [|done| |].
        + erewrite bind_run by (apply (on_sup_run _ _ _ (mk_process (pagedir p) l1)); [simpl; by rewrite lookup_insert_eq|exact E]).
          simpl. by rewrite insert_insert_eq.
        + intros x Hx. by rewrite Hent, Hpg, decide_False, Hent1, decide_False.
        + by rewrite Hent, Hpg, decide_True, Hent1, decide_True.
      - exists l1. split_and!; [done|done| |by rewrite Hent1, decide_True]. intros x Hx. by rewrite Hent1, decide_False. }
    destruct Hrest as (l & E2 & Hl & Hoth & Hve). exists true, true, bytes, l, s', (fsys m), (delete slot live). split.
    + unfold load_page. erewrite bind_run by (apply zoom_run; exact Er). rewrite (bind_run _ _ _ tt m1) by done.
      erewrite bind_run by (by apply (on_sup_run _ _ m1 p)). erewrite bind_run by exact E2. unfold loaded_into. by destruct m.
    + split; try done.
      * rewrite <- Hpage. apply page_at_length, Hsw.
      * intros x. rewrite lookup_delete. case_decide as Ex; [|by left]. subst x. right. eauto.
      * by rewrite Ee.
      * intros e. rewrite Ee. intros [= <-]. simpl. by rewrite Hpage.
  - exists true, false, zero_bytes, (sup p), (swp m), (fsys m), live. split; [rewrite loaded_same; unfold load_page; by destruct m|].
    eapply load_same; [done|done| |by apply length_replicate|done]. by intros s [= <-].
  - exists true, false, b, (sup p), (swp m), (fsys m), live. split; [rewrite loaded_same; unfold load_page; rewrite insert_id by done; by destruct m|].
    split; try done; [by left|by rewrite Ee|by rewrite Ee|by rewrite Ee].
Qed.
End Load.

(** ** Installing *)

Lemma lor_dirty e bits : Z.land PTE_D bits = 0 -> Z.land (Z.lor e PTE_D) bits = Z.land e bits.
Proof. intros E. by rewrite Z.land_lor_distr_l, E, Z.lor_0_r. Qed.

Lemma user_pte_flags k w : kernel_page k -> (k - PHYS_BASE) / PGSIZE < ram_pages ->
  (present (user_pte k w) = true /\ page_of_entry (user_pte k w) = k) /\
  present (Z.lor (user_pte k w) PTE_D) = true /\ page_of_entry (Z.lor (user_pte k w) PTE_D) = k /\ dirty (Z.lor (user_pte k w) PTE_D) = true.
Proof using Hram.
  intros Hk Hr. destruct (user_pte_page k w Hk) as (_ & Hp & _). destruct (user_pte_reachable k w Hk ltac:(lia)) as [_ Ha].
  unfold present, page_of_entry, dirty. rewrite !lor_dirty by done. rewrite Ha, Z.land_lor_distr_l.
  assert (Hp' : negb (Z.land (user_pte k w) PTE_P =? 0) = true) by (by apply negb_true_iff, Z.eqb_neq).
  split_and!; [done|lia|done|lia|]. apply negb_true_iff, Z.eqb_neq. intros [_ E]%Z.lor_eq_0_iff. done.
Qed.

(** Mapping the page and marking it dirty, in the page tables. *)
Record mapped_at pds (s s2 : vm P) (pd v k pte : Z) (d : bool) : Prop := {
  mp_spaces : spaces_ok s2 pds;
  mp_tables : tables_stay pds (words s) (words s2);
  mp_pal : (forall b, allocated (pal s) b -> allocated (pal s2) b) /\ same_pool (pal s) (pal s2);
  mp_pte : pte = pte_addr (words s2) pd v;
  mp_entries pd' u : pd' ∈ pds -> user_addr u -> let e' := entry (words s2) pd' u in
    if decide (pd' = pd /\ u = v) then present e' = true /\ page_of_entry e' = k /\ (d = true -> dirty e' = true) else e' = entry (words s) pd' u;
}.

Lemma install_run (s : vm P) pds pd v k w (d : bool) : spaces_ok s pds -> pd ∈ pds -> pd <> base_page_dir -> user_addr v -> kernel_page k ->
  (k - PHYS_BASE) / PGSIZE < ram_pages -> present (entry (words s) pd v) = false ->
  (install_page base_page_dir ram_pages pd v k w s = Ret ((false, Some 0), s) /\ dir_entry (words s) pd v = 0) \/
  exists s1 s2 pte, install_page base_page_dir ram_pages pd v k w s = Ret ((true, Some pte), s1) /\
    (when d (pagedir_set_dirty base_page_dir pd v true)) s1 = Ret (tt, s2) /\ mapped_at pds s s2 pd v k pte d.
Proof using Hram.
  intros Hs Hpd Hb [Hv Hal] Hk Hr Hpr. assert (Hm : mappable ram_pages v k) by done. destruct (user_pte_flags k w Hk Hr) as (F1 & F2).
  assert (Hg : pagedir_get_page pd v s = Ret (0, s)) by (rewrite (pagedir_get_page_run s pd v) by (done || by apply (so_dir _ _ Hs)); by rewrite Hpr).
  unfold install_page. rewrite (bind_run _ _ _ 0 s) by exact Hg. simpl.
  assert (Hsame : forall u, user_addr u -> u / 4096 = v / 4096 -> u = v).
  { intros u [_ Hu] E. rewrite PGSIZE_eq in *. Z.to_euclidean_division_equations. lia. }
  destruct (set_page_entry base_page_dir ram_pages s pds pd v k w Hs Hpd Hb Hm Hpr) as [[E E0]|(s1 & E & S1 & S2 & S3 & S4 & S5 & S6 & S7)].
  { left. split; [|done]. by rewrite (bind_run _ _ _ _ _ E). }
  right. destruct d.
  - destruct (set_flag_entry base_page_dir s1 pds PTE_D pd v true S1 Hpd Hv S4 ltac:(done)) as (s2 & E2 & [D1 D2 D3 D4 D5]).
    exists s1, s2, (pte_addr (words s1) pd v). split_and!; [by rewrite (bind_run _ _ _ _ _ E)|exact E2|].
    assert (Ee : entry (words s1) pd v = user_pte k w) by (rewrite (S2 pd v Hpd Hv); by rewrite decide_True).
    split; [done| |by rewrite D4| |].
    + intros pd' u Hd' Hu Hne. rewrite D3; [by apply S3|done|done|]. by rewrite S3.
    + unfold pte_addr. by rewrite (D3 pd v Hpd Hv S4).
    + intros pd' u Hd' Hu. cbv zeta. rewrite (D2 pd' u Hd' (proj1 Hu)). destruct (decide (pd' = pd /\ u / 4096 = v / 4096)) as [[-> E']|Hne].
      * rewrite decide_True by (split; [done|by apply Hsame]). rewrite Ee. destruct F2 as (? & ? & ?). by split_and!.
      * rewrite decide_False by (intros [-> ->]; by apply Hne). rewrite (S2 pd' u Hd' (proj1 Hu)). by rewrite decide_False.
  - exists s1, s1, (pte_addr (words s1) pd v). split_and!; [by rewrite (bind_run _ _ _ _ _ E)|done|]. split; try done.
    intros pd' u Hd' Hu. cbv zeta. rewrite (S2 pd' u Hd' (proj1 Hu)). destruct (decide (pd' = pd /\ u / 4096 = v / 4096)) as [[-> E']|Hne].
    * rewrite decide_True by (split; [done|by apply Hsame]). destruct F1. by split_and!.
    * by rewrite decide_False by (intros [-> ->]; by apply Hne).
Qed.

(** ** A frame of one's own *)

Definition with_frame m (cur k : Z) : mach P :=
  mk_mach (frame_list m ++ [next_frame m]) (<[next_frame m := mk_frame cur k junk junk false]> (frames m)) (hand m) (tail (frame_heap m)) (next_frame m + 1)
    (vms m) (umem m) (procs m) (swp m) (fsys m).

Lemma new_frame_run m cur k : head (frame_heap m) <> Some false -> new_frame (mk_frame cur k junk junk false) m = Ret (next_frame m, with_frame m cur k).
Proof. intros Hh. unfold new_frame. rewrite (bind_run _ _ _ m m) by done. destruct (frame_heap m) as [|[] ?] eqn:E; done. Qed.

(** Giving the frame back. *)
Lemma free_loop_run m cur k a l f : (forall x, x ∈ l -> exists g, frames m !! x = Some g /\ user_page g <> k) -> frames m !! a = Some f -> user_page f = k ->
  f_t f = cur -> hand m <> At a -> exists m', free_frame_loop cur k (l ++ [a]) m = Ret (tt, m') /\ vms m' = vms m.
Proof.
  intros Hl Hf Hk Ht Hh. induction l as [|x l IH]; cbn [app free_frame_loop].
  - rewrite (bind_run _ _ _ f m) by (unfold get_frame; by rewrite Hf). rewrite Hk, Ht, !Z.eqb_refl. simpl.
    eexists. rewrite (bind_run _ _ _ tt m) by (unfold move_hand_off; rewrite (bind_run _ _ _ m m) by done; by rewrite decide_False). by split.
  - destruct (Hl x) as (g & Hg & Hne); [left|]. rewrite (bind_run _ _ _ g m) by (unfold get_frame; by rewrite Hg).
    destruct (Z.eqb_spec (user_page g) k); [done|]. apply IH. intros y Hy. apply Hl. by right.
Qed.

Lemma free_page_run m cur k a l f : (forall x, x ∈ l -> exists g, frames m !! x = Some g /\ user_page g <> k) -> frames m !! a = Some f -> user_page f = k ->
  f_t f = cur -> hand m <> At a -> frame_list m = l ++ [a] -> pages_ok (pal (vms m)) -> allocated (pal (vms m)) k ->
  exists m', ft_free_page cur k m = Ret (tt, m').
Proof.
  intros Hl Hf Hk Ht Hh Hfl Hpo Ha. destruct (free_loop_run m cur k a l f Hl Hf Hk Ht Hh) as (m1 & E & Ev). unfold ft_free_page.
  rewrite (bind_run _ _ _ m m) by done. rewrite Hfl, (bind_run _ _ _ _ _ E). set (m2 := set_umem (delete k (umem m1)) m1).
  rewrite (bind_run _ _ _ tt m2) by done. destruct (free_page_spec (pal (vms m2)) k) as (p' & Ef & _); [change (vms m2) with (vms m1); by rewrite Ev..|].
  eexists. apply zoom_run. unfold on_pal. by rewrite Ef.
Qed.

(** ** The handler *)

(** From the state after the page was found, through loading, to the end. *)
Section Handle.
Context m pds live (cur v : Z) (p : process) (k : Z) (Hok : vm_ok ram_pages m pds live) (Hp : procs m !! cur = Some p) (Hpd : pagedir p ∈ pds)
  (Hbase : pagedir p <> base_page_dir) (Hv : user_addr v) (Habs : present (entry (words (vms m)) (pagedir p) v) = false) (Hsp : spare m k).

Lemma spare_page : kernel_page k /\ (k - PHYS_BASE) / PGSIZE < ram_pages /\ pages_ok (pal (vms m)).
Proof using Hok Hpd Hsp.
  pose proof (po_alloc _ _ (so_dir _ _ (fo_spaces _ _ (vo_frames _ _ _ _ Hok)) _ Hpd)) as Hpo. pose proof (sp_alloc _ _ Hsp) as Ha.
  split_and!; [by eapply allocated_page| |done]. by apply (vo_ram _ _ _ _ Hok), adjoining_one.
Qed.

Lemma hand_not_new : hand m <> At (next_frame m).
Proof using Hok. intros Hh. apply (fo_hand _ _ (vo_frames _ _ _ _ Hok)) in Hh. apply (vo_fresh _ _ _ _ Hok) in Hh. lia. Qed.

Lemma finish_run w d bytes l s' f' live' : load_done m live live' p v bytes l s' f' d ->
  let m3 := loaded_into (with_frame m cur k) cur p k bytes l s' f' in
  (exists m', install_frame base_page_dir ram_pages cur v (next_frame m) w d m3 = Ret (false, m') /\ dir_entry (words (vms m)) (pagedir p) v = 0) \/
  exists m', install_frame base_page_dir ram_pages cur v (next_frame m) w d m3 = Ret (true, m') /\ resumed pds live live' m cur v p k bytes m'.
Proof using Hok Hp Hpd Hbase Hv Habs Hsp Hram.
  intros Hld m3. destruct spare_page as (Hk & Hr & Hpo). pose proof (fo_spaces _ _ (vo_frames _ _ _ _ Hok)) as Hs. set (a := next_frame m) in *.
  assert (Ef : get_frame a m3 = Ret (mk_frame cur k junk junk false, m3)) by (unfold get_frame; simpl; by rewrite lookup_insert_eq).
  assert (Ep : get_process cur m3 = Ret (mk_process (pagedir p) l, m3)) by (unfold get_process; simpl; by rewrite lookup_insert_eq).
  unfold install_frame. rewrite (bind_run _ _ _ _ _ Ef), (bind_run _ _ _ _ _ Ep). cbn [pagedir user_page f_t PTE virtual_address loaded].
  destruct (install_run (vms m) pds (pagedir p) v k w d Hs Hpd Hbase Hv Hk Hr Habs) as [[E E0]|(s1 & s2 & pte & E & E2 & [M1 M2 M3 M4 M5])].
  - left. rewrite (bind_run _ _ _ (false, Some 0) m3) by (unfold on_vm; erewrite zoom_run by exact E; by destruct m). cbn [snd fst].
    set (m4 := set_table (frame_list m3) (<[a := mk_frame cur k 0 junk false]> (frames m3)) (hand m3) m3). rewrite (bind_run _ _ _ tt m4) by done.
    destruct (free_page_run m4 cur k a (frame_list m) (mk_frame cur k 0 junk false)) as (m5 & E5); try done.
    + intros x Hx. pose proof (vo_fresh _ _ _ _ Hok x Hx) as Hlt. apply (fo_dom _ _ (vo_frames _ _ _ _ Hok)) in Hx as [g Hg]. exists g.
      split; [|by apply (sp_free _ _ Hsp x)]. simpl. rewrite !lookup_insert_ne by (fold a in Hlt; lia). done.
    + simpl. by rewrite lookup_insert_eq.
    + apply hand_not_new.
    + apply Hsp.
    + exists m5. split; [|done]. by rewrite (bind_run _ _ _ tt m5) by exact E5.
  - right. rewrite (bind_run _ _ _ (true, Some pte) (set_vms s1 m3)) by (unfold on_vm; by erewrite zoom_run by exact E). cbn [snd fst].
    set (f1 := mk_frame cur k pte junk false). set (m4 := set_table (frame_list m3) (<[a := f1]> (frames m3)) (hand m3) (set_vms s1 m3)).
    rewrite (bind_run _ _ _ tt m4) by done. set (m5 := set_vms s2 m4).
    rewrite (bind_run _ _ _ tt m5).
    2:{ destruct d; simpl in E2 |- *; [unfold on_vm; by erewrite zoom_run by exact E2|]. injection E2 as <-. done. }
    rewrite (bind_run _ _ _ f1 m5) by (unfold get_frame; simpl; by rewrite lookup_insert_eq).
    eexists. split; [by rewrite (bind_run _ _ _ tt (set_table (frame_list m5) (<[a := mk_frame cur k pte v true]> (frames m5)) (hand m5) m5)) by done|].
    destruct Hld as [L1 L2 L3 L4 L5 L6 L7 L8 L9]. split; simpl.
    + done.
    + rewrite !insert_insert_eq. by rewrite M4.
    + done.
    + done.
    + done.
    + done.
    + intros pd u Hd Hu. specialize (M5 pd u Hd Hu). cbv zeta in M5. case_decide; [|done]. by destruct M5 as (? & ? & _).
    + done.
    + done.
    + intros e He. destruct e; simpl; try done; by rewrite L4.
    + exists l. done.
    + intros e He Hd. apply L9; [done|]. specialize (M5 (pagedir p) v Hpd Hv). cbv zeta in M5. rewrite decide_True in M5 by done. destruct M5 as (_ & _ & Hdd).
      destruct d; [|done]. rewrite (Hdd eq_refl) in Hd. done.
Qed.
End Handle.

(** The page of an address. *)
Lemma fault_page_eq a : 0 <= a < PHYS_BASE -> Z.land 0xfffff000 a = a - a mod PGSIZE /\ user_addr (a - a mod PGSIZE).
Proof.
  intros Ha. rewrite Z.land_comm. unfold PHYS_BASE in Ha. split; [rewrite <- pg_round_down_eq by (unfold is_u32; lia); done|].
  unfold user_addr, PHYS_BASE. rewrite PGSIZE_eq. Z.to_euclidean_division_equations. lia.
Qed.

End Fault.

(** ** An example

    The process of FrameEvict.v with a page of zeros at 0x8049000. *)
Definition zero_table : lazy := match add_lazy_page true (zero_page 0x8049000) demo_table with Ret (_, l) => l | _ => demo_table end.

Lemma zero_table_ok : sup_ok zero_table /\ forall v, entry_at zero_table v = if decide (v = 0x8049000) then Some (zero_page 0x8049000) else None.
Proof.
  destruct (add_lazy_page_run true (zero_page 0x8049000) demo_table demo_table_ok ltac:(by split)) as (l & E & Hl & _ & Hent). unfold zero_table. rewrite E.
  split; [done|]. intros v. assert (Hn : entry_at demo_table v = None) by done. by rewrite Hent, Hn.
Qed.

Lemma zero_user : user_addr 0x8049000.
Proof. by split. Qed.

Lemma demo_vms l : words (vms (demo_with l)) = vm_words /\ pal (vms (demo_with l)) = vm_pool.
Proof. split; reflexivity. Qed.

Lemma demo_proc l : procs (demo_with l) !! 7 = Some (mk_process 0xc0101000 l).
Proof. apply lookup_singleton_eq. Qed.

Lemma demo_absent l : present (entry (words (vms (demo_with l))) 0xc0101000 0x8049000) = false.
Proof. rewrite (proj1 (demo_vms l)). by rewrite demo_present by exact zero_user. Qed.

Lemma demo_has_table l : dir_entry (words (vms (demo_with l))) 0xc0101000 0x8049000 <> 0.
Proof. unfold dir_entry. rewrite (proj1 (demo_vms l)). rewrite vm_dir by (split; [discriminate|reflexivity]). discriminate. Qed.

Lemma demo_free : match get_user_page false vm_pool with Ret (a, _) => a | _ => 0 end = 0xc0106000.
Proof. vm_compute. reflexivity. Qed.

Lemma demo_supply l (p' : palloc) : get_user_page false (pal (vms (demo_with l))) <> Ret (0, p').
Proof. rewrite (proj2 (demo_vms l)). intros E. pose proof demo_free as Ef. rewrite E in Ef. discriminate Ef. Qed.

Lemma demo_holds_zero : holds (demo_with zero_table) 7 0x8049000 = Some zero_bytes.
Proof.
  unfold holds. rewrite demo_proc. cbn [pagedir sup].
  rewrite demo_absent, (proj2 zero_table_ok). reflexivity.
Qed.

Lemma demo_holds_dirty l : holds (demo_with l) 7 0x8048000 = Some demo_frame /\ ~ unwritten (demo_with l) 7 0x8048000.
Proof.
  split.
  - unfold holds. rewrite demo_proc. cbn [pagedir sup].
    rewrite (proj1 (demo_vms l)). rewrite demo_present by exact demo_user. reflexivity.
  - intros (q & [_ ->]%demo_procs & _ & Hd). revert Hd. cbn [pagedir]. rewrite (proj1 (demo_vms l)).
    rewrite demo_present by exact demo_user. discriminate.
Qed.

#[local] Strategy 1000 [demo_with zero_table page_fault holds].
