(* ===== verification/Elf.v ===== *)
(** * Executables: load of userprog/process.c

    [load] reads the headers of an ELF file through filesys/file.c and enters
    its segments in the supplemental page table (Page.v); the stack comes from
    the frame table (Frame.v).  The headers are read from disk piece by piece;
    the first theorem says that this is a function of the bytes of the file,
    whatever they are, the second that an image made of valid headers is
    loaded as its headers say. *)

From S2P Require Import Prelude Vaddr Hash HashProps Bytes Bitmap Disk Inode InodeProps File Directory Palloc PageAlloc Pagedir Page PageProps Swap Frame FrameProps FrameEvict.

(** ** Headers *)

Record Elf32_Ehdr := mk_ehdr {
  e_ident : list Z; e_type : Z; e_machine : Z; e_version : Z; e_entry : Z; e_phoff : Z; e_shoff : Z; e_flags : Z;
  e_ehsize : Z; e_phentsize : Z; e_phnum : Z; e_shentsize : Z; e_shnum : Z; e_shstrndx : Z }.

Definition SIZEOF_EHDR : Z := 52.
Definition SIZEOF_PHDR : Z := 32.
Definition PT_LOAD : Z := 1.
Definition PT_DYNAMIC : Z := 2.
Definition PT_INTERP : Z := 3.
Definition PT_SHLIB : Z := 5.

(** A field of [n] bytes at offset [o] of a structure in memory. *)
Definition field_at (o n : Z) (b : list Z) : Z := of_le (slice o n b).

Definition ehdr_of (b : list Z) : Elf32_Ehdr :=
  mk_ehdr (slice 0 16 b) (field_at 16 2 b) (field_at 18 2 b) (field_at 20 4 b) (field_at 24 4 b) (field_at 28 4 b) (field_at 32 4 b) (field_at 36 4 b)
    (field_at 40 2 b) (field_at 42 2 b) (field_at 44 2 b) (field_at 46 2 b) (field_at 48 2 b) (field_at 50 2 b).
Definition phdr_of (b : list Z) : Elf32_Phdr :=
  mk_phdr (field_at 0 4 b) (field_at 4 4 b) (field_at 8 4 b) (field_at 12 4 b) (field_at 16 4 b) (field_at 20 4 b) (field_at 24 4 b) (field_at 28 4 b).

(** ["\177ELF\1\1\1"] *)
Definition ELF_MAGIC : list Z := [0x7f; 0x45; 0x4c; 0x46; 1; 1; 1].

Definition bad_header (e : Elf32_Ehdr) : bool :=
  negb (bool_decide (take 7 (e_ident e) = ELF_MAGIC)) || negb (e_type e =? 2) || negb (e_machine e =? 3) || negb (e_version e =? 1)
  || negb (e_phentsize e =? SIZEOF_PHDR) || (1024 <? e_phnum e).

Section Elf.
Context {P : Type} `{UserPages P} (base_page_dir ram_pages : Z) (hmem smem : bool) (junk : Z) (stale : Z -> list Z).
(** What [ehdr] and [phdr] hold before they are read. *)
Context (ehdr0 phdr0 : list Z).

(** The [switch] on the type of a program header: whether [load] goes on. *)
Definition load_type (cur file : Z) (phdr : Elf32_Phdr) : ST (mach P) bool :=
  if (p_type phdr =? PT_DYNAMIC) || (p_type phdr =? PT_INTERP) || (p_type phdr =? PT_SHLIB) then mret false
  else if p_type phdr =? PT_LOAD then
    len ← on_files (file_length file);
    r ← on_sup cur (load_phdr hmem phdr file len);
    match r with
    | None => mret false
    | Some ofs => on_files (file_seek file ofs);; mret true
    end
  else mret true.

(** The loop over the program headers, with [n] left. *)
Fixpoint load_phdrs (cur file : Z) (n : nat) (file_ofs : Z) : ST (mach P) bool :=
  match n with
  | O => mret true
  | S n =>
    if file_ofs <? 0 then mret false
    else
      len ← on_files (file_length file);
      if len <? file_ofs then mret false
      else
        on_files (file_seek file file_ofs);;
        r ← on_files (file_read file phdr0 SIZEOF_PHDR);
        if negb (r.1 =? SIZEOF_PHDR) then mret false
        else
          ok ← load_type cur file (phdr_of r.2);
          if ok : bool then load_phdrs cur file n (s32 (file_ofs + SIZEOF_PHDR)) else mret false
  end.

(** From the executable header to the last segment: the entry point. *)
Definition load_file (cur file : Z) : ST (mach P) (option Z) :=
  r ← on_files (file_read file ehdr0 SIZEOF_EHDR);
  if negb (r.1 =? SIZEOF_EHDR) then mret None
  else
    let ehdr := ehdr_of r.2 in
    if bad_header ehdr then mret None
    else
      ok ← load_phdrs cur file (Z.to_nat (e_phnum ehdr)) (s32 (e_phoff ehdr));
      mret (if ok : bool then Some (e_entry ehdr) else None).

(** [load]: the values of [*eip] and [*esp].  [process_activate] also sets the
    kernel stack of the task (Segments.v). *)
Definition load (cur : Z) (stack file_name : list Z) : ST (mach P) (option (Z * Z)) :=
  pd ← on_vm (pagedir_create base_page_dir);
  p ← get_process cur;
  modify (fun m => set_procs (<[cur := mk_process pd (sup p)]> (procs m)) m);;
  if pd =? 0 then mret None
  else
    on_vm (pagedir_activate base_page_dir pd);;
    file ← on_files (filesys_open stack file_name);
    match file with
    | None => mret None
    | Some file =>
      eip ← load_file cur file;
      match eip with
      | None => mret None
      | Some eip =>
        esp ← setup_stack base_page_dir ram_pages hmem smem junk stale cur;
        mret (pair eip <$> esp)
      end
    end.
End Elf.

(** ** The bytes of a file as an image *)
Section Image.
Context (hmem : bool) (c : list Z) (file : Z).
Definition len : Z := length c.

Definition image_type (phdr : Elf32_Phdr) : ST lazy bool :=
  if (p_type phdr =? PT_DYNAMIC) || (p_type phdr =? PT_INTERP) || (p_type phdr =? PT_SHLIB) then mret false
  else if p_type phdr =? PT_LOAD then
    r ← load_phdr hmem phdr file len;
    match r with None => mret false | Some ofs => ASSERT (0 <=? ofs);; mret true end
  else mret true.

Fixpoint image_phdrs (n : nat) (ofs : Z) : ST lazy bool :=
  match n with
  | O => mret true
  | S n =>
    if (ofs <? 0) || (len <? ofs + SIZEOF_PHDR) then mret false
    else ok ← image_type (phdr_of (slice ofs SIZEOF_PHDR c)); if ok : bool then image_phdrs n (s32 (ofs + SIZEOF_PHDR)) else mret false
  end.

Definition load_image : ST lazy (option Z) :=
  let ehdr := ehdr_of (slice 0 SIZEOF_EHDR c) in
  if (len <? SIZEOF_EHDR) || bad_header ehdr then mret None
  else ok ← image_phdrs (Z.to_nat (e_phnum ehdr)) (s32 (e_phoff ehdr)); mret (if ok : bool then Some (e_entry ehdr) else None).
End Image.

(** ** Reading from the file system *)

(** The file at [file] is open and its bytes are [c]; memory does not run out. *)
Definition file_here (s : fs) (file : Z) (c : list Z) : Prop :=
  exists x i, files s !! file = Some x /\ opened s (f_inode x) i /\ c = contents (filesys_disk s) (data i) /\ Forall (eq true) (mallocs s).

(** Only positions of files have changed. *)
Definition same_files (s s' : fs) : Prop := filesys_disk s' = filesys_disk s /\ inodes s' = inodes s /\ open_inodes s' = open_inodes s /\ free_map s' = free_map s /\
  forall f, (fun x => (f_inode x, deny_write x)) <$> files s' !! f = (fun x => (f_inode x, deny_write x)) <$> files s !! f.
Lemma same_files_refl s : same_files s s.
Proof. done. Qed.
Lemma same_files_trans s s' s'' : same_files s s' -> same_files s' s'' -> same_files s s''.
Proof. intros (H1 & H2 & H3 & H4 & H5) (K1 & K2 & K3 & K4 & K5). by split_and!; congruence. Qed.

Lemma file_length_run s file c : file_here s file c -> file_length file s = Ret (Z.of_nat (length c), s) /\ Z.of_nat (length c) < 2 ^ 31.
Proof.
  intros (x & i & Hx & (Hi & Hd & Hw) & -> & _). pose proof (iw_len _ _ Hw). rewrite contents_length, Z2Nat.id by lia. split; [|lia].
  unfold file_length. rewrite (bind_run _ _ _ x s) by (unfold get_file; by rewrite Hx). unfold inode_length.
  by rewrite (bind_run _ _ _ i s) by (unfold get_inode; by rewrite Hi).
Qed.

Lemma file_seek_run s file c ofs : file_here s file c -> 0 <= ofs -> exists s', file_seek file ofs s = Ret (tt, s') /\ file_here s' file c /\ same_files s s' /\
  pos <$> files s' !! file = Some ofs.
Proof.
  intros (x & i & Hx & Ho & Hc & Hm) Hofs. set (y := mk_file (f_inode x) ofs (deny_write x)). exists (set_files (<[file := y]> (files s)) s). split_and!.
  - unfold file_seek. rewrite (bind_run _ _ _ tt s) by (unfold ASSERT; destruct (Z.leb_spec 0 ofs); [done|lia]). by rewrite (bind_run _ _ _ x s) by (unfold get_file; by rewrite Hx).
  - exists y, i. split_and!; try done. cbn. by rewrite lookup_insert_eq.
  - split_and!; try done. intros f. cbn. destruct (decide (f = file)) as [->|]; [by rewrite lookup_insert_eq, Hx|by rewrite lookup_insert_ne].
  - cbn. by rewrite lookup_insert_eq.
Qed.

Lemma file_read_run s file c buffer ofs (size : Z) : file_here s file c -> pos <$> files s !! file = Some ofs -> 0 <= ofs < 2 ^ 31 -> 0 < size < 2 ^ 31 -> length buffer = Z.to_nat size ->
  exists n b s', file_read file buffer size s = Ret ((n, b), s') /\ file_here s' file c /\ same_files s s' /\
    (if decide (ofs + size <= length c) then n = size /\ b = slice ofs size c else n <> size).
Proof.
  intros (x & i & Hx & Ho & Hc & Hm) Hp Hofs Hs Hb. rewrite Hx in Hp. injection Hp as Hp. pose proof Ho as (Hi & Hd & Hw). pose proof (iw_len _ _ Hw) as Hil.
  assert (Hmem : mem_ok s) by (unfold mem_ok; destruct (mallocs s); [done|]; inversion Hm; by subst).
  assert (Hlen : Z.of_nat (length c) = i_length (data i)) by (rewrite Hc, contents_length, Z2Nat.id by lia; done).
  destruct (wp_run _ _ _ (wp_inode_read_at s (f_inode x) i buffer size ofs (fun r s' => heap_only s s' /\ r.1 = avail (data i) size ofs /\
    (r.1 = size -> r.2 = slice ofs size c)) Ho Hofs ltac:(lia) ltac:(lia)
    ltac:(intros n b' s' Hh Hn Hfull Hf; specialize (Hfull Hmem); split_and!; [done|done|]; cbn; intros ->; unfold avail in Hfull;
      rewrite (filled_contents (filesys_disk s) (data i) ofs size buffer b' ltac:(lia) ltac:(lia) ltac:(lia) ltac:(lia) Hf), Hc;
      rewrite drop_ge by lia; by rewrite app_nil_r))) as ([n b] & s1 & E & Hh & Hn & Hbc). cbn in Hn, Hbc.
  destruct Hh as (mm & nn & -> & _ & Hsuf). set (y := mk_file (f_inode x) (s32 (ofs + n)) (deny_write x)).
  exists n, b, (set_files (<[file := y]> (files (set_heap mm nn s))) (set_heap mm nn s)). split_and!.
  - unfold file_read. rewrite (bind_run _ _ _ x s) by (unfold get_file; by rewrite Hx). rewrite Hp. rewrite (bind_run _ _ _ _ _ E). done.
  - exists y, i. split_and!; try done; [cbn; by rewrite lookup_insert_eq|]. cbn. destruct Hsuf as [k Ek]. rewrite Ek in Hm. by apply Forall_app in Hm as [_ ?].
  - split_and!; try done. intros f. cbn. destruct (decide (f = file)) as [->|]; [by rewrite lookup_insert_eq, Hx|by rewrite lookup_insert_ne].
  - unfold avail in Hn. case_decide; [assert (n = size) as -> by lia; split; [done|by apply Hbc]|lia].
Qed.

(** ** Reading piece by piece *)
Section Pieces.
Context {P : Type} `{UserPages P} (hmem : bool) (ehdr0 phdr0 : list Z) (He0 : length ehdr0 = 52%nat) (Hp0 : length phdr0 = 32%nat).
Context (cur file : Z) (c : list Z).
Implicit Types m : mach P.

(** The machine after a step in which the table of [cur] became [l]. *)
Definition put (p : process) (l : lazy) (f : fs) m : mach P := set_fsys f (set_procs (<[cur := mk_process (pagedir p) l]> (procs m)) m).
Lemma put_same p f m : procs m !! cur = Some p -> put p (sup p) f m = set_fsys f m.
Proof. intros Hp. unfold put. rewrite insert_id; [by destruct m|]. rewrite Hp. by destruct p. Qed.

(** A run on the machine does to the table what a run on the bytes of the
    file does. *)
Definition agrees {A} (r : outcome (A * lazy)) (q : outcome (A * mach P)) (p : process) m : Prop :=
  match r with
  | Ret (a, l) => exists f, q = Ret (a, put p l f m) /\ file_here f file c /\ same_files (fsys m) f
  | Panic => q = Panic
  | OutOfFuel => q = OutOfFuel
  end.

Lemma agrees_ret {A} (a : A) m p : procs m !! cur = Some p -> file_here (fsys m) file c -> agrees (Ret (a, sup p)) (Ret (a, m)) p m.
Proof. intros Hp Hf. exists (fsys m). rewrite put_same by done. split_and!; [by destruct m|done|done]. Qed.

Lemma agrees_bind {A B} (r : ST lazy A) (k : A -> ST lazy B) (q : ST (mach P) A) (h : A -> ST (mach P) B) m p :
  procs m !! cur = Some p -> agrees (r (sup p)) (q m) p m ->
  (forall a l f, file_here f file c -> agrees (k a l) (h a (put p l f m)) (mk_process (pagedir p) l) (put p l f m)) ->
  agrees ((r ≫= k) (sup p)) ((q ≫= h) m) p m.
Proof.
  intros Hp Hr Hk. unfold mbind, ST_bind. destruct (r (sup p)) as [[a l]| |]; cbn in Hr; [|by rewrite Hr..].
  destruct Hr as (f & -> & Hf & Hs). specialize (Hk a l f Hf). destruct (k a l) as [[b l']| |]; cbn in *; [|done..].
  destruct Hk as (f' & -> & Hf' & Hs'). exists f'. split_and!; [|done|by eapply same_files_trans]. do 2 f_equal. unfold put. cbn. destruct m. cbn. by rewrite insert_insert_eq.
Qed.

Lemma on_files_run {A} (q : ST fs A) m a f : q (fsys m) = Ret (a, f) -> on_files q m = Ret (a, set_fsys f m).
Proof. apply zoom_run. Qed.

(** A step that only reads the file. *)
Lemma agrees_read {A B} (q : ST fs A) (h : A -> ST (mach P) B) (r : outcome (B * lazy)) m p a f :
  procs m !! cur = Some p -> q (fsys m) = Ret (a, f) -> same_files (fsys m) f -> agrees r (h a (set_fsys f m)) p (set_fsys f m) ->
  agrees r ((on_files q ≫= h) m) p m.
Proof.
  intros Hp E Hs Hr. rewrite (bind_run _ _ _ _ _ (on_files_run q m a f E)). destruct r as [[b l]| |]; cbn in *; [|done..].
  destruct Hr as (f' & -> & Hf' & Hs'). exists f'. split_and!; [by destruct m|done|by eapply same_files_trans].
Qed.

Lemma load_type_run phdr m p : procs m !! cur = Some p -> file_here (fsys m) file c ->
  agrees (image_type hmem c file phdr (sup p)) (load_type hmem cur file phdr m) p m.
Proof using.
  clear He0 Hp0. intros Hp Hf. unfold image_type, load_type. destruct (_ || _); [by apply agrees_ret|]. destruct (p_type phdr =? PT_LOAD); [|by apply agrees_ret].
  destruct (file_length_run _ _ _ Hf) as [El Hl]. eapply agrees_read; [done|exact El|done|]. replace (set_fsys (fsys m) m) with m by (by destruct m).
  unfold len. apply (agrees_bind (load_phdr hmem phdr file (length c))); [done| |].
  - destruct (load_phdr hmem phdr file (length c) (sup p)) as [[r l]| |] eqn:E; cbn.
    + exists (fsys m). split_and!; [|done|done]. rewrite (on_sup_run _ _ _ _ _ _ Hp E). unfold put. by destruct m.
    + unfold on_sup. rewrite (bind_run _ _ _ p m) by (unfold get_process; by rewrite Hp). unfold zoom. by rewrite E.
    + unfold on_sup. rewrite (bind_run _ _ _ p m) by (unfold get_process; by rewrite Hp). unfold zoom. by rewrite E.
  - intros r l f Hf'. set (m1 := put p l f m). assert (Hp1 : procs m1 !! cur = Some (mk_process (pagedir p) l)) by (cbn; by rewrite lookup_insert_eq).
    destruct r as [ofs|]; [|by apply (agrees_ret false m1 (mk_process (pagedir p) l))]. destruct (Z.leb_spec 0 ofs) as [Ho|Ho].
    + destruct (file_seek_run f file c ofs Hf' Ho) as (f2 & E2 & Hf2 & Hs2 & _). eapply agrees_read; [done|exact E2|done|].
      by apply (agrees_ret true (set_fsys f2 m1) (mk_process (pagedir p) l)).
    + cbn. apply bind_panics. unfold on_files, zoom, file_seek. rewrite bind_panics; [done|]. unfold ASSERT. by destruct (Z.leb_spec 0 ofs); [lia|].
Qed.

Lemma load_phdrs_run n : forall ofs m p, is_s32 ofs -> procs m !! cur = Some p -> file_here (fsys m) file c ->
  agrees (image_phdrs hmem c file n ofs (sup p)) (load_phdrs hmem phdr0 cur file n ofs m) p m.
Proof using Hp0.
  clear He0. induction n as [|n IH]; intros ofs m p Hofs Hp Hf; cbn [image_phdrs load_phdrs]; [by apply agrees_ret|].
  destruct (Z.ltb_spec ofs 0) as [|Ho]; [by apply agrees_ret|]. cbn [orb]. destruct (file_length_run _ _ _ Hf) as [El Hl]. eapply agrees_read; [done|exact El|done|].
  replace (set_fsys (fsys m) m) with m by (by destruct m). unfold len. destruct (Z.ltb_spec (length c) ofs) as [Hlt|Hge].
  { destruct (Z.ltb_spec (length c) (ofs + SIZEOF_PHDR)); [by apply agrees_ret|unfold SIZEOF_PHDR in *; lia]. }
  destruct (file_seek_run (fsys m) file c ofs Hf Ho) as (f1 & E1 & Hf1 & Hs1 & Hpos). eapply agrees_read; [done|exact E1|done|]. set (m1 := set_fsys f1 m).
  destruct (file_read_run f1 file c phdr0 ofs SIZEOF_PHDR Hf1 Hpos) as (k & b & f2 & E2 & Hf2 & Hs2 & Hb); [unfold is_s32 in Hofs; lia|unfold SIZEOF_PHDR; lia|by rewrite Hp0|].
  eapply agrees_read; [done|exact E2|done|]. set (m2 := set_fsys f2 m1). cbn [fst snd]. case_decide as Hd.
  - destruct Hb as [-> ->]. rewrite Z.eqb_refl. cbn [negb]. destruct (Z.ltb_spec (length c) (ofs + SIZEOF_PHDR)); [lia|].
    apply agrees_bind; [done|by apply load_type_run|]. intros ok l f Hf'. destruct ok; [|apply (agrees_ret false (put p l f m2) (mk_process (pagedir p) l)); [cbn; by rewrite lookup_insert_eq|done]].
    apply (IH _ (put p l f m2) (mk_process (pagedir p) l)); [apply s32_range|cbn; by rewrite lookup_insert_eq|done].
  - rewrite (proj2 (Z.eqb_neq _ _) Hb). cbn [negb]. destruct (Z.ltb_spec (length c) (ofs + SIZEOF_PHDR)); [|lia]. by apply agrees_ret.
Qed.

Lemma load_file_run m p : procs m !! cur = Some p -> file_here (fsys m) file c -> pos <$> files (fsys m) !! file = Some 0 ->
  agrees (load_image hmem c file (sup p)) (load_file hmem ehdr0 phdr0 cur file m) p m.
Proof.
  intros Hp Hf Hpos. unfold load_image, load_file. destruct (file_read_run (fsys m) file c ehdr0 0 SIZEOF_EHDR Hf Hpos) as (k & b & f2 & E2 & Hf2 & Hs2 & Hb); [lia|unfold SIZEOF_EHDR; lia|by rewrite He0|].
  eapply agrees_read; [done|exact E2|done|]. cbn [fst snd]. unfold len. case_decide as Hd.
  - destruct Hb as [-> ->]. rewrite Z.eqb_refl. cbn [negb]. destruct (Z.ltb_spec (length c) SIZEOF_EHDR); [lia|]. cbn [orb]. destruct (bad_header _); [by apply agrees_ret|].
    apply agrees_bind; [done|apply load_phdrs_run; [apply s32_range|done|done]|]. intros ok l f Hf'. apply (agrees_ret _ (put p l f _) (mk_process (pagedir p) l)); [cbn; by rewrite lookup_insert_eq|done].
  - rewrite (proj2 (Z.eqb_neq _ _) Hb). cbn [negb]. destruct (Z.ltb_spec (length c) SIZEOF_EHDR); [by apply agrees_ret|lia].
Qed.
End Pieces.

(** ** Images made of headers *)
Definition phdr_bytes (p : Elf32_Phdr) : list Z :=
  to_le 4 (p_type p) ++ to_le 4 (p_offset p) ++ to_le 4 (p_vaddr p) ++ to_le 4 (p_paddr p) ++
  to_le 4 (p_filesz p) ++ to_le 4 (p_memsz p) ++ to_le 4 (p_flags p) ++ to_le 4 (p_align p).
Definition ehdr_bytes (e : Elf32_Ehdr) : list Z :=
  e_ident e ++ to_le 2 (e_type e) ++ to_le 2 (e_machine e) ++ to_le 4 (e_version e) ++ to_le 4 (e_entry e) ++ to_le 4 (e_phoff e) ++ to_le 4 (e_shoff e) ++
  to_le 4 (e_flags e) ++ to_le 2 (e_ehsize e) ++ to_le 2 (e_phentsize e) ++ to_le 2 (e_phnum e) ++ to_le 2 (e_shentsize e) ++ to_le 2 (e_shnum e) ++ to_le 2 (e_shstrndx e).

Record phdr_fits (p : Elf32_Phdr) : Prop := {
  pf_type : is_u32 (p_type p); pf_ok : phdr_ok p; pf_paddr : is_u32 (p_paddr p); pf_flags : is_u32 (p_flags p); pf_align : is_u32 (p_align p) }.
Record ehdr_fits (e : Elf32_Ehdr) : Prop := {
  ef_ident : length (e_ident e) = 16%nat; ef_type : is_u16 (e_type e); ef_machine : is_u16 (e_machine e); ef_version : is_u32 (e_version e);
  ef_entry : is_u32 (e_entry e); ef_phoff : is_u32 (e_phoff e); ef_shoff : is_u32 (e_shoff e); ef_flags : is_u32 (e_flags e); ef_ehsize : is_u16 (e_ehsize e);
  ef_phentsize : is_u16 (e_phentsize e); ef_phnum : is_u16 (e_phnum e); ef_shentsize : is_u16 (e_shentsize e); ef_shnum : is_u16 (e_shnum e); ef_shstrndx : is_u16 (e_shstrndx e) }.

Lemma le4 x : is_u32 x -> of_le (to_le 4 x) = x.
Proof. intros Hx. apply (of_to_le 4). urange. lia. Qed.
Lemma le2 x : is_u16 x -> of_le (to_le 2 x) = x.
Proof. intros Hx. apply (of_to_le 2). unfold is_u16 in Hx. lia. Qed.

Lemma phdr_roundtrip p : phdr_fits p -> phdr_of (phdr_bytes p) = p.
Proof.
  intros [H1 [H2 H3 H4 H5] H6 H7 H8]. destruct p as [a b c d e f g h]. cbn in *. unfold phdr_of.
  f_equal; [exact (le4 a H1)|exact (le4 b H2)|exact (le4 c H3)|exact (le4 d H6)|exact (le4 e H4)|exact (le4 f H5)|exact (le4 g H7)|exact (le4 h H8)].
Qed.
Lemma ehdr_roundtrip e : ehdr_fits e -> ehdr_of (ehdr_bytes e) = e.
Proof.
  intros []. destruct e as [id a b c d f g h i j k l' m n]. cbn in *. do 16 (destruct id as [|? id]; [done|]). destruct id; [|done]. unfold ehdr_of.
  f_equal; [exact (le2 a ef_type0)|exact (le2 b ef_machine0)|exact (le4 c ef_version0)|exact (le4 d ef_entry0)|exact (le4 f ef_phoff0)|exact (le4 g ef_shoff0)|exact (le4 h ef_flags0)|..].
  - exact (le2 i ef_ehsize0).
  - exact (le2 j ef_phentsize0).
  - exact (le2 k ef_phnum0).
  - exact (le2 l' ef_shentsize0).
  - exact (le2 m ef_shnum0).
  - exact (le2 n ef_shstrndx0).
Qed.

(** The loadable headers, and what [load] does with a list of headers. *)
Definition is_load (p : Elf32_Phdr) : bool := p_type p =? PT_LOAD.
Fixpoint load_segments (hmem : bool) (c : list Z) (file : Z) (phs : list Elf32_Phdr) : ST lazy bool :=
  match phs with
  | [] => mret true
  | p :: phs => ok ← image_type hmem c file p; if ok : bool then load_segments hmem c file phs else mret false
  end.

(** The bytes [c] have the header [e] and the program headers [phs]. *)
Record image (e : Elf32_Ehdr) (phs : list Elf32_Phdr) (c : list Z) : Prop := {
  im_ehdr : slice 0 SIZEOF_EHDR c = ehdr_bytes e; im_fits : ehdr_fits e; im_size : SIZEOF_EHDR <= length c < 2 ^ 31;
  im_phnum : e_phnum e = length phs; im_phoff : e_phoff e + SIZEOF_PHDR * length phs <= length c;
  im_phdrs (k : nat) p : phs !! k = Some p -> slice (e_phoff e + SIZEOF_PHDR * k) SIZEOF_PHDR c = phdr_bytes p /\ phdr_fits p }.

Lemma image_phdrs_list hmem c file phs : forall ofs l, 0 <= ofs -> ofs + SIZEOF_PHDR * length phs <= length c < 2 ^ 31 ->
  (forall (k : nat) p, phs !! k = Some p -> slice (ofs + SIZEOF_PHDR * k) SIZEOF_PHDR c = phdr_bytes p /\ phdr_fits p) ->
  image_phdrs hmem c file (length phs) ofs l = load_segments hmem c file phs l.
Proof.
  unfold SIZEOF_PHDR. induction phs as [|p phs IH]; intros ofs l Ho Hlen Hph; cbn [image_phdrs load_segments length]; [done|]. unfold SIZEOF_PHDR, len. cbn [length] in Hlen.
  destruct (Z.ltb_spec ofs 0); [lia|]. destruct (Z.ltb_spec (length c) (ofs + 32)); [lia|]. cbn [orb].
  destruct (Hph O p eq_refl) as [E Hf]. rewrite Z.mul_0_r, Z.add_0_r in E. rewrite E, phdr_roundtrip by done. unfold mbind, ST_bind.
  destruct (image_type hmem c file p l) as [[[] l']| |]; try done. destruct (decide (phs = [])) as [->|Hne]; [done|]. assert (0 < length phs)%nat by (destruct phs; [done|cbn; lia]).
  rewrite s32_small by (unfold is_s32; lia). apply IH; [lia|lia|]. intros k q Hk. specialize (Hph (S k) q Hk). by replace (ofs + 32 + 32 * k) with (ofs + 32 * S k) by lia.
Qed.

Lemma load_image_list hmem c file e phs l : image e phs c -> bad_header e = false ->
  load_image hmem c file l = (ok ← load_segments hmem c file phs; mret (if ok : bool then Some (e_entry e) else None)) l.
Proof.
  intros [] Hb. pose proof (ef_phoff e im_fits0) as Hoff. unfold load_image, len. rewrite im_ehdr0, ehdr_roundtrip, Hb by done. unfold SIZEOF_EHDR, SIZEOF_PHDR, is_u32 in *.
  destruct (Z.ltb_spec (length c) 52); [lia|]. cbn [orb]. rewrite im_phnum0, Nat2Z.id. unfold mbind, ST_bind. rewrite s32_small by (unfold is_s32; lia).
  by rewrite (image_phdrs_list hmem c file phs) by (done || unfold SIZEOF_PHDR; lia).
Qed.

(** Segments that can all be loaded: no dynamic linking, valid headers, pages
    of their own. *)
Definition pages_of (p : Elf32_Phdr) (v : Z) : Prop := is_load p = true /\ in_pages (seg_first p) (seg_pages p) v.
#[export] Instance pages_of_dec p v : Decision (pages_of p v).
Proof. unfold pages_of. apply _. Defined.
Definition seg_count (phs : list Elf32_Phdr) : Z := foldr (fun p n => (if is_load p then seg_pages p else 0) + n) 0 phs.
Record segments_fit (len : Z) (phs : list Elf32_Phdr) : Prop := {
  sf_static p : p ∈ phs -> p_type p <> PT_DYNAMIC /\ p_type p <> PT_INTERP /\ p_type p <> PT_SHLIB;
  sf_valid p : p ∈ phs -> is_load p = true -> phdr_ok p /\ validate_segment p len = true /\ p_offset p + p_memsz p + 8192 < 2 ^ 31;
  sf_apart (i j : nat) p q v : phs !! i = Some p -> phs !! j = Some q -> pages_of p v -> pages_of q v -> i = j }.

Definition laid_out (p : Elf32_Phdr) (file : Z) (l : lazy) : Prop := forall a, seg_first p <= a < seg_first p + 4096 * seg_pages p ->
  exists e, entry_at l (a - a mod PGSIZE) = Some e /\ source_of e (a mod PGSIZE) = segment_source p file a /\
    (0 < p_filesz p -> a < p_vaddr p + p_filesz p -> is_writable e = negb (Z.land (p_flags p) PF_W =? 0)).

Lemma seg_pages_nonneg p : phdr_ok p -> 0 <= seg_pages p.
Proof.
  intros []. unfold seg_pages. pose proof (Z.mod_pos_bound (p_vaddr p) PGSIZE ltac:(done)). unfold is_u32 in *. apply Z.div_pos; [lia|done].
Qed.

(** The page of an address of a segment is a page of the segment. *)
Lemma page_in_segment p len a : phdr_ok p -> 0 <= len < 2 ^ 31 -> validate_segment p len = true -> seg_first p <= a < seg_first p + 4096 * seg_pages p ->
  in_pages (seg_first p) (seg_pages p) (a - a mod PGSIZE).
Proof.
  intros Hp Hl Hv Ha. destruct (seg_geometry p len Hp Hl Hv) as (Ho & Hf & [_ Hm] & _). exists ((a - seg_first p) / 4096). rewrite PGSIZE_eq in *.
  clear -Ha Hm. Z.to_euclidean_division_equations. lia.
Qed.

Lemma load_segments_run hmem c file phs : forall l, segments_fit (length c) phs -> length c < 2 ^ 31 -> sup_ok l -> seg_count phs <= entry_mem l ->
  (forall p v, p ∈ phs -> pages_of p v -> entry_at l v = None) ->
  exists l', load_segments hmem c file phs l = Ret (true, l') /\ sup_ok l' /\
    (forall v, (forall p, p ∈ phs -> ~ pages_of p v) -> entry_at l' v = entry_at l v) /\
    forall p, p ∈ phs -> is_load p = true -> laid_out p file l'.
Proof.
  induction phs as [|p phs IH]; intros l [Hst Hva Hap] Hlen Hl Hcnt Hfree; cbn [load_segments].
  - exists l. split_and!; try done. by intros p ?%elem_of_nil.
  - assert (Hfit : segments_fit (length c) phs).
    { split; [intros; apply Hst; by right|intros; apply Hva; [by right|done]|]. intros i j q r v Hi Hj Hq Hr. pose proof (Hap (S i) (S j) q r v Hi Hj Hq Hr). lia. }
    assert (Hpos : forall qs, (forall q, q ∈ qs -> is_load q = true -> phdr_ok q) -> 0 <= seg_count qs).
    { induction qs as [|q qs IHq]; intros Hq; cbn; [lia|]. assert (0 <= seg_count qs) by (apply IHq; intros; apply Hq; [by right|done]). fold (seg_count qs).
      destruct (is_load q) eqn:E; [|lia]. pose proof (seg_pages_nonneg q (Hq q ltac:(by left) E)). lia. }
    assert (Hrest : 0 <= seg_count phs) by (apply Hpos; intros q Hq E; by apply (Hva q ltac:(by right) E)).
    cbn in Hcnt. fold (seg_count phs) in Hcnt. unfold image_type. destruct (Hst p ltac:(by left)) as (N1 & N2 & N3).
    rewrite !(proj2 (Z.eqb_neq _ _)) by done. cbn [orb]. fold (is_load p). destruct (is_load p) eqn:Eload.
    + destruct (Hva p ltac:(by left) Eload) as (Hok & Hv & Hoff). pose proof (ph_filesz p Hok). destruct (validate_segment_spec p (length c) Hok ltac:(lia) Hv) as (_ & _ & Hfm & _).
      pose proof (seg_pages_nonneg p Hok) as Hsp.
      destruct (load_phdr_correct hmem p file (length c) l Hok ltac:(lia) Hl Hv ltac:(lia) ltac:(lia)) as (Hb1 & Hb2 & o & l1 & E1 & Hl1 & Hm1 & Ho1 & Hsame & Hlay).
      { intros v Hv'. apply (Hfree p v); [by left|by split]. }
      destruct (IH l1 Hfit Hlen Hl1) as (l' & E' & Hl' & Hsame' & Hlay').
      { rewrite Hm1. lia. }
      { intros q v Hq Hqv. rewrite Hsame; [by apply (Hfree q v); [by right|]|]. intros Hin. apply list_elem_of_lookup in Hq as [j Hj]. pose proof (Hap O (S j) p q v eq_refl Hj ltac:(by split) Hqv). done. }
      exists l'. split_and!; [|done| |].
      * unfold len. unfold mbind, ST_bind. rewrite E1. unfold ASSERT. destruct (Z.leb_spec 0 o); [|specialize (Ho1 Hoff); lia]. exact E'.
      * intros v Hout. rewrite Hsame' by (intros q Hq; apply Hout; by right). apply Hsame. intros Hin. apply (Hout p); [by left|by split].
      * intros q [->|Hq]%elem_of_cons Hql; [|by apply Hlay']. intros a Ha. rewrite Hsame'; [by apply Hlay|].
        intros q Hq Hqv. apply list_elem_of_lookup in Hq as [j Hj].
        pose proof (Hap O (S j) p q (a - a mod PGSIZE) eq_refl Hj) as Hx. assert (O = S j); [apply Hx; [|done]|done]. split; [done|]. apply (page_in_segment p (length c)); [done|lia|done|done].
    + destruct (IH l Hfit Hlen Hl ltac:(lia)) as (l' & E' & Hl' & Hsame' & Hlay').
      { intros q v Hq. apply Hfree. by right. }
      exists l'. split_and!; [|done| |].
      * exact E'.
      * intros v Hout. apply Hsame'. intros q Hq. apply Hout. by right.
      * intros q [->|Hq]%elem_of_cons Hql; [congruence|by apply Hlay'].
Qed.

(** ** The properties *)
Section Claims.
Context {P : Type} `{UserPages P} (hmem : bool) (ehdr0 phdr0 : list Z) (cur file : Z).

(** C14: Reading an executable is a function of its bytes.  Whatever a file
    holds, [load] does to the page table of the process and returns exactly
    what a single pass over the bytes of the file would: it refuses what that
    pass refuses, enters the segments it enters and stops the machine where it
    would.  Nothing else changes but positions of open files. *)
Theorem load_file_reads c (m : mach P) p : length ehdr0 = 52%nat -> length phdr0 = 32%nat ->
  procs m !! cur = Some p -> file_here (fsys m) file c -> pos <$> files (fsys m) !! file = Some 0 ->
  match load_image hmem c file (sup p) with
  | Ret (r, l) => exists f, load_file hmem ehdr0 phdr0 cur file m =
      Ret (r, set_fsys f (set_procs (<[cur := mk_process (pagedir p) l]> (procs m)) m)) /\ file_here f file c /\ same_files (fsys m) f
  | Panic => load_file hmem ehdr0 phdr0 cur file m = Panic
  | OutOfFuel => load_file hmem ehdr0 phdr0 cur file m = OutOfFuel
  end.
Proof. intros He Hp Hcur Hf Hpos. exact (load_file_run hmem ehdr0 phdr0 He Hp cur file c m p Hcur Hf Hpos). Qed.

End Claims.

(** ** An example: one segment of two pages, in a file of 84 bytes *)
Definition demo_ehdr : Elf32_Ehdr := mk_ehdr (ELF_MAGIC ++ replicate 9 0) 2 3 1 0x8048054 52 0 0 52 32 1 0 0 0.
Definition demo_segment : Elf32_Phdr := mk_phdr PT_LOAD 0 0x8048000 0 84 5000 5 PGSIZE.
Definition demo_image : list Z := ehdr_bytes demo_ehdr ++ phdr_bytes demo_segment.
Definition elf_disk : disk := mk_disk 8 {[ 3 := demo_image ++ replicate 428 0 ]}.
Definition elf_fs : fs :=
  mk_fs elf_disk {[ 1 := mk_inode 2 1 false 0 (mk_inode_disk 3 84 INODE_MAGIC (replicate 500 0)) ]} [1] (free_map demo_fs) {[ 5 := mk_file 1 0 false ]} None [] 10.
Definition elf_mach : mach palloc := mk_mach [] ∅ Head [] 1 (mk_vm ∅ vm_pool 0 ∅) ∅ {[ 7 := mk_process 0 demo_table ]} demo_swap0 elf_fs.

Lemma elf_here : file_here (fsys elf_mach) 5 demo_image.
Proof.
  exists (mk_file 1 0 false), (mk_inode 2 1 false 0 (mk_inode_disk 3 84 INODE_MAGIC (replicate 500 0))). split_and!; [done| |vm_compute; reflexivity|by constructor].
  split_and!; [done| |].
  - split; [vm_compute; by split|]. intros s b Hs. cbn in Hs. apply lookup_singleton_Some in Hs as [_ <-]. vm_compute. reflexivity.
  - by split.
Qed.
Lemma elf_image : image demo_ehdr [demo_segment] demo_image.
Proof.
  split; try (vm_compute; by first [reflexivity | discriminate | split; (reflexivity || discriminate)]).
  - split; vm_compute; by first [reflexivity | split; (reflexivity || discriminate)].
  - intros k p Hk. destruct k; [|done]. injection Hk as <-. split; [vm_compute; reflexivity|]. split; [| split |..]; vm_compute; by split.
Qed.
Lemma elf_fits : segments_fit (length demo_image) [demo_segment].
Proof.
  split.
  - intros p ->%list_elem_of_singleton. done.
  - intros p ->%list_elem_of_singleton _. split_and!; [split; vm_compute; by split|vm_compute; reflexivity|vm_compute; reflexivity].
  - intros i j p q v Hi Hj _ _. by destruct i, j.
Qed.

Lemma load_file_reads_witness : exists f, load_file true (replicate 52 0) (replicate 32 0) 7 5 elf_mach =
  match load_image true demo_image 5 demo_table with
  | Ret (r, l) => Ret (r, set_fsys f (set_procs (<[7 := mk_process 0 l]> (procs elf_mach)) elf_mach))
  | _ => Panic
  end.
Proof.
  pose proof (load_file_reads true (replicate 52 0) (replicate 32 0) 7 5 demo_image elf_mach (mk_process 0 demo_table) eq_refl eq_refl eq_refl elf_here eq_refl) as H.
  cbn [sup pagedir] in H. destruct (load_image true demo_image 5 demo_table) as [[r l]| |] eqn:E.
  - destruct H as (f & H & _). exists f. exact H.
  - exists elf_fs. exact H.
  - exfalso. revert E. vm_compute. discriminate.
Defined.

