(* ===== verification/Mmap.v ===== *)
(** * Mapped files: expire_page of vm/page.c and munmap of userprog/syscall.c

    The pages of a mapped file that the program has written go back to the file
    when [munmap] ends the mapping.  [filesys_lock] and [page_sema] are held
    around the calls they protect. *)

From S2P Require Import Prelude Vaddr Hash HashProps Bytes Bitmap Disk Inode InodeProps File Palloc PageAlloc Pagedir PagedirProps Page PageProps Swap Spaces Frame FrameProps FrameEvict Elf.

Section Mmap.
Context {P : Type} `{UserPages P} (hmem : bool).
Implicit Types m : mach P.

(** The kernel reads the page through the user's address, which the page
    directory maps to [kpage]. *)
Definition expire_page (cur : Z) (gen_page : special_page_elem) : ST (mach P) unit :=
  p ← get_process cur;
  kpage ← on_vm (pagedir_get_page (pagedir p) (virtual_page gen_page));
  (if negb (kpage =? 0) then
     match gen_page with
     | file_page v source_file offset zero_after =>
       d ← on_vm (pagedir_is_dirty (pagedir p) v);
       if d : bool then
         u ← gets umem;
         on_files (file_write_at source_file (page_bytes u kpage) (s32 zero_after) (s32 offset));;
         mret tt
       else mret tt
     | _ => mret tt
     end
   else mret tt);;
  on_sup cur (delete_lazy_page hmem gen_page);;
  mret tt.

(** The loop of [munmap] with [n] turns left; [expire_page] of a null pointer
    faults. *)
Fixpoint unmap_loop (n : nat) (cur mapping : Z) (spe : option special_page_elem) : ST (mach P) unit :=
  match n with
  | O => mret tt
  | S n =>
    match spe with
    | None => panic
    | Some e =>
      expire_page cur e;;
      spe ← on_sup cur (find_lazy_page (mapping +u PGSIZE));
      unmap_loop n cur (mapping +u PGSIZE) spe
    end
  end.

Definition munmap (cur mapping : Z) : ST (mach P) unit :=
  if negb (Z.land mapping 0xfff =? 0) then mret tt
  else
    spe ← on_sup cur (find_lazy_page mapping);
    match spe with
    | Some (file_page _ file _ _) =>
      len ← on_files (file_length file);
      let read_bytes := u32 len in
      if read_bytes =? 0 then mret tt
      else
        unmap_loop (Z.to_nat (page_count read_bytes)) cur mapping spe;;
        on_files (file_close (Some file))
    | _ => mret tt
    end.

End Mmap.

(** ** Files *)

(** The file at [file] is open for writing and holds [c]; memory does not run
    out. *)
Record writable (s : fs) (file : Z) (x : Inode.file) (i : struct_inode) (c : list Z) : Prop := {
  wf_file : files s !! file = Some x; wf_open : opened s (f_inode x) i; wf_deny : deny_write_cnt i = 0;
  wf_contents : c = contents (filesys_disk s) (data i); wf_mem : Forall (eq true) (mallocs s) }.

(** Everything but the bytes of [i] and the allocator is as before. *)
Record only_writes (i : struct_inode) (s s' : fs) : Prop := {
  ow_files : files s' = files s; ow_inodes : inodes s' = inodes s; ow_opens : open_inodes s' = open_inodes s; ow_map : free_map s' = free_map s;
  ow_other j : 0 <= i_length j -> disjoint_files (data i) j -> contents (filesys_disk s') j = contents (filesys_disk s) j }.
Lemma only_writes_refl i s : only_writes i s s.
Proof. by split. Qed.
Lemma only_writes_trans i s s' s'' : only_writes i s s' -> only_writes i s' s'' -> only_writes i s s''.
Proof. intros [] []. split; try congruence. intros j Hj Hd. rewrite ow_other1, ow_other0 by done. done. Qed.

Lemma written_mallocs s i o a n b s' : InodeProps.written s i o a n b s' -> Forall (eq true) (mallocs s) -> Forall (eq true) (mallocs s').
Proof. intros (d & _ & mm & nn & -> & _ & [k Ek]) Hm. cbn in *. rewrite Ek in Hm. by apply Forall_app in Hm as [_ ?]. Qed.

Lemma write_page_run s file x i c b (ofs n : Z) : writable s file x i c -> 0 <= ofs -> 0 < n -> ofs + n <= length c -> n <= length b ->
  exists s', file_write_at file b n ofs s = Ret (n, s') /\ writable s' file x i (splice ofs (take (Z.to_nat n) b) c) /\ only_writes i s s'.
Proof.
  intros [Hx Ho Hdn Hc Hm] Hofs Hn Hfit Hb. pose proof Ho as (Hi & Hd & Hw). pose proof (iw_len _ _ Hw) as Hil.
  assert (Hlen : Z.of_nat (length c) = i_length (data i)) by (rewrite Hc, contents_length, Z2Nat.id by lia; done).
  assert (Hmem : mem_ok s) by (unfold mem_ok; destruct (mallocs s); [done|]; inversion Hm; by subst).
  destruct (wp_run _ _ _ (wp_inode_write_at s (f_inode x) i b n ofs (fun r s' => r = n /\ InodeProps.written s (data i) ofs 0 n b s') Ho ltac:(lia) ltac:(lia) ltac:(lia)
    ltac:(done) ltac:(intros r s' _ Hr Hfull Hwr; specialize (Hfull Hmem); unfold avail in Hfull; assert (r = n) as -> by lia; by split))) as (r & s' & E & -> & Hwr).
  exists s'. pose proof (written_mallocs _ _ _ _ _ _ _ Hwr Hm) as Hm'. destruct Hwr as (d' & Hst & mm & nn & -> & _).
  pose proof (stored_contents (filesys_disk s) (data i) ofs n b d' ltac:(lia) ltac:(lia) ltac:(lia) ltac:(lia) Hst) as Hcc. rewrite (proj2 (Z.eqb_neq n 0)) in Hcc by lia.
  pose proof Hst as (Hd' & Hcap & _). split_and!.
  - unfold file_write_at. by rewrite (bind_run _ _ _ x s) by (unfold get_file; by rewrite Hx).
  - split; [done| |done|cbn [filesys_disk set_heap set_disk]; by rewrite Hcc, Hc|done]. split_and!; [done|done|]. destruct Hw. split; try done. cbn. by rewrite Hcap.
  - split; try done. intros j Hj Hdj. apply (stored_other (filesys_disk s) (data i) j ofs n b d'); [lia|done|left; lia|done|done].
Qed.

(** ** Pages *)
Section Props.
Context {P : Type} `{UserPages P} (hmem : bool).
Implicit Types m : mach P.

Lemma is_flagged_entry (s : vm P) flag pd v : pd_ok s pd -> 0 <= v < PHYS_BASE -> is_flagged flag pd v s = Ret (negb (Z.land (entry (words s) pd v) flag =? 0), s).
Proof.
  intros Hok Hva. unfold is_flagged. destruct (decide (dir_entry (words s) pd v = 0)) as [E0|E0].
  - rewrite (bind_run _ _ _ 0 s) by (by apply lookup_page_missing). unfold entry. by rewrite E0.
  - rewrite (bind_run _ _ _ _ s) by (by apply lookup_page_found). rewrite (pte_addr_nonzero s) by done. simpl.
    rewrite (bind_run _ _ _ _ s) by (by apply get_pte). done.
Qed.

(** The page of the process [p] at [v] is in memory and was written: its bytes. *)
Definition modified m (p : process) (v : Z) : option (list Z) :=
  let e := entry (words (vms m)) (pagedir p) v in
  if present e && negb (Z.land e PTE_D =? 0) then Some (page_bytes (umem m) (page_of_entry e)) else None.

(** Pages that are in memory are whole pages that the kernel reaches. *)
Definition page_whole m (p : process) (v : Z) : Prop := let e := entry (words (vms m)) (pagedir p) v in
  entry_reachable e /\ (present e = true -> length (page_bytes (umem m) (page_of_entry e)) = 4096%nat).

(** The machine after a change of files and of the table of [cur]. *)
Definition after_files (cur : Z) (p : process) (l : lazy) (f : fs) m : mach P := set_fsys f (set_procs (<[cur := mk_process (pagedir p) l]> (procs m)) m).

Lemma expire_run m cur p v file ofs n x i c : procs m !! cur = Some p -> pd_ok (vms m) (pagedir p) -> sup_ok (sup p) -> is_page v -> v < PHYS_BASE -> page_whole m p v ->
  writable (fsys m) file x i c -> 0 <= ofs -> 0 < n <= 4096 -> ofs + n <= length c ->
  exists l f, expire_page hmem cur (file_page v file ofs n) m = Ret (tt, after_files cur p l f m) /\ sup_ok l /\
    (forall u, entry_at l u = if decide (u = v) then None else entry_at (sup p) u) /\ only_writes i (fsys m) f /\
    writable f file x i (match modified m p v with Some b => splice ofs (take (Z.to_nat n) b) c | None => c end).
Proof.
  intros Hp Hpd Hsup [Hv Hal] Hvb [Hre Hlen] Hw Hofs Hn Hfit. pose proof (iw_len _ _ (proj2 (proj2 (wf_open _ _ _ _ _ Hw)))) as Hil.
  assert (Hcl : Z.of_nat (length c) < 2 ^ 31) by (rewrite (wf_contents _ _ _ _ _ Hw), contents_length by lia; lia).
  destruct (delete_lazy_page_run hmem (file_page v file ofs n) (sup p) Hsup) as (l & El & Hl & _ & Hent). cbn [virtual_page] in Hent.
  unfold expire_page. rewrite (bind_run _ _ _ p m) by (unfold get_process; by rewrite Hp). cbn [virtual_page]. unfold modified. set (e := entry (words (vms m)) (pagedir p) v) in *.
  assert (Hdel : forall f, (on_sup cur (delete_lazy_page hmem (file_page v file ofs n));; mret tt) (set_fsys f m) = Ret (tt, after_files cur p l f m)).
  { intros f. rewrite (bind_run _ _ _ _ _ (on_sup_run cur _ (set_fsys f m) p _ l Hp El)). unfold after_files. by destruct m. }
  pose proof (pagedir_get_page_run (vms m) (pagedir p) v Hpd ltac:(lia)) as Eg. fold e in Eg. destruct (present e) eqn:Ep; cbn [andb].
  - destruct (pte_get_page_reachable e Hre Ep) as (page & Epg & Hpage & Ha & Hnz). rewrite Epg, Ha, Hal, Z.add_0_r in Eg. fold (page_of_entry e) in Hpage. subst page.
    assert (Em : set_vms (vms m) m = m) by (by destruct m). rewrite (bind_run _ _ _ (page_of_entry e) m) by (unfold on_vm; erewrite (zoom_run vms set_vms) by exact Eg; by rewrite Em).
    rewrite (proj2 (Z.eqb_neq _ _) Hnz). cbn [negb]. pose proof (is_flagged_entry (vms m) PTE_D (pagedir p) v Hpd ltac:(lia)) as Ef. fold e in Ef.
    destruct (negb (Z.land e PTE_D =? 0)).
    + rewrite s32_small by (unfold is_s32; lia). rewrite s32_small by (unfold is_s32; lia).
      destruct (write_page_run (fsys m) file x i c (page_bytes (umem m) (page_of_entry e)) ofs n Hw Hofs ltac:(lia) Hfit) as (f & E & Hw' & Hon); [rewrite Hlen by done; lia|].
      exists l, f. split_and!; [|done|done|done|done]. rewrite (bind_run _ _ _ tt (set_fsys f m)); [apply Hdel|].
      rewrite (bind_run _ _ _ true m) by (unfold on_vm, pagedir_is_dirty; erewrite (zoom_run vms set_vms) by exact Ef; by rewrite Em).
      rewrite (bind_run _ _ _ (umem m) m) by done. rewrite (bind_run _ _ _ n (set_fsys f m)); [done|]. unfold on_files. by apply zoom_run.
    + exists l, (fsys m). split_and!; [|done|done|apply only_writes_refl|done]. rewrite (bind_run _ _ _ tt m); [by rewrite <- Hdel; destruct m|].
      by rewrite (bind_run _ _ _ false m) by (unfold on_vm, pagedir_is_dirty; erewrite (zoom_run vms set_vms) by exact Ef; by rewrite Em).
  - exists l, (fsys m). split_and!; [|done|done|apply only_writes_refl|done].
    rewrite (bind_run _ _ _ 0 m) by (unfold on_vm; erewrite (zoom_run vms set_vms) by exact Eg; by destruct m). cbn. rewrite <- Hdel. by destruct m.
Qed.

Lemma modified_after m cur p l f q v : pagedir q = pagedir p -> modified (after_files cur p l f m) q v = modified m p v.
Proof. intros E. unfold modified. by rewrite E. Qed.
Lemma page_whole_after m cur p l f q v : pagedir q = pagedir p -> page_whole m p v -> page_whole (after_files cur p l f m) q v.
Proof. intros E. unfold page_whole. by rewrite E. Qed.

(** The byte at position [k] of a file mapped at [v]: what the page in memory
    holds if it was written, else what the file holds. *)
Definition flushed m (p : process) (v : Z) (c : list Z) (k : Z) : Z :=
  match modified m p (v + (k - k mod 4096)) with Some b => byte b (k mod 4096) | None => byte c k end.

Lemma unmap_run (cur file : Z) x i (base len : Z) (n : nat) : forall m p c (j : Z), procs m !! cur = Some p -> pd_ok (vms m) (pagedir p) -> sup_ok (sup p) ->
  is_page (base + 4096 * j) -> base + 4096 * (j + n) <= PHYS_BASE -> 0 <= j -> len = length c -> 4096 * (j + n) - 4096 < len <= 4096 * (j + n) ->
  (forall k, j <= k < j + n -> page_whole m p (base + 4096 * k)) -> writable (fsys m) file x i c ->
  (forall k, j <= k < j + n -> entry_at (sup p) (base + 4096 * k) = Some (file_page (base + 4096 * k) file (4096 * k) (Z.min 4096 (len - 4096 * k)))) ->
  exists l f c', unmap_loop hmem n cur (base + 4096 * j) (entry_at (sup p) (base + 4096 * j)) m = Ret (tt, after_files cur p l f m) /\ sup_ok l /\
    (forall u, entry_at l u = if decide (in_pages (base + 4096 * j) n u) then None else entry_at (sup p) u) /\ only_writes i (fsys m) f /\
    writable f file x i c' /\ length c' = length c /\
    forall k, 0 <= k < len -> byte c' k = if 4096 * j <=? k then flushed m p base c k else byte c k.
Proof.
  induction n as [|n IH]; intros m p c j Hp Hpd Hsup Hpage Hend Hj Hlen Hfit Hwh Hw Hent.
  - exists (sup p), (fsys m), c. split_and!; try done.
    + cbn. unfold after_files. rewrite insert_id; [by destruct m|]. rewrite Hp. by destruct p.
    + intros u. rewrite decide_False; [done|]. intros (k & Hk & _). lia.
    + intros k Hk. destruct (Z.leb_spec (4096 * j) k); [lia|done].
  - cbn [unmap_loop]. rewrite (Hent j) by lia. set (v := base + 4096 * j) in *. set (z := Z.min 4096 (len - 4096 * j)).
    assert (Hz : 0 < z <= 4096 /\ 4096 * j + z <= len) by lia. pose proof Hpage as [Hu Hal].
    destruct (expire_run m cur p v file (4096 * j) z x i c Hp Hpd Hsup Hpage ltac:(lia) (Hwh j ltac:(lia)) Hw ltac:(lia) ltac:(lia) ltac:(lia)) as (l & f & E & Hl & Hent1 & Hon & Hw1).
    rewrite (bind_run _ _ _ _ _ E). clear E. set (m1 := after_files cur p l f m). set (p1 := mk_process (pagedir p) l).
    assert (Hp1 : procs m1 !! cur = Some p1) by (cbn; by rewrite lookup_insert_eq). unfold PHYS_BASE in Hend.
    assert (Ev : v +u PGSIZE = base + 4096 * (j + 1)) by (rewrite PGSIZE_eq, u32_small; urange; lia). rewrite Ev. set (v1 := base + 4096 * (j + 1)).
    assert (Hv1 : is_page v1) by (split; [urange; lia|]; rewrite PGSIZE_eq in *; unfold v1; replace (base + 4096 * (j + 1)) with (v + 1 * 4096) by lia; by rewrite Z.mod_add).
    assert (Ef : find_lazy_page v1 (sup p1) = Ret (entry_at l v1, sup p1)).
    { rewrite find_lazy_page_run; [|done|apply Hv1|rewrite (proj2 Hv1); lia]. by rewrite (proj2 Hv1), Z.sub_0_r. }
    rewrite (bind_run _ _ _ _ _ (on_sup_read cur _ m1 p1 _ Hp1 Ef)). set (c1 := match modified m p v with Some b => _ | None => c end) in *.
    assert (Hc1 : length c1 = length c).
    { unfold c1, modified. destruct (_ && _) eqn:Eb; [|done]. apply andb_true_iff in Eb as [Eb _]. apply splice_length; [lia|]. rewrite length_take. lia. }
    destruct (IH m1 p1 c1 (j + 1) Hp1 Hpd Hl Hv1) as (l' & f' & c' & E' & Hl' & Hent' & Hon' & Hw' & Hc' & Hb'); [unfold PHYS_BASE; lia|lia|lia|lia| |done| |].
    { intros k Hk. apply (page_whole_after m cur p l f); [done|]. apply Hwh. lia. }
    { intros k Hk. cbn [sup p1]. rewrite Hent1, decide_False by lia. apply Hent. lia. }
    exists l', f', c'. split_and!; [| done| |by eapply only_writes_trans|done|lia|].
    + cbn [sup p1] in E'. fold v1 in E'. change (sup p1) with l in E'. rewrite E'. unfold m1, after_files. cbn. by rewrite insert_insert_eq.
    + intros u. rewrite Hent'. cbn [sup p1]. rewrite Hent1. fold v1. destruct (decide (in_pages v1 n u)) as [(k & Hk & Eu)|Hout].
      * rewrite decide_True; [done|]. exists (k + 1). lia.
      * case_decide as Eu; [rewrite decide_True; [done|exists 0; lia]|]. rewrite decide_False; [done|]. intros (k & Hk & Eu'). apply Hout. exists (k - 1).
        assert (k <> 0) by (intros ->; lia). lia.
    + intros k Hk. rewrite Hb' by done. unfold flushed. rewrite (modified_after m cur p l f p1) by done.
      assert (Hbk : byte c1 k = match modified m p v with Some b => if (4096 * j <=? k) && (k <? 4096 * j + z) then byte b (k - 4096 * j) else byte c k | None => byte c k end).
      { unfold c1. destruct (modified m p v) as [b|] eqn:Em; [|done]. assert (Hb : length b = 4096%nat).
        { unfold modified in Em. destruct (_ && _) eqn:Eb; [|done]. injection Em as <-. apply andb_true_iff in Eb as [Eb _]. by apply (Hwh j ltac:(lia)). }
        rewrite byte_splice; [|lia|rewrite length_take; lia|lia]. rewrite length_take, Hb. replace (Z.of_nat (Z.to_nat z `min` 4096)) with z by lia.
        destruct (Z.leb_spec (4096 * j) k), (Z.ltb_spec k (4096 * j + z)); cbn [andb]; try done. rewrite byte_take.
        destruct (Z.ltb_spec (Z.to_nat (k - 4096 * j)) (Z.to_nat z)); [done|lia]. }
      rewrite Hbk. destruct (Z.leb_spec (4096 * (j + 1)) k) as [Hk1|Hk1].
      * destruct (Z.leb_spec (4096 * j) k); [|lia]. destruct (modified m p (base + (k - k mod 4096))); [done|]. destruct (Z.ltb_spec k (4096 * j + z)); [lia|]. cbn [andb]. by destruct (modified m p v).
      * destruct (Z.leb_spec (4096 * j) k) as [Hjk|Hjk]; cbn [andb]; [|by destruct (modified m p v)]. assert (Ek : k - k mod 4096 = 4096 * j) by (clear -Hk1 Hjk; Z.to_euclidean_division_equations; lia).
        rewrite Ek. fold v. destruct (modified m p v); [|done]. destruct (Z.ltb_spec k (4096 * j + z)); [|lia]. f_equal. lia.
Qed.

(** C15: [munmap] writes a mapped file back.  If the pages from [mapping] on are
    the pages of an open file, [munmap] turns every byte of the file into the
    byte that its page in memory holds, if the page is there and was written, and
    leaves every other byte of the file and every other file as it was; the
    entries of the mapping are gone, those of other pages stay, and the file is
    closed.  Page directory and memory do not change: the pages stay
    accessible to the program. *)
Theorem munmap_writes_back m cur p mapping file x i c : procs m !! cur = Some p -> pd_ok (vms m) (pagedir p) -> sup_ok (sup p) ->
  writable (fsys m) file x i c -> 0 < length c -> is_page mapping -> mapping + 4096 * page_count (length c) <= PHYS_BASE ->
  (forall k, 0 <= k < page_count (length c) -> page_whole m p (mapping + 4096 * k)) ->
  (forall k, 0 <= k < page_count (length c) ->
     entry_at (sup p) (mapping + 4096 * k) = Some (file_page (mapping + 4096 * k) file (4096 * k) (Z.min 4096 (length c - 4096 * k)))) ->
  exists l f c', munmap hmem cur mapping m = on_files (file_close (Some file)) (set_fsys f (set_procs (<[cur := mk_process (pagedir p) l]> (procs m)) m)) /\
    sup_ok l /\ (forall u, entry_at l u = if decide (in_pages mapping (page_count (length c)) u) then None else entry_at (sup p) u) /\
    writable f file x i c' /\ length c' = length c /\ (forall k, 0 <= k < length c -> byte c' k = flushed m p mapping c k) /\ only_writes i (fsys m) f.
Proof.
  intros Hp Hpd Hsup Hw Hpos Hpage Hend Hwh Hent. pose proof (iw_len _ _ (proj2 (proj2 (wf_open _ _ _ _ _ Hw)))) as Hil. pose proof Hpage as [Hu Hal].
  assert (Hcl : Z.of_nat (length c) < 2 ^ 31) by (rewrite (wf_contents _ _ _ _ _ Hw), contents_length by lia; lia). set (n := page_count (length c)) in *.
  assert (Hn : 4096 * n - 4096 < length c <= 4096 * n) by (unfold n, page_count; rewrite PGSIZE_eq; zcases; Z.to_euclidean_division_equations; lia).
  assert (Hhere : file_here (fsys m) file c) by (destruct Hw; by exists x, i). destruct (file_length_run _ _ _ Hhere) as [El _].
  assert (Ef : find_lazy_page mapping (sup p) = Ret (entry_at (sup p) mapping, sup p)).
  { rewrite find_lazy_page_run; [by rewrite Hal, Z.sub_0_r|done|done|]. rewrite Hal. unfold PHYS_BASE in Hend. lia. }
  destruct (unmap_run cur file x i mapping (length c) (Z.to_nat n) m p c 0) as (l & f & c' & E & Hl & Hentl & Hon & Hw' & Hc' & Hb); rewrite ?Z.mul_0_r, ?Z.add_0_r, ?Z.add_0_l, ?Z2Nat.id by lia;
    [done|done|done|done|done|lia|done|lia|done|done|done|]. rewrite Z.mul_0_r, Z.add_0_r, Z2Nat.id in Hentl by lia. rewrite Z.mul_0_r, Z.add_0_r in E.
  assert (E0 : entry_at (sup p) mapping = Some (file_page mapping file 0 (Z.min 4096 (length c)))) by (rewrite <- (Z.add_0_r mapping) at 1; change 0 with (4096 * 0) at 1; rewrite Hent by lia; by rewrite !Z.mul_0_r, Z.add_0_r, Z.sub_0_r).
  exists l, f, c'. split_and!; try done.
  - unfold munmap. assert (Em : Z.land mapping 0xfff = 0).
    { change 0xfff with (2 ^ 12 - 1). rewrite land_ones_low by lia. by rewrite PGSIZE_eq in Hal. }
    rewrite Em. cbn [negb Z.eqb]. rewrite (bind_run _ _ _ _ _ (on_sup_read cur _ m p _ Hp Ef)), E0.
    rewrite (bind_run _ _ _ (Z.of_nat (length c)) m) by (unfold on_files; erewrite (zoom_run fsys set_fsys) by exact El; by destruct m).
    rewrite u32_small by (urange; lia). rewrite (proj2 (Z.eqb_neq _ _)) by lia. fold n. rewrite <- E0. by rewrite (bind_run _ _ _ _ _ E).
  - intros k Hk. rewrite Hb by done. destruct (Z.leb_spec (4096 * 0) k); [done|lia].
Qed.
End Props.

(** ** An example: a file of 84 bytes mapped at a page that was written *)
Definition map_entry : special_page_elem := file_page 0x8048000 5 0 84.
Definition map_table : lazy := match add_lazy_page true map_entry demo_table with Ret (_, l) => l | _ => demo_table end.
Definition map_proc : process := mk_process 0xc0101000 map_table.
Definition map_mach : mach palloc := set_fsys elf_fs (demo_with map_table).

Lemma map_table_ok : sup_ok map_table /\ entry_at map_table 0x8048000 = Some map_entry.
Proof.
  destruct (add_lazy_page_run true map_entry demo_table demo_table_ok ltac:(vm_compute; by repeat split)) as (l & E & Hl & _ & Hent). unfold map_table. rewrite E. split; [done|].
  rewrite Hent. by rewrite decide_True.
Qed.
Definition map_inode : struct_inode := mk_inode 2 1 false 0 (mk_inode_disk 3 84 INODE_MAGIC (replicate 500 0)).
Lemma map_writable : writable (fsys map_mach) 5 (mk_file 1 0 false) map_inode demo_image.
Proof. destruct elf_here as (x & i & Hx & Ho & Hc & Hm). injection Hx as <-. pose proof Ho as (Hi & _). injection Hi as <-. by split. Qed.

Lemma munmap_writes_back_witness : exists l f c', munmap true 7 0x8048000 map_mach = on_files (file_close (Some 5)) (set_fsys f (set_procs (<[7 := mk_process 0xc0101000 l]> (procs map_mach)) map_mach)) /\
  forall k, 0 <= k < 84 -> byte c' k = flushed map_mach map_proc 0x8048000 demo_image k.
Proof.
  destruct (munmap_writes_back true map_mach 7 map_proc 0x8048000 5 (mk_file 1 0 false) map_inode demo_image) as (l & f & c' & E & _ & _ & _ & _ & Hb & _).
  - reflexivity.
  - exact (so_dir _ _ demo_spaces 0xc0101000 ltac:(set_solver)).
  - exact (proj1 map_table_ok).
  - exact map_writable.
  - vm_compute. reflexivity.
  - vm_compute. by repeat split.
  - vm_compute. discriminate.
  - intros k Hk. change (page_count (length demo_image)) with 1 in Hk. assert (k = 0) as -> by lia. unfold page_whole. change (entry (words (vms map_mach)) (pagedir map_proc) (0x8048000 + 4096 * 0)) with (entry vm_words 0xc0101000 0x8048000).
    rewrite demo_present by (split; [split; [discriminate|reflexivity]|reflexivity]). rewrite decide_True by reflexivity. split; [intros _; reflexivity|]. intros _. vm_compute. reflexivity.
  - intros k Hk. change (page_count (length demo_image)) with 1 in Hk. assert (k = 0) as -> by lia. exact (proj2 map_table_ok).
  - exists l, f, c'. split; [exact E|exact Hb].
Defined.
