(* ===== verification/Syscall.v ===== *)
(** * System calls: userprog/syscall.c

    The calls on files, with the checks of user memory.  A call returns a
    value or ends the process with a status, so its result is a sum; the
    state is the file system, the descriptor table of the process, its
    supplemental page table and what was written to the console.  User
    memory is the map of the bytes that can be read at the time of the call,
    after any page fault has been served: an access outside it is the
    segmentation fault that [get_user] and [put_user] report, and stops the
    machine where the code dereferences a pointer itself. *)

From S2P Require Import Prelude Vaddr Bytes Inode File Directory Hash Page.

Definition NUM_FD : Z := 128.

Record proc := mk_proc {
  p_fs : fs;
  fdtable : list (option Z);
  p_sup : lazy;
  umem : gmap Z Z;
  console : list Z;
}.

Definition set_fs (s : fs) (p : proc) : proc := mk_proc s (fdtable p) (p_sup p) (umem p) (console p).
Definition set_fdtable (t : list (option Z)) (p : proc) : proc := mk_proc (p_fs p) t (p_sup p) (umem p) (console p).
Definition set_sup (l : lazy) (p : proc) : proc := mk_proc (p_fs p) (fdtable p) l (umem p) (console p).
Definition set_umem (m : gmap Z Z) (p : proc) : proc := mk_proc (p_fs p) (fdtable p) (p_sup p) m (console p).
Definition set_console (c : list Z) (p : proc) : proc := mk_proc (p_fs p) (fdtable p) (p_sup p) (umem p) c.

Definition on_fs {A} (m : ST fs A) : ST proc A := fun p =>
  match m (p_fs p) with
  | Ret (a, s) => Ret (a, set_fs s p)
  | Panic => Panic
  | OutOfFuel => OutOfFuel
  end.
Definition on_lazy {A} (m : ST lazy A) : ST proc A := fun p =>
  match m (p_sup p) with
  | Ret (a, l) => Ret (a, set_sup l p)
  | Panic => Panic
  | OutOfFuel => OutOfFuel
  end.

(** ** Calls that may end the process *)

Definition scall (A : Type) : Type := ST proc (A + Z).

Definition exit {A} (status : Z) : scall A := fun p => Ret (inr status, p).
Definition done {A} (a : A) : scall A := fun p => Ret (inl a, p).
Definition andthen {A B} (m : scall A) (k : A -> scall B) : scall B := fun p =>
  match m p with
  | Ret (inl a, p') => k a p'
  | Ret (inr status, p') => Ret (inr status, p')
  | Panic => Panic
  | OutOfFuel => OutOfFuel
  end.
Definition lifts {A} (m : ST proc A) : scall A := fun p =>
  match m p with
  | Ret (a, p') => Ret (inl a, p')
  | Panic => Panic
  | OutOfFuel => OutOfFuel
  end.

Declare Scope scall_scope.
Notation "x <~ m ; k" := (andthen m (fun x => k)) (at level 100, m at next level, right associativity) : scall_scope.
Notation "m ;~ k" := (andthen m (fun _ => k)) (at level 100, right associativity) : scall_scope.
Open Scope scall_scope.

Section Syscalls.
(** [fuel] bounds the strings; [stack], [entry] and [block] are what local
    variables and blocks from [malloc] hold before they are written;
    [writable] says which user pages can be written; [mem] whether [rehash]
    gets its memory. *)
Context (fuel : nat) (stack entry : list Z) (block : Z -> list Z) (writable : Z -> bool) (mem : bool).

(** ** User memory *)

Definition get_user (uaddr : Z) : ST proc Z := p ← gets umem; mret (default (-1) (p !! uaddr)).

Definition put_user (udst byte : Z) : ST proc bool :=
  p ← gets umem;
  match p !! udst with
  | Some _ => if writable udst then modify (set_umem (<[udst := byte]> p));; mret true else mret false
  | None => mret false
  end.

Fixpoint validate_string_loop (n : nat) (string i : Z) : scall unit :=
  match n with
  | O => no_fuel
  | S n =>
    if PHYS_BASE <=? string +u i then exit (-1)
    else
      v <~ lifts (get_user (string +u i));
      if v =? -1 then exit (-1)
      else if v =? 0 then done tt
      else validate_string_loop n string (i +u 1)
  end.

Definition validate_string (string : Z) : scall unit :=
  if string =? 0 then exit (-1) else validate_string_loop fuel string 0.

Fixpoint validate_read_loop (n : nat) (buffer count : Z) : scall unit :=
  match n with
  | O => done tt
  | S n =>
    v <~ lifts (get_user (buffer +u count));
    if v =? -1 then exit (-1) else validate_read_loop n buffer (count + 1)
  end.

Definition validate_read (buffer size : Z) : scall unit :=
  if PHYS_BASE <=? buffer +u size then exit (-1) else validate_read_loop (Z.to_nat size) buffer 0.

(** [from]: the bytes of the kernel's buffer. *)
Fixpoint validate_write_loop (n : nat) (from : list Z) (user_to count : Z) : scall unit :=
  match n with
  | O => done tt
  | S n =>
    match from with
    | [] => panic
    | b :: from =>
      ok <~ lifts (put_user (user_to +u count) b);
      if negb (ok : bool) then exit (-1) else validate_write_loop n from user_to (count + 1)
    end
  end.

Definition validate_write (from : list Z) (user_to size : Z) : scall unit :=
  if PHYS_BASE <=? user_to +u size then exit (-1) else validate_write_loop (Z.to_nat size) from user_to 0.

(** What the kernel reads through a user pointer. *)
Fixpoint user_bytes (n : nat) (p : Z) : ST proc (list Z) :=
  match n with
  | O => mret []
  | S n =>
    m ← gets umem;
    match m !! p with
    | None => panic
    | Some b => l ← user_bytes n (p +u 1); mret (b :: l)
    end
  end.
Definition user_word (p : Z) : ST proc Z := l ← user_bytes 4 p; mret (of_le l).
Fixpoint user_string (n : nat) (p : Z) : ST proc (list Z) :=
  match n with
  | O => no_fuel
  | S n =>
    m ← gets umem;
    match m !! p with
    | None => panic
    | Some b => if b =? 0 then mret [] else l ← user_string n (p +u 1); mret (b :: l)
    end
  end.

(** ** Descriptors *)

(** [get_file]: null is [None]. *)
Definition get_fd (fd : Z) : scall (option Z) :=
  if (fd <? 0) || (NUM_FD <=? fd) then exit (-1)
  else t <~ lifts (gets fdtable); match t !! Z.to_nat fd with Some f => done f | None => panic end.

(** A function of file.c given a null file. *)
Definition not_null {A} (f : option Z) (k : Z -> ST fs A) : scall A :=
  match f with Some f => lifts (on_fs (k f)) | None => panic end.

Fixpoint find_fd (n : nat) (table : list (option Z)) (fd : Z) : Z :=
  match n with
  | O => fd
  | S n => match table !! Z.to_nat fd with Some None => fd | _ => find_fd n table (fd + 1) end
  end.

Definition create (file initial_size : Z) : scall Z :=
  validate_string file;~
  if file =? 0 then exit (-1)
  else
    name <~ lifts (user_string fuel file);
    r <~ lifts (on_fs (filesys_create stack entry name (s32 initial_size)));
    done (if r : bool then 1 else 0).

Definition remove (file : Z) : scall Z :=
  validate_string file;~
  if file =? 0 then done 0
  else
    name <~ lifts (user_string fuel file);
    r <~ lifts (on_fs (filesys_remove stack name));
    done (if r : bool then 1 else 0).

Definition open (file : Z) : scall Z :=
  validate_string file;~
  table <~ lifts (gets fdtable);
  let fd := find_fd 126 table 2 in
  if fd =? NUM_FD then done (-1)
  else
    name <~ lifts (user_string fuel file);
    f <~ lifts (on_fs (filesys_open stack name));
    lifts (modify (fun p => set_fdtable (<[Z.to_nat fd := f]> (fdtable p)) p));~
    done (match f with None => -1 | Some _ => fd end).

(** A block of [size] bytes; none for a null pointer. *)
Definition read (fd buffer size : Z) : scall Z :=
  if buffer =? 0 then done (-1)
  else if fd =? 1 then done (-1)
  else if fd =? 0 then done (-1)
  else
    file <~ get_fd fd;
    m <~ lifts (on_fs malloc);
    let localbuff := match m with Some _ => block size | None => [] end in
    r <~ not_null file (fun f => file_read f localbuff (s32 size));
    validate_write (r : Z * list Z).2 buffer (u32 r.1);~
    done r.1.

Definition write (fd buffer size : Z) : scall Z :=
  validate_read buffer size;~
  if fd =? 1 then
    bytes <~ lifts (user_bytes (Z.to_nat size) buffer);
    lifts (modify (fun p => set_console (console p ++ bytes) p));~ done (s32 size)
  else
    file <~ get_fd fd;
    match file with
    | None => done (-1)
    | Some f =>
      bytes <~ lifts (user_bytes (Z.to_nat size) buffer);
      lifts (on_fs (file_write f bytes (s32 size)))
    end.

Definition seek (fd position : Z) : scall unit :=
  file <~ get_fd fd; not_null file (fun f => file_seek f (s32 position)).

Definition tell (fd : Z) : scall Z := file <~ get_fd fd; not_null file file_tell.

Definition filesize (fd : Z) : scall Z := file <~ get_fd fd; not_null file file_length.

Definition close (fd : Z) : scall unit :=
  file <~ get_fd fd;
  if fd <? 2 then done tt
  else
    match file with
    | None => done tt
    | Some f =>
      lifts (on_fs (file_close (Some f)));~
      lifts (modify (fun p => set_fdtable (<[Z.to_nat fd := None]> (fdtable p)) p))
    end.

(** One entry per page of the file. *)
Fixpoint map_pages (n : nat) (file addr ofs read_bytes : Z) : ST lazy unit :=
  match n with
  | O => no_fuel
  | S n =>
    if 0 <? read_bytes then
      let page_read_bytes := if read_bytes <? PGSIZE then read_bytes else PGSIZE in
      e ← new_file_page addr file (u32 ofs) page_read_bytes;
      add_lazy_page mem e;;
      map_pages n file (addr +u PGSIZE) (s32 (ofs + PGSIZE)) (read_bytes -u page_read_bytes)
    else mret tt
  end.

Definition mmap (fd addr : Z) : scall Z :=
  file <~ get_fd fd;
  match file with
  | None => done (-1)
  | Some f =>
    if (addr <? PGSIZE) || negb (Z.land addr 0xfff =? 0) || (STACK_BOTTOM <=? addr) then done (-1)
    else
      f <~ lifts (on_fs (file_reopen f));
      len <~ not_null f file_length;
      let read_bytes := u32 len in
      free <~ (if read_bytes =? 0 then done false else lifts (on_lazy (validate_free_page addr read_bytes)));
      if negb free then done (-1)
      else
        lifts (on_lazy (map_pages (S (Z.to_nat (page_count read_bytes))) (default 0 f) addr 0 read_bytes));~
        done (s32 addr)
  end.

(** ** The handler

    [esp] is the user's stack pointer; the result is the new value of the
    user's [eax], which stays as it is where the call has no result.
    [halt], [exec], [wait] and [munmap] belong to components outside this
    state and are arguments. *)
Definition SYS_HALT : Z := 0.
Definition SYS_EXIT : Z := 1.
Definition SYS_EXEC : Z := 2.
Definition SYS_WAIT : Z := 3.
Definition SYS_CREATE : Z := 4.
Definition SYS_REMOVE : Z := 5.
Definition SYS_OPEN : Z := 6.
Definition SYS_FILESIZE : Z := 7.
Definition SYS_READ : Z := 8.
Definition SYS_WRITE : Z := 9.
Definition SYS_SEEK : Z := 10.
Definition SYS_TELL : Z := 11.
Definition SYS_CLOSE : Z := 12.
Definition SYS_MMAP : Z := 13.
Definition SYS_MUNMAP : Z := 14.

(** [args[i]]. *)
Definition arg (esp i : Z) : scall Z := lifts (user_word (esp +u 4 +u 4 * i)).

Context (halt : scall Z) (exec wait : Z -> scall Z) (munmap : Z -> scall unit).

Definition syscall_handler (esp eax : Z) : scall Z :=
  validate_read esp 1;~
  n <~ lifts (user_word esp);
  let valid k := validate_read (esp +u 4) k in
  if n =? SYS_HALT then halt
  else if n =? SYS_EXIT then valid 1;~ a <~ arg esp 0; exit (s32 a)
  else if n =? SYS_EXEC then valid 1;~ a <~ arg esp 0; exec a
  else if n =? SYS_WAIT then valid 1;~ a <~ arg esp 0; wait (s32 a)
  else if n =? SYS_CREATE then valid 2;~ a <~ arg esp 0; b <~ arg esp 1; create a b
  else if n =? SYS_REMOVE then valid 1;~ a <~ arg esp 0; remove a
  else if n =? SYS_OPEN then valid 1;~ a <~ arg esp 0; open a
  else if n =? SYS_FILESIZE then valid 1;~ a <~ arg esp 0; filesize (s32 a)
  else if n =? SYS_READ then valid 3;~ a <~ arg esp 0; b <~ arg esp 1; c <~ arg esp 2; read (s32 a) b c
  else if n =? SYS_WRITE then valid 3;~ a <~ arg esp 0; b <~ arg esp 1; c <~ arg esp 2; write (s32 a) b c
  else if n =? SYS_SEEK then valid 2;~ a <~ arg esp 0; b <~ arg esp 1; seek (s32 a) b;~ done eax
  else if n =? SYS_TELL then valid 1;~ a <~ arg esp 0; tell (s32 a)
  else if n =? SYS_CLOSE then valid 1;~ a <~ arg esp 0; close (s32 a);~ done eax
  else if n =? SYS_MMAP then valid 2;~ a <~ arg esp 0; b <~ arg esp 1; mmap (s32 a) b
  else if n =? SYS_MUNMAP then valid 1;~ a <~ arg esp 0; munmap a;~ done eax
  else exit (-1).
End Syscalls.
