(* ===== verification/SyscallProps.v ===== *)
(** * System calls: descriptors and user memory *)

From S2P Require Import Prelude Vaddr Bytes Disk Inode InodeProps File FileProps Directory FilesysOpens Hash Page Syscall.

(** ** Rules for calls *)

Lemma wlp_andthen {A B} (m : scall A) (k : A -> scall B) p Q :
  wlp m p (fun r p' => match r with inl a => wlp (k a) p' Q | inr st => Q (inr st) p' end) -> wlp (andthen m k) p Q.
Proof. unfold wlp, andthen. by destruct (m p) as [[[a|st] p']| |]. Qed.

Lemma wlp_lifts {A} (m : ST proc A) p (Q : A + Z -> proc -> Prop) : wlp m p (fun a p' => Q (inl a) p') -> wlp (lifts m) p Q.
Proof. unfold wlp, lifts. by destruct (m p) as [[a p']| |]. Qed.

Lemma wlp_on_fs {A} (m : ST fs A) p (Q : A -> proc -> Prop) : wlp m (p_fs p) (fun a s => Q a (set_fs s p)) -> wlp (on_fs m) p Q.
Proof. unfold wlp, on_fs. by destruct (m (p_fs p)) as [[a s]| |]. Qed.

(** ** Descriptor tables *)

(** The descriptors 0 and 1 stand for the console; every other open
    descriptor has an open file of its own. *)
Record table_ok (p : proc) : Prop := {
  tk_len : length (fdtable p) = 128%nat;
  tk_std fd : (fd < 2)%nat -> fdtable p !! fd = Some None;
  tk_open fd f : fdtable p !! fd = Some (Some f) -> is_Some (files (p_fs p) !! f);
  tk_inj fd fd' f : fdtable p !! fd = Some (Some f) -> fdtable p !! fd' = Some (Some f) -> fd = fd';
  tk_fs : opens_ok (p_fs p);
}.

(** The descriptors other than [t] keep their files, positions included. *)
Definition others (t : Z) (p p' : proc) : Prop := forall (fd : nat) f x, Z.of_nat fd <> t ->
  fdtable p !! fd = Some (Some f) -> files (p_fs p) !! f = Some x ->
  fdtable p' !! fd = Some (Some f) /\ files (p_fs p') !! f = Some x.

Definition keeps (t : Z) (p p' : proc) : Prop := table_ok p' /\ others t p p'.

(** Neither the file system nor the descriptors change. *)
Definition same_table (p p' : proc) : Prop := p_fs p' = p_fs p /\ fdtable p' = fdtable p.

Lemma same_table_ok p p' : same_table p p' -> table_ok p -> table_ok p'.
Proof. intros [E1 E2] [H1 H2 H3 H4 H5]. split; rewrite ?E1, ?E2; done. Qed.

Lemma keeps_same t p p' : table_ok p -> same_table p p' -> keeps t p p'.
Proof. intros H Hs. split; [by eapply same_table_ok|]. destruct Hs as [E1 E2]. intros fd f x _. by rewrite E1, E2. Qed.

Lemma keeps_trans t p p1 p2 : keeps t p p1 -> keeps t p1 p2 -> keeps t p p2.
Proof. intros [_ O1] [T2 O2]. split; [done|]. intros fd f x Ht Hf Hx. destruct (O1 fd f x Ht Hf Hx). by apply O2. Qed.

Definition quiet {A} (m : scall A) : Prop := forall p, wlp m p (fun _ p' => same_table p p').

Lemma same_table_refl p : same_table p p.
Proof. done. Qed.
Lemma same_table_trans p p1 p2 : same_table p p1 -> same_table p1 p2 -> same_table p p2.
Proof. intros [] []. split; congruence. Qed.

Lemma quiet_then {A B} (m : scall A) (k : A -> scall B) : quiet m -> (forall a, quiet (k a)) -> quiet (andthen m k).
Proof.
  intros Hm Hk p. apply wlp_andthen. eapply wlp_mono; [apply Hm|]. intros [a|st] p1 H1; [|done].
  eapply wlp_mono; [apply Hk|]. intros r p2 H2. by eapply same_table_trans.
Qed.
Lemma quiet_lifts {A} (m : ST proc A) : (forall p, wlp m p (fun _ p' => same_table p p')) -> quiet (lifts m).
Proof. intros H p. apply wlp_lifts. apply H. Qed.
Lemma quiet_done {A} (a : A) : quiet (done a).
Proof. by intros p. Qed.
Lemma quiet_exit {A} st : quiet (A := A) (exit st).
Proof. by intros p. Qed.
Lemma quiet_panic {A} : quiet (A := A) panic.
Proof. by intros p. Qed.
Lemma quiet_no_fuel {A} : quiet (A := A) no_fuel.
Proof. by intros p. Qed.
Lemma quiet_gets {A} (f : proc -> A) : quiet (lifts (gets f)).
Proof. by intros p. Qed.
Lemma quiet_lazy {A} (m : ST lazy A) : quiet (lifts (on_lazy m)).
Proof. apply quiet_lifts. intros p. unfold wlp, on_lazy. by destruct (m (p_sup p)) as [[a l]| |]. Qed.
Lemma quiet_get_user a : quiet (lifts (get_user a)).
Proof. by intros p. Qed.
Lemma quiet_put_user w a b : quiet (lifts (put_user w a b)).
Proof.
  intros p. unfold wlp, lifts, put_user, mbind, ST_bind, gets. destruct (umem p !! a); [|done]. by destruct (w a).
Qed.

Create HintDb quiet.
#[export] Hint Resolve quiet_done quiet_exit quiet_panic quiet_no_fuel quiet_gets quiet_lazy quiet_get_user quiet_put_user : quiet.

Ltac quiet :=
  repeat match goal with
  | |- quiet (andthen _ _) => apply quiet_then; [|intros ?]
  | |- quiet (if ?b then _ else _) => destruct b
  | |- quiet (match ?x with _ => _ end) => destruct x
  | |- quiet _ => solve [auto with quiet]
  end.

Lemma quiet_user_bytes n a : quiet (lifts (user_bytes n a)).
Proof.
  apply quiet_lifts. revert a. induction n as [|n IH]; intros a p; [done|]. cbn [user_bytes]. apply wlp_bind, wlp_gets.
  destruct (umem p !! a); [|done]. apply wlp_bind. eapply wlp_mono; [apply IH|]. intros. by apply wlp_ret.
Qed.
Lemma quiet_user_word a : quiet (lifts (user_word a)).
Proof.
  apply quiet_lifts. intros p. apply wlp_bind. pose proof (quiet_user_bytes 4 a p) as H. unfold wlp, lifts in *.
  by destruct (user_bytes 4 a p) as [[l p']| |].
Qed.
Lemma quiet_user_string n a : quiet (lifts (user_string n a)).
Proof.
  apply quiet_lifts. revert a. induction n as [|n IH]; intros a p; [done|]. cbn [user_string]. apply wlp_bind, wlp_gets.
  destruct (umem p !! a) as [b|]; [|done]. destruct (b =? 0); [by apply wlp_ret|].
  apply wlp_bind. eapply wlp_mono; [apply IH|]. intros. by apply wlp_ret.
Qed.
#[export] Hint Resolve quiet_user_bytes quiet_user_word quiet_user_string : quiet.

Lemma quiet_validate_read a n : quiet (validate_read a n).
Proof.
  unfold validate_read. destruct (PHYS_BASE <=? _); [quiet|]. generalize 0 as c. generalize (Z.to_nat n) as k.
  induction k as [|k IH]; intros c; cbn [validate_read_loop]; quiet.
Qed.
Lemma quiet_validate_string fuel a : quiet (validate_string fuel a).
Proof.
  unfold validate_string. destruct (a =? 0); [quiet|]. generalize 0 as c.
  induction fuel as [|k IH]; intros c; cbn [validate_string_loop]; quiet.
Qed.
Lemma quiet_validate_write w l a n : quiet (validate_write w l a n).
Proof.
  unfold validate_write. destruct (PHYS_BASE <=? _); [quiet|]. generalize 0 as c. generalize (Z.to_nat n) as k. revert l.
  induction l as [|b l IH]; intros [|k] c; cbn [validate_write_loop]; quiet.
Qed.
Lemma quiet_get_fd fd : quiet (get_fd fd).
Proof. unfold get_fd. quiet. Qed.
#[export] Hint Resolve quiet_validate_read quiet_validate_string quiet_validate_write quiet_get_fd : quiet.

(** ** The calls *)

(** A step of a call that changes no descriptor, and what follows. *)
Lemma keeps_quiet {A B} (m : scall A) (k : A -> scall B) t p : table_ok p -> quiet m ->
  (forall a p', same_table p p' -> table_ok p' -> wlp (k a) p' (fun _ p2 => keeps t p' p2)) ->
  wlp (andthen m k) p (fun _ p2 => keeps t p p2).
Proof.
  intros Hp Hm Hk. apply wlp_andthen. eapply wlp_mono; [apply Hm|]. intros [a|st] p1 H1; [|by apply keeps_same].
  assert (T1 := same_table_ok _ _ H1 Hp). eapply wlp_mono; [by apply Hk|]. intros r p2 H2. by eapply keeps_trans; [apply keeps_same|].
Qed.

Lemma keeps_then {A B} (m : scall A) (k : A -> scall B) t p : wlp m p (fun _ p' => keeps t p p') ->
  (forall a, quiet (k a)) -> wlp (andthen m k) p (fun _ p2 => keeps t p p2).
Proof.
  intros Hm Hk. apply wlp_andthen. eapply wlp_mono; [apply Hm|]. intros [a|st] p1 H1; [|done].
  eapply wlp_mono; [apply Hk|]. intros r p2 H2. eapply keeps_trans; [done|]. by apply keeps_same; [apply H1|].
Qed.

Lemma keeps_of_quiet {A} (m : scall A) t p : table_ok p -> quiet m -> wlp m p (fun _ p' => keeps t p p').
Proof. intros Hp Hm. eapply wlp_mono; [apply Hm|]. intros r p'. by apply keeps_same. Qed.

(** The file system changes, with the files that are open kept. *)
Lemma keeps_grows t p s' : table_ok p -> opens_ok s' -> grows (p_fs p) s' -> keeps t p (set_fs s' p).
Proof.
  intros [H1 H2 H3 H4 H5] Hs Hg. split; [split; simpl; try done|].
  - intros fd f Hf. destruct (H3 fd f Hf) as [x Hx]. exists x. by apply Hg.
  - intros fd f x _ Hf Hx. split; [done|]. by apply Hg.
Qed.

(** The file of the descriptor [fd] changes. *)
Lemma keeps_moved fd f x' p s' : table_ok p -> fdtable p !! Z.to_nat fd = Some (Some f) -> opens_ok s' ->
  files s' = <[f := x']> (files (p_fs p)) -> keeps fd p (set_fs s' p).
Proof.
  intros [H1 H2 H3 H4 H5] Hfd Hs E. split; [split; simpl; try done|].
  - intros g h Hg. rewrite E, lookup_insert. case_decide; [by eexists|by apply (H3 g)].
  - intros g h x Hg Hh Hx. split; [done|]. simpl. rewrite E, lookup_insert_ne; [done|].
    intros ->. assert (g = Z.to_nat fd) by (by apply (H4 g _ h)). assert (0 <= fd \/ fd < 0) as [|] by lia; [lia|].
    assert (Z.to_nat fd = 0%nat) as E0 by lia. rewrite E0 in Hfd. by rewrite (H2 0%nat) in Hfd by lia.
Qed.

Lemma wlp_get_fd fd p Q : (forall f, 0 <= fd < 128 -> fdtable p !! Z.to_nat fd = Some f -> Q (inl f) p) -> Q (inr (-1)) p -> wlp (get_fd fd) p Q.
Proof.
  intros H1 H2. unfold get_fd, NUM_FD. destruct ((fd <? 0) || (128 <=? fd)) eqn:E; [done|].
  apply wlp_andthen, wlp_lifts, wlp_gets. destruct (fdtable p !! Z.to_nat fd) as [f|] eqn:Ef; [|done].
  apply orb_false_iff in E as [E1%Z.ltb_ge E2%Z.leb_gt]. by apply H1.
Qed.

(** A function of file.c on the file of a descriptor. *)
Lemma keeps_on_file {A} (m : ST fs A) fd f p : table_ok p -> fdtable p !! Z.to_nat fd = Some (Some f) ->
  wlp m (p_fs p) (fun _ s' => opens_ok s' /\ exists x', files s' = <[f := x']> (files (p_fs p))) ->
  wlp (lifts (on_fs m)) p (fun _ p' => keeps fd p p').
Proof.
  intros Hp Hfd Hm. apply wlp_lifts, wlp_on_fs. eapply wlp_mono; [apply Hm|]. intros a s' (Hs & x' & E). by eapply keeps_moved.
Qed.

Lemma find_fd_spec n table fd : 0 <= fd -> let r := find_fd n table fd in
  fd <= r <= fd + n /\ (forall k, fd <= k < r -> table !! Z.to_nat k <> Some None) /\
  (r < fd + n -> table !! Z.to_nat r = Some None).
Proof.
  revert fd. induction n as [|n IH]; intros fd Hfd; cbn [find_fd]; [split_and!; intros; lia|].
  assert (Hgo : let r := find_fd n table (fd + 1) in table !! Z.to_nat fd <> Some None ->
    fd <= r <= fd + S n /\ (forall k, fd <= k < r -> table !! Z.to_nat k <> Some None) /\ (r < fd + S n -> table !! Z.to_nat r = Some None)).
  { intros r Hne. destruct (IH (fd + 1) ltac:(lia)) as (H1 & H2 & H3). fold r in H1, H2, H3. split_and!; [lia|lia| |intros; apply H3; lia].
    intros k Hk. destruct (decide (k = fd)) as [->|]; [done|]. apply H2. lia. }
  destruct (table !! Z.to_nat fd) as [[f|]|] eqn:E; [by apply Hgo| |by apply Hgo].
  split_and!; [lia|lia|intros; lia|done].
Qed.

Section Calls.
Context (fuel : nat) (stack entry : list Z) (block : Z -> list Z) (writable : Z -> bool) (mem : bool).

Inductive call :=
| Create (file size : Z) | Remove (file : Z) | Open (file : Z) | Read (fd buffer size : Z) | Write (fd buffer size : Z)
| Seek (fd position : Z) | Tell (fd : Z) | Filesize (fd : Z) | Close (fd : Z) | Mmap (fd addr : Z).

Definition run (c : call) : scall Z :=
  match c with
  | Create f n => create fuel stack entry f n
  | Remove f => remove fuel stack f
  | Open f => open fuel stack f
  | Read fd b n => read block writable fd b n
  | Write fd b n => write fd b n
  | Seek fd n => seek fd n;~ done 0
  | Tell fd => tell fd
  | Filesize fd => filesize fd
  | Close fd => close fd;~ done 0
  | Mmap fd a => mmap mem fd a
  end.

(** The descriptor a call acts on, -1 if none. *)
Definition target (c : call) : Z :=
  match c with Read fd _ _ | Write fd _ _ | Seek fd _ | Close fd => fd | _ => -1 end.

Lemma keeps_fs_call {A} (m : ST fs A) t p : table_ok p ->
  wlp m (p_fs p) (fun _ s' => opens_ok s' /\ grows (p_fs p) s') -> wlp (lifts (on_fs m)) p (fun _ p' => keeps t p p').
Proof. intros Hp Hm. apply wlp_lifts, wlp_on_fs. eapply wlp_mono; [apply Hm|]. intros a s' [Hs Hg]. by apply keeps_grows. Qed.

Lemma on_fs_table {A} (m : ST fs A) p : wlp (lifts (on_fs m)) p (fun _ p' => fdtable p' = fdtable p).
Proof. apply wlp_lifts, wlp_on_fs. unfold wlp. by destruct (m (p_fs p)) as [[a s]| |]. Qed.

Lemma wlp_conj {A} (m : scall A) p (P Q : A + Z -> proc -> Prop) : wlp m p P -> wlp m p Q -> wlp m p (fun r p' => P r p' /\ Q r p').
Proof. unfold wlp. by destruct (m p) as [[r p']| |]. Qed.

Lemma grows_eq s s' : files s' = files s -> grows s s'.
Proof. intros E f x Hx. by rewrite E. Qed.

Lemma grows_retains {A} (m : ST fs A) s : retains m -> opens_ok s -> wlp m s (fun _ s' => opens_ok s' /\ grows s s').
Proof. intros Hm Hs. apply wlp_keeps; [done|]. intros a s' H'. split; [by eapply same_opens_ok|]. apply grows_eq, H'. Qed.

Lemma keeps_create f n p : table_ok p -> few 2 (p_fs p) -> wlp (create fuel stack entry f n) p (fun _ p' => keeps (-1) p p').
Proof.
  intros Hp Hf. apply keeps_quiet; [done|quiet|]. intros _ p1 [E1 _] H1. destruct (f =? 0); [by apply keeps_same|].
  apply keeps_quiet; [done|quiet|]. intros name p2 [E2 _] H2.
  apply keeps_then; [|intros; quiet]. apply keeps_fs_call; [done|]. eapply wlp_mono; [apply wlp_filesys_create; [apply H2|by rewrite E2, E1]|].
  intros r s' [Hs E]. split; [done|by apply grows_eq].
Qed.

Lemma keeps_remove f p : table_ok p -> few 2 (p_fs p) -> wlp (remove fuel stack f) p (fun _ p' => keeps (-1) p p').
Proof.
  intros Hp Hf. apply keeps_quiet; [done|quiet|]. intros _ p1 [E1 _] H1. destruct (f =? 0); [by apply keeps_same|].
  apply keeps_quiet; [done|quiet|]. intros name p2 [E2 _] H2.
  apply keeps_then; [|intros; quiet]. apply keeps_fs_call; [done|]. eapply wlp_mono; [apply wlp_filesys_remove; [apply H2|by rewrite E2, E1]|].
  intros r s' [Hs E]. split; [done|by apply grows_eq].
Qed.

(** Putting a new file, or none, into a free entry. *)
Lemma keeps_new_fd fd r p s' : table_ok p -> 2 <= fd < 128 -> fdtable p !! Z.to_nat fd = Some None -> opens_ok s' -> grows (p_fs p) s' ->
  (forall g, r = Some g -> is_Some (files s' !! g) /\ files (p_fs p) !! g = None) ->
  keeps (-1) p (set_fdtable (<[Z.to_nat fd := r]> (fdtable p)) (set_fs s' p)).
Proof.
  intros [H1 H2 H3 H4 H5] Hr Hfd Hs Hg Hnew. split; [split; simpl; try done|].
  - by rewrite length_insert.
  - intros k Hk. rewrite list_lookup_insert_ne by lia. by apply H2.
  - intros k f. rewrite list_lookup_insert. case_decide; [intros [= ->]; by apply Hnew|].
    intros Hf. destruct (H3 k f Hf) as [x Hx]. exists x. by apply Hg.
  - assert (Hno : forall k g, fdtable p !! k = Some (Some g) -> r <> Some g).
    { intros k g Hk E. destruct (H3 k g Hk) as [x Hx]. destruct (Hnew g E) as [_ Hn]. congruence. }
    intros k k' f. rewrite !list_lookup_insert. repeat case_decide; intros Ha Hb; try (simplify_eq; done || lia).
    + simplify_eq. exfalso. by eapply Hno.
    + simplify_eq. exfalso. by eapply Hno.
    + by eapply H4.
  - intros k f x _ Hf Hx. simpl. split; [|by apply Hg]. rewrite list_lookup_insert_ne; [done|]. intros <-. congruence.
Qed.

(** What [open] does, with the descriptor it returns. *)
Lemma open_run f p : table_ok p -> few 2 (p_fs p) ->
  wlp (open fuel stack f) p (fun r p' => keeps (-1) p p' /\
    forall fd, r = inl fd -> fd = -1 \/
      2 <= fd < 128 /\ fdtable p !! Z.to_nat fd = Some None /\
      (forall k, 2 <= k < fd -> fdtable p !! Z.to_nat k <> Some None) /\
      exists g a, fdtable p' !! Z.to_nat fd = Some (Some g) /\ files (p_fs p') !! g = Some (mk_file a 0 false)).
Proof.
  intros Hp Hf. unfold open. apply wlp_andthen. eapply wlp_mono; [apply quiet_validate_string|].
  intros [_|st] p1 S1; [|split; [by apply keeps_same|done]]. pose proof S1 as [E1 T1]. assert (H1 := same_table_ok _ _ S1 Hp).
  apply wlp_andthen, wlp_lifts, wlp_gets. destruct (find_fd_spec 126 (fdtable p1) 2 ltac:(lia)) as (R1 & R2 & R3).
  set (fd := find_fd 126 (fdtable p1) 2) in *. cbv zeta in R1, R2, R3. unfold NUM_FD. destruct (Z.eqb_spec fd 128) as [E|Hne].
  { split; [by apply keeps_same|]. intros x [= <-]. by left. }
  apply wlp_andthen. eapply wlp_mono; [apply quiet_user_string|].
  intros [name|st] p2 S2; [|split; [eapply keeps_same; [done|by eapply same_table_trans]|done]].
  assert (S12 := same_table_trans _ _ _ S1 S2). pose proof S12 as [E2 T2]. assert (H2 := same_table_ok _ _ S12 Hp).
  apply wlp_andthen, wlp_lifts, wlp_on_fs. eapply wlp_mono; [apply wlp_filesys_open; [apply H2|by rewrite E2]|].
  intros r s' (Hs & Hg & Hnew). apply wlp_andthen, wlp_lifts, wlp_modify.
  assert (Efd : fdtable p1 = fdtable p2) by congruence. clear T1. rewrite Efd in R2, R3. simpl.
  assert (Hk : keeps (-1) p2 (set_fdtable (<[Z.to_nat fd := r]> (fdtable p2)) (set_fs s' p2))).
  { apply keeps_new_fd; [done|lia|apply R3; lia|done|done|]. intros g Eg. destruct (Hnew g Eg) as (a & Hn & Hx). split; [by eexists|done]. }
  split; [eapply keeps_trans; [by apply keeps_same|done]|]. intros x [= <-]. destruct r as [g|]; [right|by left].
  rewrite <- T2. split_and!; [lia|lia|apply R3; lia|done|]. destruct (Hnew g eq_refl) as (a & _ & Hx). exists g, a. simpl.
  split; [|done]. apply list_lookup_insert_eq. rewrite (tk_len p2 H2). lia.
Qed.

Lemma keeps_read fd b n p : table_ok p -> wlp (read block writable fd b n) p (fun _ p' => keeps fd p p').
Proof.
  intros Hp. unfold read. destruct (b =? 0), (fd =? 1), (fd =? 0); try (solve [apply keeps_of_quiet; [done|quiet]]).
  apply wlp_andthen, wlp_get_fd; [|by apply keeps_same]. intros file Hr Hfd. apply wlp_andthen.
  eapply wlp_mono; [apply wlp_conj; [apply (keeps_fs_call malloc fd p Hp), grows_retains; [retains|apply Hp]|apply on_fs_table]|].
  intros [m|st] p1 [K1 T1]; [|done]. destruct file as [f|]; [|done]. rewrite <- T1 in Hfd.
  eapply wlp_mono; [|intros r p2 K2; eapply keeps_trans; [exact K1|exact K2]].
  apply keeps_then; [|intros; quiet]. apply (keeps_on_file _ _ f); [apply K1|done|]. apply wlp_file_read. apply K1.
Qed.

Lemma keeps_write fd b n p : table_ok p -> wlp (write fd b n) p (fun _ p' => keeps fd p p').
Proof.
  intros Hp. unfold write. apply keeps_quiet; [done|quiet|]. intros _ p1 S1 H1. destruct (fd =? 1).
  - apply keeps_of_quiet; [done|]. quiet. by intros p2.
  - apply wlp_andthen, wlp_get_fd; [|by apply keeps_same]. intros [f|] Hr Hfd; [|by apply keeps_same].
    apply keeps_quiet; [done|quiet|]. intros bytes p2 [_ T2] H2. rewrite <- T2 in Hfd.
    apply (keeps_on_file _ _ f); [done..|]. apply wlp_file_write. apply H2.
Qed.

Lemma keeps_seek fd n p : table_ok p -> wlp (seek fd n) p (fun _ p' => keeps fd p p').
Proof.
  intros Hp. unfold seek. apply wlp_andthen, wlp_get_fd; [|by apply keeps_same]. intros [f|] Hr Hfd; [|done].
  apply (keeps_on_file _ _ f); [done..|]. apply wlp_file_seek, Hp.
Qed.

(** Calls that only look at the file of a descriptor. *)
Lemma keeps_look {A} (m : Z -> ST fs A) t fd p : table_ok p -> (forall f, retains (m f)) ->
  wlp (file <~ get_fd fd; not_null file m) p (fun _ p' => keeps t p p').
Proof.
  intros Hp Hm. apply wlp_andthen, wlp_get_fd; [|by apply keeps_same]. intros [f|] Hr Hfd; [|done].
  apply keeps_fs_call; [done|]. apply grows_retains; [apply Hm|apply Hp].
Qed.

Lemma keeps_close fd p : table_ok p -> wlp (close fd) p (fun _ p' => keeps fd p p').
Proof.
  intros Hp. unfold close. apply wlp_andthen, wlp_get_fd; [|by apply keeps_same]. intros file Hr Hfd.
  destruct (Z.ltb_spec fd 2); [by apply keeps_same|]. destruct file as [f|]; [|by apply keeps_same].
  apply wlp_andthen, wlp_lifts, wlp_on_fs. eapply wlp_mono; [apply wlp_file_close, Hp|]. intros _ s' [Hs E].
  apply wlp_lifts, wlp_modify. destruct Hp as [H1 H2 H3 H4 H5]. assert (Hf : forall k g, k <> Z.to_nat fd -> fdtable p !! k = Some (Some g) -> f <> g).
  { intros k g Hk Hg ->. by apply Hk, (H4 k _ g). }
  split; [split; simpl; try done|].
  - by rewrite length_insert.
  - intros k Hk. rewrite list_lookup_insert_ne by lia. by apply H2.
  - intros k g. rewrite list_lookup_insert. case_decide; [done|]. intros Hg. rewrite E, lookup_delete_ne; [by apply (H3 k)|]. apply (Hf k g); [lia|done].
  - intros k k' g. rewrite !list_lookup_insert. repeat case_decide; try done. apply H4.
  - intros k g x Hk Hg Hx. simpl. rewrite E, list_lookup_insert_ne, lookup_delete_ne by (lia || (apply (Hf k g); [lia|done])). done.
Qed.

Lemma keeps_mmap fd a p : table_ok p -> few 2 (p_fs p) -> wlp (mmap mem fd a) p (fun _ p' => keeps (-1) p p').
Proof.
  intros Hp Hf. unfold mmap. apply wlp_andthen, wlp_get_fd; [|by apply keeps_same]. intros [f|] Hr Hfd; [|by apply keeps_same].
  destruct (_ || _); [by apply keeps_same|]. apply wlp_andthen. eapply wlp_mono; [apply (keeps_fs_call _ (-1) p Hp)|].
  { eapply wlp_mono; [apply wlp_file_reopen; [apply Hp|by eapply few_weaken]|]. intros r s' (? & ? & _). done. }
  intros [r|st] p1 K1; [|done]. eapply wlp_mono; [|intros x p2 K2; eapply keeps_trans; [exact K1|exact K2]].
  destruct r as [g|]; [|done]. apply keeps_then; [|intros; quiet].
  apply keeps_fs_call; [apply K1|]. apply grows_retains; [unfold file_length; retains|apply K1].
Qed.

Lemma run_keeps c p : table_ok p -> few 2 (p_fs p) -> wlp (run c) p (fun _ p' => keeps (target c) p p').
Proof.
  intros Hp Hf. destruct c; cbn [run target].
  - by apply keeps_create.
  - by apply keeps_remove.
  - eapply wlp_mono; [by apply open_run|]. by intros r p' [? _].
  - by apply keeps_read.
  - by apply keeps_write.
  - apply keeps_then; [by apply keeps_seek|intros; quiet].
  - apply keeps_look; [done|]. intros f. unfold file_tell. retains.
  - apply keeps_look; [done|]. intros f. unfold file_length. retains.
  - apply keeps_then; [by apply keeps_close|intros; quiet].
  - by apply keeps_mmap.
Qed.

(** A call that returns to the process, or ends it. *)
Definition sys_step (p p' : proc) : Prop := few 2 (p_fs p) /\ exists c r, run c p = Ret (r, p').


End Calls.

(** ** User memory *)

Lemma validate_read_loop_run n buffer c p : 0 <= buffer -> 0 <= c -> buffer + c + Z.of_nat n <= 2 ^ 32 -> (forall a b, umem p !! a = Some b -> 0 <= b) ->
  let ok := forall a, buffer + c <= a < buffer + c + Z.of_nat n -> is_Some (umem p !! a) in
  (ok -> validate_read_loop n buffer c p = Ret (inl tt, p)) /\ (~ ok -> validate_read_loop n buffer c p = Ret (inr (-1), p)).
Proof.
  intros Hb0 Hc0 Hw Hbytes. revert c Hc0 Hw. induction n as [|n IH]; intros c Hc0 Hw ok.
  { split; [done|]. intros Hno. destruct Hno. intros a Ha. lia. }
  cbn [validate_read_loop]. unfold andthen at 1 2, lifts at 1 2, get_user, mbind, ST_bind, gets, mret, ST_ret.
  rewrite u32_small by (urange; lia). destruct (umem p !! (buffer + c)) as [b|] eqn:Eb; cbn [default].
  - assert (0 <= b) by (by eapply Hbytes). simpl. destruct (Z.eqb_spec b (-1)); [lia|]. destruct (IH (c + 1) ltac:(lia) ltac:(lia)) as [I1 I2].
    split; intros Hok; [apply I1|apply I2; intros Hok'; apply Hok].
    + intros a Ha. apply Hok. lia.
    + intros a Ha. destruct (decide (a = buffer + c)) as [->|]; [by rewrite Eb|]. apply Hok'. lia.
  - simpl. split; [|done]. intros Hok. destruct (Hok (buffer + c) ltac:(lia)) as [x Hx]. congruence.
Qed.


(** ** An example

    Two descriptors with files that share an inode, and a byte of user
    memory. *)

Definition demo_proc : proc :=
  mk_proc demo_open ([None; None; Some 10; Some 11] ++ replicate 124 None) (mk_lazy (mk_hash 0 4 [[]; []; []; []]) 10) {[ 0x1000 := 7 ]} [].

Lemma demo_entry (fd : nat) f : fdtable demo_proc !! fd = Some (Some f) -> fd = 2%nat /\ f = 10 \/ fd = 3%nat /\ f = 11.
Proof.
  cbn [fdtable demo_proc]. do 4 (destruct fd as [|fd]; [intros [= <-]; auto|]).
  intros H. change (replicate 124 (@None Z) !! fd = Some (Some f)) in H. revert H.
  intros [= E]%list_elem_of_lookup_2%elem_of_replicate_inv.
Qed.

Lemma demo_proc_ok : table_ok demo_proc.
Proof.
  split; [reflexivity| | | |apply demo_open_ok].
  - intros [|[|fd]] H; [reflexivity..|lia].
  - intros fd f [[_ ->]|[_ ->]]%demo_entry; eexists; reflexivity.
  - intros fd fd' f H1%demo_entry H2%demo_entry. lia.
Qed.

Lemma demo_few : few 2 (p_fs demo_proc).
Proof. intros a i. cbn. rewrite lookup_singleton_Some. intros [_ <-]. reflexivity. Qed.

Definition demo_seek : outcome ((Z + Z) * proc) := run 10 [] [] (fun _ => []) (fun _ => true) true (Seek 3 7) demo_proc.


Definition demo_halt : scall Z := exit 0.


